(* ===== verification/_CoqProject ===== *)
-Q . S2P
Prelude.v
StateHash.v
Interrupts.v
Keypad.v
BusTypes.v
WaitState.v
Timers.v
TimersSpec.v
PpuTiming.v
PpuTimingSpec.v
MemoryBus.v
PpuBackground.v
PpuSprites.v
PpuFetchSpec.v
PpuRenderer.v
PpuRendererSpec.v
Apu.v
ApuSpec.v
ApuTyped.v
Dma.v
IoRegisters.v
DmaTransfer.v
DmaSpec.v
MemoryBusSpec.v
BusSafety.v
BusInterface.v
IoRegistersSpec.v
DmaTransferSpec.v
StateMonad.v
ArmTypes.v
ArmDecode.v
ThumbDecode.v
ArmState.v
ArmMultiply.v
ArmExecute.v
ThumbExecute.v
ArmMemory.v
ArmTiming.v
ArmSafety.v
ArmTotal.v
ArmFlagsSpec.v
ArmBankSpec.v
ArmMemorySafety.v
ArmStepSafety.v
Bios.v
BiosSpec.v
SchedulerTiming.v
SchedulerProbe.v
SchedulerState.v
SchedulerDevices.v
SchedulerDevicesSpec.v
SchedulerSafety.v
SchedulerProbeSafety.v
SchedulerWait.v
SchedulerWaitSafety.v
SchedulerIrq.v
SchedulerIrqSafety.v
HleDecompress.v
HleDecompressSpec.v
HleServices.v
HleSafety.v
SchedulerStep.v
SchedulerStepSafety.v
SchedulerFetch.v
SchedulerFetchSafety.v
CoreSession.v
CoreSessionSpec.v
ProgramHarness.v
AndroidRuntime.v
AndroidRuntimeSpec.v
AndroidBridge.v
Persistence.v
PersistenceSpec.v
SaveStateCodec.v
SaveStateSpec.v
SaveStateRestore.v
HostPolicy.v
DesktopHost.v
HostSpec.v
HeadlessLab.v
