(* ===== verification/Prelude.v ===== *)
(** * Verification of the GBA_Emulator core

    GBA_Emulator is a Game Boy Advance emulator in C++17.  Its core is a set of
    components under [src/core], each a class with its state, its operations, a
    [save_state]/[load_state] pair and a [state_hash], driven by
    [CoreScheduler]: the processor fetches, decodes and executes through the
    memory bus; the bus keeps the RAM, palette, video and cartridge arrays and
    passes the IO page to [IoRegisters], which dispatches it to the devices;
    after every instruction the scheduler advances timers, audio, display and
    DMA by the cycles that passed and delivers interrupts.

    ** The files

    - [Prelude.v] (this file): C++ integers as wrapped [Z], [exc] (a result or
      a throw), record update, bit tactics, checked array access.
      [StateMonad.v]: the state and exception monad of the processor and the
      scheduler, with the lemmas that run it.
    - [StateHash.v] ([state_hash.hpp]), [Interrupts.v]
      ([interrupt_controller.cpp]), [Keypad.v] ([keypad.cpp]), [WaitState.v]
      ([wait_state_control.cpp]): the small components and their properties.
    - [Timers.v], [TimersSpec.v] ([timers.cpp]): the batched counters against a
      tick-by-tick reference, totality and the snapshot.
    - [PpuTiming.v], [PpuTimingSpec.v] ([ppu_timing.cpp]): the line and frame
      state machine against its cycle-by-cycle reference.
    - [PpuBackground.v], [PpuSprites.v], [PpuFetchSpec.v], [PpuRenderer.v],
      [PpuRendererSpec.v] ([ppu_background.cpp], [ppu_sprites.cpp],
      [ppu_renderer.cpp]): pixel fetching and scanline composition; the two
      foremost layers, the frame condition, the sprite budget.
    - [Apu.v], [ApuSpec.v] ([apu.cpp]): registers, FIFOs as bounded queues, PSG
      channels, the mixer, cycle accounting.
    - [BusTypes.v], [MemoryBus.v], [MemoryBusSpec.v], [BusSafety.v]
      ([memory_bus.cpp], [memory_bus.hpp]): address classification, reads and
      stores of every width, the Flash and EEPROM protocols, snapshots; no
      access is out of an array's range.  [BusInterface.v] is the class
      [MemoryInterface], what the bus promises the processor.
    - [Dma.v], [DmaTransfer.v] ([dma_controller.cpp]) and [IoRegisters.v]
      ([io_registers.cpp]): channel registers and transfers over the whole
      machine; the IO page over the record [Devices] of every device.
    - [ArmTypes.v], [ArmDecode.v], [ThumbDecode.v], [ArmState.v],
      [ArmMultiply.v], [ArmExecute.v], [ThumbExecute.v], [ArmMemory.v],
      [ArmTiming.v] ([arm7tdmi.cpp], [arm7tdmi.hpp]): the processor, from the
      decoders to [step_arm] and [step_thumb].  [ArmSafety.v], [ArmTotal.v],
      [ArmMemorySafety.v], [ArmStepSafety.v]: its invariant and the totality of
      every call.  [ArmFlagsSpec.v]: arithmetic against the architecture's
      adder.  [ArmBankSpec.v]: the copied banks refine sixteen banked registers
      per mode, and interrupt service.
    - [Bios.v], [BiosSpec.v] ([bios.cpp]): the arithmetic BIOS services.
      [ApuTyped.v]: the widths of the audio unit's values.  [IoRegistersSpec.v]:
      the invariants of all devices together and the safety of every register
      access.  [DmaSpec.v], [DmaTransferSpec.v]: the invariant of the channels,
      and that transfers over the whole machine, which may rewrite the
      registers of the controller itself, end.
    - The scheduler ([core_scheduler.cpp], [core_scheduler.hpp]), over the
      record [Core] of the processor, the bus, the devices and its own state:
      [SchedulerState.v], [SchedulerTiming.v] (cycles of data accesses),
      [SchedulerProbe.v] (what an instruction will do), [SchedulerDevices.v]
      ([advance_devices] and interrupt service), [SchedulerWait.v] (waiting for
      interrupts), [SchedulerIrq.v] (the interrupt vector without a BIOS
      image), [SchedulerStep.v] (one instruction), [SchedulerFetch.v] (fetch
      timing, the prefetch buffer, runs).  [SchedulerSafety.v],
      [SchedulerProbeSafety.v], [SchedulerDevicesSpec.v],
      [SchedulerWaitSafety.v], [SchedulerIrqSafety.v],
      [SchedulerStepSafety.v], [SchedulerFetchSafety.v]: its invariant
      [core_ok], and that each of these returns and keeps it.
    - [HleDecompress.v], [HleDecompressSpec.v], [HleServices.v], [HleSafety.v]
      (the emulated BIOS in [core_scheduler.cpp]): the decompressors, the
      other services, their safety.
    - [CoreSession.v], [CoreSessionSpec.v] ([core_session.cpp]): the session,
      and that no sequence of calls throws.  [ProgramHarness.v]
      ([program_harness.cpp], [compatibility_corpus.cpp]): running a program
      and judging it.
    - [SaveStateCodec.v] ([save_state_codec.cpp]),
      [SaveStateSpec.v], [SaveStateRestore.v]: the wire format, its laws, the
      round trip of a whole session and the validation of what is read.
    - The hosts.  [AndroidRuntime.v], [AndroidRuntimeSpec.v]
      ([android_runtime.cpp]): frames, their picture and sound.
      [AndroidBridge.v] ([android_core_bridge.cpp],
      [android_performance_gate.cpp]): the C functions over handles, the pacing
      statistics.  [Persistence.v], [PersistenceSpec.v]
      ([desktop_persistence.hpp]): files over a file system that fails, with a
      logic of crashes.  [HostPolicy.v] ([save_state_guard.hpp],
      [save_type_selection.hpp], [async_save_writer.hpp],
      [frame_interval_stats.hpp]), [DesktopHost.v] ([desktop_app.cpp]),
      [HostSpec.v]: the desktop program without its window.  [HeadlessLab.v]
      ([main.cpp]): command line, input script, SHA-256, deterministic runs and
      their verdict.

    ** How the model corresponds to the code

    An unsigned [w]-bit integer is a [Z] reduced by [wrap w] wherever the code
    reduces it, a signed one by [swrap w]; narrowing casts are written out.  A
    class is a record with the same field names; an operation that changes it
    returns the new record, with the result of the C++ function first where it
    has one.  [std::array::at] is [array_at], which throws as the code does;
    every [throw] is [Throw].  A reference to another component is an argument
    or a component of the threaded state; callbacks ([IoCallbacks]) are the
    record [io] of functions on the devices, instantiated by [io_callbacks].
    An annotation [(* @ file:lines symbol *)] before a definition names the
    lines it translates.

    ** Theorem groups

    Type safety: every operation of the timers, the audio unit, the memory bus
    and the processor returns from a well-formed state, and keeps it
    well-formed.  Equivalence with a reference: batched timers, display timing
    and audio against one cycle at a time; flag arithmetic against the
    architecture's adder.  Refinement: banked registers, FIFO
    queues, layer composition.  Round trips: stores and loads, EEPROM blocks,
    snapshots, whole save states.  Bounds, protocol safety (locked Flash) and
    functional behaviour of interrupts and exceptions.  The hosts:
    only whole frames are shown, no exception crosses the C boundary, a killed
    or failing write leaves the old or the new save, a save state is loaded
    only into its own game, a rejected game leaves the running one, the exit
    code of a headless run says whether it completed.

    ** Fuel

    The loops whose trip count is not a structural argument take fuel computed
    from the state they run on: [frame_loop] and [audio_loop] the cycles over
    the period, [increment_timer] the number of timers, [tick_loop] the cycles,
    [multiplier_loop] sixteen 8-bit rounds; the totality theorems show it is
    never exhausted ([Throw] when it would be).  The [loop]
    and [iterate] of the scheduler and of the services run [2^k] steps, more
    than the 32-bit counters they replace allow; [advance_loop] has
    [kAdvanceFuel] intervals, more than the measure of [SchedulerDevicesSpec.v];
    [wait_loop] and [transfer_loop] more than two frames and 0x10000 units
    need; a decompressor has the announced size of its output; a run is
    structural in the number of instructions asked for.
    A frame of the runtime has the fuel it is given:
    its theorem says that the frame ended or that so many instructions ran.
    [drain_audio] has the size of the audio buffer; the search of a backup name
    the thousand tries of the code.  The
    readers of [HeadlessLab.v] have the length of the text, more than the commas
    in it.

    ** Not modelled

    The window, textures, audio device, clocks and dialogs of the desktop
    program (SDL), the PNG encoder and the measured times of a headless run; what SDL
    reports is an argument of [DesktopHost.v].  The mutex of the C bridge: one caller at a
    time.  The suite runner and the benchmarks drive the core and print; the
    tests are tests.  The debug trace sink of the scheduler.  The third-party
    code under [third_party] is a library. *)

From Stdlib Require Export ZArith Lia.
From stdpp Require Export base numbers list option decidable.

#[global] Open Scope Z_scope.

(** ** C++ integers

    An unsigned [w]-bit integer is a [Z] in [0, 2^w); [wrap w] is the
    conversion [static_cast<uintw_t>] and the reduction of every unsigned
    arithmetic operation. *)

Definition wrap (w x : Z) : Z := x mod 2 ^ w.

Definition fits (w x : Z) : Prop := 0 <= x < 2 ^ w.

Abbreviation u8 := (wrap 8).
Abbreviation u16 := (wrap 16).
Abbreviation u32 := (wrap 32).
Abbreviation u64 := (wrap 64).

(** [swrap w] is the two's-complement reading of the low [w] bits
    ([static_cast<intw_t>]). *)
Definition swrap (w x : Z) : Z :=
  let r := wrap w x in if r <? 2 ^ (w - 1) then r else r - 2 ^ w.

Abbreviation i8 := (swrap 8).
Abbreviation i16 := (swrap 16).
Abbreviation i32 := (swrap 32).

Definition sfits (w x : Z) : Prop := - 2 ^ (w - 1) <= x < 2 ^ (w - 1).

(** [(v & m) != 0]. *)
Definition has (v m : Z) : bool := negb (Z.land v m =? 0).

(** [b ? 1 : 0]. *)
Definition z_of_bool (b : bool) : Z := if b then 1 else 0.

#[global] Instance fits_dec w x : Decision (fits w x).
Proof. unfold fits. apply _. Defined.

(** ** Exceptions

    [exc A] is the result of code that returns an [A] or throws
    ([std::out_of_range]: every [throw] of the modelled code is one). *)

Inductive exc (A : Type) : Type :=
  | Ret (a : A)
  | Throw.
Arguments Ret {A} a.
Arguments Throw {A}.

#[global] Instance exc_ret : MRet exc := fun A a => Ret a.
#[global] Instance exc_bind : MBind exc :=
  fun A B f m => match m with Ret a => f a | Throw => Throw end.
#[global] Instance exc_fmap : FMap exc :=
  fun A B f m => match m with Ret a => Ret (f a) | Throw => Throw end.

Definition returns {A} (m : exc A) : Prop := exists a, m = Ret a.

(** [array.at(i)]: the bounds-checked access. *)
Definition array_at {A} (l : list A) (i : nat) : exc A :=
  match l !! i with Some a => Ret a | None => Throw end.

(** [array.at(i) = v]. *)
Definition array_put {A} (l : list A) (i : nat) (v : A) : exc (list A) :=
  if decide (i < length l)%nat then Ret (<[i := v]> l) else Throw.

(** A computation that returns a value with a property. *)
Definition ensures {A} (P : A -> Prop) (m : exc A) : Prop := exists a, m = Ret a /\ P a.

Lemma ensures_ret {A} (P : A -> Prop) a : P a -> ensures P (Ret a).
Proof. by exists a. Qed.

Lemma ensures_bind {A B} (P : A -> Prop) (Q : B -> Prop) (m : exc A) (f : A -> exc B) :
  ensures P m -> (forall a, P a -> ensures Q (f a)) -> ensures Q (m ≫= f).
Proof. intros (a & -> & Ha) Hf. exact (Hf a Ha). Qed.

Lemma ensures_weaken {A} (P Q : A -> Prop) (m : exc A) :
  ensures P m -> (forall a, P a -> Q a) -> ensures Q m.
Proof. intros (a & E & Ha) H. exists a. auto. Qed.

(** ** Record update

    [r <| f := v |>] is [r] with its field [f] assigned, [r <| f ::= g |>]
    with the field mapped.  A record opts in with an instance of [Eta], its
    eta-expansion. *)

Class Eta (R : Type) : Type := eta_record : R -> R.

Class FieldSetter {R E : Type} (getter : R -> E) : Type :=
  set_field : (E -> E) -> R -> R.
Arguments set_field {R E} getter {_} _ _ : assert.

Ltac solve_field_setter getter :=
  lazymatch type of getter with
  | ?R -> ?E =>
      let inst := constr:(_ : Eta R) in
      let eta := eval hnf in inst in
      exact (fun (f : E -> E) (r : R) =>
               ltac:(let body := eval cbv beta in (eta r) in
                     lazymatch body with
                     | context C [getter r] =>
                         let upd := context C [f (getter r)] in exact upd
                     end))
  end.

#[global] Hint Extern 1 (FieldSetter ?getter) =>
  solve_field_setter getter : typeclass_instances.

Declare Scope record_scope.
#[global] Open Scope record_scope.
Notation "r <| f := v |>" := (set_field f (fun _ => v) r)
  (at level 1, left associativity, f at level 0, v at level 99) : record_scope.
Notation "r <| f ::= g |>" := (set_field f g r)
  (at level 1, left associativity, f at level 0, g at level 99) : record_scope.

(** ** Width lemmas *)

Section Width.
Context (w : Z) (Hw : 0 <= w).

Lemma pow_pos : 0 < 2 ^ w.
Proof using Hw. apply Z.pow_pos_nonneg; lia. Qed.

Lemma wrap_fits x : fits w (wrap w x).
Proof using Hw. unfold fits, wrap. apply Z.mod_pos_bound, pow_pos. Qed.

Lemma wrap_id x : fits w x -> wrap w x = x.
Proof using Type. intros H. apply Z.mod_small, H. Qed.

Lemma fits_wrap_id x : fits w x <-> wrap w x = x.
Proof using Hw.
  split; [apply wrap_id|]. intros <-. apply wrap_fits.
Qed.

Lemma wrap_wrap x : wrap w (wrap w x) = wrap w x.
Proof using Hw. apply wrap_id, wrap_fits. Qed.

Lemma testbit_wrap x i :
  0 <= i -> Z.testbit (wrap w x) i = (i <? w) && Z.testbit x i.
Proof using Hw.
  intros Hi. unfold wrap. destruct (Z.ltb_spec i w).
  - rewrite Z.mod_pow2_bits_low by lia. reflexivity.
  - rewrite Z.mod_pow2_bits_high by lia. reflexivity.
Qed.

Lemma fits_testbit_high x i : fits w x -> w <= i -> Z.testbit x i = false.
Proof using Hw.
  intros H Hi. rewrite <- (wrap_id x H), testbit_wrap by lia.
  destruct (Z.ltb_spec i w); [lia|reflexivity].
Qed.

Lemma testbit_high_fits x :
  0 <= x -> (forall i, w <= i -> Z.testbit x i = false) -> fits w x.
Proof using Hw.
  intros Hx H. apply fits_wrap_id. apply Z.bits_inj'. intros i Hi.
  rewrite testbit_wrap by lia. destruct (Z.ltb_spec i w); [done|].
  symmetry. apply H. lia.
Qed.

(** Two [w]-bit values are equal when their [w] bits are. *)
Lemma bits_ext x y :
  fits w x -> fits w y ->
  (forall i, 0 <= i < w -> Z.testbit x i = Z.testbit y i) -> x = y.
Proof using Hw.
  intros Hx Hy H. apply Z.bits_inj'. intros i Hi.
  destruct (Z.lt_ge_cases i w); [by apply H|].
  by rewrite !fits_testbit_high.
Qed.

Lemma fits_land_l x y : fits w x -> fits w (Z.land x y).
Proof using Hw.
  intros Hx. apply testbit_high_fits.
  - apply Z.land_nonneg. left. apply Hx.
  - intros i Hi. by rewrite Z.land_spec, (fits_testbit_high x i Hx Hi).
Qed.

Lemma fits_land_r x y : fits w y -> fits w (Z.land x y).
Proof using Hw. rewrite Z.land_comm. apply fits_land_l. Qed.

Lemma fits_lor x y : fits w x -> fits w y -> fits w (Z.lor x y).
Proof using Hw.
  intros Hx Hy. apply testbit_high_fits.
  - apply Z.lor_nonneg. split; [apply Hx|apply Hy].
  - intros i Hi. by rewrite Z.lor_spec, !fits_testbit_high.
Qed.

Lemma fits_lxor x y : fits w x -> fits w y -> fits w (Z.lxor x y).
Proof using Hw.
  intros Hx Hy. apply testbit_high_fits.
  - apply Z.lxor_nonneg. destruct Hx, Hy. lia.
  - intros i Hi. by rewrite Z.lxor_spec, !fits_testbit_high.
Qed.

Lemma fits_shiftr x n : 0 <= n -> fits w x -> fits w (Z.shiftr x n).
Proof using Hw.
  intros Hn Hx. apply testbit_high_fits.
  - apply Z.shiftr_nonneg, Hx.
  - intros i Hi. rewrite Z.shiftr_spec by lia.
    apply fits_testbit_high; [done|lia].
Qed.
End Width.

Lemma fits_mono w w' x : 0 <= w <= w' -> fits w x -> fits w' x.
Proof.
  unfold fits. intros Hw [H1 H2].
  pose proof (Z.pow_le_mono_r 2 w w'). lia.
Qed.

Lemma wrap_add_l w x y : wrap w (wrap w x + y) = wrap w (x + y).
Proof. unfold wrap. apply Zplus_mod_idemp_l. Qed.

Lemma wrap_add_r w x y : wrap w (x + wrap w y) = wrap w (x + y).
Proof. unfold wrap. apply Zplus_mod_idemp_r. Qed.

Lemma land_le x m : 0 <= x -> Z.land x m <= x.
Proof.
  intros Hx. cut (0 <= x - Z.land x m); [lia|].
  rewrite Z.sub_nocarry_ldiff; [apply Z.ldiff_nonneg; lia|].
  apply Z.bits_inj'. intros i Hi. rewrite Z.ldiff_spec, Z.land_spec, Z.bits_0.
  by destruct (Z.testbit x i), (Z.testbit m i).
Qed.

Lemma land_range x m : 0 <= m -> 0 <= Z.land x m <= m.
Proof.
  intros Hm. split; [apply Z.land_nonneg; by right|]. rewrite Z.land_comm. by apply land_le.
Qed.

Lemma has_bit v n : 0 <= n -> has v (2 ^ n) = Z.testbit v n.
Proof.
  intros Hn. unfold has.
  assert (Hb : Z.testbit (Z.land v (2 ^ n)) n = Z.testbit v n).
  { rewrite Z.land_spec, Z.pow2_bits_true by lia. apply andb_true_r. }
  destruct (Z.eqb_spec (Z.land v (2 ^ n)) 0) as [H0|H0]; simpl.
  - rewrite H0, Z.bits_0 in Hb. done.
  - destruct (Z.testbit v n) eqn:E; [done|]. exfalso. apply H0.
    apply Z.bits_inj'. intros i Hi. rewrite Z.land_spec, Z.pow2_bits_eqb, Z.bits_0 by lia.
    destruct (Z.eqb_spec n i) as [->|]; [by rewrite E|apply andb_false_r].
Qed.

(** ** Bit enumeration

    A statement about an arbitrary bit of a 16-bit register is checked on
    each of its bits. *)

Lemma in_seqZ_cases (n : nat) (i : Z) :
  0 <= i < Z.of_nat n -> In i (map Z.of_nat (seq 0 n)).
Proof.
  intros H. rewrite <- (Z2Nat.id i) by lia. apply in_map, in_seq. lia.
Qed.

Ltac bit_cases i n :=
  let H := fresh "Hin" in
  assert (H : In i (map Z.of_nat (seq 0 n))) by (apply in_seqZ_cases; lia);
  vm_compute in H;
  repeat (destruct H as [<-|H]);
  [..|destruct H].

Create Rewrite HintDb bits.
#[global] Hint Rewrite
  Z.land_spec Z.lor_spec Z.lxor_spec Z.bits_0 Z.ldiff_spec
  : bits.
#[global] Hint Rewrite Z.lnot_spec Z.shiftr_spec Z.shiftl_spec testbit_wrap using lia : bits.
#[global] Hint Rewrite andb_true_r andb_false_r andb_true_l andb_false_l
  orb_true_r orb_false_r orb_true_l orb_false_l negb_involutive : bits.

(** [zcmp] decides the integer comparisons of the goal, by cases where the
    context does not settle them. *)
Ltac zcmp :=
  repeat match goal with
  | |- context [?a <=? ?b] => destruct (Z.leb_spec a b); try lia; cbn [andb orb negb]
  | |- context [?a <? ?b] => destruct (Z.ltb_spec a b); try lia; cbn [andb orb negb]
  | |- context [?a =? ?b] => destruct (Z.eqb_spec a b); try lia; cbn [andb orb negb]
  end.

(** [bits] pushes [Z.testbit] through the operators. *)
Ltac bits := autorewrite with bits.

Create HintDb width.
#[export] Hint Resolve wrap_fits fits_land_r fits_land_l fits_lor fits_lxor fits_shiftr : width.
#[export] Hint Extern 0 (0 <= _) => lia : width.
#[export] Hint Extern 1 (fits _ _) => (unfold fits; lia) : width.
#[export] Hint Extern 5 (fits _ ?x) =>
  (lazymatch x with Z0 => idtac | Zpos _ => idtac | _ => is_const x end;
   vm_compute; split; congruence) : width.

Ltac width := eauto 8 with width.

Lemma swrap_range w v : 0 < w -> sfits w (swrap w v).
Proof.
  intros Hw. unfold swrap, sfits. pose proof (wrap_fits w ltac:(lia) v) as H. unfold fits in H.
  assert (2 ^ w = 2 * 2 ^ (w - 1)) by (rewrite <- Z.pow_succ_r by lia; f_equal; lia).
  destruct (Z.ltb_spec (wrap w v) (2 ^ (w - 1))); lia.
Qed.

(** ** Exception lemmas *)

Lemma array_at_Ret {A} (l : list A) i a : l !! i = Some a -> array_at l i = Ret a.
Proof. unfold array_at. by intros ->. Qed.

Lemma array_at_lt {A} (l : list A) i :
  (i < length l)%nat -> exists a, l !! i = Some a /\ array_at l i = Ret a.
Proof.
  intros H. destruct (lookup_lt_is_Some_2 l i H) as [a Ha].
  exists a. split; [done|by apply array_at_Ret].
Qed.

Lemma array_at_ge {A} (l : list A) i : (length l <= i)%nat -> array_at l i = Throw.
Proof. intros H. unfold array_at. by rewrite lookup_ge_None_2. Qed.

Lemma array_put_lt {A} (l : list A) i v :
  (i < length l)%nat -> array_put l i v = Ret (<[i := v]> l).
Proof. intros H. unfold array_put. by rewrite decide_True. Qed.

Lemma array_put_ge {A} (l : list A) i v : (length l <= i)%nat -> array_put l i v = Throw.
Proof. intros H. unfold array_put. rewrite decide_False by lia. done. Qed.
