(* ===== verification/StateHash.v ===== *)
(** * State hashing ([include/gba/core/state_hash.hpp])

    [StateHasher] is a 64-bit FNV-1a hash; every component's [state_hash]
    feeds its fields to it.  The state of a hasher is its 64-bit [hash_]. *)

From S2P Require Import Prelude.

(* @ state_hash.hpp:11-11 StateHasher::kOffsetBasis *)
Definition kOffsetBasis : Z := 14695981039346656037.
(* @ state_hash.hpp:12-12 StateHasher::kPrime *)
Definition kPrime : Z := 1099511628211.

(** [add_u8]: the hasher after one byte. *)
(* @ state_hash.hpp:14-17 StateHasher::add_u8 *)
Definition add_u8 (value hash : Z) : Z := u64 (Z.lxor hash value * kPrime).

(* @ state_hash.hpp:19-22 StateHasher::add_u16 *)
Definition add_u16 (value hash : Z) : Z :=
  add_u8 (u8 (Z.land (Z.shiftr value 8) 0xFF))
    (add_u8 (u8 (Z.land value 0xFF)) hash).

(** The byte loop of [add_u32] and [add_u64]: [n] bytes, low byte first. *)
(* @ state_hash.hpp:24-34 StateHasher::add_u32/add_u64 (the byte loop) *)
Fixpoint add_le (n : nat) (byte : Z) (value hash : Z) : Z :=
  match n with
  | O => hash
  | S n' =>
      add_le n' (byte + 1) value
        (add_u8 (u8 (Z.land (Z.shiftr value (byte * 8)) 0xFF)) hash)
  end.

(* @ state_hash.hpp:24-28 StateHasher::add_u32 *)
Definition add_u32 (value hash : Z) : Z := add_le 4 0 value hash.
(* @ state_hash.hpp:30-34 StateHasher::add_u64 *)
Definition add_u64 (value hash : Z) : Z := add_le 8 0 value hash.
(* @ state_hash.hpp:36-38 StateHasher::add_bool *)
Definition add_bool (value : bool) (hash : Z) : Z := add_u8 (if value then 1 else 0) hash.

(** [add_bytes]: the size, then each element reduced to a byte. *)
(* @ state_hash.hpp:40-46 StateHasher::add_bytes *)
Definition add_bytes (bytes : list Z) (hash : Z) : Z :=
  fold_left (fun h b => add_u8 (u8 b) h) bytes (add_u64 (Z.of_nat (length bytes)) hash).

(* @ state_hash.hpp:56-62 combine_state_hash *)
Definition combine_state_hash (left right : Z) : Z :=
  add_u64 right (add_u64 left kOffsetBasis).

(** ** The stream of bytes a hash is computed from *)

Definition hash_stream (bytes : list Z) (hash : Z) : Z :=
  fold_left (fun h b => add_u8 b h) bytes hash.

(** The little-endian bytes of an [n]-byte value. *)
Fixpoint le_bytes (n : nat) (byte : Z) (value : Z) : list Z :=
  match n with
  | O => []
  | S n' => u8 (Z.land (Z.shiftr value (byte * 8)) 0xFF) :: le_bytes n' (byte + 1) value
  end.

Lemma add_le_stream n byte value hash :
  add_le n byte value hash = hash_stream (le_bytes n byte value) hash.
Proof. revert byte hash. induction n; intros; simpl; [done|apply IHn]. Qed.

Lemma add_u16_stream value hash :
  add_u16 value hash = hash_stream (le_bytes 2 0 value) hash.
Proof. reflexivity. Qed.

Lemma hash_stream_app l1 l2 hash :
  hash_stream (l1 ++ l2) hash = hash_stream l2 (hash_stream l1 hash).
Proof. apply fold_left_app. Qed.

Lemma add_bytes_stream bytes hash :
  add_bytes bytes hash =
  hash_stream (le_bytes 8 0 (Z.of_nat (length bytes)) ++ map u8 bytes) hash.
Proof.
  unfold add_bytes, add_u64. rewrite hash_stream_app, add_le_stream.
  generalize (hash_stream (le_bytes 8 0 (Z.of_nat (length bytes))) hash).
  induction bytes; intros; simpl; [done|apply IHbytes].
Qed.

(** ** Injectivity of a hash step

    [kPrime] is odd, so multiplication by it is a bijection modulo 2^64; its
    inverse is [kPrimeInv]. *)

Definition kPrimeInv : Z := 14886173955864302971.

Lemma kPrimeInv_spec : u64 (kPrime * kPrimeInv) = 1.
Proof. reflexivity. Qed.

Lemma mul_prime_cancel x : fits 64 x -> u64 (u64 (x * kPrime) * kPrimeInv) = x.
Proof.
  intros Hx. unfold wrap. rewrite Zmult_mod_idemp_l, <- Z.mul_assoc.
  rewrite <- Zmult_mod_idemp_r.
  change ((kPrime * kPrimeInv) mod 2 ^ 64) with 1. rewrite Z.mul_1_r.
  by apply wrap_id.
Qed.

Lemma add_u8_fits value hash : fits 64 (add_u8 value hash).
Proof. apply wrap_fits. lia. Qed.

Lemma fits_8_64 x : fits 8 x -> fits 64 x.
Proof. apply fits_mono. lia. Qed.

(** The step is injective in the hash for a fixed byte ... *)
Lemma add_u8_inj_hash v h h' :
  fits 8 v -> fits 64 h -> fits 64 h' -> add_u8 v h = add_u8 v h' -> h = h'.
Proof.
  intros Hv Hh Hh' H. apply fits_8_64 in Hv.
  apply (f_equal (fun x => Z.lxor (u64 (x * kPrimeInv)) v)) in H.
  unfold add_u8 in H. rewrite !mul_prime_cancel in H by auto with width.
  by rewrite !Z.lxor_assoc, !Z.lxor_nilpotent, !Z.lxor_0_r in H.
Qed.

(** ... and in the byte for a fixed hash. *)
Lemma add_u8_inj_value v v' h :
  fits 8 v -> fits 8 v' -> fits 64 h -> add_u8 v h = add_u8 v' h -> v = v'.
Proof.
  intros Hv Hv' Hh H. apply fits_8_64 in Hv, Hv'.
  apply (f_equal (fun x => Z.lxor h (u64 (x * kPrimeInv)))) in H.
  unfold add_u8 in H. rewrite !mul_prime_cancel in H by auto with width.
  by rewrite <- !Z.lxor_assoc, !Z.lxor_nilpotent, !Z.lxor_0_l in H.
Qed.

Lemma hash_stream_fits l h : fits 64 h -> fits 64 (hash_stream l h).
Proof.
  revert h. induction l; intros h Hh; simpl; [done|]. apply IHl, add_u8_fits.
Qed.

Lemma hash_stream_inj_hash l h h' :
  Forall (fits 8) l -> fits 64 h -> fits 64 h' ->
  hash_stream l h = hash_stream l h' -> h = h'.
Proof.
  revert h h'. induction l as [|v l IH]; intros h h' Hl Hh Hh' H; [done|].
  inversion_clear Hl as [|? ? Hv Hl']. simpl in H.
  apply IH in H; [|done|apply add_u8_fits..].
  by apply add_u8_inj_hash in H.
Qed.

(** Two byte streams of the same length that differ in exactly one byte
    hash differently: a state hash never misses a single changed byte. *)
Theorem hash_detects_single_byte (pre post : list Z) (v v' h : Z) :
  fits 64 h -> Forall (fits 8) post -> fits 8 v -> fits 8 v' -> v <> v' ->
  hash_stream (pre ++ v :: post) h <> hash_stream (pre ++ v' :: post) h.
Proof.
  intros Hh Hpost Hv Hv' Hne H. apply Hne.
  rewrite !hash_stream_app in H. simpl in H.
  apply hash_stream_inj_hash in H; [|done|apply add_u8_fits..].
  eapply add_u8_inj_value; [done..| |exact H].
  by apply hash_stream_fits.
Qed.

Example hash_detects_single_byte_witness :
  hash_stream ([1; 2] ++ 3 :: [4]) kOffsetBasis <>
  hash_stream ([1; 2] ++ 7 :: [4]) kOffsetBasis.
Proof.
  apply (hash_detects_single_byte [1; 2] [4] 3 7 kOffsetBasis);
    [split; reflexivity || discriminate
    |repeat constructor; discriminate
    |split; reflexivity || discriminate
    |split; reflexivity || discriminate|discriminate].
Defined.
