(* ===== verification/Interrupts.v ===== *)
(** * The interrupt controller

    [InterruptController] of [include/gba/core/interrupt_controller.hpp] and
    [src/core/interrupt_controller.cpp]: the IE, IF and IME registers.
    [service_pending_irq] enters a CPU exception and is modelled with the
    CPU. *)

From S2P Require Import Prelude StateHash.

(** Enumerations are scoped by a module, as [enum class] scopes them. *)
Module InterruptSource.
(* @ interrupt_controller.hpp:9-24 InterruptSource *)
Inductive t : Type :=
  | vblank | hblank | vcount
  | timer0 | timer1 | timer2 | timer3
  | serial
  | dma0 | dma1 | dma2 | dma3
  | keypad | game_pak.

#[export] Instance eq_dec : EqDecision t.
Proof. solve_decision. Defined.

(** The enumerators' values. *)
(* @ interrupt_controller.hpp:9-24 InterruptSource *)
Definition index (source : t) : Z :=
  match source with
  | vblank => 0 | hblank => 1 | vcount => 2
  | timer0 => 3 | timer1 => 4 | timer2 => 5 | timer3 => 6
  | serial => 7
  | dma0 => 8 | dma1 => 9 | dma2 => 10 | dma3 => 11
  | keypad => 12 | game_pak => 13
  end.

(** [static_cast<InterruptSource>(base + offset)]. *)
Definition of_index (i : Z) : option t :=
  find (fun s => index s =? i)
    [vblank; hblank; vcount; timer0; timer1; timer2; timer3; serial;
     dma0; dma1; dma2; dma3; keypad; game_pak].
End InterruptSource.
Export (hints) InterruptSource.

(* @ interrupt_controller.hpp:28-28 InterruptController::kSupportedMask *)
Definition kSupportedMask : Z := 0x3FFF.

(* @ interrupt_controller.hpp:26-59 InterruptController *)
Record InterruptController : Type := mkInterruptController {
  interrupt_enable : Z;
  interrupt_flags : Z;
  master_enabled : bool
}.

#[export] Instance eta_InterruptController : Eta InterruptController := fun ic =>
  mkInterruptController (interrupt_enable ic) (interrupt_flags ic) (master_enabled ic).

(* @ interrupt_controller.cpp:9-11 interrupt_bit *)
Definition interrupt_bit (source : InterruptSource.t) : Z :=
  u16 (Z.shiftl 1 (InterruptSource.index source)).

(* @ interrupt_controller.cpp:19-23 InterruptController::reset *)
Definition reset : InterruptController := mkInterruptController 0 0 false.

(* @ interrupt_controller.cpp:37-39 InterruptController::ime *)
Definition ime (ic : InterruptController) : Z := if master_enabled ic then 1 else 0.

(* @ interrupt_controller.cpp:41-43 InterruptController::write_interrupt_enable *)
Definition write_interrupt_enable (value : Z) (ic : InterruptController)
  : InterruptController :=
  ic <| interrupt_enable := u16 (Z.land value kSupportedMask) |>.

(* @ interrupt_controller.cpp:45-48 InterruptController::write_interrupt_flags *)
Definition write_interrupt_flags (acknowledge_mask : Z) (ic : InterruptController)
  : InterruptController :=
  ic <| interrupt_flags :=
    u16 (Z.land (interrupt_flags ic) (Z.lnot (Z.land acknowledge_mask kSupportedMask))) |>.

(* @ interrupt_controller.cpp:50-52 InterruptController::write_ime *)
Definition write_ime (value : Z) (ic : InterruptController) : InterruptController :=
  ic <| master_enabled := has value 0x1 |>.

(* @ interrupt_controller.cpp:54-56 InterruptController::set_master_enabled *)
Definition set_master_enabled (enabled : bool) (ic : InterruptController)
  : InterruptController :=
  ic <| master_enabled := enabled |>.

(* @ interrupt_controller.cpp:58-61 InterruptController::request *)
Definition request (source : InterruptSource.t) (ic : InterruptController)
  : InterruptController :=
  ic <| interrupt_flags :=
    u16 (Z.lor (interrupt_flags ic) (Z.land (interrupt_bit source) kSupportedMask)) |>.

(* @ interrupt_controller.cpp:63-65 InterruptController::requested *)
Definition requested (source : InterruptSource.t) (ic : InterruptController) : bool :=
  has (interrupt_flags ic) (interrupt_bit source).

(* @ interrupt_controller.cpp:67-69 InterruptController::enabled *)
Definition enabled (source : InterruptSource.t) (ic : InterruptController) : bool :=
  has (interrupt_enable ic) (interrupt_bit source).

(* @ interrupt_controller.cpp:71-73 InterruptController::pending_mask *)
Definition pending_mask (ic : InterruptController) : Z :=
  u16 (Z.land (Z.land (interrupt_enable ic) (interrupt_flags ic)) kSupportedMask).

(* @ interrupt_controller.hpp:49-51 InterruptController::irq_line_active *)
Definition irq_line_active (ic : InterruptController) : bool :=
  master_enabled ic &&
  has (Z.land (interrupt_enable ic) (interrupt_flags ic)) kSupportedMask.

(* @ interrupt_controller.cpp:75-77 InterruptController::irq_line *)
Definition irq_line (ic : InterruptController) : bool := irq_line_active ic.

(* @ interrupt_controller.cpp:86-92 InterruptController::state_hash *)
Definition state_hash (ic : InterruptController) : Z :=
  add_bool (master_enabled ic)
    (add_u16 (interrupt_flags ic) (add_u16 (interrupt_enable ic) kOffsetBasis)).

(** ** Invariant: both registers hold supported bits only *)

Definition wf (ic : InterruptController) : Prop :=
  fits 14 (interrupt_enable ic) /\ fits 14 (interrupt_flags ic).

Lemma kSupportedMask_fits : fits 14 kSupportedMask.
Proof. split; reflexivity || discriminate. Qed.

Lemma u16_fits14 x : fits 14 x -> fits 14 (u16 x).
Proof. intros H. rewrite wrap_id; [done|]. revert H. apply fits_mono. lia. Qed.

#[local] Hint Resolve kSupportedMask_fits u16_fits14 fits_land_l fits_land_r fits_lor : width.

Lemma reset_wf : wf reset.
Proof. by vm_compute. Qed.

Lemma write_interrupt_enable_wf v ic : wf ic -> wf (write_interrupt_enable v ic).
Proof. intros [? ?]. split; simpl; width. Qed.

Lemma write_interrupt_flags_wf v ic : wf ic -> wf (write_interrupt_flags v ic).
Proof. intros [? ?]. split; simpl; width. Qed.

Lemma request_wf s ic : wf ic -> wf (request s ic).
Proof. intros [? ?]. split; simpl; width. Qed.

Create HintDb irq.
#[export] Hint Resolve reset_wf write_interrupt_enable_wf write_interrupt_flags_wf
  request_wf : irq.

(** ** Bit-level behaviour *)

Lemma interrupt_bit_pow s : interrupt_bit s = 2 ^ InterruptSource.index s.
Proof. by destruct s. Qed.

Lemma source_index_bound s : 0 <= InterruptSource.index s < 14.
Proof. by destruct s. Qed.

Lemma source_index_inj s s' : InterruptSource.index s = InterruptSource.index s' -> s = s'.
Proof. by destruct s, s'. Qed.

Lemma requested_testbit s ic : requested s ic = Z.testbit (interrupt_flags ic) (InterruptSource.index s).
Proof.
  unfold requested. rewrite interrupt_bit_pow, has_bit; [done|].
  pose proof (source_index_bound s). lia.
Qed.

Lemma testbit_supported i : 0 <= i -> Z.testbit kSupportedMask i = (i <? 14).
Proof.
  intros Hi. unfold kSupportedMask. change 0x3FFF with (Z.ones 14).
  destruct (Z.ltb_spec i 14); [by apply Z.ones_spec_low|by apply Z.ones_spec_high].
Qed.

Lemma interrupt_bit_supported s :
  Z.land (interrupt_bit s) kSupportedMask = interrupt_bit s.
Proof. by destruct s. Qed.

Lemma testbit_interrupt_bit s i :
  0 <= i -> Z.testbit (interrupt_bit s) i = (i =? InterruptSource.index s).
Proof.
  intros Hi. rewrite interrupt_bit_pow, Z.pow2_bits_eqb by apply source_index_bound.
  apply Z.eqb_sym.
Qed.

(** A request raises exactly its own flag: afterwards a source is
    requested iff it was before or is the one requested; IE and IME do not
    change. *)
Theorem request_exact (s s' : InterruptSource.t) (ic : InterruptController) :
  requested s' (request s ic) = bool_decide (s = s') || requested s' ic /\
  interrupt_enable (request s ic) = interrupt_enable ic /\
  master_enabled (request s ic) = master_enabled ic.
Proof.
  split; [|done]. rewrite !requested_testbit. simpl.
  pose proof (source_index_bound s') as Hb. rewrite interrupt_bit_supported.
  bits. rewrite testbit_interrupt_bit by lia.
  destruct (Z.ltb_spec (InterruptSource.index s') 16); [|lia]. rewrite orb_comm.
  case_bool_decide as E.
  - subst. by rewrite Z.eqb_refl.
  - destruct (Z.eqb_spec (InterruptSource.index s') (InterruptSource.index s)) as [E'|]; [|done].
    by apply source_index_inj in E'.
Qed.

(** A write to IF acknowledges: a source stays requested iff it was and
    its bit of the mask is clear (writing 1 clears, writing 0 keeps). *)
Theorem acknowledge_exact (s : InterruptSource.t) (mask : Z) (ic : InterruptController) :
  requested s (write_interrupt_flags mask ic) =
  requested s ic && negb (Z.testbit mask (InterruptSource.index s)).
Proof.
  rewrite !requested_testbit. simpl. pose proof (source_index_bound s) as Hb.
  bits. rewrite testbit_supported by lia.
  destruct (Z.ltb_spec (InterruptSource.index s) 16), (Z.ltb_spec (InterruptSource.index s) 14); try lia.
  simpl. by rewrite andb_true_r.
Qed.

(** Every bit of a well-formed register is the bit of a source. *)
Lemma source_of_bit i : 0 <= i < 14 -> exists s, InterruptSource.index s = i.
Proof.
  intros H. bit_cases i 14%nat;
    [exists InterruptSource.vblank|exists InterruptSource.hblank|exists InterruptSource.vcount
    |exists InterruptSource.timer0|exists InterruptSource.timer1|exists InterruptSource.timer2
    |exists InterruptSource.timer3|exists InterruptSource.serial|exists InterruptSource.dma0
    |exists InterruptSource.dma1|exists InterruptSource.dma2|exists InterruptSource.dma3
    |exists InterruptSource.keypad|exists InterruptSource.game_pak]; reflexivity.
Qed.

Lemma enabled_testbit s ic : enabled s ic = Z.testbit (interrupt_enable ic) (InterruptSource.index s).
Proof.
  unfold enabled. rewrite interrupt_bit_pow, has_bit; [done|].
  pose proof (source_index_bound s). lia.
Qed.

Lemma nonzero_bit x : x <> 0 -> exists i, 0 <= i /\ Z.testbit x i = true.
Proof.
  intros Hx. destruct (decide (0 <= x)) as [H|H].
  - exists (Z.log2 x). split; [apply Z.log2_nonneg|]. apply Z.bit_log2. lia.
  - exists (Z.succ (Z.log2 (Z.pred (- x)))). pose proof (Z.log2_nonneg (Z.pred (- x))).
    split; [lia|]. apply Z.bits_above_log2_neg; lia.
Qed.

(** The IRQ line is up iff the master enable is on and some source is
    both enabled and requested. *)
Theorem irq_line_spec (ic : InterruptController) :
  irq_line ic = true <->
  master_enabled ic = true /\ exists s, enabled s ic = true /\ requested s ic = true.
Proof.
  unfold irq_line, irq_line_active, has. rewrite andb_true_iff, negb_true_iff, Z.eqb_neq.
  split.
  - intros [Hm Hne]. split; [done|]. apply nonzero_bit in Hne as (i & Hi & Hbit).
    rewrite !Z.land_spec, testbit_supported in Hbit by lia.
    apply andb_true_iff in Hbit as [Hbit Hlt]. apply Z.ltb_lt in Hlt.
    apply andb_true_iff in Hbit as [He Hr].
    destruct (source_of_bit i) as [s Hs]; [lia|]. exists s.
    by rewrite enabled_testbit, requested_testbit, Hs.
  - intros [Hm (s & He & Hr)]. split; [done|]. intros H0.
    rewrite enabled_testbit in He. rewrite requested_testbit in Hr.
    apply (f_equal (fun x => Z.testbit x (InterruptSource.index s))) in H0.
    pose proof (source_index_bound s).
    rewrite !Z.land_spec, testbit_supported, He, Hr, Z.bits_0 in H0 by lia.
    destruct (Z.ltb_spec (InterruptSource.index s) 14); [done|lia].
Qed.
