(* ===== verification/Keypad.v ===== *)
(** * The keypad

    [Keypad] of [include/gba/core/keypad.hpp] and [src/core/keypad.cpp]: the
    pressed-button mask, KEYINPUT, KEYCNT and the keypad interrupt. *)

From S2P Require Import Prelude StateHash Interrupts.

Module KeypadButton.
(* @ keypad.hpp:9-20 KeypadButton *)
Inductive t : Type := a | b | select | start | right | left | up | down | r | l.

#[export] Instance eq_dec : EqDecision t.
Proof. solve_decision. Defined.

(** The enumerators' values. *)
(* @ keypad.hpp:9-20 KeypadButton *)
Definition bit (button : t) : Z :=
  match button with
  | a => 0x0001 | b => 0x0002 | select => 0x0004 | start => 0x0008
  | right => 0x0010 | left => 0x0020 | up => 0x0040 | down => 0x0080
  | r => 0x0100 | l => 0x0200
  end.

(** The bit number of a button. *)
Definition index (button : t) : Z :=
  match button with
  | a => 0 | b => 1 | select => 2 | start => 3 | right => 4
  | left => 5 | up => 6 | down => 7 | r => 8 | l => 9
  end.
End KeypadButton.
Export (hints) KeypadButton.

(* @ keypad.hpp:24-24 Keypad::kButtonMask *)
Definition kButtonMask : Z := 0x03FF.
(* @ keypad.hpp:25-25 Keypad::kIrqEnable *)
Definition kIrqEnable : Z := 0x4000.
(* @ keypad.hpp:26-26 Keypad::kIrqConditionAnd *)
Definition kIrqConditionAnd : Z := 0x8000.

(* @ keypad.hpp:22-48 Keypad *)
Record Keypad : Type := mkKeypad { pressed_mask : Z; keycnt : Z }.

#[export] Instance eta_Keypad : Eta Keypad := fun k => mkKeypad (pressed_mask k) (keycnt k).

(* @ keypad.cpp:11-14 Keypad::reset *)
Definition reset : Keypad := mkKeypad 0 0.

(* @ keypad.cpp:16-22 Keypad::set_pressed_mask *)
Definition set_pressed_mask (mask : Z) (k : Keypad) : bool * Keypad :=
  if has mask (Z.lnot kButtonMask) then (false, k)
  else (true, k <| pressed_mask := mask |>).

(* @ keypad.cpp:24-27 Keypad::press *)
Definition press (button : KeypadButton.t) (k : Keypad) : Keypad :=
  k <| pressed_mask := u16 (Z.lor (pressed_mask k) (KeypadButton.bit button)) |>.

(* @ keypad.cpp:29-32 Keypad::release *)
Definition release (button : KeypadButton.t) (k : Keypad) : Keypad :=
  k <| pressed_mask := u16 (Z.land (pressed_mask k) (Z.lnot (KeypadButton.bit button))) |>.

(* @ keypad.cpp:34-36 Keypad::write_keycnt *)
Definition write_keycnt (value : Z) (k : Keypad) : Keypad :=
  k <| keycnt :=
    u16 (Z.land value (Z.lor (Z.lor kButtonMask kIrqEnable) kIrqConditionAnd)) |>.

(* @ keypad.cpp:48-50 Keypad::keyinput *)
Definition keyinput (k : Keypad) : Z :=
  u16 (Z.land (Z.lnot (pressed_mask k)) kButtonMask).

(* @ keypad.cpp:56-58 Keypad::irq_enabled *)
Definition irq_enabled (k : Keypad) : bool := has (keycnt k) kIrqEnable.

(* @ keypad.cpp:60-62 Keypad::irq_condition_and *)
Definition irq_condition_and (k : Keypad) : bool := has (keycnt k) kIrqConditionAnd.

(* @ keypad.cpp:64-79 Keypad::irq_condition_met *)
Definition irq_condition_met (k : Keypad) : bool :=
  if negb (irq_enabled k) then false
  else
    let selected := u16 (Z.land (keycnt k) kButtonMask) in
    if selected =? 0 then false
    else
      let pressed_selected := u16 (Z.land (pressed_mask k) selected) in
      if irq_condition_and k then pressed_selected =? selected
      else negb (pressed_selected =? 0).

(* @ keypad.cpp:38-42 Keypad::poll_interrupt *)
Definition poll_interrupt (k : Keypad) (interrupts : InterruptController)
  : InterruptController :=
  if irq_condition_met k then Interrupts.request InterruptSource.keypad interrupts else interrupts.

(* @ keypad.cpp:81-86 Keypad::state_hash *)
Definition state_hash (k : Keypad) : Z :=
  add_u16 (keycnt k) (add_u16 (pressed_mask k) kOffsetBasis).

(** ** Invariant *)

Definition wf (k : Keypad) : Prop := fits 10 (pressed_mask k) /\ fits 16 (keycnt k).

(** The state of one button. *)
Definition pressed (button : KeypadButton.t) (k : Keypad) : bool :=
  has (pressed_mask k) (KeypadButton.bit button).

(** A button is selected by KEYCNT. *)
Definition selected (button : KeypadButton.t) (k : Keypad) : bool :=
  has (keycnt k) (KeypadButton.bit button).

Lemma button_bit_pow bt : KeypadButton.bit bt = 2 ^ KeypadButton.index bt.
Proof. by destruct bt. Qed.

Lemma button_index_bound bt : 0 <= KeypadButton.index bt < 10.
Proof. by destruct bt. Qed.

Lemma has_button m bt : has m (KeypadButton.bit bt) = Z.testbit m (KeypadButton.index bt).
Proof. rewrite button_bit_pow. apply has_bit, button_index_bound. Qed.

Lemma button_of_bit i : 0 <= i < 10 -> exists bt, KeypadButton.index bt = i.
Proof.
  intros H. bit_cases i 10%nat;
    [exists KeypadButton.a|exists KeypadButton.b|exists KeypadButton.select
    |exists KeypadButton.start|exists KeypadButton.right|exists KeypadButton.left
    |exists KeypadButton.up|exists KeypadButton.down|exists KeypadButton.r
    |exists KeypadButton.l]; reflexivity.
Qed.

Lemma testbit_buttons i : 0 <= i -> Z.testbit kButtonMask i = (i <? 10).
Proof.
  intros Hi. unfold kButtonMask. change 0x03FF with (Z.ones 10).
  destruct (Z.ltb_spec i 10); [by apply Z.ones_spec_low|by apply Z.ones_spec_high].
Qed.

Lemma kButtonMask_fits : fits 10 kButtonMask.
Proof. split; reflexivity || discriminate. Qed.

Lemma button_bit_fits bt : fits 10 (KeypadButton.bit bt).
Proof. by destruct bt. Qed.

Lemma u16_fits10 x : fits 10 x -> fits 10 (u16 x).
Proof. intros H. rewrite wrap_id; [done|]. revert H. apply fits_mono. lia. Qed.

#[local] Hint Resolve kButtonMask_fits button_bit_fits u16_fits10 : width.

Lemma press_wf bt k : wf k -> wf (press bt k).
Proof. intros [? ?]. split; simpl; width. Qed.

Lemma release_wf bt k : wf k -> wf (release bt k).
Proof. intros [? ?]. split; simpl; width. Qed.

Lemma write_keycnt_wf v k : wf k -> wf (write_keycnt v k).
Proof. intros [? ?]. split; simpl; width. Qed.

(** A mask with a bit outside the ten buttons is refused, any other is
    stored, so the ten-button invariant is kept. *)
Lemma set_pressed_mask_spec m k :
  0 <= m ->
  set_pressed_mask m k =
    if decide (fits 10 m) then (true, k <| pressed_mask := m |>) else (false, k).
Proof.
  intros Hm. unfold set_pressed_mask, has. case_decide as Hf.
  - destruct (Z.eqb_spec (Z.land m (Z.lnot kButtonMask)) 0) as [|Hne]; [done|].
    exfalso. apply Hne, Z.bits_inj'. intros i Hi. bits. rewrite testbit_buttons by lia.
    destruct (Z.ltb_spec i 10); simpl; [apply andb_false_r|].
    by rewrite (fits_testbit_high 10) by (done || lia).
  - destruct (Z.eqb_spec (Z.land m (Z.lnot kButtonMask)) 0) as [H0|]; [|done].
    exfalso. apply Hf, (testbit_high_fits 10); [lia|lia|]. intros i Hi.
    apply (f_equal (fun x => Z.testbit x i)) in H0. revert H0. bits.
    rewrite testbit_buttons by lia. destruct (Z.ltb_spec i 10); [lia|]. simpl.
    by rewrite andb_true_r.
Qed.

(** KEYINPUT is active-low: its bit for a button is 0 exactly while the
    button is pressed, and pressing or releasing one button changes no other. *)
Theorem keyinput_active_low (bt bt' : KeypadButton.t) (k : Keypad) :
  has (keyinput k) (KeypadButton.bit bt) = negb (pressed bt k) /\
  pressed bt' (press bt k) = bool_decide (bt = bt') || pressed bt' k /\
  pressed bt' (release bt k) = negb (bool_decide (bt = bt')) && pressed bt' k.
Proof.
  assert (Hinj : KeypadButton.index bt = KeypadButton.index bt' <-> bt = bt')
    by (split; [by destruct bt, bt'|by intros ->]).
  unfold pressed, keyinput. rewrite !has_button. simpl.
  pose proof (button_index_bound bt). pose proof (button_index_bound bt').
  rewrite !button_bit_pow. bits. rewrite !testbit_buttons, !Z.pow2_bits_eqb by lia.
  destruct (Z.ltb_spec (KeypadButton.index bt) 16), (Z.ltb_spec (KeypadButton.index bt') 16),
    (Z.ltb_spec (KeypadButton.index bt) 10); try lia. simpl. bits.
  case_bool_decide as E; rewrite <- Hinj in E;
    destruct (Z.eqb_spec (KeypadButton.index bt) (KeypadButton.index bt')); try lia; simpl; bits;
    by rewrite ?orb_true_r, ?andb_false_r.
Qed.

(** The mask comparison of AND mode, button by button. *)
Lemma land_buttons_all p m :
  Z.land p (Z.land m kButtonMask) = Z.land m kButtonMask <->
  forall bt, has m (KeypadButton.bit bt) = true -> has p (KeypadButton.bit bt) = true.
Proof.
  split.
  - intros H bt. rewrite !has_button. intros Hm.
    apply (f_equal (fun x => Z.testbit x (KeypadButton.index bt))) in H. revert H.
    pose proof (button_index_bound bt). bits. rewrite testbit_buttons, Hm by lia.
    destruct (Z.ltb_spec (KeypadButton.index bt) 10); [|lia]. simpl. by rewrite !andb_true_r.
  - intros H. apply Z.bits_inj'. intros i Hi. bits. rewrite testbit_buttons by lia.
    destruct (Z.ltb_spec i 10); [|by rewrite !andb_false_r]. bits.
    destruct (button_of_bit i) as [bt <-]; [lia|]. specialize (H bt).
    rewrite !has_button in H. destruct (Z.testbit m (KeypadButton.index bt)); bits; auto.
Qed.

Lemma land_buttons_some p m :
  Z.land p (Z.land m kButtonMask) <> 0 <->
  exists bt, has m (KeypadButton.bit bt) = true /\ has p (KeypadButton.bit bt) = true.
Proof.
  split.
  - intros Hne. apply nonzero_bit in Hne as (i & Hi & Hb). revert Hb. bits.
    rewrite testbit_buttons by lia. rewrite !andb_true_iff. intros (Hp & Hm & Hlt).
    apply Z.ltb_lt in Hlt. destruct (button_of_bit i) as [bt <-]; [lia|].
    exists bt. by rewrite !has_button.
  - intros (bt & Hm & Hp) H0. rewrite has_button in Hm, Hp.
    apply (f_equal (fun x => Z.testbit x (KeypadButton.index bt))) in H0. revert H0.
    pose proof (button_index_bound bt). bits. rewrite testbit_buttons, Hm, Hp by lia.
    destruct (Z.ltb_spec (KeypadButton.index bt) 10); [done|lia].
Qed.

Lemma u16_land_buttons x : u16 (Z.land x kButtonMask) = Z.land x kButtonMask.
Proof.
  apply wrap_id. apply (fits_mono 10); [lia|]. apply fits_land_r; [lia|apply kButtonMask_fits].
Qed.

(** The keypad interrupt condition is the documented one: the interrupt
    is enabled, at least one button is selected, and (AND mode) every
    selected button or (OR mode) some selected button is pressed. *)
Theorem irq_condition_met_spec (k : Keypad) :
  irq_condition_met k = true <->
  irq_enabled k = true /\
  (exists bt, selected bt k = true) /\
  (if irq_condition_and k
   then forall bt, selected bt k = true -> pressed bt k = true
   else exists bt, selected bt k = true /\ pressed bt k = true).
Proof.
  unfold irq_condition_met, selected, pressed. rewrite u16_land_buttons.
  assert (Hu : u16 (Z.land (pressed_mask k) (Z.land (keycnt k) kButtonMask)) =
               Z.land (pressed_mask k) (Z.land (keycnt k) kButtonMask)).
  { rewrite Z.land_assoc. apply u16_land_buttons. }
  rewrite Hu. clear Hu. destruct (irq_enabled k); simpl; [|naive_solver].
  pose proof (land_buttons_some (-1) (keycnt k)) as Hsome. rewrite Z.land_m1_l in Hsome.
  assert (Hm1 : forall bt, has (-1) (KeypadButton.bit bt) = true).
  { intros bt. rewrite has_button, Z.bits_m1; [done|apply button_index_bound]. }
  pose proof (land_buttons_all (pressed_mask k) (keycnt k)) as Hall.
  pose proof (land_buttons_some (pressed_mask k) (keycnt k)) as Hany.
  destruct (Z.eqb_spec (Z.land (keycnt k) kButtonMask) 0) as [H0|H0].
  - split; [done|]. intros (_ & (bt & Hs) & _). exfalso.
    apply Hsome; [|done]. exists bt. auto.
  - assert (Hex : exists bt, has (keycnt k) (KeypadButton.bit bt) = true).
    { apply Hsome in H0 as (bt & ? & _). by exists bt. }
    destruct (irq_condition_and k).
    + rewrite Z.eqb_eq, Hall. naive_solver.
    + rewrite negb_true_iff, Z.eqb_neq, Hany. naive_solver.
Qed.
