(* ===== verification/BusTypes.v ===== *)
(** * Enumerations and address classification of the memory bus

    The types of [include/gba/core/memory_bus.hpp] and the stateless part of
    [MemoryBus]: [classify], [read_policy], [video_access_policy],
    [describe_cartridge] and the region timings. *)

From S2P Require Import Prelude.

Module Region.
(* @ memory_bus.hpp:15-26 Region *)
Inductive t : Type :=
  | bios | ewram | iwram | io | palette | vram | oam
  | game_pak_rom | game_pak_save | unknown.
#[export] Instance eq_dec : EqDecision t.
Proof. solve_decision. Defined.
End Region.
Export (hints) Region.

Module AccessWidth.
(* @ memory_bus.hpp:28-32 AccessWidth *)
Inductive t : Type := byte | halfword | word.
#[export] Instance eq_dec : EqDecision t.
Proof. solve_decision. Defined.
End AccessWidth.
Export (hints) AccessWidth.

Module CartridgeWindow.
(* @ memory_bus.hpp:34-40 CartridgeWindow *)
Inductive t : Type := none | rom_wait0 | rom_wait1 | rom_wait2 | save.
#[export] Instance eq_dec : EqDecision t.
Proof. solve_decision. Defined.
End CartridgeWindow.
Export (hints) CartridgeWindow.

Module CartridgeSaveKind.
(* @ memory_bus.hpp:42-46 CartridgeSaveKind *)
Inductive t : Type := none | sram_or_flash | eeprom_serial.
End CartridgeSaveKind.

Module MemoryReadFailure.
(* @ memory_bus.hpp:68-74 MemoryReadFailure *)
Inductive t : Type :=
  | none | protected_bios_open_bus_unmodeled | io_register_facade_required
  | external_data_required | unmapped_open_bus_unmodeled.
End MemoryReadFailure.

Module VideoAccessWindow.
(* @ memory_bus.hpp:76-79 VideoAccessWindow *)
Inductive t : Type := not_video_memory | ppu_contention_unmodeled.
End VideoAccessWindow.

(* @ memory_bus.hpp:81-86 AddressInfo *)
Record AddressInfo : Type := mkAddressInfo {
  region : Region.t; offset : Z; writable : bool; mirrored : bool }.

(* @ memory_bus.hpp:88-92 MemoryReadPolicy *)
Record MemoryReadPolicy : Type := mkMemoryReadPolicy {
  rp_region : Region.t; rp_readable : bool; rp_failure : MemoryReadFailure.t }.

(* @ memory_bus.hpp:94-99 VideoAccessPolicy *)
Record VideoAccessPolicy : Type := mkVideoAccessPolicy {
  vp_region : Region.t; vp_window : VideoAccessWindow.t;
  vp_access_allowed : bool; vp_contention_timing_modeled : bool }.

(* @ memory_bus.hpp:101-112 CartridgeAddressInfo *)
Record CartridgeAddressInfo : Type := mkCartridgeAddressInfo {
  ca_window : CartridgeWindow.t;
  ca_save_kind : CartridgeSaveKind.t;
  ca_offset : Z;
  ca_max_window_size : Z;
  ca_bus_width_bits : Z;
  ca_readable : bool;
  ca_writable : bool;
  ca_requires_external_data : bool;
  ca_serial_protocol : bool;
  ca_mirrored : bool }.

(* @ memory_bus.hpp:114-119 MemoryAccessTiming *)
Record MemoryAccessTiming : Type := mkMemoryAccessTiming {
  nonsequential : Z; sequential : Z; t_readable : bool; t_writable : bool }.

(* @ memory_bus.hpp:149-149 MemoryBus::kEwramSize *)
Definition kEwramSize : Z := 256 * 1024.
(* @ memory_bus.hpp:150-150 MemoryBus::kIwramSize *)
Definition kIwramSize : Z := 32 * 1024.
(* @ memory_bus.hpp:151-151 MemoryBus::kPaletteSize *)
Definition kPaletteSize : Z := 1024.
(* @ memory_bus.hpp:152-152 MemoryBus::kVramSize *)
Definition kVramSize : Z := 96 * 1024.
(* @ memory_bus.hpp:153-153 MemoryBus::kOamSize *)
Definition kOamSize : Z := 1024.
(* @ memory_bus.hpp:154-154 MemoryBus::kGamePakRomWindowSize *)
Definition kGamePakRomWindowSize : Z := 32 * 1024 * 1024.
(* @ memory_bus.hpp:155-155 MemoryBus::kGamePakSaveWindowSize *)
Definition kGamePakSaveWindowSize : Z := 64 * 1024.
(* @ memory_bus.cpp:12-12 kBiosEnd *)
Definition kBiosEnd : Z := 0x00003FFF.

(* @ memory_bus.hpp:189-232 MemoryBus::classify *)
Definition classify (address : Z) : AddressInfo :=
  let off := Z.land address 0x00FFFFFF in
  match Z.shiftr address 24 with
  | 0 | 1 => mkAddressInfo Region.bios address false (0x00003FFF <? address)
  | 2 => mkAddressInfo Region.ewram (Z.land off (kEwramSize - 1)) true (kEwramSize <=? off)
  | 3 => mkAddressInfo Region.iwram (Z.land off (kIwramSize - 1)) true (kIwramSize <=? off)
  | 4 => if off <=? 0x3FE then mkAddressInfo Region.io off false false
         else mkAddressInfo Region.unknown 0 false false
  | 5 => mkAddressInfo Region.palette (Z.land off (kPaletteSize - 1)) true
           (kPaletteSize <=? off)
  | 6 =>
      let bank := Z.land off 0x1FFFF in
      mkAddressInfo Region.vram (if kVramSize <=? bank then bank - 0x8000 else bank) true
        (kVramSize <=? off)
  | 7 => mkAddressInfo Region.oam (Z.land off (kOamSize - 1)) true (kOamSize <=? off)
  | 8 | 9 | 10 | 11 | 12 | 13 =>
      mkAddressInfo Region.game_pak_rom (Z.land address (kGamePakRomWindowSize - 1)) false
        (0x0A000000 <=? address)
  | 14 | 15 =>
      mkAddressInfo Region.game_pak_save (Z.land off (kGamePakSaveWindowSize - 1)) false
        ((0x0F000000 <=? address) || (kGamePakSaveWindowSize <=? off))
  | _ => mkAddressInfo Region.unknown 0 false false
  end.

(* @ memory_bus.cpp:164-186 MemoryBus::read_policy *)
Definition read_policy (address : Z) : MemoryReadPolicy :=
  let info := classify address in
  match region info with
  | Region.ewram | Region.iwram | Region.palette | Region.vram | Region.oam =>
      mkMemoryReadPolicy (region info) true MemoryReadFailure.none
  | Region.bios =>
      mkMemoryReadPolicy (region info) (offset info <=? kBiosEnd)
        (if offset info <=? kBiosEnd then MemoryReadFailure.none
         else MemoryReadFailure.protected_bios_open_bus_unmodeled)
  | Region.io =>
      mkMemoryReadPolicy (region info) false MemoryReadFailure.io_register_facade_required
  | Region.game_pak_rom | Region.game_pak_save =>
      mkMemoryReadPolicy (region info) false MemoryReadFailure.external_data_required
  | Region.unknown =>
      mkMemoryReadPolicy (region info) false MemoryReadFailure.unmapped_open_bus_unmodeled
  end.

(* @ memory_bus.cpp:188-206 MemoryBus::video_access_policy *)
Definition video_access_policy (address : Z) : VideoAccessPolicy :=
  let info := classify address in
  match region info with
  | Region.palette | Region.vram | Region.oam =>
      mkVideoAccessPolicy (region info) VideoAccessWindow.ppu_contention_unmodeled true false
  | Region.bios | Region.ewram | Region.iwram | Region.io
  | Region.game_pak_rom | Region.game_pak_save =>
      mkVideoAccessPolicy (region info) VideoAccessWindow.not_video_memory true false
  | Region.unknown =>
      mkVideoAccessPolicy (region info) VideoAccessWindow.not_video_memory false false
  end.

(** ** Cartridge windows *)

(* @ memory_bus.cpp:13-18 kGamePakRomWait0Start .. kGamePakRomWait2End *)
Definition kGamePakRomWait0Start : Z := 0x08000000.
(* @ memory_bus.cpp:14-14 kGamePakRomWait0End *)
Definition kGamePakRomWait0End : Z := 0x09FFFFFF.
(* @ memory_bus.cpp:15-15 kGamePakRomWait1Start *)
Definition kGamePakRomWait1Start : Z := 0x0A000000.
(* @ memory_bus.cpp:16-16 kGamePakRomWait1End *)
Definition kGamePakRomWait1End : Z := 0x0BFFFFFF.
(* @ memory_bus.cpp:17-17 kGamePakRomWait2Start *)
Definition kGamePakRomWait2Start : Z := 0x0C000000.
(* @ memory_bus.cpp:18-18 kGamePakRomWait2End *)
Definition kGamePakRomWait2End : Z := 0x0DFFFFFF.
(* @ memory_bus.cpp:25-25 kGamePakEepromLargeRomStart *)
Definition kGamePakEepromLargeRomStart : Z := 0x0D000000.
(* @ memory_bus.cpp:26-26 kGamePakSaveStart *)
Definition kGamePakSaveStart : Z := 0x0E000000.
(* @ memory_bus.cpp:27-27 kGamePakSaveEnd *)
Definition kGamePakSaveEnd : Z := 0x0FFFFFFF.
(* @ memory_bus.cpp:38-40 kGamePakRomBusWidthBits *)
Definition kGamePakRomBusWidthBits : Z := 16.
(* @ memory_bus.cpp:39-39 kGamePakSaveBusWidthBits *)
Definition kGamePakSaveBusWidthBits : Z := 8.
(* @ memory_bus.cpp:40-40 kGamePakEepromBusWidthBits *)
Definition kGamePakEepromBusWidthBits : Z := 1.

(* @ memory_bus.cpp:67-69 in_range *)
Definition in_range (value first last : Z) : bool := (first <=? value) && (value <=? last).

(* @ memory_bus.cpp:71-73 is_word *)
Definition is_word (width : AccessWidth.t) : bool :=
  match width with AccessWidth.word => true | _ => false end.

(* @ memory_bus.cpp:75-77 bank_offset *)
Definition bank_offset (address : Z) : Z := Z.land address 0x00FFFFFF.

(* @ memory_bus.cpp:116-119 cartridge_none *)
Definition cartridge_none : CartridgeAddressInfo :=
  mkCartridgeAddressInfo CartridgeWindow.none CartridgeSaveKind.none 0 0 0
    false false false false false.

(* @ memory_bus.cpp:121-137 cartridge_rom_info *)
Definition cartridge_rom_info (address window_start : Z) (window : CartridgeWindow.t)
    (mirrored : bool) : CartridgeAddressInfo :=
  let off := u32 (address - window_start) in
  let eeprom_candidate := kGamePakEepromLargeRomStart <=? address in
  mkCartridgeAddressInfo window
    (if eeprom_candidate then CartridgeSaveKind.eeprom_serial else CartridgeSaveKind.none)
    off kGamePakRomWindowSize
    (if eeprom_candidate then kGamePakEepromBusWidthBits else kGamePakRomBusWidthBits)
    false false true eeprom_candidate mirrored.

(* @ memory_bus.cpp:208-234 MemoryBus::describe_cartridge *)
Definition describe_cartridge (address : Z) : CartridgeAddressInfo :=
  if in_range address kGamePakRomWait0Start kGamePakRomWait0End then
    cartridge_rom_info address kGamePakRomWait0Start CartridgeWindow.rom_wait0 false
  else if in_range address kGamePakRomWait1Start kGamePakRomWait1End then
    cartridge_rom_info address kGamePakRomWait1Start CartridgeWindow.rom_wait1 true
  else if in_range address kGamePakRomWait2Start kGamePakRomWait2End then
    cartridge_rom_info address kGamePakRomWait2Start CartridgeWindow.rom_wait2 true
  else if in_range address kGamePakSaveStart kGamePakSaveEnd then
    mkCartridgeAddressInfo CartridgeWindow.save CartridgeSaveKind.sram_or_flash
      (bank_offset address mod kGamePakSaveWindowSize) kGamePakSaveWindowSize
      kGamePakSaveBusWidthBits false false true false
      ((0x0F000000 <=? address) || (kGamePakSaveWindowSize <=? bank_offset address))
  else cartridge_none.

(** [timing(address, width)], without WAITCNT. *)
(* @ memory_bus.cpp:236-261 MemoryBus::timing *)
Definition timing (address : Z) (width : AccessWidth.t) : MemoryAccessTiming :=
  let info := classify address in
  match region info with
  | Region.bios => mkMemoryAccessTiming 1 1 (offset info <=? kBiosEnd) false
  | Region.ewram =>
      mkMemoryAccessTiming (if is_word width then 6 else 3) (if is_word width then 6 else 3)
        true true
  | Region.iwram => mkMemoryAccessTiming 1 1 true true
  | Region.palette | Region.vram | Region.oam =>
      mkMemoryAccessTiming (if is_word width then 2 else 1) (if is_word width then 2 else 1)
        true true
  | Region.io | Region.game_pak_rom | Region.game_pak_save =>
      mkMemoryAccessTiming 1 1 false false
  | Region.unknown => mkMemoryAccessTiming 1 1 false false
  end.

(** ** The classification *)

(** The size of the storage behind a region. *)
Definition region_size (r : Region.t) : Z :=
  match r with
  | Region.ewram => kEwramSize
  | Region.iwram => kIwramSize
  | Region.palette => kPaletteSize
  | Region.vram => kVramSize
  | Region.oam => kOamSize
  | Region.game_pak_rom => kGamePakRomWindowSize
  | Region.game_pak_save => kGamePakSaveWindowSize
  | Region.io => 0x3FF
  | Region.bios => 0x02000000
  | Region.unknown => 1
  end.

Lemma land_ones_bound x n : 0 <= n -> 0 <= Z.land x (2 ^ n - 1) < 2 ^ n.
Proof.
  intros Hn. replace (2 ^ n - 1) with (Z.ones n) by (rewrite Z.ones_equiv; lia).
  rewrite Z.land_ones by lia. apply Z.mod_pos_bound. lia.
Qed.

(** The bank number of a 32-bit address and the 16 MiB window it selects. *)
Lemma bank_window address k :
  Z.shiftr address 24 = k <-> k * 0x1000000 <= address < (k + 1) * 0x1000000.
Proof.
  rewrite Z.shiftr_div_pow2 by lia. change (2 ^ 24) with 0x1000000.
  pose proof (Z.div_mod address 0x1000000). pose proof (Z.mod_pos_bound address 0x1000000).
  split; [intros <-; lia|]. intros ?. symmetry.
  apply (Z.div_unique _ _ _ (address - k * 0x1000000)); lia.
Qed.

Lemma bank_high address : 16 <= Z.shiftr address 24 -> 0x10000000 <= address.
Proof.
  rewrite Z.shiftr_div_pow2 by lia. change (2 ^ 24) with 0x1000000. intros H.
  destruct (Z.lt_ge_cases address 0x10000000) as [Hlt|]; [|done].
  pose proof (Z.div_lt_upper_bound address 0x1000000 16). lia.
Qed.

(** Sixteen banks, then nothing. *)
Lemma bank_cases address :
  fits 32 address ->
  In (Z.shiftr address 24) (map Z.of_nat (seq 0 16)) \/ 16 <= Z.shiftr address 24.
Proof.
  intros [H0 H1].
  assert (0 <= Z.shiftr address 24) by (apply Z.shiftr_nonneg; lia).
  destruct (Z.lt_ge_cases (Z.shiftr address 24) 16); [left|by right].
  apply in_seqZ_cases. lia.
Qed.

Lemma classify_unmapped address :
  16 <= Z.shiftr address 24 -> classify address = mkAddressInfo Region.unknown 0 false false.
Proof.
  intros H. unfold classify. destruct (Z.shiftr address 24) as [|p|p]; [done| |done].
  do 4 (destruct p as [p|p|]; try done).
Qed.

(** [bank_split] analyses the bank of an address, leaving in [Hb] the bank
    number. *)
Ltac bank_split address H :=
  let Hb := fresh "Hb" in
  destruct (bank_cases address H) as [Hb|Hb];
  [let k := fresh "bank" in
   let Hk := fresh "Hbank" in
   remember (Z.shiftr address 24) as k eqn:Hk; symmetry in Hk;
   vm_compute in Hb; repeat (destruct Hb as [Hb|Hb]); [..|destruct Hb];
   rewrite <- Hb in Hk; clear Hb k; rename Hk into Hb|].

Lemma classify_in_bounds_aux address :
  fits 32 address ->
  0 <= offset (classify address) < region_size (region (classify address)).
Proof.
  intros H. bank_split address H; [..|by rewrite classify_unmapped].
  all: pose proof Hb as Hw; apply bank_window in Hw; unfold classify; rewrite Hb; cbn -[Z.land].
  all: try (unfold kEwramSize, kIwramSize, kPaletteSize, kOamSize, kGamePakRomWindowSize,
    kGamePakSaveWindowSize; apply (land_ones_bound _ 18) || apply (land_ones_bound _ 15) ||
    apply (land_ones_bound _ 10) || apply (land_ones_bound _ 25) ||
    apply (land_ones_bound _ 16)); try lia.
  - pose proof (land_ones_bound address 24). change (2 ^ 24 - 1) with 0x00FFFFFF in *.
    destruct (Z.leb_spec (Z.land address 16777215) 1022); cbn -[Z.land]; lia.
  - pose proof (land_ones_bound (Z.land address 16777215) 17).
    change (2 ^ 17 - 1) with 0x1FFFF in *. change kVramSize with 98304.
    destruct (Z.leb_spec 98304 (Z.land (Z.land address 16777215) 131071)); lia.
Qed.

(** Every address is classified inside the storage of its region: no
    access the bus makes through [classify] can leave its array. *)
Theorem classify_in_bounds (address : Z) :
  fits 32 address ->
  0 <= offset (classify address) < region_size (region (classify address)).
Proof. apply classify_in_bounds_aux. Qed.

Lemma classify_in_bounds_witness :
  fits 32 0x06018000 /\ 0 <= offset (classify 0x06018000) < kVramSize.
Proof.
  assert (H : fits 32 0x06018000) by (split; reflexivity || discriminate).
  split; [exact H|exact (classify_in_bounds 0x06018000 H)].
Defined.
