(* ===== verification/WaitState.v ===== *)
(** * The wait-state control register

    [WaitStateControl] of [include/gba/core/wait_state_control.hpp] and
    [src/core/wait_state_control.cpp], and [MemoryBus::timing] with WAITCNT. *)

From S2P Require Import Prelude StateHash BusTypes.

Module PhiTerminalOutput.
(* @ wait_state_control.hpp:9-14 PhiTerminalOutput *)
Inductive t : Type := disabled | four_mhz | eight_mhz | sixteen_mhz.

(** [static_cast<PhiTerminalOutput>] of a two-bit value. *)
Definition of_bits (bits : Z) : t :=
  match bits with 0 => disabled | 1 => four_mhz | 2 => eight_mhz | _ => sixteen_mhz end.
End PhiTerminalOutput.

(* @ wait_state_control.hpp:16-20 GamePakWaitStates *)
Record GamePakWaitStates : Type := mkGamePakWaitStates {
  gw_nonsequential : Z; gw_sequential : Z; gw_prefetch_enabled : bool }.

(* @ wait_state_control.hpp:22-40 WaitStateControl *)
Record WaitStateControl : Type := mkWaitStateControl { control : Z }.

#[export] Instance eta_WaitStateControl : Eta WaitStateControl :=
  fun w => mkWaitStateControl (control w).

(* @ wait_state_control.hpp:24-24 WaitStateControl::kStandardGamePakSetting *)
Definition kStandardGamePakSetting : Z := 0x4317.
(* @ wait_state_control.cpp:10-10 kWritableMask *)
Definition kWritableMask : Z := 0x7FFF.
(* @ wait_state_control.cpp:11-11 kPrefetchBit *)
Definition kPrefetchBit : Z := 0x4000.
(* @ wait_state_control.cpp:12-12 kFirstAccessWaitStates *)
Definition kFirstAccessWaitStates : list Z := [4; 3; 2; 8].

(* @ wait_state_control.cpp:14-17 bits *)
Definition bits (value shift mask : Z) : Z := u8 (Z.land (Z.shiftr value shift) mask).

(** The [.at] access: the index is masked to two bits, so it is in range for
    every value ([first_wait_states_in_table] below). *)
(* @ wait_state_control.cpp:19-21 first_wait_states *)
Definition first_wait_states (value shift : Z) : Z :=
  kFirstAccessWaitStates !!! Z.to_nat (bits value shift 0x3).

(* @ wait_state_control.cpp:23-25 second_wait_state *)
Definition second_wait_state (fast : bool) (slow_value : Z) : Z := if fast then 1 else slow_value.

(* @ wait_state_control.cpp:29-35 WaitStateControl::reset *)
Definition reset : WaitStateControl := mkWaitStateControl 0.

(* @ wait_state_control.cpp:37-39 WaitStateControl::write_control *)
Definition write_control (value : Z) (w : WaitStateControl) : WaitStateControl :=
  w <| control := Z.land value kWritableMask |>.

(* @ wait_state_control.cpp:41-43 WaitStateControl::read_control *)
Definition read_control (w : WaitStateControl) : Z := control w.

(* @ wait_state_control.cpp:45-47 WaitStateControl::save_wait_states *)
Definition save_wait_states (w : WaitStateControl) : Z := first_wait_states (control w) 0.

(* @ wait_state_control.cpp:71-73 WaitStateControl::prefetch_enabled *)
Definition prefetch_enabled (w : WaitStateControl) : bool := has (control w) kPrefetchBit.

(* @ wait_state_control.cpp:49-69 WaitStateControl::rom_wait_states *)
Definition rom_wait_states (window : CartridgeWindow.t) (w : WaitStateControl)
  : GamePakWaitStates :=
  match window with
  | CartridgeWindow.rom_wait0 =>
      mkGamePakWaitStates (first_wait_states (control w) 2)
        (second_wait_state (has (control w) 0x0010) 2) (prefetch_enabled w)
  | CartridgeWindow.rom_wait1 =>
      mkGamePakWaitStates (first_wait_states (control w) 5)
        (second_wait_state (has (control w) 0x0080) 4) (prefetch_enabled w)
  | CartridgeWindow.rom_wait2 =>
      mkGamePakWaitStates (first_wait_states (control w) 8)
        (second_wait_state (has (control w) 0x0400) 8) (prefetch_enabled w)
  | CartridgeWindow.none | CartridgeWindow.save =>
      mkGamePakWaitStates 0 0 (prefetch_enabled w)
  end.

(* @ wait_state_control.cpp:75-77 WaitStateControl::phi_terminal_output *)
Definition phi_terminal_output (w : WaitStateControl) : PhiTerminalOutput.t :=
  PhiTerminalOutput.of_bits (bits (control w) 11 0x3).

(* @ wait_state_control.cpp:79-83 WaitStateControl::state_hash *)
Definition state_hash (w : WaitStateControl) : Z := add_u16 (control w) kOffsetBasis.

(** [MemoryBus::timing] with a WAITCNT. *)
(* @ memory_bus.cpp:263-276 MemoryBus::timing *)
Definition timing_waitcnt (address : Z) (width : AccessWidth.t) (waitcnt : WaitStateControl)
  : MemoryAccessTiming :=
  let info := classify address in
  match region info with
  | Region.game_pak_rom =>
      let cartridge := describe_cartridge address in
      let wait_states := rom_wait_states (ca_window cartridge) waitcnt in
      mkMemoryAccessTiming (gw_nonsequential wait_states) (gw_sequential wait_states)
        false false
  | Region.game_pak_save =>
      let wait_states := save_wait_states waitcnt in
      mkMemoryAccessTiming wait_states wait_states false false
  | _ => timing address width
  end.

(** ** Facts *)

Lemma bits_two value shift : 0 <= bits value shift 0x3 < 4.
Proof.
  unfold bits. rewrite wrap_id.
  - change 0x3 with (2 ^ 2 - 1). apply (land_ones_bound _ 2). lia.
  - pose proof (land_ones_bound (Z.shiftr value shift) 2 ltac:(lia)).
    change (2 ^ 2 - 1) with 3 in *. unfold fits. lia.
Qed.

Lemma first_wait_states_in_table value shift :
  (Z.to_nat (bits value shift 0x3) < length kFirstAccessWaitStates)%nat.
Proof. pose proof (bits_two value shift). simpl. lia. Qed.

Lemma first_wait_states_bound value shift : 2 <= first_wait_states value shift <= 8.
Proof.
  unfold first_wait_states. pose proof (bits_two value shift) as H.
  generalize dependent (bits value shift 3). intros k H.
  bit_cases k 4%nat; vm_compute; split; discriminate.
Qed.

(** The wait states of a Game Pak ROM address are those of the window it
    lies in: each 32 MiB mirror (0x08, 0x0A, 0x0C) reads its own WAITCNT
    fields, whatever the access width, and a first access takes 2 to 8 wait
    states, a second one 1 or the window's slow value 2, 4 or 8. *)
Theorem rom_timing_by_window (address : Z) (width : AccessWidth.t) (w : WaitStateControl) :
  0x08000000 <= address < 0x0E000000 ->
  let t := timing_waitcnt address width w in
  let field_shift := if address <? 0x0A000000 then 2 else if address <? 0x0C000000 then 5 else 8 in
  let fast_bit := if address <? 0x0A000000 then 4 else if address <? 0x0C000000 then 7 else 10 in
  let slow := if address <? 0x0A000000 then 2 else if address <? 0x0C000000 then 4 else 8 in
  nonsequential t = first_wait_states (control w) field_shift /\
  2 <= nonsequential t <= 8 /\
  sequential t = (if Z.testbit (control w) fast_bit then 1 else slow).
Proof.
  intros H. cbv zeta.
  assert (Hf : fits 32 address) by (unfold fits; lia).
  assert (Hr : region (classify address) = Region.game_pak_rom).
  { bank_split address Hf; [..|apply bank_high in Hb; lia].
    all: pose proof Hb as Hw; apply bank_window in Hw; try lia;
      unfold classify; rewrite Hb; reflexivity. }
  unfold timing_waitcnt. rewrite Hr. unfold describe_cartridge, in_range.
  unfold kGamePakRomWait0Start, kGamePakRomWait0End, kGamePakRomWait1Start,
    kGamePakRomWait1End, kGamePakRomWait2Start, kGamePakRomWait2End.
  pose proof (first_wait_states_bound (control w)) as Hb.
  rewrite <- !(has_bit (control w)) by (zcmp; lia).
  zcmp; simpl; auto.
Qed.

Lemma rom_timing_by_window_witness :
  let w := write_control kStandardGamePakSetting reset in
  nonsequential (timing_waitcnt 0x08000100 AccessWidth.halfword w) = 3 /\
  sequential (timing_waitcnt 0x08000100 AccessWidth.halfword w) = 1.
Proof.
  intros w.
  destruct (rom_timing_by_window 0x08000100 AccessWidth.halfword w) as (H1 & _ & H2);
    [split; reflexivity || discriminate|].
  split; [exact H1|exact H2].
Defined.
