(* ===== verification/Timers.v ===== *)
(** * The timers

    [Timers] of [include/gba/core/timers.hpp] and [src/core/timers.cpp]: four
    16-bit timers with prescalers, cascading and overflow interrupts.

    An index is a [size_t] ([nat]); [checked_timer] throws past the last
    timer ([Throw]).  The [while] loop of [increment_timer] runs on fuel, one
    unit per remaining tick: every iteration consumes at least one
    ([increment_loop_total] shows that it never runs out).  The mutual
    recursion of [increment_timer] and [handle_overflow] goes to the next
    timer, so its depth is at most the number of timers. *)

From S2P Require Import Prelude StateHash Interrupts.

(* @ timers.hpp:15-15 Timers::kTimerCount *)
Definition kTimerCount : nat := 4.

(* @ timers.cpp:11-11 kPrescalerMask *)
Definition kPrescalerMask : Z := 0x0003.
(* @ timers.cpp:12-12 kCountUpFlag *)
Definition kCountUpFlag : Z := 0x0004.
(* @ timers.cpp:13-13 kIrqFlag *)
Definition kIrqFlag : Z := 0x0040.
(* @ timers.cpp:14-14 kEnableFlag *)
Definition kEnableFlag : Z := 0x0080.
(* @ timers.cpp:15-15 kControlMask *)
Definition kControlMask : Z :=
  Z.lor (Z.lor (Z.lor kPrescalerMask kCountUpFlag) kIrqFlag) kEnableFlag.

(* @ timers.hpp:77-91 Timers::Timer *)
Record Timer : Type := mkTimer {
  counter : Z;
  reload : Z;
  control : Z;
  overflow_count : Z;
  enable_delay_cycles : Z;
  last_enable_phase : Z;
  enabled_at_cycle : Z;
  just_enabled : bool
}.

#[export] Instance eta_Timer : Eta Timer := fun t =>
  mkTimer (counter t) (reload t) (control t) (overflow_count t) (enable_delay_cycles t)
    (last_enable_phase t) (enabled_at_cycle t) (just_enabled t).

(* @ timers.hpp:93-94 Timers *)
Record Timers : Type := mkTimers { timers : list Timer; cycle_counter : Z }.

#[export] Instance eta_Timers : Eta Timers := fun ts =>
  mkTimers (timers ts) (cycle_counter ts).

(** [TickResult]. *)
(* @ timers.hpp:17-22 Timers::TickResult *)
Record TickResult : Type := mkTickResult { first_irq_cycle : option Z }.

#[export] Instance eta_TickResult : Eta TickResult := fun r =>
  mkTickResult (first_irq_cycle r).

(** The wire image of a timer ([TimerState]) and of the timers ([State]). *)
(* @ timers.hpp:24-39 Timers::TimerState *)
Record TimerState : Type := mkTimerState {
  s_counter : Z;
  s_reload : Z;
  s_control : Z;
  s_prescaler_remainder : Z;
  s_overflow_count : Z;
  s_enable_delay_cycles : Z;
  s_last_enable_phase : Z;
  s_just_enabled : bool
}.

(* @ timers.hpp:41-44 Timers::State *)
Record State : Type := mkState { s_timers : list TimerState; s_cycle_counter : Z }.

(* @ timers.cpp:17-20 timer_interrupt_source *)
Definition timer_interrupt_source (index : nat) : option InterruptSource.t :=
  InterruptSource.of_index
    (u8 (InterruptSource.index InterruptSource.timer0 + Z.of_nat index)).

(* @ timers.cpp:22-34 divisor_for_control *)
Definition divisor_for_control (control : Z) : Z :=
  match Z.land control kPrescalerMask with
  | 0 => 1
  | 1 => 64
  | 2 => 256
  | 3 => 1024
  | _ => 1
  end.

(* @ timers.cpp:42-54 Timers::reset *)
Definition reset : Timers :=
  mkTimers (replicate kTimerCount (mkTimer 0 0 0 0 0 0 0 false)) 0.

(* @ timers.cpp:277-289 Timers::checked_timer *)
Definition checked_timer (index : nat) (ts : Timers) : exc Timer :=
  if decide (kTimerCount <= index)%nat then Throw else array_at (timers ts) index.

(** Assignment through the reference [checked_timer] returns. *)
Definition update_timer (index : nat) (t : Timer) (ts : Timers) : Timers :=
  ts <| timers := <[index := t]> (timers ts) |>.

(* @ timers.cpp:56-58 Timers::write_reload *)
Definition write_reload (index : nat) (value : Z) (ts : Timers) : exc Timers :=
  t ← checked_timer index ts;
  Ret (update_timer index (t <| reload := value |>) ts).

(* @ timers.cpp:60-85 Timers::write_control *)
Definition write_control (index : nat) (value : Z) (ts : Timers) : exc Timers :=
  t ← checked_timer index ts;
  let was_enabled := has (control t) kEnableFlag in
  let sanitized := u16 (Z.land value kControlMask) in
  let sanitized :=
    if (index =? 0)%nat then u16 (Z.land sanitized (Z.lnot kCountUpFlag)) else sanitized in
  let t := t <| control := sanitized |> in
  let is_enabled := has (control t) kEnableFlag in
  let t :=
    if negb was_enabled && is_enabled then
      let divisor := divisor_for_control (control t) in
      t <| counter := reload t |>
        <| enable_delay_cycles := 0 |>
        <| last_enable_phase := u16 (cycle_counter ts mod divisor) |>
        <| enabled_at_cycle := cycle_counter ts |>
        <| just_enabled := true |>
    else t in
  let t :=
    if negb is_enabled then
      t <| enable_delay_cycles := 0 |>
        <| last_enable_phase := 0 |>
        <| enabled_at_cycle := 0 |>
        <| just_enabled := false |>
    else t in
  Ret (update_timer index t ts).

(* @ timers.cpp:87-93 Timers::defer_newly_enabled_ticks *)
Definition defer_newly_enabled_ticks (ts : Timers) : Timers :=
  ts <| timers ::= map (fun t =>
    if just_enabled t then t <| enable_delay_cycles := 1 |> else t) |>.

(** ** Accessors *)

(* @ timers.cpp:224-226 Timers::enabled *)
Definition enabled (index : nat) (ts : Timers) : exc bool :=
  t ← checked_timer index ts; Ret (has (control t) kEnableFlag).

(* @ timers.cpp:228-230 Timers::count_up *)
Definition count_up (index : nat) (ts : Timers) : exc bool :=
  if (index =? 0)%nat then Ret false
  else t ← checked_timer index ts; Ret (has (control t) kCountUpFlag).

(* @ timers.cpp:232-234 Timers::irq_enabled *)
Definition irq_enabled (index : nat) (ts : Timers) : exc bool :=
  t ← checked_timer index ts; Ret (has (control t) kIrqFlag).

(* @ timers.cpp:236-238 Timers::prescaler_divisor *)
Definition prescaler_divisor (index : nat) (ts : Timers) : exc Z :=
  t ← checked_timer index ts; Ret (divisor_for_control (control t)).

(* @ timers.cpp:212-214 Timers::counter *)
Definition counter_at (index : nat) (ts : Timers) : exc Z :=
  t ← checked_timer index ts; Ret (counter t).

(* @ timers.cpp:216-218 Timers::reload *)
Definition reload_at (index : nat) (ts : Timers) : exc Z :=
  t ← checked_timer index ts; Ret (reload t).

(* @ timers.cpp:220-222 Timers::control *)
Definition control_at (index : nat) (ts : Timers) : exc Z :=
  t ← checked_timer index ts; Ret (control t).

(* @ timers.cpp:240-242 Timers::last_enable_phase *)
Definition last_enable_phase_at (index : nat) (ts : Timers) : exc Z :=
  t ← checked_timer index ts; Ret (last_enable_phase t).

(* @ timers.hpp:68-73 Timers::overflow_count_at *)
Definition overflow_count_at (index : nat) (ts : Timers) : exc Z :=
  t ← checked_timer index ts; Ret (overflow_count t).

(* @ timers.cpp:244-253 Timers::cycles_until_next_prescaler_tick *)
Definition cycles_until_next_prescaler_tick (index : nat) (ts : Timers) : exc Z :=
  t ← checked_timer index ts;
  en ← enabled index ts;
  if negb en then Ret 0
  else
    cu ← count_up index ts;
    if cu || negb (enable_delay_cycles t =? 0) then Ret 0
    else
      let divisor := divisor_for_control (control t) in
      let phase := cycle_counter ts mod divisor in
      Ret (u32 (if phase =? 0 then divisor else divisor - phase)).

(** ** Counting

    The state threaded through [increment_timer] and [handle_overflow]: the
    timers, the interrupt controller and the tick result, all passed by
    reference. *)

Record TickState : Type := mkTickState {
  t_timers : Timers;
  t_interrupts : InterruptController;
  t_result : TickResult
}.

#[export] Instance eta_TickState : Eta TickState := fun st =>
  mkTickState (t_timers st) (t_interrupts st) (t_result st).

(** The part of [handle_overflow] that raises the interrupt and records the
    cycle of the first one. *)
(* @ timers.cpp:321-327 Timers::handle_overflow *)
Definition raise_overflow_irq (index : nat) (cycle : Z) (st : TickState) : TickState :=
  let ints :=
    match timer_interrupt_source index with
    | Some source => Interrupts.request source (t_interrupts st)
    | None => t_interrupts st
    end in
  let first :=
    match first_irq_cycle (t_result st) with
    | None => Some cycle
    | Some c => if cycle <? c then Some cycle else Some c
    end in
  st <| t_interrupts := ints |> <| t_result := mkTickResult first |>.

(** [increment_next] is [increment_timer] for the following timer. *)
(* @ timers.cpp:316-340 Timers::handle_overflow *)
Definition handle_overflow (increment_next : nat -> Z -> Z -> Z -> TickState -> exc TickState)
    (index : nat) (cycle : Z) (st : TickState) : exc TickState :=
  t ← checked_timer index (t_timers st);
  let t := t <| overflow_count := u64 (overflow_count t + 1) |> in
  let st := st <| t_timers ::= update_timer index t |> in
  irq ← irq_enabled index (t_timers st);
  let st := if (irq : bool) then raise_overflow_irq index cycle st else st in
  let next := S index in
  if decide (next < kTimerCount)%nat then
    en ← enabled next (t_timers st);
    cu ← count_up next (t_timers st);
    if en && cu then
      next_timer ← checked_timer next (t_timers st);
      if cycle <=? u64 (enabled_at_cycle next_timer + enable_delay_cycles next_timer)
      then Ret st
      else increment_next next 1 cycle 1 st
    else Ret st
  else Ret st.

(** The [while (ticks > 0)] loop of [increment_timer]. *)
(* @ timers.cpp:296-313 Timers::increment_timer *)
Fixpoint increment_loop (overflow : nat -> Z -> TickState -> exc TickState)
    (fuel index : nat) (ticks next_tick_cycle tick_stride : Z) (st : TickState)
    : exc TickState :=
  if 0 <? ticks then
    match fuel with
    | O => Throw
    | S fuel' =>
        t ← checked_timer index (t_timers st);
        let ticks_to_overflow := u32 (0x10000 - counter t) in
        if ticks <? ticks_to_overflow then
          Ret (st <| t_timers ::=
                 update_timer index (t <| counter := u16 (counter t + ticks) |>) |>)
        else
          let ticks := u64 (ticks - ticks_to_overflow) in
          let overflow_cycle :=
            u64 (next_tick_cycle + u64 (u32 (ticks_to_overflow - 1) * tick_stride)) in
          let st := st <| t_timers ::= update_timer index (t <| counter := reload t |>) |> in
          st ← overflow index overflow_cycle st;
          increment_loop overflow fuel' index ticks (u64 (overflow_cycle + tick_stride))
            tick_stride st
    end
  else Ret st.

(** [depth] bounds the cascade: the calls go from [index] to [index + 1]. *)
(* @ timers.cpp:291-314 Timers::increment_timer *)
Fixpoint increment_timer (depth index : nat) (ticks first_tick_cycle tick_stride : Z)
    (st : TickState) : exc TickState :=
  match depth with
  | O => Throw
  | S depth' =>
      increment_loop (handle_overflow (increment_timer depth')) (Z.to_nat ticks) index
        ticks first_tick_cycle tick_stride st
  end.

(** One iteration of the [for] loop of [tick]. *)
(* @ timers.cpp:106-141 Timers::tick *)
Definition tick_timer (cycles start_cycle end_cycle : Z) (index : nat) (st : TickState)
    : exc TickState :=
  t ← array_at (timers (t_timers st)) index;
  en ← enabled index (t_timers st);
  if negb en then
    Ret (st <| t_timers ::= update_timer index (t <| just_enabled := false |>) |>)
  else
    cu ← count_up index (t_timers st);
    let skipped_cycles := Z.min (enable_delay_cycles t) cycles in
    let t := t <| enable_delay_cycles := u32 (enable_delay_cycles t - skipped_cycles) |>
               <| just_enabled := false |> in
    let st := st <| t_timers ::= update_timer index t |> in
    if (cu : bool) then Ret st
    else if negb (enable_delay_cycles t =? 0) || (skipped_cycles =? cycles) then Ret st
    else
      divisor ← prescaler_divisor index (t_timers st);
      let first_active_cycle := u64 (u64 (start_cycle + skipped_cycles) + 1) in
      let first_tick_cycle :=
        u64 ((u64 (u64 (first_active_cycle + divisor) - 1) / divisor) * divisor) in
      if end_cycle <? first_tick_cycle then Ret st
      else
        let ticks := u64 ((u64 (end_cycle - first_tick_cycle) / divisor) + 1) in
        increment_timer (kTimerCount - index) index ticks first_tick_cycle divisor st.

(* @ timers.cpp:95-150 Timers::tick *)
Definition tick (cycles : Z) (interrupts : InterruptController) (ts : Timers)
    : exc (TickResult * InterruptController * Timers) :=
  let result := mkTickResult None in
  if cycles =? 0 then Ret (result, interrupts, ts)
  else
    let start_cycle := cycle_counter ts in
    let end_cycle := u64 (cycle_counter ts + cycles) in
    let ts := ts <| cycle_counter := end_cycle |> in
    st ← tick_timer cycles start_cycle end_cycle 0 (mkTickState ts interrupts result);
    st ← tick_timer cycles start_cycle end_cycle 1 st;
    st ← tick_timer cycles start_cycle end_cycle 2 st;
    st ← tick_timer cycles start_cycle end_cycle 3 st;
    let first :=
      match first_irq_cycle (t_result st) with
      | Some c => Some (u64 (c - start_cycle))
      | None => None
      end in
    Ret (mkTickResult first, t_interrupts st, t_timers st).

(** ** Snapshots *)

(* @ timers.cpp:155-166 Timers::save_state *)
Definition save_timer (t : Timer) : TimerState :=
  mkTimerState (counter t) (reload t) (control t) 0 (overflow_count t)
    (enable_delay_cycles t) (last_enable_phase t) (just_enabled t).

(* @ timers.cpp:152-168 Timers::save_state *)
Definition save_state (ts : Timers) : State :=
  mkState (map save_timer (timers ts)) (cycle_counter ts).

(** One iteration of the validation loop of [load_state]. *)
(* @ timers.cpp:171-189 Timers::load_state *)
Definition timer_state_ok (index : nat) (s : TimerState) : bool :=
  negb (has (s_control s) (Z.lnot kControlMask)) &&
  negb ((index =? 0)%nat && has (s_control s) kCountUpFlag) &&
  negb (1 <? s_enable_delay_cycles s) &&
  negb (s_just_enabled s && negb (has (s_control s) kEnableFlag)) &&
  negb (negb (s_enable_delay_cycles s =? 0) && negb (has (s_control s) kEnableFlag)).

(* @ timers.cpp:192-208 Timers::load_state *)
Definition load_timer (cycle : Z) (s : TimerState) : Timer :=
  mkTimer (s_counter s) (s_reload s) (s_control s) (s_overflow_count s)
    (s_enable_delay_cycles s) (s_last_enable_phase s)
    (if has (s_control s) kEnableFlag then cycle else 0) (s_just_enabled s).

(** [std::array<TimerState, 4>] has four elements; [imap] pairs each with its
    index. *)
(* @ timers.cpp:170-210 Timers::load_state *)
Definition load_state (state : State) (ts : Timers) : bool * Timers :=
  if forallb (fun b => b) (imap timer_state_ok (s_timers state)) then
    (true, mkTimers (map (load_timer (s_cycle_counter state)) (s_timers state))
             (s_cycle_counter state))
  else (false, ts).

(* @ timers.cpp:262-273 Timers::state_hash *)
Definition hash_timer (h : Z) (t : Timer) : Z :=
  add_bool (just_enabled t)
    (add_u16 (last_enable_phase t)
      (add_u32 (enable_delay_cycles t)
        (add_u64 (overflow_count t)
          (add_u16 (control t) (add_u16 (reload t) (add_u16 (counter t) h)))))).

(* @ timers.cpp:259-275 Timers::state_hash *)
Definition state_hash (ts : Timers) : Z :=
  fold_left hash_timer (timers ts) (add_u64 (cycle_counter ts) kOffsetBasis).
