(* ===== verification/TimersSpec.v ===== *)
(** * Properties of the timers

    The timer invariant, totality, the tick-by-tick reference semantics of
    the batched counting loop, and snapshot round trips. *)

From S2P Require Import Prelude StateHash Interrupts Timers.

(** ** Access lemmas *)

Definition has_four (ts : Timers) : Prop := length (timers ts) = kTimerCount.

Lemma checked_timer_lookup index ts t :
  has_four ts -> timers ts !! index = Some t -> checked_timer index ts = Ret t.
Proof.
  intros Hl Ht. unfold checked_timer. apply lookup_lt_Some in Ht as Hlt.
  unfold has_four in Hl. rewrite decide_False by lia. by apply array_at_Ret.
Qed.

Lemma checked_timer_out_of_range index ts :
  (kTimerCount <= index)%nat -> checked_timer index ts = Throw.
Proof. intros H. unfold checked_timer. by rewrite decide_True. Qed.

Lemma timer_exists index ts :
  has_four ts -> (index < kTimerCount)%nat -> exists t, timers ts !! index = Some t.
Proof. intros Hl Hi. apply lookup_lt_is_Some_2. by rewrite Hl. Qed.

Lemma timers_update_timer index t ts :
  timers (update_timer index t ts) = <[index := t]> (timers ts).
Proof. done. Qed.

Lemma cycle_counter_update_timer index t ts :
  cycle_counter (update_timer index t ts) = cycle_counter ts.
Proof. done. Qed.

Lemma update_timer_twice index t t' ts :
  update_timer index t (update_timer index t' ts) = update_timer index t ts.
Proof. unfold update_timer, set_field. simpl. by rewrite list_insert_insert_eq. Qed.

Lemma has_four_update index t ts : has_four ts -> has_four (update_timer index t ts).
Proof. unfold has_four. rewrite timers_update_timer. by rewrite length_insert. Qed.

#[export] Hint Resolve has_four_update : core.

Lemma lookup_update_timer index t ts :
  has_four ts -> (index < kTimerCount)%nat ->
  timers (update_timer index t ts) !! index = Some t.
Proof. intros Hl Hi. rewrite timers_update_timer, list_lookup_insert_eq; [done|]. by rewrite Hl. Qed.

(** The registers of every timer have their width. *)
Definition regs_ok (t : Timer) : Prop :=
  fits 16 (counter t) /\ fits 16 (reload t) /\ fits 64 (overflow_count t).

Definition st_ok (st : TickState) : Prop :=
  has_four (t_timers st) /\ Forall regs_ok (timers (t_timers st)).

Lemma st_ok_lookup st index t :
  st_ok st -> timers (t_timers st) !! index = Some t -> regs_ok t.
Proof. intros [_ Hr] Ht. by apply (Forall_lookup_1 _ _ _ _ Hr Ht). Qed.

Lemma st_ok_update st index t :
  st_ok st -> regs_ok t -> st_ok (st <| t_timers ::= update_timer index t |>).
Proof.
  intros [Hl Hr] Ht. split; [by apply has_four_update|]. simpl. by apply Forall_insert.
Qed.

(** ** The reference semantics: one tick at a time *)

Section Reference.
Context (overflow : nat -> Z -> TickState -> exc TickState).
Context (index : nat).

(** One tick of the timer at [cycle]: it counts up, or it is full, reloads
    and overflows. *)
Definition count_tick (cycle : Z) (st : TickState) : exc TickState :=
  t ← checked_timer index (t_timers st);
  if counter t =? 0xFFFF then
    overflow index cycle (st <| t_timers ::= update_timer index (t <| counter := reload t |>) |>)
  else
    Ret (st <| t_timers ::= update_timer index (t <| counter := counter t + 1 |>) |>).

(** [n] ticks, [stride] cycles apart. *)
Fixpoint count_ticks (n : nat) (cycle stride : Z) (st : TickState) : exc TickState :=
  match n with
  | O => Ret st
  | S n' => st ← count_tick cycle st; count_ticks n' (cycle + stride) stride st
  end.

Lemma count_ticks_add n m cycle stride st :
  count_ticks (n + m) cycle stride st =
  (st ← count_ticks n cycle stride st; count_ticks m (cycle + Z.of_nat n * stride) stride st).
Proof using Type.
  revert cycle st. induction n as [|n IH]; intros; simpl.
  - by rewrite Z.add_0_r.
  - destruct (count_tick cycle st) as [st'|]; simpl; [|done]. rewrite IH.
    by replace (cycle + stride + Z.of_nat n * stride) with (cycle + Z.of_nat (S n) * stride) by lia.
Qed.

(** [put_counter c st]: the state with the counter of the timer set. *)
Definition put_counter (t : Timer) (c : Z) (st : TickState) : TickState :=
  st <| t_timers ::= update_timer index (t <| counter := c |>) |>.

Lemma put_counter_id t st :
  timers (t_timers st) !! index = Some t -> put_counter t (counter t) st = st.
Proof using Type.
  intros Ht. destruct st as [[l c] ic r], t. unfold put_counter, update_timer, set_field.
  simpl in *. by rewrite list_insert_id.
Qed.

Lemma put_counter_twice t c c' st :
  put_counter (t <| counter := c |>) c' (put_counter t c st) = put_counter t c' st.
Proof using Type. unfold put_counter, set_field; simpl. by rewrite update_timer_twice. Qed.

Lemma count_tick_plain cycle st t :
  has_four (t_timers st) -> timers (t_timers st) !! index = Some t ->
  counter t < 0xFFFF -> count_tick cycle st = Ret (put_counter t (counter t + 1) st).
Proof using Type.
  intros Hl Ht Hc. unfold count_tick. rewrite (checked_timer_lookup _ _ t) by done.
  cbn [mbind exc_bind]. by destruct (Z.eqb_spec (counter t) 0xFFFF); [lia|].
Qed.

(** While the counter does not overflow, ticks are increments. *)
Lemma count_ticks_plain n cycle stride st t :
  has_four (t_timers st) -> (index < kTimerCount)%nat ->
  timers (t_timers st) !! index = Some t ->
  counter t + Z.of_nat n <= 0xFFFF ->
  count_ticks n cycle stride st = Ret (put_counter t (counter t + Z.of_nat n) st).
Proof using Type.
  revert cycle st t. induction n as [|n IH]; intros cycle st t Hl Hi Ht Hc; simpl.
  - by rewrite Z.add_0_r, put_counter_id.
  - rewrite (count_tick_plain _ _ t) by (done || lia). cbn [mbind exc_bind].
    rewrite (IH _ _ (t <| counter := counter t + 1 |>)).
    + rewrite put_counter_twice. simpl. do 2 f_equal. lia.
    + by apply has_four_update.
    + done.
    + by apply lookup_update_timer.
    + simpl. lia.
Qed.

(** A full counter overflows. *)
Lemma count_tick_full cycle st t :
  has_four (t_timers st) -> timers (t_timers st) !! index = Some t ->
  counter t = 0xFFFF ->
  count_tick cycle st = overflow index cycle (put_counter t (reload t) st).
Proof using Type.
  intros Hl Ht Hc. unfold count_tick. rewrite (checked_timer_lookup _ _ t) by done.
  cbn [mbind exc_bind]. by rewrite Hc.
Qed.

(** The ticks up to and including the next overflow. *)
Lemma count_ticks_overflow n cycle stride st t :
  has_four (t_timers st) -> (index < kTimerCount)%nat ->
  timers (t_timers st) !! index = Some t ->
  counter t + Z.of_nat n = 0xFFFF ->
  count_ticks (S n) cycle stride st =
  overflow index (cycle + Z.of_nat n * stride) (put_counter t (reload t) st).
Proof using Type.
  intros Hl Hi Ht Hc. replace (S n) with (n + 1)%nat by lia.
  rewrite count_ticks_add, (count_ticks_plain _ _ _ _ t) by (done || lia).
  cbn [mbind exc_bind count_ticks].
  rewrite (count_tick_full _ _ (t <| counter := counter t + Z.of_nat n |>)).
  - rewrite put_counter_twice. simpl. by destruct (overflow _ _ _).
  - by apply has_four_update.
  - by apply lookup_update_timer.
  - done.
Qed.

Context (index_lt : (index < kTimerCount)%nat).
(** The overflow handler keeps the registers in their width. *)
Hypothesis overflow_ok : forall cycle st st',
  st_ok st -> overflow index cycle st = Ret st' -> st_ok st'.

Lemma increment_loop_reference fuel ticks cycle stride st :
  st_ok st -> 0 <= ticks <= Z.of_nat fuel -> fits 64 ticks ->
  0 <= cycle -> 0 <= stride -> cycle + ticks * stride < 2 ^ 64 ->
  increment_loop overflow fuel index ticks cycle stride st =
  count_ticks (Z.to_nat ticks) cycle stride st.
Proof using overflow_ok index_lt.
  revert ticks cycle st. induction fuel as [|fuel IH];
    intros ticks cycle st Hst Hfuel Hticks Hcyc Hstr Hov.
  { assert (ticks = 0) as -> by lia. reflexivity. }
  simpl. destruct (Z.ltb_spec 0 ticks) as [Hpos|]; [|assert (ticks = 0) as -> by lia; reflexivity].
  pose proof Hst as [Hl Hregs]. destruct (timer_exists index (t_timers st)) as [t Ht]; [done..|].
  destruct (st_ok_lookup _ _ _ Hst Ht) as (Hc & Hr & Ho).
  rewrite (checked_timer_lookup _ _ t) by done. cbn [mbind exc_bind].
  rewrite (wrap_id 32) by (unfold fits in *; lia).
  destruct (Z.ltb_spec ticks (0x10000 - counter t)) as [Hlt|Hge].
  { rewrite (count_ticks_plain _ _ _ _ t) by (done || (unfold fits in *; lia)).
    rewrite Z2Nat.id, wrap_id by (unfold fits in *; lia). done. }
  set (n := Z.to_nat (0xFFFF - counter t)).
  assert (Hn : Z.of_nat n = 0xFFFF - counter t) by (subst n; unfold fits in *; lia).
  replace (0x10000 - counter t) with (Z.of_nat (S n)) in * by lia.
  replace (Z.to_nat ticks) with (S n + Z.to_nat (ticks - Z.of_nat (S n)))%nat by lia.
  rewrite count_ticks_add, (count_ticks_overflow n _ _ _ t) by (done || lia).
  rewrite (wrap_id 32 (Z.of_nat (S n) - 1)) by (unfold fits in *; lia).
  replace (Z.of_nat (S n) - 1) with (Z.of_nat n) by lia.
  assert (0 <= Z.of_nat n * stride /\ Z.of_nat (S n) * stride <= ticks * stride) by nia.
  rewrite (wrap_id 64 (Z.of_nat n * stride)), (wrap_id 64 (cycle + _)),
    (wrap_id 64 (ticks - _)) by (unfold fits in *; lia).
  rewrite (wrap_id 64) by (unfold fits in *; lia).
  fold (put_counter t (reload t) st).
  destruct (overflow index _ (put_counter t (reload t) st)) as [st'|] eqn:E; [|done].
  cbn [mbind exc_bind].
  replace (cycle + Z.of_nat n * stride + stride) with (cycle + Z.of_nat (S n) * stride) by lia.
  apply IH; try (unfold fits in *; nia).
  eapply overflow_ok; [|exact E]. by apply st_ok_update.
Qed.
End Reference.

(** ** What counting may change

    Counting changes counters and overflow counts, of the timer and of the
    timers after it, and raises interrupts; nothing else. *)

Definition counts_only (t t' : Timer) : Prop :=
  reload t' = reload t /\ control t' = control t /\
  enable_delay_cycles t' = enable_delay_cycles t /\
  last_enable_phase t' = last_enable_phase t /\
  enabled_at_cycle t' = enabled_at_cycle t /\ just_enabled t' = just_enabled t /\
  (regs_ok t -> regs_ok t').

#[export] Instance counts_only_refl : Reflexive counts_only.
Proof. intros t. unfold counts_only. auto 10. Qed.

#[export] Instance counts_only_trans : Transitive counts_only.
Proof.
  intros t1 t2 t3 (? & ? & ? & ? & ? & ? & ?) (? & ? & ? & ? & ? & ? & ?).
  split_and!; try congruence; auto.
Qed.

Definition frame (index : nat) (st st' : TickState) : Prop :=
  cycle_counter (t_timers st') = cycle_counter (t_timers st) /\
  Forall2 counts_only (timers (t_timers st)) (timers (t_timers st')) /\
  (forall j, (j < index)%nat -> timers (t_timers st') !! j = timers (t_timers st) !! j) /\
  (Interrupts.wf (t_interrupts st) -> Interrupts.wf (t_interrupts st')).

#[export] Instance frame_refl index : Reflexive (frame index).
Proof. intros st. split; [done|]. split; [reflexivity|]. auto. Qed.

#[export] Instance frame_trans index : Transitive (frame index).
Proof.
  intros st1 st2 st3 (H1 & H2 & H3 & H4) (K1 & K2 & K3 & K4). split_and!.
  - congruence.
  - etrans; eassumption.
  - intros j Hj. by rewrite K3, H3.
  - auto.
Qed.

Lemma frame_weaken index st st' : frame (S index) st st' -> frame index st st'.
Proof. intros (H1 & H2 & H3 & H4). split_and!; auto. Qed.

Lemma frame_ok index st st' : frame index st st' -> st_ok st -> st_ok st'.
Proof.
  intros (_ & H2 & _) [Hl Hr]. split.
  - unfold has_four in *. apply Forall2_length in H2. congruence.
  - clear Hl. induction H2 as [|t t' l l' Ht _ IH]; [done|].
    inversion_clear Hr. constructor; [by apply Ht|auto].
Qed.

Lemma frame_lookup index st st' j t :
  frame index st st' -> timers (t_timers st) !! j = Some t ->
  exists t', timers (t_timers st') !! j = Some t' /\ counts_only t t'.
Proof. intros (_ & H2 & _) Ht. by apply (Forall2_lookup_l _ _ _ _ _ H2). Qed.

(** Updating the counted timer is within the frame. *)
Lemma frame_update index st t t' :
  timers (t_timers st) !! index = Some t -> counts_only t t' ->
  frame index st (st <| t_timers ::= update_timer index t' |>).
Proof.
  intros Ht Hc. split_and!; [done| |..]; simpl.
  - apply Forall2_lookup. intros j. destruct (decide (j = index)) as [->|Hne].
    + rewrite list_lookup_insert_eq by (by eapply lookup_lt_Some). rewrite Ht.
      by constructor.
    + rewrite list_lookup_insert_ne by done.
      destruct (timers (t_timers st) !! j); constructor. reflexivity.
  - intros j Hj. apply list_lookup_insert_ne. lia.
  - done.
Qed.

Lemma frame_raise index cycle st : frame index st (raise_overflow_irq index cycle st).
Proof.
  unfold raise_overflow_irq. split_and!; try done; simpl.
  destruct (timer_interrupt_source index); auto with irq.
Qed.

(** [yields index m st]: the call returns and only counts. *)
Definition yields (index : nat) (m : exc TickState) (st : TickState) : Prop :=
  exists st', m = Ret st' /\ frame index st st'.

Lemma yields_from st2 index m st :
  frame index st st2 -> yields index m st2 -> yields index m st.
Proof. intros Hf (st' & E & Hf'). exists st'. split; [done|]. by etrans. Qed.

Section Frame.
Context (index : nat).
Hypothesis index_lt : (index < kTimerCount)%nat.

Lemma handle_overflow_yields inc cycle st :
  ((S index < kTimerCount)%nat -> forall cycle stride st,
     st_ok st -> yields (S index) (inc (S index) 1 cycle stride st) st) ->
  st_ok st -> yields index (handle_overflow inc index cycle st) st.
Proof using index_lt.
  intros Hinc Hst. unfold handle_overflow.
  destruct (timer_exists index (t_timers st)) as [t Ht]; [apply Hst|done|].
  rewrite (checked_timer_lookup _ _ t) by (done || apply Hst). cbn [mbind exc_bind].
  set (st1 := st <| t_timers ::= _ |>).
  assert (Hf1 : frame index st st1).
  { apply (frame_update _ _ t); [done|]. split_and!; try done.
    intros (? & ? & ?). split_and!; try done. simpl. width. }
  pose proof (frame_ok _ _ _ Hf1 Hst) as Hst1.
  destruct (frame_lookup _ _ _ _ _ Hf1 Ht) as (t1 & Ht1 & _).
  unfold irq_enabled. rewrite (checked_timer_lookup _ _ t1) by (done || apply Hst1).
  cbn [mbind exc_bind].
  set (st2 := if has _ _ then _ else st1).
  assert (Hf2 : frame index st st2).
  { etrans; [exact Hf1|]. subst st2. case_match; [apply frame_raise|reflexivity]. }
  pose proof (frame_ok _ _ _ Hf2 Hst) as Hst2.
  destruct (decide (S index < kTimerCount)%nat) as [Hnext|]; [|by exists st2].
  destruct (timer_exists (S index) (t_timers st2)) as [t2 Ht2]; [apply Hst2|done|].
  unfold enabled, count_up.
  rewrite !(checked_timer_lookup (S index) (t_timers st2) t2) by (done || apply Hst2).
  cbn [mbind exc_bind Nat.eqb].
  destruct (has (control t2) kEnableFlag && has (control t2) kCountUpFlag); [|by exists st2].
  destruct (cycle <=? _); [by exists st2|].
  destruct (Hinc Hnext cycle 1 st2 Hst2) as (st3 & E & Hf3).
  exists st3. split; [done|]. etrans; [exact Hf2|]. by apply frame_weaken.
Qed.

Lemma increment_loop_yields overflow fuel ticks cycle stride st :
  (forall cycle st, st_ok st -> yields index (overflow index cycle st) st) ->
  st_ok st -> 0 <= ticks <= Z.of_nat fuel -> fits 64 ticks ->
  yields index (increment_loop overflow fuel index ticks cycle stride st) st.
Proof using index_lt.
  intros Hov. revert ticks cycle st. induction fuel as [|fuel IH];
    intros ticks cycle st Hst Hfuel Hticks.
  { assert (ticks = 0) as -> by lia. by exists st. }
  simpl. destruct (Z.ltb_spec 0 ticks); [|by exists st].
  destruct (timer_exists index (t_timers st)) as [t Ht]; [apply Hst|done|].
  destruct (st_ok_lookup _ _ _ Hst Ht) as (Hc & Hr & Ho).
  rewrite (checked_timer_lookup _ _ t) by (done || apply Hst). cbn [mbind exc_bind].
  rewrite (wrap_id 32) by (unfold fits in *; lia).
  destruct (Z.ltb_spec ticks (0x10000 - counter t)).
  - eexists. split; [done|]. apply (frame_update _ _ t); [done|]. split_and!; try done.
    intros _. split_and!; try done. simpl. width.
  - set (st1 := st <| t_timers ::= _ |>).
    assert (Hf : frame index st st1).
    { apply (frame_update _ _ t); [done|]. by split_and!. }
    rewrite (wrap_id 64 (ticks - _)) by (unfold fits in *; lia).
    match goal with |- context [overflow index ?oc st1] =>
      destruct (Hov oc st1 (frame_ok _ _ _ Hf Hst)) as (st2 & E2 & Hf2) end.
    rewrite E2. cbn [mbind exc_bind]. assert (Hf' : frame index st st2) by (by etrans).
    apply (yields_from st2); [done|].
    apply IH; [by eapply frame_ok|unfold fits in *; lia..].
Qed.
End Frame.

(** Counting always returns: the loop does not run out of fuel, the cascade
    stays within the four timers, and no index is out of range. *)
Lemma increment_timer_yields depth index ticks cycle stride st :
  (index < kTimerCount)%nat -> (kTimerCount <= depth + index)%nat ->
  st_ok st -> fits 64 ticks ->
  yields index (increment_timer depth index ticks cycle stride st) st.
Proof.
  revert index ticks cycle stride st. induction depth as [|depth IH];
    intros index ticks cycle stride st Hi Hd Hst Hticks; [simpl in Hd; lia|].
  simpl. apply increment_loop_yields; [done| |done|unfold fits in *; lia|done].
  intros cycle' st' Hst'. apply handle_overflow_yields; [done| |done].
  intros Hn cycle'' stride' st'' Hst''. apply IH; try assumption; try lia. by vm_compute.
Qed.

Lemma handle_overflow_depth_yields depth index cycle st :
  (index < kTimerCount)%nat -> (kTimerCount <= S depth + index)%nat -> st_ok st ->
  yields index (handle_overflow (increment_timer depth) index cycle st) st.
Proof.
  intros Hi Hd Hst. apply handle_overflow_yields; [done| |done].
  intros Hn cycle' stride st' Hst'. apply increment_timer_yields; try assumption; try lia.
  by vm_compute.
Qed.

(** ** The invariant *)

Definition control_ok (index : nat) (c : Z) : Prop :=
  Z.land c kControlMask = c /\ (index = 0%nat -> has c kCountUpFlag = false).

(** A pending enable (fresh or deferred) was made at the present cycle. *)
Definition timer_wf (index : nat) (now : Z) (t : Timer) : Prop :=
  regs_ok t /\ control_ok index (control t) /\
  0 <= enable_delay_cycles t <= 1 /\ fits 16 (last_enable_phase t) /\
  0 <= enabled_at_cycle t <= now /\
  (just_enabled t = true -> has (control t) kEnableFlag = true /\ enabled_at_cycle t = now) /\
  (enable_delay_cycles t <> 0 ->
     has (control t) kEnableFlag = true /\ enabled_at_cycle t = now).

Definition wf (ts : Timers) : Prop :=
  has_four ts /\ fits 64 (cycle_counter ts) /\
  forall i t, timers ts !! i = Some t -> timer_wf i (cycle_counter ts) t.

Lemma wf_regs ts : wf ts -> Forall regs_ok (timers ts).
Proof. intros (_ & _ & H). apply Forall_lookup. intros i t Ht. by destruct (H i t Ht). Qed.

Lemma wf_update ts index t :
  wf ts -> timer_wf index (cycle_counter ts) t -> wf (update_timer index t ts).
Proof.
  intros (Hl & Hn & H) Ht. split_and!; [by apply has_four_update|done|].
  intros i t'. rewrite timers_update_timer, list_lookup_insert.
  case_decide as E; [|apply H]. intros [= <-]. destruct E as [-> _]. done.
Qed.

Lemma timers_reset_wf : wf reset.
Proof.
  split_and!; [done|by vm_compute|]. intros i t Ht.
  apply lookup_replicate in Ht as [-> _]. repeat split; simpl; done || (intros; done).
Qed.

Lemma control_mask_fits v : fits 8 (Z.land v kControlMask).
Proof. apply fits_land_r; [lia|]. by vm_compute. Qed.

Lemma u16_id_8 x : fits 8 x -> u16 x = x.
Proof. intros H. apply wrap_id. revert H. apply fits_mono. lia. Qed.

Lemma write_reload_wf index v ts :
  wf ts -> (index < kTimerCount)%nat -> fits 16 v ->
  exists ts', write_reload index v ts = Ret ts' /\ wf ts'.
Proof.
  intros Hwf Hi Hv. destruct (timer_exists index ts) as [t Ht]; [apply Hwf|done|].
  unfold write_reload. rewrite (checked_timer_lookup _ _ t) by (done || apply Hwf).
  eexists. split; [done|]. apply wf_update; [done|].
  destruct Hwf as (_ & _ & H). destruct (H _ _ Ht) as ((? & ? & ?) & Hrest).
  split; [by split|exact Hrest].
Qed.

(** The control value [write_control] stores. *)
Definition sanitize (index : nat) (value : Z) : Z :=
  let c := u16 (Z.land value kControlMask) in
  if (index =? 0)%nat then u16 (Z.land c (Z.lnot kCountUpFlag)) else c.

Lemma sanitize_ok index value : control_ok index (sanitize index value).
Proof.
  unfold sanitize, control_ok. rewrite (u16_id_8 _ (control_mask_fits value)).
  destruct (Nat.eqb_spec index 0) as [->|Hne].
  - rewrite u16_id_8 by (apply fits_land_l, control_mask_fits; lia). split.
    + rewrite <- !Z.land_assoc. reflexivity.
    + intros _. unfold has. by rewrite <- !Z.land_assoc, Z.land_0_r.
  - split; [|lia]. by rewrite <- Z.land_assoc.
Qed.

Lemma divisor_range c : 1 <= divisor_for_control c <= 1024.
Proof. unfold divisor_for_control. repeat case_match; lia. Qed.

Lemma write_control_wf index v ts :
  wf ts -> (index < kTimerCount)%nat ->
  exists ts', write_control index v ts = Ret ts' /\ wf ts'.
Proof.
  intros Hwf Hi. destruct (timer_exists index ts) as [t Ht]; [apply Hwf|done|].
  unfold write_control. rewrite (checked_timer_lookup _ _ t) by (done || apply Hwf).
  cbn [mbind exc_bind]. fold (sanitize index v). eexists. split; [done|].
  apply wf_update; [done|]. pose proof Hwf as (_ & Hn & H).
  destruct (H _ _ Ht) as ((Hc & Hr & Ho) & _ & Hd & Hph & Hat & Hj & Hdl).
  pose proof (sanitize_ok index v) as Hs. generalize dependent (sanitize index v). intros c Hs.
  destruct (has (control t) kEnableFlag) eqn:Ew, (has c kEnableFlag) eqn:Ec; simpl;
    rewrite ?Ec; simpl; unfold timer_wf, regs_ok; simpl;
    (split; [by split|]); (split; [done|]); (split; [assumption || lia|]);
    (split; [assumption || (apply wrap_fits; lia) || by vm_compute|]);
    (split; [unfold fits in *; lia|]); split; intros;
    first [discriminate | lia | by split | destruct Hj; [done|by split] | destruct Hdl; [done|by split]].
Qed.

Lemma defer_newly_enabled_ticks_wf ts : wf ts -> wf (defer_newly_enabled_ticks ts).
Proof.
  intros (Hl & Hn & H). split_and!; [|done|].
  - unfold has_four. simpl. by rewrite length_map.
  - simpl. intros i t'. rewrite list_lookup_fmap. intros Ht'.
    destruct (timers ts !! i) as [t|] eqn:Ht; [|done]. simpl in Ht'. injection Ht' as <-.
    destruct (H i t Ht) as (Hr & Hc & Hd & Hph & Hat & Hj & Hdl).
    destruct (just_enabled t) eqn:Ej; [|by apply H].
    destruct (Hj eq_refl) as [He Hat']. unfold timer_wf; simpl. rewrite Ej.
    do 2 (split; [done|]). split; [lia|]. auto.
Qed.

(** ** A tick of all timers *)

(** The bookkeeping of [tick] on a timer: the enable-delay window is consumed
    and the timer is no longer freshly enabled. *)
Definition tick_flags (cycles : Z) (t : Timer) : Timer :=
  if has (control t) kEnableFlag then
    t <| enable_delay_cycles := u32 (enable_delay_cycles t - Z.min (enable_delay_cycles t) cycles) |>
      <| just_enabled := false |>
  else t <| just_enabled := false |>.

Lemma tick_flags_counts cycles t t' :
  counts_only t t' -> counts_only (tick_flags cycles t) (tick_flags cycles t').
Proof.
  intros (H1 & H2 & H3 & H4 & H5 & H6 & H7). unfold tick_flags, counts_only. rewrite H2.
  destruct (has (control t) kEnableFlag); simpl; rewrite ?H3; auto 10.
Qed.

Lemma tick_flags_regs cycles t : regs_ok t -> regs_ok (tick_flags cycles t).
Proof. unfold tick_flags. by destruct (has (control t) kEnableFlag). Qed.

Lemma tick_timer_yields cycles start_cycle end_cycle index st t :
  st_ok st -> timers (t_timers st) !! index = Some t ->
  let st1 := st <| t_timers ::= update_timer index (tick_flags cycles t) |> in
  exists st', tick_timer cycles start_cycle end_cycle index st = Ret st' /\
              frame index st1 st'.
Proof.
  intros Hst Ht st1. pose proof (st_ok_lookup _ _ _ Hst Ht) as Hr.
  assert (Hi : (index < kTimerCount)%nat)
    by (destruct Hst as [Hl _]; rewrite <- Hl; by eapply lookup_lt_Some).
  assert (Hst1 : st_ok st1) by (by apply st_ok_update, tick_flags_regs).
  assert (Ht1 : timers (t_timers st1) !! index = Some (tick_flags cycles t))
    by (apply lookup_update_timer; [apply Hst|done]).
  unfold tick_timer, enabled, count_up, prescaler_divisor.
  rewrite (array_at_Ret _ _ t), (checked_timer_lookup _ _ t) by (done || apply Hst).
  cbn [mbind exc_bind]. unfold tick_flags in *.
  destruct (has (control t) kEnableFlag); simpl negb; cbv iota; [|by exists st1].
  fold st1. generalize (has (control t) kCountUpFlag). intros cu.
  destruct (Nat.eqb_spec index 0); cbn [mbind exc_bind];
    [|destruct cu; [by exists st1|]];
    (case_match; [by exists st1|]);
    rewrite (checked_timer_lookup _ _ _ (proj1 Hst1) Ht1); cbn [mbind exc_bind];
    (case_match; [by exists st1|]);
    apply increment_timer_yields; [done|unfold kTimerCount in *; lia|done|width| 
      done|unfold kTimerCount in *; lia|done|width].
Qed.

(** [stage k st0 st]: the first [k] timers of [st0] have been processed. *)
Definition stage (cycles : Z) (k : nat) (st0 st : TickState) : Prop :=
  st_ok st /\ cycle_counter (t_timers st) = cycle_counter (t_timers st0) /\
  (Interrupts.wf (t_interrupts st0) -> Interrupts.wf (t_interrupts st)) /\
  forall j t, timers (t_timers st0) !! j = Some t ->
    exists t', timers (t_timers st) !! j = Some t' /\
               counts_only (if decide (j < k)%nat then tick_flags cycles t else t) t'.

Lemma stage_step cycles start_cycle end_cycle k st0 st :
  has_four (t_timers st0) -> (k < kTimerCount)%nat -> stage cycles k st0 st ->
  exists st', tick_timer cycles start_cycle end_cycle k st = Ret st' /\
              stage cycles (S k) st0 st'.
Proof.
  intros Hl0 Hk (Hst & Hcc & Hic & Hts).
  destruct (timer_exists k (t_timers st)) as [t Ht]; [apply Hst|done|].
  destruct (tick_timer_yields cycles start_cycle end_cycle k st t Hst Ht) as (st' & E & Hf).
  exists st'. split; [done|].
  assert (Hst' : st_ok st').
  { eapply frame_ok; [exact Hf|]. apply st_ok_update; [done|].
    apply tick_flags_regs. by apply (st_ok_lookup st k). }
  split; [done|]. split; [by rewrite (proj1 Hf)|]. split; [by intros ?; apply Hf, Hic|].
  intros j t0 Ht0. destruct (Hts j t0 Ht0) as (t1 & Ht1 & Hc1).
  destruct (decide (j = k)) as [->|Hne].
  - rewrite Ht in Ht1. injection Ht1 as <-.
    destruct (frame_lookup _ _ _ k (tick_flags cycles t) Hf) as (t2 & Ht2 & Hc2).
    { apply lookup_update_timer; [apply Hst|done]. }
    exists t2. split; [done|]. rewrite decide_True by lia. rewrite decide_False in Hc1 by lia.
    etrans; [by apply tick_flags_counts|done].
  - destruct (frame_lookup _ _ _ j t1 Hf) as (t2 & Ht2 & Hc2).
    { simpl. by rewrite list_lookup_insert_ne. }
    exists t2. split; [done|]. etrans; [|exact Hc2].
    destruct (decide (j < k)%nat), (decide (j < S k)%nat); done || lia.
Qed.

Lemma tick_spec cycles ic ts :
  has_four ts -> Forall regs_ok (timers ts) -> 0 < cycles ->
  exists r ic' ts',
    tick cycles ic ts = Ret (r, ic', ts') /\
    has_four ts' /\ cycle_counter ts' = u64 (cycle_counter ts + cycles) /\
    (Interrupts.wf ic -> Interrupts.wf ic') /\
    (forall j t, timers ts !! j = Some t ->
       exists t', timers ts' !! j = Some t' /\ counts_only (tick_flags cycles t) t').
Proof.
  intros Hl Hr Hc. unfold tick. destruct (Z.eqb_spec cycles 0); [lia|].
  set (st0 := mkTickState _ _ _). set (e := u64 _).
  assert (H0 : stage cycles 0 st0 st0).
  { split_and!; [by split|done|done|]. intros j t Ht. exists t. split; [done|].
    rewrite decide_False by lia. reflexivity. }
  assert (Hl0 : has_four (t_timers st0)) by done.
  destruct (stage_step cycles (cycle_counter ts) e 0 st0 st0) as (st1 & E1 & H1);
    [done|unfold kTimerCount; lia|done|].
  destruct (stage_step cycles (cycle_counter ts) e 1 st0 st1) as (st2 & E2 & H2);
    [done|unfold kTimerCount; lia|done|].
  destruct (stage_step cycles (cycle_counter ts) e 2 st0 st2) as (st3 & E3 & H3);
    [done|unfold kTimerCount; lia|done|].
  destruct (stage_step cycles (cycle_counter ts) e 3 st0 st3) as (st4 & E4 & H4);
    [done|unfold kTimerCount; lia|done|].
  rewrite E1. cbn [mbind exc_bind]. rewrite E2. cbn [mbind exc_bind].
  rewrite E3. cbn [mbind exc_bind]. rewrite E4. cbn [mbind exc_bind].
  destruct H4 as (Hst & Hcc & Hic & Hts).
  do 3 eexists. split; [done|]. split; [apply Hst|]. split; [done|]. split; [done|].
  intros j t Ht. destruct (Hts j t Ht) as (t' & Ht' & Hc'). exists t'. split; [done|].
  rewrite decide_True in Hc'; [done|]. apply lookup_lt_Some in Ht.
  unfold has_four, kTimerCount in Hl. lia.
Qed.

Lemma tick_wf (cycles : Z) (ic : InterruptController) (ts : Timers) :
  wf ts -> 0 < cycles -> cycle_counter ts + cycles < 2 ^ 64 ->
  exists r ic' ts',
    tick cycles ic ts = Ret (r, ic', ts') /\ wf ts' /\
    (Interrupts.wf ic -> Interrupts.wf ic') /\
    cycle_counter ts' = cycle_counter ts + cycles /\
    forall j t, timers ts !! j = Some t -> exists t', timers ts' !! j = Some t' /\
      reload t' = reload t /\ control t' = control t /\
      just_enabled t' = false /\ enable_delay_cycles t' = 0.
Proof.
  intros Hwf Hc Hov. pose proof Hwf as (Hl & Hn & H).
  destruct (tick_spec cycles ic ts) as (r & ic' & ts' & E & Hl' & Hcc & Hic & Hts);
    [done|by apply wf_regs|done|].
  rewrite wrap_id in Hcc by (unfold fits in *; lia).
  assert (Hkeep : forall j t t', timers ts !! j = Some t ->
    counts_only (tick_flags cycles t) t' ->
    timer_wf j (cycle_counter ts') t' /\ reload t' = reload t /\ control t' = control t /\
    just_enabled t' = false /\ enable_delay_cycles t' = 0).
  { intros j t t' Ht Hct. destruct (H j t Ht) as (Hr & Hco & Hd & Hph & Hat & Hj & Hdl).
    destruct Hct as (K1 & K2 & K3 & K4 & K5 & K6 & K7).
    assert (Hreg : regs_ok t') by (by apply K7, tick_flags_regs).
    unfold tick_flags in *. destruct (has (control t) kEnableFlag) eqn:Een; simpl in *.
    - replace (Z.min (enable_delay_cycles t) cycles) with (enable_delay_cycles t) in K3 by lia.
      rewrite Z.sub_diag in K3. change (u32 0) with 0 in K3.
      unfold timer_wf. rewrite K2, K3, K4, K5, K6, Hcc.
      split_and!; try done; lia.
    - assert (Hz : enable_delay_cycles t = 0).
      { destruct (decide (enable_delay_cycles t = 0)); [done|]. by destruct Hdl. }
      rewrite Hz in K3. unfold timer_wf. rewrite K2, K3, K4, K5, K6, Hcc.
      split_and!; try done; lia. }
  exists r, ic', ts'. split; [done|]. split.
  { split; [done|]. split; [unfold fits in *; lia|]. intros j t' Ht'.
    destruct (timer_exists j ts) as [t Ht]; [done| |].
    { rewrite <- Hl'. by eapply lookup_lt_Some. }
    destruct (Hts j t Ht) as (t'' & Ht'' & Hct). rewrite Ht' in Ht''. injection Ht'' as <-.
    by apply (Hkeep j t). }
  split; [done|]. split; [done|]. intros j t Ht. destruct (Hts j t Ht) as (t' & Ht' & Hct).
  exists t'. split; [done|]. by apply (Hkeep j t).
Qed.

(** A run of ticks: the results of each, the last controller and timers. *)
Fixpoint run_ticks (steps : list Z) (ic : InterruptController) (ts : Timers)
    : exc (list TickResult * InterruptController * Timers) :=
  match steps with
  | [] => Ret ([], ic, ts)
  | n :: steps =>
      '(r, ic, ts) ← tick n ic ts;
      '(rs, ic, ts) ← run_ticks steps ic ts;
      Ret (r :: rs, ic, ts)
  end.

(** The configuration: the part of a timer only register writes change. *)
Definition config (t : Timer) : Z * Z := (reload t, control t).

(** C24: any sequence of ticks returns a result per tick (the counting loops
    and cascades terminate and index no timer out of range), advances the
    clock by exactly its cycles and keeps the timer invariant (register
    widths, sanitized controls, at most one cycle of enable delay, anchors
    not in the future); reload values and controls are untouched. *)
Theorem run_ticks_total_wf (steps : list Z) (ic : InterruptController) (ts : Timers) :
  wf ts -> Forall (fun n => 0 < n) steps ->
  cycle_counter ts + foldr Z.add 0 steps < 2 ^ 64 ->
  exists rs ic' ts', run_ticks steps ic ts = Ret (rs, ic', ts') /\
    length rs = length steps /\ wf ts' /\ (Interrupts.wf ic -> Interrupts.wf ic') /\
    cycle_counter ts' = cycle_counter ts + foldr Z.add 0 steps /\
    map config (timers ts') = map config (timers ts).
Proof.
  revert ic ts. induction steps as [|n steps IH]; intros ic ts Hwf Hpos Hb.
  { exists [], ic, ts. simpl in *. split_and!; done || lia. }
  inversion_clear Hpos as [|? ? Hn Hpos']. simpl in *.
  assert (0 <= foldr Z.add 0 steps) by (clear -Hpos'; induction Hpos'; simpl; lia).
  destruct (tick_wf n ic ts) as (r & ic1 & ts1 & E & Hwf1 & Hic1 & Hc1 & Hts1); [done|done|lia|].
  rewrite E. cbn [mbind exc_bind].
  destruct (IH ic1 ts1) as (rs & ic2 & ts2 & E2 & Hlen & Hwf2 & Hic2 & Hc2 & Hts2); [done|done|lia|].
  rewrite E2. cbn [mbind exc_bind]. exists (r :: rs), ic2, ts2.
  split; [done|]. split; [simpl; lia|]. split; [done|]. split; [auto|]. split; [lia|].
  rewrite Hts2. apply list_eq. intros i. rewrite !list_lookup_fmap.
  destruct (timers ts !! i) as [t|] eqn:Ht.
  - destruct (Hts1 i t Ht) as (t' & -> & Hr & Hco & _). unfold config. simpl. by rewrite Hr, Hco.
  - assert (timers ts1 !! i = None) as ->; [|done].
    apply lookup_ge_None in Ht. apply lookup_ge_None.
    destruct Hwf as [Hl _], Hwf1 as [Hl1 _]. unfold has_four in *. lia.
Qed.

Lemma run_ticks_total_wf_witness :
  exists ts, (ts ← write_reload 0 0xFFF0 reset; write_control 0 0xC0 ts) = Ret ts /\
  exists rs ic' ts', run_ticks [100; 7] Interrupts.reset ts = Ret (rs, ic', ts') /\ wf ts'.
Proof.
  destruct (write_reload_wf 0 0xFFF0 reset timers_reset_wf) as (ts1 & E1 & H1);
    [apply Nat.ltb_lt; reflexivity|split; reflexivity || discriminate|].
  vm_compute in E1. injection E1 as <-.
  destruct (write_control_wf 0 0xC0 _ H1) as (ts2 & E2 & H2); [apply Nat.ltb_lt; reflexivity|].
  vm_compute in E2. injection E2 as <-.
  eexists. split; [reflexivity|].
  destruct (run_ticks_total_wf [100; 7] Interrupts.reset _ H2) as (r & ic' & ts' & E & _ & Hw & _);
    [repeat constructor|reflexivity|].
  exists r, ic', ts'. split; [exact E|exact Hw].
Defined.

(** The counting loop against the reference, at any depth that covers the
    cascade. *)
Lemma increment_timer_reference depth index ticks cycle stride st :
  (index < kTimerCount)%nat -> (kTimerCount <= S depth + index)%nat ->
  st_ok st -> fits 64 ticks ->
  0 <= cycle -> 0 <= stride -> cycle + ticks * stride < 2 ^ 64 ->
  increment_timer (S depth) index ticks cycle stride st =
  count_ticks (handle_overflow (increment_timer depth)) index (Z.to_nat ticks) cycle stride st.
Proof.
  intros Hi Hd Hst Hticks Hcyc Hstr Hov. cbn [increment_timer].
  apply increment_loop_reference; [done| |done|unfold fits in *; lia|done..].
  intros c s s' Hs E.
  destruct (handle_overflow_depth_yields depth index c s) as (s'' & E' & Hf); [done..|].
  rewrite E in E'. injection E' as <-. by eapply frame_ok.
Qed.

(** C30: the batched counting loop is the tick-by-tick counter: advancing a
    timer by [ticks] prescaler ticks at once gives exactly what [ticks]
    single ticks, [stride] cycles apart, give (each counting up by one, or
    reloading and overflowing when the counter is full): the counter, every
    overflow with its cycle, the cascades and the interrupts. *)
Theorem increment_timer_tick_by_tick (index : nat) (ticks cycle stride : Z) (st : TickState) :
  (index < kTimerCount)%nat -> st_ok st -> fits 64 ticks ->
  0 <= cycle -> 0 <= stride -> cycle + ticks * stride < 2 ^ 64 ->
  increment_timer (kTimerCount - index) index ticks cycle stride st =
  count_ticks (handle_overflow (increment_timer (kTimerCount - index - 1))) index
    (Z.to_nat ticks) cycle stride st.
Proof.
  intros Hi Hst Hticks Hcyc Hstr Hov.
  destruct (kTimerCount - index)%nat as [|depth] eqn:Ed; [lia|].
  replace (S depth - 1)%nat with depth by lia.
  apply increment_timer_reference; try assumption. lia.
Qed.

Lemma increment_timer_tick_by_tick_witness :
  let st := mkTickState reset Interrupts.reset (mkTickResult None) in
  increment_timer (kTimerCount - 0) 0 5 64 64 st =
  count_ticks (handle_overflow (increment_timer (kTimerCount - 0 - 1))) 0 (Z.to_nat 5) 64 64 st.
Proof.
  intros st. apply (increment_timer_tick_by_tick 0 5 64 64 st);
    [apply Nat.ltb_lt; reflexivity
    |split; [reflexivity|apply (wf_regs _ timers_reset_wf)]
    |split; reflexivity || discriminate|discriminate|discriminate|reflexivity].
Defined.

(** ** Snapshots

    A snapshot drops [enabled_at_cycle]; [load_state] re-anchors it at the
    restored cycle.  [anchored now] relates timers that differ only in that
    anchor, and not while an enable delay is pending. *)

Definition anchored (now : Z) (t t' : Timer) : Prop :=
  counter t' = counter t /\ reload t' = reload t /\ control t' = control t /\
  overflow_count t' = overflow_count t /\ enable_delay_cycles t' = enable_delay_cycles t /\
  last_enable_phase t' = last_enable_phase t /\ just_enabled t' = just_enabled t /\
  0 <= enabled_at_cycle t <= now /\ 0 <= enabled_at_cycle t' <= now /\
  (enable_delay_cycles t <> 0 -> enabled_at_cycle t' = enabled_at_cycle t) /\
  0 <= enable_delay_cycles t <= 1.

Definition exc_rel {A} (R : A -> A -> Prop) (m m' : exc A) : Prop :=
  match m, m' with
  | Ret a, Ret a' => R a a'
  | Throw, Throw => True
  | _, _ => False
  end.

Lemma exc_rel_bind {A B} (R : A -> A -> Prop) (S : B -> B -> Prop) m m' f f' :
  exc_rel R m m' -> (forall a a', R a a' -> exc_rel S (f a) (f' a')) ->
  exc_rel S (m ≫= f) (m' ≫= f').
Proof. destruct m, m'; simpl; auto; done. Qed.

Section Simulation.
Context (now : Z) (now_fits : fits 64 now).

(** The states of the two runs: equal but for the anchors. *)
Definition sim (st st' : TickState) : Prop :=
  st_ok st /\ st_ok st' /\
  t_interrupts st' = t_interrupts st /\ t_result st' = t_result st /\
  (cycle_counter (t_timers st') = cycle_counter (t_timers st) /\
   now <= cycle_counter (t_timers st)) /\
  Forall2 (anchored now) (timers (t_timers st)) (timers (t_timers st')).

Lemma anchored_regs t t' : anchored now t t' -> regs_ok t -> regs_ok t'.
Proof using Type. intros (E1 & E2 & _ & E3 & _). unfold regs_ok. by rewrite E1, E2, E3. Qed.

Lemma sim_lookup st st' index t :
  sim st st' -> timers (t_timers st) !! index = Some t ->
  exists t', timers (t_timers st') !! index = Some t' /\ anchored now t t'.
Proof using Type. intros (_ & _ & _ & _ & _ & H) Ht. by apply (Forall2_lookup_l _ _ _ _ _ H). Qed.

Lemma sim_update st st' index t t' :
  sim st st' -> regs_ok t -> anchored now t t' ->
  sim (st <| t_timers ::= update_timer index t |>) (st' <| t_timers ::= update_timer index t' |>).
Proof using Type.
  intros (H1 & H2 & H3 & H4 & H5 & H6) Hr Ht.
  split; [by apply st_ok_update|]. split; [by apply st_ok_update, (anchored_regs t)|].
  do 2 (split; [done|]). split; [done|]. simpl. by apply Forall2_insert.
Qed.

Lemma sim_raise index cycle st st' :
  sim st st' -> sim (raise_overflow_irq index cycle st) (raise_overflow_irq index cycle st').
Proof using Type.
  intros (H1 & H2 & H3 & H4 & [H5 H5'] & H6). unfold raise_overflow_irq. rewrite H3, H4.
  by split_and!.
Qed.

(** The cascade test does not see the anchor: overflows are later than it. *)
Lemma cascade_test_anchored cycle t t' :
  anchored now t t' -> now < cycle ->
  (cycle <=? u64 (enabled_at_cycle t' + enable_delay_cycles t')) =
  (cycle <=? u64 (enabled_at_cycle t + enable_delay_cycles t)).
Proof using now_fits.
  intros (_ & _ & _ & _ & Hd & _ & _ & He & He' & Heq & _) Hc. rewrite Hd.
  destruct (Z.eqb_spec (enable_delay_cycles t) 0) as [E|E]; [|by rewrite Heq].
  rewrite E, !Z.add_0_r, !wrap_id by (unfold fits in *; lia).
  destruct (Z.leb_spec cycle (enabled_at_cycle t')), (Z.leb_spec cycle (enabled_at_cycle t)); lia.
Qed.

Lemma sim_checked st st' index :
  sim st st' ->
  exc_rel (fun t t' => timers (t_timers st) !! index = Some t /\ regs_ok t /\ anchored now t t')
    (checked_timer index (t_timers st)) (checked_timer index (t_timers st')).
Proof using Type.
  intros Hs. destruct (decide (kTimerCount <= index)%nat) as [|Hi].
  { rewrite !checked_timer_out_of_range by done. done. }
  destruct (timer_exists index (t_timers st)) as [t Ht]; [apply Hs|lia|].
  destruct (sim_lookup _ _ _ _ Hs Ht) as (t' & Ht' & Ha).
  rewrite (checked_timer_lookup _ _ t), (checked_timer_lookup _ _ t') by (done || apply Hs).
  split; [done|]. split; [|done]. by apply (st_ok_lookup st index t (proj1 Hs)).
Qed.

(** A boolean read of the control register is the same in both runs. *)
Lemma sim_control st st' index f :
  sim st st' ->
  exc_rel (fun b b' : bool => b' = b)
    (t ← checked_timer index (t_timers st); Ret (f (control t)))
    (t ← checked_timer index (t_timers st'); Ret (f (control t))).
Proof using Type.
  intros Hs. eapply exc_rel_bind; [by apply sim_checked|].
  intros t t' (_ & _ & (_ & _ & E & _)). simpl. by rewrite E.
Qed.

Lemma handle_overflow_sim inc index cycle st st' :
  ((S index < kTimerCount)%nat -> forall st st', sim st st' ->
     exc_rel sim (inc (S index) 1 cycle 1 st) (inc (S index) 1 cycle 1 st')) ->
  now < cycle -> sim st st' ->
  exc_rel sim (handle_overflow inc index cycle st) (handle_overflow inc index cycle st').
Proof using now_fits.
  intros Hinc Hc Hs. unfold handle_overflow.
  eapply exc_rel_bind; [by apply sim_checked|]. intros t t' (Ht & Hr & Ha).
  assert (Hs1 : sim
    (st <| t_timers ::= update_timer index (t <| overflow_count := u64 (overflow_count t + 1) |>) |>)
    (st' <| t_timers ::= update_timer index (t' <| overflow_count := u64 (overflow_count t' + 1) |>) |>)).
  { apply sim_update; [done| |].
    - destruct Hr as (? & ? & ?). split_and!; try done. simpl. width.
    - destruct Ha as (E1 & E2 & E3 & E4 & Hrest). unfold anchored. simpl. by rewrite E4. }
  unfold irq_enabled, enabled, count_up. cbn [Nat.eqb].
  eapply exc_rel_bind; [by apply (sim_control _ _ _ (fun c => has c kIrqFlag))|].
  intros irq ? ->.
  assert (Hs2 : forall s s', sim s s' ->
    sim (if irq : bool then raise_overflow_irq index cycle s else s)
        (if irq : bool then raise_overflow_irq index cycle s' else s'))
    by (intros s s' Hss; destruct irq; [by apply sim_raise|done]).
  apply Hs2 in Hs1. clear Hs2.
  clear Hs Ht Hr Ha. revert Hs1. generalize (if irq : bool then raise_overflow_irq index cycle
    (st' <| t_timers ::= update_timer index (t' <| overflow_count := u64 (overflow_count t' + 1) |>) |>)
    else st' <| t_timers ::= update_timer index (t' <| overflow_count := u64 (overflow_count t' + 1) |>) |>).
  generalize (if irq : bool then raise_overflow_irq index cycle
    (st <| t_timers ::= update_timer index (t <| overflow_count := u64 (overflow_count t + 1) |>) |>)
    else st <| t_timers ::= update_timer index (t <| overflow_count := u64 (overflow_count t + 1) |>) |>).
  clear st st'. intros st st' Hs1. destruct (decide (S index < kTimerCount)%nat); [|done].
  eapply exc_rel_bind; [by apply (sim_control _ _ _ (fun c => has c kEnableFlag))|].
  intros en ? ->.
  eapply exc_rel_bind; [by apply (sim_control _ _ _ (fun c => has c kCountUpFlag))|].
  intros cu ? ->.
  destruct (en && cu); [|done].
  eapply exc_rel_bind; [by apply sim_checked|]. intros t1 t1' (_ & _ & Ha1).
  rewrite (cascade_test_anchored cycle t1 t1') by done.
  destruct (cycle <=? _); [done|]. by apply Hinc.
Qed.

Lemma count_ticks_sim overflow index n cycle stride st st' :
  (forall cycle st st', now < cycle -> cycle + 1 < 2 ^ 64 -> sim st st' ->
     exc_rel sim (overflow index cycle st) (overflow index cycle st')) ->
  now < cycle -> 1 <= stride -> cycle + Z.of_nat n * stride < 2 ^ 64 -> sim st st' ->
  exc_rel sim (count_ticks overflow index n cycle stride st)
              (count_ticks overflow index n cycle stride st').
Proof using Type.
  intros Hov. revert cycle st st'. induction n as [|n IH]; intros cycle st st' Hc Hstr Hb Hs;
    [done|]. simpl.
  apply (exc_rel_bind sim); [|intros; apply IH; [lia|done|lia|done]].
  unfold count_tick. eapply exc_rel_bind; [by apply sim_checked|].
  intros t t' (Ht & Hr & Ha). pose proof Ha as (E1 & E2 & E3 & Hrest). rewrite E1, E2.
  pose proof Hrest as (?&?&?&?&?&?&?&?).
  assert (Hup : forall c, fits 16 c -> sim
    (st <| t_timers ::= update_timer index (t <| counter := c |>) |>)
    (st' <| t_timers ::= update_timer index (t' <| counter := c |>) |>)).
  { intros c Hcf. apply sim_update; [done| |unfold anchored; simpl; split_and!; done || lia].
    destruct Hr as (? & ? & ?). by unfold regs_ok; simpl; split_and!. }
  destruct Hr as (Hcf & Hrf & _). destruct (Z.eqb_spec (counter t) 0xFFFF).
  - apply Hov; [done|nia|]. by apply Hup.
  - apply Hup. unfold fits in *. lia.
Qed.

Lemma increment_timer_sim depth index ticks cycle stride st st' :
  (index < kTimerCount)%nat -> (kTimerCount <= depth + index)%nat -> fits 64 ticks ->
  now < cycle -> 1 <= stride -> cycle + ticks * stride < 2 ^ 64 -> sim st st' ->
  exc_rel sim (increment_timer depth index ticks cycle stride st)
              (increment_timer depth index ticks cycle stride st').
Proof using now_fits.
  revert index ticks cycle stride st st'. induction depth as [|depth IH];
    intros index ticks cycle stride st st' Hi Hd Hticks Hc Hstr Hb Hs; [done|].
  assert (0 <= cycle) by (unfold fits in *; lia).
  rewrite !increment_timer_reference by (apply Hs || assumption || lia).
  apply count_ticks_sim; try assumption; [|by rewrite Z2Nat.id by apply Hticks].
  intros c s s' Hc' Hb' Hss. apply handle_overflow_sim; [|done..].
  intros Hn s1 s1' Hs1. apply IH; try assumption; try lia. by vm_compute.
Qed.

Lemma tick_timer_sim cycles index st st' :
  (index < kTimerCount)%nat -> 0 < cycles -> now + cycles + 2048 < 2 ^ 64 -> sim st st' ->
  exc_rel sim (tick_timer cycles now (now + cycles) index st)
              (tick_timer cycles now (now + cycles) index st').
Proof using now_fits.
  intros Hi Hc Hb Hs. unfold tick_timer, enabled, count_up, prescaler_divisor.
  destruct (timer_exists index (t_timers st)) as [t Ht]; [apply Hs|done|].
  destruct (sim_lookup _ _ _ _ Hs Ht) as (t' & Ht' & Ha).
  assert (Hr : regs_ok t) by (by apply (st_ok_lookup st index t (proj1 Hs))).
  rewrite (array_at_Ret _ _ t), (array_at_Ret (timers (t_timers st')) _ t') by done.
  rewrite (checked_timer_lookup _ _ t), (checked_timer_lookup _ (t_timers st') t')
    by (done || apply Hs).
  cbn [mbind exc_bind]. pose proof Ha as (E1 & E2 & E3 & E4 & E5 & E6 & E7 & E8 & E9 & E10 & Hdelay).
  rewrite E3, E5. destruct (has (control t) kEnableFlag); cbn [negb]; cycle 1.
  { apply sim_update; [done..|]. unfold anchored. simpl.
    split_and!; done || lia || (intros; lia). }
  set (skipped := Z.min (enable_delay_cycles t) cycles).
  set (d := u32 (enable_delay_cycles t - skipped)).
  assert (Hd0 : d = 0) by (subst d skipped; by replace (_ - _) with 0 by lia).
  set (st1 := st <| t_timers ::= _ |>). set (st1' := st' <| t_timers ::= _ |>).
  assert (Hs1 : sim st1 st1').
  { apply sim_update; [done..|]. unfold anchored. simpl.
    split_and!; done || lia || (intros; lia). }
  assert (Hcu : exists cu, (if (index =? 0)%nat then Ret false
    else Ret (has (control t) kCountUpFlag)) = Ret cu)
    by (destruct (index =? 0)%nat; eauto).
  destruct Hcu as [cu ->]. cbn [mbind exc_bind]. destruct cu; [done|]. simpl enable_delay_cycles.
  destruct (_ || _); [done|].
  apply (exc_rel_bind (fun v v' => v' = v /\ 1 <= v <= 1024)).
  { eapply exc_rel_bind; [by apply (sim_checked _ _ _ Hs1)|].
    intros t1 t1' (_ & _ & _ & _ & E & _). simpl. rewrite E. split; [done|apply divisor_range]. }
  intros v v' [-> Hv].
  assert (Hsk : 0 <= skipped <= 1) by (subst skipped; lia). clearbody skipped.
  assert (Hf : u64 (u64 (now + skipped) + 1) = now + skipped + 1)
    by (rewrite (wrap_id 64 (now + skipped)), wrap_id; unfold fits in *; lia).
  rewrite Hf. clear Hf.
  assert (Hf : u64 (u64 (now + skipped + 1 + v) - 1) = now + skipped + v)
    by (rewrite (wrap_id 64 (now + skipped + 1 + v)), wrap_id; unfold fits in *; lia).
  rewrite Hf. clear Hf.
  pose proof (Z.div_mod (now + skipped + v) v ltac:(lia)) as Hdm.
  pose proof (Z.mod_pos_bound (now + skipped + v) v ltac:(lia)) as Hmod.
  set (q := (now + skipped + v) / v) in *.
  assert (now < q * v <= now + skipped + v) by lia.
  rewrite (wrap_id 64 (q * v)) by (unfold fits in *; lia).
  destruct (Z.ltb_spec (now + cycles) (q * v)); [done|].
  rewrite (wrap_id 64 (now + cycles - q * v)) by (unfold fits in *; lia).
  pose proof (Z.div_mod (now + cycles - q * v) v ltac:(lia)) as Hdm2.
  pose proof (Z.mod_pos_bound (now + cycles - q * v) v ltac:(lia)) as Hmod2.
  set (m := (now + cycles - q * v) / v) in *.
  assert (0 <= m <= now + cycles - q * v) by nia.
  rewrite wrap_id by (unfold fits in *; lia).
  apply increment_timer_sim; try assumption; unfold kTimerCount, fits in *; nia.
Qed.
End Simulation.

(** ** Snapshot equivalence *)

Definition equiv (ts ts' : Timers) : Prop :=
  cycle_counter ts' = cycle_counter ts /\
  Forall2 (anchored (cycle_counter ts)) (timers ts) (timers ts').

Lemma anchored_later now now' t t' : now <= now' -> anchored now t t' -> anchored now' t t'.
Proof.
  intros Hn (? & ? & ? & ? & ? & ? & ? & ? & ? & ?).
  unfold anchored. split_and!; done || lia.
Qed.

Lemma equiv_saves ts ts' : equiv ts ts' -> save_state ts' = save_state ts.
Proof.
  intros [Hc H]. unfold save_state. rewrite Hc. f_equal. clear Hc.
  induction H as [|t t' l l' Ht _ IH]; [done|]. simpl. rewrite IH. f_equal.
  destruct Ht as (E1 & E2 & E3 & E4 & E5 & E6 & E7 & _). unfold save_timer.
  by rewrite E1, E2, E3, E4, E5, E6, E7.
Qed.

(** The hash reads the saved fields only. *)
Lemma hash_timer_saved h t t' : save_timer t' = save_timer t -> hash_timer h t' = hash_timer h t.
Proof.
  unfold save_timer. intros [= E1 E2 E3 E4 E5 E6 E7]. unfold hash_timer.
  rewrite E1, E2, E3, E4, E5, E6, E7. reflexivity.
Qed.

Lemma fold_left_through {A B C} (f : B -> A -> B) (g : A -> C) l l' h :
  (forall h t t', g t' = g t -> f h t' = f h t) -> map g l' = map g l ->
  fold_left f l' h = fold_left f l h.
Proof.
  intros Hf. revert l' h. induction l as [|t l IH]; intros [|t' l'] h E; try done.
  simpl in *. injection E as E1 E2. rewrite (Hf h t t' E1). by apply IH.
Qed.

Lemma saves_hash ts ts' : save_state ts' = save_state ts -> state_hash ts' = state_hash ts.
Proof.
  intros E. apply (f_equal s_timers) in E as E1. apply (f_equal s_cycle_counter) in E as E2.
  cbn [save_state s_timers s_cycle_counter] in E1, E2. unfold state_hash. rewrite E2.
  apply (fold_left_through _ save_timer); [exact hash_timer_saved|exact E1].
Qed.

Lemma tick_equiv cycles ic ts ts' :
  wf ts -> equiv ts ts' -> 0 <= cycles -> cycle_counter ts + cycles + 2048 < 2 ^ 64 ->
  exc_rel (fun x x' => x'.1 = x.1 /\ equiv x.2 x'.2) (tick cycles ic ts) (tick cycles ic ts').
Proof.
  intros Hwf [Hcc Heq] Hc Hb. pose proof Hwf as (Hl & Hn & H). unfold tick.
  destruct (Z.eqb_spec cycles 0); [done|]. rewrite Hcc.
  rewrite (wrap_id 64 (cycle_counter ts + cycles)) by (unfold fits in *; lia).
  set (now := cycle_counter ts) in *.
  set (st0 := mkTickState (ts <| _ := _ |>) _ _). set (st0' := mkTickState (ts' <| _ := _ |>) _ _).
  assert (Hregs : Forall regs_ok (timers ts)) by (by apply wf_regs).
  assert (Hs0 : sim now st0 st0').
  { assert (Hl' : has_four ts') by (unfold has_four in *; rewrite <- Hl; symmetry;
      eapply Forall2_length; exact Heq).
    split_and!; try done; [|simpl; lia]. split; [done|]. apply Forall_lookup. intros i t' Ht'.
    destruct (Forall2_lookup_r _ _ _ _ _ Heq Ht') as (t & Ht & Ha).
    apply (anchored_regs now t); [done|]. apply (Forall_lookup_1 _ _ _ _ Hregs Ht). }
  assert (Hstep : forall k s s', (k < kTimerCount)%nat -> sim now s s' ->
    exc_rel (sim now) (tick_timer cycles now (now + cycles) k s)
                      (tick_timer cycles now (now + cycles) k s'))
    by (intros; apply tick_timer_sim; unfold kTimerCount, fits in *; done || lia).
  eapply exc_rel_bind; [apply Hstep; [unfold kTimerCount; lia|exact Hs0]|]. intros s1 s1' Hs1.
  eapply exc_rel_bind; [apply Hstep; [unfold kTimerCount; lia|exact Hs1]|]. intros s2 s2' Hs2.
  eapply exc_rel_bind; [apply Hstep; [unfold kTimerCount; lia|exact Hs2]|]. intros s3 s3' Hs3.
  eapply exc_rel_bind; [apply Hstep; [unfold kTimerCount; lia|exact Hs3]|].
  intros s4 s4' (_ & _ & Hi & Hr & [Hc4 Hle] & H4). simpl. rewrite Hi, Hr. split; [done|].
  split; [done|]. simpl. eapply Forall2_impl; [|exact H4]. intros t t'. by apply anchored_later.
Qed.

(** [load_state] accepts what [save_state] wrote. *)
Lemma save_timer_ok now i t : timer_wf i now t -> timer_state_ok i (save_timer t) = true.
Proof.
  intros (_ & [Hm H0] & Hd & _ & _ & Hj & Hdl). unfold timer_state_ok, save_timer. simpl.
  assert (Hz : has (control t) (Z.lnot kControlMask) = false).
  { rewrite <- Hm. unfold has. by rewrite <- Z.land_assoc, Z.land_lnot_diag, Z.land_0_r. }
  rewrite Hz. simpl. destruct (Z.ltb_spec 1 (enable_delay_cycles t)); [lia|].
  destruct (Nat.eqb_spec i 0) as [->|]; [rewrite H0 by done|]; simpl;
    (destruct (just_enabled t); [destruct Hj as [Hen _]; [done|]; rewrite Hen; simpl;
        by rewrite andb_false_r|]); simpl;
    (destruct (Z.eqb_spec (enable_delay_cycles t) 0); [done|]);
    destruct Hdl as [Hen _]; [done|by rewrite Hen|done|by rewrite Hen].
Qed.

Lemma forallb_imap {A} (f : nat -> A -> bool) l :
  (forall i a, l !! i = Some a -> f i a = true) -> forallb (fun b => b) (imap f l) = true.
Proof.
  revert f. induction l as [|a l IH]; intros f H; [done|]. simpl.
  rewrite (H 0%nat a) by done. apply IH. intros i b Hb. by apply (H (S i) b).
Qed.

Lemma load_save_anchored i now t :
  fits 64 now -> timer_wf i now t -> anchored now t (load_timer now (save_timer t)).
Proof.
  intros Hn (_ & _ & Hd & _ & Hat & Hj & Hdl). unfold anchored, load_timer, save_timer. simpl.
  split_and!; try done; try lia.
  - case_match; unfold fits in *; lia.
  - case_match; unfold fits in *; lia.
  - intros Hne. destruct (Hdl Hne) as [-> ->]. done.
Qed.

Lemma load_save_equiv ts other :
  wf ts -> exists ts', load_state (save_state ts) other = (true, ts') /\ equiv ts ts'.
Proof.
  intros (Hl & Hn & H). unfold load_state. simpl.
  rewrite forallb_imap; cycle 1.
  { intros i s Hs. rewrite list_lookup_fmap in Hs. destruct (timers ts !! i) eqn:Ht; [|done].
    injection Hs as <-. by eapply save_timer_ok, H. }
  eexists. split; [done|]. split; [done|]. simpl. apply Forall2_lookup. intros i.
  rewrite !list_lookup_fmap. destruct (timers ts !! i) as [t|] eqn:Ht; [|by constructor].
  constructor. by apply (load_save_anchored i), H.
Qed.

Lemma run_ticks_equiv steps ic ts ts' :
  wf ts -> equiv ts ts' -> Forall (fun n => 0 < n) steps ->
  cycle_counter ts + foldr Z.add 0 steps + 2048 < 2 ^ 64 ->
  exists out ts1 ts1', run_ticks steps ic ts = Ret (out, ts1) /\
    run_ticks steps ic ts' = Ret (out, ts1') /\ equiv ts1 ts1'.
Proof.
  revert ic ts ts'. induction steps as [|n steps IH]; intros ic ts ts' Hwf Heq Hpos Hb.
  { by exists ([], ic), ts, ts'. }
  inversion_clear Hpos as [|? ? Hn Hpos']. simpl in Hb.
  assert (0 <= foldr Z.add 0 steps) by (clear -Hpos'; induction Hpos'; simpl; lia).
  destruct (tick_wf n ic ts) as (r & ic1 & ts1 & E & Hwf1 & _ & Hc1 & _); [done|done|lia|].
  pose proof (tick_equiv n ic ts ts' Hwf Heq) as Ht.
  rewrite E in Ht. destruct (tick n ic ts') as [[[r' ic1'] ts1']|] eqn:E';
    [|by destruct Ht; lia].
  destruct Ht as [Er Heq1]; [lia..|]. simpl in Er, Heq1. injection Er as -> ->.
  destruct (IH ic1 ts1 ts1') as ([rs ic2] & ts2 & ts2' & R & R' & Heq2); [done..|lia|].
  exists (r :: rs, ic2), ts2, ts2'. simpl. rewrite E, E'. cbn [mbind exc_bind].
  by rewrite R, R'.
Qed.

(** C33: restoring a snapshot is invisible: on timers that satisfy the
    invariant, [load_state] accepts what [save_state] wrote; the restored
    timers have the same snapshot and the same state hash, and every run of
    ticks from them gives the same results, raises the same interrupts and
    ends in a state with the same snapshot as a run from the saved ones. *)
Theorem snapshot_resume (ts other : Timers) (steps : list Z) (ic : InterruptController) :
  wf ts -> Forall (fun n => 0 < n) steps ->
  cycle_counter ts + foldr Z.add 0 steps + 2048 < 2 ^ 64 ->
  exists restored, load_state (save_state ts) other = (true, restored) /\
    save_state restored = save_state ts /\ state_hash restored = state_hash ts /\
    exists out last last', run_ticks steps ic ts = Ret (out, last) /\
      run_ticks steps ic restored = Ret (out, last') /\ save_state last' = save_state last.
Proof.
  intros Hwf Hpos Hb. destruct (load_save_equiv ts other Hwf) as (restored & E & Heq).
  exists restored. split; [done|]. pose proof (equiv_saves _ _ Heq) as Hs. split; [done|].
  split; [by apply saves_hash|].
  destruct (run_ticks_equiv steps ic ts restored) as (out & l & l' & R & R' & Hl); [done..|].
  exists out, l, l'. split; [done|]. split; [done|]. by apply equiv_saves.
Qed.

Lemma snapshot_resume_witness :
  exists restored, load_state (save_state reset) reset = (true, restored) /\
    save_state restored = save_state reset.
Proof.
  destruct (snapshot_resume reset reset [3; 5] Interrupts.reset) as (r & E & H & _);
    [exact timers_reset_wf|repeat constructor|reflexivity|]. exists r. split; [exact E|exact H].
Defined.
