(* ===== verification/PpuTiming.v ===== *)
(** * PPU timing

    [PpuTiming] of [include/gba/core/ppu_timing.hpp] and
    [src/core/ppu_timing.cpp]: the scanline counter, DISPSTAT, the LCD
    control registers and the HBlank, VBlank and VCOUNT events.

    The [while] loop of [tick] runs on fuel: every iteration consumes a cycle
    or leaves the line end, so [cycles + 1] iterations are enough
    ([PpuTimingSpec.tick_cycle_by_cycle] shows that a result is returned). *)

From S2P Require Import Prelude StateHash Interrupts.

Module PpuPhase.
(* @ ppu_timing.hpp:12-16 PpuPhase *)
Inductive t : Type := visible | hblank | vblank.
End PpuPhase.

(* @ ppu_timing.hpp:18-22 PpuTickEvents *)
Record PpuTickEvents : Type := mkPpuTickEvents {
  hblank_entries : Z;
  vblank_entries : Z;
  vcount_matches : Z
}.

#[export] Instance eta_PpuTickEvents : Eta PpuTickEvents := fun e =>
  mkPpuTickEvents (hblank_entries e) (vblank_entries e) (vcount_matches e).

(* @ ppu_renderer.hpp:12-33 PpuRenderControl *)
Record PpuRenderControl : Type := mkPpuRenderControl {
  dispcnt : Z;
  bg_control : list Z;
  bg_scroll_x : list Z;
  bg_scroll_y : list Z;
  win0h : Z;
  win0v : Z;
  win1h : Z;
  win1v : Z;
  winin : Z;
  winout : Z;
  bldcnt : Z;
  bldalpha : Z;
  bldy : Z;
  bg_affine_pa : list Z;
  bg_affine_pb : list Z;
  bg_affine_pc : list Z;
  bg_affine_pd : list Z;
  bg_reference_x : list Z;
  bg_reference_y : list Z;
  mosaic : Z
}.

(* @ ppu_timing.hpp:26-27 PpuTiming::kVisibleLines *)
Definition kVisibleLines : Z := 160.
(* @ ppu_timing.hpp:27-27 PpuTiming::kVblankLines *)
Definition kVblankLines : Z := 68.
(* @ ppu_timing.hpp:28-28 PpuTiming::kTotalLines *)
Definition kTotalLines : Z := kVisibleLines + kVblankLines.
(* @ ppu_timing.hpp:29-29 PpuTiming::kVisibleCycles *)
Definition kVisibleCycles : Z := 960.
(* @ ppu_timing.hpp:30-33 PpuTiming::kHblankFlagCycles *)
Definition kHblankFlagCycles : Z := 1004.
(* @ ppu_timing.hpp:34-34 PpuTiming::kHblankCycles *)
Definition kHblankCycles : Z := 272.
(* @ ppu_timing.hpp:35-35 PpuTiming::kCyclesPerLine *)
Definition kCyclesPerLine : Z := kVisibleCycles + kHblankCycles.
(* @ ppu_timing.hpp:36-37 PpuTiming::kCyclesPerFrame *)
Definition kCyclesPerFrame : Z := kCyclesPerLine * kTotalLines.

(* @ ppu_timing.cpp:11-11 kVblankIrqEnable *)
Definition kVblankIrqEnable : Z := 0x0008.
(* @ ppu_timing.cpp:12-12 kHblankIrqEnable *)
Definition kHblankIrqEnable : Z := 0x0010.
(* @ ppu_timing.cpp:13-13 kVcountIrqEnable *)
Definition kVcountIrqEnable : Z := 0x0020.
(* @ ppu_timing.cpp:14-15 kWritableDispstatMask *)
Definition kWritableDispstatMask : Z :=
  Z.lor (Z.lor (Z.lor kVblankIrqEnable kHblankIrqEnable) kVcountIrqEnable) 0xFF00.
(* @ ppu_timing.cpp:16-16 kVblankFlag *)
Definition kVblankFlag : Z := 0x0001.
(* @ ppu_timing.cpp:17-17 kHblankFlag *)
Definition kHblankFlag : Z := 0x0002.
(* @ ppu_timing.cpp:18-18 kVcountFlag *)
Definition kVcountFlag : Z := 0x0004.
(* @ ppu_timing.cpp:19-19 kLcdControlStart *)
Definition kLcdControlStart : Z := 0x04000000.
(* @ ppu_timing.cpp:20-20 kLcdControlEnd *)
Definition kLcdControlEnd : Z := 0x04000054.
(* @ ppu_timing.cpp:21-21 kDispstatAddress *)
Definition kDispstatAddress : Z := 0x04000004.
(* @ ppu_timing.cpp:22-22 kVcountAddress *)
Definition kVcountAddress : Z := 0x04000006.

(* @ ppu_timing.hpp:79-83 PpuTiming *)
Record PpuTiming : Type := mkPpuTiming {
  line_ : Z;
  line_cycle_ : Z;
  dispstat_control_ : Z;
  lcd_control_ : list Z
}.

#[export] Instance eta_PpuTiming : Eta PpuTiming := fun p =>
  mkPpuTiming (line_ p) (line_cycle_ p) (dispstat_control_ p) (lcd_control_ p).

(** [PpuTiming::State] has the same fields. *)
(* @ ppu_timing.hpp:39-44 PpuTiming::State *)
Record State : Type := mkState {
  s_line : Z;
  s_line_cycle : Z;
  s_dispstat_control : Z;
  s_lcd_control : list Z
}.

(** ** LCD control registers *)

(* @ ppu_timing.cpp:24-41 is_lcd_control_address *)
Definition is_lcd_control_address (address : Z) : bool :=
  if has address 0x1 || (address <? kLcdControlStart) || (kLcdControlEnd <? address) then false
  else if (address =? kDispstatAddress) || (address =? kVcountAddress) then false
  else if address <=? 0x0400001E then true
  else if (0x04000020 <=? address) && (address <=? 0x0400003E) then true
  else if (0x04000040 <=? address) && (address <=? kLcdControlEnd) then true
  else false.

(* @ ppu_timing.cpp:43-45 lcd_control_index *)
Definition lcd_control_index (address : Z) : nat :=
  Z.to_nat ((address - kLcdControlStart) / 2).

(* @ ppu_timing.cpp:47-66 lcd_control_read_mask *)
Definition lcd_control_read_mask (address : Z) : Z :=
  match address with
  | 0x04000000 => 0xFFFF
  | 0x04000002 => 0x0001
  | 0x04000008 | 0x0400000A => 0xDFFF
  | 0x04000048 | 0x0400004A => 0x3F3F
  | 0x04000050 => 0x3FFF
  | 0x04000052 => 0x1F1F
  | _ => 0xFFFF
  end.

(* @ ppu_timing.cpp:68-84 is_lcd_control_readable *)
Definition is_lcd_control_readable (address : Z) : bool :=
  match address with
  | 0x04000000 | 0x04000002 | 0x04000008 | 0x0400000A | 0x0400000C | 0x0400000E
  | 0x04000048 | 0x0400004A | 0x04000050 | 0x04000052 => true
  | _ => false
  end.

(* @ ppu_timing.cpp:92-97 PpuTiming::reset *)
Definition reset : PpuTiming := mkPpuTiming 0 0 0 (replicate 0x2B 0).

(* @ ppu_timing.cpp:99-101 PpuTiming::write_dispstat *)
Definition write_dispstat (value : Z) (p : PpuTiming) : PpuTiming :=
  p <| dispstat_control_ := u16 (Z.land value kWritableDispstatMask) |>.

(* @ ppu_timing.cpp:225-227 PpuTiming::vcount_setting *)
Definition vcount_setting (p : PpuTiming) : Z :=
  u8 (Z.land (Z.shiftr (dispstat_control_ p) 8) 0xFF).

(* @ ppu_timing.cpp:229-231 PpuTiming::vblank *)
Definition vblank (p : PpuTiming) : bool :=
  (kVisibleLines <=? line_ p) && (line_ p <? kTotalLines - 1).

(* @ ppu_timing.cpp:233-235 PpuTiming::hblank *)
Definition hblank (p : PpuTiming) : bool := kHblankFlagCycles <=? line_cycle_ p.

(* @ ppu_timing.cpp:237-239 PpuTiming::vcount_match *)
Definition vcount_match (p : PpuTiming) : bool := line_ p =? vcount_setting p.

(* @ ppu_timing.cpp:241-243 PpuTiming::vblank_irq_enabled *)
Definition vblank_irq_enabled (p : PpuTiming) : bool := has (dispstat_control_ p) kVblankIrqEnable.
(* @ ppu_timing.cpp:245-247 PpuTiming::hblank_irq_enabled *)
Definition hblank_irq_enabled (p : PpuTiming) : bool := has (dispstat_control_ p) kHblankIrqEnable.
(* @ ppu_timing.cpp:249-251 PpuTiming::vcount_irq_enabled *)
Definition vcount_irq_enabled (p : PpuTiming) : bool := has (dispstat_control_ p) kVcountIrqEnable.

(* @ ppu_timing.cpp:106-110 PpuTiming::recheck_vcount_match *)
Definition recheck_vcount_match (new_dispstat : Z) (p : PpuTiming) : bool * PpuTiming :=
  let was_matching := vcount_match p in
  let p := write_dispstat new_dispstat p in
  (negb was_matching && vcount_match p, p).

(* @ ppu_timing.cpp:112-118 PpuTiming::read_lcd_control *)
Definition read_lcd_control (address : Z) (p : PpuTiming) : exc (option Z) :=
  if negb (is_lcd_control_address address) || negb (is_lcd_control_readable address)
  then Ret None
  else
    v ← array_at (lcd_control_ p) (lcd_control_index address);
    Ret (Some (u16 (Z.land v (lcd_control_read_mask address)))).

(* @ ppu_timing.cpp:120-127 PpuTiming::write_lcd_control *)
Definition write_lcd_control (address value : Z) (p : PpuTiming) : exc (bool * PpuTiming) :=
  if negb (is_lcd_control_address address) then Ret (false, p)
  else
    regs ← array_put (lcd_control_ p) (lcd_control_index address)
             (u16 (Z.land value (lcd_control_read_mask address)));
    Ret (true, p <| lcd_control_ := regs |>).

(** [lcd_control_.at(lcd_control_index(address))]. *)
(* @ ppu_timing.cpp:131-131 PpuTiming::render_control *)
Definition lcd_register (p : PpuTiming) (address : Z) : exc Z :=
  array_at (lcd_control_ p) (lcd_control_index address).

(** The registers of the four backgrounds, at [base + stride * index]. *)
(* @ ppu_timing.cpp:132-139 PpuTiming::render_control *)
Definition lcd_bank (p : PpuTiming) (base stride : Z) : exc (list Z) :=
  a ← lcd_register p base;
  b ← lcd_register p (base + stride);
  c ← lcd_register p (base + stride * 2);
  d ← lcd_register p (base + stride * 3);
  Ret [a; b; c; d].

(** An affine parameter: zero for BG0 and BG1, the register at [offset] of the
    block at 0x04000020 for BG2 and at 0x04000030 for BG3. *)
(* @ ppu_timing.cpp:140-151 PpuTiming::render_control *)
Definition affine_bank (p : PpuTiming) (offset : Z) : exc (list Z) :=
  c ← lcd_register p (0x04000020 + offset);
  d ← lcd_register p (0x04000030 + offset);
  Ret [0; 0; c; d].

(* @ ppu_timing.cpp:152-163 PpuTiming::render_control *)
Definition reference_bank (p : PpuTiming) (offset : Z) : exc (list Z) :=
  low2 ← lcd_register p (0x04000020 + offset);
  high2 ← lcd_register p (0x04000020 + (offset + 2));
  low3 ← lcd_register p (0x04000030 + offset);
  high3 ← lcd_register p (0x04000030 + (offset + 2));
  Ret [0; 0; Z.lor (u32 (Z.shiftl (Z.land high2 0x0FFF) 16)) low2;
       Z.lor (u32 (Z.shiftl (Z.land high3 0x0FFF) 16)) low3].

(* @ ppu_timing.cpp:129-177 PpuTiming::render_control *)
Definition render_control (p : PpuTiming) : exc PpuRenderControl :=
  dispcnt ← lcd_register p 0x04000000;
  bg_control ← lcd_bank p 0x04000008 2;
  bg_scroll_x ← lcd_bank p 0x04000010 4;
  bg_scroll_y ← lcd_bank p 0x04000012 4;
  pa ← affine_bank p 0;
  pb ← affine_bank p 2;
  pc ← affine_bank p 4;
  pd ← affine_bank p 6;
  reference_x ← reference_bank p 0x8;
  reference_y ← reference_bank p 0xC;
  win0h ← lcd_register p 0x04000040;
  win0v ← lcd_register p 0x04000044;
  win1h ← lcd_register p 0x04000042;
  win1v ← lcd_register p 0x04000046;
  winin ← lcd_register p 0x04000048;
  winout ← lcd_register p 0x0400004A;
  bldcnt ← lcd_register p 0x04000050;
  bldalpha ← lcd_register p 0x04000052;
  bldy ← lcd_register p 0x04000054;
  mosaic ← lcd_register p 0x0400004C;
  Ret (mkPpuRenderControl dispcnt bg_control bg_scroll_x bg_scroll_y win0h win0v win1h win1v
         winin winout bldcnt bldalpha bldy pa pb pc pd reference_x reference_y mosaic).

(** ** The tick *)

(** The timing state, the interrupt controller and the events a tick
    threads. *)
Definition TickState : Type := PpuTiming * InterruptController * PpuTickEvents.

(* @ ppu_timing.cpp:291-302 PpuTiming::enter_hblank *)
Definition enter_hblank (st : TickState) : TickState :=
  let '(p, ic, events) := st in
  let events :=
    if line_ p <? kVisibleLines
    then events <| hblank_entries ::= fun n => u16 (n + 1) |> else events in
  let ic := if hblank_irq_enabled p then request InterruptSource.hblank ic else ic in
  (p, ic, events).

(* @ ppu_timing.cpp:304-323 PpuTiming::enter_next_line *)
Definition enter_next_line (st : TickState) : TickState :=
  let '(p, ic, events) := st in
  let p := p <| line_cycle_ := 0 |> <| line_ ::= fun l => u16 (l + 1) |> in
  let p := if line_ p =? kTotalLines then p <| line_ := 0 |> else p in
  let ic :=
    if (line_ p =? kVisibleLines) && vblank_irq_enabled p
    then request InterruptSource.vblank ic else ic in
  let events :=
    if line_ p =? kVisibleLines
    then events <| vblank_entries ::= fun n => u16 (n + 1) |> else events in
  let ic :=
    if vcount_match p && vcount_irq_enabled p
    then request InterruptSource.vcount ic else ic in
  let events :=
    if vcount_match p
    then events <| vcount_matches ::= fun n => u16 (n + 1) |> else events in
  (p, ic, events).

(** The events at the cycle the line has reached. *)
(* @ ppu_timing.cpp:189-194 PpuTiming::tick *)
Definition line_events (st : TickState) : TickState :=
  let st := if line_cycle_ st.1.1 =? kHblankFlagCycles then enter_hblank st else st in
  if line_cycle_ st.1.1 =? kCyclesPerLine then enter_next_line st else st.

(* @ ppu_timing.cpp:181-195 PpuTiming::tick (the loop) *)
Fixpoint tick_loop (fuel : nat) (cycles : Z) (st : TickState) : option TickState :=
  if 0 <? cycles then
    match fuel with
    | O => None
    | S fuel' =>
        let '(p, ic, events) := st in
        let next_event_cycle :=
          if line_cycle_ p <? kHblankFlagCycles then kHblankFlagCycles else kCyclesPerLine in
        let cycles_to_event := u32 (next_event_cycle - line_cycle_ p) in
        let step := Z.min cycles cycles_to_event in
        let p := p <| line_cycle_ ::= fun c => u16 (c + step) |> in
        tick_loop fuel' (u32 (cycles - step)) (line_events (p, ic, events))
    end
  else Some st.

(* @ ppu_timing.cpp:179-197 PpuTiming::tick *)
Definition tick (cycles : Z) (ic : InterruptController) (p : PpuTiming) : option TickState :=
  tick_loop (S (Z.to_nat cycles)) cycles (p, ic, mkPpuTickEvents 0 0 0).

(** ** Status *)

(* @ ppu_timing.cpp:199-211 PpuTiming::dispstat *)
Definition dispstat (p : PpuTiming) : Z :=
  let value := dispstat_control_ p in
  let value := if vblank p then u16 (Z.lor value kVblankFlag) else value in
  let value := if hblank p then u16 (Z.lor value kHblankFlag) else value in
  if vcount_match p then u16 (Z.lor value kVcountFlag) else value.

(* @ ppu_timing.cpp:213-215 PpuTiming::vcount *)
Definition vcount (p : PpuTiming) : Z := line_ p.

(* @ ppu_timing.cpp:217-219 PpuTiming::line_cycle *)
Definition line_cycle (p : PpuTiming) : Z := line_cycle_ p.

(* @ ppu_timing.cpp:221-223 PpuTiming::frame_cycle *)
Definition frame_cycle (p : PpuTiming) : Z :=
  u32 (u32 (line_ p * kCyclesPerLine) + line_cycle_ p).

(* @ ppu_timing.cpp:253-261 PpuTiming::phase *)
Definition phase (p : PpuTiming) : PpuPhase.t :=
  if vblank p then PpuPhase.vblank
  else if kVisibleCycles <=? line_cycle_ p then PpuPhase.hblank
  else PpuPhase.visible.

(* @ ppu_timing.cpp:263-272 PpuTiming::state_hash *)
Definition state_hash (p : PpuTiming) : Z :=
  fold_left (fun h v => add_u16 v h) (lcd_control_ p)
    (add_u16 (dispstat_control_ p) (add_u16 (line_cycle_ p) (add_u16 (line_ p) kOffsetBasis))).

(* @ ppu_timing.cpp:274-281 PpuTiming::save_state *)
Definition save_state (p : PpuTiming) : State :=
  mkState (line_ p) (line_cycle_ p) (dispstat_control_ p) (lcd_control_ p).

(* @ ppu_timing.cpp:283-289 PpuTiming::load_state *)
Definition load_state (state : State) (p : PpuTiming) : bool * PpuTiming :=
  (true, mkPpuTiming (s_line state) (s_line_cycle state) (s_dispstat_control state)
           (s_lcd_control state)).
