(* ===== verification/PpuTimingSpec.v ===== *)
(** * Properties of PPU timing

    The batched [tick] against the cycle-by-cycle reference, the frame
    position it keeps, the events of a whole frame, and the LCD registers. *)

From S2P Require Import Prelude StateHash Interrupts PpuTiming.

Definition wf (p : PpuTiming) : Prop :=
  0 <= line_ p < kTotalLines /\ 0 <= line_cycle_ p < kCyclesPerLine.

(** ** The reference: one cycle at a time *)

Definition tick_cycle (st : TickState) : TickState :=
  let '(p, ic, events) := st in
  line_events (p <| line_cycle_ := line_cycle_ p + 1 |>, ic, events).

Fixpoint tick_cycles (n : nat) (st : TickState) : TickState :=
  match n with
  | O => st
  | S n' => tick_cycles n' (tick_cycle st)
  end.

Lemma tick_cycles_add n m st : tick_cycles (n + m) st = tick_cycles m (tick_cycles n st).
Proof. revert st. induction n; intros; simpl; [done|apply IHn]. Qed.

(** [advance k p]: [k] cycles further on the same line. *)
Definition advance (k : Z) (p : PpuTiming) : PpuTiming :=
  p <| line_cycle_ := line_cycle_ p + k |>.

Lemma advance_advance j k p : advance j (advance k p) = advance (k + j) p.
Proof. unfold advance, set_field; simpl. f_equal. lia. Qed.

Lemma advance_0 p : advance 0 p = p.
Proof. destruct p. unfold advance, set_field; simpl. f_equal. lia. Qed.

Lemma line_events_none p ic ev :
  line_cycle_ p <> kHblankFlagCycles -> line_cycle_ p <> kCyclesPerLine ->
  line_events (p, ic, ev) = (p, ic, ev).
Proof.
  intros H1 H2. unfold line_events. simpl.
  destruct (Z.eqb_spec (line_cycle_ p) kHblankFlagCycles); [done|]. simpl.
  by destruct (Z.eqb_spec (line_cycle_ p) kCyclesPerLine).
Qed.

Lemma line_events_hblank p ic ev :
  line_cycle_ p = kHblankFlagCycles -> line_events (p, ic, ev) = enter_hblank (p, ic, ev).
Proof. intros E. unfold line_events. cbn [fst]. rewrite E. simpl. by rewrite E. Qed.

Lemma line_events_end p ic ev :
  line_cycle_ p = kCyclesPerLine -> line_events (p, ic, ev) = enter_next_line (p, ic, ev).
Proof. intros E. unfold line_events. cbn [fst]. rewrite E. cbn [Z.eqb]. simpl. by rewrite E. Qed.

(** The cycles up to the next event change the position only. *)
Lemma tick_cycles_quiet (k : nat) p ic ev :
  (forall i, 0 < i <= Z.of_nat k ->
     line_cycle_ p + i <> kHblankFlagCycles /\ line_cycle_ p + i <> kCyclesPerLine) ->
  tick_cycles k (p, ic, ev) = (advance (Z.of_nat k) p, ic, ev).
Proof.
  revert p. induction k as [|k IH]; intros p H; [by rewrite advance_0|].
  cbn [tick_cycles tick_cycle]. fold (advance 1 p).
  rewrite line_events_none by (apply (H 1); lia).
  rewrite IH; [by rewrite advance_advance; do 3 f_equal; lia|].
  intros i Hi. simpl. rewrite <- Z.add_assoc. apply (H (1 + i)). lia.
Qed.

Ltac line_consts := unfold wf, kHblankFlagCycles, kCyclesPerLine, kTotalLines, kVisibleCycles,
  kHblankCycles, kVisibleLines, kVblankLines in *.

(** A step of the loop is that many cycles. *)
Lemma tick_cycles_step (n : nat) p ic ev :
  wf p ->
  let next := if line_cycle_ p <? kHblankFlagCycles then kHblankFlagCycles else kCyclesPerLine in
  0 < Z.of_nat n <= next - line_cycle_ p ->
  tick_cycles n (p, ic, ev) = line_events (advance (Z.of_nat n) p, ic, ev).
Proof.
  intros Hwf next Hn. destruct n as [|n]; [lia|].
  replace (S n) with (n + 1)%nat at 1 by lia.
  rewrite tick_cycles_add, tick_cycles_quiet.
  - cbn [tick_cycles tick_cycle].
    change (_ <| line_cycle_ := _ |>) with (advance 1 (advance (Z.of_nat n) p)).
    rewrite advance_advance. do 4 f_equal. lia.
  - intros i Hi. subst next. line_consts. destruct (Z.ltb_spec (line_cycle_ p) 1004); lia.
Qed.

(** ** The invariant *)

Definition p_of (st : TickState) : PpuTiming := st.1.1.
Definition events_of (st : TickState) : PpuTickEvents := st.2.

(** The position in the frame. *)
Definition position (p : PpuTiming) : Z := line_ p * kCyclesPerLine + line_cycle_ p.

Lemma line_events_at p ic ev :
  0 <= line_ p < kTotalLines -> 0 <= line_cycle_ p <= kCyclesPerLine ->
  let st' := line_events (p, ic, ev) in
  wf (p_of st') /\
  position (p_of st') = (if decide (position p = kCyclesPerFrame) then 0 else position p) /\
  dispstat_control_ (p_of st') = dispstat_control_ p /\
  lcd_control_ (p_of st') = lcd_control_ p.
Proof.
  intros Hl Hc. unfold line_events. cbn [fst].
  set (st1 := if line_cycle_ p =? kHblankFlagCycles then _ else _).
  assert (H1 : st1.1.1 = p) by (subst st1; by case_match).
  rewrite H1. destruct st1 as [[p1 ic1] ev1]. simpl in H1. subst p1.
  unfold position, kCyclesPerFrame. line_consts. change (960 + 272) with 1232 in *.
  change (160 + 68) with 228 in *.
  destruct (Z.eqb_spec (line_cycle_ p) 1232) as [E|E].
  - unfold enter_next_line, p_of; simpl. rewrite (wrap_id 16) by (unfold fits; lia).
    unfold kTotalLines, kVisibleLines, kVblankLines. change (160 + 68) with 228.
    destruct (Z.eqb_spec (line_ p + 1) 228) as [E'|E']; simpl;
      rewrite ?(wrap_id 16) by (unfold fits; lia);
      case_decide; split_and!; done || lia.
  - unfold p_of; simpl. rewrite decide_False by lia. split_and!; done || lia.
Qed.

Lemma position_bound p : wf p -> 0 <= position p < kCyclesPerFrame.
Proof. unfold position, kCyclesPerFrame. line_consts. nia. Qed.

Lemma position_mod p :
  wf p -> (position p + 1) mod kCyclesPerFrame =
          (if decide (position p + 1 = kCyclesPerFrame) then 0 else position p + 1).
Proof.
  intros H%position_bound. case_decide as E; [by rewrite E|]. apply Z.mod_small. lia.
Qed.

(** What a single cycle does to the position. *)
Lemma tick_cycle_position st :
  wf (p_of st) ->
  let st' := tick_cycle st in
  wf (p_of st') /\ position (p_of st') = (position (p_of st) + 1) mod kCyclesPerFrame /\
  dispstat_control_ (p_of st') = dispstat_control_ (p_of st) /\
  lcd_control_ (p_of st') = lcd_control_ (p_of st).
Proof.
  destruct st as [[p ic] ev]. unfold p_of; cbn [fst]. intros Hwf. cbn [tick_cycle].
  rewrite position_mod by done.
  destruct (line_events_at (p <| line_cycle_ := line_cycle_ p + 1 |>) ic ev) as (H1 & H2 & H3 & H4);
    [apply Hwf|destruct Hwf; simpl; lia|].
  split; [exact H1|]. split; [|by split].
  etrans; [exact H2|]. unfold position; simpl.
  replace (line_ p * kCyclesPerLine + (line_cycle_ p + 1))
    with (line_ p * kCyclesPerLine + line_cycle_ p + 1) by lia. done.
Qed.

(** ** The loop *)

Lemma tick_loop_reference fuel cycles p ic ev :
  wf p -> fits 32 cycles -> cycles < Z.of_nat fuel ->
  tick_loop fuel cycles (p, ic, ev) = Some (tick_cycles (Z.to_nat cycles) (p, ic, ev)).
Proof.
  revert cycles p ic ev. induction fuel as [|fuel IH]; intros cycles p ic ev Hwf Hc Hf;
    [unfold fits in *; lia|].
  cbn [tick_loop]. destruct (Z.ltb_spec 0 cycles); [|assert (cycles = 0) as -> by (unfold fits in *; lia); done].
  set (next := if _ <? _ then _ else _).
  assert (Hn : 1 <= next - line_cycle_ p <= 1232)
    by (subst next; line_consts; destruct (Z.ltb_spec (line_cycle_ p) 1004); lia).
  rewrite (wrap_id 32 (next - _)) by (unfold fits; lia).
  set (step := Z.min cycles (next - line_cycle_ p)).
  assert (Hs : 1 <= step <= cycles /\ step <= next - line_cycle_ p) by (subst step; lia).
  assert (Hp : p <| line_cycle_ ::= fun c => u16 (c + step) |> = advance (Z.of_nat (Z.to_nat step)) p).
  { unfold advance, set_field; simpl. f_equal. rewrite Z2Nat.id by lia.
    apply wrap_id. unfold fits. line_consts. lia. }
  rewrite Hp, <- tick_cycles_step by (done || fold next; lia).
  rewrite (wrap_id 32) by (unfold fits in *; lia).
  replace (Z.to_nat cycles) with (Z.to_nat step + Z.to_nat (cycles - step))%nat by lia.
  rewrite tick_cycles_add.
  assert (Hwf' : wf (p_of (tick_cycles (Z.to_nat step) (p, ic, ev)))).
  { clear -Hwf. generalize (Z.to_nat step). intros n.
    assert (H : wf (p_of (p, ic, ev))) by done. revert H. generalize (p, ic, ev).
    induction n; intros st H; [done|]. simpl. apply IHn, tick_cycle_position, H. }
  destruct (tick_cycles (Z.to_nat step) (p, ic, ev)) as [[p1 ic1] ev1].
  apply IH; [done|unfold fits in *; lia|lia].
Qed.

(** C31: the batched [tick] returns and is the cycle-by-cycle clock: from a
    position inside the frame, ticking [cycles] at once leaves the same
    timing state, raises the same interrupts in the same order and counts
    the same events as advancing the line one cycle at a time and handling
    the events of every cycle. *)
Theorem tick_cycle_by_cycle (cycles : Z) (ic : InterruptController) (p : PpuTiming) :
  wf p -> fits 32 cycles ->
  tick cycles ic p = Some (tick_cycles (Z.to_nat cycles) (p, ic, mkPpuTickEvents 0 0 0)).
Proof. intros Hwf Hc. apply tick_loop_reference; [done|done|unfold fits in *; lia]. Qed.

Lemma tick_cycle_by_cycle_witness :
  tick 2000 Interrupts.reset reset =
  Some (tick_cycles (Z.to_nat 2000) (reset, Interrupts.reset, mkPpuTickEvents 0 0 0)).
Proof. apply tick_cycle_by_cycle; repeat split; reflexivity || discriminate. Defined.

(** ** The events of a frame *)

(** [hits f n q]: the sum of [f] over the [n] positions after [q]. *)
Fixpoint hits (f : Z -> Z) (n : nat) (q : Z) : Z :=
  match n with
  | O => 0
  | S n' => let q' := (q + 1) mod kCyclesPerFrame in f q' + hits f n' q'
  end.

Lemma frame_pos : 0 < kCyclesPerFrame.
Proof. reflexivity. Qed.

Lemma hits_next f n q :
  hits f (S n) q = hits f n q + f ((q + Z.of_nat (S n)) mod kCyclesPerFrame).
Proof.
  revert q. induction n as [|n IH]; intros q; [cbn [hits]; change (Z.of_nat 1) with 1; lia|].
  change (f ((q + 1) mod kCyclesPerFrame) + hits f (S n) ((q + 1) mod kCyclesPerFrame) =
    f ((q + 1) mod kCyclesPerFrame) + hits f n ((q + 1) mod kCyclesPerFrame) +
    f ((q + Z.of_nat (S (S n))) mod kCyclesPerFrame)).
  rewrite IH, Zplus_mod_idemp_l.
  replace (q + 1 + Z.of_nat (S n)) with (q + Z.of_nat (S (S n))) by lia. lia.
Qed.

Lemma hits_rotate f n q :
  Z.of_nat n = kCyclesPerFrame ->
  hits f n ((q + 1) mod kCyclesPerFrame) = hits f n q.
Proof.
  intros Hn. pose proof (hits_next f n q) as H. cbn [hits] in H.
  replace ((q + Z.of_nat (S n)) mod kCyclesPerFrame) with ((q + 1) mod kCyclesPerFrame) in H; [lia|].
  replace (q + Z.of_nat (S n)) with (q + 1 + 1 * kCyclesPerFrame) by lia.
  by rewrite Z_mod_plus_full.
Qed.

(** Over a whole frame the start does not matter. *)
Lemma hits_frame f n q :
  Z.of_nat n = kCyclesPerFrame -> 0 <= q < kCyclesPerFrame -> hits f n q = hits f n 0.
Proof.
  intros Hn Hq. rewrite <- (Z2Nat.id q) by lia. rewrite <- (Z2Nat.id q) in Hq by lia.
  revert Hq. induction (Z.to_nat q) as [|k IH]; intros Hq; [done|].
  rewrite <- IH by lia. rewrite <- (hits_rotate f n (Z.of_nat k)) by done.
  rewrite Z.mod_small by lia. f_equal. lia.
Qed.

Lemma hits_zero f n q :
  (forall i, 0 < i <= Z.of_nat n -> f ((q + i) mod kCyclesPerFrame) = 0) -> hits f n q = 0.
Proof.
  induction n as [|n IH]; intros H; [done|]. rewrite hits_next, (H (Z.of_nat (S n))) by lia.
  rewrite IH; [done|]. intros i Hi. apply H. lia.
Qed.

Definition at_position (a q : Z) : Z := z_of_bool (q =? a).

(** A position is hit once per frame. *)
Lemma hits_position n a q :
  Z.of_nat n = kCyclesPerFrame -> 0 <= q < kCyclesPerFrame ->
  hits (at_position a) n q = z_of_bool ((0 <=? a) && (a <? kCyclesPerFrame)).
Proof.
  intros Hn Hq. pose proof frame_pos as Hp. rewrite hits_frame by done.
  destruct (Z.leb_spec 0 a), (Z.ltb_spec a kCyclesPerFrame); simpl; cycle 1.
  1-3: apply hits_zero; intros i _; unfold at_position;
    pose proof (Z.mod_pos_bound (0 + i) kCyclesPerFrame Hp);
    destruct (Z.eqb_spec ((0 + i) mod kCyclesPerFrame) a); simpl; lia.
  rewrite <- (hits_frame _ n a) by (done || lia).
  destruct n as [|n]; [lia|]. rewrite hits_next, hits_zero.
  - rewrite Hn. unfold at_position. replace (a + kCyclesPerFrame) with (a + 1 * kCyclesPerFrame) by lia.
    rewrite Z_mod_plus_full, Z.mod_small by lia. by rewrite Z.eqb_refl.
  - intros i Hi. unfold at_position.
    destruct (Z.eqb_spec ((a + i) mod kCyclesPerFrame) a) as [E|]; [exfalso|done].
    destruct (Z.lt_ge_cases (a + i) kCyclesPerFrame).
    + rewrite Z.mod_small in E by lia. lia.
    + rewrite <- (Z_mod_plus_full (a + i) (-1)) in E.
      rewrite Z.mod_small in E by lia. lia.
Qed.

Lemma hits_plus f g n q : hits (fun q => f q + g q) n q = hits f n q + hits g n q.
Proof. revert q. induction n as [|n IH]; intros q; simpl; [done|]. rewrite IH. lia. Qed.

Lemma hits_ext f g n q :
  (forall q, 0 <= q < kCyclesPerFrame -> f q = g q) -> hits f n q = hits g n q.
Proof.
  intros H. revert q. induction n as [|n IH]; intros q; simpl; [done|].
  rewrite IH, H; [done|]. apply Z.mod_pos_bound, frame_pos.
Qed.

(** The HBlank positions of the first [n] lines. *)
Fixpoint hblank_positions (n : nat) (q : Z) : Z :=
  match n with
  | O => 0
  | S n' => hblank_positions n' q + at_position (Z.of_nat n' * kCyclesPerLine + kHblankFlagCycles) q
  end.

Lemma hits_hblank_positions k n q :
  Z.of_nat n = kCyclesPerFrame -> 0 <= q < kCyclesPerFrame -> Z.of_nat k <= kVisibleLines ->
  hits (hblank_positions k) n q = Z.of_nat k.
Proof.
  intros Hn Hq. induction k as [|k IH]; intros Hk.
  - apply hits_zero. done.
  - cbn [hblank_positions]. rewrite hits_plus, IH, hits_position by (done || lia).
    assert (0 <= Z.of_nat k * kCyclesPerLine + kHblankFlagCycles < kCyclesPerFrame)
      by (unfold kCyclesPerFrame; line_consts; lia).
    destruct (Z.leb_spec 0 (Z.of_nat k * kCyclesPerLine + kHblankFlagCycles)),
      (Z.ltb_spec (Z.of_nat k * kCyclesPerLine + kHblankFlagCycles) kCyclesPerFrame); simpl; lia.
Qed.

Lemma hblank_positions_spec k line cycle :
  0 <= cycle < kCyclesPerLine -> 0 <= line ->
  hblank_positions k (line * kCyclesPerLine + cycle) =
  z_of_bool ((cycle =? kHblankFlagCycles) && (line <? Z.of_nat k)).
Proof.
  intros Hc Hl. induction k as [|k IH]; cbn [hblank_positions].
  - change (Z.of_nat 0) with 0. destruct (Z.ltb_spec line 0); [lia|]. by rewrite andb_false_r.
  - rewrite IH. unfold at_position. line_consts. zcmp; simpl; nia.
Qed.

(** The events at a position, for the VCOUNT setting [s]. *)
Definition hblank_at : Z -> Z := hblank_positions 160.
Definition vblank_at : Z -> Z := at_position (kVisibleLines * kCyclesPerLine).
Definition vcount_at (s : Z) : Z -> Z := at_position (s * kCyclesPerLine).

Lemma at_line_start a line cycle :
  0 <= cycle < kCyclesPerLine ->
  at_position (a * kCyclesPerLine) (line * kCyclesPerLine + cycle) =
  z_of_bool ((cycle =? 0) && (line =? a)).
Proof. intros H. unfold at_position. line_consts. zcmp; simpl; try lia; exfalso; nia. Qed.

Lemma line_events_count p ic h v m :
  0 <= line_ p < kTotalLines -> 0 < line_cycle_ p <= kCyclesPerLine ->
  let st' := line_events (p, ic, mkPpuTickEvents (u16 h) (u16 v) (u16 m)) in
  let q := position (p_of st') in
  events_of st' =
    mkPpuTickEvents (u16 (h + hblank_at q)) (u16 (v + vblank_at q))
      (u16 (m + vcount_at (vcount_setting p) q)).
Proof.
  intros Hl Hc.
  destruct (Z.eqb_spec (line_cycle_ p) kHblankFlagCycles) as [E|E].
  - rewrite line_events_hblank by done. unfold enter_hblank.
    unfold p_of, events_of, position. cbn [fst snd]. rewrite E.
    unfold hblank_at, vblank_at, vcount_at.
    rewrite hblank_positions_spec, !at_line_start by (line_consts; lia).
    change (kHblankFlagCycles =? 0) with false. cbn [andb]. rewrite Z.eqb_refl.
    change (Z.of_nat 160) with kVisibleLines. cbn [z_of_bool andb]. rewrite !Z.add_0_r.
    destruct (line_ p <? kVisibleLines); unfold set_field; simpl;
      [by rewrite wrap_add_l|by rewrite Z.add_0_r].
  - destruct (Z.eqb_spec (line_cycle_ p) kCyclesPerLine) as [E'|E'].
    + rewrite line_events_end by done. unfold enter_next_line. cbn zeta.
      set (p1 := if _ =? kTotalLines then _ else _).
      assert (Hc1 : line_cycle_ p1 = 0) by (subst p1; by case_match).
      assert (Hs1 : vcount_setting p1 = vcount_setting p) by (subst p1; by case_match).
      assert (Hl1 : 0 <= line_ p1).
      { subst p1. case_match; simpl; [lia|]. apply (wrap_fits 16). lia. }
      clearbody p1. unfold vcount_match. rewrite Hs1.
      unfold p_of, events_of, position. cbn [fst snd]. rewrite Hc1.
      unfold hblank_at, vblank_at, vcount_at.
      rewrite hblank_positions_spec, !at_line_start by (line_consts; lia).
      change (0 =? kHblankFlagCycles) with false. change (0 =? 0) with true. cbn [andb].
      destruct (line_ p1 =? kVisibleLines), (line_ p1 =? vcount_setting p);
        cbn [z_of_bool andb]; unfold set_field; simpl; by rewrite ?wrap_add_l, ?Z.add_0_r.
    + rewrite line_events_none by done. unfold p_of, events_of, position. cbn [fst snd].
      unfold hblank_at, vblank_at, vcount_at.
      rewrite hblank_positions_spec, !at_line_start by lia.
      destruct (Z.eqb_spec (line_cycle_ p) kHblankFlagCycles); [done|].
      destruct (Z.eqb_spec (line_cycle_ p) 0); [lia|]. cbn [andb z_of_bool].
      by rewrite !Z.add_0_r.
Qed.

Lemma tick_cycles_count n st h v m :
  wf (p_of st) -> events_of st = mkPpuTickEvents (u16 h) (u16 v) (u16 m) ->
  let st' := tick_cycles n st in
  let q := position (p_of st) in
  wf (p_of st') /\
  position (p_of st') = (q + Z.of_nat n) mod kCyclesPerFrame /\
  dispstat_control_ (p_of st') = dispstat_control_ (p_of st) /\
  events_of st' =
    mkPpuTickEvents (u16 (h + hits hblank_at n q)) (u16 (v + hits vblank_at n q))
      (u16 (m + hits (vcount_at (vcount_setting (p_of st))) n q)).
Proof.
  revert st h v m. induction n as [|n IH]; intros st h v m Hwf He.
  - cbn [tick_cycles hits]. rewrite !Z.add_0_r. change (Z.of_nat 0) with 0.
    rewrite ?Z.add_0_r, Z.mod_small by (by apply position_bound). done.
  - cbn [tick_cycles]. destruct (tick_cycle_position st Hwf) as (Hwf' & Hq & Hd & _).
    assert (Hs : vcount_setting (p_of (tick_cycle st)) = vcount_setting (p_of st))
      by (unfold vcount_setting; by rewrite Hd).
    assert (He' : events_of (tick_cycle st) =
      mkPpuTickEvents (u16 (h + hblank_at (position (p_of (tick_cycle st)))))
        (u16 (v + vblank_at (position (p_of (tick_cycle st)))))
        (u16 (m + vcount_at (vcount_setting (p_of st)) (position (p_of (tick_cycle st)))))).
    { destruct st as [[p ic] ev]. unfold events_of in He. cbn [snd] in He. subst ev.
      change (p_of (p, ic, _)) with p in *. cbn [tick_cycle].
      rewrite (line_events_count (p <| line_cycle_ := line_cycle_ p + 1 |>) ic h v m);
        [done|destruct Hwf; simpl; lia..]. }
    destruct (IH _ _ _ _ Hwf' He') as (H1 & H2 & H3 & H4).
    split; [exact H1|]. split; [|split; [congruence|]].
    + rewrite H2, Hq, Zplus_mod_idemp_l. f_equal. lia.
    + rewrite H4, Hs, Hq. cbn [hits]. by rewrite !Z.add_assoc.
Qed.

(** C39: a frame of cycles returns to the same position with exactly one
    VBlank entry, one HBlank entry per visible line, and one VCOUNT match
    when the setting is a line of the frame (none when it is not), wherever
    in the frame it starts. *)
Theorem one_frame_events (ic : InterruptController) (p : PpuTiming) :
  wf p ->
  exists p' ic', tick kCyclesPerFrame ic p =
    Some (p', ic', mkPpuTickEvents kVisibleLines 1
                     (if vcount_setting p <? kTotalLines then 1 else 0)) /\
  line_ p' = line_ p /\ line_cycle_ p' = line_cycle_ p.
Proof.
  intros Hwf. unfold tick. rewrite tick_loop_reference; [|done|by vm_compute|lia].
  pose proof (tick_cycles_count (Z.to_nat kCyclesPerFrame) (p, ic, mkPpuTickEvents 0 0 0) 0 0 0
    Hwf eq_refl) as H.
  destruct (tick_cycles _ _) as [[p' ic'] ev']. unfold p_of, events_of in H. cbn [fst snd] in H.
  destruct H as (Hwf' & Hq & Hd & ->). exists p', ic'.
  pose proof (position_bound p Hwf) as Hb.
  assert (Hn : Z.of_nat (Z.to_nat kCyclesPerFrame) = kCyclesPerFrame) by (rewrite Z2Nat.id; done).
  rewrite Hn in Hq. replace (position p + kCyclesPerFrame) with (position p + 1 * kCyclesPerFrame) in Hq by lia.
  rewrite Z_mod_plus_full, Z.mod_small in Hq by done.
  split.
  - unfold hblank_at, vblank_at, vcount_at.
    rewrite hits_hblank_positions, !hits_position by done.
    do 3 f_equal. assert (0 <= vcount_setting p) by (apply (wrap_fits 8); lia).
    unfold kCyclesPerFrame. line_consts. zcmp; simpl; done || lia.
  - unfold position in Hq. line_consts. split; nia.
Qed.

Lemma one_frame_events_witness :
  exists p' ic', tick kCyclesPerFrame Interrupts.reset reset =
    Some (p', ic', mkPpuTickEvents 160 1 1) /\ line_ p' = 0.
Proof.
  destruct (one_frame_events Interrupts.reset reset) as (p' & ic' & E & Hl & _);
    [repeat split; reflexivity || discriminate|].
  exists p', ic'. split; [exact E|exact Hl].
Defined.

(** ** LCD control registers *)

Definition lcd_ok (p : PpuTiming) : Prop :=
  length (lcd_control_ p) = 0x2B%nat /\ Forall (fits 16) (lcd_control_ p).

Lemma lcd_address_spec address :
  is_lcd_control_address address = true ->
  exists k, address = kLcdControlStart + 2 * Z.of_nat k /\ (k < 0x2B)%nat /\
            lcd_control_index address = k.
Proof.
  unfold is_lcd_control_address, lcd_control_index, kLcdControlStart, kLcdControlEnd.
  destruct (has address 0x1) eqn:Eo; [done|]. cbn [orb].
  destruct (Z.ltb_spec address 0x04000000); [done|].
  destruct (Z.ltb_spec 0x04000054 address); [done|]. intros _.
  change 0x1 with (2 ^ 0) in Eo. rewrite has_bit, Z.bit0_odd in Eo by lia.
  assert (Hev : Z.even address = true) by (by rewrite <- Z.negb_odd, Eo).
  apply Z.even_spec in Hev as [y ->].
  exists (Z.to_nat (y - 0x02000000)).
  split; [lia|]. split; [lia|]. f_equal.
  replace (2 * y - 0x04000000) with ((y - 0x02000000) * 2) by lia. by rewrite Z.div_mul.
Qed.

(** a write of an LCD register is accepted exactly at the halfword
    addresses of the block other than DISPSTAT and VCOUNT; it stores the
    writable bits of the value, which a read of a readable register returns
    and every other address of the block does not see. *)
Theorem lcd_write_read (address value : Z) (p : PpuTiming) :
  lcd_ok p ->
  exists p', write_lcd_control address value p = Ret (is_lcd_control_address address, p') /\
    lcd_ok p' /\ line_ p' = line_ p /\ line_cycle_ p' = line_cycle_ p /\
    dispstat_control_ p' = dispstat_control_ p /\
    read_lcd_control address p' =
      Ret (if is_lcd_control_address address && is_lcd_control_readable address
           then Some (u16 (Z.land value (lcd_control_read_mask address))) else None) /\
    forall other, other <> address -> read_lcd_control other p' = read_lcd_control other p.
Proof.
  intros [Hl Hf]. unfold write_lcd_control, read_lcd_control.
  destruct (is_lcd_control_address address) eqn:Ea; cbn [negb orb andb]; [|by exists p].
  destruct (lcd_address_spec address Ea) as (k & Ek & Hk & ->).
  rewrite array_put_lt by (by rewrite Hl). cbn [mbind exc_bind].
  set (m := lcd_control_read_mask address).
  eexists. split; [done|]. split_and!; try done; simpl.
  - split; simpl; [by rewrite length_insert|]. apply Forall_insert; [done|]. width.
  - destruct (is_lcd_control_readable address); [|done]. simpl.
    rewrite (array_at_Ret _ _ (u16 (Z.land value m))) by (apply list_lookup_insert_eq; by rewrite Hl).
    cbn [mbind exc_bind]. do 2 f_equal.
    assert (Hm : fits 16 m) by (subst m; unfold lcd_control_read_mask; repeat case_match; by vm_compute).
    rewrite (wrap_id 16 (Z.land value m)) by width.
    rewrite <- Z.land_assoc, Z.land_diag. apply wrap_id. width.
  - intros other Hne. destruct (is_lcd_control_address other) eqn:Eo; cbn [negb orb]; [|done].
    destruct (is_lcd_control_readable other); [|done]. cbn [negb orb].
    destruct (lcd_address_spec other Eo) as (k' & Ek' & Hk' & ->).
    unfold array_at. rewrite list_lookup_insert_ne; [done|]. intros ->. apply Hne. lia.
Qed.

Lemma reset_lcd_ok : lcd_ok reset.
Proof. split; [reflexivity|]. apply Forall_replicate. by vm_compute. Qed.

Lemma lcd_write_read_witness :
  exists p', write_lcd_control 0x04000008 0xFFFF reset = Ret (true, p') /\
    read_lcd_control 0x04000008 p' = Ret (Some 0xDFFF).
Proof.
  destruct (lcd_write_read 0x04000008 0xFFFF reset reset_lcd_ok) as (p' & E & _ & _ & _ & _ & R & _).
  exists p'. split; [exact E|exact R].
Defined.

(** The renderer's view of the registers never throws. *)
Lemma lcd_register_returns p address :
  lcd_ok p -> 0 <= address - kLcdControlStart < 0x56 -> returns (lcd_register p address).
Proof.
  intros [Hl _] Ha. unfold lcd_register.
  destruct (array_at_lt (lcd_control_ p) (lcd_control_index address)) as (v & _ & E).
  - rewrite Hl. unfold lcd_control_index. zify. pose proof (Z.div_lt_upper_bound (address - kLcdControlStart) 2 0x2B). lia.
  - by exists v.
Qed.

Ltac each_register Hp :=
  repeat lazymatch goal with
  | |- context [lcd_register ?p ?a] =>
      let v := fresh "v" in let E := fresh "E" in
      destruct (lcd_register_returns p a Hp) as [v E]; [done|rewrite E; cbn [mbind exc_bind]]
  end.

Lemma render_control_returns p : lcd_ok p -> returns (render_control p).
Proof.
  intros Hp. unfold render_control, lcd_bank, affine_bank, reference_bank.
  cbn -[lcd_register Z.add Z.land Z.lor Z.shiftl]. each_register Hp. by eexists.
Qed.
