(* ===== verification/MemoryBus.v ===== *)
(** * The memory bus

    [MemoryBus] of [include/gba/core/memory_bus.hpp] and
    [src/core/memory_bus.cpp]: the RAM arrays, the cartridge ROM and save
    backing with the Flash command protocol, the debug ports, and the byte,
    halfword and word accesses of every region.

    A [std::array] or [std::vector] of bytes is a list; [byte_at] and
    [put_byte] are its accesses.  Their out-of-range cases are unreachable:
    [BusTypes.classify_in_bounds] bounds every offset by the array it
    indexes, and [MemoryBusSpec] bounds the save offsets.

    The IO callbacks are the record [IoCallbacks] over the state [D] of the
    devices behind them; a read inspects [D], a write returns the next [D].
    The bus state and [D] are threaded together ([Bus]). *)

From Stdlib Require Import String Ascii.
From S2P Require Import Prelude StateHash BusTypes.

Module GamePakSaveType.
(* @ memory_bus.hpp:48-55 GamePakSaveType *)
Inductive t : Type := none | sram32k | flash64k | flash128k | eeprom512 | eeprom8k.
#[export] Instance eq_dec : EqDecision t.
Proof. solve_decision. Defined.

(** The enumerators' values. *)
(* @ memory_bus.hpp:48-55 GamePakSaveType *)
Definition index (type : t) : Z :=
  match type with
  | none => 0 | sram32k => 1 | flash64k => 2 | flash128k => 3 | eeprom512 => 4 | eeprom8k => 5
  end.
End GamePakSaveType.
Export (hints) GamePakSaveType.

Module FlashCommandState.
(* @ memory_bus.hpp:57-66 FlashCommandState *)
Inductive t : Type :=
  | idle | unlock1 | unlock2 | program_data
  | erase_unlock1 | erase_unlock2 | erase_command | bank_select.
#[export] Instance eq_dec : EqDecision t.
Proof. solve_decision. Defined.

(* @ memory_bus.hpp:57-66 FlashCommandState *)
Definition index (state : t) : Z :=
  match state with
  | idle => 0 | unlock1 => 1 | unlock2 => 2 | program_data => 3
  | erase_unlock1 => 4 | erase_unlock2 => 5 | erase_command => 6 | bank_select => 7
  end.
End FlashCommandState.
Export (hints) FlashCommandState.

(* @ memory_bus.hpp:121-131 CartridgeHeader *)
Record CartridgeHeader : Type := mkCartridgeHeader {
  title : list Z;
  game_code : list Z;
  maker_code : list Z;
  fixed_value : Z;
  unit_code : Z;
  device_type : Z;
  version : Z;
  complement_check : Z;
  fixed_value_valid : bool
}.

(* @ memory_bus.hpp:133-137 FlashProtocolStatus *)
Record FlashProtocolStatus : Type := mkFlashProtocolStatus {
  fs_id_mode : bool;
  fs_bank : Z;
  fs_command_state : FlashCommandState.t
}.

(** A null function pointer is [None]. *)
(* @ memory_bus.hpp:139-145 MemoryBusIoCallbacks *)
Record IoCallbacks (D : Type) : Type := mkIoCallbacks {
  cb_read16 : option (D -> Z -> option Z);
  cb_read32 : option (D -> Z -> option Z);
  cb_write16 : option (Z -> Z -> D -> bool * D);
  cb_write32 : option (Z -> Z -> D -> bool * D)
}.
Arguments mkIoCallbacks {D}.
Arguments cb_read16 {D}.
Arguments cb_read32 {D}.
Arguments cb_write16 {D}.
Arguments cb_write32 {D}.

(* @ memory_bus.hpp:156-156 MemoryBus::kSram32kSize *)
Definition kSram32kSize : Z := 32 * 1024.
(* @ memory_bus.hpp:157-157 MemoryBus::kFlash64kSize *)
Definition kFlash64kSize : Z := 64 * 1024.
(* @ memory_bus.hpp:158-158 MemoryBus::kFlash128kSize *)
Definition kFlash128kSize : Z := 128 * 1024.
(* @ memory_bus.hpp:159-159 MemoryBus::kEeprom512Size *)
Definition kEeprom512Size : Z := 512.
(* @ memory_bus.hpp:160-160 MemoryBus::kEeprom8kSize *)
Definition kEeprom8kSize : Z := 8 * 1024.

(* @ memory_bus.cpp:28-28 kMgbaDebugEnable *)
Definition kMgbaDebugEnable : Z := 0x04FFF780.
(* @ memory_bus.cpp:29-29 kMgbaDebugEnableMagic *)
Definition kMgbaDebugEnableMagic : Z := 0x1DEA.
(* @ memory_bus.cpp:30-30 kMgbaDebugStringStart *)
Definition kMgbaDebugStringStart : Z := 0x04FFF600.
(* @ memory_bus.cpp:31-31 kMgbaDebugStringEnd *)
Definition kMgbaDebugStringEnd : Z := 0x04FFF6FF.
(* @ memory_bus.cpp:32-32 kMgbaDebugFlags *)
Definition kMgbaDebugFlags : Z := 0x04FFF700.
(* @ memory_bus.cpp:33-33 kNoCashGbaDebugIdStart *)
Definition kNoCashGbaDebugIdStart : Z := 0x04FFFA00.

(** The bytes of a string. *)
Definition bytes_of (s : string) : list Z :=
  map (fun c => Z.of_N (N_of_ascii c)) (list_ascii_of_string s).

(* @ memory_bus.cpp:34-34 kNoCashGbaDebugId *)
Definition kNoCashGbaDebugId : list Z := bytes_of "no$gba ".
(* @ memory_bus.cpp:35-35 kNoCashGbaDebugOut *)
Definition kNoCashGbaDebugOut : Z := 0x04FFFA10.
(* @ memory_bus.cpp:36-36 kNoCashGbaDebugChar *)
Definition kNoCashGbaDebugChar : Z := 0x04FFFA1C.
(* @ memory_bus.cpp:41-42 kCartridgeTitleOffset, kCartridgeTitleSize *)
Definition kCartridgeTitleOffset : nat := 0xA0.
(* @ memory_bus.cpp:42-42 kCartridgeTitleSize *)
Definition kCartridgeTitleSize : nat := 12.
(* @ memory_bus.cpp:43-43 kCartridgeGameCodeOffset *)
Definition kCartridgeGameCodeOffset : nat := 0xAC.
(* @ memory_bus.cpp:44-44 kCartridgeGameCodeSize *)
Definition kCartridgeGameCodeSize : nat := 4.
(* @ memory_bus.cpp:45-45 kCartridgeMakerCodeOffset *)
Definition kCartridgeMakerCodeOffset : nat := 0xB0.
(* @ memory_bus.cpp:46-46 kCartridgeMakerCodeSize *)
Definition kCartridgeMakerCodeSize : nat := 2.
(* @ memory_bus.cpp:47-47 kCartridgeFixedValueOffset *)
Definition kCartridgeFixedValueOffset : nat := 0xB2.
(* @ memory_bus.cpp:48-48 kCartridgeUnitCodeOffset *)
Definition kCartridgeUnitCodeOffset : nat := 0xB3.
(* @ memory_bus.cpp:49-49 kCartridgeDeviceTypeOffset *)
Definition kCartridgeDeviceTypeOffset : nat := 0xB4.
(* @ memory_bus.cpp:50-50 kCartridgeVersionOffset *)
Definition kCartridgeVersionOffset : nat := 0xBC.
(* @ memory_bus.cpp:51-51 kCartridgeComplementCheckOffset *)
Definition kCartridgeComplementCheckOffset : nat := 0xBD.
(* @ memory_bus.cpp:52-52 kMinimumCartridgeHeaderSize *)
Definition kMinimumCartridgeHeaderSize : nat := kCartridgeComplementCheckOffset + 1.
(* @ memory_bus.cpp:53-53 kCartridgeExpectedFixedValue *)
Definition kCartridgeExpectedFixedValue : Z := 0x96.
(* @ memory_bus.cpp:54-54 kFlashUnlockAddress1 *)
Definition kFlashUnlockAddress1 : Z := 0x5555.
(* @ memory_bus.cpp:55-55 kFlashUnlockAddress2 *)
Definition kFlashUnlockAddress2 : Z := 0x2AAA.
(* @ memory_bus.cpp:56-56 kFlashBankSelectAddress *)
Definition kFlashBankSelectAddress : Z := 0x0000.
(* @ memory_bus.cpp:57-57 kFlashBankSize *)
Definition kFlashBankSize : Z := 64 * 1024.
(* @ memory_bus.cpp:58-58 kFlashSectorSize *)
Definition kFlashSectorSize : Z := 4 * 1024.
(* @ memory_bus.cpp:59-59 kFlashManufacturerId *)
Definition kFlashManufacturerId : Z := 0xC2.
(* @ memory_bus.cpp:60-60 kFlash64DeviceId *)
Definition kFlash64DeviceId : Z := 0x1C.
(* @ memory_bus.cpp:61-61 kFlash128DeviceId *)
Definition kFlash128DeviceId : Z := 0x09.
(* @ memory_bus.cpp:62-65 kHleBiosVectorBytes *)
Definition kHleBiosVectorBytes : list Z :=
  [0x04; 0x20; 0xA0; 0xE3; 0x01; 0x02; 0x03; 0x04;
   0x05; 0x20; 0xA0; 0xE3; 0x07; 0x20; 0xA0; 0xE3].

(** ** Bytes and words *)

Definition byte_at (l : list Z) (i : Z) : Z := default 0 (l !! Z.to_nat i).

Definition put_byte (i : Z) (v : Z) (l : list Z) : list Z := <[Z.to_nat i := v]> l.

(** The little-endian halfword and word of bytes. *)
(* @ memory_bus.cpp:360-361 MemoryBus::read16 *)
Definition le16 (b0 b1 : Z) : Z := Z.lor b0 (u16 (Z.shiftl b1 8)).

(* @ memory_bus.cpp:424-428 MemoryBus::read32 *)
Definition le32 (b0 b1 b2 b3 : Z) : Z :=
  Z.lor (Z.lor (Z.lor b0 (u32 (Z.shiftl b1 8))) (u32 (Z.shiftl b2 16))) (u32 (Z.shiftl b3 24)).

(** The halfword and the word of an array at an offset. *)
(* @ memory_bus.cpp:359-373 MemoryBus::read16 *)
Definition half_at (l : list Z) (i : Z) : Z := le16 (byte_at l i) (byte_at l (i + 1)).

(* @ memory_bus.cpp:423-430 MemoryBus::read32 *)
Definition word_at (l : list Z) (i : Z) : Z :=
  le32 (byte_at l i) (byte_at l (i + 1)) (byte_at l (i + 2)) (byte_at l (i + 3)).

(** The byte lanes a store writes. *)
(* @ memory_bus.cpp:899-902 MemoryBus::write16 *)
Definition byte_lane (n : Z) (value : Z) : Z := u8 (Z.land (Z.shiftr value (8 * n)) 0xFF).

(* @ memory_bus.cpp:79-81 align_word *)
Definition align_word (address : Z) : Z := Z.land address (Z.lnot 0x3).

(** [address & ~1]. *)
Definition align_half (address : Z) : Z := Z.land address (Z.lnot 0x1).

(* @ memory_bus.cpp:83-89 rotate_right *)
Definition rotate_right (value amount : Z) : Z :=
  let shift := u8 (amount mod 32) in
  if shift =? 0 then value
  else Z.lor (Z.shiftr value shift) (u32 (Z.shiftl value (32 - shift))).

(* @ memory_bus.cpp:91-94 repeat_byte16 *)
Definition repeat_byte16 (value : Z) : Z := Z.lor value (u16 (Z.shiftl value 8)).

(* @ memory_bus.cpp:96-101 repeat_byte32 *)
Definition repeat_byte32 (value : Z) : Z :=
  Z.lor (Z.lor (Z.lor value (u32 (Z.shiftl value 8))) (u32 (Z.shiftl value 16)))
    (u32 (Z.shiftl value 24)).

(* @ memory_bus.cpp:103-109 game_pak_open_bus_aligned_word *)
Definition game_pak_open_bus_aligned_word (address : Z) : Z :=
  let aligned := align_word address in
  let low := u16 (Z.land (Z.shiftr aligned 1) 0xFFFF) in
  let high := u16 (low + 1) in
  Z.lor low (u32 (Z.shiftl high 16)).

(* @ memory_bus.cpp:111-114 game_pak_open_bus_word *)
Definition game_pak_open_bus_word (address : Z) : Z :=
  rotate_right (game_pak_open_bus_aligned_word address) (u8 (Z.land address 0x3 * 8)).

(** [std::search(data, marker) != data.end()]. *)
Fixpoint starts_with (marker data : list Z) : bool :=
  match marker, data with
  | [], _ => true
  | m :: marker', d :: data' => (m =? d) && starts_with marker' data'
  | _, [] => false
  end.

(* @ memory_bus.cpp:139-142 contains_ascii_marker *)
Fixpoint contains_ascii_marker (data marker : list Z) : bool :=
  starts_with marker data ||
  match data with [] => false | _ :: data' => contains_ascii_marker data' marker end.

(** ** The state *)

(** [game_pak_rom_] is [[]] for the null pointer; the callbacks are an
    argument of the operations that use them. *)
(* @ memory_bus.hpp:286-312 MemoryBus *)
Record MemoryBus : Type := mkMemoryBus {
  ewram_ : list Z;
  iwram_ : list Z;
  palette_ : list Z;
  vram_ : list Z;
  oam_ : list Z;
  game_pak_rom_ : list Z;
  game_pak_save_ : list Z;
  mgba_debug_string_ : list Z;
  debug_output_ : list Z;
  game_pak_save_type_ : GamePakSaveType.t;
  flash_command_state_ : FlashCommandState.t;
  flash_id_mode_ : bool;
  flash_bank_ : Z;
  open_bus_latch_ : Z;
  open_bus_latch_valid_ : bool
}.

#[export] Instance eta_MemoryBus : Eta MemoryBus := fun b =>
  mkMemoryBus (ewram_ b) (iwram_ b) (palette_ b) (vram_ b) (oam_ b) (game_pak_rom_ b)
    (game_pak_save_ b) (mgba_debug_string_ b) (debug_output_ b) (game_pak_save_type_ b)
    (flash_command_state_ b) (flash_id_mode_ b) (flash_bank_ b) (open_bus_latch_ b)
    (open_bus_latch_valid_ b).

(** [MemoryBus::State] has the same fields. *)
(* @ memory_bus.hpp:165-181 MemoryBus::State *)
Record State : Type := mkState {
  s_ewram : list Z;
  s_iwram : list Z;
  s_palette : list Z;
  s_vram : list Z;
  s_oam : list Z;
  s_game_pak_rom : list Z;
  s_game_pak_save : list Z;
  s_game_pak_save_type : GamePakSaveType.t;
  s_flash_command_state : FlashCommandState.t;
  s_flash_id_mode : bool;
  s_flash_bank : Z;
  s_open_bus_latch : Z;
  s_open_bus_latch_valid : bool;
  s_mgba_debug_string : list Z;
  s_debug_output : list Z
}.

(** ** Resets and the save backing *)

(** [array.fill(0)] keeps the size. *)
Definition fill_zero (l : list Z) : list Z := replicate (length l) 0.

(* @ memory_bus.cpp:1315-1321 MemoryBus::reset_flash_protocol *)
Definition reset_flash_protocol (b : MemoryBus) : MemoryBus :=
  b <| flash_command_state_ := FlashCommandState.idle |> <| flash_id_mode_ := false |>.

(* @ memory_bus.cpp:690-693 MemoryBus::clear_debug_output *)
Definition clear_debug_output (b : MemoryBus) : MemoryBus :=
  b <| debug_output_ := [] |> <| mgba_debug_string_ ::= fill_zero |>.

(* @ memory_bus.cpp:1017-1027 MemoryBus::soft_reset *)
Definition soft_reset (b : MemoryBus) : MemoryBus :=
  reset_flash_protocol (clear_debug_output
    (b <| ewram_ ::= fill_zero |> <| iwram_ ::= fill_zero |> <| palette_ ::= fill_zero |>
       <| vram_ ::= fill_zero |> <| oam_ ::= fill_zero |>
       <| open_bus_latch_ := 0 |> <| open_bus_latch_valid_ := false |>)).

(* @ memory_bus.cpp:1013-1015 MemoryBus::reset *)
Definition reset (b : MemoryBus) : MemoryBus := soft_reset b.

(* @ memory_bus.cpp:614-619 MemoryBus::clear_game_pak_save *)
Definition clear_game_pak_save (b : MemoryBus) : MemoryBus :=
  reset_flash_protocol
    (b <| game_pak_save_ := [] |> <| game_pak_save_type_ := GamePakSaveType.none |>
       <| flash_bank_ := 0 |>).

(* @ memory_bus.cpp:514-516 MemoryBus::clear_game_pak_rom *)
Definition clear_game_pak_rom (b : MemoryBus) : MemoryBus := b <| game_pak_rom_ := [] |>.

(* @ memory_bus.cpp:1029-1033 MemoryBus::hard_reset *)
Definition hard_reset (b : MemoryBus) : MemoryBus :=
  clear_game_pak_save (clear_game_pak_rom (soft_reset b)).

(** The constructor: [reset] and [clear_game_pak_save] on arrays of the
    declared sizes. *)
(* @ memory_bus.cpp:146-158 MemoryBus::MemoryBus *)
Definition initial : MemoryBus :=
  mkMemoryBus (replicate (Z.to_nat kEwramSize) 0) (replicate (Z.to_nat kIwramSize) 0)
    (replicate (Z.to_nat kPaletteSize) 0) (replicate (Z.to_nat kVramSize) 0)
    (replicate (Z.to_nat kOamSize) 0) [] [] (replicate 256 0) []
    GamePakSaveType.none FlashCommandState.idle false 0 0 false.

(* @ memory_bus.cpp:1035-1052 MemoryBus::register_ram_reset *)
Definition register_ram_reset (flags : Z) (b : MemoryBus) : MemoryBus :=
  let b := if has flags 0x0001 then b <| ewram_ ::= fill_zero |> else b in
  let b :=
    if has flags 0x0002
    then b <| iwram_ ::= fun l =>
           replicate (length l - 0x200) 0 ++ drop (length l - 0x200) l |>
    else b in
  let b := if has flags 0x0004 then b <| palette_ ::= fill_zero |> else b in
  let b := if has flags 0x0008 then b <| vram_ ::= fill_zero |> else b in
  if has flags 0x0010 then b <| oam_ ::= fill_zero |> else b.

(* @ memory_bus.cpp:1054-1070 MemoryBus::save_size_for_type *)
Definition save_size_for_type (type : GamePakSaveType.t) : Z :=
  match type with
  | GamePakSaveType.none => 0
  | GamePakSaveType.sram32k => kSram32kSize
  | GamePakSaveType.flash64k => kFlash64kSize
  | GamePakSaveType.flash128k => kFlash128kSize
  | GamePakSaveType.eeprom512 => kEeprom512Size
  | GamePakSaveType.eeprom8k => kEeprom8kSize
  end.

(* @ memory_bus.cpp:600-612 MemoryBus::configure_game_pak_save *)
Definition configure_game_pak_save (type : GamePakSaveType.t) (b : MemoryBus)
    : bool * MemoryBus :=
  let size := save_size_for_type type in
  if size =? 0 then (bool_decide (type = GamePakSaveType.none), clear_game_pak_save b)
  else
    (true, reset_flash_protocol
             (b <| game_pak_save_type_ := type |>
                <| game_pak_save_ := replicate (Z.to_nat size) 0xFF |>
                <| flash_bank_ := 0 |>)).

(* @ memory_bus.cpp:668-680 MemoryBus::import_game_pak_save *)
Definition import_game_pak_save (type : GamePakSaveType.t) (data : list Z) (b : MemoryBus)
    : bool * MemoryBus :=
  let size := save_size_for_type type in
  if (size =? 0) || negb (Z.of_nat (length data) =? size) then (false, b)
  else
    (true, reset_flash_protocol
             (b <| game_pak_save_type_ := type |> <| game_pak_save_ := data |>
                <| flash_bank_ := 0 |>)).

(* @ memory_bus.cpp:682-684 MemoryBus::export_game_pak_save *)
Definition export_game_pak_save (b : MemoryBus) : list Z := game_pak_save_ b.

(* @ memory_bus.cpp:621-623 MemoryBus::has_game_pak_save *)
Definition has_game_pak_save (b : MemoryBus) : bool :=
  negb (bool_decide (game_pak_save_type_ b = GamePakSaveType.none)) &&
  negb (bool_decide (game_pak_save_ b = [])).

(* @ memory_bus.cpp:1079-1082 MemoryBus::is_flash_save *)
Definition is_flash_save (b : MemoryBus) : bool :=
  match game_pak_save_type_ b with
  | GamePakSaveType.flash64k | GamePakSaveType.flash128k => true
  | _ => false
  end.

(* @ memory_bus.cpp:1072-1077 MemoryBus::game_pak_save_supports_memory_aperture *)
Definition game_pak_save_supports_memory_aperture (b : MemoryBus) : bool :=
  has_game_pak_save b &&
  match game_pak_save_type_ b with
  | GamePakSaveType.sram32k | GamePakSaveType.flash64k | GamePakSaveType.flash128k => true
  | _ => false
  end.

(* @ memory_bus.cpp:633-635 MemoryBus::flash_protocol_status *)
Definition flash_protocol_status (b : MemoryBus) : FlashProtocolStatus :=
  mkFlashProtocolStatus (flash_id_mode_ b) (flash_bank_ b) (flash_command_state_ b).

(* @ memory_bus.cpp:1084-1088 MemoryBus::flash_effective_offset *)
Definition flash_effective_offset (aperture_offset : Z) (b : MemoryBus) : Z :=
  let bank_base :=
    match game_pak_save_type_ b with
    | GamePakSaveType.flash128k => flash_bank_ b * kFlashBankSize
    | _ => 0
    end in
  bank_base + aperture_offset mod kFlashBankSize.

(* @ memory_bus.cpp:1113-1132 MemoryBus::read_flash_byte *)
Definition read_flash_byte (aperture_offset : Z) (b : MemoryBus) : option Z :=
  if negb (has_game_pak_save b) || negb (is_flash_save b) then None
  else if flash_id_mode_ b then
    let id_offset := aperture_offset mod kFlashBankSize in
    if id_offset =? 0 then Some kFlashManufacturerId
    else if id_offset =? 1 then
      Some (match game_pak_save_type_ b with
            | GamePakSaveType.flash128k => kFlash128DeviceId
            | _ => kFlash64DeviceId
            end)
    else Some 0xFF
  else Some (byte_at (game_pak_save_ b) (flash_effective_offset aperture_offset b)).

(* @ memory_bus.cpp:1090-1099 MemoryBus::read_game_pak_save_byte *)
Definition read_game_pak_save_byte (aperture_offset : Z) (b : MemoryBus) : option Z :=
  if negb (game_pak_save_supports_memory_aperture b) then None
  else if is_flash_save b then read_flash_byte aperture_offset b
  else
    Some (byte_at (game_pak_save_ b)
            (aperture_offset mod Z.of_nat (length (game_pak_save_ b)))).

(** [std::fill_n(begin + start, count, 0xFF)]. *)
(* @ memory_bus.cpp:1216-1222 MemoryBus::write_flash_byte *)
Definition fill_sector (start count : Z) (l : list Z) : list Z :=
  take (Z.to_nat start) l ++ replicate (Z.to_nat count) 0xFF ++
  drop (Z.to_nat start + Z.to_nat count) l.

(** [reset_flash_protocol(); return false;]. *)
Definition flash_abort (b : MemoryBus) : bool * MemoryBus := (false, reset_flash_protocol b).

(** [flash_command_state_ = s; return true;]. *)
Definition flash_goto (s : FlashCommandState.t) (b : MemoryBus) : bool * MemoryBus :=
  (true, b <| flash_command_state_ := s |>).

(* @ memory_bus.cpp:1134-1238 MemoryBus::write_flash_byte *)
Definition write_flash_byte (aperture_offset value : Z) (b : MemoryBus) : bool * MemoryBus :=
  if negb (has_game_pak_save b) || negb (is_flash_save b) then (false, b)
  else
    let command_offset := aperture_offset mod kFlashBankSize in
    if bool_decide (flash_command_state_ b = FlashCommandState.idle) && (value =? 0xF0)
    then (true, reset_flash_protocol b)
    else
      match flash_command_state_ b with
      | FlashCommandState.idle =>
          if (command_offset =? kFlashUnlockAddress1) && (value =? 0xAA)
          then flash_goto FlashCommandState.unlock1 b
          else (false, b)
      | FlashCommandState.unlock1 =>
          if (command_offset =? kFlashUnlockAddress2) && (value =? 0x55)
          then flash_goto FlashCommandState.unlock2 b
          else flash_abort b
      | FlashCommandState.unlock2 =>
          if negb (command_offset =? kFlashUnlockAddress1) then flash_abort b
          else if value =? 0x90 then
            flash_goto FlashCommandState.idle (b <| flash_id_mode_ := true |>)
          else if value =? 0xA0 then flash_goto FlashCommandState.program_data b
          else if value =? 0x80 then flash_goto FlashCommandState.erase_unlock1 b
          else if value =? 0xB0 then flash_goto FlashCommandState.bank_select b
          else if value =? 0xF0 then (true, reset_flash_protocol b)
          else flash_abort b
      | FlashCommandState.program_data =>
          let data_offset := flash_effective_offset aperture_offset b in
          flash_goto FlashCommandState.idle
            (b <| game_pak_save_ ::= fun l =>
                    put_byte data_offset (u8 (Z.land (byte_at l data_offset) value)) l |>)
      | FlashCommandState.erase_unlock1 =>
          if (command_offset =? kFlashUnlockAddress1) && (value =? 0xAA)
          then flash_goto FlashCommandState.erase_unlock2 b
          else flash_abort b
      | FlashCommandState.erase_unlock2 =>
          if (command_offset =? kFlashUnlockAddress2) && (value =? 0x55)
          then flash_goto FlashCommandState.erase_command b
          else flash_abort b
      | FlashCommandState.erase_command =>
          if (command_offset =? kFlashUnlockAddress1) && (value =? 0x10) then
            flash_goto FlashCommandState.idle
              (b <| game_pak_save_ ::= fun l => replicate (length l) 0xFF |>)
          else if value =? 0x30 then
            let data_offset := flash_effective_offset aperture_offset b in
            let sector_start := data_offset / kFlashSectorSize * kFlashSectorSize in
            flash_goto FlashCommandState.idle
              (b <| game_pak_save_ ::= fill_sector sector_start kFlashSectorSize |>)
          else flash_abort b
      | FlashCommandState.bank_select =>
          if command_offset =? kFlashBankSelectAddress then
            flash_goto FlashCommandState.idle
              (b <| flash_bank_ :=
                 match game_pak_save_type_ b with
                 | GamePakSaveType.flash128k => u8 (Z.land value 0x01)
                 | _ => 0
                 end |>)
          else flash_abort b
      end.

(* @ memory_bus.cpp:1101-1111 MemoryBus::write_game_pak_save_byte *)
Definition write_game_pak_save_byte (aperture_offset value : Z) (b : MemoryBus)
    : bool * MemoryBus :=
  if negb (game_pak_save_supports_memory_aperture b) then (false, b)
  else if is_flash_save b then write_flash_byte aperture_offset value b
  else
    (true, b <| game_pak_save_ ::= fun l =>
                  put_byte (aperture_offset mod Z.of_nat (length l)) value l |>).

(** ** EEPROM blocks *)

(* @ memory_bus.cpp:637-643 MemoryBus::eeprom_block_count *)
Definition eeprom_block_count (b : MemoryBus) : Z :=
  match game_pak_save_type_ b with
  | GamePakSaveType.eeprom512 | GamePakSaveType.eeprom8k =>
      u16 (Z.of_nat (length (game_pak_save_ b)) / 8)
  | _ => 0
  end.

(** [data] has eight bytes. *)
(* @ memory_bus.cpp:645-654 MemoryBus::eeprom_write_block *)
Definition eeprom_write_block (block_index : Z) (data : list Z) (b : MemoryBus)
    : bool * MemoryBus :=
  let block_count := eeprom_block_count b in
  if (block_count =? 0) || (block_count <=? block_index) then (false, b)
  else
    let start := Z.to_nat (block_index * 8) in
    (true, b <| game_pak_save_ ::= fun l =>
                  take start l ++ data ++ drop (start + length data) l |>).

(* @ memory_bus.cpp:656-666 MemoryBus::eeprom_read_block *)
Definition eeprom_read_block (block_index : Z) (b : MemoryBus) : option (list Z) :=
  let block_count := eeprom_block_count b in
  if (block_count =? 0) || (block_count <=? block_index) then None
  else Some (take 8 (drop (Z.to_nat (block_index * 8)) (game_pak_save_ b))).

(** ** The cartridge *)

(* @ memory_bus.cpp:505-512 MemoryBus::load_game_pak_rom *)
Definition load_game_pak_rom (data : list Z) (b : MemoryBus) : bool * MemoryBus :=
  if bool_decide (data = []) || (kGamePakRomWindowSize <? Z.of_nat (length data))
  then (false, b)
  else (true, b <| game_pak_rom_ := data |>).

(* @ memory_bus.cpp:518-520 MemoryBus::has_game_pak_rom *)
Definition has_game_pak_rom (b : MemoryBus) : bool := negb (bool_decide (game_pak_rom_ b = [])).

(* @ memory_bus.cpp:526-528 MemoryBus::export_game_pak_rom *)
Definition export_game_pak_rom (b : MemoryBus) : list Z := game_pak_rom_ b.

(* @ memory_bus.cpp:522-524 MemoryBus::game_pak_rom_size *)
Definition game_pak_rom_size (b : MemoryBus) : Z := Z.of_nat (length (game_pak_rom_ b)).

(* @ memory_bus.cpp:530-549 MemoryBus::game_pak_header *)
Definition game_pak_header (b : MemoryBus) : option CartridgeHeader :=
  let rom := game_pak_rom_ b in
  if (length rom <? kMinimumCartridgeHeaderSize)%nat then None
  else
    let fixed := byte_at rom (Z.of_nat kCartridgeFixedValueOffset) in
    Some (mkCartridgeHeader
      (take kCartridgeTitleSize (drop kCartridgeTitleOffset rom))
      (take kCartridgeGameCodeSize (drop kCartridgeGameCodeOffset rom))
      (take kCartridgeMakerCodeSize (drop kCartridgeMakerCodeOffset rom))
      fixed
      (byte_at rom (Z.of_nat kCartridgeUnitCodeOffset))
      (byte_at rom (Z.of_nat kCartridgeDeviceTypeOffset))
      (byte_at rom (Z.of_nat kCartridgeVersionOffset))
      (byte_at rom (Z.of_nat kCartridgeComplementCheckOffset))
      (fixed =? kCartridgeExpectedFixedValue)).

(* @ memory_bus.cpp:551-561 MemoryBus::cartridge_complement_valid *)
Definition cartridge_complement_valid (rom : list Z) : bool :=
  if (length rom <? kMinimumCartridgeHeaderSize)%nat then false
  else
    let window := take (kCartridgeComplementCheckOffset + 1 - kCartridgeTitleOffset)
                    (drop kCartridgeTitleOffset rom) in
    fold_left (fun sum byte => Z.land (u32 (sum + byte)) 0xFF) window 0x19 =? 0.

(* @ memory_bus.cpp:563-565 MemoryBus::cartridge_header_complement_valid *)
Definition cartridge_header_complement_valid (b : MemoryBus) : bool :=
  cartridge_complement_valid (game_pak_rom_ b).

(* @ memory_bus.cpp:567-571 MemoryBus::cartridge_header_is_valid *)
Definition cartridge_header_is_valid (b : MemoryBus) : bool :=
  match game_pak_header b with
  | Some header => fixed_value_valid header && cartridge_header_complement_valid b
  | None => false
  end.

(* @ memory_bus.cpp:573-598 MemoryBus::detect_game_pak_save_type *)
Definition detect_game_pak_save_type (b : MemoryBus) : option GamePakSaveType.t :=
  let rom := game_pak_rom_ b in
  if bool_decide (rom = []) then None
  else
    let has_sram := contains_ascii_marker rom (bytes_of "SRAM_V") in
    let has_flash128 := contains_ascii_marker rom (bytes_of "FLASH1M_V") in
    let has_flash64 := contains_ascii_marker rom (bytes_of "FLASH512_V") ||
                       contains_ascii_marker rom (bytes_of "FLASH_V") in
    let has_eeprom := contains_ascii_marker rom (bytes_of "EEPROM_V") in
    let found_kinds := z_of_bool has_sram + z_of_bool has_flash128 +
                       z_of_bool has_flash64 + z_of_bool has_eeprom in
    if negb (found_kinds =? 1) then None
    else if has_sram then Some GamePakSaveType.sram32k
    else if has_flash128 then Some GamePakSaveType.flash128k
    else if has_flash64 then Some GamePakSaveType.flash64k
    else Some GamePakSaveType.eeprom8k.

(** ** The open-bus latch *)

(* @ memory_bus.cpp:695-698 MemoryBus::drive_open_bus *)
Definition drive_open_bus (value : Z) (b : MemoryBus) : MemoryBus :=
  b <| open_bus_latch_ := value |> <| open_bus_latch_valid_ := true |>.

(* @ memory_bus.cpp:700-702 MemoryBus::clear_open_bus_latch *)
Definition clear_open_bus_latch (b : MemoryBus) : MemoryBus :=
  b <| open_bus_latch_valid_ := false |>.

(* @ memory_bus.cpp:704-709 MemoryBus::open_bus_latch *)
Definition open_bus_latch (b : MemoryBus) : option Z :=
  if negb (open_bus_latch_valid_ b) then None else Some (open_bus_latch_ b).

(** ** Snapshots *)

(* @ memory_bus.cpp:711-729 MemoryBus::state_hash *)
Definition state_hash (b : MemoryBus) : Z :=
  let h := add_bytes (ewram_ b) kOffsetBasis in
  let h := add_bytes (iwram_ b) h in
  let h := add_bytes (palette_ b) h in
  let h := add_bytes (vram_ b) h in
  let h := add_bytes (oam_ b) h in
  let h := add_bytes (game_pak_rom_ b) h in
  let h := add_u8 (GamePakSaveType.index (game_pak_save_type_ b)) h in
  let h := add_u8 (FlashCommandState.index (flash_command_state_ b)) h in
  let h := add_u8 (if flash_id_mode_ b then 1 else 0) h in
  let h := add_u8 (flash_bank_ b) h in
  let h := add_bool (open_bus_latch_valid_ b) h in
  let h := add_u32 (open_bus_latch_ b) h in
  let h := add_bytes (game_pak_save_ b) h in
  let h := add_bytes (mgba_debug_string_ b) h in
  add_bytes (debug_output_ b) h.

(* @ memory_bus.cpp:731-749 MemoryBus::save_state *)
Definition save_state (b : MemoryBus) : State :=
  mkState (ewram_ b) (iwram_ b) (palette_ b) (vram_ b) (oam_ b) (game_pak_rom_ b)
    (game_pak_save_ b) (game_pak_save_type_ b) (flash_command_state_ b) (flash_id_mode_ b)
    (flash_bank_ b) (open_bus_latch_ b) (open_bus_latch_valid_ b) (mgba_debug_string_ b)
    (debug_output_ b).

(** The validation of [load_state]. *)
(* @ memory_bus.cpp:752-775 MemoryBus::load_state *)
Definition state_ok (state : State) : bool :=
  let expected_save_size := save_size_for_type (s_game_pak_save_type state) in
  let saved := Z.of_nat (length (s_game_pak_save state)) in
  negb (negb (expected_save_size =? 0) && negb (saved =? expected_save_size)) &&
  negb (bool_decide (s_game_pak_save_type state = GamePakSaveType.none) &&
        negb (bool_decide (s_game_pak_save state = []))) &&
  negb (FlashCommandState.index FlashCommandState.bank_select <?
        FlashCommandState.index (s_flash_command_state state)) &&
  negb ((1 <? s_flash_bank state) ||
        (negb (s_flash_bank state =? 0) &&
         negb (bool_decide (s_game_pak_save_type state = GamePakSaveType.flash128k)))) &&
  negb (negb (bool_decide (s_game_pak_rom state = [])) &&
        (kGamePakRomWindowSize <? Z.of_nat (length (s_game_pak_rom state)))).

(* @ memory_bus.cpp:751-795 MemoryBus::load_state *)
Definition load_state (state : State) (b : MemoryBus) : bool * MemoryBus :=
  if state_ok state then
    (true, mkMemoryBus (s_ewram state) (s_iwram state) (s_palette state) (s_vram state)
             (s_oam state) (s_game_pak_rom state) (s_game_pak_save state)
             (s_mgba_debug_string state) (s_debug_output state) (s_game_pak_save_type state)
             (s_flash_command_state state) (s_flash_id_mode state) (s_flash_bank state)
             (s_open_bus_latch state) (s_open_bus_latch_valid state))
  else (false, b).

(** ** Accesses *)

Section Access.
Context {D : Type} (io : IoCallbacks D).

(** The bus and the devices behind the callbacks. *)
Definition Bus : Type := MemoryBus * D.

(** A byte of the addressed halfword of the IO registers. *)
(* @ memory_bus.cpp:319-329 MemoryBus::read8 *)
Definition read_io8 (address : Z) (d : D) : option Z :=
  match cb_read16 io with
  | Some read16 =>
      match read16 d (align_half address) with
      | Some half => Some (u8 (Z.land (Z.shiftr half (u8 (Z.land address 0x1 * 8))) 0xFF))
      | None => None
      end
  | None => None
  end.

(* @ memory_bus.cpp:278-334 MemoryBus::read8 *)
Definition read8 (address : Z) (s : Bus) : option Z :=
  let '(b, d) := s in
  if (kNoCashGbaDebugIdStart <=? address) &&
     (address <? kNoCashGbaDebugIdStart + Z.of_nat (length kNoCashGbaDebugId))
  then Some (byte_at kNoCashGbaDebugId (address - kNoCashGbaDebugIdStart))
  else if (kMgbaDebugStringStart <=? address) && (address <=? kMgbaDebugStringEnd)
  then Some (byte_at (mgba_debug_string_ b) (address - kMgbaDebugStringStart))
  else
    let info := classify address in
    match region info with
    | Region.ewram => Some (byte_at (ewram_ b) (offset info))
    | Region.iwram => Some (byte_at (iwram_ b) (offset info))
    | Region.palette => Some (byte_at (palette_ b) (offset info))
    | Region.vram => Some (byte_at (vram_ b) (offset info))
    | Region.oam => Some (byte_at (oam_ b) (offset info))
    | Region.bios =>
        if kBiosEnd <? offset info then None
        else if offset info <? Z.of_nat (length kHleBiosVectorBytes)
        then Some (byte_at kHleBiosVectorBytes (offset info))
        else Some 0
    | Region.game_pak_rom =>
        if bool_decide (game_pak_rom_ b = []) then None
        else if game_pak_rom_size b <=? offset info then
          let open_bus := game_pak_open_bus_aligned_word address in
          Some (u8 (Z.land (Z.shiftr open_bus (Z.land address 0x3 * 8)) 0xFF))
        else Some (byte_at (game_pak_rom_ b) (offset info))
    | Region.game_pak_save => read_game_pak_save_byte (offset info) b
    | Region.io => read_io8 address d
    | Region.unknown => None
    end.

(** The byte-wise fallback of [read16]. *)
(* @ memory_bus.cpp:388-395 MemoryBus::read16 *)
Definition read16_bytes (address : Z) (s : Bus) : option Z :=
  match read8 address s, read8 (u32 (address + 1)) s with
  | Some b0, Some b1 => Some (le16 b0 b1)
  | _, _ => None
  end.

(* @ memory_bus.cpp:336-396 MemoryBus::read16 *)
Definition read16 (address : Z) (s : Bus) : option Z :=
  let '(b, d) := s in
  let info := classify address in
  match region info, read_game_pak_save_byte (offset info) b, cb_read16 io with
  | Region.game_pak_save, None, _ => None
  | Region.game_pak_save, Some byte, _ => Some (repeat_byte16 byte)
  | region_, _, callback =>
      if negb (address mod 2 =? 0) then None
      else
        match region_, callback with
        | Region.io, Some read16 => read16 d address
        | _, _ =>
            if address =? kMgbaDebugEnable then Some kMgbaDebugEnableMagic
            else
              match region_ with
              | Region.iwram => Some (half_at (iwram_ b) (offset info))
              | Region.ewram => Some (half_at (ewram_ b) (offset info))
              | Region.vram => Some (half_at (vram_ b) (offset info))
              | Region.palette => Some (half_at (palette_ b) (offset info))
              | Region.oam => Some (half_at (oam_ b) (offset info))
              | Region.game_pak_rom =>
                  if bool_decide (game_pak_rom_ b = []) then None
                  else if game_pak_rom_size b <=? offset info + 1
                  then read16_bytes address s
                  else Some (half_at (game_pak_rom_ b) (offset info))
              | _ => read16_bytes address s
              end
        end
  end.

(* @ memory_bus.hpp:242-255 MemoryBus::read_video16 *)
Definition read_video16 (address : Z) (s : Bus) : option Z :=
  let info := classify address in
  if Z.land address 1 =? 0 then
    match region info with
    | Region.vram => Some (half_at (vram_ s.1) (offset info))
    | Region.palette => Some (half_at (palette_ s.1) (offset info))
    | _ => read16 address s
    end
  else read16 address s.

(** The byte-wise fallback of [read32]. *)
(* @ memory_bus.cpp:481-494 MemoryBus::read32 *)
Definition read32_bytes (address : Z) (s : Bus) : option Z :=
  let aligned := align_word address in
  match read8 aligned s, read8 (u32 (aligned + 1)) s,
        read8 (u32 (aligned + 2)) s, read8 (u32 (aligned + 3)) s with
  | Some b0, Some b1, Some b2, Some b3 =>
      Some (rotate_right (le32 b0 b1 b2 b3) (u8 (Z.land address 0x3 * 8)))
  | _, _, _, _ => None
  end.

(** The part of [read32] after the direct cases: the aligned word, rotated. *)
(* @ memory_bus.cpp:418-494 MemoryBus::read32 *)
Definition read32_aligned (address : Z) (s : Bus) : option Z :=
  let '(b, d) := s in
  let info := classify (align_word address) in
  let rotated l := Some (rotate_right (word_at l (offset info)) (u8 (Z.land address 0x3 * 8))) in
  match region info with
  | Region.iwram => rotated (iwram_ b)
  | Region.ewram => rotated (ewram_ b)
  | Region.vram => rotated (vram_ b)
  | Region.palette => rotated (palette_ b)
  | Region.oam => rotated (oam_ b)
  | Region.game_pak_rom =>
      if bool_decide (game_pak_rom_ b = []) then None
      else if game_pak_rom_size b <=? offset info + 3 then read32_bytes address s
      else rotated (game_pak_rom_ b)
  | _ => read32_bytes address s
  end.

(* @ memory_bus.cpp:398-495 MemoryBus::read32 *)
Definition read32 (address : Z) (s : Bus) : option Z :=
  let '(b, d) := s in
  let direct_info := classify address in
  match region direct_info with
  | Region.game_pak_save =>
      match read_game_pak_save_byte (offset direct_info) b with
      | Some byte => Some (repeat_byte32 byte)
      | None => None
      end
  | Region.game_pak_rom =>
      if has_game_pak_rom b && (game_pak_rom_size b <=? offset direct_info)
      then Some (game_pak_open_bus_word address)
      else read32_aligned address s
  | Region.io =>
      match cb_read32 io with
      | Some read32 =>
          if address mod 4 =? 0 then read32 d address else read32_aligned address s
      | None => read32_aligned address s
      end
  | _ => read32_aligned address s
  end.

(** *** Stores

    A store returns whether the bus accepted it, with the next state. *)

Definition bus_op : Type := Bus -> bool * Bus.

(** [first && second]. *)
Definition and_then (first second : bus_op) : bus_op := fun s =>
  let '(ok, s) := first s in if ok then second s else (false, s).

(** A store in the bus itself. *)
Definition on_bus (f : MemoryBus -> bool * MemoryBus) : bus_op := fun s =>
  let '(ok, b) := f s.1 in (ok, (b, s.2)).

Definition put (f : MemoryBus -> MemoryBus) : bus_op := fun s => (true, (f s.1, s.2)).

(** [debug_output_.push_back]. *)
Definition push_debug (bytes : list Z) (b : MemoryBus) : MemoryBus :=
  b <| debug_output_ ::= fun l => l ++ bytes |>.

(** The debug stores return [false] for an address they do not handle. *)
(* @ memory_bus.cpp:1240-1250 MemoryBus::write_debug8 *)
Definition write_debug8 (address value : Z) (b : MemoryBus) : bool * MemoryBus :=
  if (kMgbaDebugStringStart <=? address) && (address <=? kMgbaDebugStringEnd) then
    (true, b <| mgba_debug_string_ ::= put_byte (address - kMgbaDebugStringStart) value |>)
  else if address =? kNoCashGbaDebugChar then (true, push_debug [value] b)
  else (false, b).

(** The bytes of the debug string up to its terminator. *)
Fixpoint until_zero (l : list Z) : list Z :=
  match l with
  | [] => []
  | byte :: l' => if byte =? 0 then [] else byte :: until_zero l'
  end.

(* @ memory_bus.cpp:1299-1312 MemoryBus::flush_mgba_debug_string *)
Definition flush_mgba_debug_string (flags : Z) (b : MemoryBus) : MemoryBus :=
  if negb (has flags 0x0100) then b
  else
    let b := push_debug (until_zero (mgba_debug_string_ b)) b in
    if bool_decide (head (rev (debug_output_ b)) = Some 10) then b else push_debug [10] b.

(* @ memory_bus.cpp:1252-1270 MemoryBus::write_debug16 *)
Definition write_debug16 (address value : Z) (b : MemoryBus) : bool * MemoryBus :=
  if address =? kMgbaDebugEnable then (true, b)
  else if address =? kMgbaDebugFlags then (true, flush_mgba_debug_string value b)
  else if (kMgbaDebugStringStart <=? address) && (address <? kMgbaDebugStringEnd) then
    let '(ok, b) := write_debug8 address (byte_lane 0 value) b in
    if ok then write_debug8 (u32 (address + 1)) (byte_lane 1 value) b else (false, b)
  else if address =? kNoCashGbaDebugChar then
    (true, push_debug [byte_lane 0 value; byte_lane 1 value] b)
  else (false, b).

(** The loop of the no$gba string output: at most [n] bytes from [address]. *)
(* @ memory_bus.cpp:1287-1293 MemoryBus::write_debug32 *)
Fixpoint debug_string (n : nat) (address : Z) (s : Bus) : list Z :=
  match n with
  | O => []
  | S n' =>
      match read8 address s with
      | Some byte =>
          if byte =? 0 then [] else byte :: debug_string n' (u32 (address + 1)) s
      | None => []
      end
  end.

(* @ memory_bus.cpp:1272-1297 MemoryBus::write_debug32 *)
Definition write_debug32 (address value : Z) : bus_op := fun s =>
  if (kMgbaDebugStringStart <=? address) && (address <=? kMgbaDebugStringEnd - 3) then
    and_then (on_bus (write_debug8 address (byte_lane 0 value)))
      (and_then (on_bus (write_debug8 (u32 (address + 1)) (byte_lane 1 value)))
        (and_then (on_bus (write_debug8 (u32 (address + 2)) (byte_lane 2 value)))
          (on_bus (write_debug8 (u32 (address + 3)) (byte_lane 3 value))))) s
  else if address =? kNoCashGbaDebugChar then
    put (push_debug [byte_lane 0 value; byte_lane 1 value; byte_lane 2 value;
                     byte_lane 3 value]) s
  else if address =? kNoCashGbaDebugOut then
    put (push_debug (debug_string 256 value s)) s
  else (false, s).

(** A byte store to IO merges the byte into the halfword read back. *)
(* @ memory_bus.cpp:812-833 MemoryBus::write8 *)
Definition write_io8 (write16 : Z -> Z -> D -> bool * D) (address value : Z) : bus_op := fun s =>
  let aligned := align_half address in
  let merged :=
    match cb_read16 io with
    | Some read16 => default 0 (read16 s.2 aligned)
    | None => 0
    end in
  let merged :=
    if has address 0x1 then Z.lor (Z.land merged 0x00FF) (u16 (Z.shiftl value 8))
    else Z.lor (Z.land merged 0xFF00) value in
  let '(handled, d) := write16 aligned merged s.2 in
  (true, (s.1, d)).

(** Both bytes of the halfword at an offset. *)
(* @ memory_bus.cpp:847-848 MemoryBus::write8 *)
Definition put_both (off value : Z) (l : list Z) : list Z :=
  put_byte (align_half off + 1) value (put_byte (align_half off) value l).

(** The store of a byte in the arrays. *)
(* @ memory_bus.cpp:835-866 MemoryBus::write8 *)
Definition write_ram8 (info : AddressInfo) (value : Z) : bus_op := fun s =>
  if negb (writable info) then (false, s)
  else
    match region info with
    | Region.ewram => put (fun b => b <| ewram_ ::= put_byte (offset info) value |>) s
    | Region.iwram => put (fun b => b <| iwram_ ::= put_byte (offset info) value |>) s
    | Region.palette => put (fun b => b <| palette_ ::= put_both (offset info) value |>) s
    | Region.vram =>
        if 0x10000 <=? offset info then (true, s)
        else put (fun b => b <| vram_ ::= put_both (offset info) value |>) s
    | Region.oam => (true, s)
    | _ => (false, s)
    end.

(* @ memory_bus.cpp:797-867 MemoryBus::write8 *)
Definition write8 (address value : Z) : bus_op := fun s =>
  let '(ok, s) := on_bus (write_debug8 address value) s in
  if ok then (true, s)
  else
    let info := classify address in
    match region info, cb_write16 io with
    | Region.unknown, _ => (true, s)
    | Region.game_pak_save, _ =>
        on_bus (write_game_pak_save_byte (offset info) value) s
    | Region.game_pak_rom, _ => (has_game_pak_rom s.1, s)
    | Region.io, Some write16 => write_io8 write16 address value s
    | _, _ => write_ram8 info value s
    end.

(** The halves of a halfword and the bytes of a word, stored in order. *)
(* @ memory_bus.cpp:899-902 MemoryBus::write16 *)
Definition write16_bytes (address value : Z) : bus_op :=
  and_then (write8 address (byte_lane 0 value))
    (write8 (u32 (address + 1)) (byte_lane 1 value)).

(* @ memory_bus.cpp:964-969 MemoryBus::write32 *)
Definition write32_bytes (address value : Z) : bus_op :=
  and_then (write8 address (byte_lane 0 value))
    (and_then (write8 (u32 (address + 1)) (byte_lane 1 value))
      (and_then (write8 (u32 (address + 2)) (byte_lane 2 value))
        (write8 (u32 (address + 3)) (byte_lane 3 value)))).

(** Every region of the list is [r]. *)
Definition all_in (r : Region.t) (infos : list AddressInfo) : bool :=
  forallb (fun info => bool_decide (region info = r)) infos.

(** The bytes of [value] at the offsets, low byte first. *)
(* @ memory_bus.cpp:914-915 MemoryBus::write16 *)
Fixpoint put_lanes (n : Z) (infos : list AddressInfo) (value : Z) (l : list Z) : list Z :=
  match infos with
  | [] => l
  | info :: infos' =>
      put_lanes (n + 1) infos' value (put_byte (offset info) (byte_lane n value) l)
  end.

(** The aligned store of [write16] and [write32]: all bytes must be writable;
    the video memories are stored directly. *)
(* @ memory_bus.cpp:907-930 MemoryBus::write16 *)
Definition write_ram (infos : list AddressInfo) (value : Z) (fallback : bus_op) : bus_op := fun s =>
  if negb (forallb writable infos) then (false, s)
  else if all_in Region.palette infos then
    put (fun b => b <| palette_ ::= put_lanes 0 infos value |>) s
  else if all_in Region.vram infos then
    put (fun b => b <| vram_ ::= put_lanes 0 infos value |>) s
  else if all_in Region.oam infos then
    put (fun b => b <| oam_ ::= put_lanes 0 infos value |>) s
  else fallback s.

(* @ memory_bus.cpp:883-892 MemoryBus::write16 *)
Definition write_io16 (write16 : Z -> Z -> D -> bool * D) (address value : Z) : bus_op := fun s =>
  let rotate := Z.land address 0x1 * 8 in
  let rotated :=
    if rotate =? 0 then value
    else u16 (Z.lor (Z.shiftr value rotate) (Z.shiftl value (16 - rotate))) in
  let '(handled, d) := write16 (align_half address) rotated s.2 in
  (true, (s.1, d)).

(* @ memory_bus.cpp:869-931 MemoryBus::write16 *)
Definition write16 (address value : Z) : bus_op := fun s =>
  let info := classify address in
  match region info with
  | Region.game_pak_rom => (has_game_pak_rom s.1, s)
  | Region.game_pak_save =>
      on_bus (write_game_pak_save_byte (offset info) (byte_lane 0 value)) s
  | _ =>
      let '(ok, s) := on_bus (write_debug16 address value) s in
      if ok then (true, s)
      else
        match region info, cb_write16 io with
        | Region.io, Some write16 => write_io16 write16 address value s
        | _, _ =>
            if negb (address mod 2 =? 0) then write16_bytes address value s
            else if bool_decide (region info = Region.unknown) then (true, s)
            else
              write_ram [classify address; classify (u32 (address + 1))] value
                (write16_bytes address value) s
        end
  end.

(* @ memory_bus.cpp:947-955 MemoryBus::write32 *)
Definition write_io32 (write32 : Z -> Z -> D -> bool * D) (address value : Z) : bus_op := fun s =>
  let rotate := Z.land address 0x3 * 8 in
  let rotated :=
    if rotate =? 0 then value
    else Z.lor (Z.shiftr value rotate) (u32 (Z.shiftl value (32 - rotate))) in
  let '(handled, d) := write32 (align_word address) rotated s.2 in
  (true, (s.1, d)).

(* @ memory_bus.cpp:933-1011 MemoryBus::write32 *)
Definition write32 (address value : Z) : bus_op := fun s =>
  let info := classify address in
  match region info with
  | Region.game_pak_rom => (has_game_pak_rom s.1, s)
  | Region.game_pak_save =>
      on_bus (write_game_pak_save_byte (offset info) (byte_lane 0 value)) s
  | _ =>
      let '(ok, s) := write_debug32 address value s in
      if ok then (true, s)
      else
        match region info, cb_write32 io with
        | Region.io, Some write32 => write_io32 write32 address value s
        | _, _ =>
            if negb (address mod 4 =? 0) then write32_bytes address value s
            else if bool_decide (region info = Region.unknown) then (true, s)
            else
              write_ram [classify address; classify (u32 (address + 1));
                         classify (u32 (address + 2)); classify (u32 (address + 3))] value
                (write32_bytes address value) s
        end
  end.
End Access.
