(* ===== verification/PpuBackground.v ===== *)
(** * Background fetching

    [PpuBackgroundFetcher] of [include/gba/core/ppu_background.hpp] and
    [src/core/ppu_background.cpp]: the decoding of BGxCNT and the fetch of a
    text or affine background pixel from the memory bus. *)

From S2P Require Import Prelude BusTypes MemoryBus.

Module BgColorMode.
(* @ ppu_background.hpp:10-13 BgColorMode *)
Inductive t : Type := bpp4 | bpp8.
#[export] Instance eq_dec : EqDecision t.
Proof. solve_decision. Defined.
End BgColorMode.
Export (hints) BgColorMode.

(* @ ppu_background.hpp:15-22 BgControl *)
Record BgControl : Type := mkBgControl {
  bg_raw : Z;
  bg_priority : Z;
  charblock : Z;
  screenblock : Z;
  bg_color_mode : BgColorMode.t;
  screen_size : Z
}.

(* @ ppu_background.hpp:24-33 BgPixel *)
Record BgPixel : Type := mkBgPixel {
  map_entry : Z;
  bp_tile_id : Z;
  bp_palette_bank : Z;
  bp_color_index : Z;
  bp_color : Z;
  bp_transparent : bool;
  bp_hflip : bool;
  bp_vflip : bool
}.

(* @ ppu_background.hpp:35-40 AffinePixel *)
Record AffinePixel : Type := mkAffinePixel {
  ap_tile_index : Z;
  ap_color_index : Z;
  ap_color : Z;
  ap_transparent : bool
}.

(* @ ppu_background.hpp:44-44 PpuBackgroundFetcher::kVramBase *)
Definition kVramBase : Z := 0x06000000.
(* @ ppu_background.hpp:45-45 PpuBackgroundFetcher::kPaletteBase *)
Definition kPaletteBase : Z := 0x05000000.
(* @ ppu_background.hpp:46-46 PpuBackgroundFetcher::kTilePixels *)
Definition kTilePixels : Z := 8.
(* @ ppu_background.hpp:47-47 PpuBackgroundFetcher::kScreenblockBytes *)
Definition kScreenblockBytes : Z := 0x800.
(* @ ppu_background.hpp:48-48 PpuBackgroundFetcher::kCharblockBytes *)
Definition kCharblockBytes : Z := 0x4000.

(* @ ppu_background.cpp:6-8 text_map_width_tiles *)
Definition text_map_width_tiles (control : BgControl) : Z :=
  if has (screen_size control) 0x1 then 64 else 32.

(* @ ppu_background.cpp:10-12 text_map_height_tiles *)
Definition text_map_height_tiles (control : BgControl) : Z :=
  if has (screen_size control) 0x2 then 64 else 32.

(* @ ppu_background.cpp:14-18 screenblock_base *)
Definition screenblock_base (block : Z) : Z :=
  u32 (kVramBase + u32 (Z.land block 0x1F * kScreenblockBytes)).

(* @ ppu_background.cpp:20-24 charblock_base *)
Definition charblock_base (block : Z) : Z :=
  u32 (kVramBase + u32 (Z.land block 0x3 * kCharblockBytes)).

(* @ ppu_background.cpp:26-36 screenblock_for_tile *)
Definition screenblock_for_tile (control : BgControl) (tile_x tile_y : Z) : Z :=
  let block_x := u8 (tile_x / 32) in
  let block_y := u8 (tile_y / 32) in
  let block_offset :=
    if text_map_width_tiles control =? 64 then u8 (block_x + block_y * 2) else block_y in
  u8 (Z.land (screenblock control + block_offset) 0x1F).

(* @ ppu_background.cpp:40-49 PpuBackgroundFetcher::decode_control *)
Definition decode_control (control : Z) : BgControl :=
  mkBgControl control (u8 (Z.land control 0x3)) (u8 (Z.land (Z.shiftr control 2) 0x3))
    (u8 (Z.land (Z.shiftr control 8) 0x1F))
    (if has control 0x0080 then BgColorMode.bpp8 else BgColorMode.bpp4)
    (u8 (Z.land (Z.shiftr control 14) 0x3)).

(* @ ppu_background.cpp:51-53 PpuBackgroundFetcher::text_width_pixels *)
Definition text_width_pixels (control : BgControl) : Z :=
  u16 (text_map_width_tiles control * kTilePixels).

(* @ ppu_background.cpp:55-57 PpuBackgroundFetcher::text_height_pixels *)
Definition text_height_pixels (control : BgControl) : Z :=
  u16 (text_map_height_tiles control * kTilePixels).

(* @ ppu_background.cpp:59-61 PpuBackgroundFetcher::width_pixels *)
Definition width_pixels (control : BgControl) : Z := text_width_pixels control.

(* @ ppu_background.cpp:63-65 PpuBackgroundFetcher::height_pixels *)
Definition height_pixels (control : BgControl) : Z := text_height_pixels control.

(* @ ppu_background.cpp:68-70 PpuBackgroundFetcher::affine_map_pixels *)
Definition affine_map_pixels (control : BgControl) : Z :=
  u32 (Z.shiftl 128 (Z.land (screen_size control) 0x3)).

Section Fetch.
Context {D : Type} (io : IoCallbacks D) (memory : Bus (D := D)).

(** The color index in a packed byte. *)
(* @ ppu_background.cpp:109-112 PpuBackgroundFetcher::fetch_text_pixel *)
Definition unpack_color_index (bpp8 : bool) (pixel_x packed_pixel : Z) : Z :=
  if bpp8 then packed_pixel
  else u8 (if has pixel_x 1 then Z.shiftr packed_pixel 4 else Z.land packed_pixel 0xF).

(** The address of the map entry of a text background at a pixel. *)
(* @ ppu_background.cpp:75-85 PpuBackgroundFetcher::fetch_text_pixel *)
Definition map_entry_address (control : BgControl) (x y : Z) : Z :=
  let wrapped_x := x mod text_width_pixels control in
  let wrapped_y := y mod text_height_pixels control in
  let tile_x := wrapped_x / kTilePixels in
  let tile_y := wrapped_y / kTilePixels in
  let block := screenblock_for_tile control tile_x tile_y in
  let block_tile_x := tile_x mod 32 in
  let block_tile_y := tile_y mod 32 in
  u32 (screenblock_base block + u32 (u32 (block_tile_y * 32 + block_tile_x) * 2)).

(** The pixel of a tile and a palette a map entry selects. *)
(* @ ppu_background.cpp:91-123 PpuBackgroundFetcher::fetch_text_pixel *)
Definition fetch_entry_pixel (control : BgControl) (local_x local_y entry : Z) : option BgPixel :=
  let tile_id := Z.land entry 0x03FF in
  let hflip := has entry 0x0400 in
  let vflip := has entry 0x0800 in
  let palette_bank := u8 (Z.land (Z.shiftr entry 12) 0xF) in
  let pixel_x := if hflip then u8 (7 - local_x) else local_x in
  let pixel_y := if vflip then u8 (7 - local_y) else local_y in
  let bpp8 := bool_decide (bg_color_mode control = BgColorMode.bpp8) in
  let tile_bytes := if bpp8 then 64 else 32 in
  let tile_address := u32 (charblock_base (charblock control) + u32 (tile_id * tile_bytes)) in
  let pixel_address :=
    u32 (tile_address +
         (if bpp8 then pixel_y * 8 + pixel_x else pixel_y * 4 + pixel_x / 2)) in
  match read8 io pixel_address memory with
  | None => None
  | Some packed_pixel =>
      let color_index := unpack_color_index bpp8 pixel_x packed_pixel in
      let palette_address :=
        u32 (kPaletteBase +
             (if bpp8 then color_index * 2 else palette_bank * 32 + color_index * 2)) in
      match read_video16 io palette_address memory with
      | None => None
      | Some color =>
          Some (mkBgPixel entry tile_id palette_bank color_index color (color_index =? 0)
                  hflip vflip)
      end
  end.

(* @ ppu_background.cpp:72-124 PpuBackgroundFetcher::fetch_text_pixel *)
Definition fetch_text_pixel (control : BgControl) (x y : Z) : option BgPixel :=
  let local_x := u8 (x mod text_width_pixels control mod kTilePixels) in
  let local_y := u8 (y mod text_height_pixels control mod kTilePixels) in
  match read_video16 io (map_entry_address control x y) memory with
  | None => None
  | Some entry => fetch_entry_pixel control local_x local_y entry
  end.

(** [tex_x] and [tex_y] are signed. *)
(* @ ppu_background.cpp:128-172 PpuBackgroundFetcher::fetch_affine_pixel *)
Definition fetch_affine_pixel (control : BgControl) (tex_x tex_y : Z) : option AffinePixel :=
  let map_pixels := affine_map_pixels control in
  let map_tiles := map_pixels / kTilePixels in
  let wraparound := has (bg_raw control) 0x2000 in
  let outside :=
    (tex_x <? 0) || (tex_y <? 0) || (map_pixels <=? tex_x) || (map_pixels <=? tex_y) in
  if outside && negb wraparound then Some (mkAffinePixel 0 0 0 true)
  else
    let masked_x := Z.land (u32 tex_x) (map_pixels - 1) in
    let masked_y := Z.land (u32 tex_y) (map_pixels - 1) in
    let tile_index_address :=
      u32 (u32 (screenblock_base (screenblock control) +
                u32 (masked_y / kTilePixels * map_tiles)) + masked_x / kTilePixels) in
    match read8 io tile_index_address memory with
    | None => None
    | Some tile_index =>
        let in_tile_x := u8 (masked_x mod kTilePixels) in
        let in_tile_y := u8 (masked_y mod kTilePixels) in
        let pixel_address :=
          u32 (u32 (u32 (charblock_base (charblock control) + u32 (tile_index * 64)) +
                    in_tile_y * 8) + in_tile_x) in
        match read8 io pixel_address memory with
        | None => None
        | Some color_index =>
            match read_video16 io (u32 (kPaletteBase + u32 (color_index * 2))) memory with
            | None => None
            | Some color =>
                Some (mkAffinePixel tile_index color_index color (color_index =? 0))
            end
        end
    end.
End Fetch.
