(* ===== verification/PpuSprites.v ===== *)
(** * Sprite fetching

    [PpuSpriteFetcher] of [include/gba/core/ppu_sprites.hpp] and
    [src/core/ppu_sprites.cpp]: the decoding of OAM attributes, the affine
    transformation and the fetch of a sprite pixel. *)

From S2P Require Import Prelude BusTypes MemoryBus.

Module SpriteColorMode.
(* @ ppu_sprites.hpp:10-13 SpriteColorMode *)
Inductive t : Type := bpp4 | bpp8.
#[export] Instance eq_dec : EqDecision t.
Proof. solve_decision. Defined.
End SpriteColorMode.
Export (hints) SpriteColorMode.

(* @ ppu_sprites.hpp:15-38 SpriteAttributes *)
Record SpriteAttributes : Type := mkSpriteAttributes {
  attr0 : Z;
  attr1 : Z;
  attr2 : Z;
  sp_x : Z;
  sp_y : Z;
  shape : Z;
  size : Z;
  width : Z;
  height : Z;
  tile_id : Z;
  sp_priority : Z;
  palette_bank : Z;
  color_mode : SpriteColorMode.t;
  affine_matrix_index : Z;
  affine : bool;
  double_size : bool;
  disabled : bool;
  hflip : bool;
  vflip : bool;
  semi_transparent : bool;
  obj_window : bool;
  mosaic_enabled : bool
}.

(* @ ppu_sprites.hpp:40-45 SpritePixel *)
Record SpritePixel : Type := mkSpritePixel {
  px_color_index : Z;
  px_palette_bank : Z;
  px_color : Z;
  px_transparent : bool
}.

(* @ ppu_sprites.hpp:49-49 PpuSpriteFetcher::kOamBase *)
Definition kOamBase : Z := 0x07000000.
(* @ ppu_sprites.hpp:50-50 PpuSpriteFetcher::kObjTileBase *)
Definition kObjTileBase : Z := 0x06010000.
(* @ ppu_sprites.hpp:51-51 PpuSpriteFetcher::kObjPaletteBase *)
Definition kObjPaletteBase : Z := 0x05000200.
(* @ ppu_sprites.hpp:52-52 PpuSpriteFetcher::kSpriteCount *)
Definition kSpriteCount : Z := 128.

(** [kSpriteSizes.at(shape).at(size)] as (width, height). *)
(* @ ppu_sprites.cpp:14-19 kSpriteSizes *)
Definition kSpriteSizes : list (list (Z * Z)) :=
  [[(8, 8); (16, 16); (32, 32); (64, 64)];
   [(16, 8); (32, 8); (32, 16); (64, 32)];
   [(8, 16); (8, 32); (16, 32); (32, 64)];
   [(0, 0); (0, 0); (0, 0); (0, 0)]].

(** [shape] and [size] have two bits. *)
(* @ ppu_sprites.cpp:110-110 PpuSpriteFetcher::read_sprite *)
Definition sprite_dimensions (shape size : Z) : Z * Z :=
  default (0, 0) (kSpriteSizes !! Z.to_nat shape ≫= fun row => row !! Z.to_nat size).

(* @ ppu_sprites.cpp:21-25 signed_obj_x *)
Definition signed_obj_x (attr1 : Z) : Z :=
  let raw := Z.land attr1 0x01FF in
  if 256 <=? raw then i16 (raw - 512) else i16 raw.

(* @ ppu_sprites.cpp:29-36 obj_tile_row_stride *)
Definition obj_tile_row_stride (sprite : SpriteAttributes) (bpp8 character_mapping_1d : bool) : Z :=
  if negb character_mapping_1d then 32
  else u16 (width sprite / 8 * (if bpp8 then 2 else 1)).

(* @ ppu_sprites.cpp:38-40 signed_oam_param *)
Definition signed_oam_param (value : Z) : Z := i16 value.

(* @ ppu_sprites.cpp:42-45 affine_param_address *)
Definition affine_param_address (matrix_index component : Z) : Z :=
  u16 (matrix_index * 32 + 6 + component * 8).

Section Fetch.
Context {D : Type} (io : IoCallbacks D) (memory : Bus (D := D)).

(* @ ppu_sprites.cpp:47-56 read_affine_param *)
Definition read_affine_param (matrix_index component : Z) : option Z :=
  match read16 io (u32 (kOamBase + affine_param_address matrix_index component)) memory with
  | Some raw => Some (signed_oam_param raw)
  | None => None
  end.

(** The texel of a screen pixel under the matrix, when it is in the sprite. *)
(* @ ppu_sprites.cpp:73-89 affine_texture_coordinates *)
Definition transform (sprite : SpriteAttributes) (pa pb pc pd local_x local_y : Z)
    : option (Z * Z) :=
  let texture_center_x := width sprite / 2 in
  let texture_center_y := height sprite / 2 in
  let screen_width := if double_size sprite then width sprite * 2 else width sprite in
  let screen_height := if double_size sprite then height sprite * 2 else height sprite in
  let dx := local_x - screen_width / 2 in
  let dy := local_y - screen_height / 2 in
  let texture_x := texture_center_x + Z.shiftr (pa * dx + pb * dy) 8 in
  let texture_y := texture_center_y + Z.shiftr (pc * dx + pd * dy) 8 in
  if (texture_x <? 0) || (width sprite <=? texture_x) ||
     (texture_y <? 0) || (height sprite <=? texture_y)
  then None
  else Some (u8 texture_x, u8 texture_y).

(* @ ppu_sprites.cpp:59-90 affine_texture_coordinates *)
Definition affine_texture_coordinates (sprite : SpriteAttributes) (local_x local_y : Z)
    : option (Z * Z) :=
  match read_affine_param (affine_matrix_index sprite) 0,
        read_affine_param (affine_matrix_index sprite) 1,
        read_affine_param (affine_matrix_index sprite) 2,
        read_affine_param (affine_matrix_index sprite) 3 with
  | Some pa, Some pb, Some pc, Some pd => transform sprite pa pb pc pd local_x local_y
  | _, _, _, _ => None
  end.

(** The attributes of the three OAM halfwords of a sprite. *)
(* @ ppu_sprites.cpp:108-141 PpuSpriteFetcher::read_sprite *)
Definition decode_sprite (attr0 attr1 attr2 : Z) : SpriteAttributes :=
  let shape := u8 (Z.land (Z.shiftr attr0 14) 0x3) in
  let size := u8 (Z.land (Z.shiftr attr1 14) 0x3) in
  let '(width, height) := sprite_dimensions shape size in
  let affine := has attr0 0x0100 in
  let double_size := affine && has attr0 0x0200 in
  let object_disabled := negb affine && has attr0 0x0200 in
  let graphics_mode := u8 (Z.land (Z.shiftr attr0 10) 0x3) in
  mkSpriteAttributes attr0 attr1 attr2
    (signed_obj_x attr1)
    (i16 (Z.land attr0 0x00FF))
    shape size width height
    (u16 (Z.land attr2 0x03FF))
    (u8 (Z.land (Z.shiftr attr2 10) 0x3))
    (u8 (Z.land (Z.shiftr attr2 12) 0xF))
    (if has attr0 0x2000 then SpriteColorMode.bpp8 else SpriteColorMode.bpp4)
    (u8 (Z.land (Z.shiftr attr1 9) 0x1F))
    affine double_size
    (object_disabled || (width =? 0) || (height =? 0) || (graphics_mode =? 3))
    (negb affine && has attr1 0x1000)
    (negb affine && has attr1 0x2000)
    (graphics_mode =? 1)
    (graphics_mode =? 2)
    (has attr0 0x1000).

(* @ ppu_sprites.cpp:94-142 PpuSpriteFetcher::read_sprite *)
Definition read_sprite (index : Z) : option SpriteAttributes :=
  if kSpriteCount <=? index then None
  else
    let base := u32 (kOamBase + u32 (index * 8)) in
    match read16 io base memory, read16 io (u32 (base + 2)) memory,
          read16 io (u32 (base + 4)) memory with
    | Some attr0, Some attr1, Some attr2 => Some (decode_sprite attr0 attr1 attr2)
    | _, _, _ => None
    end.

(** The texel a screen pixel of the sprite shows. *)
(* @ ppu_sprites.cpp:158-173 PpuSpriteFetcher::fetch_sprite_pixel *)
Definition sprite_texel (sprite : SpriteAttributes) (local_x local_y : Z) : option (Z * Z) :=
  if affine sprite then affine_texture_coordinates sprite local_x local_y
  else
    Some (if hflip sprite then u8 (width sprite - 1 - local_x) else local_x,
          if vflip sprite then u8 (height sprite - 1 - local_y) else local_y).

(** The address of the byte of a texel. *)
(* @ ppu_sprites.cpp:174-185 PpuSpriteFetcher::fetch_sprite_pixel *)
Definition texel_address (sprite : SpriteAttributes) (bpp8 character_mapping_1d : bool)
    (pixel_x pixel_y : Z) : Z :=
  let tile_x := pixel_x / 8 in
  let tile_y := pixel_y / 8 in
  let in_tile_x := u8 (pixel_x mod 8) in
  let in_tile_y := u8 (pixel_y mod 8) in
  let tile_number :=
    u16 (tile_id sprite + tile_y * obj_tile_row_stride sprite bpp8 character_mapping_1d +
         tile_x * (if bpp8 then 2 else 1)) in
  let tile_address := u32 (kObjTileBase + u32 (tile_number * 32)) in
  u32 (tile_address +
       (if bpp8 then in_tile_y * 8 + in_tile_x else in_tile_y * 4 + in_tile_x / 2)).

(* @ ppu_sprites.cpp:144-209 PpuSpriteFetcher::fetch_sprite_pixel *)
Definition fetch_sprite_pixel (sprite : SpriteAttributes) (local_x local_y : Z)
    (character_mapping_1d : bool) : option SpritePixel :=
  let screen_width := if double_size sprite then u8 (width sprite * 2) else width sprite in
  let screen_height := if double_size sprite then u8 (height sprite * 2) else height sprite in
  if disabled sprite || (screen_width <=? local_x) || (screen_height <=? local_y) then None
  else
    let bpp8 := bool_decide (color_mode sprite = SpriteColorMode.bpp8) in
    match sprite_texel sprite local_x local_y with
    | None => None
    | Some (pixel_x, pixel_y) =>
        let pixel_address := texel_address sprite bpp8 character_mapping_1d pixel_x pixel_y in
        match read_video16 io (Z.land pixel_address (Z.lnot 1)) memory with
        | None => None
        | Some packed_word =>
            let packed_pixel := u8 (Z.shiftr packed_word (Z.land pixel_address 1 * 8)) in
            let color_index :=
              if bpp8 then packed_pixel
              else u8 (if has (u8 (pixel_x mod 8)) 1 then Z.shiftr packed_pixel 4
                       else Z.land packed_pixel 0xF) in
            let palette_address :=
              u32 (kObjPaletteBase +
                   (if bpp8 then color_index * 2
                    else palette_bank sprite * 32 + color_index * 2)) in
            match read_video16 io palette_address memory with
            | None => None
            | Some color =>
                Some (mkSpritePixel color_index (palette_bank sprite) color (color_index =? 0))
            end
        end
    end.
End Fetch.
