(* ===== verification/PpuFetchSpec.v ===== *)
(** * Properties of background and sprite fetching

    The tile maps of the text backgrounds (bounds, one entry per tile,
    wrapping), the flips of tiles and sprites, and the affine transformation
    of sprites at the identity matrix. *)

From S2P Require Import Prelude BusTypes MemoryBus PpuBackground PpuSprites.

(** ** Text backgrounds *)

(** The decoded fields of a background are in their ranges. *)
Definition bg_ok (control : BgControl) : Prop :=
  0 <= screenblock control < 32 /\ 0 <= charblock control < 4 /\ 0 <= screen_size control < 4.

Lemma land_ones_range x n : 0 <= n -> 0 <= Z.land x (Z.ones n) < 2 ^ n.
Proof. intros Hn. rewrite Z.land_ones by done. apply Z.mod_pos_bound. lia. Qed.

Lemma decode_control_ok raw : bg_ok (decode_control raw).
Proof.
  unfold bg_ok, decode_control. cbn [screenblock charblock screen_size].
  pose proof (land_ones_range (Z.shiftr raw 8) 5 ltac:(lia)) as H1.
  pose proof (land_ones_range (Z.shiftr raw 2) 2 ltac:(lia)) as H2.
  pose proof (land_ones_range (Z.shiftr raw 14) 2 ltac:(lia)) as H3.
  change (Z.ones 5) with 0x1F in H1. change (Z.ones 2) with 3 in H2, H3.
  change (2 ^ 5) with 32 in H1. change (2 ^ 2) with 4 in H2, H3.
  rewrite !wrap_id by (unfold fits; lia). done.
Qed.

Lemma text_sizes control :
  (text_width_pixels control = 256 \/ text_width_pixels control = 512) /\
  (text_height_pixels control = 256 \/ text_height_pixels control = 512) /\
  text_width_pixels control = 8 * text_map_width_tiles control /\
  (text_map_width_tiles control = 32 \/ text_map_width_tiles control = 64).
Proof.
  unfold text_width_pixels, text_height_pixels, text_map_width_tiles, text_map_height_tiles,
    kTilePixels. split_and!; repeat case_match; auto.
Qed.

(** The number of the screenblock of a tile, and the address of its entry. *)
Definition block_of (control : BgControl) (tx ty : Z) : Z :=
  (screenblock control + tx / 32 +
   ty / 32 * (if text_map_width_tiles control =? 64 then 2 else 1)) mod 32.

Lemma map_entry_address_eq control x y :
  bg_ok control ->
  let tx := x mod text_width_pixels control / 8 in
  let ty := y mod text_height_pixels control / 8 in
  map_entry_address control x y =
  0x06000000 + 0x800 * block_of control tx ty + 2 * (32 * (ty mod 32) + tx mod 32) /\
  0 <= tx < text_width_pixels control / 8 /\ 0 <= ty < text_height_pixels control / 8.
Proof.
  intros (Hsb & _ & _). cbv zeta. destruct (text_sizes control) as (Hw & Hh & Hw2 & Hw3).
  pose proof (Z.mod_pos_bound x (text_width_pixels control) ltac:(lia)) as Hx.
  pose proof (Z.mod_pos_bound y (text_height_pixels control) ltac:(lia)) as Hy.
  unfold map_entry_address, kTilePixels.
  set (tx := x mod text_width_pixels control / 8). set (ty := y mod text_height_pixels control / 8).
  assert (Htx : 0 <= tx < text_width_pixels control / 8).
  { subst tx. Z.to_euclidean_division_equations. lia. }
  assert (Hty : 0 <= ty < text_height_pixels control / 8).
  { subst ty. Z.to_euclidean_division_equations. lia. }
  split; [|done]. clearbody tx ty. clear Hx Hy. unfold screenblock_for_tile, block_of.
  assert (0 <= tx / 32 <= 1) by (Z.to_euclidean_division_equations; lia).
  assert (0 <= ty / 32 <= 1) by (Z.to_euclidean_division_equations; lia).
  rewrite (wrap_id 8 (tx / 32)), (wrap_id 8 (ty / 32)) by (unfold fits; lia).
  set (off := if _ =? 64 then _ else _).
  assert (Hoff : 0 <= off <= 3 /\ off = tx / 32 + ty / 32 *
    (if text_map_width_tiles control =? 64 then 2 else 1)).
  { subst off. destruct (Z.eqb_spec (text_map_width_tiles control) 64).
    - rewrite wrap_id by (unfold fits; lia). lia.
    - assert (tx / 32 = 0); [|lia]. assert (tx < 32); [|Z.to_euclidean_division_equations; lia].
      destruct Hw3; [|done]. replace (text_width_pixels control) with 256 in Htx by lia. 
      change (256 / 8) with 32 in Htx. lia. }
  destruct Hoff as [Ho ->]. rewrite <- Z.add_assoc in *.
  change 0x1F with (Z.ones 5). rewrite Z.land_ones by lia. change (2 ^ 5) with 32.
  rewrite Z.add_assoc.
  set (blk := (screenblock control + tx / 32 + _) mod 32).
  assert (Hb : 0 <= blk < 32) by (subst blk; apply Z.mod_pos_bound; lia).
  clearbody blk. rewrite (wrap_id 8 blk) by (unfold fits; lia).
  unfold screenblock_base, kVramBase, kScreenblockBytes.
  change 0x1F with (Z.ones 5). rewrite Z.land_ones by lia. change (2 ^ 5) with 32.
  rewrite (Z.mod_small blk) by lia.
  pose proof (Z.mod_pos_bound tx 32 ltac:(lia)). pose proof (Z.mod_pos_bound ty 32 ltac:(lia)).
  rewrite (wrap_id 32 (blk * _)), (wrap_id 32 (ty mod 32 * 32 + _)) by (unfold fits; lia).
  rewrite (wrap_id 32 (_ + blk * _)), (wrap_id 32 (_ * 2)) by (unfold fits; lia).
  rewrite wrap_id by (unfold fits; lia). lia.
Qed.

(** the tile map of a text background: the entry of a pixel is a halfword
    of the background VRAM; two pixels share their entry exactly when the
    map, repeated in both directions, has them in the same 8x8 tile. *)
Theorem text_map_entries (control : BgControl) (x y x' y' : Z) :
  bg_ok control ->
  let a := map_entry_address control x y in
  (0x06000000 <= a <= 0x0600FFFE /\ a mod 2 = 0) /\
  (a = map_entry_address control x' y' <->
   x mod text_width_pixels control / 8 = x' mod text_width_pixels control / 8 /\
   y mod text_height_pixels control / 8 = y' mod text_height_pixels control / 8).
Proof.
  intros Hok. cbv zeta.
  destruct (map_entry_address_eq control x y Hok) as (-> & Hx & Hy).
  destruct (map_entry_address_eq control x' y' Hok) as (-> & Hx' & Hy').
  set (tx := _ / 8) in *. set (ty := y mod _ / 8) in *.
  set (tx' := x' mod _ / 8) in *. set (ty' := y' mod _ / 8) in *.
  clearbody tx ty tx' ty'. destruct (text_sizes control) as (Hw & Hh & Hw2 & Hw3).
  destruct Hok as (Hsb & _ & _). unfold block_of.
  set (m := if _ =? 64 then 2 else 1).
  assert (Hm : (m = 2 /\ tx < 64 /\ tx' < 64) \/ (m = 1 /\ tx < 32 /\ tx' < 32)).
  { subst m. destruct (Z.eqb_spec (text_map_width_tiles control) 64) as [E|E].
    - left. rewrite E in Hw2. rewrite Hw2 in *. change (8 * 64 / 8) with 64 in *. lia.
    - right. assert (E' : text_map_width_tiles control = 32) by tauto. rewrite E' in Hw2.
      rewrite Hw2 in *. change (8 * 32 / 8) with 32 in *. lia. }
  assert (ty < 64 /\ ty' < 64) by (destruct Hh as [E|E]; rewrite E in *;
    [change (256 / 8) with 32 in *|change (512 / 8) with 64 in *]; lia).
  clearbody m. clear Hh Hw Hw2 Hw3. generalize dependent (screenblock control). intros sb Hsb.
  destruct Hx as [Hx _], Hx' as [Hx' _], Hy as [Hy _], Hy' as [Hy' _].
  assert (Hpos : forall n, 0 <= n mod 32 < 32) by (intros n; apply Z.mod_pos_bound; lia).
  split.
  - pose proof (Hpos (sb + tx / 32 + ty / 32 * m)). pose proof (Hpos tx). pose proof (Hpos ty).
    split; [lia|].
    set (q := (sb + _ + _) mod 32).
    replace (0x6000000 + 0x800 * q + 2 * (32 * (ty mod 32) + tx mod 32))
      with ((0x3000000 + 0x400 * q + (32 * (ty mod 32) + tx mod 32)) * 2) by lia.
    apply Z_mod_mult.
  - split; [|by intros [-> ->]]. intros E.
    pose proof (Hpos (sb + tx / 32 + ty / 32 * m)). pose proof (Hpos tx). pose proof (Hpos ty).
    pose proof (Hpos (sb + tx' / 32 + ty' / 32 * m)). pose proof (Hpos tx'). pose proof (Hpos ty').
    assert (Eq : (sb + tx / 32 + ty / 32 * m) mod 32 = (sb + tx' / 32 + ty' / 32 * m) mod 32 /\
      tx mod 32 = tx' mod 32 /\ ty mod 32 = ty' mod 32) by lia.
    destruct Eq as (E1 & E2 & E3). clear E Hpos.
    destruct Hm as [(-> & ? & ?)|(-> & ? & ?)]; Z.to_euclidean_division_equations; lia.
Qed.

Lemma text_map_entries_witness :
  let a := map_entry_address (decode_control 0xDF8C) 300 77 in
  (0x06000000 <= a <= 0x0600FFFE /\ a mod 2 = 0) /\
  (a = map_entry_address (decode_control 0xDF8C) 815 591 <->
   300 mod text_width_pixels (decode_control 0xDF8C) / 8 =
   815 mod text_width_pixels (decode_control 0xDF8C) / 8 /\
   77 mod text_height_pixels (decode_control 0xDF8C) / 8 =
   591 mod text_height_pixels (decode_control 0xDF8C) / 8).
Proof. apply (text_map_entries _ 300 77 815 591), decode_control_ok. Defined.

(** ** Flips *)

(** What a background pixel shows. *)
Definition shown (p : option BgPixel) : option (Z * Z * bool) :=
  p ≫= fun p => Some (bp_color_index p, bp_color p, bp_transparent p).

(** The entry with its horizontal or vertical flip bit flipped. *)
Definition toggle_h (entry : Z) : Z := Z.lxor entry 0x0400.
Definition toggle_v (entry : Z) : Z := Z.lxor entry 0x0800.

Lemma land_lxor_disjoint x m k : Z.land m k = 0 -> Z.land (Z.lxor x m) k = Z.land x k.
Proof.
  intros H. apply Z.bits_inj'. intros i Hi. apply (f_equal (fun v => Z.testbit v i)) in H.
  rewrite Z.land_spec, Z.bits_0 in H. rewrite !Z.land_spec, Z.lxor_spec.
  destruct (Z.testbit x i), (Z.testbit m i), (Z.testbit k i); done.
Qed.

Lemma has_toggle x n : 0 <= n -> has (Z.lxor x (2 ^ n)) (2 ^ n) = negb (has x (2 ^ n)).
Proof.
  intros Hn. rewrite !has_bit, Z.lxor_spec, Z.pow2_bits_true by done. apply xorb_true_r.
Qed.

Lemma toggle_fields entry m :
  m = 0x0400 \/ m = 0x0800 ->
  Z.land (Z.lxor entry m) 0x03FF = Z.land entry 0x03FF /\
  Z.land (Z.shiftr (Z.lxor entry m) 12) 0xF = Z.land (Z.shiftr entry 12) 0xF.
Proof.
  intros Hm. split; [apply land_lxor_disjoint; by destruct Hm as [-> | ->]|].
  rewrite Z.shiftr_lxor. destruct Hm as [-> | ->]; cbn [Z.shiftr Z.shiftl];
    by rewrite land_lxor_disjoint.
Qed.

Section Flips.
Context {D : Type} (io : IoCallbacks D) (memory : Bus (D := D)).

Lemma flip_u8 n l : 0 <= l <= n -> n < 256 -> u8 (n - l) = n - l.
Proof. intros H Hn. apply wrap_id. unfold fits. lia. Qed.

Lemma has_flip_h entry :
  has (toggle_h entry) 0x0400 = negb (has entry 0x0400) /\
  has (toggle_h entry) 0x0800 = has entry 0x0800.
Proof.
  split; [by apply (has_toggle entry 10)|]. unfold has, toggle_h. by rewrite land_lxor_disjoint.
Qed.

Lemma has_flip_v entry :
  has (toggle_v entry) 0x0800 = negb (has entry 0x0800) /\
  has (toggle_v entry) 0x0400 = has entry 0x0400.
Proof.
  split; [by apply (has_toggle entry 11)|]. unfold has, toggle_v. by rewrite land_lxor_disjoint.
Qed.

(** A map entry with a flip bit toggled shows the mirror image of its
    tile, in each direction and colour mode. *)
Theorem tile_flips (control : BgControl) (lx ly entry : Z) :
  0 <= lx <= 7 -> 0 <= ly <= 7 ->
  shown (fetch_entry_pixel io memory control lx ly (toggle_h entry)) =
    shown (fetch_entry_pixel io memory control (7 - lx) ly entry) /\
  shown (fetch_entry_pixel io memory control lx ly (toggle_v entry)) =
    shown (fetch_entry_pixel io memory control lx (7 - ly) entry).
Proof.
  intros Hx Hy. unfold fetch_entry_pixel. cbv zeta.
  destruct (has_flip_h entry) as [-> ->], (has_flip_v entry) as [-> ->].
  destruct (toggle_fields entry 0x0400) as [Eh1 Eh2]; [by left|].
  destruct (toggle_fields entry 0x0800) as [Ev1 Ev2]; [by right|].
  fold (toggle_h entry) in Eh1, Eh2. fold (toggle_v entry) in Ev1, Ev2.
  rewrite Eh1, Eh2, Ev1, Ev2, !flip_u8 by lia.
  replace (7 - (7 - lx)) with lx by lia. replace (7 - (7 - ly)) with ly by lia.
  split; destruct (has entry 0x0400), (has entry 0x0800); cbn [negb];
    repeat (destruct (read8 _ _ _) || destruct (read_video16 _ _ _)); done.
Qed.

(** The sprite without its flips. *)
Definition unflipped (s : SpriteAttributes) : SpriteAttributes :=
  mkSpriteAttributes (attr0 s) (attr1 s) (attr2 s) (sp_x s) (sp_y s) (shape s) (size s) (width s)
    (height s) (tile_id s) (sp_priority s) (palette_bank s) (color_mode s)
    (affine_matrix_index s) (affine s) (double_size s) (disabled s) false false
    (semi_transparent s) (obj_window s) (mosaic_enabled s).

(** a flipped sprite shows at each pixel what the same sprite without
    flips shows at the mirrored pixel, for both mappings and colour modes. *)
Theorem sprite_flips (s : SpriteAttributes) (lx ly : Z) (character_mapping_1d : bool) :
  affine s = false -> double_size s = false -> width s <= 64 -> height s <= 64 ->
  0 <= lx < width s -> 0 <= ly < height s ->
  fetch_sprite_pixel io memory s lx ly character_mapping_1d =
  fetch_sprite_pixel io memory (unflipped s)
    (if hflip s then width s - 1 - lx else lx) (if vflip s then height s - 1 - ly else ly)
    character_mapping_1d.
Proof.
  intros Ha Hd Hw Hh Hx Hy. unfold fetch_sprite_pixel, sprite_texel.
  cbn [unflipped double_size width height disabled affine hflip vflip color_mode palette_bank].
  rewrite Ha, Hd, !flip_u8 by lia.
  assert (Hr : (width s <=? (if hflip s then width s - 1 - lx else lx)) = (width s <=? lx)).
  { destruct (hflip s); zcmp; done. }
  assert (Hr' : (height s <=? (if vflip s then height s - 1 - ly else ly)) = (height s <=? ly)).
  { destruct (vflip s); zcmp; done. }
  rewrite Hr, Hr'. done.
Qed.

(** The matrix of a sprite reads as the identity. *)
Definition identity_matrix (s : SpriteAttributes) : Prop :=
  read_affine_param io memory (affine_matrix_index s) 0 = Some 0x100 /\
  read_affine_param io memory (affine_matrix_index s) 1 = Some 0 /\
  read_affine_param io memory (affine_matrix_index s) 2 = Some 0 /\
  read_affine_param io memory (affine_matrix_index s) 3 = Some 0x100.

(** under the identity matrix an affine sprite shows its own texels: the
    texel of the pixel, which the double-size area has in its centre, and
    nothing outside the texture. *)
Theorem affine_identity (s : SpriteAttributes) (lx ly : Z) :
  affine s = true -> identity_matrix s -> 0 <= width s <= 64 -> 0 <= height s <= 64 ->
  width s mod 2 = 0 -> height s mod 2 = 0 -> 0 <= lx <= 255 -> 0 <= ly <= 255 ->
  let tx := if double_size s then lx - width s / 2 else lx in
  let ty := if double_size s then ly - height s / 2 else ly in
  sprite_texel io memory s lx ly =
  if bool_decide (0 <= tx < width s /\ 0 <= ty < height s) then Some (tx, ty) else None.
Proof.
  intros Ha (E0 & E1 & E2 & E3) Hw Hh Hw2 Hh2 Hx Hy. cbv zeta.
  unfold sprite_texel, affine_texture_coordinates. rewrite Ha, E0, E1, E2, E3.
  unfold transform. cbv zeta. rewrite !Z.shiftr_div_pow2 by lia. change (2 ^ 8) with 0x100.
  assert (Hsh : forall d e, (0x100 * d + 0 * e) / 0x100 = d).
  { intros d e. replace (0x100 * d + 0 * e) with (d * 0x100) by lia. by apply Z.div_mul. }
  assert (Hsh' : forall d e, (0 * d + 0x100 * e) / 0x100 = e).
  { intros d e. rewrite Z.add_comm. apply Hsh. }
  rewrite Hsh, Hsh'.
  assert (Htx : width s / 2 + (lx - (if double_size s then width s * 2 else width s) / 2) =
    if double_size s then lx - width s / 2 else lx).
  { destruct (double_size s); rewrite ?Z.div_mul by lia; Z.to_euclidean_division_equations; lia. }
  assert (Hty : height s / 2 + (ly - (if double_size s then height s * 2 else height s) / 2) =
    if double_size s then ly - height s / 2 else ly).
  { destruct (double_size s); rewrite ?Z.div_mul by lia; Z.to_euclidean_division_equations; lia. }
  rewrite Htx, Hty.
  set (tx := if double_size s then lx - _ else lx). set (ty := if double_size s then ly - _ else ly).
  clearbody tx ty. clear -Hw Hh. case_bool_decide as Hin.
  - rewrite !wrap_id by (unfold fits; lia). by zcmp.
  - by zcmp.
Qed.
End Flips.

Definition no_callbacks : IoCallbacks () := mkIoCallbacks None None None None.

Lemma tile_flips_witness :
  let control := decode_control 0x1F80 in
  shown (fetch_entry_pixel no_callbacks (initial, tt) control 2 5 (toggle_h 0x0C41)) =
    shown (fetch_entry_pixel no_callbacks (initial, tt) control (7 - 2) 5 0x0C41) /\
  shown (fetch_entry_pixel no_callbacks (initial, tt) control 2 5 (toggle_v 0x0C41)) =
    shown (fetch_entry_pixel no_callbacks (initial, tt) control 2 (7 - 5) 0x0C41).
Proof. apply (tile_flips no_callbacks (initial, tt)); lia. Defined.

Lemma sprite_flips_witness :
  let s := decode_sprite 0x0000 0x7000 0x0001 in
  fetch_sprite_pixel no_callbacks (initial, tt) s 3 9 true =
  fetch_sprite_pixel no_callbacks (initial, tt) (unflipped s)
    (if hflip s then width s - 1 - 3 else 3) (if vflip s then height s - 1 - 9 else 9) true.
Proof.
  apply (sprite_flips no_callbacks (initial, tt));
    reflexivity || by apply (bool_decide_unpack _).
Defined.

(** OAM with the identity matrix in its first parameter group. *)
Definition identity_oam : MemoryBus :=
  initial <| oam_ := <[7%nat := 1]> (<[31%nat := 1]> (replicate 1024 0)) |>.

Lemma affine_identity_witness :
  let s := decode_sprite 0x0300 0x4000 0x0001 in
  sprite_texel no_callbacks (identity_oam, tt) s 12 9 =
  if bool_decide (0 <= 12 - 16 / 2 < 16 /\ 0 <= 9 - 16 / 2 < 16)
  then Some (12 - 16 / 2, 9 - 16 / 2) else None.
Proof.
  apply (affine_identity no_callbacks (identity_oam, tt) (decode_sprite 0x0300 0x4000 0x0001) 12 9);
    reflexivity || (by apply (bool_decide_unpack _)) || (split_and!; vm_compute; reflexivity).
Defined.
