(* ===== verification/PpuRenderer.v ===== *)
(** * Scanline rendering

    [PpuRenderer] of [include/gba/core/ppu_renderer.hpp] and
    [src/core/ppu_renderer.cpp]: windows, mosaic, colour effects, sprite
    admission and the composition of a scanline.

    The framebuffer is a list of [kFramebufferPixels] colours; the rows of
    [render_scanline] indexed by [x] are lists of [kScreenWidth] elements. *)

From S2P Require Import Prelude BusTypes MemoryBus PpuTiming PpuBackground PpuSprites.

(* @ ppu_renderer.hpp:35-44 PpuRenderStats *)
Record PpuRenderStats : Type := mkPpuRenderStats {
  st_scanline : Z;
  st_bg_pixels : Z;
  st_obj_pixels : Z;
  st_supported_mode : bool;
  st_forced_blank : bool;
  st_bitmap_pixels : Z;
  st_window_masked_pixels : Z;
  st_blend_pixels : Z
}.

(* @ ppu_renderer.hpp:48-48 PpuRenderer::kScreenWidth *)
Definition kScreenWidth : Z := 240.
(* @ ppu_renderer.hpp:49-49 PpuRenderer::kScreenHeight *)
Definition kScreenHeight : Z := 160.
(* @ ppu_renderer.hpp:50-51 PpuRenderer::kFramebufferPixels *)
Definition kFramebufferPixels : Z := kScreenWidth * kScreenHeight.

(* @ ppu_renderer.cpp:8-8 kBgEnableBase *)
Definition kBgEnableBase : Z := 0x0100.
(* @ ppu_renderer.cpp:9-9 kObjEnable *)
Definition kObjEnable : Z := 0x1000.
(* @ ppu_renderer.cpp:10-10 kWin0Enable *)
Definition kWin0Enable : Z := 0x2000.
(* @ ppu_renderer.cpp:11-11 kWin1Enable *)
Definition kWin1Enable : Z := 0x4000.
(* @ ppu_renderer.cpp:12-12 kObjWindowEnable *)
Definition kObjWindowEnable : Z := 0x8000.
(* @ ppu_renderer.cpp:13-13 kCharacterMapping1D *)
Definition kCharacterMapping1D : Z := 0x0040.
(* @ ppu_renderer.cpp:14-14 kHblankIntervalFree *)
Definition kHblankIntervalFree : Z := 0x0020.
(* @ ppu_renderer.cpp:15-15 kWindowLayerMask *)
Definition kWindowLayerMask : Z := 0x003F.
(* @ ppu_renderer.cpp:16-16 kWindowEffectsBit *)
Definition kWindowEffectsBit : Z := 0x0020.
(* @ ppu_renderer.cpp:17-17 kBackdropLayerBit *)
Definition kBackdropLayerBit : Z := 5.
(* @ ppu_renderer.cpp:18-18 kForcedBlank *)
Definition kForcedBlank : Z := 0x0080.
(* @ ppu_renderer.cpp:19-19 kDisplayFrameSelect *)
Definition kDisplayFrameSelect : Z := 0x0010.
(* @ ppu_renderer.cpp:20-20 kModeMask *)
Definition kModeMask : Z := 0x0007.
(* @ ppu_renderer.cpp:21-21 kBgMosaicEnable *)
Definition kBgMosaicEnable : Z := 0x0040.
(* @ ppu_renderer.cpp:22-22 kBackdropColorAddress *)
Definition kBackdropColorAddress : Z := 0x05000000.
(* @ ppu_renderer.cpp:23-23 kBitmapBaseAddress *)
Definition kBitmapBaseAddress : Z := 0x06000000.
(* @ ppu_renderer.cpp:24-24 kBitmapPageSize *)
Definition kBitmapPageSize : Z := 0xA000.
(* @ ppu_renderer.cpp:25-25 kMode5Width *)
Definition kMode5Width : Z := 160.
(* @ ppu_renderer.cpp:29-29 kEffectAlpha *)
Definition kEffectAlpha : Z := 0x0040.
(* @ ppu_renderer.cpp:30-30 kEffectBrightnessIncrease *)
Definition kEffectBrightnessIncrease : Z := 0x0080.
(* @ ppu_renderer.cpp:31-31 kEffectBrightnessDecrease *)
Definition kEffectBrightnessDecrease : Z := 0x00C0.
(* @ ppu_renderer.cpp:32-32 kColorMask *)
Definition kColorMask : Z := 0x7FFF.

(* @ ppu_renderer.cpp:34-36 normalize_color *)
Definition normalize_color (color : Z) : Z := u16 (Z.land color kColorMask).

(* @ ppu_renderer.cpp:38-42 sprite_screen_width *)
Definition sprite_screen_width (sprite : SpriteAttributes) : Z :=
  i16 (if affine sprite && double_size sprite then width sprite * 2 else width sprite).

(* @ ppu_renderer.cpp:44-48 sprite_screen_height *)
Definition sprite_screen_height (sprite : SpriteAttributes) : Z :=
  i16 (if affine sprite && double_size sprite then height sprite * 2 else height sprite).

(* @ ppu_renderer.cpp:52-58 line_intersects_sprite *)
Definition line_intersects_sprite (sprite : SpriteAttributes) (scanline : Z) : bool :=
  let delta := u32 (scanline - u16 (sp_y sprite)) in
  Z.land delta 0xFF <? u32 (sprite_screen_height sprite).

(* @ ppu_renderer.cpp:60-62 bg_enabled *)
Definition bg_enabled (dispcnt bg_index : Z) : bool :=
  has dispcnt (u16 (Z.shiftl kBgEnableBase bg_index)).

(* @ ppu_renderer.cpp:64-73 text_bg_available_in_mode *)
Definition text_bg_available_in_mode (mode bg_index : Z) : bool :=
  if mode =? 0 then bg_index <? 4
  else if mode =? 1 then bg_index <? 2
  else false.

(* @ ppu_renderer.cpp:75-84 affine_bg_available_in_mode *)
Definition affine_bg_available_in_mode (mode bg_index : Z) : bool :=
  if mode =? 1 then bg_index =? 2
  else if mode =? 2 then (bg_index =? 2) || (bg_index =? 3)
  else false.

(** ** Windows *)

(** One axis of a window: [first <= v < last], wrapping when the edges are
    swapped. *)
(* @ ppu_renderer.cpp:93-94 inside_window_rect *)
Definition inside_edges (first last v : Z) : bool :=
  if first <=? last then (first <=? v) && (v <? last) else (first <=? v) || (v <? last).

(* @ ppu_renderer.cpp:86-96 inside_window_rect *)
Definition inside_window_rect (horizontal vertical x y : Z) : bool :=
  let x1 := u8 (Z.land (Z.shiftr horizontal 8) 0xFF) in
  let x2 := u8 (Z.land horizontal 0xFF) in
  let y1 := u8 (Z.land (Z.shiftr vertical 8) 0xFF) in
  let y2 := u8 (Z.land vertical 0xFF) in
  inside_edges x1 x2 x && inside_edges y1 y2 y.

(* @ ppu_renderer.cpp:98-122 window_layer_mask *)
Definition window_layer_mask (control : PpuRenderControl) (x y : Z) (obj_window_hit : bool) : Z :=
  let win0_on := has (dispcnt control) kWin0Enable in
  let win1_on := has (dispcnt control) kWin1Enable in
  let obj_window_on := has (dispcnt control) kObjWindowEnable in
  if negb win0_on && negb win1_on && negb obj_window_on then kWindowLayerMask
  else if win0_on && inside_window_rect (win0h control) (win0v control) x y
  then u16 (Z.land (winin control) kWindowLayerMask)
  else if win1_on && inside_window_rect (win1h control) (win1v control) x y
  then u16 (Z.land (Z.shiftr (winin control) 8) kWindowLayerMask)
  else if obj_window_on && obj_window_hit
  then u16 (Z.land (Z.shiftr (winout control) 8) kWindowLayerMask)
  else u16 (Z.land (winout control) kWindowLayerMask).

(* @ ppu_renderer.cpp:124-126 mosaic_block *)
Definition mosaic_block (coord size : Z) : Z :=
  if size <=? 1 then coord else u16 (coord / size * size).

(** ** Colour effects *)

(* @ ppu_renderer.cpp:128-134 alpha_blend_channel *)
Definition alpha_blend_channel (first second eva evb : Z) : Z :=
  let blended := u32 (Z.shiftr (first * eva + second * evb) 4) in
  u16 (if 31 <? blended then 31 else blended).

(** One channel of [alpha_blend], at [shift]. *)
(* @ ppu_renderer.cpp:142-147 alpha_blend *)
Definition alpha_blend_at (top bottom eva evb shift result : Z) : Z :=
  let first := u16 (Z.land (Z.shiftr top shift) 0x1F) in
  let second := u16 (Z.land (Z.shiftr bottom shift) 0x1F) in
  u16 (Z.lor result (Z.shiftl (alpha_blend_channel first second eva evb) shift)).

(* @ ppu_renderer.cpp:136-150 alpha_blend *)
Definition alpha_blend (top bottom eva evb : Z) : Z :=
  let top := normalize_color top in
  let bottom := normalize_color bottom in
  fold_left (fun result shift => alpha_blend_at top bottom eva evb shift result) [0; 5; 10] 0.

(** The channel function of [brightness_blend]. *)
(* @ ppu_renderer.cpp:159-164 brightness_blend *)
Definition brightness_channel (amount : Z) (increase : bool) (channel : Z) : Z :=
  if increase then u16 (channel + Z.shiftr (u32 ((31 - channel) * amount)) 4)
  else u16 (channel - Z.shiftr (channel * amount) 4).

(* @ ppu_renderer.cpp:152-169 brightness_blend *)
Definition brightness_blend (color amount : Z) (increase : bool) : Z :=
  let color := normalize_color color in
  let red := brightness_channel amount increase (u16 (Z.land color 0x1F)) in
  let green := brightness_channel amount increase (u16 (Z.land (Z.shiftr color 5) 0x1F)) in
  let blue := brightness_channel amount increase (u16 (Z.land (Z.shiftr color 10) 0x1F)) in
  u16 (Z.lor (Z.lor red (Z.shiftl green 5)) (Z.shiftl blue 10)).

(** ** Candidates *)

(* @ ppu_renderer.cpp:197-201 PixelCandidate *)
Record PixelCandidate : Type := mkPixelCandidate {
  pc_color : Z;
  layer_bit : Z;
  pc_priority : Z
}.

(** OBJ precedes BG0, BG1, BG2, BG3, then the backdrop. *)
(* @ ppu_renderer.cpp:208-210 precedes *)
Definition layer_order (candidate : PixelCandidate) : Z :=
  if layer_bit candidate =? 4 then 0 else layer_bit candidate + 1.

(* @ ppu_renderer.cpp:203-212 precedes *)
Definition precedes (candidate other : PixelCandidate) : bool :=
  if negb (pc_priority candidate =? pc_priority other)
  then pc_priority candidate <? pc_priority other
  else layer_order candidate <? layer_order other.

(** The two foremost candidates, [best] and [second]. *)
Definition Foremost : Type := PixelCandidate * PixelCandidate.

(* @ ppu_renderer.cpp:419-428 PpuRenderer::render_scanline (consider) *)
Definition consider (candidate : PixelCandidate) (f : Foremost) : bool * Foremost :=
  let '(best, second) := f in
  if precedes candidate best then (true, (candidate, best))
  else if precedes candidate second then (false, (best, candidate))
  else (false, (best, second)).

(* @ ppu_renderer.cpp:214-222 AffineParams *)
Record AffineParams : Type := mkAffineParams {
  present : bool;
  pa : Z;
  pb : Z;
  pc : Z;
  pd : Z;
  reference_x : Z;
  reference_y : Z
}.

(* @ ppu_renderer.cpp:224-227 sign_extend_reference *)
Definition sign_extend_reference (raw28 : Z) : Z := Z.shiftr (i32 (Z.shiftl raw28 4)) 4.

(* @ ppu_renderer.cpp:229-231 sign_extend_affine_param *)
Definition sign_extend_affine_param (raw : Z) : Z := i16 raw.

(** [array.at(index)] of a register bank of four. *)
Definition bank_at (l : list Z) (index : Z) : Z := default 0 (l !! Z.to_nat index).

(** The parameters of an affine background; BG2 only in mode 1. *)
(* @ ppu_renderer.cpp:354-370 PpuRenderer::render_scanline *)
Definition affine_params (control : PpuRenderControl) (mode bg_index : Z) : AffineParams :=
  if ((mode =? 1) || (mode =? 2)) && (2 <=? bg_index) && (bg_index <? 4) &&
     negb ((mode =? 1) && negb (bg_index =? 2))
  then
    mkAffineParams true
      (sign_extend_affine_param (bank_at (bg_affine_pa control) bg_index))
      (sign_extend_affine_param (bank_at (bg_affine_pb control) bg_index))
      (sign_extend_affine_param (bank_at (bg_affine_pc control) bg_index))
      (sign_extend_affine_param (bank_at (bg_affine_pd control) bg_index))
      (sign_extend_reference (bank_at (bg_reference_x control) bg_index))
      (sign_extend_reference (bank_at (bg_reference_y control) bg_index))
  else mkAffineParams false 0 0 0 0 0 0.

Section Render.
Context {D : Type} (io : IoCallbacks D) (memory : Bus (D := D)).

(* @ ppu_renderer.cpp:171-195 fetch_bitmap_pixel *)
Definition fetch_bitmap_pixel (control : PpuRenderControl) (mode x y : Z) : option Z :=
  let page := if has (dispcnt control) kDisplayFrameSelect then kBitmapPageSize else 0 in
  if mode =? 3 then read16 io (u32 (kBitmapBaseAddress + u32 (u32 (y * 240 + x) * 2))) memory
  else if mode =? 4 then
    match read8 io (u32 (kBitmapBaseAddress + page + u32 (y * 240) + x)) memory with
    | None => None
    | Some color_index =>
        if color_index =? 0 then None
        else read16 io (u32 (kBackdropColorAddress + u32 (color_index * 2))) memory
    end
  else if mode =? 5 then
    read16 io (u32 (kBitmapBaseAddress + page + u32 (u32 (y * kMode5Width + x) * 2))) memory
  else None.

(** *** Sprite admission *)

(** The pixels of a sprite left of the screen that cost nothing. *)
(* @ ppu_renderer.cpp:307-314 PpuRenderer::render_scanline *)
Definition sprite_left_prefix (sprite : SpriteAttributes) (screen_width : Z) : Z :=
  if sp_x sprite <? 0 then
    let offscreen := u16 (- sp_x sprite) in
    let left_prefix := if offscreen <? screen_width then offscreen else screen_width in
    if negb (affine sprite) then Z.land left_prefix 0xFFFE else left_prefix
  else 0.

(** The work of fetching [fetch_width] pixels. *)
(* @ ppu_renderer.cpp:319-319 PpuRenderer::render_scanline *)
Definition sprite_cycles (sprite : SpriteAttributes) (fetch_width : Z) : Z :=
  u16 (if affine sprite then 10 + fetch_width * 2 else fetch_width).

(** The pixels that fit the remaining allowance. *)
(* @ ppu_renderer.cpp:320-327 PpuRenderer::render_scanline *)
Definition sprite_admitted_width (sprite : SpriteAttributes) (fetch_width remaining : Z) : Z :=
  if remaining <? sprite_cycles sprite fetch_width then
    u16 (if affine sprite then (if 10 <? remaining then (remaining - 10) / 2 else 0)
         else remaining)
  else fetch_width.

(** The loop over OAM: the sprites of the line in order, each with the end of
    its admitted pixels, while the allowance [remaining] lasts. *)
(* @ ppu_renderer.cpp:291-337 PpuRenderer::render_scanline *)
Fixpoint admit_sprites (scanline : Z) (indices : list Z) (remaining : Z)
    : list (SpriteAttributes * Z) :=
  match indices with
  | [] => []
  | index :: indices' =>
      match read_sprite io memory index with
      | None => admit_sprites scanline indices' remaining
      | Some sprite =>
          if disabled sprite || negb (line_intersects_sprite sprite scanline)
          then admit_sprites scanline indices' remaining
          else if remaining =? 0 then []
          else
            let screen_width := u16 (sprite_screen_width sprite) in
            let left_prefix := sprite_left_prefix sprite screen_width in
            let fetch_width := u16 (screen_width - left_prefix) in
            if fetch_width =? 0 then admit_sprites scanline indices' remaining
            else
              let cycles := sprite_cycles sprite fetch_width in
              let admitted_width := sprite_admitted_width sprite fetch_width remaining in
              if admitted_width =? 0 then []
              else
                (sprite, u16 (left_prefix + admitted_width)) ::
                admit_sprites scanline indices'
                  (if remaining <=? cycles then 0 else u16 (remaining - cycles))
      end
  end.

(* @ ppu_renderer.cpp:269-337 PpuRenderer::render_scanline *)
Definition active_sprites (control : PpuRenderControl) (scanline : Z)
    : list (SpriteAttributes * Z) :=
  if has (dispcnt control) kObjEnable then
    admit_sprites scanline (map Z.of_nat (seq 0 (Z.to_nat kSpriteCount)))
      (if has (dispcnt control) kHblankIntervalFree then 954 else 1210)
  else [].

(** *** The OBJ row *)

(* @ ppu_renderer.cpp:374-376 PpuRenderer::render_scanline *)
Record ObjRow : Type := mkObjRow {
  obj_row : list (option PixelCandidate);
  obj_semi_row : list bool;
  obj_window_row : list bool
}.

#[export] Instance eta_ObjRow : Eta ObjRow := fun r =>
  mkObjRow (obj_row r) (obj_semi_row r) (obj_window_row r).

(* @ ppu_renderer.cpp:374-376 PpuRenderer::render_scanline *)
Definition empty_obj_row : ObjRow :=
  mkObjRow (replicate (Z.to_nat kScreenWidth) None) (replicate (Z.to_nat kScreenWidth) false)
    (replicate (Z.to_nat kScreenWidth) false).

Definition row_at (l : list bool) (x : Z) : bool := default false (l !! Z.to_nat x).

Definition candidate_at (l : list (option PixelCandidate)) (x : Z) : option PixelCandidate :=
  default None (l !! Z.to_nat x).

(** The sizes of an OBJ mosaic block. *)
(* @ ppu_renderer.cpp:342-345 PpuRenderer::render_scanline *)
Definition obj_mosaic (control : PpuRenderControl) : Z * Z :=
  (u16 (Z.land (Z.shiftr (mosaic control) 8) 0xF + 1),
   u16 (Z.land (Z.shiftr (mosaic control) 12) 0xF + 1)).

(** The sizes of a background mosaic block. *)
(* @ ppu_renderer.cpp:339-341 PpuRenderer::render_scanline *)
Definition bg_mosaic (control : PpuRenderControl) : Z * Z :=
  (u16 (Z.land (mosaic control) 0xF + 1),
   u16 (Z.land (Z.shiftr (mosaic control) 4) 0xF + 1)).

(** One pixel of a sprite. *)
(* @ ppu_renderer.cpp:391-404 PpuRenderer::render_scanline *)
Definition draw_sprite_pixel (control : PpuRenderControl) (sprite : SpriteAttributes)
    (local_y : Z) (color_mosaic : bool) (x : Z) (row : ObjRow) : ObjRow :=
  if (if obj_window sprite then row_at (obj_window_row row) x
      else bool_decide (is_Some (candidate_at (obj_row row) x)))
  then row
  else
    let local_x := u8 (x - sp_x sprite) in
    let local_x := if color_mosaic then u8 (mosaic_block local_x (obj_mosaic control).1)
                   else local_x in
    match fetch_sprite_pixel io memory sprite local_x local_y
            (has (dispcnt control) kCharacterMapping1D) with
    | None => row
    | Some pixel =>
        if px_transparent pixel then row
        else if obj_window sprite then
          row <| obj_window_row ::= <[Z.to_nat x := true]> |>
        else
          row <| obj_row ::= <[Z.to_nat x :=
                   Some (mkPixelCandidate (normalize_color (px_color pixel)) 4
                           (sp_priority sprite))]> |>
              <| obj_semi_row ::= <[Z.to_nat x := semi_transparent sprite]> |>
    end.

(** The pixels [x .. x + n). *)
(* @ ppu_renderer.cpp:390-405 PpuRenderer::render_scanline *)
Fixpoint draw_sprite_span (control : PpuRenderControl) (sprite : SpriteAttributes)
    (local_y : Z) (color_mosaic : bool) (x : Z) (n : nat) (row : ObjRow) : ObjRow :=
  match n with
  | O => row
  | S n' =>
      draw_sprite_span control sprite local_y color_mosaic (x + 1) n'
        (draw_sprite_pixel control sprite local_y color_mosaic x row)
  end.

(* @ ppu_renderer.cpp:377-406 PpuRenderer::render_scanline *)
Definition draw_sprite (control : PpuRenderControl) (scanline : Z) (row : ObjRow)
    (active : SpriteAttributes * Z) : ObjRow :=
  let '(sprite, sprite_end) := active in
  if obj_window sprite && negb (has (dispcnt control) kObjWindowEnable) then row
  else
    let start_x := if sp_x sprite <? 0 then 0 else sp_x sprite in
    let right := sp_x sprite + sprite_end in
    let end_x := if right <? kScreenWidth then right else kScreenWidth in
    let local_y := u8 (Z.land (u32 (scanline - u16 (sp_y sprite))) 0xFF) in
    let color_mosaic := mosaic_enabled sprite && negb (obj_window sprite) in
    let local_y := if color_mosaic then u8 (mosaic_block local_y (obj_mosaic control).2)
                   else local_y in
    draw_sprite_span control sprite local_y color_mosaic start_x (Z.to_nat (end_x - start_x)) row.

(* @ ppu_renderer.cpp:372-406 PpuRenderer::render_scanline *)
Definition resolve_obj_row (control : PpuRenderControl) (scanline : Z) : ObjRow :=
  fold_left (draw_sprite control scanline) (active_sprites control scanline) empty_obj_row.

(** *** Composition of a pixel *)

(** The candidates of a pixel so far and the number that became foremost. *)
Definition Mix : Type := Foremost * Z.

(** [if (consider(candidate)) ++bg_pixels]. *)
(* @ ppu_renderer.cpp:454-456 PpuRenderer::render_scanline *)
Definition consider_bg (candidate : PixelCandidate) (m : Mix) : Mix :=
  let '(f, bg_pixels) := m in
  let '(won, f) := consider candidate f in
  (f, if won then u16 (bg_pixels + 1) else bg_pixels).

(* @ ppu_renderer.cpp:432-457 PpuRenderer::render_scanline *)
Definition mix_text_bg (control : PpuRenderControl) (mode layer_mask x scanline : Z) (m : Mix)
    (bg_index : Z) : Mix :=
  if negb (text_bg_available_in_mode mode bg_index) ||
     negb (bg_enabled (dispcnt control) bg_index) ||
     negb (has layer_mask (u16 (Z.shiftl 1 bg_index)))
  then m
  else
    let bg := decode_control (bank_at (bg_control control) bg_index) in
    let mosaic_on := has (bg_raw bg) kBgMosaicEnable in
    let sample_x := if mosaic_on then mosaic_block x (bg_mosaic control).1 else x in
    let sample_y := if mosaic_on then mosaic_block scanline (bg_mosaic control).2 else scanline in
    match fetch_text_pixel io memory bg
            (u16 (sample_x + bank_at (bg_scroll_x control) bg_index))
            (u16 (sample_y + bank_at (bg_scroll_y control) bg_index)) with
    | None => m
    | Some pixel =>
        if bp_transparent pixel then m
        else
          consider_bg (mkPixelCandidate (normalize_color (bp_color pixel)) bg_index
                         (bg_priority bg)) m
    end.

(* @ ppu_renderer.cpp:459-493 PpuRenderer::render_scanline *)
Definition mix_affine_bg (control : PpuRenderControl) (mode layer_mask x scanline : Z) (m : Mix)
    (bg_index : Z) : Mix :=
  let params := affine_params control mode bg_index in
  if negb (present params) ||
     negb (affine_bg_available_in_mode mode bg_index) ||
     negb (bg_enabled (dispcnt control) bg_index) ||
     negb (has layer_mask (u16 (Z.shiftl 1 bg_index)))
  then m
  else
    let bg := decode_control (bank_at (bg_control control) bg_index) in
    let mosaic_on := has (bg_raw bg) kBgMosaicEnable in
    let dx := if mosaic_on then mosaic_block x (bg_mosaic control).1 else x in
    let dy := if mosaic_on then mosaic_block scanline (bg_mosaic control).2 else scanline in
    let tex_x_raw := reference_x params + pa params * dx + pb params * dy in
    let tex_y_raw := reference_y params + pc params * dx + pd params * dy in
    match fetch_affine_pixel io memory bg (i32 (Z.shiftr tex_x_raw 8))
            (i32 (Z.shiftr tex_y_raw 8)) with
    | None => m
    | Some pixel =>
        if ap_transparent pixel then m
        else
          consider_bg (mkPixelCandidate (normalize_color (ap_color pixel)) bg_index
                         (bg_priority bg)) m
    end.

(** The counters a scanline accumulates. *)
Record Counts : Type := mkCounts {
  bg_pixels : Z;
  obj_pixels : Z;
  bitmap_pixels : Z;
  window_masked_pixels : Z;
  blend_pixels : Z
}.

#[export] Instance eta_Counts : Eta Counts := fun c =>
  mkCounts (bg_pixels c) (obj_pixels c) (bitmap_pixels c) (window_masked_pixels c)
    (blend_pixels c).

Definition succ16 (n : Z) : Z := u16 (n + 1).

(** The layers of a pixel: the foremost two candidates, whether the winner is
    a semi-transparent OBJ, and the counters. *)
(* @ ppu_renderer.cpp:408-519 PpuRenderer::render_scanline *)
Definition mix_layers (control : PpuRenderControl) (mode scanline backdrop layer_mask : Z)
    (row : ObjRow) (x : Z) (c : Counts) : Foremost * bool * Counts :=
  let base := mkPixelCandidate backdrop kBackdropLayerBit 4 in
  let c := if layer_mask =? 0 then c <| window_masked_pixels ::= succ16 |> else c in
  if layer_mask =? 0 then ((base, base), false, c)
  else
    let m := ((base, base), bg_pixels c) in
    let m := if text_bg_available_in_mode mode 0
             then fold_left (mix_text_bg control mode layer_mask x scanline) [0; 1; 2; 3] m
             else m in
    let m := if (mode =? 1) || (mode =? 2)
             then fold_left (mix_affine_bg control mode layer_mask x scanline) [2; 3] m
             else m in
    let '(f, n) := m in
    let c := c <| bg_pixels := n |> in
    let '(f, c) :=
      if (3 <=? mode) && has layer_mask (u16 (Z.shiftl 1 2)) then
        match fetch_bitmap_pixel control mode x scanline with
        | Some bitmap =>
            ((consider (mkPixelCandidate (normalize_color bitmap) 2 0) f).2,
             c <| bitmap_pixels ::= succ16 |>)
        | None => (f, c)
        end
      else (f, c) in
    if has (dispcnt control) kObjEnable && has layer_mask (u16 (Z.shiftl 1 4)) then
      match candidate_at (obj_row row) x with
      | Some candidate =>
          let '(won, f) := consider candidate f in
          if won then (f, row_at (obj_semi_row row) x, c <| obj_pixels ::= succ16 |>)
          else (f, false, c)
      | None => (f, false, c)
      end
    else (f, false, c).

(** The colour effect of the foremost two candidates: the colour and whether
    it was blended. *)
(* @ ppu_renderer.cpp:521-551 PpuRenderer::render_scanline *)
Definition apply_effects (control : PpuRenderControl) (layer_mask : Z) (f : Foremost)
    (winner_is_semi_transparent : bool) : Z * bool :=
  let '(best, second) := f in
  let color := normalize_color (pc_color best) in
  let effect := u16 (Z.land (bldcnt control) 0x00C0) in
  let effects_allowed := has layer_mask kWindowEffectsBit in
  let first_target := has (bldcnt control) (u16 (Z.shiftl 1 (layer_bit best))) in
  let second_target := has (bldcnt control) (u16 (Z.shiftl 1 (layer_bit second + 8))) in
  let forced_obj_alpha := (layer_bit best =? 4) && winner_is_semi_transparent in
  let do_alpha :=
    effects_allowed && second_target &&
    (forced_obj_alpha || ((effect =? kEffectAlpha) && first_target)) in
  let do_brightness :=
    effects_allowed && negb do_alpha &&
    ((effect =? kEffectBrightnessIncrease) || (effect =? kEffectBrightnessDecrease)) &&
    first_target in
  if do_alpha then
    let eva := u16 (Z.land (bldalpha control) 0x1F) in
    let evb := u16 (Z.land (Z.shiftr (bldalpha control) 8) 0x1F) in
    (alpha_blend (pc_color best) (pc_color second) eva evb, true)
  else if do_brightness then
    let amount := u16 (Z.land (bldy control) 0x1F) in
    if negb (amount =? 0)
    then (brightness_blend color amount (effect =? kEffectBrightnessIncrease), true)
    else (color, false)
  else (color, false).

(** The index of a pixel in the framebuffer. *)
Definition pixel_index (x y : Z) : nat := Z.to_nat (y * kScreenWidth + x).

(* @ ppu_renderer.cpp:408-556 PpuRenderer::render_scanline *)
Definition render_pixel (control : PpuRenderControl) (mode scanline backdrop : Z) (row : ObjRow)
    (st : Counts * list Z) (x : Z) : Counts * list Z :=
  let '(c, framebuffer) := st in
  let layer_mask := window_layer_mask control x scanline (row_at (obj_window_row row) x) in
  let '(f, semi, c) := mix_layers control mode scanline backdrop layer_mask row x c in
  let '(color, blended) := apply_effects control layer_mask f semi in
  let c := if blended then c <| blend_pixels ::= succ16 |> else c in
  (c, <[pixel_index x scanline := normalize_color color]> framebuffer).

(** The columns of the screen. *)
Definition columns : list Z := map Z.of_nat (seq 0 (Z.to_nat kScreenWidth)).

(** A row of one colour. *)
(* @ ppu_renderer.cpp:256-258 PpuRenderer::render_scanline *)
Definition blank_row (scanline : Z) (framebuffer : list Z) : list Z :=
  fold_left (fun fb x => <[pixel_index x scanline := 0x7FFF]> fb) columns framebuffer.

(* @ ppu_renderer.cpp:243-290 PpuRenderer::render_scanline *)
Definition render_scanline (control : PpuRenderControl) (scanline : Z) (framebuffer : list Z)
    : PpuRenderStats * list Z :=
  if kScreenHeight <=? scanline
  then (mkPpuRenderStats scanline 0 0 false false 0 0 0, framebuffer)
  else
    let mode := u8 (Z.land (dispcnt control) kModeMask) in
    let supported_mode := mode <=? 5 in
    if negb supported_mode then
      (mkPpuRenderStats scanline 0 0 false false 0 0 0, blank_row scanline framebuffer)
    else
      let backdrop := normalize_color (default 0 (read16 io kBackdropColorAddress memory)) in
      if has (dispcnt control) kForcedBlank then
        (mkPpuRenderStats scanline 0 0 supported_mode true 0 0 0,
         blank_row scanline framebuffer)
      else
        let row := resolve_obj_row control scanline in
        let '(c, framebuffer) :=
          fold_left (render_pixel control mode scanline backdrop row) columns
            (mkCounts 0 0 0 0 0, framebuffer) in
        (mkPpuRenderStats scanline (bg_pixels c) (obj_pixels c) supported_mode false
           (bitmap_pixels c) (window_masked_pixels c) (blend_pixels c), framebuffer).
End Render.

(* @ ppu_renderer.cpp:239-241 PpuRenderer::clear *)
Definition clear (color : Z) : list Z := replicate (Z.to_nat kFramebufferPixels) color.

(* @ ppu_renderer.cpp:562-567 PpuRenderer::pixel *)
Definition pixel (x y : Z) (framebuffer : list Z) : Z :=
  if (kScreenWidth <=? x) || (kScreenHeight <=? y) then 0
  else default 0 (framebuffer !! pixel_index x y).
