(* ===== verification/PpuRendererSpec.v ===== *)
(** * Properties of the scanline renderer

    The composition of a pixel picks the two foremost visible layers
    ([Foremost2]), a scanline writes its own row and nothing else, the colour
    effects act on each channel, and sprite admission stays in its cycle
    allowance. *)

From Stdlib Require Import Permutation.
From S2P Require Import Prelude BusTypes MemoryBus PpuTiming PpuBackground PpuSprites PpuRenderer.

(** ** The two foremost candidates *)

(** [best] and [second] are the first two of [cs] in the order of
    [precedes], which never puts a later candidate in front of them. *)
Definition Foremost2 (cs : list PixelCandidate) (best second : PixelCandidate) : Prop :=
  exists rest, Permutation cs (best :: second :: rest) /\
    precedes second best = false /\
    Forall (fun c => precedes c second = false) rest.

Lemma precedes_iff a b :
  precedes a b = true <->
  pc_priority a < pc_priority b \/
  (pc_priority a = pc_priority b /\ layer_order a < layer_order b).
Proof.
  unfold precedes. destruct (Z.eqb_spec (pc_priority a) (pc_priority b)); cbn [negb];
    rewrite Z.ltb_lt; lia.
Qed.

Lemma precedes_false a b :
  precedes a b = false <->
  pc_priority b < pc_priority a \/
  (pc_priority a = pc_priority b /\ layer_order b <= layer_order a).
Proof. rewrite <- not_true_iff_false, precedes_iff. lia. Qed.

Ltac precedence := rewrite ?precedes_false, ?precedes_iff in *; lia.

Lemma consider_foremost c cs best second :
  Foremost2 cs best second ->
  let f := (consider c (best, second)).2 in Foremost2 (cs ++ [c]) f.1 f.2.
Proof.
  intros (rest & Hp & Hb & Hr). unfold consider.
  assert (Hp' : Permutation (cs ++ [c]) (c :: best :: second :: rest)).
  { rewrite <- Hp. symmetry. apply Permutation_cons_append. }
  destruct (precedes c best) eqn:E1; [|destruct (precedes c second) eqn:E2]; cbn [snd fst].
  - exists (second :: rest). split; [done|]. split; [precedence|]. constructor; [done|].
    eapply List.Forall_impl; [|exact Hr]. cbn. intros d Hd. precedence.
  - exists (second :: rest). split; [rewrite Hp'; apply perm_swap|]. split; [done|].
    constructor; [precedence|]. eapply List.Forall_impl; [|exact Hr]. cbn. intros d Hd. precedence.
  - exists (c :: rest). split.
    + rewrite Hp'. etrans; [apply perm_swap|]. apply perm_skip, perm_swap.
    + split; [done|]. by constructor.
Qed.

(** [consider] over a list of candidates. *)
Definition consider_all (cs : list PixelCandidate) (f : Foremost) : Foremost :=
  fold_left (fun f c => (consider c f).2) cs f.

Lemma consider_all_foremost cs base :
  let f := consider_all cs (base, base) in Foremost2 (base :: base :: cs) f.1 f.2.
Proof.
  induction cs as [|c cs IH] using rev_ind.
  - exists []. split; [done|]. split; [|done]. cbn. precedence.
  - unfold consider_all in *. rewrite fold_left_app. cbn [fold_left]. cbv zeta in *.
    destruct (fold_left _ cs _) as [best second]. by apply (consider_foremost c) in IH.
Qed.

(** ** The visible layers of a pixel *)

Section Layers.
Context {D : Type} (io : IoCallbacks D) (memory : Bus (D := D)).
Context (control : PpuRenderControl) (mode layer_mask x scanline : Z) (row : ObjRow).

(** The pixel a text background shows, when the background is displayed and
    its texel opaque. *)
Definition text_layer (bg_index : Z) : option PixelCandidate :=
  if text_bg_available_in_mode mode bg_index && bg_enabled (dispcnt control) bg_index &&
     has layer_mask (u16 (Z.shiftl 1 bg_index))
  then
    let bg := decode_control (bank_at (bg_control control) bg_index) in
    let mosaic_on := has (bg_raw bg) kBgMosaicEnable in
    let sx := if mosaic_on then mosaic_block x (bg_mosaic control).1 else x in
    let sy := if mosaic_on then mosaic_block scanline (bg_mosaic control).2 else scanline in
    fetch_text_pixel io memory bg (u16 (sx + bank_at (bg_scroll_x control) bg_index))
      (u16 (sy + bank_at (bg_scroll_y control) bg_index)) ≫= fun pixel =>
    if bp_transparent pixel then None
    else Some (mkPixelCandidate (normalize_color (bp_color pixel)) bg_index (bg_priority bg))
  else None.

Definition affine_layer (bg_index : Z) : option PixelCandidate :=
  let params := affine_params control mode bg_index in
  if present params && affine_bg_available_in_mode mode bg_index &&
     bg_enabled (dispcnt control) bg_index && has layer_mask (u16 (Z.shiftl 1 bg_index))
  then
    let bg := decode_control (bank_at (bg_control control) bg_index) in
    let mosaic_on := has (bg_raw bg) kBgMosaicEnable in
    let dx := if mosaic_on then mosaic_block x (bg_mosaic control).1 else x in
    let dy := if mosaic_on then mosaic_block scanline (bg_mosaic control).2 else scanline in
    fetch_affine_pixel io memory bg
      (i32 (Z.shiftr (reference_x params + pa params * dx + pb params * dy) 8))
      (i32 (Z.shiftr (reference_y params + pc params * dx + pd params * dy) 8)) ≫= fun pixel =>
    if ap_transparent pixel then None
    else Some (mkPixelCandidate (normalize_color (ap_color pixel)) bg_index (bg_priority bg))
  else None.

Definition bitmap_layer : option PixelCandidate :=
  if (3 <=? mode) && has layer_mask (u16 (Z.shiftl 1 2)) then
    fetch_bitmap_pixel io memory control mode x scanline ≫= fun color =>
    Some (mkPixelCandidate (normalize_color color) 2 0)
  else None.

Definition obj_layer : option PixelCandidate :=
  if has (dispcnt control) kObjEnable && has layer_mask (u16 (Z.shiftl 1 4))
  then candidate_at (obj_row row) x
  else None.

Definition visible_layers : list PixelCandidate :=
  omap text_layer (if text_bg_available_in_mode mode 0 then [0; 1; 2; 3] else []) ++
  omap affine_layer (if (mode =? 1) || (mode =? 2) then [2; 3] else []) ++
  option_list bitmap_layer ++ option_list obj_layer.

Lemma consider_bg_fst c m : (consider_bg c m).1 = (consider c m.1).2.
Proof. unfold consider_bg. destruct m as [f n]. cbn [fst]. by destruct (consider c f). Qed.

Lemma mix_text_layer m i :
  (mix_text_bg io memory control mode layer_mask x scanline m i).1 =
  consider_all (option_list (text_layer i)) m.1.
Proof.
  unfold mix_text_bg, text_layer. rewrite <- !negb_andb.
  destruct (_ && _ && _); [|done]. cbn [negb]. cbv zeta.
  destruct (fetch_text_pixel _ _ _ _ _) as [p|]; [|done]. simpl.
  destruct (bp_transparent p); [done|]. apply consider_bg_fst.
Qed.

Lemma mix_affine_layer m i :
  (mix_affine_bg io memory control mode layer_mask x scanline m i).1 =
  consider_all (option_list (affine_layer i)) m.1.
Proof.
  unfold mix_affine_bg, affine_layer. cbv zeta. rewrite <- !negb_andb.
  destruct (_ && _ && _ && _); [|done]. cbn [negb].
  destruct (fetch_affine_pixel _ _ _ _ _) as [p|]; [|done]. simpl.
  destruct (ap_transparent p); [done|]. apply consider_bg_fst.
Qed.

Lemma consider_all_app cs cs' f :
  consider_all (cs ++ cs') f = consider_all cs' (consider_all cs f).
Proof. apply fold_left_app. Qed.

(** A fold that considers one optional layer at a time. *)
Lemma fold_layers {A} (step : A -> Z -> A) (get : A -> Foremost) layer :
  (forall m i, get (step m i) = consider_all (option_list (layer i)) (get m)) ->
  forall ids m, get (fold_left step ids m) = consider_all (omap layer ids) (get m).
Proof.
  intros H ids. induction ids as [|i ids IH]; intros m; [done|]. cbn [fold_left].
  rewrite IH, H. cbn. by destruct (layer i).
Qed.

Lemma mix_layers_consider backdrop c :
  layer_mask <> 0 ->
  (mix_layers io memory control mode scanline backdrop layer_mask row x c).1.1 =
  consider_all visible_layers
    (mkPixelCandidate backdrop kBackdropLayerBit 4, mkPixelCandidate backdrop kBackdropLayerBit 4).
Proof.
  intros Hm. unfold mix_layers. destruct (Z.eqb_spec layer_mask 0) as [|_]; [done|].
  set (base := mkPixelCandidate _ _ _).
  unfold visible_layers. rewrite !consider_all_app.
  set (m0 := (base, base, bg_pixels c)).
  set (m1 := if text_bg_available_in_mode mode 0 
    then fold_left (mix_text_bg io memory control mode layer_mask x scanline) [0; 1; 2; 3] m0
    else m0).
  assert (H1 : m1.1 = consider_all (omap text_layer
    (if text_bg_available_in_mode mode 0 then [0; 1; 2; 3] else [])) (base, base)).
  { subst m1. destruct (text_bg_available_in_mode mode 0); [|done].
    apply (fold_layers _ fst). apply mix_text_layer. }
  rewrite <- H1.
  set (m2 := if (mode =? 1) || (mode =? 2) 
    then fold_left (mix_affine_bg io memory control mode layer_mask x scanline) [2; 3] m1
    else m1).
  assert (H2 : m2.1 = consider_all (omap affine_layer
    (if (mode =? 1) || (mode =? 2) then [2; 3] else [])) m1.1).
  { subst m2. destruct (_ || _); [|done]. apply (fold_layers _ fst). apply mix_affine_layer. }
  rewrite <- H2. destruct m2 as [f2 n2]. cbn [fst].
  unfold bitmap_layer, obj_layer.
  assert (Hobj : forall f c,
    (if has (dispcnt control) kObjEnable && has layer_mask (u16 (Z.shiftl 1 4)) then
       match candidate_at (obj_row row) x with
       | Some candidate =>
           let '(won, f) := consider candidate f in
           if won then (f, row_at (obj_semi_row row) x, c <| obj_pixels ::= succ16 |>)
           else (f, false, c)
       | None => (f, false, c)
       end
     else (f, false, c)).1.1 =
    consider_all (option_list
      (if has (dispcnt control) kObjEnable && has layer_mask (u16 (Z.shiftl 1 4))
       then candidate_at (obj_row row) x else None)) f).
  { intros f c0. destruct (_ && _); [|done]. destruct (candidate_at _ _) as [cand|]; [|done].
    change (option_list (Some cand)) with [cand]. unfold consider_all. cbn [fold_left].
    by destruct (consider cand f) as [[] f']. }
  destruct ((3 <=? mode) && _); [|apply Hobj].
  destruct (fetch_bitmap_pixel _ _ _ _ _ _) as [p|]; apply Hobj.
Qed.
End Layers.


(** Mode 0, every register zero. *)
Definition blank_control : PpuRenderControl :=
  mkPpuRenderControl 0 [0; 0; 0; 0] [0; 0; 0; 0] [0; 0; 0; 0] 0 0 0 0 0 0 0 0 0
    [0; 0; 0; 0] [0; 0; 0; 0] [0; 0; 0; 0] [0; 0; 0; 0] [0; 0; 0; 0] [0; 0; 0; 0] 0.


(** ** The framebuffer *)

Section Frame.
Context {D : Type} (io : IoCallbacks D) (memory : Bus (D := D)).

(** [fb'] is [fb] with row [y] replaced by the colours [row]. *)
Definition row_written (y : Z) (row : Z -> option Z) (fb fb' : list Z) : Prop :=
  length fb' = length fb /\
  forall i, 0 <= i < Z.of_nat (length fb) ->
    fb' !! Z.to_nat i =
    if decide (i / kScreenWidth = y) then row (i mod kScreenWidth) else fb !! Z.to_nat i.

(** Writing the columns of a row, one after the other. *)
Lemma fold_row {S} (y : Z) (get : S -> list Z) (step : S -> Z -> S) (color : Z -> S -> Z) (s : S) :
  0 <= y < kScreenHeight ->
  (forall s x, get (step s x) = <[pixel_index x y := color x s]> (get s)) ->
  (forall x s, fits 15 (color x s)) ->
  Z.of_nat (length (get s)) = kFramebufferPixels ->
  exists row, (forall x, 0 <= x < kScreenWidth -> exists v, row x = Some v /\ fits 15 v) /\
    row_written y row (get s) (get (fold_left step columns s)).
Proof.
  intros Hy Hstep Hfit Hlen. unfold columns, kFramebufferPixels, kScreenHeight, kScreenWidth in *.
  set (n := Z.to_nat 240) in *.
  assert (Hn : exists row, (forall x, 0 <= x < Z.of_nat n -> exists v, row x = Some v /\ fits 15 v) /\
    length (get (fold_left step (map Z.of_nat (seq 0 n)) s)) = length (get s) /\
    forall i, 0 <= i < Z.of_nat (length (get s)) ->
      get (fold_left step (map Z.of_nat (seq 0 n)) s) !! Z.to_nat i =
      if decide (y * 240 <= i < y * 240 + Z.of_nat n) then row (i - y * 240)
      else get s !! Z.to_nat i).
  { assert (Hle : (n <= 240)%nat) by (subst n; lia). clearbody n.
    induction n as [|n IH].
    - exists (fun _ => None). split; [lia|]. split; [done|]. intros i Hi.
      rewrite decide_False by lia. done.
    - destruct IH as (row & Hrow & Hl & Hi); [lia|].
      rewrite seq_S, map_app, fold_left_app. cbn [map fold_left Nat.add].
      set (s1 := fold_left step _ s) in *. rewrite Hstep.
      exists (fun x => if decide (x = Z.of_nat n) then Some (color (Z.of_nat n) s1) else row x).
      split; [|split].
      + intros x Hx. case_decide; [by eexists|]. apply Hrow. lia.
      + by rewrite length_insert.
      + intros i Hb. unfold pixel_index, kScreenWidth.
        destruct (decide (i = y * 240 + Z.of_nat n)) as [->|Hne].
        * rewrite list_lookup_insert_eq by lia.
          rewrite decide_True by lia. by rewrite decide_True by lia.
        * rewrite list_lookup_insert_ne by lia. rewrite Hi by lia.
          do 2 case_decide; try lia; [|done]. by rewrite decide_False by lia. }
  destruct Hn as (row & Hrow & Hl & Hi). exists row. split; [by apply Hrow|].
  split; [done|]. intros i Hb. rewrite Hi by done. unfold kScreenWidth.
  replace (Z.of_nat n) with 240 by (subst n; lia).
  do 2 case_decide; try (exfalso; Z.to_euclidean_division_equations; lia); [|done].
  f_equal. Z.to_euclidean_division_equations. lia.
Qed.

Lemma normalize_fits c : fits 15 (normalize_color c).
Proof.
  unfold normalize_color. rewrite wrap_id.
  - apply fits_land_r; [lia|by vm_compute].
  - apply (fits_mono 15); [lia|]. apply fits_land_r; [lia|by vm_compute].
Qed.

(** What a scanline writes does not depend on the framebuffer it is written to:
    framebuffers that agree on [P] then agree on the row as well. *)
Definition agree (P : nat -> Prop) (fb fb' : list Z) : Prop :=
  length fb = length fb' /\ forall i, P i -> fb !! i = fb' !! i.

Lemma agree_insert (P : nat -> Prop) k v fb fb' : agree P fb fb' ->
  agree (fun i => P i \/ i = k) (<[k := v]> fb) (<[k := v]> fb').
Proof using.
  intros [Hl H]. split; [by rewrite !length_insert|]. intros i Hi.
  rewrite !list_lookup_insert, Hl. case_decide as E; [done|].
  destruct Hi as [Hi| ->]; [by apply H|]. by rewrite !lookup_ge_None_2 by lia.
Qed.

Lemma agree_mono (P Q : nat -> Prop) fb fb' : (forall i, Q i -> P i) -> agree P fb fb' -> agree Q fb fb'.
Proof using. intros HP [Hl H]. split; [done|]. auto. Qed.

Lemma fold_agree {S R} (get : S -> list Z) (rest : S -> R) (step : S -> Z -> S) (index : Z -> nat)
    (l : list Z) (P : nat -> Prop) (s s' : S) :
  (forall s s' x, rest s = rest s' -> rest (step s x) = rest (step s' x) /\
     exists v, get (step s x) = <[index x := v]> (get s) /\
               get (step s' x) = <[index x := v]> (get s')) ->
  rest s = rest s' -> agree P (get s) (get s') ->
  rest (fold_left step l s) = rest (fold_left step l s') /\
  agree (fun i => P i \/ exists x, In x l /\ i = index x)
    (get (fold_left step l s)) (get (fold_left step l s')).
Proof using.
  intros Hstep. revert P s s'. induction l as [|x l IH]; intros P s s' Hr Ha; cbn [fold_left].
  { split; [done|]. revert Ha. apply agree_mono. intros i [H|(x & [] & _)]. done. }
  destruct (Hstep s s' x Hr) as (Hr' & v & E & E').
  destruct (IH (fun i => P i \/ i = index x) (step s x) (step s' x) Hr') as [Hf Ha'].
  { rewrite E, E'. by apply agree_insert. }
  split; [done|]. revert Ha'. apply agree_mono. intros i [H|(y & [<-|Hy] & H)]; eauto.
Qed.

Lemma render_scanline_agree (control : PpuRenderControl) (y : Z) (fb fb' : list Z) (P : nat -> Prop) :
  y < kScreenHeight -> agree P fb fb' ->
  (render_scanline io memory control y fb).1 = (render_scanline io memory control y fb').1 /\
  agree (fun i => P i \/ exists x, In x columns /\ i = pixel_index x y)
    (render_scanline io memory control y fb).2 (render_scanline io memory control y fb').2.
Proof using.
  intros Hy Ha.
  assert (Hb : agree (fun i => P i \/ exists x, In x columns /\ i = pixel_index x y)
                 (blank_row y fb) (blank_row y fb')).
  { apply (fold_agree (fun l => l) (fun _ => tt)); [|done|done]. intros l l' x _. split; [done|]. eauto. }
  unfold render_scanline. destruct (Z.leb_spec kScreenHeight y); [lia|].
  case_match; [by split|]. case_match; [by split|].
  destruct (fold_agree snd fst
    (render_pixel io memory control (u8 (Z.land (dispcnt control) kModeMask)) y
       (normalize_color (default 0 (read16 io kBackdropColorAddress memory)))
       (resolve_obj_row io memory control y)) (fun x => pixel_index x y) columns P
    (mkCounts 0 0 0 0 0, fb) (mkCounts 0 0 0 0 0, fb')) as [Hc Hf]; [|done|done|].
  - intros [c l] [c' l'] x E. cbn in E. subst c'. unfold render_pixel.
    destruct (mix_layers _ _ _ _ _ _ _ _ _ _) as [[f semi] c2].
    destruct (apply_effects _ _ _ _) as [color blended]. split; [done|]. eauto.
  - destruct (fold_left _ _ (_, fb)) as [c1 f1], (fold_left _ _ (_, fb')) as [c2 f2].
    cbn [fst snd] in *. by subst c2.
Qed.

(** Rendering a visible scanline writes each pixel of its row, with a
    15-bit colour, and leaves the rest of the framebuffer and its size as they
    were. *)
Lemma render_scanline_frame (control : PpuRenderControl) (scanline : Z) (fb : list Z) :
  0 <= scanline < kScreenHeight -> Z.of_nat (length fb) = kFramebufferPixels ->
  exists row, (forall x, 0 <= x < kScreenWidth -> exists v, row x = Some v /\ fits 15 v) /\
    row_written scanline row fb (render_scanline io memory control scanline fb).2.
Proof.
  intros Hs Hl.
  assert (Hblank : exists row,
    (forall x, 0 <= x < kScreenWidth -> exists v, row x = Some v /\ fits 15 v) /\
    row_written scanline row fb (blank_row scanline fb)).
  { apply (fold_row scanline (fun fb => fb) _ (fun _ _ => 0x7FFF)); try done. }
  unfold render_scanline. destruct (Z.leb_spec kScreenHeight scanline); [lia|].
  destruct (negb _); [done|]. destruct (has _ kForcedBlank); [done|].
  set (mode := u8 _). set (backdrop := normalize_color _). set (row := resolve_obj_row _ _ _ _).
  set (color := fun x (s : Counts * list Z) =>
    let layer_mask := window_layer_mask control x scanline (row_at (obj_window_row row) x) in
    let '(f, semi, c) := mix_layers io memory control mode scanline backdrop layer_mask row x s.1 in
    normalize_color (apply_effects control layer_mask f semi).1).
  destruct (fold_row scanline snd (render_pixel io memory control mode scanline backdrop row) color
    (mkCounts 0 0 0 0 0, fb)) as (r & Hr & Hw); [done|..].
  - intros [c l] x. unfold render_pixel. subst color. cbv beta zeta. cbn [fst snd].
    destruct (mix_layers io memory _ _ _ _ _ _ _ _) as [[f semi] c']. by destruct (apply_effects _ _ _ _).
  - intros x s. subst color. cbv beta zeta. destruct (mix_layers io memory _ _ _ _ _ _ _ _) as [[f semi] c'].
    apply normalize_fits.
  - done.
  - exists r. split; [done|]. by destruct (fold_left _ _ _).
Qed.
End Frame.

Lemma render_scanline_frame_witness :
  exists row, (forall x, 0 <= x < kScreenWidth -> exists v, row x = Some v /\ fits 15 v) /\
    row_written 5 row (clear 0x1234)
      (render_scanline (mkIoCallbacks None None None None) (initial, tt)
         blank_control 5 (clear 0x1234)).2.
Proof.
  apply (render_scanline_frame (mkIoCallbacks None None None None) (initial, tt)
    blank_control 5 (clear 0x1234)).
  - by apply (bool_decide_unpack _).
  - vm_compute. reflexivity.
Defined.

(** ** Colour effects *)

(** Channel [k] (red, green, blue) of a 15-bit colour. *)
Definition channel (k color : Z) : Z := Z.land (Z.shiftr color (5 * k)) 0x1F.

Lemma channel_fits k c : fits 5 (channel k c).
Proof. apply fits_land_r; [lia|by vm_compute]. Qed.

Lemma testbit_channel k c i :
  0 <= k -> 0 <= i < 5 -> Z.testbit (channel k c) i = Z.testbit c (i + 5 * k).
Proof.
  intros Hk Hi. unfold channel. change 0x1F with (Z.ones 5).
  rewrite Z.land_spec, Z.shiftr_spec, Z.testbit_ones_nonneg by lia. zcmp. apply andb_true_r.
Qed.

Definition pack (r g b : Z) : Z := Z.lor (Z.lor r (Z.shiftl g 5)) (Z.shiftl b 10).

Lemma pack_fits r g b : fits 5 r -> fits 5 g -> fits 5 b -> fits 15 (pack r g b).
Proof.
  intros Hr Hg Hb. unfold fits in *. unfold pack.
  apply fits_lor; [lia|apply fits_lor; [lia| |]|]; unfold fits; rewrite ?Z.shiftl_mul_pow2 by lia;
    lia.
Qed.

Lemma channel_pack k r g b :
  fits 5 r -> fits 5 g -> fits 5 b -> 0 <= k <= 2 ->
  channel k (pack r g b) = if k =? 0 then r else if k =? 1 then g else b.
Proof.
  intros Hr Hg Hb Hk. apply (bits_ext 5); [lia|apply channel_fits|by repeat case_match|].
  intros i Hi. rewrite testbit_channel by lia. unfold pack.
  rewrite !Z.lor_spec, !Z.shiftl_spec by lia.
  assert (k = 0 \/ k = 1 \/ k = 2) as [-> | [-> | ->]] by lia; cbn [Z.eqb].
  - rewrite (Z.testbit_neg_r g), (Z.testbit_neg_r b) by lia. rewrite !orb_false_r. f_equal. lia.
  - rewrite (Z.testbit_neg_r b), (fits_testbit_high 5 ltac:(lia) r) by (done || lia).
    rewrite orb_false_r. cbn [orb]. f_equal. lia.
  - rewrite (fits_testbit_high 5 ltac:(lia) r), (fits_testbit_high 5 ltac:(lia) g) by (done || lia).
    cbn [orb]. f_equal. lia.
Qed.

Lemma channel_normalize k c : 0 <= k <= 2 -> channel k (normalize_color c) = channel k c.
Proof.
  intros Hk. apply (bits_ext 5); [lia|apply channel_fits..|]. intros i Hi.
  rewrite !testbit_channel by lia. unfold normalize_color. change kColorMask with (Z.ones 15).
  rewrite testbit_wrap, Z.land_spec, Z.testbit_ones_nonneg by lia. zcmp. apply andb_true_r.
Qed.

Lemma u16_channel k c : u16 (channel k c) = channel k c.
Proof. apply wrap_id, (fits_mono 5); [lia|apply channel_fits]. Qed.

Lemma channel_range k c : 0 <= channel k c <= 31.
Proof. pose proof (channel_fits k c) as H. unfold fits in H. lia. Qed.

(** The blend of one channel. *)
Definition blended (first second eva evb : Z) : Z := Z.min 31 ((first * eva + second * evb) / 16).

Lemma alpha_blend_channel_eq first second eva evb :
  0 <= first <= 31 -> 0 <= second <= 31 -> 0 <= eva <= 31 -> 0 <= evb <= 31 ->
  alpha_blend_channel first second eva evb = blended first second eva evb.
Proof.
  intros H1 H2 H3 H4. unfold alpha_blend_channel, blended. rewrite Z.shiftr_div_pow2 by lia.
  change (2 ^ 4) with 16. assert (0 <= first * eva + second * evb <= 1922) by nia.
  set (x := first * eva + second * evb) in *. clearbody x.
  assert (0 <= x / 16 <= 120) by (Z.to_euclidean_division_equations; lia).
  rewrite (wrap_id 32 (x / 16)) by (unfold fits; lia).
  rewrite wrap_id; [zcmp|unfold fits; zcmp].
Qed.

Lemma blended_fits first second eva evb :
  0 <= first <= 31 -> 0 <= second <= 31 -> 0 <= eva <= 31 -> 0 <= evb <= 31 ->
  fits 5 (blended first second eva evb).
Proof.
  intros H1 H2 H3 H4. unfold blended, fits. assert (0 <= first * eva + second * evb) by nia.
  Z.to_euclidean_division_equations. lia.
Qed.

Lemma alpha_blend_at_eq k top bottom eva evb result :
  0 <= k <= 2 -> 0 <= eva <= 31 -> 0 <= evb <= 31 ->
  alpha_blend_at (normalize_color top) (normalize_color bottom) eva evb (5 * k) result =
  u16 (Z.lor result (Z.shiftl (blended (channel k top) (channel k bottom) eva evb) (5 * k))).
Proof.
  intros Hk Ha Hb. unfold alpha_blend_at.
  fold (channel k (normalize_color top)) (channel k (normalize_color bottom)).
  rewrite !u16_channel, !channel_normalize by done.
  by rewrite alpha_blend_channel_eq by (done || apply channel_range).
Qed.

Lemma alpha_blend_pack top bottom eva evb :
  0 <= eva <= 31 -> 0 <= evb <= 31 ->
  alpha_blend top bottom eva evb =
  pack (blended (channel 0 top) (channel 0 bottom) eva evb)
    (blended (channel 1 top) (channel 1 bottom) eva evb)
    (blended (channel 2 top) (channel 2 bottom) eva evb).
Proof.
  intros Ha Hb. unfold alpha_blend. cbv zeta. cbn [fold_left].
  pose proof (fun k => alpha_blend_at_eq k top bottom eva evb) as E.
  pose proof (fun result => E 0 result ltac:(lia) Ha Hb) as E0.
  pose proof (fun result => E 1 result ltac:(lia) Ha Hb) as E1.
  pose proof (fun result => E 2 result ltac:(lia) Ha Hb) as E2.
  change (5 * 0) with 0 in E0. change (5 * 1) with 5 in E1. change (5 * 2) with 10 in E2.
  rewrite E0, E1, E2, Z.lor_0_l, Z.shiftl_0_r.
  assert (Hf : forall k, fits 5 (blended (channel k top) (channel k bottom) eva evb)).
  { intros k. apply blended_fits; try done; apply channel_range. }
  pose proof (Hf 0) as H0. pose proof (Hf 1) as H1. pose proof (Hf 2) as H2.
  set (r := blended (channel 0 top) _ _ _) in *. set (g := blended (channel 1 top) _ _ _) in *.
  set (b := blended (channel 2 top) _ _ _) in *. clearbody r g b. clear -H0 H1 H2.
  assert (Hg : fits 16 (Z.shiftl g 5)) by (unfold fits in *; rewrite Z.shiftl_mul_pow2; lia).
  assert (Hb : fits 16 (Z.shiftl b 10)) by (unfold fits in *; rewrite Z.shiftl_mul_pow2; lia).
  assert (Hr : fits 16 r) by (unfold fits in *; lia).
  rewrite (wrap_id 16 r) by done. rewrite (wrap_id 16 (Z.lor r _)) by (apply fits_lor; done || lia).
  rewrite wrap_id; [done|]. repeat (apply fits_lor; [lia| |done]). done.
Qed.

(** Alpha blending acts on each channel alone: a channel of the result is
    the weighted sum of the channels of the two layers in sixteenths,
    saturated at 31, and the result is a 15-bit colour. *)
Theorem alpha_blend_channels (top bottom eva evb k : Z) :
  0 <= eva <= 31 -> 0 <= evb <= 31 -> 0 <= k <= 2 ->
  fits 15 (alpha_blend top bottom eva evb) /\
  channel k (alpha_blend top bottom eva evb) =
  Z.min 31 ((channel k top * eva + channel k bottom * evb) / 16).
Proof.
  intros Ha Hb Hk. rewrite alpha_blend_pack by done.
  assert (Hf : forall k, fits 5 (blended (channel k top) (channel k bottom) eva evb)).
  { intros j. apply blended_fits; try done; apply channel_range. }
  split; [by apply pack_fits|]. rewrite channel_pack by done.
  by assert (k = 0 \/ k = 1 \/ k = 2) as [-> | [-> | ->]] by lia.
Qed.

Lemma alpha_blend_channels_witness :
  fits 15 (alpha_blend 0x7C1F 0x03E0 16 8) /\
  channel 1 (alpha_blend 0x7C1F 0x03E0 16 8) =
  Z.min 31 ((channel 1 0x7C1F * 16 + channel 1 0x03E0 * 8) / 16).
Proof. apply (alpha_blend_channels 0x7C1F 0x03E0 16 8 1); lia. Defined.

(** The brightness of one channel. *)
Definition brightened (amount : Z) (increase : bool) (c : Z) : Z :=
  if increase then c + (31 - c) * amount / 16 else c - c * amount / 16.

Lemma brightness_channel_eq amount increase c :
  0 <= amount <= 16 -> 0 <= c <= 31 ->
  brightness_channel amount increase c = brightened amount increase c /\
  fits 5 (brightened amount increase c).
Proof.
  intros Ha Hc. unfold brightness_channel, brightened. rewrite !Z.shiftr_div_pow2 by lia.
  change (2 ^ 4) with 16. assert (0 <= (31 - c) * amount <= (31 - c) * 16) by nia.
  assert (0 <= c * amount <= c * 16) by nia.
  set (x := (31 - c) * amount) in *. set (y := c * amount) in *. clearbody x y.
  rewrite (wrap_id 32 x) by (unfold fits; lia). unfold fits.
  destruct increase; (split; [apply wrap_id; unfold fits|]);
    Z.to_euclidean_division_equations; lia.
Qed.

(** For the sixteen steps of BLDY, brightening and darkening act on each
    channel alone, moving it toward 31 or 0 by that many sixteenths, and the
    result is a 15-bit colour. *)
Theorem brightness_channels (color amount k : Z) (increase : bool) :
  0 <= amount <= 16 -> 0 <= k <= 2 ->
  fits 15 (brightness_blend color amount increase) /\
  channel k (brightness_blend color amount increase) =
  (if increase then channel k color + (31 - channel k color) * amount / 16
   else channel k color - channel k color * amount / 16).
Proof.
  intros Ha Hk. unfold brightness_blend. cbv zeta.
  pose proof (fun j Hj => channel_normalize j color Hj) as Hn.
  pose proof (Hn 0 ltac:(lia)) as E0. pose proof (Hn 1 ltac:(lia)) as E1.
  pose proof (Hn 2 ltac:(lia)) as E2. unfold channel in E0 at 1, E1 at 1, E2 at 1.
  change (5 * 0) with 0 in E0. change (5 * 1) with 5 in E1. change (5 * 2) with 10 in E2.
  rewrite Z.shiftr_0_r in E0. rewrite E0, E1, E2, !u16_channel.
  destruct (brightness_channel_eq amount increase (channel 0 color) Ha (channel_range _ _)) as [-> F0].
  destruct (brightness_channel_eq amount increase (channel 1 color) Ha (channel_range _ _)) as [-> F1].
  destruct (brightness_channel_eq amount increase (channel 2 color) Ha (channel_range _ _)) as [-> F2].
  fold (pack (brightened amount increase (channel 0 color))
    (brightened amount increase (channel 1 color)) (brightened amount increase (channel 2 color))).
  pose proof (pack_fits _ _ _ F0 F1 F2) as Hp.
  rewrite wrap_id by (apply (fits_mono 15); [lia|done]). split; [done|].
  rewrite channel_pack by done.
  by assert (k = 0 \/ k = 1 \/ k = 2) as [-> | [-> | ->]] by lia.
Qed.

Lemma brightness_channels_witness :
  fits 15 (brightness_blend 0x1234 16 true) /\
  channel 2 (brightness_blend 0x1234 16 true) =
  channel 2 0x1234 + (31 - channel 2 0x1234) * 16 / 16.
Proof. apply (brightness_channels 0x1234 16 2 true); lia. Defined.

(** Past sixteen steps, which the register accepts, a channel overflows into
    its neighbour: black brightened by 17 is 0x0420 on screen, not white. *)
Example brightness_overflow :
  normalize_color (brightness_blend 0x0000 16 true) = 0x7FFF /\
  normalize_color (brightness_blend 0x0000 17 true) = 0x0420.
Proof. split; reflexivity. Qed.

(** ** Sprite admission *)

Section Admission.
Context {D : Type} (io : IoCallbacks D) (memory : Bus (D := D)).

Lemma sprite_dimensions_range shape size :
  0 <= (sprite_dimensions shape size).1 <= 64 /\ 0 <= (sprite_dimensions shape size).2 <= 64.
Proof.
  unfold sprite_dimensions, kSpriteSizes.
  generalize (Z.to_nat shape) (Z.to_nat size). intros i j.
  do 5 (destruct i as [|i]; [do 5 (destruct j as [|j]; [cbn; lia|]); cbn; lia|]). cbn; lia.
Qed.

Lemma read_sprite_width index sprite :
  read_sprite io memory index = Some sprite -> 0 <= width sprite <= 64.
Proof.
  unfold read_sprite. repeat case_match; intros [= <-] || done. unfold decode_sprite.
  match goal with
  | |- context [sprite_dimensions ?s ?z] =>
      pose proof (sprite_dimensions_range s z) as [Hw _]; destruct (sprite_dimensions s z)
  end. exact Hw.
Qed.

Lemma screen_width_range sprite :
  0 <= width sprite <= 64 ->
  0 <= u16 (sprite_screen_width sprite) <= 128.
Proof.
  intros Hw. unfold sprite_screen_width.
  assert (H : 0 <= (if affine sprite && double_size sprite then width sprite * 2
                    else width sprite) <= 128) by (case_match; lia).
  revert H. generalize (if affine sprite && double_size sprite then width sprite * 2
                        else width sprite). intros w H.
  assert (E : i16 w = w).
  { unfold swrap. rewrite wrap_id by (unfold fits; lia). change (2 ^ (16 - 1)) with 32768. by zcmp. }
  rewrite E, wrap_id by (unfold fits; lia). lia.
Qed.

Lemma left_prefix_range sprite w :
  0 <= w -> 0 <= sprite_left_prefix sprite w <= w.
Proof.
  intros Hw. unfold sprite_left_prefix. destruct (sp_x sprite <? 0); [|lia]. cbv zeta.
  pose proof (wrap_fits 16 ltac:(lia) (- sp_x sprite)) as Ho. unfold fits in Ho.
  set (o := u16 _) in *. set (p := if o <? w then o else w).
  assert (0 <= p <= w) by (subst p; destruct (Z.ltb_spec o w); lia).
  destruct (negb _); [|done]. split; [apply Z.land_nonneg; lia|].
  pose proof (land_le p 0xFFFE); lia.
Qed.

(** The cycles the pixel fetches of an admitted sprite take. *)
Definition admitted_cycles (admitted : SpriteAttributes * Z) : Z :=
  let '(sprite, sprite_end) := admitted in
  sprite_cycles sprite (sprite_end - sprite_left_prefix sprite (u16 (sprite_screen_width sprite))).

Definition total_cycles (l : list (SpriteAttributes * Z)) : Z :=
  foldr (fun a n => admitted_cycles a + n) 0 l.

Lemma sprite_cycles_eq sprite w :
  0 <= w <= 128 -> sprite_cycles sprite w = if affine sprite then 10 + w * 2 else w.
Proof. intros Hw. apply wrap_id. unfold fits. case_match; lia. Qed.

(** The part of a sprite that is admitted. *)
Lemma admitted_width_range sprite w remaining :
  0 < w <= 128 -> 0 <= remaining < 0x10000 ->
  let a := sprite_admitted_width sprite w remaining in
  0 <= a <= w /\ (a <> 0 -> sprite_cycles sprite a <= remaining) /\
  (sprite_cycles sprite w <= remaining -> a = w).
Proof.
  intros Hw Hr. cbv zeta. unfold sprite_admitted_width. rewrite sprite_cycles_eq by lia.
  destruct (Z.ltb_spec remaining (if affine sprite then 10 + w * 2 else w)) as [Hlt|Hge].
  - assert (Ha : 0 <= (if affine sprite then (if 10 <? remaining then (remaining - 10) / 2 else 0)
                       else remaining) <= w).
    { destruct (affine sprite); [|lia]. zcmp. Z.to_euclidean_division_equations. lia. }
    rewrite wrap_id by (unfold fits; lia). split; [done|]. split; [|lia].
    intros Hn. rewrite sprite_cycles_eq by lia. destruct (affine sprite); [|lia].
    revert Hn. zcmp; intros Hn; Z.to_euclidean_division_equations; lia.
  - split; [lia|]. split; [|done]. intros _. rewrite sprite_cycles_eq by lia. done.
Qed.

(** The sprites a scanline admits, each with the part of it that is
    fetched, take no more OBJ cycles together than the allowance of the line:
    1210, or 954 with HBlank-interval-free set. *)
Theorem sprite_cycles_bounded (scanline remaining : Z) (indices : list Z) :
  0 <= remaining < 0x10000 ->
  total_cycles (admit_sprites io memory scanline indices remaining) <= remaining.
Proof.
  revert remaining. induction indices as [|index indices IH]; intros remaining Hr.
  { cbn. lia. }
  cbn [admit_sprites]. destruct (read_sprite io memory index) as [sprite|] eqn:Es; [|by apply IH].
  destruct (_ || _); [by apply IH|]. destruct (Z.eqb_spec remaining 0); [cbn; lia|].
  apply read_sprite_width, screen_width_range in Es.
  pose proof (left_prefix_range sprite (u16 (sprite_screen_width sprite)) ltac:(lia)) as Hl.
  set (sw := u16 (sprite_screen_width sprite)) in *. set (lp := sprite_left_prefix sprite sw) in *.
  cbv zeta. rewrite (wrap_id 16 (sw - lp)) by (unfold fits; lia).
  destruct (Z.eqb_spec (sw - lp) 0); [by apply IH|].
  destruct (admitted_width_range sprite (sw - lp) remaining) as (Ha & Hc & He); [lia|done|].
  set (a := sprite_admitted_width sprite (sw - lp) remaining) in *.
  destruct (Z.eqb_spec a 0); [cbn; lia|].
  assert (Hcost : admitted_cycles (sprite, u16 (lp + a)) = sprite_cycles sprite a).
  { unfold admitted_cycles. fold sw lp. rewrite wrap_id by (unfold fits; lia). f_equal. lia. }
  cbn [total_cycles foldr]. rewrite Hcost. specialize (Hc ltac:(lia)).
  assert (0 <= sprite_cycles sprite a) by (rewrite sprite_cycles_eq by lia; case_match; lia).
  destruct (Z.leb_spec remaining (sprite_cycles sprite (sw - lp))) as [Hle|Hgt].
  - specialize (IH 0 ltac:(lia)). unfold total_cycles in IH. lia.
  - rewrite He in * by lia. rewrite wrap_id by (unfold fits; lia).
    specialize (IH (remaining - sprite_cycles sprite (sw - lp)) ltac:(lia)).
    unfold total_cycles in IH. lia.
Qed.
End Admission.

Lemma sprite_cycles_bounded_witness :
  total_cycles (admit_sprites (mkIoCallbacks None None None None) (initial, tt) 7
    [0; 1; 2; 127] 1210) <= 1210.
Proof.
  apply (sprite_cycles_bounded (mkIoCallbacks None None None None) (initial, tt) 7 1210). lia.
Defined.
