(* ===== verification/Apu.v ===== *)
(** * The audio unit

    [Apu] of [include/gba/core/apu.hpp] and [src/core/apu.cpp]: the sound
    registers, the Direct Sound FIFOs, the PSG channels, the mixer, the frame
    sequencer and the audio ring buffer.

    [Throw] stands for the [std::out_of_range] of a checked access and for a
    division by zero, whose behaviour is undefined.  The [while] loops of
    [tick] run on fuel equal to the number of periods in the remainder. *)

From S2P Require Import Prelude StateHash.

Module DirectSoundChannel.
(* @ apu.hpp:10-13 DirectSoundChannel *)
Inductive t : Type := a | b.
#[export] Instance eq_dec : EqDecision t.
Proof. solve_decision. Defined.
End DirectSoundChannel.
Export (hints) DirectSoundChannel.

(* @ apu.hpp:15-20 ApuFrameStep *)
Record ApuFrameStep : Type := mkApuFrameStep {
  fs_step : Z;
  length_clock : bool;
  sweep_clock : bool;
  envelope_clock : bool
}.

(* @ apu.hpp:22-26 DirectSoundSample *)
Record DirectSoundSample : Type := mkDirectSoundSample {
  produced : bool;
  ds_sample : Z;
  refill_request : bool
}.

(* @ apu.hpp:28-31 DirectSoundTimerResult *)
Record DirectSoundTimerResult : Type := mkDirectSoundTimerResult {
  fifo_a : DirectSoundSample;
  fifo_b : DirectSoundSample
}.

(* @ apu.hpp:33-36 ApuMixedSample *)
Record ApuMixedSample : Type := mkApuMixedSample { left : Z; right : Z }.

(* @ apu.hpp:41-41 Apu::kCpuCyclesPerAudioSample *)
Definition kCpuCyclesPerAudioSample : Z := 512.
(* @ apu.hpp:42-42 Apu::kCpuCyclesPerFrameSequencerStep *)
Definition kCpuCyclesPerFrameSequencerStep : Z := 32768.
(* @ apu.hpp:43-43 Apu::kFrameSequencerSteps *)
Definition kFrameSequencerSteps : Z := 8.
(* @ apu.hpp:44-44 Apu::kWaveRamHalfwords *)
Definition kWaveRamHalfwords : nat := 8.
(* @ apu.hpp:45-45 Apu::kWaveRamBanks *)
Definition kWaveRamBanks : nat := 2.
(* @ apu.hpp:46-46 Apu::kFifoCapacity *)
Definition kFifoCapacity : nat := 32.
(* @ apu.hpp:47-47 Apu::kFifoRefillThreshold *)
Definition kFifoRefillThreshold : nat := 16.
(* @ apu.hpp:48-48 Apu::kAudioBufferCapacity *)
Definition kAudioBufferCapacity : nat := 2048.

(* @ apu.cpp:12-12 kSoundCntLMask *)
Definition kSoundCntLMask : Z := 0xFF77.
(* @ apu.cpp:13-13 kSoundCntHMask *)
Definition kSoundCntHMask : Z := 0xFF0F.
(* @ apu.cpp:14-14 kFifoAReset *)
Definition kFifoAReset : Z := 0x0800.
(* @ apu.cpp:15-15 kFifoBReset *)
Definition kFifoBReset : Z := 0x8000.
(* @ apu.cpp:16-17 kSoundCntHStoredMask *)
Definition kSoundCntHStoredMask : Z :=
  u16 (Z.land (Z.land kSoundCntHMask (Z.lnot kFifoAReset)) (Z.lnot kFifoBReset)).
(* @ apu.cpp:18-18 kMasterEnable *)
Definition kMasterEnable : Z := 0x0080.
(* @ apu.cpp:21-21 kSoundBiasMask *)
Definition kSoundBiasMask : Z := 0x43FF.
(* @ apu.cpp:25-25 kDirectSoundHalfScale *)
Definition kDirectSoundHalfScale : Z := 128.
(* @ apu.cpp:26-26 kSquareDutyHighSamples *)
Definition kSquareDutyHighSamples : list Z := [1; 2; 4; 6].
(* @ apu.cpp:27-27 kPsgScale *)
Definition kPsgScale : Z := 128.

(** The ring buffers: [Fifo] holds [std::int8_t], [AudioBuffer] holds mixed
    samples. *)
(* @ apu.hpp:155-159 Apu::Fifo *)
Record Ring (A : Type) : Type := mkRing { samples : list A; head : nat; ring_size : nat }.
Arguments mkRing {A}.
Arguments samples {A}.
Arguments head {A}.
Arguments ring_size {A}.

#[export] Instance eta_Ring A : Eta (Ring A) := fun r =>
  mkRing (samples r) (head r) (ring_size r).

(* @ apu.hpp:167-173 Apu::SquareChannel *)
Record SquareChannel : Type := mkSquareChannel {
  sq_enabled : bool;
  sq_duty : Z;
  sq_volume : Z;
  sq_period_samples : Z;
  sq_phase : Z
}.

#[export] Instance eta_SquareChannel : Eta SquareChannel := fun c =>
  mkSquareChannel (sq_enabled c) (sq_duty c) (sq_volume c) (sq_period_samples c) (sq_phase c).

(* @ apu.hpp:175-180 Apu::WaveChannel *)
Record WaveChannel : Type := mkWaveChannel {
  wv_enabled : bool;
  wv_volume_shift : Z;
  wv_period_samples : Z;
  wv_phase : Z
}.

#[export] Instance eta_WaveChannel : Eta WaveChannel := fun c =>
  mkWaveChannel (wv_enabled c) (wv_volume_shift c) (wv_period_samples c) (wv_phase c).

(* @ apu.hpp:182-189 Apu::NoiseChannel *)
Record NoiseChannel : Type := mkNoiseChannel {
  ns_enabled : bool;
  ns_volume : Z;
  ns_period_samples : Z;
  ns_phase : Z;
  ns_lfsr : Z;
  ns_narrow_lfsr : bool
}.

#[export] Instance eta_NoiseChannel : Eta NoiseChannel := fun c =>
  mkNoiseChannel (ns_enabled c) (ns_volume c) (ns_period_samples c) (ns_phase c) (ns_lfsr c)
    (ns_narrow_lfsr c).

(** The two-element arrays of FIFOs, latched samples and square channels are
    pairs of fields. *)
(* @ apu.hpp:191-208 Apu *)
Record Apu : Type := mkApu {
  soundcnt_l_ : Z;
  soundcnt_h_ : Z;
  soundcnt_x_status_ : Z;
  soundbias_ : Z;
  wave_ram_bank0 : list Z;
  wave_ram_bank1 : list Z;
  wave_bank_select_ : bool;
  fifo0 : Ring Z;
  fifo1 : Ring Z;
  latched0 : Z;
  latched1 : Z;
  square0 : SquareChannel;
  square1 : SquareChannel;
  wave_channel_ : WaveChannel;
  noise_channel_ : NoiseChannel;
  audio_buffer_ : Ring ApuMixedSample;
  frame_step_count_ : Z;
  audio_sample_count_ : Z;
  frame_cycle_remainder_ : Z;
  audio_cycle_remainder_ : Z;
  frame_step_ : Z;
  last_mixed_sample_ : ApuMixedSample
}.

#[export] Instance eta_Apu : Eta Apu := fun p =>
  mkApu (soundcnt_l_ p) (soundcnt_h_ p) (soundcnt_x_status_ p) (soundbias_ p)
    (wave_ram_bank0 p) (wave_ram_bank1 p) (wave_bank_select_ p) (fifo0 p) (fifo1 p)
    (latched0 p) (latched1 p) (square0 p) (square1 p) (wave_channel_ p) (noise_channel_ p)
    (audio_buffer_ p) (frame_step_count_ p) (audio_sample_count_ p) (frame_cycle_remainder_ p)
    (audio_cycle_remainder_ p) (frame_step_ p) (last_mixed_sample_ p).

(* @ apu.cpp:33-35 frame_length_clock *)
Definition frame_length_clock (step : Z) : bool :=
  (step =? 0) || (step =? 2) || (step =? 4) || (step =? 6).
(* @ apu.cpp:37-39 frame_sweep_clock *)
Definition frame_sweep_clock (step : Z) : bool := (step =? 2) || (step =? 6).
(* @ apu.cpp:41-43 frame_envelope_clock *)
Definition frame_envelope_clock (step : Z) : bool := step =? 7.

(* @ apu.cpp:45-49 clamp_mixed_sample *)
Definition clamp_mixed_sample (value : Z) : Z := i16 (Z.max (-32768) (Z.min value 32767)).

(** ** Ring buffers *)

(** [size] elements from [head], the last pushed last; the oldest element is
    dropped when the buffer is full. *)
(* @ apu.cpp:553-562 Apu::push_fifo *)
Definition ring_push {A} (capacity : nat) (a : A) (r : Ring A) : exc (Ring A) :=
  let r :=
    if (ring_size r =? capacity)%nat
    then r <| head := ((head r + 1) mod capacity)%nat |> <| ring_size := (ring_size r - 1)%nat |>
    else r in
  let tail := ((head r + ring_size r) mod capacity)%nat in
  l ← array_put (samples r) tail a;
  Ret (r <| samples := l |> <| ring_size := (ring_size r + 1)%nat |>).

(* @ apu.cpp:569-571 Apu::pop_fifo *)
Definition ring_pop {A} (capacity : nat) (r : Ring A) : exc (A * Ring A) :=
  a ← array_at (samples r) (head r);
  Ret (a, r <| head := ((head r + 1) mod capacity)%nat |> <| ring_size := (ring_size r - 1)%nat |>).

(* @ apu.cpp:67-69 Apu::reset *)
Definition empty_ring {A} (capacity : nat) (zero : A) : Ring A :=
  mkRing (replicate capacity zero) 0 0.

(* @ apu.cpp:73-73 Apu::reset *)
Definition idle_square : SquareChannel := mkSquareChannel false 0 0 1 0.
(* @ apu.cpp:75-75 Apu::reset *)
Definition idle_wave : WaveChannel := mkWaveChannel false 0 1 0.
(* @ apu.cpp:76-76 Apu::reset *)
Definition idle_noise : NoiseChannel := mkNoiseChannel false 0 1 0 0x7FFF false.
(* @ apu.cpp:85-85 Apu::reset *)
Definition silence : ApuMixedSample := mkApuMixedSample 0 0.

(* @ apu.cpp:57-86 Apu::reset *)
Definition reset : Apu :=
  mkApu 0 0 0 0x0200 (replicate kWaveRamHalfwords 0) (replicate kWaveRamHalfwords 0) false
    (empty_ring kFifoCapacity 0) (empty_ring kFifoCapacity 0) 0 0 idle_square idle_square
    idle_wave idle_noise (empty_ring kAudioBufferCapacity silence) 0 0 0 0 0 silence.

(* @ apu.cpp:405-407 Apu::master_enabled *)
Definition master_enabled (p : Apu) : bool := has (soundcnt_x_status_ p) kMasterEnable.

(** The FIFO of a channel, and its replacement. *)
(* @ apu.cpp:538-544 Apu::fifo *)
Definition fifo (channel : DirectSoundChannel.t) (p : Apu) : Ring Z :=
  match channel with DirectSoundChannel.a => fifo0 p | DirectSoundChannel.b => fifo1 p end.

Definition set_fifo (channel : DirectSoundChannel.t) (r : Ring Z) (p : Apu) : Apu :=
  match channel with
  | DirectSoundChannel.a => p <| fifo0 := r |>
  | DirectSoundChannel.b => p <| fifo1 := r |>
  end.

(* @ apu.cpp:546-551 Apu::clear_fifo *)
Definition clear_fifo (channel : DirectSoundChannel.t) (p : Apu) : Apu :=
  set_fifo channel (empty_ring kFifoCapacity 0) p.

(* @ apu.cpp:437-439 Apu::fifo_size *)
Definition fifo_size (channel : DirectSoundChannel.t) (p : Apu) : nat := ring_size (fifo channel p).

(* @ apu.cpp:441-443 Apu::fifo_refill_needed *)
Definition fifo_refill_needed (channel : DirectSoundChannel.t) (p : Apu) : bool :=
  (fifo_size channel p <=? kFifoRefillThreshold)%nat.

(* @ apu.cpp:553-562 Apu::push_fifo *)
Definition push_fifo (channel : DirectSoundChannel.t) (sample : Z) (p : Apu) : exc Apu :=
  r ← ring_push kFifoCapacity sample (fifo channel p);
  Ret (set_fifo channel r p).

(* @ apu.cpp:564-573 Apu::pop_fifo *)
Definition pop_fifo (channel : DirectSoundChannel.t) (p : Apu)
    : exc (DirectSoundSample * Apu) :=
  if (fifo_size channel p =? 0)%nat then Ret (mkDirectSoundSample false 0 true, p)
  else
    '(sample, r) ← ring_pop kFifoCapacity (fifo channel p);
    let p := set_fifo channel r p in
    Ret (mkDirectSoundSample true sample (fifo_refill_needed channel p), p).

(* @ apu.cpp:250-254 Apu::clear_audio_buffer *)
Definition clear_audio_buffer (p : Apu) : Apu :=
  p <| audio_buffer_ := empty_ring kAudioBufferCapacity silence |>.

(* @ apu.cpp:239-248 Apu::pop_audio_sample *)
Definition pop_audio_sample (p : Apu) : exc (option ApuMixedSample * Apu) :=
  if (ring_size (audio_buffer_ p) =? 0)%nat then Ret (None, p)
  else
    '(sample, r) ← ring_pop kAudioBufferCapacity (audio_buffer_ p);
    Ret (Some sample, p <| audio_buffer_ := r |>).

(* @ apu.cpp:664-674 Apu::push_audio_sample *)
Definition push_audio_sample (sample : ApuMixedSample) (p : Apu) : exc Apu :=
  r ← ring_push kAudioBufferCapacity sample (audio_buffer_ p);
  Ret (p <| audio_buffer_ := r |>).

(** ** Registers *)

(* @ apu.cpp:711-731 Apu::clear_sound_circuit *)
Definition clear_sound_circuit (p : Apu) : Apu :=
  clear_audio_buffer (clear_fifo DirectSoundChannel.b (clear_fifo DirectSoundChannel.a
    (p <| soundcnt_l_ := 0 |> <| soundcnt_h_ := 0 |> <| soundcnt_x_status_ := 0 |>
       <| frame_step_count_ := 0 |> <| audio_sample_count_ := 0 |>
       <| frame_cycle_remainder_ := 0 |> <| audio_cycle_remainder_ := 0 |>
       <| latched0 := 0 |> <| latched1 := 0 |> <| last_mixed_sample_ := silence |>
       <| frame_step_ := 0 |> <| wave_bank_select_ := false |>
       <| square0 := idle_square |> <| square1 := idle_square |>
       <| wave_channel_ := idle_wave |> <| noise_channel_ := idle_noise |>))).

(* @ apu.cpp:88-93 Apu::write_soundcnt_l *)
Definition write_soundcnt_l (value : Z) (p : Apu) : Apu :=
  if negb (master_enabled p) then p
  else p <| soundcnt_l_ := u16 (Z.land value kSoundCntLMask) |>.

(* @ apu.cpp:95-106 Apu::write_soundcnt_h *)
Definition write_soundcnt_h (value : Z) (p : Apu) : Apu :=
  if negb (master_enabled p) then p
  else
    let p := if has value kFifoAReset then clear_fifo DirectSoundChannel.a p else p in
    let p := if has value kFifoBReset then clear_fifo DirectSoundChannel.b p else p in
    p <| soundcnt_h_ := u16 (Z.land value kSoundCntHStoredMask) |>.

(* @ apu.cpp:108-115 Apu::write_soundcnt_x *)
Definition write_soundcnt_x (value : Z) (p : Apu) : Apu :=
  let enable := has value kMasterEnable in
  if negb enable then clear_sound_circuit p
  else p <| soundcnt_x_status_ := u16 (Z.lor (soundcnt_x_status_ p) kMasterEnable) |>.

(* @ apu.cpp:117-122 Apu::write_soundbias *)
Definition write_soundbias (value : Z) (p : Apu) : Apu :=
  if negb (master_enabled p) then p
  else p <| soundbias_ := u16 (Z.land value kSoundBiasMask) |>.

(* @ apu.cpp:124-126 Apu::set_wave_bank_select *)
Definition set_wave_bank_select (playing_bank : bool) (p : Apu) : Apu :=
  p <| wave_bank_select_ := playing_bank |>.

(* @ apu.cpp:131-136 Apu::write_wave_ram *)
Definition write_wave_ram (index : nat) (value : Z) (p : Apu) : exc Apu :=
  if (kWaveRamHalfwords <=? index)%nat then Throw
  else if wave_bank_select_ p then
    l ← array_put (wave_ram_bank0 p) index value; Ret (p <| wave_ram_bank0 := l |>)
  else
    l ← array_put (wave_ram_bank1 p) index value; Ret (p <| wave_ram_bank1 := l |>).

(* @ apu.cpp:390-396 Apu::wave_ram *)
Definition wave_ram (index : nat) (p : Apu) : exc Z :=
  if (kWaveRamHalfwords <=? index)%nat then Throw
  else array_at (if wave_bank_select_ p then wave_ram_bank0 p else wave_ram_bank1 p) index.

(* @ apu.cpp:398-403 Apu::wave_ram_playing *)
Definition wave_ram_playing (index : nat) (p : Apu) : exc Z :=
  if (kWaveRamHalfwords <=? index)%nat then Throw
  else array_at (if wave_bank_select_ p then wave_ram_bank1 p else wave_ram_bank0 p) index.

(* @ apu.cpp:138-142 Apu::write_fifo *)
Definition write_fifo (channel : DirectSoundChannel.t) (value : Z) (p : Apu) : exc Apu :=
  p ← push_fifo channel (i8 (Z.land value 0xFF)) p;
  p ← push_fifo channel (i8 (Z.land (Z.shiftr value 8) 0xFF)) p;
  p ← push_fifo channel (i8 (Z.land (Z.shiftr value 16) 0xFF)) p;
  push_fifo channel (i8 (Z.land (Z.shiftr value 24) 0xFF)) p.

(* @ apu.cpp:144-155 Apu::configure_square_channel *)
Definition configure_square_channel (channel duty volume period_samples : Z) (p : Apu) : Apu :=
  if negb (master_enabled p) || (2 <=? channel) then p
  else
    let square := mkSquareChannel true (u8 (Z.land duty 0x3)) (Z.min volume 15)
                    (Z.max 1 period_samples) 0 in
    if channel =? 0 then p <| square0 := square |> else p <| square1 := square |>.

(* @ apu.cpp:157-166 Apu::configure_wave_channel *)
Definition configure_wave_channel (volume_shift period_samples : Z) (p : Apu) : Apu :=
  if negb (master_enabled p) then p
  else p <| wave_channel_ :=
              mkWaveChannel true (Z.min volume_shift 4) (Z.max 1 period_samples) 0 |>.

(* @ apu.cpp:168-179 Apu::configure_noise_channel *)
Definition configure_noise_channel (volume period_samples : Z) (narrow_lfsr : bool) (p : Apu)
    : Apu :=
  if negb (master_enabled p) then p
  else p <| noise_channel_ :=
              mkNoiseChannel true (Z.min volume 15) (Z.max 1 period_samples) 0 0x7FFF
                narrow_lfsr |>.

(* @ apu.cpp:181-193 Apu::disable_psg_channel *)
Definition disable_psg_channel (channel : Z) (p : Apu) : Apu :=
  if channel =? 0 then p <| square0 ::= fun c => c <| sq_enabled := false |> |>
  else if channel =? 1 then p <| square1 ::= fun c => c <| sq_enabled := false |> |>
  else if channel =? 2 then p <| wave_channel_ ::= fun c => c <| wv_enabled := false |> |>
  else if channel =? 3 then p <| noise_channel_ ::= fun c => c <| ns_enabled := false |> |>
  else p.

(* @ apu.cpp:461-472 Apu::psg_channel_enabled *)
Definition psg_channel_enabled (channel : Z) (p : Apu) : bool :=
  if channel =? 0 then sq_enabled (square0 p)
  else if channel =? 1 then sq_enabled (square1 p)
  else if channel =? 2 then wv_enabled (wave_channel_ p)
  else if channel =? 3 then ns_enabled (noise_channel_ p)
  else false.

(* @ apu.cpp:368-384 Apu::soundcnt_x *)
Definition soundcnt_x (p : Apu) : Z :=
  let value := soundcnt_x_status_ p in
  let value := if sq_enabled (square0 p) then u16 (Z.lor value 0x0001) else value in
  let value := if sq_enabled (square1 p) then u16 (Z.lor value 0x0002) else value in
  let value := if wv_enabled (wave_channel_ p) then u16 (Z.lor value 0x0004) else value in
  if ns_enabled (noise_channel_ p) then u16 (Z.lor value 0x0008) else value.

(** ** The mixer *)

(** Division, undefined by zero. *)
Definition checked_div (x y : Z) : exc Z := if y =? 0 then Throw else Ret (x / y).
Definition checked_mod (x y : Z) : exc Z := if y =? 0 then Throw else Ret (x mod y).

(* @ apu.cpp:632-640 Apu::psg_channel_outputs *)
Definition square_output (square : SquareChannel) : exc Z :=
  if negb (sq_enabled square) || (sq_volume square =? 0) then Ret 0
  else
    q ← checked_div (u32 (sq_phase square * 8)) (sq_period_samples square);
    let duty_step := u8 q in
    high ← array_at kSquareDutyHighSamples (Z.to_nat (sq_duty square));
    Ret ((if duty_step <? high then 1 else -1) * sq_volume square * kPsgScale).

(* @ apu.cpp:643-654 Apu::psg_channel_outputs *)
Definition wave_output (p : Apu) : exc Z :=
  let wave := wave_channel_ p in
  if wv_enabled wave && negb (wv_volume_shift wave =? 0) then
    q ← checked_div (u32 (wv_phase wave * 32)) (wv_period_samples wave);
    let sample_index := u8 q in
    packed ← array_at (if wave_bank_select_ p then wave_ram_bank1 p else wave_ram_bank0 p)
               (Z.to_nat (sample_index / 4));
    let nibble_shift := u8 ((3 - sample_index mod 4) * 4) in
    let sample := Z.land (Z.shiftr packed nibble_shift) 0x0F - 8 in
    Ret (Z.shiftr (sample * kPsgScale) (wv_volume_shift wave - 1))
  else Ret 0.

(* @ apu.cpp:656-660 Apu::psg_channel_outputs *)
Definition noise_output (noise : NoiseChannel) : Z :=
  if ns_enabled noise && negb (ns_volume noise =? 0) then
    let high := Z.land (ns_lfsr noise) 0x1 =? 0 in
    (if high then 1 else -1) * ns_volume noise * kPsgScale
  else 0.

(* @ apu.cpp:629-662 Apu::psg_channel_outputs *)
Definition psg_channel_outputs (p : Apu) : exc (list Z) :=
  s0 ← square_output (square0 p);
  s1 ← square_output (square1 p);
  w ← wave_output p;
  Ret [s0; s1; w; noise_output (noise_channel_ p)].

(* @ apu.cpp:455-459 Apu::direct_sound_enabled *)
Definition direct_sound_enabled (channel : DirectSoundChannel.t) (p : Apu) : bool :=
  has (soundcnt_h_ p)
    (match channel with DirectSoundChannel.a => 0x0300 | DirectSoundChannel.b => 0x3000 end).

(** The loop over the PSG outputs, from [index]. *)
(* @ apu.cpp:589-596 Apu::mix_sample *)
Fixpoint mix_psg (outputs : list Z) (index : Z) (nr51 left_volume right_volume : Z)
    (m : ApuMixedSample) : ApuMixedSample :=
  match outputs with
  | [] => m
  | output :: outputs' =>
      let right' := if has nr51 (u16 (Z.shiftl 1 index))
                    then right m + output * right_volume else right m in
      let left' := if has nr51 (u16 (Z.shiftl 1 (index + 4)))
                   then left m + output * left_volume else left m in
      mix_psg outputs' (index + 1) nr51 left_volume right_volume (mkApuMixedSample left' right')
  end.

(** The latched sample of a channel. *)
Definition latched (channel : DirectSoundChannel.t) (p : Apu) : Z :=
  match channel with DirectSoundChannel.a => latched0 p | DirectSoundChannel.b => latched1 p end.

(* @ apu.cpp:598-618 Apu::mix_sample *)
Definition mix_direct_channel (p : Apu) (channel : DirectSoundChannel.t) (m : ApuMixedSample)
    : ApuMixedSample :=
  if negb (direct_sound_enabled channel p) then m
  else
    let is_a := bool_decide (channel = DirectSoundChannel.a) in
    let full_volume := has (soundcnt_h_ p) (if is_a then 0x0004 else 0x0008) in
    let scaled := latched channel p * kDirectSoundHalfScale * (if full_volume then 2 else 1) in
    let route_right := has (soundcnt_h_ p) (if is_a then 0x0100 else 0x1000) in
    let route_left := has (soundcnt_h_ p) (if is_a then 0x0200 else 0x2000) in
    mkApuMixedSample (if route_left then left m + scaled else left m)
      (if route_right then right m + scaled else right m).

(* @ apu.cpp:575-627 Apu::mix_sample *)
Definition mix_sample (p : Apu) : exc ApuMixedSample :=
  outputs ← psg_channel_outputs p;
  let nr50 := u16 (Z.land (soundcnt_l_ p) 0x00FF) in
  let nr51 := u16 (Z.land (Z.shiftr (soundcnt_l_ p) 8) 0x00FF) in
  let left_volume := Z.land (Z.shiftr nr50 4) 0x7 + 1 in
  let right_volume := Z.land nr50 0x7 + 1 in
  let m := mix_psg outputs 0 nr51 left_volume right_volume (mkApuMixedSample 0 0) in
  let m := mix_direct_channel p DirectSoundChannel.a m in
  let m := mix_direct_channel p DirectSoundChannel.b m in
  Ret (mkApuMixedSample (clamp_mixed_sample (left m)) (clamp_mixed_sample (right m))).

(** ** Generators *)

(* @ apu.cpp:684-689 Apu::advance_psg_generators *)
Definition advance_square (square : SquareChannel) : exc SquareChannel :=
  if negb (sq_enabled square) then Ret square
  else
    phase ← checked_mod (sq_phase square + 1) (sq_period_samples square);
    Ret (square <| sq_phase := u16 phase |>).

(* @ apu.cpp:690-693 Apu::advance_psg_generators *)
Definition advance_wave (wave : WaveChannel) : exc WaveChannel :=
  if wv_enabled wave then
    phase ← checked_mod (wv_phase wave + 1) (wv_period_samples wave);
    Ret (wave <| wv_phase := u16 phase |>)
  else Ret wave.

(** One shift of the noise register. *)
(* @ apu.cpp:698-704 Apu::advance_psg_generators *)
Definition shift_lfsr (narrow_lfsr : bool) (lfsr : Z) : Z :=
  let bit := u16 (Z.land (Z.lxor lfsr (Z.shiftr lfsr 1)) 0x1) in
  let lfsr := u16 (Z.lor (Z.shiftr lfsr 1) (Z.shiftl bit 14)) in
  if narrow_lfsr
  then u16 (Z.lor (Z.land lfsr (Z.lnot (Z.shiftl 1 6))) (Z.shiftl bit 6))
  else lfsr.

(* @ apu.cpp:694-706 Apu::advance_psg_generators *)
Definition advance_noise (noise : NoiseChannel) : exc NoiseChannel :=
  if ns_enabled noise then
    phase ← checked_mod (ns_phase noise + 1) (ns_period_samples noise);
    let noise := noise <| ns_phase := u16 phase |> in
    if ns_phase noise =? 0
    then Ret (noise <| ns_lfsr ::= shift_lfsr (ns_narrow_lfsr noise) |>)
    else Ret noise
  else Ret noise.

(* @ apu.cpp:683-707 Apu::advance_psg_generators *)
Definition advance_psg_generators (p : Apu) : exc Apu :=
  s0 ← advance_square (square0 p);
  s1 ← advance_square (square1 p);
  w ← advance_wave (wave_channel_ p);
  n ← advance_noise (noise_channel_ p);
  Ret (p <| square0 := s0 |> <| square1 := s1 |> <| wave_channel_ := w |>
         <| noise_channel_ := n |>).

(* @ apu.cpp:676-681 Apu::generate_audio_sample *)
Definition generate_audio_sample (p : Apu) : exc Apu :=
  sample ← mix_sample p;
  let p := p <| last_mixed_sample_ := sample |> in
  p ← push_audio_sample sample p;
  let p := p <| audio_sample_count_ ::= fun n => u64 (n + 1) |> in
  advance_psg_generators p.

(** ** The tick *)

(* @ apu.cpp:203-210 Apu::tick (the frame sequencer loop) *)
Fixpoint frame_loop (fuel : nat) (last_step : option ApuFrameStep) (p : Apu)
    : exc (option ApuFrameStep * Apu) :=
  if kCpuCyclesPerFrameSequencerStep <=? frame_cycle_remainder_ p then
    match fuel with
    | O => Throw
    | S fuel' =>
        let step := u8 ((frame_step_ p + 1) mod kFrameSequencerSteps) in
        let p :=
          p <| frame_cycle_remainder_ ::= fun r => r - kCpuCyclesPerFrameSequencerStep |>
            <| frame_step_ := step |>
            <| frame_step_count_ ::= fun n => u64 (n + 1) |> in
        frame_loop fuel'
          (Some (mkApuFrameStep step (frame_length_clock step) (frame_sweep_clock step)
                   (frame_envelope_clock step))) p
    end
  else Ret (last_step, p).

(* @ apu.cpp:212-215 Apu::tick (the sample loop) *)
Fixpoint audio_loop (fuel : nat) (p : Apu) : exc Apu :=
  if kCpuCyclesPerAudioSample <=? audio_cycle_remainder_ p then
    match fuel with
    | O => Throw
    | S fuel' =>
        p ← generate_audio_sample
              (p <| audio_cycle_remainder_ ::= fun r => r - kCpuCyclesPerAudioSample |>);
        audio_loop fuel' p
    end
  else Ret p.

(* @ apu.cpp:195-218 Apu::tick *)
Definition tick (cpu_cycles : Z) (p : Apu) : exc (option ApuFrameStep * Apu) :=
  if negb (master_enabled p) then Ret (None, p)
  else
    let p := p <| frame_cycle_remainder_ ::= fun r => u32 (r + cpu_cycles) |>
               <| audio_cycle_remainder_ ::= fun r => u32 (r + cpu_cycles) |> in
    '(last_step, p) ←
      frame_loop (Z.to_nat (frame_cycle_remainder_ p / kCpuCyclesPerFrameSequencerStep)) None p;
    p ← audio_loop (Z.to_nat (audio_cycle_remainder_ p / kCpuCyclesPerAudioSample)) p;
    Ret (last_step, p).

(* @ apu.cpp:445-453 Apu::direct_sound_uses_timer *)
Definition direct_sound_uses_timer (channel : DirectSoundChannel.t) (timer_index : Z) (p : Apu)
    : bool :=
  if negb (direct_sound_enabled channel p) then false
  else
    let selected_timer :=
      match channel with
      | DirectSoundChannel.a => u8 (Z.land (Z.shiftr (soundcnt_h_ p) 10) 0x1)
      | DirectSoundChannel.b => u8 (Z.land (Z.shiftr (soundcnt_h_ p) 14) 0x1)
      end in
    (timer_index <=? 1) && (selected_timer =? timer_index).

(** [direct_sound_latched_samples_.at(channel) = sample]. *)
Definition set_latched (channel : DirectSoundChannel.t) (sample : Z) (p : Apu) : Apu :=
  match channel with
  | DirectSoundChannel.a => p <| latched0 := sample |>
  | DirectSoundChannel.b => p <| latched1 := sample |>
  end.

(** One channel of [timer_overflow]. *)
(* @ apu.cpp:226-230 Apu::timer_overflow *)
Definition channel_overflow (channel : DirectSoundChannel.t) (timer_index : Z) (p : Apu)
    : exc (DirectSoundSample * Apu) :=
  if direct_sound_uses_timer channel timer_index p then
    '(result, p) ← pop_fifo channel p;
    Ret (result, set_latched channel (if produced result then ds_sample result else 0) p)
  else Ret (mkDirectSoundSample false 0 false, p).

(* @ apu.cpp:220-237 Apu::timer_overflow *)
Definition timer_overflow (timer_index : Z) (p : Apu) : exc (DirectSoundTimerResult * Apu) :=
  if negb (master_enabled p)
  then Ret (mkDirectSoundTimerResult (mkDirectSoundSample false 0 false)
              (mkDirectSoundSample false 0 false), p)
  else
    '(a, p) ← channel_overflow DirectSoundChannel.a timer_index p;
    '(b, p) ← channel_overflow DirectSoundChannel.b timer_index p;
    Ret (mkDirectSoundTimerResult a b, p).

(** ** Snapshots

    [Apu::State] has the fields of [Apu], its FIFO and channel states the
    fields of the private structures. *)

(* @ apu.hpp:50-102 Apu::State *)
Definition State : Type := Apu.

(* @ apu.cpp:256-301 Apu::save_state *)
Definition save_state (p : Apu) : State :=
  mkApu (soundcnt_l_ p) (soundcnt_h_ p) (soundcnt_x_status_ p) (soundbias_ p)
    (wave_ram_bank0 p) (wave_ram_bank1 p) (wave_bank_select_ p) (fifo0 p) (fifo1 p)
    (latched0 p) (latched1 p) (square0 p) (square1 p) (wave_channel_ p) (noise_channel_ p)
    (audio_buffer_ p) (frame_step_count_ p) (audio_sample_count_ p) (frame_cycle_remainder_ p)
    (audio_cycle_remainder_ p) (frame_step_ p) (last_mixed_sample_ p).

(* @ apu.cpp:304-309 Apu::load_state *)
Definition fifo_state_ok (r : Ring Z) : bool :=
  negb ((kFifoCapacity <=? head r)%nat || (kFifoCapacity <? ring_size r)%nat ||
        (length (samples r) <? ring_size r)%nat).

(* @ apu.cpp:303-358 Apu::load_state *)
Definition load_state (state : State) (p : Apu) : bool * Apu :=
  if negb (fifo_state_ok (fifo0 state)) || negb (fifo_state_ok (fifo1 state)) then (false, p)
  else if (kAudioBufferCapacity <=? head (audio_buffer_ state))%nat ||
          (kAudioBufferCapacity <? ring_size (audio_buffer_ state))%nat
  then (false, p)
  else (true, save_state state).

(* @ apu.cpp:497-501 Apu::state_hash_impl *)
Definition hash_fifo (h : Z) (r : Ring Z) : Z :=
  add_u64 (Z.of_nat (ring_size r)) (add_u64 (Z.of_nat (head r)) (add_bytes (samples r) h)).

(* @ apu.cpp:505-511 Apu::state_hash_impl *)
Definition hash_square (h : Z) (square : SquareChannel) : Z :=
  add_u16 (sq_phase square) (add_u16 (sq_period_samples square)
    (add_u8 (sq_volume square) (add_u8 (sq_duty square) (add_bool (sq_enabled square) h)))).

(* @ apu.cpp:512-521 Apu::state_hash_impl *)
Definition hash_wave_noise (h : Z) (wave : WaveChannel) (noise : NoiseChannel) : Z :=
  let h := add_bool (wv_enabled wave) h in
  let h := add_u8 (wv_volume_shift wave) h in
  let h := add_u16 (wv_period_samples wave) h in
  let h := add_u16 (wv_phase wave) h in
  let h := add_bool (ns_enabled noise) h in
  let h := add_u8 (ns_volume noise) h in
  let h := add_u16 (ns_period_samples noise) h in
  let h := add_u16 (ns_phase noise) h in
  let h := add_u16 (ns_lfsr noise) h in
  add_bool (ns_narrow_lfsr noise) h.

(* @ apu.cpp:522-525 Apu::state_hash_impl *)
Definition hash_mixed (h : Z) (sample : ApuMixedSample) : Z :=
  add_u16 (u16 (right sample)) (add_u16 (u16 (left sample)) h).

(* @ apu.cpp:488-495 Apu::state_hash_impl *)
Definition hash_bank (legacy_wave_words : bool) (h : Z) (bank : list Z) : Z :=
  if legacy_wave_words then add_bytes bank h
  else fold_left (fun h v => add_u16 v h) bank (add_u64 (Z.of_nat (length bank)) h).

(* @ apu.cpp:482-536 Apu::state_hash_impl *)
Definition state_hash_impl (legacy_wave_words : bool) (p : Apu) : Z :=
  let h := add_u16 (soundcnt_l_ p) kOffsetBasis in
  let h := add_u16 (soundcnt_h_ p) h in
  let h := add_u16 (soundcnt_x_status_ p) h in
  let h := add_u16 (soundbias_ p) h in
  let h := hash_bank legacy_wave_words h (wave_ram_bank0 p) in
  let h := hash_bank legacy_wave_words h (wave_ram_bank1 p) in
  let h := add_bool (wave_bank_select_ p) h in
  let h := hash_fifo (hash_fifo h (fifo0 p)) (fifo1 p) in
  let h := add_u8 (u8 (latched0 p)) h in
  let h := add_u8 (u8 (latched1 p)) h in
  let h := hash_square (hash_square h (square0 p)) (square1 p) in
  let h := hash_wave_noise h (wave_channel_ p) (noise_channel_ p) in
  let h := fold_left hash_mixed (samples (audio_buffer_ p)) h in
  let h := add_u64 (Z.of_nat (head (audio_buffer_ p))) h in
  let h := add_u64 (Z.of_nat (ring_size (audio_buffer_ p))) h in
  let h := add_u64 (frame_step_count_ p) h in
  let h := add_u64 (audio_sample_count_ p) h in
  let h := add_u32 (frame_cycle_remainder_ p) h in
  let h := add_u32 (audio_cycle_remainder_ p) h in
  let h := add_u8 (frame_step_ p) h in
  hash_mixed h (last_mixed_sample_ p).

(* @ apu.cpp:474-476 Apu::state_hash *)
Definition state_hash (p : Apu) : Z := state_hash_impl false p.

(* @ apu.cpp:478-480 Apu::legacy_wave_state_hash *)
Definition legacy_wave_state_hash (p : Apu) : Z := state_hash_impl true p.
