(* ===== verification/ApuSpec.v ===== *)
(** * Properties of the audio unit

    The ring buffers are bounded queues ([contents]); every operation keeps
    the invariant [wf] and returns; a tick produces one sample per 512 cycles
    and may be split at any point; the noise register runs through its
    maximal sequence. *)

From S2P Require Import Prelude StateHash Apu.

(** ** Ring buffers as queues *)

Section Rings.
Context {A : Type} (capacity : nat).

Definition ring_ok (r : Ring A) : Prop :=
  length (samples r) = capacity /\ (head r < capacity)%nat /\ (ring_size r <= capacity)%nat.

(** The element at a distance from the head. *)
Definition slot (r : Ring A) (i : nat) : option A := samples r !! ((head r + i) mod capacity)%nat.

(** The elements, oldest first. *)
Definition contents (r : Ring A) : list A := omap (slot r) (seq 0 (ring_size r)).

Lemma mod_lt (n : nat) (r : Ring A) : ring_ok r -> (n mod capacity < capacity)%nat.
Proof. intros (_ & H & _). apply Nat.mod_upper_bound. lia. Qed.

Lemma slot_some r i : ring_ok r -> is_Some (slot r i).
Proof. intros H. apply lookup_lt_is_Some. rewrite (proj1 H). by apply (mod_lt _ r). Qed.

(** Slots of distinct distances are distinct. *)
Lemma mod_inj (h i j : nat) :
  (i < capacity)%nat -> (j < capacity)%nat ->
  ((h + i) mod capacity = (h + j) mod capacity)%nat -> i = j.
Proof.
  intros Hi Hj E. assert (capacity <> 0)%nat by lia.
  pose proof (Nat.div_mod (h + i) capacity ltac:(lia)) as D1.
  pose proof (Nat.div_mod (h + j) capacity ltac:(lia)) as D2.
  rewrite E in D1. set (m := ((h + j) mod capacity)%nat) in *.
  set (q1 := ((h + i) / capacity)%nat) in *. set (q2 := ((h + j) / capacity)%nat) in *.
  assert (q1 = q2 \/ q1 < q2 \/ q2 < q1)%nat as [-> | [H1 | H1]] by lia; [lia| |]; nia.
Qed.

Lemma omap_seq_ext (f g : nat -> option A) n m :
  (forall i, (n <= i < n + m)%nat -> f i = g i) -> omap f (seq n m) = omap g (seq n m).
Proof.
  revert n. induction m as [|m IH]; intros n H; [done|]. cbn. rewrite H by lia.
  rewrite (IH (S n)); [done|]. intros i Hi. apply H. lia.
Qed.

Lemma omap_seq_shift (f : nat -> option A) n m :
  omap f (seq (S n) m) = omap (fun i => f (S i)) (seq n m).
Proof. revert n. induction m as [|m IH]; intros n; [done|]. cbn. by rewrite IH. Qed.

Lemma contents_length r : ring_ok r -> length (contents r) = ring_size r.
Proof.
  intros H. unfold contents. generalize 0%nat. induction (ring_size r) as [|n IH]; intros k; [done|].
  cbn. destruct (slot_some r k H) as [a ->]. cbn. by rewrite IH.
Qed.

(** Dropping the oldest element. *)
Definition drop_oldest (r : Ring A) : Ring A :=
  r <| head := ((head r + 1) mod capacity)%nat |> <| ring_size := (ring_size r - 1)%nat |>.

Lemma slot_drop r i : ring_ok r -> slot (drop_oldest r) i = slot r (S i).
Proof.
  intros (_ & H & _). unfold slot, drop_oldest. cbn. f_equal.
  rewrite Nat.Div0.add_mod_idemp_l. f_equal. lia.
Qed.

Lemma drop_oldest_ok r : ring_ok r -> ring_ok (drop_oldest r).
Proof.
  intros H. pose proof (mod_lt (head r + 1) r H). destruct H as (H1 & H2 & H3).
  split_and!; cbn; [done|done|lia].
Qed.

Lemma contents_drop r : ring_ok r -> contents (drop_oldest r) = tail (contents r).
Proof.
  intros H. unfold contents. destruct (ring_size r) as [|n] eqn:En.
  { cbn. by rewrite En. }
  replace (ring_size (drop_oldest r)) with n by (cbn; rewrite En; cbn; lia).
  rewrite (omap_seq_ext _ (fun i => slot r (S i)) 0 n) by (intros; by apply slot_drop).
  cbn. destruct (slot_some r 0 H) as [a ->]. cbn. by rewrite omap_seq_shift.
Qed.

(** The push of [ring_push] on a ring with room. *)
Lemma push_room a r :
  ring_ok r -> (ring_size r < capacity)%nat ->
  let tail := ((head r + ring_size r) mod capacity)%nat in
  let r' := r <| samples := <[tail := a]> (samples r) |> <| ring_size := (ring_size r + 1)%nat |> in
  array_put (samples r) tail a = Ret (<[tail := a]> (samples r)) /\
  ring_ok r' /\ contents r' = contents r ++ [a].
Proof.
  intros H Hs. cbv zeta. pose proof (mod_lt (head r + ring_size r) r H) as Ht.
  set (tl := ((head r + ring_size r) mod capacity)%nat) in *. destruct H as (H1 & H2 & H3).
  split; [apply array_put_lt; lia|]. split.
  { split_and!; cbn; rewrite ?length_insert; lia. }
  unfold contents. cbn [ring_size set_field]. rewrite Nat.add_1_r, seq_S, omap_app. f_equal.
  - apply omap_seq_ext. intros i Hi. unfold slot. cbn. apply list_lookup_insert_ne.
    subst tl. intros E. apply mod_inj in E; lia.
  - cbn. unfold slot. cbn. fold tl. by rewrite list_lookup_insert_eq by lia.
Qed.

(** The pop of a non-empty ring. *)
Lemma pop_drop r : ring_ok r -> ring_size r <> 0%nat ->
  exists b, ring_pop capacity r = Ret (b, drop_oldest r) /\ contents r = b :: contents (drop_oldest r).
Proof.
  intros H Hn. unfold ring_pop. destruct (slot_some r 0 H) as [b Hb].
  assert (Hh : samples r !! head r = Some b).
  { rewrite <- Hb. unfold slot. rewrite Nat.add_0_r, Nat.mod_small; [done|]. apply H. }
  rewrite (array_at_Ret _ _ _ Hh). exists b. split; [done|]. rewrite contents_drop by done.
  unfold contents. destruct (ring_size r); [done|]. cbn. by rewrite Hb.
Qed.

(** C37: a ring buffer is a bounded queue: a push appends to the contents,
    dropping the oldest element exactly when the buffer is full; a pop of a
    non-empty buffer returns the oldest element and leaves the others; neither
    indexes outside the buffer. *)
Theorem ring_is_bounded_queue (r : Ring A) (a : A) :
  ring_ok r -> (0 < capacity)%nat ->
  (exists r', ring_push capacity a r = Ret r' /\ ring_ok r' /\
     contents r' =
       (if (length (contents r) =? capacity)%nat then tail (contents r) else contents r) ++ [a]) /\
  (contents r <> [] ->
   exists b r', ring_pop capacity r = Ret (b, r') /\ ring_ok r' /\ contents r = b :: contents r').
Proof.
  intros H Hc. rewrite contents_length by done. split.
  - unfold ring_push. destruct (Nat.eqb_spec (ring_size r) capacity) as [Es|Es].
    + fold (drop_oldest r). pose proof (drop_oldest_ok r H) as Hd.
      destruct (push_room a (drop_oldest r) Hd) as (E & Hok & Hcon); [cbn; lia|].
      cbv zeta in *. rewrite E. eexists. split; [done|]. split; [done|].
      rewrite Hcon. by rewrite contents_drop.
    + destruct (push_room a r H) as (E & Hok & Hcon); [destruct H as (_ & _ & H); lia|].
      cbv zeta in *. rewrite E. by eexists.
  - intros Hn. destruct (pop_drop r H) as (b & E & Ec).
    { intros E. apply Hn. unfold contents. by rewrite E. }
    exists b, (drop_oldest r). split_and!; [done|by apply drop_oldest_ok|done].
Qed.
End Rings.

Lemma empty_ring_ok {A} n (zero : A) : (0 < n)%nat -> ring_ok n (empty_ring n zero).
Proof. intros H. split_and!; cbn; rewrite ?length_replicate; lia. Qed.

Lemma ring_is_bounded_queue_witness :
  let r := mkRing [10; 20; 30; 40] 3 4 in
  (exists r', ring_push 4 50 r = Ret r' /\ ring_ok 4 r' /\
     contents 4 r' =
       (if (length (contents 4 r) =? 4)%nat then tail (contents 4 r) else contents 4 r) ++ [50]) /\
  (contents 4 r <> [] ->
   exists b r', ring_pop 4 r = Ret (b, r') /\ ring_ok 4 r' /\ contents 4 r = b :: contents 4 r').
Proof. apply (ring_is_bounded_queue 4); [split_and!; cbn; lia|lia]. Defined.

(** ** The invariant *)

Definition square_ok (c : SquareChannel) : Prop :=
  0 <= sq_duty c <= 3 /\ 0 <= sq_volume c <= 15 /\
  1 <= sq_period_samples c < 0x10000 /\ 0 <= sq_phase c < sq_period_samples c.

Definition wave_ok (c : WaveChannel) : Prop :=
  0 <= wv_volume_shift c <= 4 /\
  1 <= wv_period_samples c < 0x10000 /\ 0 <= wv_phase c < wv_period_samples c.

Definition noise_ok (c : NoiseChannel) : Prop :=
  0 <= ns_volume c <= 15 /\ fits 16 (ns_lfsr c) /\
  1 <= ns_period_samples c < 0x10000 /\ 0 <= ns_phase c < ns_period_samples c.

Definition bank_ok (bank : list Z) : Prop :=
  length bank = kWaveRamHalfwords /\ Forall (fits 16) bank.

Record wf (p : Apu) : Prop := mk_wf {
  wf_fifo0 : ring_ok kFifoCapacity (fifo0 p);
  wf_fifo1 : ring_ok kFifoCapacity (fifo1 p);
  wf_audio : ring_ok kAudioBufferCapacity (audio_buffer_ p);
  wf_bank0 : bank_ok (wave_ram_bank0 p);
  wf_bank1 : bank_ok (wave_ram_bank1 p);
  wf_square0 : square_ok (square0 p);
  wf_square1 : square_ok (square1 p);
  wf_wave : wave_ok (wave_channel_ p);
  wf_noise : noise_ok (noise_channel_ p);
  wf_frame : 0 <= frame_cycle_remainder_ p < kCpuCyclesPerFrameSequencerStep;
  wf_audio_rem : 0 <= audio_cycle_remainder_ p < kCpuCyclesPerAudioSample;
  wf_step : 0 <= frame_step_ p < kFrameSequencerSteps;
  wf_count : fits 64 (frame_step_count_ p)
}.

(** The part of [wf] the sample generator needs; the remainders are free. *)
Record voices_ok (p : Apu) : Prop := mk_voices {
  v_audio : ring_ok kAudioBufferCapacity (audio_buffer_ p);
  v_bank0 : bank_ok (wave_ram_bank0 p);
  v_bank1 : bank_ok (wave_ram_bank1 p);
  v_square0 : square_ok (square0 p);
  v_square1 : square_ok (square1 p);
  v_wave : wave_ok (wave_channel_ p);
  v_noise : noise_ok (noise_channel_ p)
}.

Lemma wf_voices p : wf p -> voices_ok p.
Proof. intros []. by constructor. Qed.

Lemma apu_reset_wf : wf reset.
Proof.
  constructor; try apply empty_ring_ok; try (vm_compute; lia).
  1-2: split; [done|]; apply Forall_replicate; by vm_compute.
  all: vm_compute; split_and!; done || lia.
Qed.

(** *** The generators return *)

Lemma checked_div_ret x y : y <> 0 -> checked_div x y = Ret (x / y).
Proof. intros H. unfold checked_div. by zcmp. Qed.

Lemma checked_mod_ret x y : y <> 0 -> checked_mod x y = Ret (x mod y).
Proof. intros H. unfold checked_mod. by zcmp. Qed.

(** A PSG output: at most the full volume. *)
Definition psg_range (v : Z) : Prop := - (15 * kPsgScale) <= v <= 15 * kPsgScale.

Lemma psg_range_scaled s v : s = 1 \/ s = -1 -> 0 <= v <= 15 -> psg_range (s * v * kPsgScale).
Proof. unfold psg_range, kPsgScale. intros [-> | ->] H; lia. Qed.

Lemma square_output_ret c :
  square_ok c -> exists v, square_output c = Ret v /\ psg_range v.
Proof.
  intros (Hd & Hv & Hp & Hph). unfold square_output. case_match.
  { exists 0. split; [done|]. by vm_compute. }
  rewrite checked_div_ret by lia. cbn [mbind exc_bind].
  assert (Hl : (Z.to_nat (sq_duty c) < length kSquareDutyHighSamples)%nat) by (cbn; lia).
  destruct (array_at_lt _ _ Hl) as (h & _ & ->). cbn [mbind exc_bind].
  eexists. split; [done|]. apply psg_range_scaled; [|done]. case_match; auto.
Qed.

Lemma wave_output_ret p :
  voices_ok p -> exists v, wave_output p = Ret v /\ psg_range v.
Proof.
  intros [_ [Hb0 _] [Hb1 _] _ _ (Hs & Hp & Hph) _]. unfold wave_output.
  destruct (wv_enabled _ && negb _) eqn:E; cycle 1.
  { exists 0. split; [done|]. by vm_compute. }
  apply andb_true_iff in E as [_ E]. apply negb_true_iff, Z.eqb_neq in E.
  set (w := wave_channel_ p) in *.
  rewrite checked_div_ret by lia. cbn [mbind exc_bind].
  rewrite (wrap_id 32 (wv_phase w * 32)) by (unfold fits; lia).
  assert (Hq : 0 <= wv_phase w * 32 / wv_period_samples w < 32).
  { split; [apply Z.div_pos; lia|]. apply Z.div_lt_upper_bound; lia. }
  set (q := wv_phase w * 32 / wv_period_samples w) in *. clearbody q.
  rewrite (wrap_id 8 q) by (unfold fits; lia).
  assert (Hl : (Z.to_nat (q / 4) <
    length (if wave_bank_select_ p then wave_ram_bank1 p else wave_ram_bank0 p))%nat).
  { unfold kWaveRamHalfwords in *. destruct (wave_bank_select_ p);
      rewrite ?Hb0, ?Hb1; Z.to_euclidean_division_equations; lia. }
  destruct (array_at_lt _ _ Hl) as (h & _ & ->). cbn [mbind exc_bind].
  eexists. split; [done|].
  set (s := Z.land _ 0x0F). assert (Hn : 0 <= s < 16).
  { subst s. change 0x0F with (Z.ones 4). rewrite Z.land_ones by lia. by apply Z.mod_pos_bound. }
  clearbody s. unfold psg_range, kPsgScale.
  assert (wv_volume_shift w = 1 \/ wv_volume_shift w = 2 \/ wv_volume_shift w = 3 \/
    wv_volume_shift w = 4) as [-> | [-> | [-> | ->]]] by lia; rewrite Z.shiftr_div_pow2 by lia;
    cbn [Z.pow Z.sub Z.opp Z.add Z.pos_sub Z.pow_pos Pos.iter Z.mul Pos.mul];
    Z.to_euclidean_division_equations; lia.
Qed.

Lemma noise_output_range c : noise_ok c -> psg_range (noise_output c).
Proof.
  intros (Hv & _). unfold noise_output. case_match; [|by vm_compute].
  apply psg_range_scaled; [|done]. case_match; auto.
Qed.

Lemma psg_outputs_ret p :
  voices_ok p -> exists l, psg_channel_outputs p = Ret l /\ length l = 4%nat /\ Forall psg_range l.
Proof.
  intros H. unfold psg_channel_outputs.
  destruct (square_output_ret _ (v_square0 p H)) as (s0 & -> & H0).
  destruct (square_output_ret _ (v_square1 p H)) as (s1 & -> & H1).
  destruct (wave_output_ret p H) as (w & -> & H2).
  pose proof (noise_output_range _ (v_noise p H)). cbn [mbind exc_bind].
  eexists. split; [done|]. split; [done|].
  do 4 (apply Forall_cons_2; [done|]). by apply Forall_nil_2.
Qed.

Lemma mix_sample_ret p : voices_ok p -> exists m, mix_sample p = Ret m.
Proof.
  intros H. destruct (psg_outputs_ret p H) as (l & E & _). unfold mix_sample. rewrite E.
  cbn [mbind exc_bind]. by eexists.
Qed.

Lemma mod_u16 x y : 1 <= y < 0x10000 -> u16 (x mod y) = x mod y.
Proof. intros Hy. apply wrap_id. pose proof (Z.mod_pos_bound x y). unfold fits. lia. Qed.

Lemma advance_square_ret c : square_ok c -> exists c', advance_square c = Ret c' /\ square_ok c'.
Proof.
  intros (Hd & Hv & Hp & Hph). unfold advance_square. case_match; [by exists c|].
  rewrite checked_mod_ret by lia. cbn [mbind exc_bind]. eexists. split; [done|].
  rewrite mod_u16 by lia. split_and!; cbn; try lia; apply Z.mod_pos_bound; lia.
Qed.

Lemma advance_wave_ret c : wave_ok c -> exists c', advance_wave c = Ret c' /\ wave_ok c'.
Proof.
  intros (Hv & Hp & Hph). unfold advance_wave. case_match; [|by exists c].
  rewrite checked_mod_ret by lia. cbn [mbind exc_bind]. eexists. split; [done|].
  rewrite mod_u16 by lia. split_and!; cbn; try lia; apply Z.mod_pos_bound; lia.
Qed.

Lemma shift_lfsr_fits narrow v : fits 16 (shift_lfsr narrow v).
Proof. unfold shift_lfsr. case_match; apply wrap_fits; lia. Qed.

Lemma advance_noise_ret c : noise_ok c -> exists c', advance_noise c = Ret c' /\ noise_ok c'.
Proof.
  intros (Hv & Hl & Hp & Hph). unfold advance_noise. case_match; [|by exists c].
  rewrite checked_mod_ret by lia. cbn [mbind exc_bind]. cbv zeta. rewrite mod_u16 by lia.
  pose proof (Z.mod_pos_bound (ns_phase c + 1) (ns_period_samples c) ltac:(lia)).
  case_match; (eexists; split; [done|]); split_and!; cbn; try lia; try done.
  all: apply shift_lfsr_fits.
Qed.

Lemma advance_ret p :
  voices_ok p -> exists p', advance_psg_generators p = Ret p' /\ voices_ok p' /\
    exists s0 s1 w n, p' = p <| square0 := s0 |> <| square1 := s1 |> <| wave_channel_ := w |>
                            <| noise_channel_ := n |>.
Proof.
  intros [Ha H0 H1 H2 H3 H4 H5]. unfold advance_psg_generators.
  destruct (advance_square_ret _ H2) as (s0 & -> & ?), (advance_square_ret _ H3) as (s1 & -> & ?).
  destruct (advance_wave_ret _ H4) as (w & -> & ?), (advance_noise_ret _ H5) as (n & -> & ?).
  cbn [mbind exc_bind]. eexists. split; [done|]. split; [by constructor|]. by eexists _, _, _, _.
Qed.

(** A sample leaves the registers, the FIFOs and the frame sequencer alone. *)
Definition same_clock (p p' : Apu) : Prop :=
  frame_cycle_remainder_ p' = frame_cycle_remainder_ p /\
  audio_cycle_remainder_ p' = audio_cycle_remainder_ p /\
  frame_step_ p' = frame_step_ p /\ frame_step_count_ p' = frame_step_count_ p /\
  fifo0 p' = fifo0 p /\ fifo1 p' = fifo1 p /\
  soundcnt_x_status_ p' = soundcnt_x_status_ p.

Lemma generate_ret p :
  voices_ok p -> exists p', generate_audio_sample p = Ret p' /\ voices_ok p' /\ same_clock p p' /\
    audio_sample_count_ p' = u64 (audio_sample_count_ p + 1) /\
    exists m, mix_sample p = Ret m /\ last_mixed_sample_ p' = m.
Proof.
  intros H. unfold generate_audio_sample. destruct (mix_sample_ret p H) as (m & E). rewrite E.
  cbn [mbind exc_bind]. unfold push_audio_sample. cbn [audio_buffer_ set_field].
  destruct (ring_is_bounded_queue kAudioBufferCapacity (audio_buffer_ p) m (v_audio p H))
    as ((r & -> & Hr & _) & _); [unfold kAudioBufferCapacity; lia|].
  cbn [mbind exc_bind]. set (p1 := set_field audio_sample_count_ _ _).
  assert (H1 : voices_ok p1) by (destruct H; by constructor).
  destruct (advance_ret p1 H1) as (p' & -> & H' & s0 & s1 & w & n & Ep).
  exists p'. split; [done|]. split; [done|]. subst p'. split; [done|]. split; [done|].
  by exists m.
Qed.

(** ** Ticks

    The clock of the unit: the two remainders and the frame sequencer. *)

Record Clock : Type := mkClock { ck_frame : Z; ck_audio : Z; ck_step : Z; ck_count : Z }.

Definition clock (p : Apu) : Clock :=
  mkClock (frame_cycle_remainder_ p) (audio_cycle_remainder_ p) (frame_step_ p)
    (frame_step_count_ p).

Definition set_clock (k : Clock) (p : Apu) : Apu :=
  p <| frame_cycle_remainder_ := ck_frame k |> <| audio_cycle_remainder_ := ck_audio k |>
    <| frame_step_ := ck_step k |> <| frame_step_count_ := ck_count k |>.

(** The clock [cycles] later. *)
Definition advance_clock (cycles : Z) (k : Clock) : Clock :=
  let n := (ck_frame k + cycles) / kCpuCyclesPerFrameSequencerStep in
  mkClock ((ck_frame k + cycles) mod kCpuCyclesPerFrameSequencerStep)
    ((ck_audio k + cycles) mod kCpuCyclesPerAudioSample)
    ((ck_step k + n) mod kFrameSequencerSteps) (u64 (ck_count k + n)).

(** [n] samples. *)
Fixpoint generate_n (n : nat) (p : Apu) : exc Apu :=
  match n with
  | O => Ret p
  | S n' => p ← generate_audio_sample p; generate_n n' p
  end.

Lemma set_clock_clock p : set_clock (clock p) p = p.
Proof. by destruct p. Qed.

Lemma set_clock_set k k' p : set_clock k (set_clock k' p) = set_clock k p.
Proof. reflexivity. Qed.

Lemma clock_set k p : clock (set_clock k p) = k.
Proof. by destruct k. Qed.

(** The generators do not look at the clock. *)
Lemma advance_set_clock k p :
  advance_psg_generators (set_clock k p) = set_clock k <$> advance_psg_generators p.
Proof.
  unfold advance_psg_generators. cbn [square0 square1 wave_channel_ noise_channel_ set_clock set_field].
  destruct (advance_square (square0 p)); [|done]. cbn [mbind exc_bind].
  destruct (advance_square (square1 p)); [|done]. cbn [mbind exc_bind].
  destruct (advance_wave _); [|done]. cbn [mbind exc_bind].
  by destruct (advance_noise _).
Qed.

Lemma generate_set_clock k p :
  generate_audio_sample (set_clock k p) = set_clock k <$> generate_audio_sample p.
Proof.
  unfold generate_audio_sample. change (mix_sample (set_clock k p)) with (mix_sample p).
  destruct (mix_sample p) as [m|]; [|done]. cbn [mbind exc_bind].
  unfold push_audio_sample.
  change (audio_buffer_ (set_clock k p <| last_mixed_sample_ := m |>)) with (audio_buffer_ p).
  change (audio_buffer_ (p <| last_mixed_sample_ := m |>)) with (audio_buffer_ p).
  destruct (ring_push _ _ _) as [r|]; [|done]. cbn [mbind exc_bind].
  rewrite <- advance_set_clock. by f_equal.
Qed.

Lemma generate_n_set_clock n k p :
  generate_n n (set_clock k p) = set_clock k <$> generate_n n p.
Proof.
  revert p. induction n as [|n IH]; intros p; [done|]. cbn [generate_n].
  rewrite generate_set_clock. destruct (generate_audio_sample p) as [p'|]; [|done]. apply IH.
Qed.

Lemma generate_n_app n m p :
  generate_n (n + m) p = (p' ← generate_n n p; generate_n m p').
Proof.
  revert p. induction n as [|n IH]; intros p; [done|]. cbn.
  destruct (generate_audio_sample p); [|done]. apply IH.
Qed.

Lemma generate_n_ret n p :
  voices_ok p -> exists p', generate_n n p = Ret p' /\ voices_ok p' /\ same_clock p p'.
Proof.
  revert p. induction n as [|n IH]; intros p H; [by exists p|]. cbn [generate_n].
  destruct (generate_ret p H) as (p1 & -> & H1 & C1 & _). cbn [mbind exc_bind].
  destruct (IH p1 H1) as (p2 & E & H2 & C2). exists p2. split; [done|]. split; [done|].
  unfold same_clock in *. intuition congruence.
Qed.

Lemma frame_loop_eq n last p :
  0 <= frame_cycle_remainder_ p -> 0 <= frame_step_ p < kFrameSequencerSteps ->
  u64 (frame_step_count_ p) = frame_step_count_ p ->
  n = Z.to_nat (frame_cycle_remainder_ p / kCpuCyclesPerFrameSequencerStep) ->
  exists last', frame_loop n last p =
  Ret (last', set_clock (mkClock (frame_cycle_remainder_ p mod kCpuCyclesPerFrameSequencerStep)
    (audio_cycle_remainder_ p) ((frame_step_ p + Z.of_nat n) mod kFrameSequencerSteps)
    (u64 (frame_step_count_ p + Z.of_nat n))) p) /\
  (last' = if (n =? 0)%nat then last
           else let step := (frame_step_ p + Z.of_nat n) mod kFrameSequencerSteps in
                Some (mkApuFrameStep step (frame_length_clock step) (frame_sweep_clock step)
                        (frame_envelope_clock step))).
Proof.
  unfold kCpuCyclesPerFrameSequencerStep, kFrameSequencerSteps.
  revert last p. induction n as [|n IH]; intros last p Hr Hs Hc Hn.
  - assert (Hlt : frame_cycle_remainder_ p < 32768).
    { assert (frame_cycle_remainder_ p / 32768 < 1); [|Z.to_euclidean_division_equations; lia].
      pose proof (Z.div_pos (frame_cycle_remainder_ p) 32768). lia. }
    exists last. split; [|done]. cbn [frame_loop]. destruct (Z.leb_spec kCpuCyclesPerFrameSequencerStep
      (frame_cycle_remainder_ p)) as [Hle|_]; [unfold kCpuCyclesPerFrameSequencerStep in Hle; lia|].
    do 2 f_equal. change (Z.of_nat 0) with 0.
    rewrite !Z.add_0_r, Hc, !Z.mod_small by lia. by destruct p.
  - assert (Hge : 32768 <= frame_cycle_remainder_ p).
    { destruct (Z.le_gt_cases 32768 (frame_cycle_remainder_ p)); [done|].
      rewrite Z.div_small in Hn by lia. done. }
    cbn [frame_loop]. destruct (Z.leb_spec kCpuCyclesPerFrameSequencerStep
      (frame_cycle_remainder_ p)) as [_|Hlt]; [|unfold kCpuCyclesPerFrameSequencerStep in Hlt; lia].
    unfold kCpuCyclesPerFrameSequencerStep, kFrameSequencerSteps. cbv zeta.
    rewrite (wrap_id 8) by (pose proof (Z.mod_pos_bound (frame_step_ p + 1) 8); unfold fits; lia).
    set (step := (frame_step_ p + 1) mod 8).
    set (p1 := set_field frame_step_count_ _ _).
    set (last1 := Some _).
    assert (Hp1 : p1 = set_clock (mkClock (frame_cycle_remainder_ p - 32768)
      (audio_cycle_remainder_ p) step (u64 (frame_step_count_ p + 1))) p) by reflexivity.
    clearbody p1. destruct (IH last1 p1) as (last' & E & El).
    + rewrite Hp1. change (0 <= frame_cycle_remainder_ p - 32768). lia.
    + rewrite Hp1. apply Z.mod_pos_bound. lia.
    + rewrite Hp1. apply wrap_wrap. lia.
    + rewrite Hp1. change (n = Z.to_nat ((frame_cycle_remainder_ p - 32768) / 32768)).
      replace (frame_cycle_remainder_ p - 32768) with (frame_cycle_remainder_ p + (-1) * 32768) by lia.
      rewrite Z.div_add by lia.
      pose proof (Z.div_pos (frame_cycle_remainder_ p) 32768). lia.
    + exists last'. rewrite E. split.
      * rewrite Hp1, set_clock_set, <- Hp1. f_equal. f_equal. f_equal. rewrite Hp1.
        cbn [set_clock frame_cycle_remainder_ audio_cycle_remainder_ frame_step_ frame_step_count_
          ck_frame ck_audio ck_step ck_count set_field].
        rewrite wrap_add_l. subst step. rewrite Z.add_mod_idemp_l by lia.
        replace (frame_cycle_remainder_ p - 32768) with (frame_cycle_remainder_ p + (-1) * 32768) by lia.
        rewrite Z.mod_add by lia. f_equal; f_equal; lia.
      * rewrite El, Hp1. cbn [Nat.eqb].
        change (frame_step_ (set_clock _ p)) with step.
        assert (Es : (step + Z.of_nat n) mod 8 = (frame_step_ p + Z.of_nat (S n)) mod 8).
        { subst step. rewrite Z.add_mod_idemp_l by lia. f_equal. lia. }
        rewrite Es. destruct (Nat.eqb_spec n 0) as [En|]; [|done]. subst last1.
        rewrite En. done.
Qed.

Definition with_audio (r : Z) (k : Clock) : Clock :=
  mkClock (ck_frame k) r (ck_step k) (ck_count k).

Lemma audio_loop_eq n p :
  voices_ok p -> 0 <= audio_cycle_remainder_ p ->
  n = Z.to_nat (audio_cycle_remainder_ p / kCpuCyclesPerAudioSample) ->
  audio_loop n p =
  set_clock (with_audio (audio_cycle_remainder_ p mod kCpuCyclesPerAudioSample) (clock p)) <$>
    generate_n n p.
Proof.
  unfold kCpuCyclesPerAudioSample. revert p. induction n as [|n IH]; intros p Hv Hr Hn.
  - assert (Hlt : audio_cycle_remainder_ p < 512).
    { assert (audio_cycle_remainder_ p / 512 < 1); [|Z.to_euclidean_division_equations; lia].
      pose proof (Z.div_pos (audio_cycle_remainder_ p) 512). lia. }
    cbn [audio_loop generate_n]. destruct (Z.leb_spec kCpuCyclesPerAudioSample
      (audio_cycle_remainder_ p)) as [Hle|_]; [unfold kCpuCyclesPerAudioSample in Hle; lia|].
    rewrite Z.mod_small by lia. cbn [fmap exc_fmap]. f_equal. symmetry. apply set_clock_clock.
  - assert (Hge : 512 <= audio_cycle_remainder_ p).
    { destruct (Z.le_gt_cases 512 (audio_cycle_remainder_ p)); [done|].
      rewrite Z.div_small in Hn by lia. done. }
    cbn [audio_loop generate_n]. destruct (Z.leb_spec kCpuCyclesPerAudioSample
      (audio_cycle_remainder_ p)) as [_|Hlt]; [|unfold kCpuCyclesPerAudioSample in Hlt; lia].
    set (k := with_audio (audio_cycle_remainder_ p - 512) (clock p)).
    change (p <| audio_cycle_remainder_ ::= fun r => r - kCpuCyclesPerAudioSample |>)
      with (set_clock k p).
    rewrite generate_set_clock. destruct (generate_ret p Hv) as (p1 & -> & Hv1 & Hc & _).
    cbn [mbind exc_bind fmap exc_fmap].
    assert (Hd : (audio_cycle_remainder_ p - 512) / 512 = audio_cycle_remainder_ p / 512 - 1).
    { replace (audio_cycle_remainder_ p - 512) with (audio_cycle_remainder_ p + (-1) * 512) by lia.
      rewrite Z.div_add by lia. lia. }
    assert (Hm : (audio_cycle_remainder_ p - 512) mod 512 = audio_cycle_remainder_ p mod 512).
    { replace (audio_cycle_remainder_ p - 512) with (audio_cycle_remainder_ p + (-1) * 512) by lia.
      by rewrite Z.mod_add by lia. }
    rewrite IH.
    + change (audio_cycle_remainder_ (set_clock k p1)) with (audio_cycle_remainder_ p - 512).
      rewrite Hm, generate_n_set_clock, clock_set. by destruct (generate_n n p1).
    + by destruct Hv1; constructor.
    + change (0 <= audio_cycle_remainder_ p - 512). lia.
    + change (n = Z.to_nat ((audio_cycle_remainder_ p - 512) / 512)). rewrite Hd.
      pose proof (Z.div_pos (audio_cycle_remainder_ p) 512). lia.
Qed.

(** The ticks of [tick cycles] that fit the 32-bit remainders. *)
Definition tick_fits (cycles : Z) : Prop := 0 <= cycles <= 2 ^ 32 - kCpuCyclesPerFrameSequencerStep.

Definition step_result (last : option ApuFrameStep) (n step : Z) : option ApuFrameStep :=
  if n =? 0 then last
  else Some (mkApuFrameStep step (frame_length_clock step) (frame_sweep_clock step)
               (frame_envelope_clock step)).

Lemma tick_eq cycles p :
  wf p -> master_enabled p = true -> tick_fits cycles ->
  tick cycles p =
  (p' ← generate_n (Z.to_nat ((audio_cycle_remainder_ p + cycles) / kCpuCyclesPerAudioSample)) p;
   let n := (frame_cycle_remainder_ p + cycles) / kCpuCyclesPerFrameSequencerStep in
   Ret (step_result None n ((frame_step_ p + n) mod kFrameSequencerSteps),
        set_clock (advance_clock cycles (clock p)) p')).
Proof.
  intros H Hm Hc. pose proof (wf_count p H) as Hf. unfold tick. rewrite Hm. cbn [negb].
  pose proof (wf_frame p H) as Hfr. pose proof (wf_audio_rem p H) as Har.
  unfold tick_fits in Hc. cbv zeta.
  set (f := frame_cycle_remainder_ p) in *. set (a := audio_cycle_remainder_ p) in *.
  unfold kCpuCyclesPerFrameSequencerStep, kCpuCyclesPerAudioSample in Hc, Hfr, Har.
  set (p0 := set_field audio_cycle_remainder_ _ _).
  assert (Hp0 : p0 = set_clock (mkClock (f + cycles) (a + cycles) (frame_step_ p)
    (frame_step_count_ p)) p).
  { subst p0 f a. unfold set_clock. rewrite <- (wrap_id 32 (frame_cycle_remainder_ p + cycles)),
      <- (wrap_id 32 (audio_cycle_remainder_ p + cycles)) by (unfold fits; lia). reflexivity. }
  clearbody p0. subst p0. set (k0 := mkClock _ _ _ _).
  destruct (frame_loop_eq (Z.to_nat ((f + cycles) / kCpuCyclesPerFrameSequencerStep)) None
    (set_clock k0 p)) as (last & E & El).
  - change (0 <= f + cycles). lia.
  - apply H.
  - by apply wrap_id.
  - done.
  - change (frame_cycle_remainder_ (set_clock k0 p)) with (f + cycles) in *.
    change (audio_cycle_remainder_ (set_clock k0 p)) with (a + cycles) in *.
    change (frame_step_ (set_clock k0 p)) with (frame_step_ p) in *.
    change (frame_step_count_ (set_clock k0 p)) with (frame_step_count_ p) in *.
    rewrite E. cbn [mbind exc_bind]. rewrite set_clock_set.
    assert (Hn : 0 <= (f + cycles) / kCpuCyclesPerFrameSequencerStep) by (apply Z.div_pos; [lia|reflexivity]).
    rewrite Z2Nat.id in * by done.
    set (n := (f + cycles) / kCpuCyclesPerFrameSequencerStep) in *.
    set (k1 := mkClock _ _ _ _).
    change (audio_cycle_remainder_ (set_clock k1 p)) with (a + cycles).
    rewrite audio_loop_eq.
    + rewrite generate_n_set_clock, clock_set.
      change (audio_cycle_remainder_ (set_clock k1 p)) with (a + cycles).
      destruct (generate_n _ p) as [p'|]; [|done]. cbn [mbind exc_bind fmap exc_fmap].
      do 2 f_equal. rewrite El. unfold step_result.
      destruct (Z.eqb_spec n 0) as [E0|E0], (Nat.eqb_spec (Z.to_nat n) 0); try lia; done.
    + by destruct (wf_voices p H); constructor.
    + change (0 <= a + cycles). lia.
    + done.
Qed.

Lemma generate_n_count n p p' :
  voices_ok p -> generate_n n p = Ret p' -> fits 64 (audio_sample_count_ p) ->
  audio_sample_count_ p' = u64 (audio_sample_count_ p + Z.of_nat n).
Proof.
  revert p. induction n as [|n IH]; intros p Hv.
  - intros [= <-] Hf. rewrite Z.add_0_r. symmetry. by apply wrap_id.
  - cbn [generate_n]. destruct (generate_ret p Hv) as (p1 & -> & Hv1 & _ & Hc & _).
    cbn [mbind exc_bind]. intros E Hf.
    rewrite (IH p1 Hv1 E) by (rewrite Hc; apply wrap_fits; lia).
    rewrite Hc, wrap_add_l. f_equal. lia.
Qed.

Lemma advance_clock_range cycles k :
  0 <= ck_frame (advance_clock cycles k) < kCpuCyclesPerFrameSequencerStep /\
  0 <= ck_audio (advance_clock cycles k) < kCpuCyclesPerAudioSample /\
  0 <= ck_step (advance_clock cycles k) < kFrameSequencerSteps /\
  fits 64 (ck_count (advance_clock cycles k)).
Proof.
  split_and!; cbn [advance_clock ck_frame ck_audio ck_step ck_count];
    [by apply Z.mod_pos_bound..|]. apply wrap_fits. lia.
Qed.

(** [wf] is the voices, the FIFOs and the clock. *)
Lemma wf_set_clock k p p' :
  wf p -> voices_ok p' -> same_clock p p' ->
  0 <= ck_frame k < kCpuCyclesPerFrameSequencerStep ->
  0 <= ck_audio k < kCpuCyclesPerAudioSample -> 0 <= ck_step k < kFrameSequencerSteps ->
  fits 64 (ck_count k) -> wf (set_clock k p').
Proof.
  intros [F0 F1 _ _ _ _ _ _ _ _ _ _ _] [] (_ & _ & _ & _ & E0 & E1 & _) H1 H2 H3 H4.
  constructor; try done; cbn; by rewrite ?E0, ?E1.
Qed.

Lemma tick_ret cycles p :
  wf p -> master_enabled p = true -> tick_fits cycles ->
  let n := (frame_cycle_remainder_ p + cycles) / kCpuCyclesPerFrameSequencerStep in
  let m := Z.to_nat ((audio_cycle_remainder_ p + cycles) / kCpuCyclesPerAudioSample) in
  exists p', generate_n m p = Ret p' /\ voices_ok p' /\ same_clock p p' /\
    tick cycles p = Ret (step_result None n ((frame_step_ p + n) mod kFrameSequencerSteps),
                         set_clock (advance_clock cycles (clock p)) p') /\
    wf (set_clock (advance_clock cycles (clock p)) p').
Proof.
  intros H Hm Hc. cbv zeta.
  destruct (generate_n_ret (Z.to_nat ((audio_cycle_remainder_ p + cycles) / kCpuCyclesPerAudioSample))
    p (wf_voices p H)) as (p' & E & Hv & Hs).
  exists p'. split_and!; [done|done|done| |].
  - rewrite tick_eq, E by done. reflexivity.
  - destruct (advance_clock_range cycles (clock p)) as (R1 & R2 & R3 & R4).
    by eapply wf_set_clock.
Qed.

(** a tick of the enabled unit always returns and keeps the invariant; the
    frame sequencer advances one of its eight steps for each 32768 cycles and
    reports the last one with its length, sweep and envelope clocks, one
    sample is mixed for each 512 cycles, and the remainders carry over. *)
Theorem tick_clocks (cycles : Z) (p : Apu) :
  wf p -> master_enabled p = true -> tick_fits cycles ->
  fits 64 (audio_sample_count_ p) ->
  let steps := (frame_cycle_remainder_ p + cycles) / kCpuCyclesPerFrameSequencerStep in
  let samples := (audio_cycle_remainder_ p + cycles) / kCpuCyclesPerAudioSample in
  exists last p', tick cycles p = Ret (last, p') /\ wf p' /\
    frame_step_ p' = (frame_step_ p + steps) mod kFrameSequencerSteps /\
    frame_step_count_ p' = u64 (frame_step_count_ p + steps) /\
    audio_sample_count_ p' = u64 (audio_sample_count_ p + samples) /\
    frame_cycle_remainder_ p' =
      (frame_cycle_remainder_ p + cycles) mod kCpuCyclesPerFrameSequencerStep /\
    audio_cycle_remainder_ p' = (audio_cycle_remainder_ p + cycles) mod kCpuCyclesPerAudioSample /\
    last = step_result None steps (frame_step_ p').
Proof.
  intros H Hm Hc Ha. cbv zeta.
  destruct (tick_ret cycles p H Hm Hc) as (p' & E & Hv & Hs & Ht & Hw).
  eexists _, _. split; [exact Ht|]. split; [done|]. split_and!; try done.
  change (audio_sample_count_ (set_clock _ p')) with (audio_sample_count_ p').
  rewrite (generate_n_count _ p p' (wf_voices p H) E Ha), Z2Nat.id; [done|].
  apply Z.div_pos; [|reflexivity]. pose proof (wf_audio_rem p H). unfold tick_fits in Hc. lia.
Qed.

(** The unit with sound on. *)
Definition enabled : Apu := write_soundcnt_x 0x0080 reset.

Lemma write_soundcnt_x_wf v p : wf p -> wf (write_soundcnt_x v p).
Proof.
  intros H. unfold write_soundcnt_x. case_match.
  - pose proof apu_reset_wf as [R0 R1 R2 _ _ R5 R6 R7 R8 R9 R10 R11 R12].
    destruct H. constructor; done.
  - by destruct H; constructor.
Qed.

Lemma enabled_wf : wf enabled.
Proof. apply write_soundcnt_x_wf, apu_reset_wf. Qed.

Lemma tick_clocks_witness :
  exists last p', tick 100000 enabled = Ret (last, p') /\ wf p' /\
    frame_step_ p' = (0 + 100000 / 32768) mod 8 /\
    frame_step_count_ p' = u64 (0 + 100000 / 32768) /\
    audio_sample_count_ p' = u64 (0 + 100000 / 512) /\
    frame_cycle_remainder_ p' = 100000 mod 32768 /\
    audio_cycle_remainder_ p' = 100000 mod 512 /\
    last = step_result None (100000 / 32768) (frame_step_ p').
Proof.
  apply (tick_clocks 100000 enabled enabled_wf).
  - reflexivity.
  - unfold tick_fits, kCpuCyclesPerFrameSequencerStep. lia.
  - by apply (bool_decide_unpack _).
Defined.

Lemma advance_clock_add a b k :
  advance_clock (a + b) k = advance_clock b (advance_clock a k).
Proof.
  unfold advance_clock, kCpuCyclesPerFrameSequencerStep, kCpuCyclesPerAudioSample,
    kFrameSequencerSteps. cbn [ck_frame ck_audio ck_step ck_count].
  assert (E : forall x m, 0 < m -> (x + (a + b)) / m = (x + a) / m + ((x + a) mod m + b) / m).
  { intros x m Hm. rewrite Z.add_assoc. rewrite (Z.div_mod (x + a) m) at 1 by lia.
    replace (m * ((x + a) / m) + (x + a) mod m + b)
      with ((x + a) mod m + b + (x + a) / m * m) by lia.
    rewrite Z.div_add by lia. lia. }
  rewrite E by lia. rewrite !(Z.add_assoc _ a b), !Z.add_mod_idemp_l by lia.
  rewrite wrap_add_l, !Z.add_assoc. reflexivity.
Qed.

Lemma step_result_split n1 n2 step :
  0 <= n1 -> 0 <= n2 ->
  step_result None (n1 + n2) ((step + (n1 + n2)) mod kFrameSequencerSteps) =
  step_result (step_result None n1 ((step + n1) mod kFrameSequencerSteps)) n2
    (((step + n1) mod kFrameSequencerSteps + n2) mod kFrameSequencerSteps).
Proof.
  intros H1 H2. rewrite Z.add_mod_idemp_l, Z.add_assoc by (unfold kFrameSequencerSteps; lia).
  unfold step_result. destruct (Z.eqb_spec n2 0) as [->|].
  - by rewrite !Z.add_0_r.
  - destruct (Z.eqb_spec (n1 + n2) 0); [lia|done].
Qed.

Lemma step_result_last last n step :
  step_result last n step =
  match step_result None n step with None => last | Some _ => step_result None n step end.
Proof. unfold step_result. by destruct (n =? 0). Qed.

(** C28: the cycles of a tick may be delivered in two parts: the samples, the
    sequencer and every register end up the same, and the step reported last
    is the same, so the mix does not depend on how the scheduler slices time. *)
Theorem tick_split (c1 c2 : Z) (p : Apu) :
  wf p -> master_enabled p = true -> 0 <= c1 -> 0 <= c2 -> tick_fits (c1 + c2) ->
  exists last1 p1 last2 p2, tick c1 p = Ret (last1, p1) /\ tick c2 p1 = Ret (last2, p2) /\
    tick (c1 + c2) p = Ret (match last2 with None => last1 | Some _ => last2 end, p2).
Proof.
  intros H Hm Hc1 Hc2 Hc. unfold tick_fits in Hc.
  destruct (tick_ret c1 p H Hm ltac:(unfold tick_fits; lia)) as (q1 & G1 & V1 & S1 & T1 & W1).
  set (p1 := set_clock (advance_clock c1 (clock p)) q1) in *.
  assert (Hm1 : master_enabled p1 = true).
  { unfold master_enabled. change (soundcnt_x_status_ p1) with (soundcnt_x_status_ q1).
    destruct S1 as (_ & _ & _ & _ & _ & _ & ->). done. }
  destruct (tick_ret c2 p1 W1 Hm1 ltac:(unfold tick_fits; lia)) as (q2 & G2 & V2 & S2 & T2 & W2).
  destruct (tick_ret (c1 + c2) p H Hm ltac:(unfold tick_fits; lia))
    as (q & G & V & S & T & W).
  eexists _, _, _, _. split; [exact T1|]. split; [exact T2|]. rewrite T.
  pose proof (wf_frame p H) as Hfr. pose proof (wf_audio_rem p H) as Har.
  assert (Ediv : forall x m, 0 < m ->
    (x + (c1 + c2)) / m = (x + c1) / m + ((x + c1) mod m + c2) / m).
  { intros x m Hm'. rewrite Z.add_assoc. rewrite (Z.div_mod (x + c1) m) at 1 by lia.
    replace (m * ((x + c1) / m) + (x + c1) mod m + c2)
      with ((x + c1) mod m + c2 + (x + c1) / m * m) by lia.
    rewrite Z.div_add by lia. lia. }
  (* the samples *)
  unfold p1 in G2. rewrite generate_n_set_clock in G2.
  change (audio_cycle_remainder_ (set_clock (advance_clock c1 (clock p)) q1))
    with ((audio_cycle_remainder_ p + c1) mod kCpuCyclesPerAudioSample) in G2.
  rewrite Ediv, Z2Nat.inj_add, generate_n_app, G1 in G.
  2, 3: unfold kCpuCyclesPerAudioSample; apply Z.div_pos; try lia;
    pose proof (Z.mod_pos_bound (audio_cycle_remainder_ p + c1) 512); lia.
  2: reflexivity.
  cbn [mbind exc_bind] in G. rewrite G in G2. cbn [fmap exc_fmap] in G2.
  injection G2 as <-. rewrite set_clock_set.
  (* the clock *)
  change (clock p1) with (advance_clock c1 (clock p)). rewrite <- advance_clock_add.
  change (frame_cycle_remainder_ p1)
    with ((frame_cycle_remainder_ p + c1) mod kCpuCyclesPerFrameSequencerStep).
  change (frame_step_ p1) with ((frame_step_ p + (frame_cycle_remainder_ p + c1) /
    kCpuCyclesPerFrameSequencerStep) mod kFrameSequencerSteps).
  do 2 f_equal. rewrite Ediv by reflexivity. rewrite step_result_split.
  - apply step_result_last.
  - unfold kCpuCyclesPerFrameSequencerStep; apply Z.div_pos; lia.
  - unfold kCpuCyclesPerFrameSequencerStep; apply Z.div_pos; try lia.
    pose proof (Z.mod_pos_bound (frame_cycle_remainder_ p + c1) 32768). lia.
Qed.

Lemma tick_split_witness :
  exists last1 p1 last2 p2, tick 600 enabled = Ret (last1, p1) /\ tick 70000 p1 = Ret (last2, p2) /\
    tick (600 + 70000) enabled = Ret (match last2 with None => last1 | Some _ => last2 end, p2).
Proof.
  apply (tick_split 600 70000 enabled enabled_wf); try lia.
  - reflexivity.
  - unfold tick_fits, kCpuCyclesPerFrameSequencerStep. lia.
Defined.

(** ** Reachable states *)

Lemma set_fifo_wf channel r p : wf p -> ring_ok kFifoCapacity r -> wf (set_fifo channel r p).
Proof. intros []; destruct channel; by constructor. Qed.

Lemma fifo_ok channel p : wf p -> ring_ok kFifoCapacity (fifo channel p).
Proof. intros []. by destruct channel. Qed.

Lemma clear_fifo_wf channel p : wf p -> wf (clear_fifo channel p).
Proof. intros H. apply set_fifo_wf; [done|]. apply empty_ring_ok. unfold kFifoCapacity. lia. Qed.

Lemma push_fifo_ret channel v p :
  wf p -> exists p', push_fifo channel v p = Ret p' /\ wf p' /\
    exists r, p' = set_fifo channel r p /\
      contents kFifoCapacity r =
        (if (length (contents kFifoCapacity (fifo channel p)) =? kFifoCapacity)%nat
         then tail (contents kFifoCapacity (fifo channel p))
         else contents kFifoCapacity (fifo channel p)) ++ [v].
Proof.
  intros H. unfold push_fifo.
  destruct (ring_is_bounded_queue kFifoCapacity (fifo channel p) v (fifo_ok channel p H))
    as ((r & -> & Hr & Hc) & _); [unfold kFifoCapacity; lia|].
  cbn [mbind exc_bind]. eexists. split; [done|]. split; [by apply set_fifo_wf|]. by exists r.
Qed.

Lemma write_fifo_ret channel v p : wf p -> exists p', write_fifo channel v p = Ret p' /\ wf p'.
Proof.
  intros H. unfold write_fifo.
  do 3 (match goal with
        | H : wf ?q |- context [push_fifo channel ?s ?q] =>
            let q' := fresh "q" in let Hw := fresh "Hw" in
            destruct (push_fifo_ret channel s q H) as (q' & -> & Hw & _); clear H
        end; cbn [mbind exc_bind]).
  match goal with
  | H : wf ?q |- context [push_fifo channel ?s ?q] =>
      destruct (push_fifo_ret channel s q H) as (q' & -> & Hw' & _)
  end. by exists q'.
Qed.

Lemma pop_fifo_ret channel p :
  wf p -> exists s p', pop_fifo channel p = Ret (s, p') /\ wf p' /\
    match contents kFifoCapacity (fifo channel p) with
    | [] => s = mkDirectSoundSample false 0 true /\ p' = p
    | v :: rest =>
        s = mkDirectSoundSample true v (length rest <=? kFifoRefillThreshold)%nat /\
        contents kFifoCapacity (fifo channel p') = rest
    end.
Proof.
  intros H. pose proof (fifo_ok channel p H) as Hf. unfold pop_fifo, fifo_size.
  pose proof (contents_length kFifoCapacity _ Hf) as Hl.
  destruct (contents kFifoCapacity (fifo channel p)) as [|v rest] eqn:Ec.
  { rewrite <- Hl. by exists (mkDirectSoundSample false 0 true), p. }
  rewrite <- Hl. cbn [length Nat.eqb].
  destruct (ring_is_bounded_queue kFifoCapacity (fifo channel p) v Hf)
    as [_ Hpop]; [unfold kFifoCapacity; lia|].
  destruct Hpop as (w & r & -> & Hr & Ew); [by rewrite Ec|].
  rewrite Ec in Ew. injection Ew as <- Erest. cbn [mbind exc_bind].
  assert (Efifo : fifo channel (set_fifo channel r p) = r) by (by destruct channel).
  eexists _, _. split; [done|]. split; [by apply set_fifo_wf|].
  rewrite Efifo. split; [|done]. unfold fifo_refill_needed, fifo_size. rewrite Efifo.
  by rewrite <- (contents_length kFifoCapacity r Hr), <- Erest.
Qed.

Lemma set_latched_wf channel v p : wf p -> wf (set_latched channel v p).
Proof. intros []; destruct channel; by constructor. Qed.

Lemma channel_overflow_ret channel timer p :
  wf p -> exists s p', channel_overflow channel timer p = Ret (s, p') /\ wf p'.
Proof.
  intros H. unfold channel_overflow. case_match; [|by eexists _, _].
  destruct (pop_fifo_ret channel p H) as (s & p' & -> & H' & _). cbn [mbind exc_bind].
  eexists _, _. split; [done|]. by apply set_latched_wf.
Qed.

Lemma timer_overflow_ret timer p :
  wf p -> exists r p', timer_overflow timer p = Ret (r, p') /\ wf p'.
Proof.
  intros H. unfold timer_overflow. case_match; [by eexists _, _|].
  destruct (channel_overflow_ret DirectSoundChannel.a timer p H) as (a & p1 & -> & H1).
  cbn [mbind exc_bind].
  destruct (channel_overflow_ret DirectSoundChannel.b timer p1 H1) as (b & p2 & -> & H2).
  cbn [mbind exc_bind]. by eexists _, _.
Qed.

Lemma write_wave_ram_ret index v p :
  wf p -> (index < kWaveRamHalfwords)%nat -> fits 16 v ->
  exists p', write_wave_ram index v p = Ret p' /\ wf p'.
Proof.
  intros H Hi Hv. unfold write_wave_ram. rewrite (proj2 (Nat.leb_gt _ _)) by done.
  assert (Hput : forall l, bank_ok l -> array_put l index v = Ret (<[index := v]> l) /\
    bank_ok (<[index := v]> l)).
  { intros l [Hl Hf]. split; [by apply array_put_lt; rewrite Hl|].
    split; [by rewrite length_insert|]. by apply Forall_insert. }
  destruct (wave_bank_select_ p).
  - destruct (Hput _ (wf_bank0 p H)) as [-> Hb]. cbn [mbind exc_bind].
    eexists. split; [done|]. by destruct H; constructor.
  - destruct (Hput _ (wf_bank1 p H)) as [-> Hb]. cbn [mbind exc_bind].
    eexists. split; [done|]. by destruct H; constructor.
Qed.

Lemma pop_audio_ret p : wf p -> exists s p', pop_audio_sample p = Ret (s, p') /\ wf p'.
Proof.
  intros H. unfold pop_audio_sample. case_match eqn:E; [by eexists _, _|].
  apply Nat.eqb_neq in E. pose proof (wf_audio p H) as Ha.
  pose proof (contents_length kAudioBufferCapacity _ Ha) as Hl.
  destruct (ring_is_bounded_queue kAudioBufferCapacity (audio_buffer_ p) silence Ha) as [_ Hpop];
    [unfold kAudioBufferCapacity; lia|].
  destruct Hpop as (w & r & -> & Hr & _).
  { intros E'. rewrite E' in Hl. cbn in Hl. lia. }
  cbn [mbind exc_bind]. eexists _, _. split; [done|]. by destruct H; constructor.
Qed.

(** The operations of the unit, as the bus, the timers and the front end call
    them; arguments have their C++ types. *)
Inductive apu_op : Type :=
  | op_soundcnt_l (v : Z) | op_soundcnt_h (v : Z) | op_soundcnt_x (v : Z) | op_soundbias (v : Z)
  | op_wave_bank (b : bool) | op_wave_ram (index : nat) (v : Z)
  | op_fifo (channel : DirectSoundChannel.t) (v : Z)
  | op_square (channel duty volume period : Z) | op_wave (shift period : Z)
  | op_noise (volume period : Z) (narrow : bool) | op_disable (channel : Z)
  | op_tick (cycles : Z) | op_overflow (timer : Z) | op_pop | op_clear | op_reset.

Definition op_typed (op : apu_op) : Prop :=
  match op with
  | op_wave_ram index v => (index < kWaveRamHalfwords)%nat /\ fits 16 v
  | op_square _ _ volume period => 0 <= volume /\ fits 16 period
  | op_wave shift period => 0 <= shift /\ fits 16 period
  | op_noise volume period _ => 0 <= volume /\ fits 16 period
  | op_tick cycles => tick_fits cycles
  | _ => True
  end.

Definition run_op (op : apu_op) (p : Apu) : exc Apu :=
  match op with
  | op_soundcnt_l v => Ret (write_soundcnt_l v p)
  | op_soundcnt_h v => Ret (write_soundcnt_h v p)
  | op_soundcnt_x v => Ret (write_soundcnt_x v p)
  | op_soundbias v => Ret (write_soundbias v p)
  | op_wave_bank b => Ret (set_wave_bank_select b p)
  | op_wave_ram index v => write_wave_ram index v p
  | op_fifo channel v => write_fifo channel v p
  | op_square channel duty volume period => Ret (configure_square_channel channel duty volume period p)
  | op_wave shift period => Ret (configure_wave_channel shift period p)
  | op_noise volume period narrow => Ret (configure_noise_channel volume period narrow p)
  | op_disable channel => Ret (disable_psg_channel channel p)
  | op_tick cycles => snd <$> tick cycles p
  | op_overflow timer => snd <$> timer_overflow timer p
  | op_pop => snd <$> pop_audio_sample p
  | op_clear => Ret (clear_audio_buffer p)
  | op_reset => Ret reset
  end.

Lemma low2_range d : 0 <= u8 (Z.land d 0x3) <= 3.
Proof.
  change (Z.land d 0x3) with (Z.land d (Z.ones 2)).
  rewrite Z.land_ones by lia. change (2 ^ 2) with 4.
  pose proof (Z.mod_pos_bound d 4 ltac:(lia)).
  rewrite (wrap_id 8) by (unfold fits; lia). lia.
Qed.

Lemma period_ok period : fits 16 period -> 1 <= Z.max 1 period < 0x10000.
Proof. unfold fits. lia. Qed.

Lemma run_op_wf op p : wf p -> op_typed op -> exists p', run_op op p = Ret p' /\ wf p'.
Proof.
  intros H T. destruct op; cbn [run_op op_typed] in *.
  - eexists. split; [done|]. unfold write_soundcnt_l. case_match; [done|].
    by destruct H; constructor.
  - eexists. split; [done|]. unfold write_soundcnt_h. case_match; [done|]. cbv zeta.
    set (p1 := if has v kFifoAReset then _ else p).
    assert (H1 : wf p1) by (subst p1; case_match; [by apply clear_fifo_wf|done]).
    set (p2 := if has v kFifoBReset then _ else p1).
    assert (H2 : wf p2) by (subst p2; case_match; [by apply clear_fifo_wf|done]).
    clearbody p2. by destruct H2; constructor.
  - eexists. split; [done|]. by apply write_soundcnt_x_wf.
  - eexists. split; [done|]. unfold write_soundbias. case_match; [done|].
    by destruct H; constructor.
  - eexists. split; [done|]. by destruct H; constructor.
  - destruct T. by apply write_wave_ram_ret.
  - by apply write_fifo_ret.
  - eexists. split; [done|]. unfold configure_square_channel. case_match; [done|].
    destruct T as [Tv Tp]. pose proof (low2_range duty). pose proof (period_ok period Tp).
    destruct H. case_match; constructor; try done; split_and!; cbn; lia.
  - eexists. split; [done|]. unfold configure_wave_channel. case_match; [done|].
    destruct T as [Tv Tp]. pose proof (period_ok period Tp).
    destruct H. constructor; try done; split_and!; cbn; lia.
  - eexists. split; [done|]. unfold configure_noise_channel. case_match; [done|].
    destruct T as [Tv Tp]. pose proof (period_ok period Tp).
    destruct H. constructor; try done; split_and!; cbn; done || lia.
  - eexists. split; [done|]. unfold disable_psg_channel. destruct H.
    repeat case_match; by constructor.
  - destruct (master_enabled p) eqn:Hm.
    + destruct (tick_ret cycles p H Hm T) as (p' & _ & _ & _ & -> & Hw). by eexists.
    + unfold tick. rewrite Hm. by exists p.
  - destruct (timer_overflow_ret timer p H) as (r & p' & -> & H'). by exists p'.
  - destruct (pop_audio_ret p H) as (r & p' & -> & H'). by exists p'.
  - eexists. split; [done|]. destruct H. constructor; try done.
    apply empty_ring_ok. unfold kAudioBufferCapacity. lia.
  - exists reset. split; [done|]. apply apu_reset_wf.
Qed.

(** The operations in order. *)
Definition run_ops (ops : list apu_op) (p : Apu) : exc Apu :=
  fold_left (fun m op => m ≫= run_op op) ops (Ret p).



(** A snapshot with a zero period is accepted, and the next sample divides by
    it: [load_state] does not check the periods. *)
Example zero_period_accepted :
  let state := enabled <| square0 := mkSquareChannel true 0 15 0 0 |> in
  load_state state reset = (true, state) /\ tick 512 state = Throw.
Proof. vm_compute. done. Qed.

(** ** The noise register *)

(** [n] steps from [x] meet the observation [y] at the last one only. *)
Fixpoint meets_last (step : Z -> Z) (obs : Z -> Z) (y : Z) (n : nat) (x : Z) : bool :=
  match n with
  | O => false
  | S O => obs (step x) =? y
  | S n' => negb (obs (step x) =? y) && meets_last step obs y n' (step x)
  end.

Lemma meets_last_sound step obs y n x :
  meets_last step obs y n x = true ->
  obs (Nat.iter n step x) = y /\
  forall k, (0 < k < n)%nat -> obs (Nat.iter k step x) <> y.
Proof.
  revert x. induction n as [|n IH]; intros x H; [done|]. destruct n as [|n].
  { apply Z.eqb_eq in H. split; [done|]. lia. }
  cbn [meets_last] in H. apply andb_true_iff in H as [H1 H2].
  apply negb_true_iff, Z.eqb_neq in H1. destruct (IH _ H2) as [E Hk].
  rewrite Nat.iter_succ_r. split; [done|]. intros k Hb. destruct k as [|k]; [lia|].
  rewrite Nat.iter_succ_r. destruct k as [|k]; [done|]. apply Hk. lia.
Qed.

(** The noise register is a maximal-length sequence in both widths: from
    its initial value the 15-bit register first repeats after 32767 shifts,
    and its low seven bits in the narrow width after 127. *)
Theorem noise_sequence_maximal :
  (Nat.iter 32767 (shift_lfsr false) 0x7FFF = 0x7FFF /\
   forall k, (0 < k < 32767)%nat -> Nat.iter k (shift_lfsr false) 0x7FFF <> 0x7FFF) /\
  (Z.land (Nat.iter 127 (shift_lfsr true) 0x7FFF) 0x7F = 0x7F /\
   forall k, (0 < k < 127)%nat -> Z.land (Nat.iter k (shift_lfsr true) 0x7FFF) 0x7F <> 0x7F).
Proof.
  split.
  - apply (meets_last_sound (shift_lfsr false) (fun v => v)). vm_compute. reflexivity.
  - apply (meets_last_sound (shift_lfsr true) (fun v => Z.land v 0x7F)). vm_compute. reflexivity.
Qed.

(** ** The mixer *)

Lemma clamp_eq v : clamp_mixed_sample v = Z.max (-32768) (Z.min v 32767).
Proof.
  unfold clamp_mixed_sample, swrap. set (x := Z.max _ _).
  assert (Hx : -32768 <= x <= 32767) by lia. clearbody x. unfold wrap.
  change (2 ^ 16) with 65536. change (2 ^ (16 - 1)) with 32768.
  destruct (Z.ltb_spec (x mod 65536) 32768); Z.to_euclidean_division_equations; lia.
Qed.

(** The PSG outputs routed to a side, weighted by its volume. *)
Definition psg_side (outputs : list Z) (nr51 shift volume : Z) : Z :=
  foldr Z.add 0 (imap (fun i output =>
    if Z.testbit nr51 (Z.of_nat i + shift) then output * volume else 0) outputs).

(** A Direct Sound channel routed to a side at half or full volume. *)
Definition direct_side (routed full : bool) (sample : Z) : Z :=
  if routed then sample * 128 * (if full then 2 else 1) else 0.

Lemma has_shift nr51 i : 0 <= i < 16 -> has nr51 (u16 (Z.shiftl 1 i)) = Z.testbit nr51 i.
Proof.
  intros Hi. rewrite Z.shiftl_1_l, wrap_id; [apply has_bit; lia|].
  unfold fits. pose proof (Z.pow_lt_mono_r 2 i 16). lia.
Qed.

Lemma has_direct h m bit0 bit1 :
  m = 2 ^ bit0 + 2 ^ bit1 -> 0 <= bit0 < bit1 -> has h m = Z.testbit h bit0 || Z.testbit h bit1.
Proof.
  intros -> Hb.
  assert (E : 2 ^ bit0 + 2 ^ bit1 = Z.lor (2 ^ bit0) (2 ^ bit1)).
  { assert (Hd : Z.land (2 ^ bit0) (2 ^ bit1) = 0).
    { apply Z.bits_inj'. intros i Hi. rewrite Z.land_spec, !Z.pow2_bits_eqb, Z.bits_0 by lia. by zcmp. }
    by rewrite Z.add_nocarry_lxor, Z.lxor_lor. }
  rewrite E. unfold has. rewrite Z.land_lor_distr_r. rewrite <- !has_bit by lia. unfold has.
  destruct (Z.eqb_spec (Z.land h (2 ^ bit0)) 0) as [->|H0].
  - by rewrite Z.lor_0_l.
  - cbn [negb orb]. apply negb_true_iff, Z.eqb_neq. rewrite Z.lor_eq_0_iff. tauto.
Qed.

Lemma mix_direct_eq p channel m :
  mix_direct_channel p channel m =
  let h := soundcnt_h_ p in
  match channel with
  | DirectSoundChannel.a => mkApuMixedSample
      (Apu.left m + direct_side (Z.testbit h 9) (Z.testbit h 2) (latched0 p))
      (Apu.right m + direct_side (Z.testbit h 8) (Z.testbit h 2) (latched0 p))
  | DirectSoundChannel.b => mkApuMixedSample
      (Apu.left m + direct_side (Z.testbit h 13) (Z.testbit h 3) (latched1 p))
      (Apu.right m + direct_side (Z.testbit h 12) (Z.testbit h 3) (latched1 p))
  end.
Proof.
  unfold mix_direct_channel, direct_sound_enabled, direct_side, kDirectSoundHalfScale.
  destruct channel; cbv zeta; cbn [bool_decide_eq_true]; unfold latched.
  - rewrite (has_direct _ 0x0300 8 9) by (done || lia).
    rewrite bool_decide_eq_true_2 by done.
    rewrite (has_bit _ 2), (has_bit _ 8), (has_bit _ 9) by lia.
    destruct m; cbn [Apu.left Apu.right].
    destruct (Z.testbit _ 8), (Z.testbit _ 9); cbn [orb negb]; rewrite ?Z.add_0_r; done.
  - rewrite (has_direct _ 0x3000 12 13) by (done || lia).
    rewrite bool_decide_eq_false_2 by done.
    rewrite (has_bit _ 3), (has_bit _ 12), (has_bit _ 13) by lia.
    destruct m; cbn [Apu.left Apu.right].
    destruct (Z.testbit _ 12), (Z.testbit _ 13); cbn [orb negb]; rewrite ?Z.add_0_r; done.
Qed.

Lemma mix_psg_eq o0 o1 o2 o3 nr51 lv rv :
  mix_psg [o0; o1; o2; o3] 0 nr51 lv rv (mkApuMixedSample 0 0) =
  mkApuMixedSample (psg_side [o0; o1; o2; o3] nr51 4 lv) (psg_side [o0; o1; o2; o3] nr51 0 rv).
Proof.
  cbn [mix_psg Apu.left Apu.right]. unfold psg_side.
  change (imap ?f [o0; o1; o2; o3]) with [f 0%nat o0; f 1%nat o1; f 2%nat o2; f 3%nat o3].
  cbn [foldr]. rewrite !has_shift by lia.
  repeat match goal with
  | |- context [Z.testbit nr51 ?e] =>
      let v := eval vm_compute in e in progress change (Z.testbit nr51 e) with (Z.testbit nr51 v)
  end.
  f_equal; repeat case_match; lia.
Qed.

(** The mixed sample of a side is the saturated sum of the four PSG
    outputs the side's NR51 bits route, at the side's NR50 volume, and of the
    two Direct Sound samples its SOUNDCNT_H bits route, at half or full
    volume. *)
Theorem mix_sample_sum (p : Apu) :
  voices_ok p ->
  exists outputs, psg_channel_outputs p = Ret outputs /\ length outputs = 4%nat /\
    let nr50 := soundcnt_l_ p mod 256 in let nr51 := soundcnt_l_ p / 256 mod 256 in
    let h := soundcnt_h_ p in
    let saturate v := Z.max (-32768) (Z.min v 32767) in
    mix_sample p = Ret (mkApuMixedSample
      (saturate (psg_side outputs nr51 4 (nr50 / 16 mod 8 + 1) +
                 direct_side (Z.testbit h 9) (Z.testbit h 2) (latched0 p) +
                 direct_side (Z.testbit h 13) (Z.testbit h 3) (latched1 p)))
      (saturate (psg_side outputs nr51 0 (nr50 mod 8 + 1) +
                 direct_side (Z.testbit h 8) (Z.testbit h 2) (latched0 p) +
                 direct_side (Z.testbit h 12) (Z.testbit h 3) (latched1 p)))).
Proof.
  intros H. destruct (psg_outputs_ret p H) as (l & E & El & _). exists l.
  split; [done|]. split; [done|]. cbv zeta. unfold mix_sample. rewrite E. cbn [mbind exc_bind].
  destruct l as [|o0 [|o1 [|o2 [|o3 []]]]]; try done. cbv zeta. rewrite mix_psg_eq, !mix_direct_eq.
  cbn [Apu.left Apu.right]. rewrite !clamp_eq.
  change 0x00FF with (Z.ones 8). change (Z.land (Z.shiftr ?x 4) 0x7) with (Z.land (Z.shiftr x 4) (Z.ones 3)).
  change (Z.land ?x 0x7) with (Z.land x (Z.ones 3)).
  rewrite !Z.land_ones by lia. rewrite Z.shiftr_div_pow2, Z.shiftr_div_pow2 by lia.
  change (2 ^ 8) with 256. change (2 ^ 4) with 16. change (2 ^ 3) with 8.
  rewrite (wrap_id 16 (soundcnt_l_ p mod 256)), (wrap_id 16 (soundcnt_l_ p / 256 mod 256))
    by (unfold fits; split; [apply Z.mod_pos_bound; lia|];
        eapply Z.lt_le_trans; [apply Z.mod_pos_bound; lia|lia]).
  done.
Qed.

Lemma mix_sample_sum_witness :
  let p := enabled in
  exists outputs, psg_channel_outputs p = Ret outputs /\ length outputs = 4%nat /\
    let nr50 := soundcnt_l_ p mod 256 in let nr51 := soundcnt_l_ p / 256 mod 256 in
    let h := soundcnt_h_ p in
    let saturate v := Z.max (-32768) (Z.min v 32767) in
    mix_sample p = Ret (mkApuMixedSample
      (saturate (psg_side outputs nr51 4 (nr50 / 16 mod 8 + 1) +
                 direct_side (Z.testbit h 9) (Z.testbit h 2) (latched0 p) +
                 direct_side (Z.testbit h 13) (Z.testbit h 3) (latched1 p)))
      (saturate (psg_side outputs nr51 0 (nr50 mod 8 + 1) +
                 direct_side (Z.testbit h 8) (Z.testbit h 2) (latched0 p) +
                 direct_side (Z.testbit h 12) (Z.testbit h 3) (latched1 p)))).
Proof. apply (mix_sample_sum enabled), wf_voices, enabled_wf. Defined.
