(* ===== verification/ApuTyped.v ===== *)
(** * The audio unit: widths

    The values [ApuSpec.wf] leaves free keep their widths under every
    operation: the registers, the queued and latched samples, the mixed
    samples and the sample count. *)

From S2P Require Import Prelude StateHash Apu ApuSpec.

(** The values the sound unit's invariant leaves free, at their widths. *)
Record apu_typed (p : Apu) : Prop := mk_apu_typed {
  at_l : fits 16 (soundcnt_l_ p);
  at_h : fits 16 (soundcnt_h_ p);
  at_x : fits 16 (soundcnt_x_status_ p);
  at_bias : fits 16 (soundbias_ p);
  at_fifo0 : Forall (sfits 8) (samples (fifo0 p));
  at_fifo1 : Forall (sfits 8) (samples (fifo1 p));
  at_latched0 : sfits 8 (latched0 p);
  at_latched1 : sfits 8 (latched1 p);
  at_audio : Forall (fun s => sfits 16 (left s) /\ sfits 16 (right s))
               (samples (audio_buffer_ p));
  at_samples : fits 64 (audio_sample_count_ p);
  at_last : sfits 16 (left (last_mixed_sample_ p)) /\
            sfits 16 (right (last_mixed_sample_ p))
}.


Definition sample_typed (s : ApuMixedSample) : Prop := sfits 16 (left s) /\ sfits 16 (right s).

(** ** Rings *)

Lemma ring_push_forall {A} (P : A -> Prop) n a (r r' : Ring A) :
  ring_push n a r = Ret r' -> P a -> Forall P (samples r) -> Forall P (samples r').
Proof.
  unfold ring_push. cbv zeta. set (r0 := if (ring_size r =? n)%nat then _ else r).
  assert (E : samples r0 = samples r) by (subst r0; by case_match).
  clearbody r0. unfold array_put. case_match; [|done]. intros [= <-] Ha Hr. cbn.
  rewrite E. by apply Forall_insert.
Qed.

Lemma ring_pop_forall {A} (P : A -> Prop) n a (r r' : Ring A) :
  ring_pop n r = Ret (a, r') -> Forall P (samples r) -> P a /\ Forall P (samples r').
Proof.
  unfold ring_pop, array_at. destruct (samples r !! head r) eqn:E; [|done].
  intros [= <- <-] Hr. split; [|done]. by eapply Forall_lookup_1.
Qed.

(** ** FIFOs *)

Lemma set_fifo_typed channel r p :
  Forall (sfits 8) (samples r) -> apu_typed p -> apu_typed (set_fifo channel r p).
Proof. intros Hr []. by destruct channel; constructor. Qed.

Lemma fifo_typed channel p : apu_typed p -> Forall (sfits 8) (samples (fifo channel p)).
Proof. intros []. by destruct channel. Qed.

Lemma clear_fifo_typed channel p : apu_typed p -> apu_typed (clear_fifo channel p).
Proof. intros H. apply set_fifo_typed; [|done]. apply Forall_replicate. by vm_compute. Qed.

Lemma push_fifo_typed channel v p p' :
  push_fifo channel v p = Ret p' -> sfits 8 v -> apu_typed p -> apu_typed p'.
Proof.
  unfold push_fifo. intros H Hv Hp.
  destruct (ring_push _ _ _) as [r|] eqn:E; [|done]. injection H as <-.
  apply set_fifo_typed; [|done]. eapply ring_push_forall; [exact E|done|by apply fifo_typed].
Qed.

Lemma write_fifo_typed channel v p p' :
  write_fifo channel v p = Ret p' -> apu_typed p -> apu_typed p'.
Proof.
  assert (H8 : forall x, sfits 8 (i8 x)) by (intros; apply swrap_range; lia).
  unfold write_fifo. intros H Hp.
  destruct (push_fifo _ _ p) as [p1|] eqn:E1; [|done]. cbn [mbind exc_bind] in H.
  destruct (push_fifo _ _ p1) as [p2|] eqn:E2; [|done]. cbn [mbind exc_bind] in H.
  destruct (push_fifo _ _ p2) as [p3|] eqn:E3; [|done]. cbn [mbind exc_bind] in H.
  eapply push_fifo_typed; [exact H|done|]. eapply push_fifo_typed; [exact E3|done|].
  eapply push_fifo_typed; [exact E2|done|]. by eapply push_fifo_typed; [exact E1|..].
Qed.

Lemma pop_fifo_typed channel p s p' :
  pop_fifo channel p = Ret (s, p') -> apu_typed p -> sfits 8 (ds_sample s) /\ apu_typed p'.
Proof.
  unfold pop_fifo. case_match; intros Ep Hp.
  { injection Ep as <- <-. split; [by vm_compute|done]. }
  destruct (ring_pop _ _) as [[v r]|] eqn:E; [|done]. cbn [mbind exc_bind] in Ep.
  injection Ep as <- <-.
  destruct (ring_pop_forall (sfits 8) _ _ _ _ E (fifo_typed channel p Hp)) as [Hv Hr].
  split; [done|by apply set_fifo_typed].
Qed.

(** ** Samples *)

Lemma clamp_typed v : sfits 16 (clamp_mixed_sample v).
Proof. rewrite clamp_eq. unfold sfits. lia. Qed.

Lemma mix_sample_typed p m : mix_sample p = Ret m -> sample_typed m.
Proof.
  unfold mix_sample. destruct (psg_channel_outputs p); [|done]. intros [= <-].
  split; apply clamp_typed.
Qed.

Lemma advance_typed p p' : advance_psg_generators p = Ret p' -> apu_typed p -> apu_typed p'.
Proof.
  unfold advance_psg_generators. intros H Hp.
  destruct (advance_square (square0 p)) as [s0|]; [|done].
  destruct (advance_square (square1 p)) as [s1|]; [|done].
  destruct (advance_wave _) as [w|]; [|done]. destruct (advance_noise _) as [n|]; [|done].
  injection H as <-. by destruct Hp; constructor.
Qed.

Lemma generate_typed p p' : generate_audio_sample p = Ret p' -> apu_typed p -> apu_typed p'.
Proof.
  unfold generate_audio_sample. intros H Hp.
  destruct (mix_sample p) as [m|] eqn:Em; [|done]. apply mix_sample_typed in Em.
  cbn [mbind exc_bind] in H. unfold push_audio_sample in H.
  destruct (ring_push _ _ _) as [r|] eqn:Er; [|done]. cbn [mbind exc_bind] in H.
  eapply advance_typed; [exact H|]. destruct Hp. constructor; try done.
  - eapply (ring_push_forall sample_typed); [exact Er|done|done].
  - apply wrap_fits. lia.
Qed.

Lemma frame_loop_typed fuel last p last' p' :
  frame_loop fuel last p = Ret (last', p') -> apu_typed p -> apu_typed p'.
Proof.
  revert last p. induction fuel as [|fuel IH]; intros last p; cbn [frame_loop];
    case_match; intros El Hp; try done; try (by injection El as <- <-).
  eapply IH; [exact El|]. by destruct Hp; constructor.
Qed.

Lemma audio_loop_typed fuel p p' : audio_loop fuel p = Ret p' -> apu_typed p -> apu_typed p'.
Proof.
  revert p. induction fuel as [|fuel IH]; intros p; cbn [audio_loop];
    case_match; intros El Hp; try done; try (by injection El as <-).
  destruct (generate_audio_sample _) as [p1|] eqn:E; [|done].
  eapply IH; [exact El|]. eapply generate_typed; [exact E|]. by destruct Hp; constructor.
Qed.

Lemma tick_typed cycles p last p' :
  tick cycles p = Ret (last, p') -> apu_typed p -> apu_typed p'.
Proof.
  unfold tick. case_match; intros E Hp; [by injection E as <- <-|].
  destruct (frame_loop _ _ _) as [[l p1]|] eqn:E1; [|done]. cbn [mbind exc_bind] in E.
  destruct (audio_loop _ _) as [p2|] eqn:E2; [|done]. injection E as <- <-.
  eapply audio_loop_typed; [exact E2|]. eapply frame_loop_typed; [exact E1|].
  by destruct Hp; constructor.
Qed.

Lemma channel_overflow_typed channel timer p s p' :
  channel_overflow channel timer p = Ret (s, p') -> apu_typed p -> apu_typed p'.
Proof.
  unfold channel_overflow. case_match; intros E Hp; [|by injection E as <- <-].
  destruct (pop_fifo _ _) as [[r p1]|] eqn:E1; [|done]. injection E as <- <-.
  destruct (pop_fifo_typed _ _ _ _ E1 Hp) as [Hs []].
  destruct channel; constructor; try done; cbn; case_match; done || by vm_compute.
Qed.

Lemma timer_overflow_typed timer p r p' :
  timer_overflow timer p = Ret (r, p') -> apu_typed p -> apu_typed p'.
Proof.
  unfold timer_overflow. case_match; intros E Hp; [by injection E as <- <-|].
  destruct (channel_overflow _ _ p) as [[a p1]|] eqn:E1; [|done]. cbn [mbind exc_bind] in E.
  destruct (channel_overflow _ _ p1) as [[b p2]|] eqn:E2; [|done]. injection E as <- <-.
  eapply channel_overflow_typed; [exact E2|]. by eapply channel_overflow_typed.
Qed.

(** ** Registers *)

Lemma apu_reset_typed : apu_typed reset.
Proof. constructor; try (apply Forall_replicate); by vm_compute. Qed.

Lemma write_soundcnt_l_typed v p : apu_typed p -> apu_typed (write_soundcnt_l v p).
Proof.
  intros []. unfold write_soundcnt_l. case_match; constructor; try done. apply wrap_fits. lia.
Qed.

Lemma write_soundcnt_h_typed v p : apu_typed p -> apu_typed (write_soundcnt_h v p).
Proof.
  intros Hp. unfold write_soundcnt_h. case_match; [done|]. cbv zeta.
  set (p1 := if has v kFifoAReset then _ else p).
  assert (H1 : apu_typed p1) by (subst p1; case_match; [by apply clear_fifo_typed|done]).
  set (p2 := if has v kFifoBReset then _ else p1).
  assert (H2 : apu_typed p2) by (subst p2; case_match; [by apply clear_fifo_typed|done]).
  clearbody p2. destruct H2. constructor; try done. apply wrap_fits. lia.
Qed.

Lemma write_soundcnt_x_typed v p : apu_typed p -> apu_typed (write_soundcnt_x v p).
Proof.
  intros Hp. unfold write_soundcnt_x. case_match.
  - destruct apu_reset_typed, Hp. by constructor.
  - destruct Hp. constructor; try done. apply wrap_fits. lia.
Qed.

Lemma write_soundbias_typed v p : apu_typed p -> apu_typed (write_soundbias v p).
Proof.
  intros []. unfold write_soundbias. case_match; constructor; try done. apply wrap_fits. lia.
Qed.

Lemma write_wave_ram_typed index v p p' :
  write_wave_ram index v p = Ret p' -> apu_typed p -> apu_typed p'.
Proof.
  unfold write_wave_ram. case_match; [done|]. intros E [].
  case_match; destruct (array_put _ _ _) as [l|]; try done; injection E as <-; by constructor.
Qed.

(** [run_op_wf] as preservation. *)
Lemma run_op_keeps op p p' : run_op op p = Ret p' -> op_typed op -> wf p -> wf p'.
Proof. intros E T H. destruct (run_op_wf op p H T) as (q & Eq & Hq). congruence. Qed.
