(* ===== verification/Dma.v ===== *)
(** * The DMA controller: registers

    The register side of [DmaController] of
    [include/gba/core/dma_controller.hpp] and [src/core/dma_controller.cpp]:
    the four channels, their control words, the pending flag of immediate
    transfers, and snapshots.  [DmaTransfer] models the transfers. *)

From S2P Require Import Prelude StateHash Interrupts BusTypes WaitState Apu.

Module DmaAddressControl.
(* @ dma_controller.hpp:15-20 DmaAddressControl *)
Inductive t : Type := increment | decrement | fixed | increment_reload.
#[export] Instance eq_dec : EqDecision t.
Proof. solve_decision. Defined.

(** [static_cast<DmaAddressControl>] of two bits. *)
(* @ dma_controller.hpp:15-20 DmaAddressControl *)
Definition of_bits (v : Z) : t :=
  match v with 0 => increment | 1 => decrement | 2 => fixed | _ => increment_reload end.
End DmaAddressControl.
Export (hints) DmaAddressControl.

Module DmaStartTiming.
(* @ dma_controller.hpp:22-27 DmaStartTiming *)
Inductive t : Type := immediate | vblank | hblank | special.
#[export] Instance eq_dec : EqDecision t.
Proof. solve_decision. Defined.

(* @ dma_controller.hpp:22-27 DmaStartTiming *)
Definition of_bits (v : Z) : t :=
  match v with 0 => immediate | 1 => vblank | 2 => hblank | _ => special end.
End DmaStartTiming.
Export (hints) DmaStartTiming.

Module DmaTrigger.
(* @ dma_controller.hpp:29-36 DmaTrigger *)
Inductive t : Type := immediate | vblank | hblank | special | fifo_a | fifo_b.
#[export] Instance eq_dec : EqDecision t.
Proof. solve_decision. Defined.
End DmaTrigger.
Export (hints) DmaTrigger.

(* @ dma_controller.hpp:47-47 DmaController::kChannelCount *)
Definition kChannelCount : nat := 4.

(* @ dma_controller.cpp:13-13 kDestinationControlMask *)
Definition kDestinationControlMask : Z := 0x0060.
(* @ dma_controller.cpp:14-14 kSourceControlMask *)
Definition kSourceControlMask : Z := 0x0180.
(* @ dma_controller.cpp:15-15 kRepeatFlag *)
Definition kRepeatFlag : Z := 0x0200.
(* @ dma_controller.cpp:16-16 kTransfer32Flag *)
Definition kTransfer32Flag : Z := 0x0400.
(* @ dma_controller.cpp:19-19 kGamePakDrqFlag *)
Definition kGamePakDrqFlag : Z := 0x0800.
(* @ dma_controller.cpp:20-20 kStartTimingMask *)
Definition kStartTimingMask : Z := 0x3000.
(* @ dma_controller.cpp:21-21 kIrqFlag *)
Definition kIrqFlag : Z := 0x4000.
(* @ dma_controller.cpp:22-22 kEnableFlag *)
Definition kEnableFlag : Z := 0x8000.
(* @ dma_controller.cpp:23-25 kControlMask *)
Definition kControlMask : Z :=
  Z.lor (Z.lor (Z.lor (Z.lor (Z.lor (Z.lor kDestinationControlMask kSourceControlMask)
    kRepeatFlag) kTransfer32Flag) kStartTimingMask) kIrqFlag) kEnableFlag.
(* @ dma_controller.cpp:26-26 kFifoAAddress *)
Definition kFifoAAddress : Z := 0x040000A0.
(* @ dma_controller.cpp:27-27 kFifoBAddress *)
Definition kFifoBAddress : Z := 0x040000A4.
(* @ dma_controller.cpp:28-28 kSoundFifoWordsPerRequest *)
Definition kSoundFifoWordsPerRequest : Z := 4.

(* @ dma_controller.hpp:49-58 DmaController::DmaChannelState *)
Record Channel : Type := mkChannel {
  source_ : Z;
  destination_ : Z;
  word_count_ : Z;
  control_ : Z;
  current_source : Z;
  current_destination : Z;
  current_count : Z;
  data_latch : Z
}.

#[export] Instance eta_Channel : Eta Channel := fun c =>
  mkChannel (source_ c) (destination_ c) (word_count_ c) (control_ c) (current_source c)
    (current_destination c) (current_count c) (data_latch c).

(** [DmaController::State] has the same fields. *)
(* @ dma_controller.hpp:109-110 DmaController *)
Record DmaController : Type := mkDmaController {
  channels : list Channel;
  immediate_pending : bool
}.

#[export] Instance eta_DmaController : Eta DmaController := fun d =>
  mkDmaController (channels d) (immediate_pending d).

(* @ dma_controller.hpp:60-63 DmaController::State *)
Definition State : Type := DmaController.

(* @ dma_controller.cpp:30-32 dma_word_count_mask *)
Definition dma_word_count_mask (channel : nat) : Z :=
  if (channel =? 3)%nat then 0xFFFF else 0x3FFF.

(* @ dma_controller.cpp:34-37 dma_interrupt_source *)
Definition dma_interrupt_source (channel : nat) : option InterruptSource.t :=
  InterruptSource.of_index
    (u8 (InterruptSource.index InterruptSource.dma0 + Z.of_nat channel)).

(* @ dma_controller.cpp:201-213 DmaController::reset *)
Definition reset : DmaController :=
  mkDmaController (replicate kChannelCount (mkChannel 0 0 0 0 0 0 0 0)) false.

(* @ dma_controller.cpp:439-451 DmaController::checked_channel *)
Definition checked_channel (channel : nat) (d : DmaController) : exc Channel :=
  if decide (kChannelCount <= channel)%nat then Throw else array_at (channels d) channel.

(** Assignment through the reference [checked_channel] returns. *)
Definition update_channel (channel : nat) (c : Channel) (d : DmaController) : DmaController :=
  d <| channels := <[channel := c]> (channels d) |>.

(** ** Fields of the control word *)

(* @ dma_controller.cpp:284-286 DmaController::enabled *)
Definition channel_enabled (c : Channel) : bool := has (control_ c) kEnableFlag.
(* @ dma_controller.cpp:288-290 DmaController::repeat *)
Definition channel_repeat (c : Channel) : bool := has (control_ c) kRepeatFlag.
(* @ dma_controller.cpp:292-294 DmaController::transfer_32bit *)
Definition channel_transfer_32bit (c : Channel) : bool := has (control_ c) kTransfer32Flag.
(* @ dma_controller.cpp:296-298 DmaController::irq_on_completion *)
Definition channel_irq_on_completion (c : Channel) : bool := has (control_ c) kIrqFlag.
(* @ dma_controller.cpp:304-306 DmaController::destination_control *)
Definition channel_destination_control (c : Channel) : DmaAddressControl.t :=
  DmaAddressControl.of_bits (Z.land (Z.shiftr (control_ c) 5) 0x3).
(* @ dma_controller.cpp:308-310 DmaController::source_control *)
Definition channel_source_control (c : Channel) : DmaAddressControl.t :=
  DmaAddressControl.of_bits (Z.land (Z.shiftr (control_ c) 7) 0x3).
(* @ dma_controller.cpp:312-314 DmaController::start_timing *)
Definition channel_start_timing (c : Channel) : DmaStartTiming.t :=
  DmaStartTiming.of_bits (Z.land (Z.shiftr (control_ c) 12) 0x3).

(** The channel is enabled for an immediate transfer. *)
(* @ dma_controller.cpp:456-456 DmaController::refresh_immediate_pending *)
Definition channel_immediate (c : Channel) : bool :=
  channel_enabled c && bool_decide (channel_start_timing c = DmaStartTiming.immediate).

(* @ dma_controller.cpp:264-282 DmaController::source .. DmaController::active_count *)
Definition source (channel : nat) (d : DmaController) : exc Z :=
  c ← checked_channel channel d; Ret (source_ c).
(* @ dma_controller.cpp:268-270 DmaController::destination *)
Definition destination (channel : nat) (d : DmaController) : exc Z :=
  c ← checked_channel channel d; Ret (destination_ c).
(* @ dma_controller.cpp:272-274 DmaController::word_count *)
Definition word_count (channel : nat) (d : DmaController) : exc Z :=
  c ← checked_channel channel d; Ret (word_count_ c).
(* @ dma_controller.cpp:276-278 DmaController::control *)
Definition control (channel : nat) (d : DmaController) : exc Z :=
  c ← checked_channel channel d; Ret (control_ c).
(* @ dma_controller.cpp:280-282 DmaController::active_count *)
Definition active_count (channel : nat) (d : DmaController) : exc Z :=
  c ← checked_channel channel d; Ret (current_count c).

(* @ dma_controller.cpp:463-468 DmaController::normalized_word_count *)
Definition normalized_word_count (channel : nat) (c : Channel) : Z :=
  let mask := dma_word_count_mask channel in
  let count := Z.land (word_count_ c) mask in
  if count =? 0 then mask + 1 else count.

(** The writable control bits of a channel. *)
(* @ dma_controller.cpp:236-238 DmaController::write_control *)
Definition control_mask (channel : nat) : Z :=
  if (channel =? 3)%nat then u16 (Z.lor kControlMask kGamePakDrqFlag) else kControlMask.

(* @ dma_controller.cpp:453-461 DmaController::refresh_immediate_pending *)
Definition refresh_immediate_pending (d : DmaController) : DmaController :=
  d <| immediate_pending := existsb channel_immediate (channels d) |>.

(** ** Register writes *)

(* @ dma_controller.cpp:215-217 DmaController::write_source *)
Definition write_source (channel : nat) (value : Z) (d : DmaController) : exc DmaController :=
  c ← checked_channel channel d; Ret (update_channel channel (c <| source_ := value |>) d).
(* @ dma_controller.cpp:219-221 DmaController::write_destination *)
Definition write_destination (channel : nat) (value : Z) (d : DmaController)
    : exc DmaController :=
  c ← checked_channel channel d; Ret (update_channel channel (c <| destination_ := value |>) d).
(* @ dma_controller.cpp:223-225 DmaController::write_word_count *)
Definition write_word_count (channel : nat) (value : Z) (d : DmaController)
    : exc DmaController :=
  c ← checked_channel channel d; Ret (update_channel channel (c <| word_count_ := value |>) d).

(** The channel after a write of its control word. *)
(* @ dma_controller.cpp:228-254 DmaController::write_control *)
Definition control_written (channel : nat) (value : Z) (state : Channel) : Channel :=
  let was_enabled := channel_enabled state in
  let was_sound_fifo :=
    was_enabled && ((channel =? 1)%nat || (channel =? 2)%nat) &&
    bool_decide (channel_start_timing state = DmaStartTiming.special) &&
    ((destination_ state =? kFifoAAddress) || (destination_ state =? kFifoBAddress)) in
  let state := state <| control_ := u16 (Z.land value (control_mask channel)) |> in
  let is_enabled := channel_enabled state in
  let state :=
    if negb was_enabled && is_enabled then
      state <| current_source := source_ state |>
            <| current_destination := destination_ state |>
            <| current_count := normalized_word_count channel state |>
    else if was_sound_fifo && is_enabled &&
            bool_decide (channel_start_timing state = DmaStartTiming.immediate) then
      state <| current_count := normalized_word_count channel state |>
    else state in
  if negb is_enabled then state <| current_count := 0 |> else state.

(* @ dma_controller.cpp:227-262 DmaController::write_control *)
Definition write_control (channel : nat) (value : Z) (d : DmaController) : exc DmaController :=
  state ← checked_channel channel d;
  let was_immediate := channel_immediate state in
  let state := control_written channel value state in
  let d := update_channel channel state d in
  Ret (if channel_immediate state then d <| immediate_pending := true |>
       else if was_immediate then refresh_immediate_pending d
       else d).

(** ** Snapshots *)

(* @ dma_controller.cpp:332-339 DmaController::save_state *)
Definition save_state (d : DmaController) : State :=
  mkDmaController (channels d) (immediate_pending d).

(* @ dma_controller.cpp:343-361 DmaController::load_state *)
Definition channel_state_ok (channel : nat) (c : Channel) : bool :=
  negb (has (control_ c) (Z.lnot (control_mask channel))) &&
  negb (negb (channel_enabled c) && negb (current_count c =? 0)) &&
  negb (dma_word_count_mask channel + 1 <? current_count c).

(* @ dma_controller.cpp:341-371 DmaController::load_state *)
Definition load_state (state : State) (d : DmaController) : bool * DmaController :=
  if forallb (fun b => b) (imap channel_state_ok (channels state))
  then (true, refresh_immediate_pending (d <| channels := channels state |>))
  else (false, d).

(* @ dma_controller.cpp:318-327 DmaController::state_hash *)
Definition hash_channel (h : Z) (c : Channel) : Z :=
  let h := add_u32 (source_ c) h in
  let h := add_u32 (destination_ c) h in
  let h := add_u16 (word_count_ c) h in
  let h := add_u16 (control_ c) h in
  let h := add_u32 (current_source c) h in
  let h := add_u32 (current_destination c) h in
  let h := add_u32 (current_count c) h in
  add_u32 (data_latch c) h.

(* @ dma_controller.cpp:316-330 DmaController::state_hash *)
Definition state_hash (d : DmaController) : Z :=
  add_bool (immediate_pending d) (fold_left hash_channel (channels d) kOffsetBasis).

(** ** Addresses and bus cycles *)

(* @ dma_controller.cpp:39-52 step_address *)
Definition step_address (address : Z) (control : DmaAddressControl.t) (unit_size : Z) : Z :=
  match control with
  | DmaAddressControl.increment | DmaAddressControl.increment_reload => u32 (address + unit_size)
  | DmaAddressControl.decrement => u32 (address - unit_size)
  | DmaAddressControl.fixed => address
  end.

(* @ dma_controller.cpp:54-68 trigger_timing *)
Definition trigger_timing (trigger : DmaTrigger.t) : DmaStartTiming.t :=
  match trigger with
  | DmaTrigger.immediate => DmaStartTiming.immediate
  | DmaTrigger.vblank => DmaStartTiming.vblank
  | DmaTrigger.hblank => DmaStartTiming.hblank
  | DmaTrigger.special | DmaTrigger.fifo_a | DmaTrigger.fifo_b => DmaStartTiming.special
  end.

(* @ dma_controller.cpp:70-72 trigger_fifo *)
Definition trigger_fifo (trigger : DmaTrigger.t) : DirectSoundChannel.t :=
  match trigger with DmaTrigger.fifo_b => DirectSoundChannel.b | _ => DirectSoundChannel.a end.

(* @ dma_controller.cpp:74-76 trigger_fifo_address *)
Definition trigger_fifo_address (trigger : DmaTrigger.t) : Z :=
  match trigger with DmaTrigger.fifo_b => kFifoBAddress | _ => kFifoAAddress end.

(* @ dma_controller.cpp:78-80 dma_source_uses_latch *)
Definition dma_source_uses_latch (address : Z) : bool :=
  bool_decide (region (classify address) = Region.bios).

(* @ dma_controller.cpp:87-91 dma_source_steps_as_game_pak_stream *)
Definition dma_source_steps_as_game_pak_stream (channel : nat) (address : Z) : bool :=
  negb (channel =? 0)%nat &&
  bool_decide (region (classify (Z.land address 0x0FFFFFFF)) = Region.game_pak_rom).

(* @ dma_controller.cpp:93-96 duplicate_halfword *)
Definition duplicate_halfword (value : Z) : Z := Z.lor value (u32 (Z.shiftl value 16)).

(* @ dma_controller.cpp:98-100 game_pak_region *)
Definition game_pak_region (r : Region.t) : bool :=
  match r with Region.game_pak_rom | Region.game_pak_save => true | _ => false end.

(* @ dma_controller.cpp:470-474 DmaController::effective_source_address *)
Definition effective_source_address (channel : nat) (address : Z) : Z :=
  Z.land address (if (channel =? 0)%nat then 0x07FFFFFF else 0x0FFFFFFF).

(* @ dma_controller.cpp:476-480 DmaController::effective_destination_address *)
Definition effective_destination_address (channel : nat) (address : Z) : Z :=
  Z.land address (if (channel =? 3)%nat then 0x0FFFFFFF else 0x07FFFFFF).

(** A null [WaitStateControl*] is [None]. *)
(* @ dma_controller.cpp:102-106 dma_timing *)
Definition dma_timing (address : Z) (width : AccessWidth.t) (waitcnt : option WaitStateControl)
    : MemoryAccessTiming :=
  match waitcnt with
  | Some w => timing_waitcnt address width w
  | None => timing address width
  end.

(* @ dma_controller.cpp:108-115 dma_access_phase_cycles *)
Definition dma_access_phase_cycles (timing : MemoryAccessTiming)
    (is_sequential external_waitcnt_access : bool) : Z :=
  let cycles := if is_sequential then sequential timing else nonsequential timing in
  if external_waitcnt_access then u32 (cycles + 1) else cycles.

(* @ dma_controller.cpp:117-128 dma_access_cycles *)
Definition dma_access_cycles (address : Z) (width : AccessWidth.t) (is_sequential : bool)
    (waitcnt : option WaitStateControl) : Z :=
  let timing := dma_timing address width waitcnt in
  let external_waitcnt_access :=
    bool_decide (is_Some waitcnt) && game_pak_region (region (classify address)) in
  if bool_decide (width = AccessWidth.word) && external_waitcnt_access then
    u32 (dma_access_phase_cycles timing is_sequential true +
         dma_access_phase_cycles timing true true)
  else dma_access_phase_cycles timing is_sequential external_waitcnt_access.

(* @ dma_controller.cpp:130-139 dma_transfer_bus_cycles *)
Definition dma_transfer_bus_cycles (source_address destination_address : Z)
    (word_transfer source_sequential destination_sequential : bool)
    (waitcnt : option WaitStateControl) : Z :=
  let width := if word_transfer then AccessWidth.word else AccessWidth.halfword in
  u32 (dma_access_cycles source_address width source_sequential waitcnt +
       dma_access_cycles destination_address width destination_sequential waitcnt).

(* @ dma_controller.cpp:141-145 dma_stream_is_sequential *)
Definition dma_stream_is_sequential (unit : Z) (control : DmaAddressControl.t) : bool :=
  negb (unit =? 0) &&
  match control with
  | DmaAddressControl.increment | DmaAddressControl.increment_reload => true
  | _ => false
  end.

(* @ dma_controller.cpp:147-154 apply_dma_bus_adjustment *)
Definition apply_dma_bus_adjustment (bus_cycles adjustment : Z) : Z :=
  if 0 <=? adjustment then u32 (bus_cycles + adjustment)
  else
    let magnitude := - adjustment in
    if magnitude <? bus_cycles then bus_cycles - magnitude else 0.

(* @ dma_controller.cpp:156-193 dma_game_pak_arbitration_adjustment *)
Definition dma_game_pak_arbitration_adjustment (source_address destination_address : Z)
    (waitcnt : option WaitStateControl) : Z :=
  match waitcnt with
  | None => 0
  | Some w =>
      let source_game_pak := game_pak_region (region (classify source_address)) in
      let destination_game_pak := game_pak_region (region (classify destination_address)) in
      if negb source_game_pak && negb destination_game_pak then 0
      else if source_game_pak && destination_game_pak then
        let timing := timing_waitcnt source_address AccessWidth.halfword w in
        let adjustment :=
          - (if 2 <? nonsequential timing then nonsequential timing - 2 else 0) in
        if negb (prefetch_enabled w) && (sequential timing <=? 1)
        then adjustment - 1 else adjustment
      else if source_game_pak then
        let timing := timing_waitcnt source_address AccessWidth.halfword w in
        if prefetch_enabled w && (sequential timing <=? 1) then 1 else 0
      else
        let timing := timing_waitcnt destination_address AccessWidth.halfword w in
        if prefetch_enabled w && (1 <? sequential timing) then 1 else 0
  end.
