(* ===== verification/IoRegisters.v ===== *)
(** * The IO registers

    [IoRegisters] of [include/gba/core/io_registers.hpp] and
    [src/core/io_registers.cpp]: the dispatch of halfword and word accesses to
    the devices, the serial registers and the serial transfer timer.

    [IoRegisters] holds references to the devices; its state here is the
    record [Devices] of the devices and its own registers.  [io_callbacks]
    is the wiring [CoreSession] installs in the memory bus. *)

From S2P Require Import Prelude StateHash Interrupts Keypad BusTypes WaitState.
From S2P Require Import Timers PpuTiming MemoryBus Apu Dma.

(* @ io_registers.hpp:67-77 IoRegisters *)
Record Devices : Type := mkDevices {
  interrupts : InterruptController;
  timers_ : Timers;
  dma : DmaController;
  ppu : PpuTiming;
  apu : Apu;
  waitcnt : WaitStateControl;
  keypad : Keypad;
  serial : list Z;
  sio_transfer_active : bool;
  sio_transfer_cycles_remaining : Z
}.

#[export] Instance eta_Devices : Eta Devices := fun d =>
  mkDevices (interrupts d) (timers_ d) (dma d) (ppu d) (apu d) (waitcnt d) (keypad d)
    (serial d) (sio_transfer_active d) (sio_transfer_cycles_remaining d).

(* @ io_registers.hpp:17-21 IoRegistersState *)
Record IoRegistersState : Type := mkIoRegistersState {
  s_serial : list Z;
  s_sio_transfer_active : bool;
  s_sio_transfer_cycles_remaining : Z
}.

(* @ io_registers.hpp:27-27 IoRegisters::kDispstat *)
Definition kDispstat : Z := 0x04000004.
(* @ io_registers.hpp:28-28 IoRegisters::kVcount *)
Definition kVcount : Z := 0x04000006.
(* @ io_registers.hpp:33-33 IoRegisters::kSoundcntL *)
Definition kSoundcntL : Z := 0x04000080.
(* @ io_registers.hpp:34-34 IoRegisters::kSoundcntH *)
Definition kSoundcntH : Z := 0x04000082.
(* @ io_registers.hpp:35-35 IoRegisters::kSoundcntX *)
Definition kSoundcntX : Z := 0x04000084.
(* @ io_registers.hpp:36-36 IoRegisters::kSoundbias *)
Definition kSoundbias : Z := 0x04000088.
(* @ io_registers.hpp:37-37 IoRegisters::kFifoA *)
Definition kFifoA : Z := 0x040000A0.
(* @ io_registers.hpp:38-38 IoRegisters::kFifoB *)
Definition kFifoB : Z := 0x040000A4.
(* @ io_registers.hpp:39-39 IoRegisters::kDmaBase *)
Definition kDmaBase : Z := 0x040000B0.
(* @ io_registers.hpp:40-40 IoRegisters::kTimerBase *)
Definition kTimerBase : Z := 0x04000100.
(* @ io_registers.hpp:41-41 IoRegisters::kKeyinput *)
Definition kKeyinput : Z := 0x04000130.
(* @ io_registers.hpp:42-42 IoRegisters::kKeycnt *)
Definition kKeycnt : Z := 0x04000132.
(* @ io_registers.hpp:43-43 IoRegisters::kRcnt *)
Definition kRcnt : Z := 0x04000134.
(* @ io_registers.hpp:44-44 IoRegisters::kIe *)
Definition kIe : Z := 0x04000200.
(* @ io_registers.hpp:45-45 IoRegisters::kIf *)
Definition kIf : Z := 0x04000202.
(* @ io_registers.hpp:46-46 IoRegisters::kWaitcnt *)
Definition kWaitcnt : Z := 0x04000204.
(* @ io_registers.hpp:47-47 IoRegisters::kIme *)
Definition kIme : Z := 0x04000208.

(* @ io_registers.cpp:10-10 kDmaChannelStride *)
Definition kDmaChannelStride : Z := 12.
(* @ io_registers.cpp:11-11 kDmaRegisterBytes *)
Definition kDmaRegisterBytes : Z := kDmaChannelStride * Z.of_nat kChannelCount.
(* @ io_registers.cpp:12-12 kTimerStride *)
Definition kTimerStride : Z := 4.
(* @ io_registers.cpp:13-13 kTimerRegisterBytes *)
Definition kTimerRegisterBytes : Z := kTimerStride * Z.of_nat kTimerCount.
(* @ io_registers.cpp:14-17 kSerialRegisterAddresses *)
Definition kSerialRegisterAddresses : list Z :=
  [0x04000120; 0x04000122; 0x04000124; 0x04000126; 0x04000128; 0x0400012A; kRcnt].
(* @ io_registers.cpp:22-22 kSiocnt *)
Definition kSiocnt : Z := 0x04000128.
(* @ io_registers.cpp:30-30 kSiocntModeMask *)
Definition kSiocntModeMask : Z := 0x3000.
(* @ io_registers.cpp:31-31 kRcModeMask *)
Definition kRcModeMask : Z := 0xC000.
(* @ io_registers.cpp:32-32 kSioIdleControlBits *)
Definition kSioIdleControlBits : Z := 0x4F8F.
(* @ io_registers.cpp:33-33 kJoycntIdle *)
Definition kJoycntIdle : Z := 0x0040.
(* @ io_registers.cpp:34-34 kSioStartBit *)
Definition kSioStartBit : Z := 0x0080.
(* @ io_registers.cpp:35-35 kSioInternalClockBit *)
Definition kSioInternalClockBit : Z := 0x0001.
(* @ io_registers.cpp:36-36 kSioFastClockBit *)
Definition kSioFastClockBit : Z := 0x0002.
(* @ io_registers.cpp:37-37 kSioIrqEnableBit *)
Definition kSioIrqEnableBit : Z := 0x4000.
(* @ io_registers.cpp:38-38 kSioSlowClockCyclesPerBit *)
Definition kSioSlowClockCyclesPerBit : Z := 64.
(* @ io_registers.cpp:39-39 kSioFastClockCyclesPerBit *)
Definition kSioFastClockCyclesPerBit : Z := 8.
(* @ io_registers.cpp:40-40 kSioCompletionLatencyCycles *)
Definition kSioCompletionLatencyCycles : Z := 40.

(** ** Address decoding *)

(* @ io_registers.cpp:42-44 is_halfword_aligned *)
Definition is_halfword_aligned (address : Z) : bool := Z.land address 0x1 =? 0.

(* @ io_registers.cpp:46-48 is_word_aligned *)
Definition is_word_aligned (address : Z) : bool := Z.land address 0x3 =? 0.

(* @ io_registers.cpp:50-64 is_lcd_control_address *)
Definition is_lcd_control_address (address : Z) : bool :=
  if negb (is_halfword_aligned address) then false
  else if address <=? 0x0400001E
  then negb (address =? kDispstat) && negb (address =? kVcount)
  else if (0x04000020 <=? address) && (address <=? 0x0400003E) then true
  else if (0x04000040 <=? address) && (address <=? 0x04000054) then true
  else false.

(** The index and the offset in a bank of registers. *)
(* @ io_registers.cpp:66-76 dma_index *)
Definition dma_index (address : Z) : option (nat * Z) :=
  if (address <? kDmaBase) || (kDmaBase + kDmaRegisterBytes <=? address) then None
  else
    let relative := address - kDmaBase in
    Some (Z.to_nat (relative / kDmaChannelStride), relative mod kDmaChannelStride).

(* @ io_registers.cpp:78-88 timer_index *)
Definition timer_index (address : Z) : option (nat * Z) :=
  if (address <? kTimerBase) || (kTimerBase + kTimerRegisterBytes <=? address) then None
  else
    let relative := address - kTimerBase in
    Some (Z.to_nat (relative / kTimerStride), relative mod kTimerStride).

(** The position of the first element equal to [address]. *)
Fixpoint index_of (address : Z) (l : list Z) : option nat :=
  match l with
  | [] => None
  | a :: l' => if address =? a then Some 0%nat else S <$> index_of address l'
  end.

(* @ io_registers.cpp:90-98 serial_index *)
Definition serial_index (address : Z) : option nat := index_of address kSerialRegisterAddresses.

(* @ io_registers.cpp:168-174 wave_ram_index *)
Definition wave_ram_index (address : Z) : option nat :=
  if (address <? 0x04000090) || (0x0400009E <? address) || negb (is_halfword_aligned address)
  then None
  else Some (Z.to_nat ((address - 0x04000090) / 2)).

(* @ io_registers.cpp:176-197 zero_read_hole *)
Definition zero_read_hole (address : Z) : option Z :=
  match address with
  | 0x04000066 | 0x0400006A | 0x0400006E | 0x04000076 | 0x0400007A | 0x0400007E
  | 0x04000086 | 0x0400008A | 0x04000136 | 0x04000142 | 0x0400015A | 0x04000206
  | 0x0400020A | 0x04000302 => Some 0
  | _ => None
  end.

(** The JOY registers. *)
(* @ io_registers.cpp:548-557 IoRegisters::write16 *)
Definition is_joy_register (address : Z) : bool :=
  match address with
  | 0x04000140 | 0x04000150 | 0x04000152 | 0x04000154 | 0x04000156 => true
  | _ => false
  end.

(** ** Serial registers *)

(* @ io_registers.cpp:100-102 serial_mode *)
Definition serial_mode (siocnt : Z) : Z := u16 (Z.land siocnt kSiocntModeMask).

(* @ io_registers.cpp:104-109 read_siocnt *)
Definition read_siocnt (value : Z) : Z :=
  let mode := serial_mode value in
  let uart_external_clock := if mode =? 0x3000 then u16 (Z.land value 0x0020) else 0 in
  u16 (Z.lor (Z.lor kSioIdleControlBits mode) uart_external_clock).

(* @ io_registers.cpp:111-123 read_rcnt *)
Definition read_rcnt (rcnt siocnt : Z) : Z :=
  match Z.land rcnt kRcModeMask with
  | 0x8000 => 0x81FF
  | 0xC000 => 0xC1FC
  | _ =>
      let mode := serial_mode siocnt in
      if (mode =? 0x0000) || (mode =? 0x1000) then 0x01F5 else 0x01FF
  end.

(* @ io_registers.cpp:125-141 read_serial_data *)
Definition read_serial_data (address siocnt stored : Z) : Z :=
  let mode := serial_mode siocnt in
  match address with
  | 0x04000120 | 0x04000122 => if mode =? 0x1000 then stored else 0
  | 0x04000124 | 0x04000126 => 0
  | 0x0400012A => if mode =? 0x3000 then 0 else stored
  | _ => stored
  end.

(* @ io_registers.cpp:143-166 serial_transfer_cycles *)
Definition serial_transfer_cycles (siocnt : Z) : option Z :=
  if negb (has siocnt kSioStartBit) || negb (has siocnt kSioInternalClockBit) then None
  else
    let cycles bits :=
      let cycles_per_bit :=
        if has siocnt kSioFastClockBit then kSioFastClockCyclesPerBit
        else kSioSlowClockCyclesPerBit in
      Some (bits * cycles_per_bit + kSioCompletionLatencyCycles) in
    match serial_mode siocnt with
    | 0x0000 => cycles 8
    | 0x1000 => cycles 32
    | _ => None
    end.

(** [serial_.at(i)]. *)
Definition serial_at (i : nat) (d : Devices) : exc Z := array_at (serial d) i.

(* @ io_registers.cpp:279-283 IoRegisters::reset *)
Definition reset (d : Devices) : Devices :=
  d <| serial ::= fun l => replicate (length l) 0 |>
    <| sio_transfer_active := false |> <| sio_transfer_cycles_remaining := 0 |>.

(* @ io_registers.cpp:285-287 IoRegisters::save_state *)
Definition save_state (d : Devices) : IoRegistersState :=
  mkIoRegistersState (serial d) (sio_transfer_active d) (sio_transfer_cycles_remaining d).

(* @ io_registers.cpp:289-293 IoRegisters::load_state *)
Definition load_state (state : IoRegistersState) (d : Devices) : Devices :=
  d <| serial := s_serial state |> <| sio_transfer_active := s_sio_transfer_active state |>
    <| sio_transfer_cycles_remaining := s_sio_transfer_cycles_remaining state |>.

(* @ io_registers.cpp:295-303 IoRegisters::state_hash *)
Definition state_hash (d : Devices) : Z :=
  add_u32 (sio_transfer_cycles_remaining d)
    (add_bool (sio_transfer_active d)
      (fold_left (fun h v => add_u16 v h) (serial d) kOffsetBasis)).

(* @ io_registers.cpp:305-319 IoRegisters::tick *)
Definition tick (cycles : Z) (d : Devices) : exc Devices :=
  if negb (sio_transfer_active d) || (cycles =? 0) then Ret d
  else if cycles <? sio_transfer_cycles_remaining d
  then Ret (d <| sio_transfer_cycles_remaining ::= fun r => r - cycles |>)
  else
    let d := d <| sio_transfer_active := false |> <| sio_transfer_cycles_remaining := 0 |> in
    siocnt ← serial_at 4 d;
    Ret (if has siocnt kSioIrqEnableBit
         then d <| interrupts ::= Interrupts.request InterruptSource.serial |> else d).

(** ** Halfword reads *)

(** The registers with an address of their own. *)
(* @ io_registers.cpp:334-381 IoRegisters::read16 *)
Definition read_named (address : Z) (d : Devices) : option Z :=
  match address with
  | 0x04000060 => Some 0x007F
  | 0x04000062 => Some 0xFFC0
  | 0x04000064 => Some 0x4000
  | 0x04000068 => Some 0xFFC0
  | 0x0400006C => Some 0x4000
  | 0x04000070 => Some 0x00E0
  | 0x04000072 => Some 0xE000
  | 0x04000074 => Some 0x4000
  | 0x04000078 => Some 0xFF00
  | 0x0400007C => Some 0x40FF
  | 0x04000004 => Some (PpuTiming.dispstat (ppu d))
  | 0x04000006 => Some (PpuTiming.vcount (ppu d))
  | 0x04000080 => Some (Apu.soundcnt_l_ (apu d))
  | 0x04000082 => Some (Apu.soundcnt_h_ (apu d))
  | 0x04000084 => Some (Apu.soundcnt_x (apu d))
  | 0x04000088 => Some (Apu.soundbias_ (apu d))
  | 0x04000130 => Some (Keypad.keyinput (keypad d))
  | 0x04000132 => Some (Keypad.keycnt (keypad d))
  | 0x04000200 => Some (Interrupts.interrupt_enable (interrupts d))
  | 0x04000202 => Some (Interrupts.interrupt_flags (interrupts d))
  | 0x04000204 => Some (WaitState.read_control (waitcnt d))
  | 0x04000208 => Some (Interrupts.ime (interrupts d))
  | _ => None
  end.

(* @ io_registers.cpp:393-403 IoRegisters::read16 *)
Definition read_timer (timer : nat) (offset : Z) (d : Devices) : exc (option Z) :=
  if offset =? 0 then v ← Timers.counter_at timer (timers_ d); Ret (Some v)
  else if offset =? 2 then v ← Timers.control_at timer (timers_ d); Ret (Some v)
  else Ret None.

(* @ io_registers.cpp:405-414 IoRegisters::read16 *)
Definition read_serial (address : Z) (index : nat) (d : Devices) : exc (option Z) :=
  stored ← serial_at index d;
  siocnt ← serial_at 4 d;
  Ret (Some (if address =? kSiocnt then read_siocnt stored
             else if address =? kRcnt then read_rcnt stored siocnt
             else read_serial_data address siocnt stored)).

(* @ io_registers.cpp:433-451 IoRegisters::read16 *)
Definition read_dma (channel : nat) (offset : Z) (d : Devices) : exc (option Z) :=
  match offset with
  | 0 | 2 | 4 | 6 => Ret None
  | 8 => Ret (Some 0)
  | 10 => v ← Dma.control channel (dma d); Ret (Some v)
  | _ => Ret None
  end.

(** The register banks, in the order the code tries them. *)
(* @ io_registers.cpp:388-453 IoRegisters::read16 *)
Definition read_banks (address : Z) (d : Devices) : exc (option Z) :=
  lcd ← PpuTiming.read_lcd_control address (ppu d);
  match lcd, timer_index address, serial_index address with
  | Some value, _, _ => Ret (Some value)
  | None, Some (timer, offset), _ => read_timer timer offset d
  | None, None, Some index => read_serial address index d
  | None, None, None =>
      if is_joy_register address
      then Ret (Some (if address =? 0x04000140 then kJoycntIdle else 0))
      else
        match wave_ram_index address, dma_index address with
        | Some index, _ => v ← Apu.wave_ram index (apu d); Ret (Some v)
        | None, Some (channel, offset) => read_dma channel offset d
        | None, None => Ret None
        end
  end.

(* @ io_registers.cpp:329-454 IoRegisters::read16 *)
Definition read16 (address : Z) (d : Devices) : exc (option Z) :=
  if negb (is_halfword_aligned address) then Ret None
  else
    match read_named address d, zero_read_hole address with
    | Some value, _ => Ret (Some value)
    | None, Some zero => Ret (Some zero)
    | None, None => read_banks address d
    end.

(* @ io_registers.cpp:217-219 combine16 *)
Definition combine16 (low high : Z) : Z := Z.lor low (u32 (Z.shiftl high 16)).

(* @ io_registers.cpp:456-469 IoRegisters::read32 *)
Definition read32 (address : Z) (d : Devices) : exc (option Z) :=
  if negb (is_word_aligned address) then Ret None
  else if address =? kIme then read16 address d
  else
    low ← read16 address d;
    high ← read16 (u32 (address + 2)) d;
    Ret (match low, high with
         | Some l, Some h => Some (combine16 l h)
         | _, _ => None
         end).

(** ** Halfword writes *)

(* @ io_registers.cpp:199-201 low16 *)
Definition low16 (value : Z) : Z := u16 (Z.land value 0xFFFF).
(* @ io_registers.cpp:203-205 high16 *)
Definition high16 (value : Z) : Z := u16 (Z.land (Z.shiftr value 16) 0xFFFF).
(* @ io_registers.cpp:207-210 replace_low16 *)
Definition replace_low16 (current value : Z) : Z := Z.lor (Z.land current 0xFFFF0000) value.
(* @ io_registers.cpp:212-215 replace_high16 *)
Definition replace_high16 (current value : Z) : Z :=
  Z.lor (Z.land current 0x0000FFFF) (u32 (Z.shiftl value 16)).

(* @ io_registers.cpp:477-481 IoRegisters::write16 *)
Definition write_dispstat (value : Z) (d : Devices) : Devices :=
  let '(newly_matching, p) := PpuTiming.recheck_vcount_match value (ppu d) in
  let d := d <| ppu := p |> in
  if newly_matching && PpuTiming.vcount_irq_enabled p
  then d <| interrupts ::= Interrupts.request InterruptSource.vcount |> else d.

(* @ io_registers.cpp:498-501 IoRegisters::write16 *)
Definition write_keycnt (value : Z) (d : Devices) : Devices :=
  let d := d <| keypad ::= Keypad.write_keycnt value |> in
  d <| interrupts := Keypad.poll_interrupt (keypad d) (interrupts d) |>.

(** [None] when the address is no register of its own. *)
(* @ io_registers.cpp:476-516 IoRegisters::write16 *)
Definition write_named (address value : Z) (d : Devices) : option (bool * Devices) :=
  match address with
  | 0x04000004 => Some (true, write_dispstat value d)
  | 0x04000006 => Some (false, d)
  | 0x04000080 => Some (true, d <| apu ::= Apu.write_soundcnt_l value |>)
  | 0x04000082 => Some (true, d <| apu ::= Apu.write_soundcnt_h value |>)
  | 0x04000084 => Some (true, d <| apu ::= Apu.write_soundcnt_x value |>)
  | 0x04000088 => Some (true, d <| apu ::= Apu.write_soundbias value |>)
  | 0x04000130 => Some (false, d)
  | 0x04000132 => Some (true, write_keycnt value d)
  | 0x04000200 => Some (true, d <| interrupts ::= Interrupts.write_interrupt_enable value |>)
  | 0x04000202 => Some (true, d <| interrupts ::= Interrupts.write_interrupt_flags value |>)
  | 0x04000204 => Some (true, d <| waitcnt ::= WaitState.write_control value |>)
  | 0x04000208 => Some (true, d <| interrupts ::= Interrupts.write_ime value |>)
  | _ => None
  end.

(* @ io_registers.cpp:522-534 IoRegisters::write16 *)
Definition write_timer (timer : nat) (offset value : Z) (d : Devices) : exc (bool * Devices) :=
  if offset =? 0 then
    t ← Timers.write_reload timer value (timers_ d); Ret (true, d <| timers_ := t |>)
  else if offset =? 2 then
    t ← Timers.write_control timer value (timers_ d); Ret (true, d <| timers_ := t |>)
  else Ret (false, d).

(* @ io_registers.cpp:536-546 IoRegisters::write16 *)
Definition write_serial (address : Z) (index : nat) (value : Z) (d : Devices)
    : exc (bool * Devices) :=
  l ← array_put (serial d) index value;
  let d := d <| serial := l |> in
  Ret (true,
       if address =? kSiocnt then
         let transfer_cycles := serial_transfer_cycles value in
         d <| sio_transfer_active := bool_decide (is_Some transfer_cycles) |>
           <| sio_transfer_cycles_remaining := default 0 transfer_cycles |>
       else d).

(* @ io_registers.cpp:565-590 IoRegisters::write16 *)
Definition write_dma (channel : nat) (offset value : Z) (d : Devices) : exc (bool * Devices) :=
  let written (m : exc DmaController) := c ← m; Ret (true, d <| dma := c |>) in
  match offset with
  | 0 => v ← Dma.source channel (dma d);
         written (Dma.write_source channel (replace_low16 v value) (dma d))
  | 2 => v ← Dma.source channel (dma d);
         written (Dma.write_source channel (replace_high16 v value) (dma d))
  | 4 => v ← Dma.destination channel (dma d);
         written (Dma.write_destination channel (replace_low16 v value) (dma d))
  | 6 => v ← Dma.destination channel (dma d);
         written (Dma.write_destination channel (replace_high16 v value) (dma d))
  | 8 => written (Dma.write_word_count channel value (dma d))
  | 10 => written (Dma.write_control channel value (dma d))
  | _ => Ret (false, d)
  end.

(* @ io_registers.cpp:518-592 IoRegisters::write16 *)
Definition write_banks (address value : Z) (d : Devices) : exc (bool * Devices) :=
  '(lcd, p) ← PpuTiming.write_lcd_control address value (ppu d);
  if (lcd : bool) then Ret (true, d <| ppu := p |>)
  else
    match timer_index address, serial_index address with
    | Some (timer, offset), _ => write_timer timer offset value d
    | None, Some index => write_serial address index value d
    | None, None =>
        if is_joy_register address then Ret (true, d)
        else
          match wave_ram_index address, dma_index address with
          | Some index, _ =>
              a ← Apu.write_wave_ram index value (apu d); Ret (true, d <| apu := a |>)
          | None, Some (channel, offset) => write_dma channel offset value d
          | None, None => Ret (false, d)
          end
    end.

(* @ io_registers.cpp:471-593 IoRegisters::write16 *)
Definition write16 (address value : Z) (d : Devices) : exc (bool * Devices) :=
  if negb (is_halfword_aligned address) then Ret (false, d)
  else
    match write_named address value d with
    | Some result => Ret result
    | None => write_banks address value d
    end.

(** ** Word writes *)

(* @ io_registers.cpp:221-261 can_write16_address *)
Definition can_write16_address (address : Z) : bool :=
  if negb (is_halfword_aligned address) then false
  else
    match address with
    | 0x04000004 | 0x04000080 | 0x04000082 | 0x04000084 | 0x04000088 | 0x04000132
    | 0x04000200 | 0x04000202 | 0x04000204 | 0x04000208 => true
    | 0x04000006 => false
    | _ =>
        is_lcd_control_address address ||
        match timer_index address, serial_index address, dma_index address with
        | Some (_, offset), _, _ => (offset =? 0) || (offset =? 2)
        | None, Some _, _ => true
        | None, None, Some (_, offset) =>
            (offset =? 0) || (offset =? 2) || (offset =? 4) || (offset =? 6) ||
            (offset =? 8) || (offset =? 10)
        | None, None, None => false
        end
    end.

(* @ io_registers.cpp:595-629 IoRegisters::write32 *)
Definition write32 (address value : Z) (d : Devices) : exc (bool * Devices) :=
  if negb (is_word_aligned address) then Ret (false, d)
  else if address =? kIme then write16 address (low16 value) d
  else if address =? kWaitcnt then write16 address (low16 value) d
  else if address =? kFifoA then
    a ← Apu.write_fifo DirectSoundChannel.a value (apu d); Ret (true, d <| apu := a |>)
  else if address =? kFifoB then
    a ← Apu.write_fifo DirectSoundChannel.b value (apu d); Ret (true, d <| apu := a |>)
  else
    '(handled_any_half, d) ←
      (if can_write16_address address then write16 address (low16 value) d else Ret (false, d));
    if can_write16_address (u32 (address + 2)) then
      '(handled, d) ← write16 (u32 (address + 2)) (high16 value) d;
      Ret ((handled : bool) || (handled_any_half : bool), d)
    else Ret (handled_any_half, d).

(** ** The wiring of the bus *)

(** [IoRegistersSpec.write16_wf] and its companions show that the accesses
    never throw on well-formed devices, so the defaults are not taken. *)
Definition read_or_none (m : exc (option Z)) : option Z :=
  match m with Ret v => v | Throw => None end.

Definition write_or_skip (d : Devices) (m : exc (bool * Devices)) : bool * Devices :=
  match m with Ret r => r | Throw => (false, d) end.

(* @ core_session.cpp:8-26 io_callbacks, io_read16, io_read32, io_write16, io_write32 *)
Definition io_callbacks : IoCallbacks Devices :=
  mkIoCallbacks
    (Some (fun d address => read_or_none (read16 address d)))
    (Some (fun d address => read_or_none (read32 address d)))
    (Some (fun address value d => write_or_skip d (write16 address value d)))
    (Some (fun address value d => write_or_skip d (write32 address value d))).
