(* ===== verification/DmaTransfer.v ===== *)
(** * The DMA controller: transfers

    [run_trigger], [run_sound_fifo] and the transfer loops of
    [src/core/dma_controller.cpp].  A transfer reads and writes through the
    memory bus, whose IO callbacks reach the DMA registers themselves, so the
    loops run on the whole [Bus] of [Devices]: [state] is the live channel
    (the C++ reference), read again in every iteration, after the store of
    the iteration may have changed it.

    The wait-state pointer is the bus's own [WaitStateControl] or null.

    The loop runs while [unit < state.current_count]; [unit] grows by one and
    a count never exceeds 0x10000, so 0x10001 iterations are enough. *)

From S2P Require Import Prelude StateHash Interrupts BusTypes WaitState.
From S2P Require Import MemoryBus Apu Dma IoRegisters.

(* @ dma_controller.hpp:38-43 DmaRunResult *)
Record DmaRunResult : Type := mkDmaRunResult {
  channels_executed : Z;
  units_transferred : Z;
  unsupported_request : bool;
  bus_cycles : Z
}.

#[export] Instance eta_DmaRunResult : Eta DmaRunResult := fun r =>
  mkDmaRunResult (channels_executed r) (units_transferred r) (unsupported_request r)
    (bus_cycles r).

Definition Machine : Type := Bus (D := Devices).

(** The live channel. *)
Definition channel_of (channel : nat) (m : Machine) : exc Channel :=
  checked_channel channel (dma m.2).

(** [state.field = value]. *)
Definition on_channel (channel : nat) (f : Channel -> Channel) (m : Machine) : exc Machine :=
  c ← channel_of channel m;
  Ret (m.1, m.2 <| dma ::= update_channel channel (f c) |>).

(** [waitcnt] is not null. *)
Definition waitcnt_of (with_waitcnt : bool) (m : Machine) : option WaitStateControl :=
  if with_waitcnt then Some (waitcnt m.2) else None.

(** [address & ~(unit_size - 1)]. *)
Definition align_unit (address unit_size : Z) : Z :=
  Z.land address (Z.lnot (unit_size - 1)).

(* @ dma_controller.cpp:504-507 DmaController::execute_channel *)
Definition aligned_source (channel : nat) (address unit_size : Z) : Z :=
  align_unit (effective_source_address channel address) unit_size.

(* @ dma_controller.cpp:506-507 DmaController::execute_channel *)
Definition aligned_destination (channel : nat) (address unit_size : Z) : Z :=
  align_unit (effective_destination_address channel address) unit_size.

Definition drive_if (drive_open_bus : bool) (value : Z) (m : Machine) : Machine :=
  if drive_open_bus then (MemoryBus.drive_open_bus value m.1, m.2) else m.

(** The word of a unit: read, latched, driven on the bus and written. *)
(* @ dma_controller.cpp:516-524 DmaController::execute_channel *)
Definition transfer_word (channel : nat) (from to : Z) (drive_open_bus : bool) (m : Machine)
    : exc Machine :=
  state ← channel_of channel m;
  let read_value :=
    if dma_source_uses_latch from then None else MemoryBus.read32 io_callbacks from m in
  let value := default (data_latch state) read_value in
  m ← on_channel channel (fun c => c <| data_latch := value |>) m;
  let m := drive_if drive_open_bus value m in
  let '(written, m) := MemoryBus.write32 io_callbacks to value m in
  Ret m.

(* @ dma_controller.cpp:525-537 DmaController::execute_channel *)
Definition transfer_halfword (channel : nat) (from to : Z) (drive_open_bus : bool)
    (m : Machine) : exc Machine :=
  state ← channel_of channel m;
  let read_value :=
    if dma_source_uses_latch from then None else MemoryBus.read16 io_callbacks from m in
  let value := default (u16 (Z.land (data_latch state) 0xFFFF)) read_value in
  m ← (match read_value with
       | Some _ => on_channel channel (fun c => c <| data_latch := duplicate_halfword value |>) m
       | None => Ret m
       end);
  let m := drive_if drive_open_bus (duplicate_halfword value) m in
  let '(written, m) := MemoryBus.write16 io_callbacks to value m in
  Ret m.

(** The cursor of a transfer: the addresses and the bus cycles. *)
Record Cursor : Type := mkCursor {
  source_address : Z;
  destination_address : Z;
  cycles : Z
}.

(* @ dma_controller.cpp:508-511 DmaController::execute_channel *)
Definition source_step_control (channel : nat) (address : Z) (c : Channel)
    : DmaAddressControl.t :=
  if dma_source_steps_as_game_pak_stream channel address then DmaAddressControl.increment
  else channel_source_control c.

(** One iteration of the transfer loop. *)
(* @ dma_controller.cpp:504-540 DmaController::execute_channel *)
Definition transfer_unit (channel : nat) (with_waitcnt word_transfer drive_open_bus : bool)
    (unit : Z) (cur : Cursor) (m : Machine) : exc (Cursor * Machine) :=
  let unit_size := if word_transfer then 4 else 2 in
  let from := aligned_source channel (source_address cur) unit_size in
  let to := aligned_destination channel (destination_address cur) unit_size in
  state ← channel_of channel m;
  let step_control := source_step_control channel (source_address cur) state in
  let cycles :=
    u32 (cycles cur +
         dma_transfer_bus_cycles from to word_transfer
           (dma_stream_is_sequential unit step_control)
           (dma_stream_is_sequential unit (channel_destination_control state))
           (waitcnt_of with_waitcnt m)) in
  m ← (if word_transfer then transfer_word channel from to drive_open_bus m
       else transfer_halfword channel from to drive_open_bus m);
  state ← channel_of channel m;
  Ret (mkCursor (step_address (source_address cur) step_control unit_size)
         (step_address (destination_address cur) (channel_destination_control state) unit_size)
         cycles, m).

(* @ dma_controller.cpp:503-541 DmaController::execute_channel (the loop) *)
Fixpoint transfer_loop (fuel : nat) (channel : nat)
    (with_waitcnt word_transfer drive_open_bus : bool) (unit : Z) (cur : Cursor) (m : Machine)
    : exc (Cursor * Machine) :=
  state ← channel_of channel m;
  if unit <? current_count state then
    match fuel with
    | O => Throw
    | S fuel' =>
        '(cur, m) ← transfer_unit channel with_waitcnt word_transfer drive_open_bus unit cur m;
        transfer_loop fuel' channel with_waitcnt word_transfer drive_open_bus (unit + 1) cur m
    end
  else Ret (cur, m).

(** The interrupt of a completed transfer. *)
(* @ dma_controller.cpp:552-554 DmaController::execute_channel *)
Definition completion_irq (channel : nat) (m : Machine) : exc Machine :=
  state ← channel_of channel m;
  Ret (if channel_irq_on_completion state then
         match dma_interrupt_source channel with
         | Some source => (m.1, m.2 <| interrupts ::= Interrupts.request source |>)
         | None => m
         end
       else m).

(** The channel at the end of a transfer: re-armed when it repeats on a
    recurring trigger, disabled otherwise. *)
(* @ dma_controller.cpp:562-571 DmaController::execute_channel *)
Definition rearm (channel : nat) (state : Channel) : Channel :=
  if channel_repeat state &&
     negb (bool_decide (channel_start_timing state = DmaStartTiming.immediate))
  then
    let state := state <| current_count := normalized_word_count channel state |> in
    if bool_decide (channel_destination_control state = DmaAddressControl.increment_reload)
    then state <| current_destination := destination_ state |> else state
  else state <| control_ := u16 (Z.land (control_ state) (Z.lnot kEnableFlag)) |>.

(* @ dma_controller.cpp:482-572 DmaController::execute_channel *)
Definition execute_channel (channel : nat) (with_waitcnt drive_open_bus : bool)
    (result : DmaRunResult) (m : Machine) : exc (bool * DmaRunResult * Machine) :=
  state ← channel_of channel m;
  if bool_decide (channel_source_control state = DmaAddressControl.increment_reload)
  then Ret (false, result, m)
  else
    let word_transfer := channel_transfer_32bit state in
    let unit_size := if word_transfer then 4 else 2 in
    let initial_source := aligned_source channel (current_source state) unit_size in
    let initial_destination :=
      aligned_destination channel (current_destination state) unit_size in
    '(cur, m) ← transfer_loop (Z.to_nat 0x10001) channel with_waitcnt word_transfer
                  drive_open_bus 0
                  (mkCursor (current_source state) (current_destination state)
                     (u32 (bus_cycles result + 2))) m;
    state ← channel_of channel m;
    let result :=
      result <| units_transferred := u32 (units_transferred result + current_count state) |>
        <| bus_cycles :=
             apply_dma_bus_adjustment (cycles cur)
               (dma_game_pak_arbitration_adjustment initial_source initial_destination
                  (waitcnt_of with_waitcnt m)) |> in
    m ← on_channel channel (fun c =>
          c <| current_source := source_address cur |>
            <| current_destination := destination_address cur |>
            <| current_count := 0 |>) m;
    m ← completion_irq channel m;
    m ← on_channel channel (rearm channel) m;
    Ret (true, result, m).

(** The channel takes the trigger: it is enabled with its timing. *)
(* @ dma_controller.cpp:390-392 DmaController::run_trigger *)
Definition takes_trigger (timing : DmaStartTiming.t) (c : Channel) : bool :=
  channel_enabled c && bool_decide (channel_start_timing c = timing).

(** The loop over the channels from [channel], [n] of them. *)
(* @ dma_controller.cpp:388-410 DmaController::run_trigger *)
Fixpoint run_channels (n : nat) (channel : nat) (trigger : DmaTrigger.t) (with_waitcnt : bool)
    (immediate_still_pending : bool) (result : DmaRunResult) (m : Machine)
    : exc (DmaRunResult * Machine) :=
  let is_immediate := bool_decide (trigger = DmaTrigger.immediate) in
  match n with
  | O =>
      Ret (result,
           if is_immediate
           then (m.1, m.2 <| dma ::= fun d => d <| immediate_pending := immediate_still_pending |> |>)
           else m)
  | S n' =>
      state ← channel_of channel m;
      if negb (takes_trigger (trigger_timing trigger) state)
      then run_channels n' (S channel) trigger with_waitcnt immediate_still_pending result m
      else
        '(ok, result, m) ← execute_channel channel with_waitcnt (negb is_immediate) result m;
        if negb ok then
          Ret (result <| unsupported_request := true |>,
               if is_immediate
               then (m.1, m.2 <| dma ::= fun d => d <| immediate_pending := true |> |>) else m)
        else
          let result := result <| channels_executed := u8 (channels_executed result + 1) |> in
          state ← channel_of channel m;
          run_channels n' (S channel) trigger with_waitcnt
            (immediate_still_pending || (is_immediate && channel_immediate state)) result m
  end.

(* @ dma_controller.cpp:379-411 DmaController::run_trigger *)
Definition run_trigger (trigger : DmaTrigger.t) (with_waitcnt : bool) (m : Machine)
    : exc (DmaRunResult * Machine) :=
  let result := mkDmaRunResult 0 0 false 0 in
  match trigger with
  | DmaTrigger.fifo_a | DmaTrigger.fifo_b =>
      Ret (result <| unsupported_request := true |>, m)
  | _ => run_channels kChannelCount 0 trigger with_waitcnt false result m
  end.

(* @ dma_controller.cpp:373-377 DmaController::run_immediate *)
Definition run_immediate (with_waitcnt : bool) (m : Machine) : exc (DmaRunResult * Machine) :=
  run_trigger DmaTrigger.immediate with_waitcnt m.

(** ** Sound FIFO transfers *)

(** The result of the four-word burst: [None] when a read failed, with the
    state reached. *)
(* @ dma_controller.cpp:589-603 DmaController::execute_sound_fifo_channel *)
Fixpoint fifo_burst (n : nat) (unit : Z) (channel : nat) (fifo : DirectSoundChannel.t)
    (with_waitcnt : bool) (source_address cycles : Z) (m : Machine)
    : exc (bool * Z * Z * Machine) :=
  match n with
  | O => Ret (true, source_address, cycles, m)
  | S n' =>
      state ← channel_of channel m;
      let from := align_unit (effective_source_address channel source_address) 4 in
      let cycles :=
        u32 (cycles +
             dma_transfer_bus_cycles from (destination_ state) true
               (dma_stream_is_sequential unit (channel_source_control state)) false
               (waitcnt_of with_waitcnt m)) in
      match MemoryBus.read32 io_callbacks from m with
      | None => Ret (false, source_address, cycles, m)
      | Some value =>
          m ← on_channel channel (fun c => c <| data_latch := value |>) m;
          a ← Apu.write_fifo fifo value (apu m.2);
          fifo_burst n' (unit + 1) channel fifo with_waitcnt
            (step_address source_address (channel_source_control state) 4) cycles
            (m.1, m.2 <| apu := a |>)
      end
  end.

(* @ dma_controller.cpp:614-620 DmaController::execute_sound_fifo_channel *)
Definition rearm_fifo (channel : nat) (state : Channel) : Channel :=
  if channel_repeat state
  then state <| current_count := normalized_word_count channel state |>
  else state <| current_count := 0 |>
             <| control_ := u16 (Z.land (control_ state) (Z.lnot kEnableFlag)) |>.

(* @ dma_controller.cpp:574-621 DmaController::execute_sound_fifo_channel *)
Definition execute_sound_fifo_channel (channel : nat) (fifo : DirectSoundChannel.t)
    (with_waitcnt : bool) (result : DmaRunResult) (m : Machine)
    : exc (bool * DmaRunResult * Machine) :=
  state ← channel_of channel m;
  if bool_decide (channel_source_control state = DmaAddressControl.increment_reload)
  then Ret (false, result, m)
  else
    '(ok, source_address, cycles, m) ←
      fifo_burst (Z.to_nat kSoundFifoWordsPerRequest) 0 channel fifo with_waitcnt
        (current_source state) (bus_cycles result) m;
    let result := result <| bus_cycles := cycles |> in
    if negb ok then Ret (false, result, m)
    else
      let result :=
        result <| units_transferred :=
                    u32 (units_transferred result + kSoundFifoWordsPerRequest) |> in
      m ← on_channel channel (fun c =>
            c <| current_source := source_address |>
              <| current_destination := destination_ c |>) m;
      m ← completion_irq channel m;
      m ← on_channel channel (rearm_fifo channel) m;
      Ret (true, result, m).

(** The loop over channels 1 and 2. *)
(* @ dma_controller.cpp:423-435 DmaController::run_sound_fifo *)
Fixpoint run_fifo_channels (channels : list nat) (trigger : DmaTrigger.t) (with_waitcnt : bool)
    (result : DmaRunResult) (m : Machine) : exc (DmaRunResult * Machine) :=
  match channels with
  | [] => Ret (result, m)
  | channel :: channels' =>
      state ← channel_of channel m;
      if negb (takes_trigger DmaStartTiming.special state) ||
         negb (destination_ state =? trigger_fifo_address trigger)
      then run_fifo_channels channels' trigger with_waitcnt result m
      else
        '(ok, result, m) ←
          execute_sound_fifo_channel channel (trigger_fifo trigger) with_waitcnt result m;
        if negb ok then Ret (result <| unsupported_request := true |>, m)
        else
          run_fifo_channels channels' trigger with_waitcnt
            (result <| channels_executed := u8 (channels_executed result + 1) |>) m
  end.

(* @ dma_controller.cpp:413-437 DmaController::run_sound_fifo *)
Definition run_sound_fifo (trigger : DmaTrigger.t) (with_waitcnt : bool) (m : Machine)
    : exc (DmaRunResult * Machine) :=
  let result := mkDmaRunResult 0 0 false 0 in
  match trigger with
  | DmaTrigger.fifo_a | DmaTrigger.fifo_b =>
      run_fifo_channels [1; 2]%nat trigger with_waitcnt result m
  | _ => Ret (result <| unsupported_request := true |>, m)
  end.
