(* ===== verification/DmaSpec.v ===== *)
(** * The DMA controller: invariant

    The invariant of the channels, that register writes keep it, snapshots, and
    the flag [immediate_pending_], which [load_state] takes for a function of
    the channels. *)

From S2P Require Import Prelude StateHash Interrupts BusTypes WaitState.
From S2P Require Timers PpuTiming Keypad.
From S2P Require Import MemoryBus Apu IoRegisters DmaTransfer Dma.

(** ** The invariant *)

Record channel_wf (channel : nat) (c : Channel) : Prop := mk_channel_wf {
  cw_source : fits 32 (source_ c);
  cw_destination : fits 32 (destination_ c);
  cw_word_count : fits 16 (word_count_ c);
  cw_control : fits 16 (control_ c);
  cw_current_source : fits 32 (current_source c);
  cw_current_destination : fits 32 (current_destination c);
  cw_latch : fits 32 (data_latch c);
  cw_mask : has (control_ c) (Z.lnot (control_mask channel)) = false;
  cw_count : 0 <= current_count c <= dma_word_count_mask channel + 1
}.

Definition wf (d : DmaController) : Prop :=
  length (channels d) = kChannelCount /\
  forall i c, channels d !! i = Some c -> channel_wf i c.

(** A channel that is not enabled has nothing left to transfer. *)
Definition channel_idle (c : Channel) : Prop := channel_enabled c = false -> current_count c = 0.

(** The flag is the one the channels imply. *)
Definition pending_exact (d : DmaController) : Prop :=
  immediate_pending d = existsb channel_immediate (channels d).

(** What [load_state] takes for granted of a snapshot. *)
Definition saveable (d : DmaController) : Prop :=
  Forall channel_idle (channels d) /\ pending_exact d.

Lemma dma_mask_fits i : fits 16 (control_mask i).
Proof. unfold control_mask. destruct (i =? 3)%nat; by vm_compute. Qed.

Lemma count_mask_bound i : 0 < dma_word_count_mask i <= 0xFFFF.
Proof. unfold dma_word_count_mask. case_match; lia. Qed.

Lemma dma_reset_wf : wf Dma.reset.
Proof.
  split; [done|]. intros i c H. apply lookup_replicate in H as [-> _].
  constructor; try (by vm_compute); cbn; try (unfold fits; lia).
  pose proof (count_mask_bound i). lia.
Qed.

Lemma wf_lookup d i : wf d -> (i < kChannelCount)%nat ->
  exists c, checked_channel i d = Ret c /\ channels d !! i = Some c /\ channel_wf i c.
Proof.
  intros [Hl Hc] Hi. destruct (lookup_lt_is_Some_2 (channels d) i) as [c E]; [lia|].
  exists c. split_and!; [|done|by apply Hc]. unfold checked_channel.
  rewrite decide_False by lia. by apply array_at_Ret.
Qed.

Lemma checked_out d i : (kChannelCount <= i)%nat -> checked_channel i d = Throw.
Proof. intros H. unfold checked_channel. by rewrite decide_True by lia. Qed.

Lemma wf_put_channel d i c : wf d -> channel_wf i c -> wf (update_channel i c d).
Proof.
  intros [Hl Hc] Hw. split; cbn; [by rewrite length_insert|].
  intros j c'. rewrite list_lookup_insert. case_decide as E; [|apply Hc].
  intros [= <-]. by destruct E as [-> _].
Qed.

Lemma normalized_bound i c : 0 <= normalized_word_count i c <= dma_word_count_mask i + 1.
Proof.
  unfold normalized_word_count. cbv zeta. pose proof (count_mask_bound i).
  pose proof (land_range (word_count_ c) (dma_word_count_mask i)).
  destruct (_ =? 0); lia.
Qed.

(** A control word within its mask. *)
Lemma masked_control v i : has (u16 (Z.land v (control_mask i))) (Z.lnot (control_mask i)) = false.
Proof.
  rewrite wrap_id by (apply fits_land_r; [lia|apply dma_mask_fits]).
  unfold has. rewrite <- Z.land_assoc, Z.land_lnot_diag, Z.land_0_r. done.
Qed.

(** ** Register writes *)

Lemma control_written_wf i v c : channel_wf i c -> channel_wf i (control_written i v c).
Proof.
  intros []. pose proof (normalized_bound i). unfold control_written. cbv zeta.
  pose proof (wrap_fits 16 ltac:(lia) (Z.land v (control_mask i))).
  pose proof (masked_control v i). pose proof (count_mask_bound i).
  repeat case_match; constructor; cbn; try done; try lia.
Qed.

Lemma control_written_idle i v c : channel_idle c -> channel_idle (control_written i v c).
Proof.
  intros _. unfold control_written. cbv zeta. set (c' := if negb _ && _ then _ else _).
  case_match eqn:E; [intros ?; reflexivity|].
  apply negb_false_iff in E. intros E'. exfalso.
  assert (Ec : channel_enabled c' = channel_enabled (c <| control_ := u16 (Z.land v (control_mask i)) |>)).
  { subst c'. repeat case_match; done. }
  congruence.
Qed.

Section Writes.
Context (d : DmaController) (Hd : wf d) (i : nat) (Hi : (i < kChannelCount)%nat).

Lemma write_source_wf v : fits 32 v -> exists d', write_source i v d = Ret d' /\ wf d'.
Proof using Hd Hi.
  intros Hv. destruct (wf_lookup d i Hd Hi) as (c & E & _ & []). unfold write_source.
  rewrite E. eexists. split; [done|]. apply wf_put_channel; [done|]. by constructor.
Qed.

Lemma write_destination_wf v : fits 32 v -> exists d', write_destination i v d = Ret d' /\ wf d'.
Proof using Hd Hi.
  intros Hv. destruct (wf_lookup d i Hd Hi) as (c & E & _ & []). unfold write_destination.
  rewrite E. eexists. split; [done|]. apply wf_put_channel; [done|]. by constructor.
Qed.

Lemma write_word_count_wf v : fits 16 v -> exists d', write_word_count i v d = Ret d' /\ wf d'.
Proof using Hd Hi.
  intros Hv. destruct (wf_lookup d i Hd Hi) as (c & E & _ & []). unfold write_word_count.
  rewrite E. eexists. split; [done|]. apply wf_put_channel; [done|]. by constructor.
Qed.

Lemma write_channel_control_wf v : exists d', write_control i v d = Ret d' /\ wf d'.
Proof using Hd Hi.
  destruct (wf_lookup d i Hd Hi) as (c & E & _ & Hc). unfold write_control. rewrite E.
  cbn [mbind exc_bind]. cbv zeta. eexists. split; [done|].
  pose proof (wf_put_channel d i _ Hd (control_written_wf i v c Hc)) as H.
  destruct (channel_immediate _); [done|]. by destruct (channel_immediate c).
Qed.
End Writes.

(** ** Snapshots *)

Lemma channel_wf_ok i c : channel_wf i c -> channel_idle c -> channel_state_ok i c = true.
Proof.
  intros [] Hi. unfold channel_state_ok. rewrite cw_mask0, (proj2 (Z.ltb_ge _ _)) by lia.
  rewrite andb_true_r. cbn. destruct (channel_enabled c) eqn:E; [done|]. by rewrite Hi.
Qed.

Lemma load_wf st d :
  (forall i c, channels st !! i = Some c -> channel_wf i c) -> Forall channel_idle (channels st) ->
  load_state st d = (true, refresh_immediate_pending (d <| channels := channels st |>)).
Proof.
  intros H Hi. unfold load_state.
  replace (forallb _ _) with true; [done|]. symmetry. apply forallb_forall.
  intros b Hb. apply list_elem_of_In, list_elem_of_lookup in Hb as [i Hb].
  rewrite list_lookup_imap in Hb. destruct (channels st !! i) eqn:E; [|done].
  cbn in Hb. injection Hb as <-. apply channel_wf_ok; [by apply H|].
  by eapply Forall_lookup_1.
Qed.

(** Loading what was saved of a controller with idle disabled channels gives
    it back exactly when the flag is the one its channels imply. *)
Lemma dma_snapshot d other : wf d -> Forall channel_idle (channels d) ->
  exists d', load_state (save_state d) other = (true, d') /\
    channels d' = channels d /\ pending_exact d' /\ (d' = d <-> pending_exact d).
Proof.
  intros [Hl Hc] Hi. rewrite (load_wf (save_state d) other Hc Hi). eexists. split_and!; [done..|].
  unfold pending_exact. destruct d as [l p]. cbn. split; [by intros [= ->]|by intros ->].
Qed.

(** ** A lost request

    [run_trigger] ends by overwriting the flag with what it has seen of the
    channels it ran.  Here channel 3 writes the control word of channel 0 and
    so enables an immediate transfer there: the channel is enabled, the flag
    is not set, and loading the snapshot sets it. *)

Definition self_arming : DmaController :=
  Dma.reset <| channels ::=
    <[3%nat := mkChannel 0x03000000 0x040000BA 1 0x8000 0x03000000 0x040000BA 1 0]> |>
    <| immediate_pending := true |>.

Definition arming_machine : Machine :=
  (MemoryBus.initial <| iwram_ ::= <[1%nat := 0x80]> |>,
   mkDevices Interrupts.reset Timers.reset self_arming PpuTiming.reset Apu.reset WaitState.reset
     Keypad.reset (replicate 7 0) false 0).

Example immediate_request_lost :
  match run_immediate false arming_machine with
  | Ret (result, m) =>
      channels_executed result = 1 /\ immediate_pending (dma m.2) = false /\
      existsb channel_immediate (channels (dma m.2)) = true /\
      immediate_pending (load_state (save_state (dma m.2)) Dma.reset).2 = true
  | Throw => False
  end.
Proof. vm_compute. split_and!; reflexivity. Qed.

(** ** A disabled channel that is re-armed

    [execute_channel] re-arms a channel that repeats without asking whether
    it is still enabled.  Here channel 3, started by the horizontal blank,
    writes its own control word without the enable bit: the channel is
    disabled with a count of one, and the snapshot of the controller is
    refused by [load_state]. *)

Definition self_disarming : DmaController :=
  Dma.reset <| channels ::=
    <[3%nat := mkChannel 0x03000000 0x040000DE 1 0xA200 0x03000000 0x040000DE 1 0]> |>.

Definition disarming_machine : Machine :=
  (MemoryBus.initial <| iwram_ ::= <[1%nat := 0x22]> |>,
   mkDevices Interrupts.reset Timers.reset self_disarming PpuTiming.reset Apu.reset WaitState.reset
     Keypad.reset (replicate 7 0) false 0).

Example disabled_channel_rearmed :
  match run_trigger DmaTrigger.hblank false disarming_machine with
  | Ret (result, m) =>
      channels_executed result = 1 /\
      option_map (fun c => (channel_enabled c, current_count c)) (channels (dma m.2) !! 3%nat) =
        Some (false, 1) /\
      (load_state (save_state (dma m.2)) Dma.reset).1 = false
  | Throw => False
  end.
Proof. vm_compute. split_and!; reflexivity. Qed.
