(* ===== verification/MemoryBusSpec.v ===== *)
(** * Properties of the memory bus

    The RAM regions as plain arrays ([ram]), the round trip of aligned
    accesses with its frame, the invariant of the bus, the Flash protocol,
    EEPROM blocks and snapshots. *)

From S2P Require Import Prelude StateHash BusTypes MemoryBus.

(** ** Arrays of bytes *)

Lemma byte_at_put i j v l :
  0 <= i < Z.of_nat (length l) -> 0 <= j ->
  byte_at (put_byte i v l) j = if decide (i = j) then v else byte_at l j.
Proof.
  intros Hi Hj. unfold byte_at, put_byte. destruct (decide (i = j)) as [->|Hne].
  - rewrite list_lookup_insert_eq by lia. done.
  - rewrite list_lookup_insert_ne by lia. done.
Qed.

Lemma length_put_byte i v l : length (put_byte i v l) = length l.
Proof. apply length_insert. Qed.

Definition bytes_ok (l : list Z) : Prop := Forall (fits 8) l.

Lemma put_byte_ok i v l : fits 8 v -> bytes_ok l -> bytes_ok (put_byte i v l).
Proof. intros Hv Hl. by apply Forall_insert. Qed.

Lemma byte_at_ok l i : bytes_ok l -> fits 8 (byte_at l i).
Proof.
  intros Hl. unfold byte_at. destruct (l !! Z.to_nat i) eqn:E; simpl.
  - by apply (Forall_lookup_1 _ _ _ _ Hl E).
  - by vm_compute.
Qed.

Lemma fill_zero_ok l : bytes_ok (fill_zero l).
Proof. apply Forall_replicate. by vm_compute. Qed.

Lemma length_fill_zero l : length (fill_zero l) = length l.
Proof. apply length_replicate. Qed.

Lemma byte_lane_fits n v : fits 8 (byte_lane n v).
Proof. apply wrap_fits. lia. Qed.

Create HintDb bytes.
#[export] Hint Resolve put_byte_ok byte_at_ok fill_zero_ok byte_lane_fits : bytes.
#[export] Hint Rewrite length_put_byte length_fill_zero : bytes.

Lemma byte_lane_bits n v i :
  0 <= n -> 0 <= i -> Z.testbit (byte_lane n v) i = (i <? 8) && Z.testbit v (8 * n + i).
Proof.
  intros Hn Hi. unfold byte_lane. rewrite testbit_wrap by lia. change 0xFF with (Z.ones 8).
  rewrite Z.land_spec, Z.shiftr_spec, Z.testbit_ones_nonneg by lia.
  destruct (Z.ltb_spec i 8); [|done]. simpl. rewrite andb_true_r. f_equal. lia.
Qed.

(** Values are assembled from their byte lanes. *)
Lemma le16_lanes v : fits 16 v -> le16 (byte_lane 0 v) (byte_lane 1 v) = v.
Proof.
  intros Hv. unfold le16. apply (bits_ext 16); [lia| |done|].
  - apply fits_lor; [lia| |width]. apply (fits_mono 8); [lia|auto with bytes].
  - intros i Hi. rewrite Z.lor_spec, testbit_wrap, Z.shiftl_spec, byte_lane_bits by lia.
    destruct (Z.ltb_spec i 8).
    + rewrite (Z.testbit_neg_r (byte_lane 1 v)) by lia. zcmp. simpl. by rewrite orb_false_r.
    + rewrite byte_lane_bits by lia. zcmp. simpl. f_equal. lia.
Qed.

Lemma le32_lanes v :
  fits 32 v -> le32 (byte_lane 0 v) (byte_lane 1 v) (byte_lane 2 v) (byte_lane 3 v) = v.
Proof.
  intros Hv. unfold le32. apply (bits_ext 32); [lia| |done|].
  - repeat (apply fits_lor; [lia| |width]). apply (fits_mono 8); [lia|auto with bytes].
  - intros i Hi. rewrite !Z.lor_spec, !testbit_wrap, !Z.shiftl_spec, byte_lane_bits by lia.
    rewrite (proj2 (Z.ltb_lt i 32)) by lia. cbn [andb].
    assert (Hlane : forall n, 0 <= n -> Z.testbit (byte_lane n v) (i - 8 * n) =
      (8 * n <=? i) && (i <? 8 * n + 8) && Z.testbit v i).
    { intros n Hn. destruct (Z.leb_spec (8 * n) i); [|by rewrite Z.testbit_neg_r by lia].
      rewrite byte_lane_bits by lia. replace (8 * n + (i - 8 * n)) with i by lia.
      zcmp; done. }
    change (i - 8) with (i - 8 * 1). change (i - 16) with (i - 8 * 2).
    change (i - 24) with (i - 8 * 3). rewrite !Hlane by lia. simpl.
    zcmp; simpl; by rewrite ?orb_false_r.
Qed.

Lemma rotate_right_0 v : rotate_right v 0 = v.
Proof. reflexivity. Qed.

(** ** The RAM regions *)

Definition is_ram (r : Region.t) : bool :=
  match r with
  | Region.ewram | Region.iwram | Region.palette | Region.vram | Region.oam => true
  | _ => false
  end.

Definition ram (r : Region.t) (b : MemoryBus) : list Z :=
  match r with
  | Region.ewram => ewram_ b
  | Region.iwram => iwram_ b
  | Region.palette => palette_ b
  | Region.vram => vram_ b
  | Region.oam => oam_ b
  | _ => []
  end.

Definition map_ram (r : Region.t) (f : list Z -> list Z) (b : MemoryBus) : MemoryBus :=
  match r with
  | Region.ewram => b <| ewram_ ::= f |>
  | Region.iwram => b <| iwram_ ::= f |>
  | Region.palette => b <| palette_ ::= f |>
  | Region.vram => b <| vram_ ::= f |>
  | Region.oam => b <| oam_ ::= f |>
  | _ => b
  end.

(** The arrays have their declared sizes. *)
Definition sized (b : MemoryBus) : Prop :=
  forall r, is_ram r = true -> Z.of_nat (length (ram r b)) = region_size r.

Lemma ram_map_ram r r' f b :
  is_ram r = true -> ram r' (map_ram r f b) = if decide (r = r') then f (ram r b) else ram r' b.
Proof. by destruct r, r'. Qed.

(** The region and the offset of the bytes of an aligned access: [address]
    is a multiple of [2 ^ j] and [k] one of its bytes. *)
Lemma aligned_mod x k j n :
  0 <= j <= n -> x mod 2 ^ j = 0 -> 0 <= k < 2 ^ j -> (x + k) mod 2 ^ n = x mod 2 ^ n + k.
Proof.
  intros Hj Hx Hk.
  assert (Hp : 2 ^ n = 2 ^ (n - j) * 2 ^ j) by (rewrite <- Z.pow_add_r by lia; f_equal; lia).
  assert (0 < 2 ^ j) by (apply Z.pow_pos_nonneg; lia).
  assert (0 < 2 ^ (n - j)) by (apply Z.pow_pos_nonneg; lia).
  apply Z.div_exact in Hx; [|lia]. set (q := x / 2 ^ j) in *. rewrite Hx, Hp.
  replace (2 ^ j * q) with (q * 2 ^ j) by lia.
  rewrite Zmult_mod_distr_r.
  replace (q * 2 ^ j + k) with (k + q * 2 ^ j) by lia.
  symmetry. apply (Z.mod_unique _ _ (q / 2 ^ (n - j))).
  - left. pose proof (Z.mod_pos_bound q (2 ^ (n - j))). nia.
  - pose proof (Z.div_mod q (2 ^ (n - j))). nia.
Qed.

Lemma land_mask x n : 0 <= n -> Z.land x (2 ^ n - 1) = x mod 2 ^ n.
Proof.
  intros Hn. replace (2 ^ n - 1) with (Z.ones n) by (rewrite Z.ones_equiv; lia).
  by apply Z.land_ones.
Qed.

Lemma mod_mod_pow x a b : 0 <= a <= b -> (x mod 2 ^ b) mod 2 ^ a = x mod 2 ^ a.
Proof.
  intros H. apply Z.bits_inj'. intros i Hi. fold (wrap b x) (wrap a (wrap b x)) (wrap a x).
  rewrite !testbit_wrap by lia. zcmp; done.
Qed.

(** The five RAM windows as ranges of addresses. *)
Lemma ram_window address :
  fits 32 address -> is_ram (region (classify address)) = true ->
  exists bank, 2 <= bank <= 7 /\ bank <> 4 /\
    bank * 0x1000000 <= address < (bank + 1) * 0x1000000.
Proof.
  intros H. bank_split address H; [..|by rewrite classify_unmapped].
  all: pose proof Hb as Hw; apply bank_window in Hw; unfold classify; rewrite Hb;
    cbn -[Z.land]; try done; try (case_match; done);
    (intros _; eexists; split; [|split; [|exact Hw]]; lia).
Qed.

Lemma classify_lane j address k :
  fits 32 address -> 0 <= j <= 2 -> address mod 2 ^ j = 0 -> 0 <= k < 2 ^ j ->
  is_ram (region (classify address)) = true ->
  u32 (address + k) = address + k /\
  region (classify (address + k)) = region (classify address) /\
  writable (classify (address + k)) = true /\
  offset (classify (address + k)) = offset (classify address) + k.
Proof.
  intros H Hj Ha Hk Hram.
  destruct (ram_window address H Hram) as (bank & Hbank & Hne & Hw).
  pose proof Hw as Hb. apply bank_window in Hb.
  assert (Hlow : address mod 2 ^ 24 + k < 2 ^ 24).
  { rewrite <- (aligned_mod address k j 24) by lia. apply Z.mod_pos_bound. lia. }
  pose proof (Z.div_mod address (2 ^ 24) ltac:(lia)) as Hdm.
  assert (Hq : address / 2 ^ 24 = bank) by (by rewrite <- Z.shiftr_div_pow2 by lia).
  assert (Hb' : Z.shiftr (address + k) 24 = bank).
  { apply bank_window. change 0x1000000 with (2 ^ 24) in *. lia. }
  split; [apply wrap_id; unfold fits in *; lia|].
  assert (Hoff : forall n, j <= n <= 24 ->
    Z.land (Z.land (address + k) 0x00FFFFFF) (2 ^ n - 1) =
    Z.land (Z.land address 0x00FFFFFF) (2 ^ n - 1) + k).
  { intros n Hn. change 0x00FFFFFF with (2 ^ 24 - 1).
    rewrite !land_mask, !mod_mod_pow by lia. apply (aligned_mod _ _ j); [lia|done|lia]. }
  unfold classify. rewrite Hb, Hb'.
  assert (bank = 2 \/ bank = 3 \/ bank = 5 \/ bank = 6 \/ bank = 7) as
    [-> | [-> | [-> | [-> | ->]]]] by lia; cbn [region writable offset];
    (split; [done|]; split; [done|]).
  - apply (Hoff 18). lia.
  - apply (Hoff 15). lia.
  - apply (Hoff 10). lia.
  - change 0x1FFFF with (2 ^ 17 - 1). rewrite Hoff by lia.
    set (x := Z.land (Z.land address 0x00FFFFFF) (2 ^ 17 - 1)).
    assert (Hx : x mod 2 ^ j = 0).
    { subst x. change 0x00FFFFFF with (2 ^ 24 - 1). rewrite !land_mask, !mod_mod_pow by lia. done. }
    change kVramSize with 98304.
    clearbody x. assert (j = 0 \/ j = 1 \/ j = 2) as [-> |[-> | ->]] by lia;
      change (2 ^ 0) with 1 in *; change (2 ^ 1) with 2 in *; change (2 ^ 2) with 4 in *;
      destruct (Z.leb_spec 98304 (x + k)), (Z.leb_spec 98304 x);
      Z.to_euclidean_division_equations; lia.
  - apply (Hoff 10). lia.
Qed.

(** ** RAM accesses are array accesses *)

Section Ram.
Context {D : Type} (io : IoCallbacks D).

Lemma ram_not_debug address :
  is_ram (region (classify address)) = true -> fits 32 address ->
  address < kMgbaDebugStringStart \/ kNoCashGbaDebugChar < address.
Proof.
  intros Hr H. destruct (ram_window address H Hr) as (bank & Hb & Hne & Hw).
  unfold kMgbaDebugStringStart, kNoCashGbaDebugChar. lia.
Qed.

Lemma write_debug8_ram address v b :
  is_ram (region (classify address)) = true -> fits 32 address ->
  write_debug8 address v b = (false, b).
Proof.
  intros Hr H. pose proof (ram_not_debug address Hr H) as Hd. unfold write_debug8.
  unfold kMgbaDebugStringStart, kMgbaDebugStringEnd, kNoCashGbaDebugChar in *. by zcmp.
Qed.

Lemma write_debug16_ram address v b :
  is_ram (region (classify address)) = true -> fits 32 address ->
  write_debug16 address v b = (false, b).
Proof.
  intros Hr H. pose proof (ram_not_debug address Hr H) as Hd. unfold write_debug16.
  unfold kMgbaDebugStringStart, kMgbaDebugStringEnd, kNoCashGbaDebugChar, kMgbaDebugEnable,
    kMgbaDebugFlags in *. by zcmp.
Qed.

Lemma write_debug32_ram address v s :
  is_ram (region (classify address)) = true -> fits 32 address ->
  write_debug32 io address v s = (false, s).
Proof.
  intros Hr H. pose proof (ram_not_debug address Hr H) as Hd. unfold write_debug32.
  unfold kMgbaDebugStringStart, kMgbaDebugStringEnd, kNoCashGbaDebugChar,
    kNoCashGbaDebugOut in *. by zcmp.
Qed.

Lemma read8_ram address b d :
  fits 32 address -> is_ram (region (classify address)) = true ->
  read8 io address (b, d) =
  Some (byte_at (ram (region (classify address)) b) (offset (classify address))).
Proof.
  intros H Hr. pose proof (ram_not_debug address Hr H) as Hd. unfold read8.
  unfold kMgbaDebugStringStart, kMgbaDebugStringEnd, kNoCashGbaDebugChar,
    kNoCashGbaDebugIdStart in *. change (Z.of_nat (length kNoCashGbaDebugId)) with 7.
  zcmp; try lia; by destruct (region (classify address)).
Qed.

Lemma read16_ram address b d :
  fits 32 address -> address mod 2 = 0 -> is_ram (region (classify address)) = true ->
  read16 io address (b, d) =
  Some (half_at (ram (region (classify address)) b) (offset (classify address))).
Proof.
  intros H Ha Hr. pose proof (ram_not_debug address Hr H) as Hd. unfold read16.
  rewrite Ha. cbn [Z.eqb negb].
  destruct (Z.eqb_spec address kMgbaDebugEnable) as [E|_].
  { unfold kMgbaDebugEnable, kMgbaDebugStringStart, kNoCashGbaDebugChar in *. lia. }
  by destruct (region (classify address)).
Qed.

Lemma align_word_id address : address mod 4 = 0 -> align_word address = address.
Proof.
  intros H. unfold align_word. apply Z.bits_inj'. intros i Hi.
  rewrite Z.land_spec, Z.lnot_spec by lia. change 3 with (Z.ones 2).
  rewrite Z.testbit_ones_nonneg by lia. destruct (Z.ltb_spec i 2); simpl; [|by rewrite andb_true_r].
  rewrite andb_false_r. rewrite <- (Z.mod_pow2_bits_low address 2 i) by lia.
  change (2 ^ 2) with 4. by rewrite H, Z.bits_0.
Qed.

Lemma land_3_mod address : Z.land address 0x3 = address mod 4.
Proof. change 3 with (Z.ones 2). by rewrite Z.land_ones. Qed.

Lemma read32_ram address b d :
  fits 32 address -> address mod 4 = 0 -> is_ram (region (classify address)) = true ->
  read32 io address (b, d) =
  Some (word_at (ram (region (classify address)) b) (offset (classify address))).
Proof.
  intros H Ha Hr. unfold read32, read32_aligned.
  rewrite align_word_id, land_3_mod, Ha by done.
  destruct (region (classify address)); done.
Qed.

(** The stores. *)
Lemma write8_plain_ram address v b d :
  fits 32 address -> region (classify address) = Region.ewram \/
  region (classify address) = Region.iwram ->
  write8 io address v (b, d) =
  (true, (map_ram (region (classify address)) (put_byte (offset (classify address)) v) b, d)).
Proof.
  intros H Hr. unfold write8, on_bus. cbn [fst snd].
  rewrite write_debug8_ram by (done || (by destruct Hr as [-> | ->])).
  assert (Hw : writable (classify address) = true).
  { destruct (classify_lane 0 address 0 H) as (_ & _ & Hw & _);
      [lia|by rewrite Z.mod_1_r|lia|by destruct Hr as [-> | ->]|].
    by rewrite Z.add_0_r in Hw. }
  unfold write_ram8. rewrite Hw. by destruct Hr as [-> | ->].
Qed.

Lemma map_ram_map_ram r f g b : map_ram r f (map_ram r g b) = map_ram r (fun l => f (g l)) b.
Proof. by destruct r. Qed.

(** The stores of the bytes of a halfword and of a word. *)
Definition put_half (off v : Z) (l : list Z) : list Z :=
  put_byte (off + 1) (byte_lane 1 v) (put_byte off (byte_lane 0 v) l).

Definition put_word (off v : Z) (l : list Z) : list Z :=
  put_byte (off + 3) (byte_lane 3 v) (put_byte (off + 2) (byte_lane 2 v) (put_half off v l)).

Lemma ram_writable address :
  fits 32 address -> is_ram (region (classify address)) = true ->
  writable (classify address) = true.
Proof.
  intros H Hr. destruct (classify_lane 0 address 0 H) as (_ & _ & Hw & _);
    [lia|by rewrite Z.mod_1_r|lia|done|].
  by rewrite Z.add_0_r in Hw.
Qed.

Lemma fits_lane j address k :
  fits 32 address -> 0 <= j <= 2 -> address mod 2 ^ j = 0 -> 0 <= k < 2 ^ j ->
  is_ram (region (classify address)) = true -> fits 32 (address + k).
Proof.
  intros H Hj Ha Hk Hr. destruct (classify_lane j address k H Hj Ha Hk Hr) as (E & _).
  rewrite <- E. apply wrap_fits. lia.
Qed.

Lemma write16_bytes_plain address v b d :
  fits 32 address -> address mod 2 = 0 ->
  region (classify address) = Region.ewram \/ region (classify address) = Region.iwram ->
  write16_bytes io address v (b, d) =
  (true, (map_ram (region (classify address)) (put_half (offset (classify address)) v) b, d)).
Proof.
  intros H Ha Hr.
  assert (Hram : is_ram (region (classify address)) = true) by (by destruct Hr as [-> | ->]).
  destruct (classify_lane 1 address 1 H) as (E & E1 & _ & E3); [lia|done|lia|done|].
  pose proof (fits_lane 1 address 1 H ltac:(lia) Ha ltac:(lia) Hram) as H1.
  unfold write16_bytes, and_then. rewrite write8_plain_ram, E by done.
  rewrite write8_plain_ram by (done || by rewrite E1).
  by rewrite E1, E3, map_ram_map_ram.
Qed.

Lemma write16_ram address v b d :
  fits 32 address -> address mod 2 = 0 -> is_ram (region (classify address)) = true ->
  write16 io address v (b, d) =
  (true, (map_ram (region (classify address)) (put_half (offset (classify address)) v) b, d)).
Proof.
  intros H Ha Hr.
  destruct (classify_lane 1 address 1 H) as (E & E1 & E2 & E3); [lia|done|lia|done|].
  pose proof (ram_writable address H Hr) as Hw.
  pose proof (write16_bytes_plain address v b d H Ha) as Hbytes.
  unfold write16, on_bus. cbn [fst snd]. rewrite write_debug16_ram, E, Ha by done.
  destruct (classify address) as [r off w m], (classify (address + 1)) as [r1 off1 w1 m1].
  cbn [region offset writable] in *. subst r1 w1 off1 w.
  destruct r; try discriminate; cbn -[map_ram write16_bytes]; try done.
  - apply Hbytes. by left.
  - apply Hbytes. by right.
Qed.

Lemma write32_bytes_plain address v b d :
  fits 32 address -> address mod 4 = 0 ->
  region (classify address) = Region.ewram \/ region (classify address) = Region.iwram ->
  write32_bytes io address v (b, d) =
  (true, (map_ram (region (classify address)) (put_word (offset (classify address)) v) b, d)).
Proof.
  intros H Ha Hr.
  assert (Hram : is_ram (region (classify address)) = true) by (by destruct Hr as [-> | ->]).
  destruct (classify_lane 2 address 1 H) as (E1 & R1 & _ & O1); [lia|done|lia|done|].
  destruct (classify_lane 2 address 2 H) as (E2 & R2 & _ & O2); [lia|done|lia|done|].
  destruct (classify_lane 2 address 3 H) as (E3 & R3 & _ & O3); [lia|done|lia|done|].
  pose proof (fits_lane 2 address 1 H ltac:(lia) Ha ltac:(lia) Hram) as H1.
  pose proof (fits_lane 2 address 2 H ltac:(lia) Ha ltac:(lia) Hram) as H2.
  pose proof (fits_lane 2 address 3 H ltac:(lia) Ha ltac:(lia) Hram) as H3.
  unfold write32_bytes, and_then. rewrite write8_plain_ram, E1, E2, E3 by done.
  rewrite write8_plain_ram by (done || by rewrite R1).
  rewrite write8_plain_ram by (done || by rewrite R2).
  rewrite write8_plain_ram by (done || by rewrite R3).
  by rewrite R1, R2, R3, O1, O2, O3, !map_ram_map_ram.
Qed.

Lemma write32_ram address v b d :
  fits 32 address -> address mod 4 = 0 -> is_ram (region (classify address)) = true ->
  write32 io address v (b, d) =
  (true, (map_ram (region (classify address)) (put_word (offset (classify address)) v) b, d)).
Proof.
  intros H Ha Hr.
  destruct (classify_lane 2 address 1 H) as (E1 & R1 & W1 & O1); [lia|done|lia|done|].
  destruct (classify_lane 2 address 2 H) as (E2 & R2 & W2 & O2); [lia|done|lia|done|].
  destruct (classify_lane 2 address 3 H) as (E3 & R3 & W3 & O3); [lia|done|lia|done|].
  pose proof (ram_writable address H Hr) as Hw.
  pose proof (write32_bytes_plain address v b d H Ha) as Hbytes.
  unfold write32, on_bus. rewrite write_debug32_ram, E1, E2, E3, Ha by done.
  destruct (classify address) as [r off w m], (classify (address + 1)) as [r1 off1 w1 m1],
    (classify (address + 2)) as [r2 off2 w2 m2], (classify (address + 3)) as [r3 off3 w3 m3].
  cbn [region offset writable] in *. subst.
  destruct r; try discriminate; cbn -[map_ram write32_bytes]; try done.
  - apply Hbytes. by left.
  - apply Hbytes. by right.
Qed.
End Ram.

(** *** Round trips *)

Lemma half_at_put_half off v l :
  0 <= off -> off + 1 < Z.of_nat (length l) -> fits 16 v -> half_at (put_half off v l) off = v.
Proof.
  intros H0 H1 Hv. unfold half_at, put_half.
  rewrite !byte_at_put by (autorewrite with bytes; lia).
  repeat case_decide; try lia. by apply le16_lanes.
Qed.

Lemma half_at_put_half_ne off off' v l :
  0 <= off -> off + 1 < Z.of_nat (length l) -> 0 <= off' -> off mod 2 = 0 -> off' mod 2 = 0 ->
  off' <> off -> half_at (put_half off v l) off' = half_at l off'.
Proof.
  intros H0 H1 H0' Hm Hm' Hne. unfold half_at, put_half.
  rewrite !byte_at_put by (autorewrite with bytes; lia).
  rewrite !decide_False by (Z.to_euclidean_division_equations; lia). done.
Qed.

Lemma word_at_put_word off v l :
  0 <= off -> off + 3 < Z.of_nat (length l) -> fits 32 v -> word_at (put_word off v l) off = v.
Proof.
  intros H0 H1 Hv. unfold word_at, put_word, put_half.
  rewrite !byte_at_put by (autorewrite with bytes; lia).
  repeat case_decide; try lia. by apply le32_lanes.
Qed.

(** *** The frame of a store *)

Lemma is_ram_bank address :
  fits 32 address ->
  is_ram (region (classify address)) = existsb (Z.eqb (Z.shiftr address 24)) [2; 3; 5; 6; 7].
Proof.
  intros H. destruct (bank_cases address H) as [Hb|Hb].
  - unfold classify. remember (Z.shiftr address 24) as k. vm_compute in Hb.
    repeat (destruct Hb as [<-|Hb]); try done.
    cbn -[Z.land]. by case_match.
  - rewrite classify_unmapped by done. clear H. generalize dependent (Z.shiftr address 24).
    intros k Hk. cbn [existsb is_ram region]. by zcmp.
Qed.

Lemma even_succ_bank address :
  fits 32 address -> address mod 2 = 0 ->
  u32 (address + 1) = address + 1 /\ fits 32 (address + 1) /\
  Z.shiftr (address + 1) 24 = Z.shiftr address 24.
Proof.
  intros H Ha. assert (Hf : fits 32 (address + 1)).
  { unfold fits in *. Z.to_euclidean_division_equations. lia. }
  split; [by apply wrap_id|]. split; [done|]. rewrite !Z.shiftr_div_pow2 by lia.
  change (2 ^ 24) with 16777216. Z.to_euclidean_division_equations. lia.
Qed.

Section Frame.
Context {D : Type} (io : IoCallbacks D).

Lemma read8_map_ram_other other r f b d :
  is_ram (region (classify other)) = false ->
  read8 io other (map_ram r f b, d) = read8 io other (b, d).
Proof. intros Hr. unfold read8. destruct r, (region (classify other)); done. Qed.

Lemma read16_map_ram_other other r f b d :
  fits 32 other -> other mod 2 = 0 -> is_ram (region (classify other)) = false ->
  read16 io other (map_ram r f b, d) = read16 io other (b, d).
Proof.
  intros H Ha Hr.
  assert (Hb : read16_bytes io other (map_ram r f b, d) = read16_bytes io other (b, d)).
  { destruct (even_succ_bank other H Ha) as (E & Hf & Hs). unfold read16_bytes. rewrite E.
    rewrite !read8_map_ram_other; [done| |done].
    by rewrite is_ram_bank, Hs, <- is_ram_bank. }
  unfold read16. rewrite Hb. destruct r, (region (classify other)); done.
Qed.

(** The cell of memory behind an address: its region and offset. *)
Definition cell (address : Z) : Region.t * Z :=
  (region (classify address), offset (classify address)).

Lemma offset_mod j address :
  fits 32 address -> 0 <= j <= 2 -> address mod 2 ^ j = 0 ->
  is_ram (region (classify address)) = true -> offset (classify address) mod 2 ^ j = 0.
Proof.
  intros H Hj Ha Hr. destruct (ram_window address H Hr) as (bank & Hbank & Hne & Hw).
  apply bank_window in Hw.
  assert (Hoff : forall n, j <= n <= 24 ->
    Z.land (Z.land address 0x00FFFFFF) (2 ^ n - 1) mod 2 ^ j = 0).
  { intros n Hn. change 0x00FFFFFF with (2 ^ 24 - 1). by rewrite !land_mask, !mod_mod_pow by lia. }
  unfold classify. rewrite Hw.
  assert (bank = 2 \/ bank = 3 \/ bank = 5 \/ bank = 6 \/ bank = 7) as
    [-> | [-> | [-> | [-> | ->]]]] by lia; cbn [offset].
  - apply (Hoff 18). lia.
  - apply (Hoff 15). lia.
  - apply (Hoff 10). lia.
  - change 0x1FFFF with (2 ^ 17 - 1). specialize (Hoff 17 ltac:(lia)).
    case_match; [|done]. generalize dependent (Z.land (Z.land address 16777215) (2 ^ 17 - 1)).
    intros x Hx _. assert (j = 0 \/ j = 1 \/ j = 2) as [-> |[-> | ->]] by lia;
      change (2 ^ 0) with 1 in *; change (2 ^ 1) with 2 in *; change (2 ^ 2) with 4 in *;
      Z.to_euclidean_division_equations; lia.
  - apply (Hoff 10). lia.
Qed.

Lemma region_size_mod r : is_ram r = true -> region_size r mod 4 = 0.
Proof. by destruct r. Qed.

(** An aligned access stays inside its array. *)
Lemma lane_in_array j k address b :
  sized b -> fits 32 address -> 0 <= j <= 2 -> address mod 2 ^ j = 0 -> 0 <= k < 2 ^ j ->
  is_ram (region (classify address)) = true ->
  0 <= offset (classify address) /\
  offset (classify address) + k < Z.of_nat (length (ram (region (classify address)) b)).
Proof.
  intros Hs H Hj Ha Hk Hr. destruct (classify_lane j address k H Hj Ha Hk Hr) as (_ & E1 & _ & E3).
  pose proof (classify_in_bounds_aux (address + k) (fits_lane j address k H Hj Ha Hk Hr)) as Hb.
  pose proof (classify_in_bounds_aux address H) as Hb0. rewrite E1, E3 in Hb. rewrite Hs by done. lia.
Qed.

(** C25: an aligned halfword store to work RAM, palette, VRAM or OAM is
    accepted and touches one memory cell: a halfword read of any address
    mirrored onto that cell returns the stored value, and every other even
    address of the machine reads as before. *)
Theorem ram_store_load (address value : Z) (b : MemoryBus) (d : D) :
  sized b -> fits 32 address -> address mod 2 = 0 -> fits 16 value ->
  is_ram (region (classify address)) = true ->
  exists b', write16 io address value (b, d) = (true, (b', d)) /\ sized b' /\
    forall other, fits 32 other -> other mod 2 = 0 ->
      read16 io other (b', d) =
      if decide (cell other = cell address) then Some value else read16 io other (b, d).
Proof.
  intros Hs H Ha Hv Hr. rewrite write16_ram by done. eexists. split; [done|].
  set (r := region (classify address)) in *. set (off := offset (classify address)).
  destruct (lane_in_array 1 1 address b Hs H) as [H0 H1]; [lia|done|lia|done|]. fold r off in H0, H1.
  pose proof (offset_mod 1 address H ltac:(lia) Ha Hr) as Hm. fold off in Hm.
  split.
  { intros r' Hr'. rewrite ram_map_ram by done. case_decide as E; [|by apply Hs].
    rewrite <- E. unfold put_half. rewrite !length_put_byte. by apply Hs. }
  intros other Ho Hoa. destruct (is_ram (region (classify other))) eqn:Hor; cycle 1.
  { rewrite read16_map_ram_other by done. rewrite decide_False; [done|].
    intros E%(f_equal fst). unfold cell in E. cbn [fst] in E. fold r in E. congruence. }
  rewrite (read16_ram io other b d Ho Hoa Hor).
  rewrite (read16_ram io other _ d Ho Hoa Hor), (ram_map_ram r _ _ _ Hr).
  destruct (lane_in_array 1 0 other b Hs Ho) as [Ho0 _]; [lia|done|lia|done|].
  pose proof (offset_mod 1 other Ho ltac:(lia) Hoa Hor) as Hom.
  unfold cell. fold r off.
  generalize dependent (offset (classify other)). generalize dependent (region (classify other)).
  intros ro Hor ofo Ho0 Hom. destruct (decide (r = ro)) as [<-|Hne].
  - destruct (decide (ofo = off)) as [->|Hno].
    + rewrite decide_True by done. by rewrite half_at_put_half.
    + rewrite decide_False by congruence. by rewrite half_at_put_half_ne.
  - rewrite decide_False by congruence. done.
Qed.

(** An aligned word store to the same memories is accepted, and a word
    read of the address returns the stored word. *)
Theorem ram_word_store_load (address value : Z) (b : MemoryBus) (d : D) :
  sized b -> fits 32 address -> address mod 4 = 0 -> fits 32 value ->
  is_ram (region (classify address)) = true ->
  exists b', write32 io address value (b, d) = (true, (b', d)) /\
    read32 io address (b', d) = Some value.
Proof.
  intros Hs H Ha Hv Hr. rewrite write32_ram by done. eexists. split; [done|].
  rewrite read32_ram, ram_map_ram, decide_True by done.
  destruct (lane_in_array 2 3 address b Hs H) as [H0 H1]; [lia|done|lia|done|].
  by rewrite word_at_put_word.
Qed.
End Frame.

Lemma length_zeros n : 0 <= n -> Z.of_nat (length (replicate (Z.to_nat n) 0)) = n.
Proof. intros Hn. by rewrite length_replicate, Z2Nat.id. Qed.

Lemma initial_sized : sized initial.
Proof.
  intros [] Hr; try discriminate Hr; cbn [ram initial ewram_ iwram_ palette_ vram_ oam_];
    apply length_zeros, Z.leb_le, eq_refl.
Qed.

(** No devices behind the bus. *)
Definition no_io : IoCallbacks () := mkIoCallbacks None None None None.

Lemma ram_store_load_witness :
  exists b', write16 no_io 0x0200FFFE 0xBEEF (initial, tt) = (true, (b', tt)) /\ sized b' /\
    forall other, fits 32 other -> other mod 2 = 0 ->
      read16 no_io other (b', tt) =
      if decide (cell other = cell 0x0200FFFE) then Some 0xBEEF
      else read16 no_io other (initial, tt).
Proof.
  apply (ram_store_load no_io 0x0200FFFE 0xBEEF initial tt initial_sized).
  - by apply (bool_decide_unpack _).
  - reflexivity.
  - by apply (bool_decide_unpack _).
  - reflexivity.
Defined.

Lemma ram_word_store_load_witness :
  exists b', write32 no_io 0x07000010 0xDEADBEEF (initial, tt) = (true, (b', tt)) /\
    read32 no_io 0x07000010 (b', tt) = Some 0xDEADBEEF.
Proof.
  apply (ram_word_store_load no_io 0x07000010 0xDEADBEEF initial tt initial_sized).
  - by apply (bool_decide_unpack _).
  - reflexivity.
  - by apply (bool_decide_unpack _).
  - reflexivity.
Defined.
