(* ===== verification/BusSafety.v ===== *)
(** * Safety of the memory bus

    The invariant [wf] of the bus (array sizes, bytes in range, a save backing
    of the size of its type, a valid Flash bank), its preservation by every
    operation, the Flash protocol, the EEPROM blocks and the snapshots. *)

From stdpp Require Import relations.
From S2P Require Import Prelude StateHash BusTypes MemoryBus MemoryBusSpec.

(** ** The invariant *)

Definition bank_ok (type : GamePakSaveType.t) (bank : Z) : Prop :=
  bank = 0 \/ (bank = 1 /\ type = GamePakSaveType.flash128k).

Record wf (b : MemoryBus) : Prop := mk_wf {
  wf_sized : sized b;
  wf_ram : forall r, bytes_ok (ram r b);
  wf_debug : length (mgba_debug_string_ b) = 256%nat;
  wf_save_size : Z.of_nat (length (game_pak_save_ b)) = save_size_for_type (game_pak_save_type_ b);
  wf_save : bytes_ok (game_pak_save_ b);
  wf_bank : bank_ok (game_pak_save_type_ b) (flash_bank_ b);
  wf_rom : Z.of_nat (length (game_pak_rom_ b)) <= kGamePakRomWindowSize;
  wf_typed : bytes_ok (game_pak_rom_ b) /\ bytes_ok (mgba_debug_string_ b) /\
             fits 32 (open_bus_latch_ b)
}.

(** Updates that keep each part. *)
Lemma wf_map_ram r f b :
  (forall l, length (f l) = length l) -> (forall l, bytes_ok l -> bytes_ok (f l)) ->
  wf b -> wf (map_ram r f b).
Proof.
  intros Hlen Hok [Hs Hr Hd Hz Hv Hb Hrom Ht]. destruct (is_ram r) eqn:Er.
  - constructor; try (by destruct r).
    + intros r' Hr'. rewrite ram_map_ram by done. case_decide as E; [|by apply Hs].
      rewrite Hlen, E. by apply Hs.
    + intros r'. rewrite ram_map_ram by done. case_decide; [|done]. apply Hok, Hr.
  - by destruct r.
Qed.

Lemma wf_map_save f b :
  (forall l, length (f l) = length l) -> (forall l, bytes_ok l -> bytes_ok (f l)) ->
  wf b -> wf (b <| game_pak_save_ ::= f |>).
Proof.
  intros Hlen Hok [Hs Hr Hd Hz Hv Hb Hrom Ht]. constructor; try done.
  - cbn. by rewrite Hlen.
  - by apply Hok.
Qed.

Lemma wf_map_debug f b :
  (forall l, length (f l) = length l) -> (forall l, bytes_ok l -> bytes_ok (f l)) ->
  wf b -> wf (b <| mgba_debug_string_ ::= f |>).
Proof.
  intros Hlen Hok [Hs Hr Hd Hz Hv Hb Hrom (Ht1 & Ht2 & Ht3)]. constructor; try done.
  - cbn. by rewrite Hlen.
  - split_and!; [done|by apply Hok|done].
Qed.

Lemma wf_push_debug l b : wf b -> wf (push_debug l b).
Proof. by intros [Hs Hr Hd Hz Hv Hb Hrom Ht]. Qed.

Lemma wf_flash s b : wf b -> wf (b <| flash_command_state_ := s |>).
Proof. by intros [Hs Hr Hd Hz Hv Hb Hrom Ht]. Qed.

Lemma wf_id_mode m b : wf b -> wf (b <| flash_id_mode_ := m |>).
Proof. by intros [Hs Hr Hd Hz Hv Hb Hrom Ht]. Qed.

Lemma wf_set_bank bank b :
  bank_ok (game_pak_save_type_ b) bank -> wf b -> wf (b <| flash_bank_ := bank |>).
Proof. by intros Hbank [Hs Hr Hd Hz Hv Hb Hrom Ht]. Qed.

Lemma wf_latch v ok b :
  fits 32 v -> wf b -> wf (b <| open_bus_latch_ := v |> <| open_bus_latch_valid_ := ok |>).
Proof.
  intros Hfit [Hs Hr Hd Hz Hv Hb Hrom (Ht1 & Ht2 & Ht3)]. by constructor.
Qed.

Lemma wf_clear_latch b : wf b -> wf (clear_open_bus_latch b).
Proof. by intros [Hs Hr Hd Hz Hv Hb Hrom Ht]. Qed.

Lemma wf_set_rom rom b :
  Z.of_nat (length rom) <= kGamePakRomWindowSize -> bytes_ok rom -> wf b ->
  wf (b <| game_pak_rom_ := rom |>).
Proof.
  intros Hrom' Hok [Hs Hr Hd Hz Hv Hb Hrom (Ht1 & Ht2 & Ht3)]. by constructor.
Qed.

(** A fresh save backing. *)
Lemma wf_set_save type l b :
  Z.of_nat (length l) = save_size_for_type type -> bytes_ok l -> wf b ->
  wf (b <| game_pak_save_type_ := type |> <| game_pak_save_ := l |> <| flash_bank_ := 0 |>).
Proof. intros Hl Hok [Hs Hr Hd Hz Hv Hb Hrom Ht]. constructor; try done. by left. Qed.

Create HintDb bus.
#[export] Hint Resolve wf_flash wf_id_mode wf_push_debug wf_latch wf_clear_latch : bus.

Lemma fill_sector_ok start count l : bytes_ok l -> bytes_ok (fill_sector start count l).
Proof.
  intros Hl. unfold fill_sector. apply Forall_app. split; [by apply Forall_take|].
  apply Forall_app. split; [|by apply Forall_drop]. apply Forall_replicate. by vm_compute.
Qed.

Lemma length_fill_sector start count l :
  0 <= start -> 0 <= count -> start + count <= Z.of_nat (length l) ->
  length (fill_sector start count l) = length l.
Proof.
  intros Hs Hc Hl. unfold fill_sector.
  rewrite !length_app, length_take, length_replicate, length_drop. lia.
Qed.

(** ** The save backing *)

Lemma has_save_size b :
  wf b -> has_game_pak_save b = negb (bool_decide (game_pak_save_type_ b = GamePakSaveType.none)).
Proof.
  intros H. unfold has_game_pak_save. pose proof (wf_save_size b H) as Hz.
  destruct (decide (game_pak_save_type_ b = GamePakSaveType.none)) as [E|E].
  { by rewrite bool_decide_eq_true_2. }
  rewrite (bool_decide_eq_false_2 (_ = GamePakSaveType.none)) by done.
  rewrite bool_decide_eq_false_2; [done|]. intros E'. rewrite E' in Hz.
  by destruct (game_pak_save_type_ b).
Qed.

Lemma save_window_mod o : 0 <= o mod kFlashBankSize < kFlashBankSize.
Proof. by apply Z.mod_pos_bound. Qed.

(** The effective offset of an aperture access is a byte of the backing. *)
Lemma flash_offset_bounds b o :
  wf b -> is_flash_save b = true ->
  0 <= flash_effective_offset o b < Z.of_nat (length (game_pak_save_ b)).
Proof.
  intros H Hf. rewrite (wf_save_size b H). pose proof (save_window_mod o) as Ho.
  pose proof (wf_bank b H) as Hb. unfold flash_effective_offset, is_flash_save in *.
  revert Ho. generalize (o mod kFlashBankSize). intros x Hx.
  change (0 <= x < 65536) in Hx. change kFlashBankSize with 65536.
  destruct (game_pak_save_type_ b); try done; cbn [save_size_for_type].
  change kFlash128kSize with 131072. destruct Hb as [-> | [-> _]]; lia.
Qed.

(** What a write of the command protocol does to the backing. *)
Definition flash_effect (o v : Z) (b : MemoryBus) (i : Z) : Z :=
  let old := byte_at (game_pak_save_ b) i in
  match flash_command_state_ b with
  | FlashCommandState.program_data =>
      if i =? flash_effective_offset o b then Z.land old v else old
  | FlashCommandState.erase_command =>
      if (o mod kFlashBankSize =? kFlashUnlockAddress1) && (v =? 0x10) then 0xFF
      else if (v =? 0x30) && (i / kFlashSectorSize =? flash_effective_offset o b / kFlashSectorSize)
      then 0xFF
      else old
  | _ => old
  end.

Lemma byte_at_replicate n v i : 0 <= i < Z.of_nat n -> byte_at (replicate n v) i = v.
Proof. intros Hi. unfold byte_at. by rewrite lookup_replicate_2 by lia. Qed.

Lemma byte_at_fill_sector start count l i :
  0 <= start -> 0 <= count -> start + count <= Z.of_nat (length l) -> 0 <= i ->
  byte_at (fill_sector start count l) i =
  if decide (start <= i < start + count) then 0xFF else byte_at l i.
Proof.
  intros Hs Hc Hl Hi. unfold byte_at, fill_sector.
  destruct (decide (start <= i < start + count)) as [Hin|Hout].
  - rewrite lookup_app_r by (rewrite length_take; lia).
    rewrite lookup_app_l by (rewrite length_take, length_replicate; lia).
    rewrite lookup_replicate_2; [done|]. rewrite length_take. lia.
  - destruct (decide (i < start)) as [Hlt|Hge].
    + rewrite lookup_app_l by (rewrite length_take; lia). by rewrite lookup_take_lt by lia.
    + rewrite lookup_app_r by (rewrite length_take; lia).
      rewrite lookup_app_r by (rewrite length_take, length_replicate; lia).
      rewrite lookup_drop, length_take, length_replicate. do 2 f_equal. lia.
Qed.

(** A sector lies in the backing. *)
Lemma sector_bounds o b :
  wf b -> is_flash_save b = true ->
  let start := flash_effective_offset o b / kFlashSectorSize * kFlashSectorSize in
  0 <= start /\ start + kFlashSectorSize <= Z.of_nat (length (game_pak_save_ b)).
Proof.
  intros H Hf start. pose proof (flash_offset_bounds b o H Hf) as Ho.
  assert (Hlen : Z.of_nat (length (game_pak_save_ b)) mod kFlashSectorSize = 0).
  { rewrite (wf_save_size b H). unfold is_flash_save in Hf. by destruct (game_pak_save_type_ b). }
  subst start. unfold kFlashSectorSize in *. change (4 * 1024) with 4096 in *.
  Z.to_euclidean_division_equations. lia.
Qed.

Lemma land_byte old v : fits 8 old -> u8 (Z.land old v) = Z.land old v.
Proof. intros H. apply wrap_id. by apply fits_land_l. Qed.

Lemma flash_write_effect_aux (o v : Z) (b : MemoryBus) :
  wf b -> is_flash_save b = true ->
  let b' := (write_flash_byte o v b).2 in
  length (game_pak_save_ b') = length (game_pak_save_ b) /\
  forall i, 0 <= i < Z.of_nat (length (game_pak_save_ b)) ->
    byte_at (game_pak_save_ b') i = flash_effect o v b i.
Proof.
  intros H Hf. unfold write_flash_byte. rewrite has_save_size, Hf by done.
  rewrite bool_decide_eq_false_2
    by (intros E; unfold is_flash_save in Hf; by rewrite E in Hf). cbn [negb orb].
  unfold flash_effect. destruct (sector_bounds o b H Hf) as [Hs0 Hs1].
  pose proof (flash_offset_bounds b o H Hf) as Ho.
  destruct (flash_command_state_ b) eqn:Es;
    rewrite ?(bool_decide_eq_true_2 (FlashCommandState.idle = _)) by done;
    rewrite ?(bool_decide_eq_false_2 (_ = FlashCommandState.idle)) by done; cbn [andb].
  4: { cbn. rewrite length_put_byte. split; [done|]. intros i Hi.
    rewrite byte_at_put by lia. rewrite land_byte by (apply byte_at_ok, (wf_save b H)).
    destruct (Z.eqb_spec i (flash_effective_offset o b)) as [->|Hne]; by case_decide. }
  6: { destruct (_ && _); [|destruct (v =? 0x30)]; cbn -[Z.div Z.mul].
    - rewrite length_replicate. split; [done|]. intros i Hi. by apply byte_at_replicate.
    - rewrite length_fill_sector by done. split; [done|]. intros i Hi.
      rewrite byte_at_fill_sector by (done || lia).
      unfold kFlashSectorSize in *. change (4 * 1024) with 4096 in *.
      generalize dependent (flash_effective_offset o b). intros eff Hs0 Hs1 Ho.
      case_decide as Hd; zcmp; try done; exfalso; Z.to_euclidean_division_equations; lia.
    - done. }
  all: repeat case_match; done.
Qed.

(** ** Every store keeps the invariant *)

Lemma wf_reset_flash b : wf b -> wf (reset_flash_protocol b).
Proof. intros H. unfold reset_flash_protocol. auto with bus. Qed.

Lemma wf_flash_goto s b : wf b -> wf (flash_goto s b).2.
Proof. apply wf_flash. Qed.

Lemma wf_flash_abort b : wf b -> wf (flash_abort b).2.
Proof. apply wf_reset_flash. Qed.
#[export] Hint Resolve wf_reset_flash wf_flash_goto wf_flash_abort : bus.

Lemma wf_bank_select v b :
  wf b ->
  wf (b <| flash_bank_ := match game_pak_save_type_ b with
                          | GamePakSaveType.flash128k => u8 (Z.land v 0x01)
                          | _ => 0
                          end |>).
Proof.
  intros H. apply wf_set_bank; [|done]. unfold bank_ok.
  assert (u8 (Z.land v 1) = 0 \/ u8 (Z.land v 1) = 1) as Hv.
  { rewrite wrap_id by (apply (fits_land_r 8); [lia|by vm_compute]).
    pose proof (Z.land_ones v 1 ltac:(lia)) as E. change (Z.ones 1) with 1 in E.
    rewrite E. pose proof (Z.mod_pos_bound v 2).
    change (2 ^ 1) with 2. lia. }
  destruct (game_pak_save_type_ b); tauto.
Qed.

Lemma wf_write_flash o v b : wf b -> wf (write_flash_byte o v b).2.
Proof.
  intros H. destruct (is_flash_save b) eqn:Hf; cycle 1.
  { unfold write_flash_byte. by rewrite Hf, orb_true_r. }
  destruct (sector_bounds o b H Hf) as [Hs0 Hs1]. unfold write_flash_byte.
  destruct (_ || _); [done|]. destruct (_ && _); [by apply wf_reset_flash|].
  pose proof (wf_bank_select v b H) as Hbank.
  destruct (flash_command_state_ b);
    repeat (destruct (_ && _) || destruct (_ =? _); cbn [negb]); cbn [snd]; auto with bus.
  - apply wf_flash_goto, wf_map_save; [..|done]; intros l.
    + apply length_put_byte.
    + intros Hl. apply put_byte_ok; [|done]. apply wrap_fits. lia.
  - apply wf_flash_goto, wf_map_save; [..|done]; intros l.
    + by rewrite length_replicate.
    + intros _. apply Forall_replicate. by vm_compute.
  - apply wf_flash_goto. destruct H as [Hs Hr Hd Hz Hv Hb Hrom Ht]. constructor; try done.
    + cbn -[Z.div Z.mul]. by rewrite length_fill_sector.
    + by apply fill_sector_ok.
Qed.

Lemma wf_write_save o v b : fits 8 v -> wf b -> wf (write_game_pak_save_byte o v b).2.
Proof.
  intros Hv H. unfold write_game_pak_save_byte. destruct (negb _); [done|].
  destruct (is_flash_save b); [by apply wf_write_flash|].
  apply wf_map_save; [..|done]; intros l.
  - apply length_put_byte.
  - by apply put_byte_ok.
Qed.

Lemma wf_write_debug8 a v b : fits 8 v -> wf b -> wf (write_debug8 a v b).2.
Proof.
  intros Hv H. unfold write_debug8. repeat case_match; cbn [snd]; auto with bus.
  apply wf_map_debug; [intros l; apply length_put_byte| |done].
  intros l Hl. by apply put_byte_ok.
Qed.

Lemma wf_flush flags b : wf b -> wf (flush_mgba_debug_string flags b).
Proof. intros H. unfold flush_mgba_debug_string. repeat case_match; auto with bus. Qed.

Lemma wf_write_debug16 a v b : wf b -> wf (write_debug16 a v b).2.
Proof.
  intros H. unfold write_debug16.
  destruct (_ =? _); [done|]. destruct (_ =? _); [by apply wf_flush|].
  destruct (_ && _).
  - pose proof (wf_write_debug8 a (byte_lane 0 v) b (byte_lane_fits 0 v) H) as H1.
    destruct (write_debug8 _ _ b) as [[] b1]; [|done].
    apply wf_write_debug8; [apply byte_lane_fits|done].
  - destruct (_ =? _); cbn [snd]; auto with bus.
Qed.

(** [keeps] is closed under the combinators of the stores. *)
Section Keeps.
Context {D : Type} (io : IoCallbacks D).

Definition keeps (op : @bus_op D) : Prop := forall s, wf s.1 -> wf (op s).2.1.

Lemma keeps_and_then first second : keeps first -> keeps second -> keeps (and_then first second).
Proof.
  intros H1 H2 s Hs. unfold and_then. specialize (H1 s Hs).
  destruct (first s) as [[] s']; [by apply H2|done].
Qed.

Lemma keeps_on_bus f : (forall b, wf b -> wf (f b).2) -> keeps (on_bus f).
Proof. intros H s Hs. unfold on_bus. specialize (H s.1 Hs). by destruct (f s.1). Qed.

Lemma keeps_put f : (forall b, wf b -> wf (f b)) -> keeps (put f).
Proof. intros H s Hs. by apply H. Qed.

Lemma keeps_ram r f :
  (forall l, length (f l) = length l) -> (forall l, bytes_ok l -> bytes_ok (f l)) ->
  keeps (put (map_ram r f)).
Proof. intros Hlen Hok. apply keeps_put. intros b. by apply wf_map_ram. Qed.

Lemma length_put_both off v l : length (put_both off v l) = length l.
Proof. unfold put_both. by rewrite !length_put_byte. Qed.

Lemma put_both_ok off v l : fits 8 v -> bytes_ok l -> bytes_ok (put_both off v l).
Proof. intros Hv Hl. unfold put_both. auto with bytes. Qed.

Lemma length_put_lanes n infos v l : length (put_lanes n infos v l) = length l.
Proof.
  revert n l. induction infos as [|i infos IH]; intros n l; simpl; [done|].
  by rewrite IH, length_put_byte.
Qed.

Lemma put_lanes_ok n infos v l : bytes_ok l -> bytes_ok (put_lanes n infos v l).
Proof.
  revert n l. induction infos as [|i infos IH]; intros n l Hl; simpl; [done|].
  apply IH. auto with bytes.
Qed.

Lemma keeps_write_ram8 info v : fits 8 v -> keeps (write_ram8 info v).
Proof.
  intros Hv s Hs. unfold write_ram8. destruct (negb _); [done|].
  assert (Hp : forall r, keeps (put (map_ram r (put_byte (offset info) v)))).
  { intros r. apply keeps_ram; intros l; [apply length_put_byte|by apply put_byte_ok]. }
  assert (Hb : forall r, keeps (put (map_ram r (put_both (offset info) v)))).
  { intros r. apply keeps_ram; intros l; [apply length_put_both|by apply put_both_ok]. }
  destruct (region info); try done.
  - by apply (Hp Region.ewram).
  - by apply (Hp Region.iwram).
  - by apply (Hb Region.palette).
  - destruct (_ <=? _); [done|]. by apply (Hb Region.vram).
Qed.

Lemma keeps_write8 a v : fits 8 v -> keeps (write8 io a v).
Proof.
  intros Hv s Hs. unfold write8.
  pose proof (keeps_on_bus _ (fun b => wf_write_debug8 a v b Hv) s Hs) as Hd.
  destruct (on_bus _ s) as [[] s1]; [done|]. cbn [snd] in Hd.
  assert (Hr : wf (write_ram8 (classify a) v s1).2.1) by (by apply keeps_write_ram8).
  destruct (region (classify a)), (cb_write16 io) eqn:Ew; try done.
  all: try (by apply (keeps_on_bus _ (fun b => wf_write_save (offset (classify a)) v b Hv))).
  unfold write_io8. by destruct (_ : bool * D).
Qed.

Lemma keeps_write16_bytes a v : keeps (write16_bytes io a v).
Proof. apply keeps_and_then; apply keeps_write8, byte_lane_fits. Qed.

Lemma keeps_write32_bytes a v : keeps (write32_bytes io a v).
Proof. repeat apply keeps_and_then; apply keeps_write8, byte_lane_fits. Qed.

Lemma keeps_write_ram infos v fallback : keeps fallback -> keeps (write_ram infos v fallback).
Proof.
  intros Hf s Hs. unfold write_ram. destruct (negb _); [done|].
  assert (Hp : forall r, keeps (put (map_ram r (put_lanes 0 infos v)))).
  { intros r. apply keeps_ram; intros l; [apply length_put_lanes|apply put_lanes_ok]. }
  destruct (all_in Region.palette _); [by apply (Hp Region.palette)|].
  destruct (all_in Region.vram _); [by apply (Hp Region.vram)|].
  destruct (all_in Region.oam _); [by apply (Hp Region.oam)|]. by apply Hf.
Qed.

Lemma keeps_write_debug32 a v : keeps (write_debug32 io a v).
Proof.
  intros s Hs. unfold write_debug32. destruct (_ && _).
  - revert s Hs. repeat apply keeps_and_then; apply keeps_on_bus; intros b;
      apply wf_write_debug8, byte_lane_fits.
  - repeat case_match; try done; apply keeps_put; auto with bus.
Qed.

Lemma keeps_save_lane o v : keeps (on_bus (write_game_pak_save_byte o (byte_lane 0 v))).
Proof. apply keeps_on_bus. intros b. apply wf_write_save, byte_lane_fits. Qed.

Lemma keeps_write16 a v : keeps (write16 io a v).
Proof.
  intros s Hs. unfold write16.
  pose proof (keeps_on_bus _ (fun b => wf_write_debug16 a v b) s Hs) as Hd.
  pose proof (keeps_save_lane (offset (classify a)) v s Hs) as Hsv.
  destruct (on_bus (write_debug16 a v) s) as [[] s1]; cbn [snd] in Hd.
  { by destruct (region (classify a)). }
  pose proof (keeps_write16_bytes a v s1 Hd) as Hb.
  pose proof (keeps_write_ram [classify a; classify (u32 (a + 1))] v _
    (keeps_write16_bytes a v) s1 Hd) as Hr.
  destruct (negb (a mod 2 =? 0)), (region (classify a)), (cb_write16 io); try done.
  all: unfold write_io16; by destruct (_ : bool * D).
Qed.

Lemma keeps_write32 a v : keeps (write32 io a v).
Proof.
  intros s Hs. unfold write32.
  pose proof (keeps_write_debug32 a v s Hs) as Hd.
  pose proof (keeps_save_lane (offset (classify a)) v s Hs) as Hsv.
  destruct (write_debug32 io a v s) as [[] s1]; cbn [snd] in Hd.
  { by destruct (region (classify a)). }
  pose proof (keeps_write32_bytes a v s1 Hd) as Hb.
  pose proof (keeps_write_ram [classify a; classify (u32 (a + 1)); classify (u32 (a + 2));
    classify (u32 (a + 3))] v _ (keeps_write32_bytes a v) s1 Hd) as Hr.
  destruct (negb (a mod 4 =? 0)), (region (classify a)), (cb_write32 io); try done.
  all: unfold write_io32; by destruct (_ : bool * D).
Qed.
End Keeps.

(** ** The other operations *)

Lemma wf_fill_ram r b : wf b -> wf (map_ram r fill_zero b).
Proof.
  intros H. apply wf_map_ram; [..|done]; intros l; [apply length_fill_zero|auto with bytes].
Qed.

Lemma wf_soft_reset b : wf b -> wf (soft_reset b).
Proof.
  intros H. unfold soft_reset. apply wf_reset_flash. unfold clear_debug_output.
  apply wf_map_debug; [apply length_fill_zero|intros l _; apply fill_zero_ok|].
  pose proof (wf_fill_ram Region.oam _ (wf_fill_ram Region.vram _ (wf_fill_ram Region.palette _
    (wf_fill_ram Region.iwram _ (wf_fill_ram Region.ewram _ H))))) as Hf.
  by apply (wf_latch 0 false) in Hf as [Hs Hr Hd Hz Hv Hb Hrom Ht]; [|by vm_compute].
Qed.

Lemma wf_clear_save b : wf b -> wf (clear_game_pak_save b).
Proof.
  intros H. apply wf_reset_flash.
  apply (wf_set_save GamePakSaveType.none [] b) in H; [|done|by constructor].
  by destruct H as [Hs Hr Hd Hz Hv Hb Hrom Ht].
Qed.

Lemma wf_clear_rom b : wf b -> wf (clear_game_pak_rom b).
Proof. intros H. by apply wf_set_rom; [|constructor|]. Qed.

Lemma wf_register_ram_reset flags b : wf b -> wf (register_ram_reset flags b).
Proof.
  intros H. unfold register_ram_reset.
  assert (H1 : wf (if has flags 1 then b <| ewram_ ::= fill_zero |> else b)).
  { case_match; [by apply (wf_fill_ram Region.ewram)|done]. }
  set (b1 := if has flags 1 then _ else b) in *. clearbody b1.
  assert (H2 : wf (if has flags 2 then b1 <| iwram_ ::= fun l =>
    replicate (length l - 0x200) 0 ++ drop (length l - 0x200) l |> else b1)).
  { case_match; [|done]. apply (wf_map_ram Region.iwram); [..|done]; intros l.
    - rewrite length_app, length_replicate, length_drop. lia.
    - intros Hl. apply Forall_app. split; [|by apply Forall_drop].
      apply Forall_replicate. by vm_compute. }
  set (b2 := if has flags 2 then _ else b1) in *. clearbody b2. clear H H1 b b1.
  assert (H3 : wf (if has flags 4 then b2 <| palette_ ::= fill_zero |> else b2)).
  { case_match; [by apply (wf_fill_ram Region.palette)|done]. }
  set (b3 := if has flags 4 then _ else b2) in *. clearbody b3.
  assert (H4 : wf (if has flags 8 then b3 <| vram_ ::= fill_zero |> else b3)).
  { case_match; [by apply (wf_fill_ram Region.vram)|done]. }
  set (b4 := if has flags 8 then _ else b3) in *. clearbody b4.
  case_match; [by apply (wf_fill_ram Region.oam)|done].
Qed.

Lemma wf_fresh_save type l b :
  Z.of_nat (length l) = save_size_for_type type -> bytes_ok l -> wf b ->
  wf (reset_flash_protocol
    (b <| game_pak_save_type_ := type |> <| game_pak_save_ := l |> <| flash_bank_ := 0 |>)).
Proof. intros Hl Hok H. by apply wf_reset_flash, wf_set_save. Qed.

Lemma wf_configure type b : wf b -> wf (configure_game_pak_save type b).2.
Proof.
  intros H. unfold configure_game_pak_save. case_match; [by apply wf_clear_save|].
  apply wf_fresh_save; [..|done].
  - rewrite length_replicate, Z2Nat.id; [done|]. by destruct type.
  - apply Forall_replicate. by vm_compute.
Qed.

Lemma wf_import type data b : bytes_ok data -> wf b -> wf (import_game_pak_save type data b).2.
Proof.
  intros Hd H. unfold import_game_pak_save. case_match eqn:E; [done|].
  apply orb_false_iff in E as [_ E]. apply negb_false_iff, Z.eqb_eq in E.
  by apply wf_fresh_save.
Qed.

Lemma wf_load_rom data b : bytes_ok data -> wf b -> wf (load_game_pak_rom data b).2.
Proof.
  intros Hok H. unfold load_game_pak_rom. case_match eqn:E; [done|].
  apply orb_false_iff in E as [_ E]. apply Z.ltb_ge in E. by apply wf_set_rom.
Qed.

Lemma eeprom_block_bounds i b :
  wf b -> (eeprom_block_count b =? 0) || (eeprom_block_count b <=? i) = false -> 0 <= i ->
  i * 8 + 8 <= Z.of_nat (length (game_pak_save_ b)).
Proof.
  intros H Hc Hi. apply orb_false_iff in Hc as [Hc0 Hc]. apply Z.leb_gt in Hc.
  unfold eeprom_block_count in *. rewrite (wf_save_size b H) in *.
  destruct (game_pak_save_type_ b); try done.
  - change (i < 64) in Hc. change (i * 8 + 8 <= 512). lia.
  - change (i < 1024) in Hc. change (i * 8 + 8 <= 8192). lia.
Qed.

Lemma length_splice (start : nat) (data l : list Z) :
  (start + length data <= length l)%nat ->
  length (take start l ++ data ++ drop (start + length data) l) = length l.
Proof. intros H. rewrite !length_app, length_take, length_drop. lia. Qed.

Lemma wf_eeprom_write i data b :
  0 <= i -> length data = 8%nat -> bytes_ok data -> wf b -> wf (eeprom_write_block i data b).2.
Proof.
  intros Hi Hl Hd H. unfold eeprom_write_block. case_match eqn:E; [done|].
  pose proof (eeprom_block_bounds i b H E Hi) as Hb.
  destruct H as [Hs Hr Hdb Hz Hv Hbk Hrom]. constructor; try done.
  - cbn -[take drop]. rewrite length_splice by lia. done.
  - cbn -[take drop]. apply Forall_app. split; [by apply Forall_take|].
    apply Forall_app. split; [done|by apply Forall_drop].
Qed.

(** A snapshot as the C++ types bound it: fixed array sizes, bytes, and a bank
    that is a byte. *)
Record typed (st : State) : Prop := mk_typed {
  ty_ewram : Z.of_nat (length (s_ewram st)) = kEwramSize;
  ty_iwram : Z.of_nat (length (s_iwram st)) = kIwramSize;
  ty_palette : Z.of_nat (length (s_palette st)) = kPaletteSize;
  ty_vram : Z.of_nat (length (s_vram st)) = kVramSize;
  ty_oam : Z.of_nat (length (s_oam st)) = kOamSize;
  ty_debug : length (s_mgba_debug_string st) = 256%nat;
  ty_bytes : bytes_ok (s_ewram st) /\ bytes_ok (s_iwram st) /\ bytes_ok (s_palette st) /\
    bytes_ok (s_vram st) /\ bytes_ok (s_oam st) /\ bytes_ok (s_game_pak_save st);
  ty_bank : fits 8 (s_flash_bank st);
  ty_words : bytes_ok (s_game_pak_rom st) /\ bytes_ok (s_mgba_debug_string st) /\
    fits 32 (s_open_bus_latch st)
}.

Lemma wf_load_state st b : typed st -> wf b -> wf (load_state st b).2.
Proof.
  intros T H. unfold load_state. destruct (state_ok st) eqn:E; [|done]. unfold state_ok in E.
  rewrite !andb_true_iff, !negb_true_iff in E. destruct E as ((((E1 & E2) & E3) & E4) & E5).
  destruct T as [T1 T2 T3 T4 T5 T6 (B1 & B2 & B3 & B4 & B5 & B6) T8 T9].
  constructor; cbn [snd]; try done.
  - by intros [].
  - intros []; try done; by constructor.
  - cbn. destruct (Z.eqb_spec (save_size_for_type (s_game_pak_save_type st)) 0) as [Z0|_];
      cbn [negb andb] in E1; [|by apply negb_false_iff, Z.eqb_eq in E1].
    rewrite Z0. assert (s_game_pak_save_type st = GamePakSaveType.none) as Et
      by (by destruct (s_game_pak_save_type st)).
    rewrite (bool_decide_eq_true_2 _ Et) in E2. cbn [andb] in E2.
    apply negb_false_iff, bool_decide_eq_true in E2. by rewrite E2.
  - apply orb_false_iff in E4 as [Eb1 Eb2]. apply Z.ltb_ge in Eb1. unfold bank_ok, fits in *. cbn.
    destruct (Z.eqb_spec (s_flash_bank st) 0) as [->|]; [by left|]. right. cbn [negb andb] in Eb2.
    apply negb_false_iff, bool_decide_eq_true in Eb2. split; [lia|done].
  - cbn. destruct (decide (s_game_pak_rom st = [])) as [->|Hne]; [by vm_compute|].
    rewrite (bool_decide_eq_false_2 _ Hne) in E5. cbn [negb andb] in E5. by apply Z.ltb_ge in E5.
Qed.

(** ** Reachable buses *)

Section Reach.
Context {D : Type} (io : IoCallbacks D).

(** One operation of the bus; its arguments have their C++ types. *)
Inductive bus_step : @Bus D -> @Bus D -> Prop :=
  | step_write8 a v s : fits 32 a -> fits 8 v -> bus_step s (write8 io a v s).2
  | step_write16 a v s : fits 32 a -> fits 16 v -> bus_step s (write16 io a v s).2
  | step_write32 a v s : fits 32 a -> fits 32 v -> bus_step s (write32 io a v s).2
  | step_soft_reset b d : bus_step (b, d) (soft_reset b, d)
  | step_hard_reset b d : bus_step (b, d) (hard_reset b, d)
  | step_ram_reset flags b d : bus_step (b, d) (register_ram_reset flags b, d)
  | step_configure type b d : bus_step (b, d) ((configure_game_pak_save type b).2, d)
  | step_import type data b d :
      bytes_ok data -> bus_step (b, d) ((import_game_pak_save type data b).2, d)
  | step_load_rom data b d :
      bytes_ok data -> bus_step (b, d) ((load_game_pak_rom data b).2, d)
  | step_eeprom i data b d :
      fits 16 i -> length data = 8%nat -> bytes_ok data ->
      bus_step (b, d) ((eeprom_write_block i data b).2, d)
  | step_drive v b d : fits 32 v -> bus_step (b, d) (drive_open_bus v b, d)
  | step_clear_latch b d : bus_step (b, d) (clear_open_bus_latch b, d)
  | step_clear_debug b d : bus_step (b, d) (clear_debug_output b, d)
  | step_load st b d : typed st -> bus_step (b, d) ((load_state st b).2, d)
  | step_devices b d d' : bus_step (b, d) (b, d').

Lemma step_wf s s' : bus_step s s' -> wf s.1 -> wf s'.1.
Proof.
  destruct 1; cbn [fst]; intros Hw.
  - by apply keeps_write8.
  - by apply keeps_write16.
  - by apply keeps_write32.
  - by apply wf_soft_reset.
  - by apply wf_clear_save, wf_clear_rom, wf_soft_reset.
  - by apply wf_register_ram_reset.
  - by apply wf_configure.
  - by apply wf_import.
  - by apply wf_load_rom.
  - apply wf_eeprom_write; try done. by destruct H.
  - by apply wf_latch.
  - by apply wf_clear_latch.
  - apply wf_map_debug; [apply length_fill_zero|intros l _; apply fill_zero_ok|]. by destruct Hw.
  - by apply wf_load_state.
  - done.
Qed.

Lemma initial_wf : wf initial.
Proof.
  constructor; try done.
  - apply initial_sized.
  - intros []; cbn [ram initial ewram_ iwram_ palette_ vram_ oam_];
      apply Forall_replicate || apply Forall_nil_2; by vm_compute.
  - by constructor.
  - by left.
  - split_and!; [by constructor| |by vm_compute]. by apply Forall_replicate.
Qed.

(** C5: every bus state reachable from the constructed bus by any sequence of
    stores, resets, save and cartridge operations and snapshot loads is well
    formed, and every access of the save aperture indexes inside the backing. *)
Theorem bus_memory_safe (d0 : D) (s : @Bus D) :
  rtc bus_step (initial, d0) s ->
  wf s.1 /\
  (game_pak_save_supports_memory_aperture s.1 = true -> forall o,
     let index := if is_flash_save s.1 then flash_effective_offset o s.1
                  else o mod Z.of_nat (length (game_pak_save_ s.1)) in
     0 <= index < Z.of_nat (length (game_pak_save_ s.1))).
Proof.
  intros Hr. assert (Hw : wf s.1).
  { cut (wf (initial, d0).1 -> wf s.1); [intros Hc; apply Hc, initial_wf|].
    clear -Hr. induction Hr as [s|s s1 s2 H1 _ IH]; [done|].
    intros Hw. by apply IH, (step_wf s). }
  split; [done|]. intros Ha o. destruct (is_flash_save s.1) eqn:Hf; cbv zeta.
  - by apply flash_offset_bounds.
  - apply Z.mod_pos_bound. rewrite (wf_save_size _ Hw).
    unfold game_pak_save_supports_memory_aperture in Ha. apply andb_true_iff in Ha as [_ Ha].
    by destruct (game_pak_save_type_ s.1).
Qed.
End Reach.

Lemma bus_memory_safe_witness :
  let s := (write8 no_io 0x0E000001 0x5A (write8 no_io 0x0E000000 0x12
              ((configure_game_pak_save GamePakSaveType.sram32k initial).2, tt)).2).2 in
  wf s.1 /\
  (game_pak_save_supports_memory_aperture s.1 = true -> forall o,
     let index := if is_flash_save s.1 then flash_effective_offset o s.1
                  else o mod Z.of_nat (length (game_pak_save_ s.1)) in
     0 <= index < Z.of_nat (length (game_pak_save_ s.1))).
Proof.
  apply (bus_memory_safe no_io tt).
  eapply rtc_l; [apply (step_configure no_io GamePakSaveType.sram32k)|].
  eapply rtc_l; [apply (step_write8 no_io 0x0E000000 0x12); by apply (bool_decide_unpack _)|].
  apply rtc_once, step_write8; by apply (bool_decide_unpack _).
Defined.

(** ** The Flash protocol *)

(** C34: a byte written to a Flash cartridge keeps the size of the backing and
    changes exactly the bytes [flash_effect] says: the addressed byte, only
    from 1 bits to 0 bits, when a program command is pending; the whole chip or the
    addressed sector, to 0xFF, when an erase command is; nothing otherwise. *)
Theorem flash_write_effect (o v : Z) (b : MemoryBus) :
  wf b -> is_flash_save b = true ->
  let b' := (write_flash_byte o v b).2 in
  length (game_pak_save_ b') = length (game_pak_save_ b) /\
  forall i, 0 <= i < Z.of_nat (length (game_pak_save_ b)) ->
    byte_at (game_pak_save_ b') i = flash_effect o v b i.
Proof. apply flash_write_effect_aux. Qed.

Definition flash_cart : MemoryBus :=
  (write_flash_byte 0x5555 0xA0 (write_flash_byte 0x2AAA 0x55 (write_flash_byte 0x5555 0xAA
    (configure_game_pak_save GamePakSaveType.flash128k initial).2).2).2).2.

Lemma flash_cart_wf : wf flash_cart.
Proof. apply wf_write_flash, wf_write_flash, wf_write_flash, wf_configure, initial_wf. Qed.

Lemma flash_write_effect_witness :
  let b' := (write_flash_byte 0x1234 0x3C flash_cart).2 in
  length (game_pak_save_ b') = length (game_pak_save_ flash_cart) /\
  forall i, 0 <= i < Z.of_nat (length (game_pak_save_ flash_cart)) ->
    byte_at (game_pak_save_ b') i = flash_effect 0x1234 0x3C flash_cart i.
Proof. apply (flash_write_effect 0x1234 0x3C flash_cart flash_cart_wf). reflexivity. Defined.

(** The writes of the aperture, in order. *)
Definition flash_run (ws : list (Z * Z)) (b : MemoryBus) : MemoryBus :=
  fold_left (fun b '(o, v) => (write_flash_byte o v b).2) ws b.

(** The write [(o, v)] is the command [v] at [address]. *)
Definition is_command (address value : Z) (w : Z * Z) : Prop :=
  w.1 mod kFlashBankSize = address /\ w.2 = value.

Definition unlock_aa := is_command kFlashUnlockAddress1 0xAA.
Definition unlock_55 := is_command kFlashUnlockAddress2 0x55.

(** [ws] ends with writes of the kinds of [kinds]. *)
Definition ends_with (kinds : list (Z * Z -> Prop)) (ws : list (Z * Z)) : Prop :=
  exists before last, ws = before ++ last /\ Forall2 (fun k w => k w) kinds last.

Lemma ends_with_snoc kinds k ws w :
  ends_with kinds ws -> k w -> ends_with (kinds ++ [k]) (ws ++ [w]).
Proof.
  intros (before & last & -> & H) Hk. exists before, (last ++ [w]).
  rewrite app_assoc. split; [done|]. apply Forall2_app; [done|]. by constructor.
Qed.

Lemma ends_with_nil ws : ends_with [] ws.
Proof. exists ws, []. by rewrite app_nil_r. Qed.

(** The writes that lead to each state of the protocol. *)
Definition flash_history (state : FlashCommandState.t) : list (Z * Z -> Prop) :=
  let unlock := [unlock_aa; unlock_55] in
  let command := is_command kFlashUnlockAddress1 in
  match state with
  | FlashCommandState.idle => []
  | FlashCommandState.unlock1 => [unlock_aa]
  | FlashCommandState.unlock2 => unlock
  | FlashCommandState.program_data => unlock ++ [command 0xA0]
  | FlashCommandState.bank_select => unlock ++ [command 0xB0]
  | FlashCommandState.erase_unlock1 => unlock ++ [command 0x80]
  | FlashCommandState.erase_unlock2 => unlock ++ [command 0x80] ++ [unlock_aa]
  | FlashCommandState.erase_command => unlock ++ [command 0x80] ++ unlock
  end.

Lemma flash_history_step o v b ws :
  has_game_pak_save b = true -> is_flash_save b = true ->
  ends_with (flash_history (flash_command_state_ b)) ws ->
  ends_with (flash_history (flash_command_state_ (write_flash_byte o v b).2)) (ws ++ [(o, v)]).
Proof.
  intros Hs Hf He. unfold write_flash_byte. rewrite Hs, Hf. cbn [negb orb].
  destruct (_ && _); [apply ends_with_nil|].
  destruct (flash_command_state_ b) eqn:Es;
    repeat match goal with
    | |- context [?a =? ?b] => destruct (Z.eqb_spec a b); cbn [negb andb orb]
    end; cbn -[ends_with]; rewrite ?Es; try apply ends_with_nil;
    (eapply (ends_with_snoc _ _ _ _ He); split; done) ||
    (apply (ends_with_snoc []); [apply ends_with_nil|split; done]).
Qed.

Lemma flash_save_kind o v b :
  game_pak_save_type_ (write_flash_byte o v b).2 = game_pak_save_type_ b.
Proof. unfold write_flash_byte. repeat case_match; done. Qed.

Lemma flash_run_inv ws b :
  wf b -> is_flash_save b = true -> flash_command_state_ b = FlashCommandState.idle ->
  wf (flash_run ws b) /\ is_flash_save (flash_run ws b) = true /\
  ends_with (flash_history (flash_command_state_ (flash_run ws b))) ws.
Proof.
  intros H Hf Hi. induction ws as [|[o v] ws IH] using rev_ind.
  { split_and!; [done|done|]. unfold flash_run. cbn [fold_left]. rewrite Hi. apply ends_with_nil. }
  destruct IH as (H1 & H2 & H3). unfold flash_run in *. rewrite fold_left_app. cbn [fold_left].
  set (b1 := fold_left _ ws b) in *.
  split_and!.
  - by apply wf_write_flash.
  - unfold is_flash_save in *. by rewrite flash_save_kind.
  - apply flash_history_step; [|done..]. rewrite has_save_size by done.
    unfold is_flash_save in H2. by destruct (game_pak_save_type_ b1).
Qed.

Lemma flash_unchanged o v b :
  wf b -> is_flash_save b = true ->
  flash_command_state_ b <> FlashCommandState.program_data ->
  flash_command_state_ b <> FlashCommandState.erase_command ->
  game_pak_save_ (write_flash_byte o v b).2 = game_pak_save_ b.
Proof.
  intros H Hf Hp He. unfold write_flash_byte.
  destruct (_ || _); [done|]. destruct (_ && _); [done|].
  destruct (flash_command_state_ b); repeat case_match; done.
Qed.

(** C26: a Flash chip at rest is write protected: after any sequence [ws] of
    aperture writes, the next write changes the backing only if [ws] ends with
    the program sequence (AA at 5555, 55 at 2AAA, A0 at 5555) or with the
    five writes of the erase sequence. *)
Theorem flash_locked (ws : list (Z * Z)) (o v : Z) (b : MemoryBus) :
  wf b -> is_flash_save b = true -> flash_command_state_ b = FlashCommandState.idle ->
  game_pak_save_ (write_flash_byte o v (flash_run ws b)).2 <> game_pak_save_ (flash_run ws b) ->
  ends_with (flash_history FlashCommandState.program_data) ws \/
  ends_with (flash_history FlashCommandState.erase_command) ws.
Proof.
  intros H Hf Hi Hne. destruct (flash_run_inv ws b H Hf Hi) as (H1 & H2 & H3).
  destruct (flash_command_state_ (flash_run ws b)) eqn:Es;
    try (exfalso; apply Hne, flash_unchanged; by rewrite ?Es).
  - by left.
  - by right.
Qed.

Lemma flash_locked_witness :
  ends_with (flash_history FlashCommandState.program_data)
    [(0x5555, 0xAA); (0x2AAA, 0x55); (0x5555, 0xA0)] \/
  ends_with (flash_history FlashCommandState.erase_command)
    [(0x5555, 0xAA); (0x2AAA, 0x55); (0x5555, 0xA0)].
Proof.
  apply (flash_locked _ 0x1234 0x3C (configure_game_pak_save GamePakSaveType.flash64k initial).2).
  - apply wf_configure, initial_wf.
  - reflexivity.
  - reflexivity.
  - intros E. apply (f_equal (fun l => byte_at l 0x1234)) in E. vm_compute in E. discriminate E.
Defined.

(** ** EEPROM *)

Lemma take_drop_splice (start n : nat) (data l : list Z) :
  length data = n -> (start + n <= length l)%nat ->
  take n (drop start (take start l ++ data ++ drop (start + length data) l)) = data.
Proof.
  intros Hd Hl. rewrite drop_app_length' by (rewrite length_take; lia).
  by rewrite take_app_length'.
Qed.

Lemma take_drop_splice_ne (start start' n : nat) (data l : list Z) :
  length data = n -> (start + n <= length l)%nat ->
  (start' + n <= start \/ start + n <= start')%nat ->
  take n (drop start' (take start l ++ data ++ drop (start + length data) l)) =
  take n (drop start' l).
Proof.
  intros Hd Hl Hs. apply list_eq. intros i. destruct (decide (i < n)%nat) as [Hi|Hi].
  - rewrite !lookup_take_lt, !lookup_drop by lia. destruct Hs as [Hs|Hs].
    + rewrite lookup_app_l by (rewrite length_take; lia). by rewrite lookup_take_lt by lia.
    + rewrite lookup_app_r by (rewrite length_take; lia).
      rewrite lookup_app_r by (rewrite length_take; lia).
      rewrite lookup_drop, length_take. f_equal. lia.
  - by rewrite !lookup_take_ge by lia.
Qed.

(** C40: the EEPROM is an array of eight-byte blocks: a store to a block of the
    chip is accepted, is read back, and leaves the other blocks as they were;
    a store or a read past the last block is refused. *)
Theorem eeprom_roundtrip (i : Z) (data : list Z) (b : MemoryBus) :
  wf b -> 0 <= i -> length data = 8%nat ->
  let '(ok, b') := eeprom_write_block i data b in
  ok = bool_decide (i < eeprom_block_count b) /\
  (ok = true -> forall j, 0 <= j ->
     eeprom_read_block j b' = if decide (j = i) then Some data else eeprom_read_block j b) /\
  (ok = false -> b' = b /\ eeprom_read_block i b = None).
Proof.
  intros H Hi Hd. unfold eeprom_write_block, eeprom_read_block.
  destruct (_ || _) eqn:E.
  { split_and!; try done. symmetry. apply bool_decide_eq_false. intros Hlt.
    apply orb_true_iff in E as [E|E]; [apply Z.eqb_eq in E|apply Z.leb_le in E]; lia. }
  pose proof (eeprom_block_bounds i b H E Hi) as Hb. split_and!; [|intros _ j Hj|done].
  { apply orb_false_iff in E as [_ E]. apply Z.leb_gt in E. by rewrite bool_decide_eq_true_2. }
  set (b' := set_field _ _ _).
  assert (Hc : eeprom_block_count b' = eeprom_block_count b).
  { unfold eeprom_block_count. subst b'. cbn -[take drop]. by rewrite length_splice by lia. }
  rewrite Hc. change (game_pak_save_ b') with (take (Z.to_nat (i * 8)) (game_pak_save_ b) ++ data ++
    drop (Z.to_nat (i * 8) + length data) (game_pak_save_ b)).
  case_decide as Hij.
  - subst j. rewrite E. by rewrite (take_drop_splice _ 8) by lia.
  - destruct (_ || _) eqn:Ej; [done|].
    rewrite (take_drop_splice_ne _ _ 8) by lia. done.
Qed.

Lemma eeprom_roundtrip_witness :
  let b := (configure_game_pak_save GamePakSaveType.eeprom512 initial).2 in
  let data := [1; 2; 3; 4; 5; 6; 7; 8] in
  let '(ok, b') := eeprom_write_block 63 data b in
  ok = bool_decide (63 < eeprom_block_count b) /\
  (ok = true -> forall j, 0 <= j ->
     eeprom_read_block j b' = if decide (j = 63) then Some data else eeprom_read_block j b) /\
  (ok = false -> b' = b /\ eeprom_read_block 63 b = None).
Proof.
  apply (eeprom_roundtrip 63); [apply wf_configure, initial_wf|lia|reflexivity].
Defined.

(** ** Snapshots *)

Lemma saved_typed b : wf b -> typed (save_state b).
Proof.
  intros [Hs Hr Hd Hz Hv Hb Hrom Ht]. constructor; unfold save_state;
    cbn [s_ewram s_iwram s_palette s_vram s_oam s_mgba_debug_string s_game_pak_save s_flash_bank].
  - by apply (Hs Region.ewram).
  - by apply (Hs Region.iwram).
  - by apply (Hs Region.palette).
  - by apply (Hs Region.vram).
  - by apply (Hs Region.oam).
  - done.
  - split_and!; [apply (Hr Region.ewram)|apply (Hr Region.iwram)|apply (Hr Region.palette)|
      apply (Hr Region.vram)|apply (Hr Region.oam)|done].
  - unfold fits. destruct Hb as [-> | [-> _]]; lia.
  - done.
Qed.

Lemma load_save b b0 : wf b -> load_state (save_state b) b0 = (true, b).
Proof.
  intros H. unfold load_state. replace (state_ok (save_state b)) with true; [by destruct b|].
  destruct H as [Hs Hr Hd Hz Hv Hb Hrom Ht]. unfold state_ok, save_state.
  cbn [s_game_pak_save_type s_game_pak_save s_flash_command_state s_flash_bank s_game_pak_rom].
  rewrite Hz, Z.eqb_refl, andb_false_r. cbn [negb andb]. symmetry.
  rewrite !andb_true_iff, !negb_true_iff. split_and!.
  - destruct (game_pak_save_type_ b) eqn:Et; try done.
    destruct (game_pak_save_ b); [done|by cbn in Hz].
  - by destruct (flash_command_state_ b).
  - unfold bank_ok in Hb. destruct Hb as [-> | [-> ->]]; done.
  - apply andb_false_iff. right. by apply Z.ltb_ge.
Qed.

(** C38: a snapshot of a well-formed bus loads into any bus and gives back the
    saved bus; a snapshot [load_state] refuses changes nothing, and one it
    accepts gives a well-formed bus. *)
Theorem bus_snapshot_roundtrip (b b0 : MemoryBus) (st : State) :
  wf b -> wf b0 -> typed st ->
  load_state (save_state b) b0 = (true, b) /\
  (state_ok st = false -> load_state st b0 = (false, b0)) /\
  wf (load_state st b0).2.
Proof.
  intros H H0 T. split_and!.
  - by apply load_save.
  - unfold load_state. by intros ->.
  - by apply wf_load_state.
Qed.

Lemma bus_snapshot_roundtrip_witness :
  load_state (save_state flash_cart) initial = (true, flash_cart) /\
  (state_ok (save_state flash_cart) = false ->
   load_state (save_state flash_cart) initial = (false, initial)) /\
  wf (load_state (save_state flash_cart) initial).2.
Proof.
  apply (bus_snapshot_roundtrip flash_cart initial (save_state flash_cart) flash_cart_wf initial_wf).
  apply saved_typed, flash_cart_wf.
Defined.

(** A word stored at an unaligned address of work RAM lands byte by byte at
    that address, while a word read there rotates the aligned word: the read
    does not return the stored word, although the comment of [write32] has each
    byte in "the lane a byte/halfword/word read of the same address would fetch
    it back from". *)
Example unaligned_word_not_read_back :
  let s := (write32 no_io 0x02000001 0x44332211 (initial, tt)).2 in
  read8 no_io 0x02000001 s = Some 0x11 /\ read8 no_io 0x02000004 s = Some 0x44 /\
  read32 no_io 0x02000001 s = Some 0x00332211.
Proof. vm_compute. done. Qed.
