(* ===== verification/BusInterface.v ===== *)
(** * What the memory bus promises to its clients

    [MemoryInterface]: a predicate on the bus and its devices under which a
    read returns a value of its width, and which every store keeps.  The bus
    of [MemoryBus.v] implements it for devices whose callbacks obey
    [DeviceLaws]. *)

From S2P Require Import Prelude BusTypes MemoryBus MemoryBusSpec BusSafety.

(** The callbacks of the IO devices: values of their width, and an invariant
    [I] of the devices that the stores keep. *)
Class DeviceLaws {D : Type} (io : IoCallbacks D) (I : D -> Prop) : Prop := {
  law_read16 f d a v : cb_read16 io = Some f -> I d -> f d a = Some v -> fits 16 v;
  law_read32 f d a v : cb_read32 io = Some f -> I d -> f d a = Some v -> fits 32 v;
  law_write16 f a v d : cb_write16 io = Some f -> fits 16 v -> I d -> I (f a v d).2;
  law_write32 f a v d : cb_write32 io = Some f -> fits 32 v -> I d -> I (f a v d).2
}.

Class MemoryInterface {D : Type} (io : IoCallbacks D) (ok : @Bus D -> Prop) : Prop := {
  mi_read8 a s v : ok s -> read8 io a s = Some v -> fits 8 v;
  mi_read16 a s v : ok s -> read16 io a s = Some v -> fits 16 v;
  mi_read32 a s v : ok s -> read32 io a s = Some v -> fits 32 v;
  mi_latch s v : ok s -> open_bus_latch s.1 = Some v -> fits 32 v;
  mi_write8 a v s : fits 8 v -> ok s -> ok (write8 io a v s).2;
  mi_write16 a v s : fits 16 v -> ok s -> ok (write16 io a v s).2;
  mi_write32 a v s : fits 32 v -> ok s -> ok (write32 io a v s).2
}.

#[export] Instance no_io_laws : DeviceLaws no_io (fun _ => True).
Proof. split; done. Qed.

(** ** Reads *)

Lemma rotate_fits v n : fits 32 v -> fits 32 (rotate_right v n).
Proof.
  intros Hv. unfold rotate_right. cbv zeta. case_match; [done|].
  apply fits_lor; [lia| |width]. apply fits_shiftr; [lia| |done].
  pose proof (wrap_fits 8 ltac:(lia) (n mod 32)). unfold fits in *. lia.
Qed.

Lemma le16_fits b0 b1 : fits 8 b0 -> fits 16 (le16 b0 b1).
Proof. intros H. apply fits_lor; [lia| |width]. by apply (fits_mono 8). Qed.

Lemma le32_fits b0 b1 b2 b3 : fits 8 b0 -> fits 32 (le32 b0 b1 b2 b3).
Proof.
  intros H. repeat (apply fits_lor; [lia| |width]). by apply (fits_mono 8).
Qed.

Lemma half_at_fits l i : bytes_ok l -> fits 16 (half_at l i).
Proof. intros H. by apply le16_fits, byte_at_ok. Qed.

Lemma word_at_fits l i : bytes_ok l -> fits 32 (word_at l i).
Proof. intros H. by apply le32_fits, byte_at_ok. Qed.

Lemma open_bus_word_fits a : fits 32 (game_pak_open_bus_aligned_word a).
Proof.
  apply fits_lor; [lia|apply (fits_mono 16); [lia|width]|width].
Qed.

Section Bus.
Context {D : Type} (io : IoCallbacks D) (I : D -> Prop) {laws : DeviceLaws io I}.

(** The invariant of the bus with its devices. *)
Definition bus_ok (s : @Bus D) : Prop := wf s.1 /\ I s.2.

(** [Some v] results, one at a time. *)
Definition all_fit (w : Z) (o : option Z) : Prop := forall v, o = Some v -> fits w v.

Lemma all_fit_Some w v : fits w v -> all_fit w (Some v).
Proof using Type. intros H v' E. by apply (inj Some) in E as <-. Qed.

Lemma all_fit_None w : all_fit w None.
Proof using Type. done. Qed.

Hint Resolve all_fit_Some all_fit_None : core.

Lemma debug_id_ok : bytes_ok kNoCashGbaDebugId.
Proof using Type. apply (bool_decide_unpack _). by vm_compute. Qed.

Lemma hle_bytes_ok : bytes_ok kHleBiosVectorBytes.
Proof using Type. apply (bool_decide_unpack _). by vm_compute. Qed.

Lemma save_byte_fits o b : wf b -> all_fit 8 (read_game_pak_save_byte o b).
Proof using Type.
  intros H. pose proof (byte_at_ok (game_pak_save_ b)) as Hb.
  unfold read_game_pak_save_byte, read_flash_byte.
  destruct (negb _); [done|]. destruct (is_flash_save b); [|apply all_fit_Some, Hb, H].
  destruct (_ || _); [done|]. destruct (flash_id_mode_ b); [|apply all_fit_Some, Hb, H].
  cbv zeta. destruct (_ =? 0); [by apply all_fit_Some; vm_compute|].
  destruct (_ =? 1); [|by apply all_fit_Some; vm_compute].
  apply all_fit_Some. by destruct (game_pak_save_type_ b); vm_compute.
Qed.

Lemma read8_fits a s : bus_ok s -> all_fit 8 (read8 io a s).
Proof using laws.
  destruct s as [b d]. intros [H HI]. cbn [fst snd] in H, HI. unfold read8.
  pose proof (wf_ram b H) as Hr. destruct (wf_typed b H) as (Hrom & Hdebug & _).
  destruct (_ && _); [apply all_fit_Some, byte_at_ok, debug_id_ok|].
  destruct (_ && _); [by apply all_fit_Some, byte_at_ok|].
  destruct (region (classify a)); try (apply all_fit_Some, byte_at_ok).
  - destruct (_ <? _); [done|].
    destruct (_ <? _); apply all_fit_Some; [apply byte_at_ok, hle_bytes_ok|by vm_compute].
  - apply (Hr Region.ewram).
  - apply (Hr Region.iwram).
  - unfold read_io8. repeat case_match; try apply all_fit_None. apply all_fit_Some. width.
  - apply (Hr Region.palette).
  - apply (Hr Region.vram).
  - apply (Hr Region.oam).
  - destruct (bool_decide _); [done|].
    destruct (_ <=? _); apply all_fit_Some; [width|by apply byte_at_ok].
  - by apply save_byte_fits.
  - done.
Qed.

Lemma read16_bytes_fits a s : bus_ok s -> all_fit 16 (read16_bytes io a s).
Proof using laws.
  intros H. unfold read16_bytes. pose proof (read8_fits a s H) as H0.
  destruct (read8 io a s); [|done]. destruct (read8 io (u32 (a + 1)) s); [|done].
  by apply all_fit_Some, le16_fits, H0.
Qed.

Lemma read16_fits a s : bus_ok s -> all_fit 16 (read16 io a s).
Proof using laws.
  intros Hok. pose proof (read16_bytes_fits a s Hok) as Hbytes.
  destruct s as [b d]. destruct Hok as [H HI]. cbn [fst snd] in H, HI. unfold read16.
  pose proof (wf_ram b H) as Hr. destruct (wf_typed b H) as (Hrom & _).
  pose proof (save_byte_fits (offset (classify a)) b H) as Hsave.
  assert (Hhalf : forall l, bytes_ok l -> all_fit 16 (Some (half_at l (offset (classify a))))).
  { intros l Hl. by apply all_fit_Some, half_at_fits. }
  destruct (region (classify a)); try (destruct (negb _); [done|]);
    try (destruct (a =? kMgbaDebugEnable); [apply all_fit_Some; by vm_compute|]);
    try done; try apply Hhalf.
  - apply (Hr Region.ewram).
  - apply (Hr Region.iwram).
  - destruct (cb_read16 io) eqn:Er.
    + intros v E. by eapply (law_read16 _ d a v Er).
    + destruct (a =? kMgbaDebugEnable); [apply all_fit_Some; by vm_compute|done].
  - apply (Hr Region.palette).
  - apply (Hr Region.vram).
  - apply (Hr Region.oam).
  - destruct (bool_decide _); [done|]. destruct (_ <=? _); [done|by apply Hhalf].
  - destruct (read_game_pak_save_byte _ _) as [byte|]; [|done]. apply all_fit_Some.
    apply fits_lor; [lia| |width]. by apply (fits_mono 8); [|apply Hsave].
Qed.

Lemma read32_bytes_fits a s : bus_ok s -> all_fit 32 (read32_bytes io a s).
Proof using laws.
  intros H. unfold read32_bytes. cbv zeta. pose proof (read8_fits (align_word a) s H) as H0.
  destruct (read8 io (align_word a) s); [|done].
  destruct (read8 io (u32 (align_word a + 1)) s), (read8 io (u32 (align_word a + 2)) s),
    (read8 io (u32 (align_word a + 3)) s); try done.
  by apply all_fit_Some, rotate_fits, le32_fits, H0.
Qed.

Lemma read32_aligned_fits a s : bus_ok s -> all_fit 32 (read32_aligned io a s).
Proof using laws.
  intros Hok. pose proof (read32_bytes_fits a s Hok) as Hbytes.
  destruct s as [b d]. destruct Hok as [H HI]. cbn [fst snd] in H, HI. unfold read32_aligned.
  pose proof (wf_ram b H) as Hr. destruct (wf_typed b H) as (Hrom & _).
  set (info := classify (align_word a)). cbv zeta.
  assert (Hword : forall l, bytes_ok l -> all_fit 32 (Some
    (rotate_right (word_at l (offset info)) (u8 (Z.land a 0x3 * 8))))).
  { intros l Hl. by apply all_fit_Some, rotate_fits, word_at_fits. }
  destruct (region info); try done; try apply Hword.
  - apply (Hr Region.ewram).
  - apply (Hr Region.iwram).
  - apply (Hr Region.palette).
  - apply (Hr Region.vram).
  - apply (Hr Region.oam).
  - destruct (bool_decide _); [done|]. destruct (_ <=? _); [done|by apply Hword].
Qed.

Lemma read32_fits a s : bus_ok s -> all_fit 32 (read32 io a s).
Proof using laws.
  intros Hok. pose proof (read32_aligned_fits a s Hok) as Haligned.
  destruct s as [b d]. destruct Hok as [H HI]. cbn [fst snd] in H, HI. unfold read32.
  pose proof (save_byte_fits (offset (classify a)) b H) as Hsave.
  destruct (region (classify a)); try done.
  - destruct (cb_read32 io) eqn:Er; [|done]. destruct (_ =? _); [|done].
    intros v E. by eapply (law_read32 _ d a v Er).
  - destruct (_ && _); [|done]. apply all_fit_Some, rotate_fits, open_bus_word_fits.
  - destruct (read_game_pak_save_byte _ _) as [byte|]; [|done]. apply all_fit_Some.
    unfold repeat_byte32. repeat (apply fits_lor; [lia| |width]).
    by apply (fits_mono 8); [|apply Hsave].
Qed.

(** ** Stores *)

Definition keeps_devices (op : @bus_op D) : Prop := forall s, I s.2 -> I (op s).2.2.

Lemma devices_and_then first second :
  keeps_devices first -> keeps_devices second -> keeps_devices (and_then first second).
Proof using Type.
  intros H1 H2 s Hs. unfold and_then. specialize (H1 s Hs).
  destruct (first s) as [[] s']; [by apply H2|done].
Qed.

Lemma devices_on_bus f : keeps_devices (on_bus f).
Proof using Type. intros s Hs. unfold on_bus. by destruct (f s.1). Qed.

Lemma devices_write_ram8 info v : keeps_devices (write_ram8 info v).
Proof using Type.
  intros s Hs. unfold write_ram8. destruct (negb _); [done|].
  destruct (region info); try done. by destruct (_ <=? _).
Qed.

Lemma devices_write8 a v : fits 8 v -> keeps_devices (write8 io a v).
Proof using laws.
  intros Hv s Hs. unfold write8.
  pose proof (devices_on_bus (write_debug8 a v) s Hs) as Hd.
  destruct (on_bus _ s) as [[] s1]; [done|]. cbn [snd] in Hd.
  pose proof (devices_write_ram8 (classify a) v s1 Hd) as Hr.
  destruct (region (classify a)), (cb_write16 io) as [w|] eqn:Ew; try done.
  - unfold write_io8. cbv zeta.
    assert (Hm : fits 16 (match cb_read16 io with
                          | Some r => default 0 (r s1.2 (align_half a)) | None => 0 end)).
    { destruct (cb_read16 io) as [r|] eqn:Er; [|by vm_compute].
      destruct (r s1.2 (align_half a)) eqn:E; [by eapply (law_read16 _ s1.2 _ _ Er)|by vm_compute]. }
    set (m := match cb_read16 io with Some _ => _ | None => _ end) in *.
    assert (H8 : fits 16 v) by (by apply (fits_mono 8)).
    assert (Hv16 : fits 16 (if has a 0x1 then Z.lor (Z.land m 0x00FF) (u16 (Z.shiftl v 8))
                            else Z.lor (Z.land m 0xFF00) v)) by (case_match; width).
    set (x := if has a 1 then _ else _) in *.
    pose proof (law_write16 w (align_half a) x s1.2 Ew Hv16 Hd) as Hw.
    by destruct (w _ _ _).
  - by apply devices_on_bus.
  - by apply devices_on_bus.
Qed.

Lemma devices_write16_bytes a v : keeps_devices (write16_bytes io a v).
Proof using laws. apply devices_and_then; apply devices_write8, byte_lane_fits. Qed.

Lemma devices_write32_bytes a v : keeps_devices (write32_bytes io a v).
Proof using laws. repeat apply devices_and_then; apply devices_write8, byte_lane_fits. Qed.

Lemma devices_write_ram infos v fallback :
  keeps_devices fallback -> keeps_devices (write_ram infos v fallback).
Proof using Type. intros Hf s Hs. unfold write_ram. repeat case_match; try done. by apply Hf. Qed.

Lemma devices_write_debug32 a v : keeps_devices (write_debug32 io a v).
Proof using Type.
  intros s Hs. unfold write_debug32. repeat case_match; try done.
  revert s Hs. repeat apply devices_and_then; apply devices_on_bus.
Qed.

Lemma devices_write16 a v : fits 16 v -> keeps_devices (write16 io a v).
Proof using laws.
  intros Hv s Hs. unfold write16.
  pose proof (devices_on_bus (write_debug16 a v) s Hs) as Hd.
  pose proof (devices_on_bus (write_game_pak_save_byte (offset (classify a)) (byte_lane 0 v)) s Hs)
    as Hsave.
  destruct (on_bus (write_debug16 a v) s) as [[] s1]; cbn [snd] in Hd;
    [by destruct (region (classify a))|].
  assert (Hram : I (if negb (a mod 2 =? 0) then write16_bytes io a v s1
    else if bool_decide (region (classify a) = Region.unknown) then (true, s1)
    else write_ram [classify a; classify (u32 (a + 1))] v (write16_bytes io a v) s1).2.2).
  { case_match; [by apply devices_write16_bytes|]. case_match; [done|].
    by apply devices_write_ram; [apply devices_write16_bytes|]. }
  destruct (region (classify a)), (cb_write16 io) as [w|] eqn:Ew; try done.
  unfold write_io16. cbv zeta. set (x := if _ =? 0 then v else _).
  assert (Hx : fits 16 x) by (unfold x; case (Z.land a 1 * 8 =? 0); [done|width]).
  pose proof (law_write16 w (align_half a) x s1.2 Ew Hx Hd) as Hw. by destruct (w _ _ _).
Qed.

Lemma devices_write32 a v : fits 32 v -> keeps_devices (write32 io a v).
Proof using laws.
  intros Hv s Hs. unfold write32.
  pose proof (devices_write_debug32 a v s Hs) as Hd.
  pose proof (devices_on_bus (write_game_pak_save_byte (offset (classify a)) (byte_lane 0 v)) s Hs)
    as Hsave.
  destruct (write_debug32 io a v s) as [[] s1]; cbn [snd] in Hd;
    [by destruct (region (classify a))|].
  assert (Hram : I (if negb (a mod 4 =? 0) then write32_bytes io a v s1
    else if bool_decide (region (classify a) = Region.unknown) then (true, s1)
    else write_ram [classify a; classify (u32 (a + 1)); classify (u32 (a + 2));
                    classify (u32 (a + 3))] v (write32_bytes io a v) s1).2.2).
  { case_match; [by apply devices_write32_bytes|]. case_match; [done|].
    by apply devices_write_ram; [apply devices_write32_bytes|]. }
  destruct (region (classify a)), (cb_write32 io) as [w|] eqn:Ew; try done.
  unfold write_io32. cbv zeta. set (x := if _ =? 0 then v else _).
  assert (Hx : fits 32 x).
  { unfold x. case (Z.land a 3 * 8 =? 0); [done|]. apply fits_lor; [lia| |width]. apply fits_shiftr; [lia| |done].
    pose proof (Z.land_nonneg a 3). lia. }
  pose proof (law_write32 w (align_word a) x s1.2 Ew Hx Hd) as Hw. by destruct (w _ _ _).
Qed.

#[export] Instance memory_bus_interface : MemoryInterface io bus_ok.
Proof using laws.
  split.
  - intros a s v H. by apply read8_fits.
  - intros a s v H. by apply read16_fits.
  - intros a s v H. by apply read32_fits.
  - intros s v [H _]. unfold open_bus_latch. destruct (negb _); [done|]. intros [= <-]. apply H.
  - intros a v s Hv [H HI]. split; [by apply keeps_write8|by apply devices_write8].
  - intros a v s Hv [H HI]. split; [by apply keeps_write16|by apply devices_write16].
  - intros a v s Hv [H HI]. split; [by apply keeps_write32|by apply devices_write32].
Qed.
End Bus.
