(* ===== verification/IoRegistersSpec.v ===== *)
(** * The IO registers: safety

    [devices_wf]: the invariants of all devices together.  Every read of a
    register returns a value of its width, every write of a value of its width
    keeps the invariant, and none throws: the devices obey the laws
    ([DeviceLaws]) the memory bus and the processor are proved against. *)

From S2P Require Import Prelude StateHash Interrupts Keypad BusTypes WaitState.
From S2P Require Import MemoryBus Apu Dma IoRegisters BusInterface.
From S2P Require Timers PpuTiming TimersSpec PpuTimingSpec ApuSpec DmaSpec.
From S2P Require Import ApuTyped.

(** ** Timers

    The part of the timers' invariant that does not speak of the anchors in
    time, and so survives a cycle counter that wraps. *)

Definition timers_safe (ts : Timers.Timers) : Prop :=
  TimersSpec.has_four ts /\
  forall i t, Timers.timers ts !! i = Some t ->
    TimersSpec.regs_ok t /\ TimersSpec.control_ok i (Timers.control t).

Lemma timers_wf_safe ts : TimersSpec.wf ts -> timers_safe ts.
Proof.
  intros (Hl & _ & H). split; [done|]. intros i t E. by destruct (H i t E) as (Hr & Hc & _).
Qed.

Lemma timers_safe_lookup i ts : timers_safe ts -> (i < Timers.kTimerCount)%nat ->
  exists t, Timers.checked_timer i ts = Ret t /\ TimersSpec.regs_ok t /\
    TimersSpec.control_ok i (Timers.control t).
Proof.
  intros [Hl H] Hi. destruct (TimersSpec.timer_exists i ts Hl Hi) as [t E].
  exists t. rewrite (TimersSpec.checked_timer_lookup _ _ t) by done. by split; [|apply H].
Qed.

Lemma timers_safe_update i t ts : timers_safe ts ->
  TimersSpec.regs_ok t -> TimersSpec.control_ok i (Timers.control t) ->
  timers_safe (Timers.update_timer i t ts).
Proof.
  intros [Hl H] Hr Hc. split; [by apply TimersSpec.has_four_update|].
  intros j t'. rewrite TimersSpec.timers_update_timer, list_lookup_insert.
  case_decide as E; [|apply H]. intros [= <-]. by destruct E as [<- _].
Qed.

Lemma write_reload_safe i v ts : timers_safe ts -> (i < Timers.kTimerCount)%nat -> fits 16 v ->
  ensures timers_safe (Timers.write_reload i v ts).
Proof.
  intros H Hi Hv. destruct (timers_safe_lookup i ts H Hi) as (t & E & (? & ? & ?) & Hc).
  unfold Timers.write_reload. rewrite E. apply ensures_ret. by apply timers_safe_update.
Qed.

Lemma write_control_safe i v ts : timers_safe ts -> (i < Timers.kTimerCount)%nat ->
  ensures timers_safe (Timers.write_control i v ts).
Proof.
  intros H Hi. destruct (timers_safe_lookup i ts H Hi) as (t & E & (? & ? & ?) & _).
  unfold Timers.write_control. rewrite E. cbn [mbind exc_bind]. fold (TimersSpec.sanitize i v).
  pose proof (TimersSpec.sanitize_ok i v) as Hs. generalize dependent (TimersSpec.sanitize i v).
  intros c Hs. apply ensures_ret. cbv zeta.
  apply timers_safe_update; [done|repeat case_match; done..].
Qed.

Lemma tick_timers_safe cycles ic ts : timers_safe ts -> 0 < cycles ->
  ensures (fun r => Interrupts.wf ic -> Interrupts.wf r.1.2 /\ timers_safe r.2)
    (Timers.tick cycles ic ts).
Proof.
  intros [Hl H] Hc.
  destruct (TimersSpec.tick_spec cycles ic ts Hl) as (r & ic' & ts' & E & Hl' & _ & Hic & Ht); [|done|].
  { apply Forall_lookup. intros i t Et. by apply (H i t). }
  rewrite E. apply ensures_ret. cbn [fst snd]. intros Hwf. split; [by apply Hic|]. split; [done|].
  intros i t' Et'. destruct (TimersSpec.timer_exists i ts Hl) as [t Et].
  { unfold TimersSpec.has_four in Hl'. rewrite <- Hl'. by eapply lookup_lt_Some. }
  destruct (Ht i t Et) as (t2 & Et2 & (_ & Ec & _ & _ & _ & _ & Hr)).
  rewrite Et' in Et2. injection Et2 as <-. destruct (H i t Et) as [Hrt Hct].
  split; [by apply Hr, TimersSpec.tick_flags_regs|]. rewrite Ec.
  unfold TimersSpec.tick_flags. by case_match.
Qed.

(** ** The display *)

Lemma tick_ppu_safe cycles ic p : PpuTimingSpec.wf p -> fits 32 cycles -> Interrupts.wf ic ->
  exists p' ic' events, PpuTiming.tick cycles ic p = Some (p', ic', events) /\
    PpuTimingSpec.wf p' /\ Interrupts.wf ic' /\
    PpuTiming.dispstat_control_ p' = PpuTiming.dispstat_control_ p /\
    PpuTiming.lcd_control_ p' = PpuTiming.lcd_control_ p.
Proof.
  intros Hp Hc Hic. unfold PpuTiming.tick.
  rewrite PpuTimingSpec.tick_loop_reference by (done || unfold fits in *; lia).
  generalize (Z.to_nat cycles). intros n.
  assert (G : forall st, PpuTimingSpec.wf st.1.1 -> Interrupts.wf st.1.2 ->
    let st' := PpuTimingSpec.tick_cycles n st in
    PpuTimingSpec.wf st'.1.1 /\ Interrupts.wf st'.1.2 /\
    PpuTiming.dispstat_control_ st'.1.1 = PpuTiming.dispstat_control_ st.1.1 /\
    PpuTiming.lcd_control_ st'.1.1 = PpuTiming.lcd_control_ st.1.1).
  { induction n as [|n IH]; intros st H1 H2; [done|]. cbn [PpuTimingSpec.tick_cycles].
    destruct (PpuTimingSpec.tick_cycle_position st H1) as (W & _ & D & L).
    destruct (IH (PpuTimingSpec.tick_cycle st)) as (W' & I' & D' & L'); [done| |].
    - destruct st as [[q jc] ev]. cbn [PpuTimingSpec.tick_cycle fst snd] in *.
      unfold PpuTiming.line_events, PpuTiming.enter_hblank, PpuTiming.enter_next_line.
      cbn [fst snd]. repeat case_match; simplify_eq; cbn [fst snd];
        repeat first [apply request_wf|done|case_match].
    - split_and!; [done|done|by rewrite D'|by rewrite L']. }
  destruct (G (p, ic, PpuTiming.mkPpuTickEvents 0 0 0) Hp Hic) as (W & I & D & L).
  destruct (PpuTimingSpec.tick_cycles n _) as [[p' ic'] ev]. by exists p', ic', ev.
Qed.

(** ** All devices *)

Record devices_wf (d : Devices) : Prop := mk_devices_wf {
  dv_interrupts : Interrupts.wf (interrupts d);
  dv_timers : timers_safe (timers_ d);
  dv_dma : DmaSpec.wf (dma d);
  dv_ppu : PpuTimingSpec.wf (ppu d);
  dv_lcd : PpuTimingSpec.lcd_ok (ppu d);
  dv_dispstat : fits 16 (PpuTiming.dispstat_control_ (ppu d));
  dv_apu : ApuSpec.wf (apu d);
  dv_apu_typed : apu_typed (apu d);
  dv_keypad : Keypad.wf (keypad d);
  dv_keycnt : Z.land (keycnt (keypad d))
                (Z.lor (Z.lor kButtonMask kIrqEnable) kIrqConditionAnd) = keycnt (keypad d);
  dv_waitcnt : Z.land (WaitState.control (waitcnt d)) WaitState.kWritableMask =
               WaitState.control (waitcnt d);
  dv_serial : length (serial d) = 7%nat /\ Forall (fits 16) (serial d);
  dv_sio : fits 32 (sio_transfer_cycles_remaining d)
}.

(** Updates of one device. *)
Lemma wf_interrupts ic d : devices_wf d -> Interrupts.wf ic -> devices_wf (d <| interrupts := ic |>).
Proof. intros [] H. by constructor. Qed.

Lemma wf_request source d : devices_wf d ->
  devices_wf (d <| interrupts ::= Interrupts.request source |>).
Proof. intros []. constructor; try done. by apply request_wf. Qed.

Lemma wf_timers t d : devices_wf d -> timers_safe t -> devices_wf (d <| timers_ := t |>).
Proof. intros [] H. by constructor. Qed.

Lemma wf_dma c d : devices_wf d -> DmaSpec.wf c -> devices_wf (d <| dma := c |>).
Proof. intros [] H. by constructor. Qed.

Lemma wf_ppu p d : devices_wf d -> PpuTimingSpec.wf p -> PpuTimingSpec.lcd_ok p ->
  fits 16 (PpuTiming.dispstat_control_ p) -> devices_wf (d <| ppu := p |>).
Proof. intros [] H1 H2 H3. by constructor. Qed.

Lemma wf_apu p d : devices_wf d -> ApuSpec.wf p -> apu_typed p -> devices_wf (d <| apu := p |>).
Proof. intros [] H1 H2. by constructor. Qed.

(** ** Address decoding *)

Lemma bank_bounds base stride n address i offset :
  0 < stride -> 0 <= n ->
  (if (address <? base) || (base + stride * n <=? address) then None
   else Some (Z.to_nat ((address - base) / stride), (address - base) mod stride)) = Some (i, offset) ->
  (Z.of_nat i < n) /\ 0 <= offset < stride.
Proof.
  intros Hs Hn. destruct (Z.ltb_spec address base); [done|].
  destruct (Z.leb_spec (base + stride * n) address); [done|]. intros [= <- <-].
  split; [|by apply Z.mod_pos_bound]. rewrite Z2Nat.id by (apply Z.div_pos; lia).
  apply Z.div_lt_upper_bound; lia.
Qed.

Lemma dma_index_bounds address i offset :
  dma_index address = Some (i, offset) -> (i < kChannelCount)%nat.
Proof.
  intros H. apply (bank_bounds kDmaBase 12 4) in H as [H _]; [|done|done].
  unfold kChannelCount. lia.
Qed.

Lemma timer_index_bounds address i offset :
  timer_index address = Some (i, offset) -> (i < Timers.kTimerCount)%nat.
Proof.
  intros H. apply (bank_bounds kTimerBase 4 4) in H as [H _]; [|done|done].
  unfold Timers.kTimerCount. lia.
Qed.

Lemma index_of_bounds address l i : index_of address l = Some i -> (i < length l)%nat.
Proof.
  revert i. induction l as [|a l IH]; intros i; cbn; [done|].
  destruct (address =? a); [intros [= <-]; lia|].
  destruct (index_of address l) as [j|]; [|done]. intros [= <-]. specialize (IH j eq_refl). lia.
Qed.

Lemma serial_index_bounds address i : serial_index address = Some i -> (i < 7)%nat.
Proof. apply index_of_bounds. Qed.

Lemma wave_ram_index_bounds address i : wave_ram_index address = Some i -> (i < kWaveRamHalfwords)%nat.
Proof.
  unfold wave_ram_index. destruct (Z.ltb_spec address 0x04000090); [done|].
  destruct (Z.ltb_spec 0x0400009E address); [done|]. cbn [orb]. case_match; [done|].
  intros [= <-]. unfold kWaveRamHalfwords.
  assert ((address - 0x04000090) / 2 <= 7) by (apply Z.div_le_upper_bound; lia).
  assert (0 <= (address - 0x04000090) / 2) by (apply Z.div_pos; lia). lia.
Qed.

(** ** Reads *)

(** An optional value of a width. *)
Definition opt_fits (w : Z) (o : option Z) : Prop := forall v, o = Some v -> fits w v.

Lemma opt_fits_Some w v : fits w v -> opt_fits w (Some v).
Proof. by intros H ? [= <-]. Qed.

Lemma opt_fits_None w : opt_fits w None.
Proof. done. Qed.

#[local] Hint Resolve opt_fits_Some opt_fits_None : core.

Section Reads.
Context (d : Devices) (H : devices_wf d).

Lemma u16_lor_fits (b : bool) v m : fits 16 v -> fits 16 (if b then u16 (Z.lor v m) else v).
Proof using Type. intros Hv. case_match; [apply wrap_fits; lia|done]. Qed.

Lemma dispstat_fits : fits 16 (PpuTiming.dispstat (ppu d)).
Proof using H. unfold PpuTiming.dispstat. cbv zeta. repeat apply u16_lor_fits. apply H. Qed.

Lemma vcount_fits : fits 16 (PpuTiming.vcount (ppu d)).
Proof using H.
  destruct (dv_ppu d H) as [Hl _]. unfold PpuTiming.vcount, fits.
  unfold PpuTiming.kTotalLines, PpuTiming.kVisibleLines, PpuTiming.kVblankLines in Hl. lia.
Qed.

Lemma soundcnt_x_fits : fits 16 (Apu.soundcnt_x (apu d)).
Proof using H. unfold Apu.soundcnt_x. cbv zeta. repeat apply u16_lor_fits. apply H. Qed.

Lemma waitcnt_fits : fits 16 (WaitState.control (waitcnt d)).
Proof using H. rewrite <- (dv_waitcnt d H). apply fits_land_r; [lia|by vm_compute]. Qed.

Lemma read_named_fits address : opt_fits 16 (read_named address d).
Proof using H.
  pose proof dispstat_fits. pose proof vcount_fits. pose proof soundcnt_x_fits.
  pose proof waitcnt_fits. destruct (dv_interrupts d H) as [He Hf].
  destruct (dv_apu_typed d H). destruct (dv_keypad d H) as [_ Hk].
  apply (fits_mono _ 16) in He, Hf; [|lia..].
  assert (fits 16 (Keypad.keyinput (keypad d))) by (apply wrap_fits; lia).
  assert (fits 16 (Interrupts.ime (interrupts d))) by (unfold Interrupts.ime; by case_match).
  unfold read_named.
  repeat match goal with |- opt_fits 16 (match ?x with _ => _ end) => destruct x end;
    first [apply opt_fits_None|apply opt_fits_Some; first [assumption|by vm_compute]].
Qed.

Lemma read_lcd_fits address :
  ensures (opt_fits 16) (PpuTiming.read_lcd_control address (ppu d)).
Proof using H.
  unfold PpuTiming.read_lcd_control. case_match eqn:E; [by apply ensures_ret|].
  apply orb_false_iff in E as [E _]. apply negb_false_iff in E.
  destruct (PpuTimingSpec.lcd_address_spec _ E) as (k & _ & Hk & ->).
  destruct (array_at_lt (PpuTiming.lcd_control_ (ppu d)) k) as (v & _ & ->).
  { by rewrite (proj1 (dv_lcd d H)). }
  apply ensures_ret, opt_fits_Some, wrap_fits. lia.
Qed.

Lemma read_timer_fits i offset : (i < Timers.kTimerCount)%nat ->
  ensures (opt_fits 16) (read_timer i offset d).
Proof using H.
  intros Hi. destruct (timers_safe_lookup i _ (dv_timers d H) Hi) as (t & E & (Hc & _) & [Hm _]).
  unfold read_timer, Timers.counter_at, Timers.control_at. rewrite E.
  repeat case_match; apply ensures_ret; auto. apply opt_fits_Some.
  rewrite <- Hm. apply fits_land_r; [lia|by vm_compute].
Qed.

Lemma serial_lookup i : (i < 7)%nat -> exists v, serial_at i d = Ret v /\ fits 16 v.
Proof using H.
  intros Hi. destruct (dv_serial d H) as [Hl Hf].
  destruct (array_at_lt (serial d) i) as (v & Ev & E); [by rewrite Hl|].
  exists v. split; [done|]. by eapply Forall_lookup_1.
Qed.

Lemma read_serial_fits address i : (i < 7)%nat -> ensures (opt_fits 16) (read_serial address i d).
Proof using H.
  intros Hi. destruct (serial_lookup i Hi) as (v & Ev & Hv).
  destruct (serial_lookup 4 ltac:(lia)) as (c & Ec & Hc).
  unfold read_serial. rewrite Ev, Ec. apply ensures_ret, opt_fits_Some.
  case_match; [by apply wrap_fits|]. case_match.
  - unfold read_rcnt. repeat case_match; by vm_compute.
  - unfold read_serial_data. repeat case_match; done.
Qed.

Lemma read_wave_fits i : (i < kWaveRamHalfwords)%nat ->
  exists v, Apu.wave_ram i (apu d) = Ret v /\ fits 16 v.
Proof using H.
  intros Hi. destruct (dv_apu d H). unfold Apu.wave_ram. rewrite (proj2 (Nat.leb_gt _ _)) by done.
  set (bank := if wave_bank_select_ (apu d) then _ else _).
  assert (Hb : ApuSpec.bank_ok bank) by (subst bank; by case_match).
  destruct Hb as [Hl Hf]. destruct (array_at_lt bank i) as (v & Ev & E); [by rewrite Hl|].
  exists v. split; [done|]. by eapply Forall_lookup_1.
Qed.

Lemma read_dma_fits i offset : (i < kChannelCount)%nat ->
  ensures (opt_fits 16) (read_dma i offset d).
Proof using H.
  intros Hi. destruct (DmaSpec.wf_lookup (dma d) i (dv_dma d H) Hi) as (c & E & _ & Hc).
  unfold read_dma, Dma.control. rewrite E.
  repeat case_match; apply ensures_ret; first [apply opt_fits_None|apply opt_fits_Some];
    first [by vm_compute|apply Hc].
Qed.

Lemma read_banks_fits address : ensures (opt_fits 16) (read_banks address d).
Proof using H.
  unfold read_banks. apply (ensures_bind _ _ _ _ (read_lcd_fits address)). intros [v|] Hv.
  { by apply ensures_ret. }
  destruct (timer_index address) as [[i offset]|] eqn:Et.
  { by eapply read_timer_fits, timer_index_bounds. }
  destruct (serial_index address) as [i|] eqn:Es.
  { by apply read_serial_fits, (serial_index_bounds address). }
  case_match; [apply ensures_ret, opt_fits_Some; by case_match|].
  destruct (wave_ram_index address) as [i|] eqn:Ew.
  { destruct (read_wave_fits i (wave_ram_index_bounds _ _ Ew)) as (v & -> & Hv').
    by apply ensures_ret, opt_fits_Some. }
  destruct (dma_index address) as [[i offset]|] eqn:Ed.
  { by eapply read_dma_fits, dma_index_bounds. }
  by apply ensures_ret.
Qed.

Lemma read16_wf address : ensures (opt_fits 16) (read16 address d).
Proof using H.
  unfold read16. case_match; [by apply ensures_ret|].
  pose proof (read_named_fits address) as Hn. destruct (read_named address d) as [v|].
  { by apply ensures_ret. }
  destruct (zero_read_hole address) as [z|] eqn:Ez; [|apply read_banks_fits].
  apply ensures_ret, opt_fits_Some. unfold zero_read_hole in Ez.
  assert (z = 0) as -> by (clear -Ez; repeat case_match; congruence). by vm_compute.
Qed.

Lemma read32_wf address : ensures (opt_fits 32) (read32 address d).
Proof using H.
  assert (Hup : forall o, opt_fits 16 o -> opt_fits 32 o).
  { intros o Ho v E. apply (fits_mono 16); [lia|by apply Ho]. }
  unfold read32. case_match; [by apply ensures_ret|].
  case_match; [by eapply ensures_weaken; [apply read16_wf|]|].
  apply (ensures_bind _ _ _ _ (read16_wf address)). intros low Hlow.
  apply (ensures_bind _ _ _ _ (read16_wf _)). intros high Hhigh.
  apply ensures_ret. destruct low as [l|], high as [h|]; auto. apply opt_fits_Some.
  unfold combine16. apply fits_lor; [lia| |apply wrap_fits; lia].
  apply (fits_mono 16); [lia|by apply Hlow].
Qed.
End Reads.

(** ** Writes *)

Notation keeps := (ensures (fun r : bool * Devices => devices_wf r.2)).

Section Writes.
Context (d : Devices) (H : devices_wf d).

Lemma write_dispstat_wf v : devices_wf (write_dispstat v d).
Proof using H.
  unfold write_dispstat, PpuTiming.recheck_vcount_match. cbv zeta.
  set (p := PpuTiming.write_dispstat v (ppu d)).
  assert (Hp : devices_wf (d <| ppu := p |>)).
  { apply wf_ppu; [done|apply H|apply H|]. apply wrap_fits. lia. }
  case_match; [by apply wf_request|done].
Qed.

Lemma wf_write_keycnt v : devices_wf (write_keycnt v d).
Proof using H.
  assert (Hk : devices_wf (d <| keypad ::= Keypad.write_keycnt v |>)).
  { destruct H. constructor; try done; cbn.
    - split; [apply dv_keypad0|]. apply wrap_fits. lia.
    - set (m := Z.lor _ _). rewrite wrap_id by (apply fits_land_r; [lia|by vm_compute]).
      by rewrite <- Z.land_assoc, Z.land_diag. }
  unfold write_keycnt. cbv zeta. apply wf_interrupts; [done|].
  unfold Keypad.poll_interrupt. case_match; [apply request_wf|]; apply Hk.
Qed.

Lemma write_named_wf address v r : write_named address v d = Some r -> devices_wf r.2.
Proof using H.
  assert (H1 : devices_wf (write_dispstat v d)) by apply write_dispstat_wf.
  assert (H2 : devices_wf (write_keycnt v d)) by apply wf_write_keycnt.
  destruct (dv_interrupts d H) as [He Hf]. pose proof (dv_apu d H) as Ha.
  pose proof (dv_apu_typed d H) as Ht.
  assert (HA : forall op p, ApuSpec.run_op op (apu d) = Ret p -> ApuSpec.op_typed op ->
    apu_typed p -> devices_wf (d <| apu := p |>)).
  { intros op p E T Hp. apply wf_apu; [done| |done]. by eapply run_op_keeps. }
  assert (H3 := HA (ApuSpec.op_soundcnt_l v) _ eq_refl I (write_soundcnt_l_typed v _ Ht)).
  assert (H4 := HA (ApuSpec.op_soundcnt_h v) _ eq_refl I (write_soundcnt_h_typed v _ Ht)).
  assert (H5 := HA (ApuSpec.op_soundcnt_x v) _ eq_refl I (write_soundcnt_x_typed v _ Ht)).
  assert (H6 := HA (ApuSpec.op_soundbias v) _ eq_refl I (write_soundbias_typed v _ Ht)).
  assert (HI : forall ic, Interrupts.wf ic -> devices_wf (d <| interrupts := ic |>)).
  { intros ic Hic. by apply wf_interrupts. }
  assert (H7 := HI _ (write_interrupt_enable_wf v _ (dv_interrupts d H))).
  assert (H8 := HI _ (write_interrupt_flags_wf v _ (dv_interrupts d H))).
  assert (H9 := HI (write_ime v (interrupts d)) (conj He Hf)).
  assert (H10 : devices_wf (d <| waitcnt ::= WaitState.write_control v |>)).
  { destruct H. constructor; try done. cbn. by rewrite <- Z.land_assoc, Z.land_diag. }
  unfold write_named.
  repeat match goal with |- match ?x with _ => _ end = _ -> _ => destruct x end;
    intros E; first [discriminate E|injection E as <-; first [exact H|assumption]].
Qed.

Lemma write_lcd_wf address v :
  ensures (fun r => devices_wf (d <| ppu := r.2 |>)) (PpuTiming.write_lcd_control address v (ppu d)).
Proof using H.
  destruct (dv_lcd d H) as [Hl Hf]. unfold PpuTiming.write_lcd_control. case_match eqn:E.
  { apply ensures_ret. destruct H. by constructor. }
  apply negb_false_iff in E. destruct (PpuTimingSpec.lcd_address_spec _ E) as (k & _ & Hk & ->).
  rewrite array_put_lt by (by rewrite Hl). apply ensures_ret. cbn [snd].
  apply wf_ppu; [done|apply H|split; cbn|apply H].
  - by rewrite length_insert.
  - apply Forall_insert; [done|]. apply wrap_fits. lia.
Qed.

Lemma write_timer_wf i offset v : (i < Timers.kTimerCount)%nat -> fits 16 v ->
  keeps (write_timer i offset v d).
Proof using H.
  intros Hi Hv. unfold write_timer. case_match; [|case_match; [|by apply ensures_ret]].
  - apply (ensures_bind _ _ _ _ (write_reload_safe i v _ (dv_timers d H) Hi Hv)).
    intros t Ht. by apply ensures_ret, wf_timers.
  - apply (ensures_bind _ _ _ _ (write_control_safe i v _ (dv_timers d H) Hi)).
    intros t Ht. by apply ensures_ret, wf_timers.
Qed.

Lemma serial_transfer_fits v : fits 32 (default 0 (serial_transfer_cycles v)).
Proof using Type.
  unfold serial_transfer_cycles. case_match; [by vm_compute|]. cbv zeta.
  repeat case_match; by vm_compute.
Qed.

Lemma write_serial_wf address i v : (i < 7)%nat -> fits 16 v -> keeps (write_serial address i v d).
Proof using H.
  intros Hi Hv. destruct (dv_serial d H) as [Hl Hf]. unfold write_serial.
  rewrite array_put_lt by (by rewrite Hl). apply ensures_ret.
  assert (Hs : length (<[i := v]> (serial d)) = 7%nat /\ Forall (fits 16) (<[i := v]> (serial d))).
  { split; [by rewrite length_insert|]. by apply Forall_insert. }
  cbn [snd]. pose proof (serial_transfer_fits v). destruct H.
  case_match; by constructor.
Qed.

Lemma word_replaced_fits cur v : fits 32 cur -> fits 16 v ->
  fits 32 (replace_low16 cur v) /\ fits 32 (replace_high16 cur v).
Proof using Type.
  intros Hc Hv. split; (apply fits_lor; [lia| |]).
  - apply fits_land_l; [lia|done].
  - by apply (fits_mono 16); [lia|].
  - apply fits_land_l; [lia|done].
  - apply wrap_fits. lia.
Qed.

Lemma write_dma_wf i offset v : (i < kChannelCount)%nat -> fits 16 v -> keeps (write_dma i offset v d).
Proof using H.
  intros Hi Hv. pose proof (dv_dma d H) as Hd.
  destruct (DmaSpec.wf_lookup (dma d) i Hd Hi) as (c & E & _ & Hc).
  assert (W : forall m, (exists c', m = Ret c' /\ DmaSpec.wf c') ->
    keeps (c' ← m; Ret (true, d <| dma := c' |>))).
  { intros m (c' & -> & Hc'). by apply ensures_ret, wf_dma. }
  destruct (word_replaced_fits (source_ c) v (DmaSpec.cw_source _ _ Hc) Hv) as [S1 S2].
  destruct (word_replaced_fits (destination_ c) v (DmaSpec.cw_destination _ _ Hc) Hv) as [D1 D2].
  unfold write_dma, Dma.source, Dma.destination. rewrite E. cbn [mbind exc_bind].
  repeat case_match; try (by apply ensures_ret); apply W.
  all: first [by apply DmaSpec.write_channel_control_wf|by apply DmaSpec.write_word_count_wf|
    by apply DmaSpec.write_source_wf|by apply DmaSpec.write_destination_wf].
Qed.

Lemma write_banks_wf address v : fits 16 v -> keeps (write_banks address v d).
Proof using H.
  intros Hv. unfold write_banks. apply (ensures_bind _ _ _ _ (write_lcd_wf address v)).
  intros [lcd p] Hp. cbn [snd] in Hp. destruct lcd; [by apply ensures_ret|].
  destruct (timer_index address) as [[i offset]|] eqn:Et.
  { by eapply write_timer_wf; [eapply timer_index_bounds|]. }
  destruct (serial_index address) as [i|] eqn:Es.
  { by apply write_serial_wf; [eapply serial_index_bounds|]. }
  case_match; [by apply ensures_ret|].
  destruct (wave_ram_index address) as [i|] eqn:Ew.
  { destruct (ApuSpec.write_wave_ram_ret i v (apu d) (dv_apu d H)
      (wave_ram_index_bounds _ _ Ew) Hv) as (a & Ea & Ha). rewrite Ea.
    apply ensures_ret, wf_apu; [done..|]. eapply write_wave_ram_typed; [exact Ea|apply H]. }
  destruct (dma_index address) as [[i offset]|] eqn:Ed.
  { by eapply write_dma_wf; [eapply dma_index_bounds|]. }
  by apply ensures_ret.
Qed.

(** A halfword write of a halfword never throws and keeps the invariant. *)
Lemma write16_wf address v : fits 16 v -> keeps (write16 address v d).
Proof using H.
  intros Hv. unfold write16. case_match; [by apply ensures_ret|].
  destruct (write_named address v d) as [r|] eqn:E; [|by apply write_banks_wf].
  apply ensures_ret. by eapply write_named_wf.
Qed.

Lemma write_fifo_wf channel v :
  ensures (fun a => devices_wf (d <| apu := a |>)) (Apu.write_fifo channel v (apu d)).
Proof using H.
  destruct (ApuSpec.write_fifo_ret channel v (apu d) (dv_apu d H)) as (a & E & Ha).
  exists a. split; [done|]. apply wf_apu; [done..|]. eapply write_fifo_typed; [exact E|apply H].
Qed.
End Writes.

Lemma write32_wf address v d : devices_wf d -> fits 32 v -> keeps (write32 address v d).
Proof.
  intros H Hv. assert (Hlow : fits 16 (low16 v)) by (apply wrap_fits; lia).
  assert (Hhigh : fits 16 (high16 v)) by (apply wrap_fits; lia).
  unfold write32. case_match; [by apply ensures_ret|].
  case_match; [by apply write16_wf|]. case_match; [by apply write16_wf|].
  case_match; [|case_match].
  - apply (ensures_bind _ _ _ _ (write_fifo_wf d H DirectSoundChannel.a v)). intros a Ha.
    by apply ensures_ret.
  - apply (ensures_bind _ _ _ _ (write_fifo_wf d H DirectSoundChannel.b v)). intros a Ha.
    by apply ensures_ret.
  - eapply (ensures_bind (fun r : bool * Devices => devices_wf r.2)).
    { case_match; [by apply write16_wf|by apply ensures_ret]. }
    intros [handled d1] Hd1. cbn [snd] in Hd1. case_match; [|by apply ensures_ret].
    apply (ensures_bind _ _ _ _ (write16_wf d1 Hd1 _ _ Hhigh)). intros [h d2] Hd2.
    by apply ensures_ret.
Qed.

(** ** The wiring of the bus *)

#[export] Instance device_laws : DeviceLaws io_callbacks devices_wf.
Proof.
  split.
  - intros f d a v [= <-] H E. destruct (read16_wf d H a) as (o & Eo & Ho).
    rewrite Eo in E. by apply Ho.
  - intros f d a v [= <-] H E. destruct (read32_wf d H a) as (o & Eo & Ho).
    rewrite Eo in E. by apply Ho.
  - intros f a v d [= <-] Hv H. destruct (write16_wf d H a v Hv) as (r & -> & Hr). exact Hr.
  - intros f a v d [= <-] Hv H. destruct (write32_wf a v d H Hv) as (r & -> & Hr). exact Hr.
Qed.

(** ** The serial transfer *)

Lemma io_tick_wf cycles d : devices_wf d -> 0 <= cycles -> ensures devices_wf (tick cycles d).
Proof.
  intros H Hc. unfold tick. case_match; [by apply ensures_ret|].
  destruct (Z.ltb_spec cycles (sio_transfer_cycles_remaining d)).
  - apply ensures_ret. destruct H. constructor; try done. cbn. unfold fits in *. lia.
  - set (d1 := set_field sio_transfer_cycles_remaining _ _).
    assert (Hd1 : devices_wf d1) by (destruct H; by constructor).
    destruct (serial_lookup d1 Hd1 4 ltac:(lia)) as (v & -> & _). apply ensures_ret.
    case_match; [by apply wf_request|done].
Qed.

(** The devices as their constructors leave them. *)
Lemma reset_devices_wf :
  devices_wf (mkDevices Interrupts.reset Timers.reset Dma.reset PpuTiming.reset Apu.reset
                WaitState.reset Keypad.reset (replicate 7 0) false 0).
Proof.
  constructor; cbn [interrupts timers_ dma ppu apu keypad waitcnt serial
    sio_transfer_cycles_remaining].
  - by vm_compute.
  - exact (timers_wf_safe _ TimersSpec.timers_reset_wf).
  - exact DmaSpec.dma_reset_wf.
  - by vm_compute.
  - exact PpuTimingSpec.reset_lcd_ok.
  - by vm_compute.
  - exact ApuSpec.apu_reset_wf.
  - exact apu_reset_typed.
  - by vm_compute.
  - by vm_compute.
  - by vm_compute.
  - split; [done|by repeat constructor].
  - by vm_compute.
Qed.

(** C6: no IO access throws.  On well-formed devices every halfword and word
    read, at any address, returns nothing or a value of its width, and every
    write of a value of its width returns and leaves the devices well formed:
    each index into a register bank, a timer, a channel or wave RAM is in
    range, and each device's invariant is kept. *)
Theorem io_access_total (address v : Z) (d : Devices) :
  devices_wf d ->
  ensures (opt_fits 16) (read16 address d) /\ ensures (opt_fits 32) (read32 address d) /\
  (fits 16 v -> ensures (fun r => devices_wf r.2) (write16 address v d)) /\
  (fits 32 v -> ensures (fun r => devices_wf r.2) (write32 address v d)).
Proof.
  intros H. split; [by apply read16_wf|]. split; [by apply read32_wf|].
  split; intros Hv; [by apply write16_wf|by apply write32_wf].
Qed.

Lemma io_access_total_witness :
  let d := mkDevices Interrupts.reset Timers.reset Dma.reset PpuTiming.reset Apu.reset
             WaitState.reset Keypad.reset (replicate 7 0) false 0 in
  ensures (fun r => devices_wf r.2) (write32 0x040000B8 0xB6000004 d) /\
  ensures (opt_fits 16) (read16 0x040000BA d).
Proof.
  intros d. split; [|exact (proj1 (io_access_total 0x040000BA 0 d reset_devices_wf))].
  apply (io_access_total 0x040000B8 0xB6000004 d reset_devices_wf). by vm_compute.
Defined.
