(* ===== verification/DmaTransferSpec.v ===== *)
(** * The DMA controller: safety of the transfers

    A transfer runs over the whole machine, and may rewrite the registers of
    the very channel it serves.  Whatever it copies where, it ends, it does not
    throw, and it keeps the invariants of the bus and of all devices. *)

From S2P Require Import Prelude StateHash Interrupts Keypad BusTypes WaitState.
From S2P Require Import MemoryBus Apu Dma IoRegisters DmaTransfer DmaSpec BusInterface.
From S2P Require BusSafety ApuSpec.
From S2P Require Import ApuTyped IoRegistersSpec.

Definition machine_ok (m : Machine) : Prop := bus_ok devices_wf m.

#[export] Instance machine_memory : MemoryInterface io_callbacks machine_ok :=
  memory_bus_interface io_callbacks devices_wf.

Lemma duplicate_fits v : fits 16 v -> fits 32 (duplicate_halfword v).
Proof.
  intros Hv. apply fits_lor; [lia| |apply wrap_fits; lia]. by apply (fits_mono 16); [lia|].
Qed.

Lemma step_address_fits a control n : fits 32 a -> fits 32 (step_address a control n).
Proof. intros Ha. destruct control; [| |done|]; apply wrap_fits; lia. Qed.

(** The counters of a result have their widths. *)
Definition result_ok (r : DmaRunResult) : Prop :=
  fits 8 (channels_executed r) /\ fits 32 (units_transferred r) /\ fits 32 (bus_cycles r).

Lemma adjustment_fits c a : fits 32 c -> fits 32 (apply_dma_bus_adjustment c a).
Proof.
  intros Hc. unfold apply_dma_bus_adjustment. destruct (Z.leb_spec 0 a); [apply wrap_fits; lia|].
  unfold fits in *. cbv zeta. case_match; lia.
Qed.

(** ** Channels of the machine *)

Section Channel.
Context (i : nat) (Hi : (i < kChannelCount)%nat).

Lemma channel_of_wf m : machine_ok m ->
  ensures (channel_wf i) (channel_of i m).
Proof using Hi.
  intros [_ H]. destruct (wf_lookup (dma m.2) i (dv_dma _ H) Hi) as (c & E & _ & Hc).
  by exists c.
Qed.

Lemma on_channel_wf f m : machine_ok m -> (forall c, channel_wf i c -> channel_wf i (f c)) ->
  ensures machine_ok (on_channel i f m).
Proof using Hi.
  intros H Hf. unfold on_channel. apply (ensures_bind _ _ _ _ (channel_of_wf m H)).
  intros c Hc. apply ensures_ret. destruct H as [Hb Hd]. split; [done|].
  apply (wf_dma (update_channel i (f c) (dma m.2))); [done|].
  apply wf_put_channel; [apply Hd|by apply Hf].
Qed.

Lemma request_ok source m : machine_ok m ->
  machine_ok (m.1, m.2 <| interrupts ::= Interrupts.request source |>).
Proof using Type. intros [Hb Hd]. split; [done|]. by apply wf_request. Qed.

Lemma completion_irq_wf m : machine_ok m -> ensures machine_ok (completion_irq i m).
Proof using Hi.
  intros H. unfold completion_irq. apply (ensures_bind _ _ _ _ (channel_of_wf m H)).
  intros c _. apply ensures_ret. case_match; [|done]. case_match; [|done]. by apply request_ok.
Qed.

Lemma drive_if_ok b v m : machine_ok m -> fits 32 v -> machine_ok (drive_if b v m).
Proof using Type.
  intros [Hb Hd] Hv. unfold drive_if. case_match; [|done]. split; [|done].
  destruct Hb as [? ? ? ? ? ? ? (? & ? & _)]. by constructor.
Qed.

Lemma latch_wf v c : fits 32 v -> channel_wf i c -> channel_wf i (c <| data_latch := v |>).
Proof using Type. intros Hv []. by constructor. Qed.

(** ** Units *)

Lemma transfer_word_wf from to b m : machine_ok m ->
  ensures machine_ok (transfer_word i from to b m).
Proof using Hi.
  intros H. unfold transfer_word. apply (ensures_bind _ _ _ _ (channel_of_wf m H)).
  intros c Hc. cbv zeta. set (read := if dma_source_uses_latch from then _ else _).
  assert (Hv : fits 32 (default (data_latch c) read)).
  { subst read. case_match; [apply Hc|]. destruct (MemoryBus.read32 io_callbacks from m) eqn:E; [|apply Hc].
    by eapply mi_read32. }
  set (v := default _ read) in *. clearbody v. clear read.
  assert (Hl := on_channel_wf (fun c => c <| data_latch := v |>) m H (fun c => latch_wf v c Hv)).
  apply (ensures_bind _ _ _ _ Hl). intros m1 H1.
  assert (Hw : machine_ok (MemoryBus.write32 io_callbacks to v (drive_if b v m1)).2).
  { apply (mi_write32 to v); [done|]. by apply drive_if_ok. }
  destruct (MemoryBus.write32 _ _ _ _) as [ok m2]. by apply ensures_ret.
Qed.

Lemma transfer_halfword_wf from to b m : machine_ok m ->
  ensures machine_ok (transfer_halfword i from to b m).
Proof using Hi.
  intros H. unfold transfer_halfword. apply (ensures_bind _ _ _ _ (channel_of_wf m H)).
  intros c Hc. cbv zeta. set (read := if dma_source_uses_latch from then _ else _).
  assert (Hr : forall v, read = Some v -> fits 16 v).
  { subst read. intros v. case_match; [done|]. intros E. by eapply mi_read16. }
  assert (Hv : fits 16 (default (u16 (Z.land (data_latch c) 0xFFFF)) read)).
  { destruct read; [by apply Hr|]. apply wrap_fits. lia. }
  set (v := default _ read) in *. clearbody v.
  assert (Hl : ensures machine_ok
    (match read with
     | Some _ => on_channel i (fun c => c <| data_latch := duplicate_halfword v |>) m
     | None => Ret m end)).
  { destruct read; [|by apply ensures_ret]. apply on_channel_wf; [done|]. intros c' Hc'.
    apply latch_wf; [by apply duplicate_fits|done]. }
  apply (ensures_bind _ _ _ _ Hl). intros m1 H1.
  assert (Hw : machine_ok
    (MemoryBus.write16 io_callbacks to v (drive_if b (duplicate_halfword v) m1)).2).
  { apply (mi_write16 to v); [done|]. apply drive_if_ok; [done|by apply duplicate_fits]. }
  destruct (MemoryBus.write16 _ _ _ _) as [ok m2]. by apply ensures_ret.
Qed.

Definition cursor_ok (cur : Cursor) : Prop :=
  fits 32 (source_address cur) /\ fits 32 (destination_address cur) /\ fits 32 (cycles cur).

Lemma transfer_unit_wf w word b unit cur m : machine_ok m -> cursor_ok cur ->
  ensures (fun r => cursor_ok r.1 /\ machine_ok r.2) (transfer_unit i w word b unit cur m).
Proof using Hi.
  intros H (Hs & Hd & _). unfold transfer_unit. cbv zeta.
  apply (ensures_bind _ _ _ _ (channel_of_wf m H)). intros c Hc.
  eapply (ensures_bind machine_ok).
  { case_match; [by apply transfer_word_wf|by apply transfer_halfword_wf]. }
  intros m1 H1. apply (ensures_bind _ _ _ _ (channel_of_wf m1 H1)). intros c1 Hc1.
  apply ensures_ret. split; [|done].
  split_and!; [by apply step_address_fits..|apply wrap_fits; lia].
Qed.

(** A count never exceeds 0x10000, so the loop ends whatever it writes. *)
Lemma transfer_loop_wf w word b fuel unit cur m :
  machine_ok m -> cursor_ok cur -> 0 <= unit -> 0x10000 < unit + Z.of_nat fuel ->
  ensures (fun r => cursor_ok r.1 /\ machine_ok r.2) (transfer_loop fuel i w word b unit cur m).
Proof using Hi.
  revert unit cur m. induction fuel as [|fuel IH]; intros unit cur m H Hc Hu Hf;
    cbn [transfer_loop]; apply (ensures_bind _ _ _ _ (channel_of_wf m H)); intros c Hch;
    (destruct (Z.ltb_spec unit (current_count c)); [|by apply ensures_ret]).
  - pose proof (cw_count _ _ Hch). pose proof (count_mask_bound i). lia.
  - apply (ensures_bind _ _ _ _ (transfer_unit_wf w word b unit cur m H Hc)).
    intros [cur1 m1] [Hc1 H1]. apply IH; [done..|lia|lia].
Qed.

(** ** Channels *)

Lemma rearm_wf c : channel_wf i c -> channel_wf i (rearm i c).
Proof using Hi.
  intros Hc. pose proof (normalized_bound i c). unfold rearm. case_match.
  - cbv zeta. destruct Hc. case_match; by constructor.
  - destruct Hc. constructor; try done; cbn [control_ set_field].
    + apply wrap_fits. lia.
    + change (has (u16 (Z.land (control_ c) (Z.lnot kEnableFlag))) (Z.lnot (control_mask i)) = false).
      rewrite wrap_id by (apply fits_land_l; [lia|done]). unfold has in *.
      apply negb_false_iff, Z.eqb_eq in cw_mask. apply negb_false_iff, Z.eqb_eq.
      by rewrite <- Z.land_assoc, (Z.land_comm (Z.lnot _)), Z.land_assoc, cw_mask.
Qed.

Lemma execute_channel_wf w b result m : machine_ok m -> result_ok result ->
  ensures (fun r => result_ok r.1.2 /\ machine_ok r.2) (execute_channel i w b result m).
Proof using Hi.
  intros H (Hr1 & Hr2 & Hr3). unfold execute_channel. apply (ensures_bind _ _ _ _ (channel_of_wf m H)).
  intros c Hc. case_match; [by apply ensures_ret|]. cbv zeta.
  eapply ensures_bind.
  { apply transfer_loop_wf; [done| |done|]; [|rewrite Z2Nat.id; lia].
    split_and!; [apply Hc..|apply wrap_fits; lia]. }
  intros [cur m1] [(Hs & Hd & Hy) H1]. cbn [fst snd] in *.
  apply (ensures_bind _ _ _ _ (channel_of_wf m1 H1)). intros c1 Hc1.
  eapply ensures_bind.
  { apply on_channel_wf; [done|]. intros c2 []. pose proof (count_mask_bound i).
    constructor; try done; cbn; lia. }
  intros m2 H2. apply (ensures_bind _ _ _ _ (completion_irq_wf m2 H2)). intros m3 H3.
  eapply ensures_bind; [apply on_channel_wf; [done|apply rearm_wf]|].
  intros m4 H4. apply ensures_ret. split; [|done].
  split_and!; [done|apply wrap_fits; lia|by apply adjustment_fits].
Qed.
End Channel.

(** ** Triggers *)

Lemma set_pending_ok v m : machine_ok m ->
  machine_ok (m.1, m.2 <| dma ::= fun d => d <| immediate_pending := v |> |>).
Proof.
  intros [Hb Hd]. split; [done|]. apply (wf_dma (set_field immediate_pending (fun _ => v) (dma m.2))); [done|].
  destruct (dv_dma _ Hd). by split.
Qed.

Lemma counted_ok r : result_ok r ->
  result_ok (r <| channels_executed := u8 (channels_executed r + 1) |>).
Proof. intros (_ & H2 & H3). split_and!; [apply wrap_fits; lia|done..]. Qed.

Lemma run_channels_wf n i trigger w pending result m :
  machine_ok m -> result_ok result -> (i + n <= kChannelCount)%nat ->
  ensures (fun r => result_ok r.1 /\ machine_ok r.2) (run_channels n i trigger w pending result m).
Proof.
  revert i pending result m. induction n as [|n IH]; intros i pending result m H Hr Hi;
    cbn [run_channels]; cbv zeta.
  { apply ensures_ret. split; [done|]. case_match; [by apply set_pending_ok|done]. }
  apply (ensures_bind _ _ _ _ (channel_of_wf i ltac:(lia) m H)). intros c _.
  case_match; [apply IH; [done..|lia]|].
  eapply ensures_bind; [by apply execute_channel_wf; [lia|..]|].
  intros [[ok result1] m1] [Hr1 H1]. cbn [fst snd] in Hr1, H1. case_match.
  { apply ensures_ret. split; [exact Hr1|]. case_match; [by apply set_pending_ok|done]. }
  apply (ensures_bind _ _ _ _ (channel_of_wf i ltac:(lia) m1 H1)). intros c1 _.
  apply IH; [done|by apply counted_ok|lia].
Qed.

Lemma run_trigger_wf trigger w m : machine_ok m ->
  ensures (fun r => result_ok r.1 /\ machine_ok r.2) (run_trigger trigger w m).
Proof.
  intros H. unfold run_trigger. cbv zeta.
  destruct trigger; try (by apply ensures_ret); apply run_channels_wf; done || lia.
Qed.

(** ** Sound FIFO transfers *)

Lemma fifo_burst_wf n unit i fifo w source cycles m :
  (i < kChannelCount)%nat -> machine_ok m -> fits 32 source -> fits 32 cycles ->
  ensures (fun r => fits 32 r.1.1.2 /\ fits 32 r.1.2 /\ machine_ok r.2) (fifo_burst n unit i fifo w source cycles m).
Proof.
  intros Hi. revert unit source cycles m.
  induction n as [|n IH]; intros unit source cycles m H Hs Hy; cbn [fifo_burst]; cbv zeta.
  { by apply ensures_ret. }
  apply (ensures_bind _ _ _ _ (channel_of_wf i Hi m H)). intros c Hc.
  destruct (MemoryBus.read32 io_callbacks _ m) as [v|] eqn:E;
    [|apply ensures_ret; split_and!; [done|apply wrap_fits; lia|done]].
  assert (Hv : fits 32 v) by (by eapply mi_read32).
  assert (Hl := on_channel_wf i Hi (fun c => c <| data_latch := v |>) m H (fun c => latch_wf i v c Hv)).
  apply (ensures_bind _ _ _ _ Hl). intros m1 [Hb1 Hd1].
  apply (ensures_bind _ _ _ _ (write_fifo_wf m1.2 Hd1 fifo v)). intros a Ha.
  apply IH; [by split|by apply step_address_fits|apply wrap_fits; lia].
Qed.

Lemma rearm_fifo_wf i c : (i < kChannelCount)%nat -> channel_wf i c -> channel_wf i (rearm_fifo i c).
Proof.
  intros Hi Hc. unfold rearm_fifo. case_match eqn:E.
  - pose proof (normalized_bound i c). destruct Hc. by constructor.
  - assert (Hz : channel_wf i (c <| current_count := 0 |>)).
    { pose proof (count_mask_bound i). destruct Hc. constructor; try done. cbn. lia. }
    pose proof (rearm_wf i Hi _ Hz) as Hr. unfold rearm in Hr.
    change (channel_repeat (c <| current_count := 0 |>)) with (channel_repeat c) in Hr.
    rewrite E in Hr. exact Hr.
Qed.

Lemma execute_fifo_wf i fifo w result m : (i < kChannelCount)%nat -> machine_ok m -> result_ok result ->
  ensures (fun r => result_ok r.1.2 /\ machine_ok r.2) (execute_sound_fifo_channel i fifo w result m).
Proof.
  intros Hi H (Hr1 & Hr2 & Hr3). unfold execute_sound_fifo_channel.
  apply (ensures_bind _ _ _ _ (channel_of_wf i Hi m H)). intros c Hc.
  case_match; [by apply ensures_ret|].
  eapply ensures_bind; [apply fifo_burst_wf; [done|done|apply Hc|done]|].
  intros [[[ok source] cycles] m1] (Hs & Hy & Hm1). cbn [fst snd] in *. cbv zeta.
  case_match; [by apply ensures_ret|].
  eapply ensures_bind; [apply on_channel_wf; [done|done|]; intros c1 []; by constructor|].
  intros m2 Hm2. apply (ensures_bind _ _ _ _ (completion_irq_wf i Hi m2 Hm2)). intros m3 Hm3.
  eapply ensures_bind; [apply on_channel_wf; [done|done|intros c3; by apply rearm_fifo_wf]|].
  intros m4 Hm4. apply ensures_ret. split; [|done]. split_and!; [done|apply wrap_fits; lia|done].
Qed.

Lemma run_fifo_channels_wf l trigger w result m :
  Forall (fun i => (i < kChannelCount)%nat) l -> machine_ok m -> result_ok result ->
  ensures (fun r => result_ok r.1 /\ machine_ok r.2) (run_fifo_channels l trigger w result m).
Proof.
  intros Hl. revert result m. induction Hl as [|i l Hi _ IH]; intros result m H Hr;
    cbn [run_fifo_channels]; [by apply ensures_ret|].
  apply (ensures_bind _ _ _ _ (channel_of_wf i Hi m H)). intros c _.
  case_match; [by apply IH|].
  eapply ensures_bind; [by apply execute_fifo_wf|].
  intros [[ok result1] m1] [Hr1 H1]. cbn [fst snd] in Hr1, H1.
  case_match; [by apply ensures_ret|]. by apply IH, counted_ok.
Qed.

Lemma run_sound_fifo_wf trigger w m : machine_ok m ->
  ensures (fun r => result_ok r.1 /\ machine_ok r.2) (run_sound_fifo trigger w m).
Proof.
  intros H. unfold run_sound_fifo. cbv zeta.
  destruct trigger; try (by apply ensures_ret); apply run_fifo_channels_wf; try done;
    repeat constructor.
Qed.

(** C7: every DMA transfer ends and is safe.  From any well-formed machine, on
    every trigger, [run_trigger] and [run_sound_fifo] return (whatever the
    transfer copies where, including over the registers of the running
    channel: the loop ends because a count never exceeds 0x10000) and leave
    the bus and all devices well formed; the counters of the result have their
    widths. *)
Theorem dma_transfers_total (trigger : DmaTrigger.t) (with_waitcnt : bool) (m : Machine) :
  machine_ok m ->
  ensures (fun r => result_ok r.1 /\ machine_ok r.2) (run_trigger trigger with_waitcnt m) /\
  ensures (fun r => result_ok r.1 /\ machine_ok r.2) (run_sound_fifo trigger with_waitcnt m).
Proof. intros H. split; [by apply run_trigger_wf|by apply run_sound_fifo_wf]. Qed.

Lemma dma_transfers_total_witness :
  let m := (MemoryBus.initial,
            mkDevices Interrupts.reset Timers.reset self_disarming PpuTiming.reset Apu.reset
              WaitState.reset Keypad.reset (replicate 7 0) false 0) in
  ensures (fun r => result_ok r.1 /\ machine_ok r.2) (run_trigger DmaTrigger.hblank true m).
Proof.
  intros m. apply (dma_transfers_total DmaTrigger.hblank true m).
  split; [exact BusSafety.initial_wf|].
  apply (wf_dma self_disarming _ reset_devices_wf).
  apply (wf_put_channel Dma.reset 3); [exact dma_reset_wf|].
  constructor; by vm_compute.
Defined.
