(* ===== verification/StateMonad.v ===== *)
(** * A state and exception monad

    [ST S A] is code that reads and changes a state [S], and returns an [A] or
    throws.  [total P m Q] is its total-correctness triple: from a state that
    satisfies [P], [m] returns, and [Q] holds of its result and final state. *)

From S2P Require Import Prelude.

Definition ST (S A : Type) : Type := S -> exc (A * S).

#[export] Instance st_ret S : MRet (ST S) := fun A a s => Ret (a, s).
#[export] Instance st_bind S : MBind (ST S) := fun A B f m s =>
  match m s with Ret (a, s') => f a s' | Throw => Throw end.

Section Operations.
Context {S : Type}.

Definition throw {A} : ST S A := fun _ => Throw.

(** A value computed from the state. *)
Definition gets {A} (f : S -> A) : ST S A := fun s => Ret (f s, s).

Definition modify (f : S -> S) : ST S unit := fun s => Ret (tt, f s).

(** An operation that returns a result and a state and never throws. *)
Definition act {A} (f : S -> A * S) : ST S A := fun s => Ret (f s).

Definition lift {A} (m : exc A) : ST S A := fun s => a ← m; Ret (a, s).

Definition when (b : bool) (m : ST S unit) : ST S unit := if b then m else mret tt.

(** A loop over a list that may return early: the body returns [Some r] to
    leave the function with [r]. *)
Fixpoint for_each {A R} (l : list A) (body : A -> ST S (option R)) : ST S (option R) :=
  match l with
  | [] => mret None
  | a :: l => r ← body a;
              match r with Some r => mret (Some r) | None => for_each l body end
  end.
End Operations.

(** ** Loops

    [iterate k step] runs [step] up to [2^k] times, until it leaves the loop
    with [inr]; the doubling keeps the fuel of a loop with a large bound small. *)

Fixpoint iterate {S R} (k : nat) (step : S -> exc (S + R)) (s : S) : exc (S + R) :=
  match k with
  | O => step s
  | Datatypes.S k' =>
      r ← iterate k' step s;
      match r with inl s' => iterate k' step s' | inr r => Ret (inr r) end
  end.

(** [while (...) ...] with at most [2^k] iterations. *)
Definition loop {S R} (k : nat) (step : S -> exc (S + R)) (s : S) : exc R :=
  r ← iterate k step s;
  match r with inr r => Ret r | inl _ => Throw end.

(** A loop whose iterations return, keep [P] and decrease a measure below [2^k]
    ends, with [Q] of its result. *)
Section Loop.
Context {S R : Type} (step : S -> exc (S + R)) (P : S -> Prop) (Q : R -> Prop) (m : S -> Z).
Hypothesis step_total : forall s, P s ->
  exists r, step s = Ret r /\
    match r with inl s' => P s' /\ 0 <= m s' < m s | inr r => Q r end.

Lemma iterate_total k s : P s ->
  exists r, iterate k step s = Ret r /\
    match r with inl s' => P s' /\ 0 <= m s' <= m s - 2 ^ Z.of_nat k | inr r => Q r end.
Proof using step_total.
  revert s. induction k as [|k IH]; intros s Hs.
  - cbn [iterate]. destruct (step_total s Hs) as (r & E & H). exists r. split; [done|].
    destruct r; [|done]. change (2 ^ Z.of_nat 0) with 1. destruct H. split; [done|lia].
  - cbn [iterate]. destruct (IH s Hs) as (r & -> & H). cbn [mbind exc_bind].
    destruct r as [s'|r]; [|by exists (inr r)]. destruct H as [Hs' Hm].
    destruct (IH s' Hs') as (r & -> & H). exists r. split; [done|].
    destruct r; [|done]. destruct H as [? ?]. split; [done|].
    rewrite Nat2Z.inj_succ, Z.pow_succ_r by lia. lia.
Qed.

Lemma loop_total k s : P s -> m s < 2 ^ Z.of_nat k -> exists r, loop k step s = Ret r /\ Q r.
Proof using step_total.
  intros Hs Hk. unfold loop. destruct (iterate_total k s Hs) as (r & -> & H).
  cbn [mbind exc_bind]. destruct r as [s'|r]; [|by exists r]. destruct H. lia.
Qed.
End Loop.

(** ** Running a computation *)

Lemma bind_Ret {S A B} (m : ST S A) (f : A -> ST S B) s a s' :
  m s = Ret (a, s') -> mbind f m s = f a s'.
Proof. intros E. unfold mbind, st_bind. by rewrite E. Qed.

Lemma bind_gets {S A B} (g : S -> A) (f : A -> ST S B) s : mbind f (gets g) s = f (g s) s.
Proof. done. Qed.

Lemma bind_modify {S B} (g : S -> S) (f : unit -> ST S B) s :
  mbind f (modify g) s = f tt (g s).
Proof. done. Qed.

Lemma bind_act {S A B} (g : S -> A * S) (f : A -> ST S B) s a s' :
  g s = (a, s') -> mbind f (act g) s = f a s'.
Proof. intros E. apply bind_Ret. unfold act. by rewrite E. Qed.

(** ** Total correctness *)

Definition total {S A} (P : S -> Prop) (m : ST S A) (Q : A -> S -> Prop) : Prop :=
  forall s, P s -> exists a s', m s = Ret (a, s') /\ Q a s'.

Section Total.
Context {S : Type}.
Implicit Types P : S -> Prop.

Lemma total_ret {A} P (a : A) Q : (forall s, P s -> Q a s) -> total P (mret a) Q.
Proof. intros H s Hs. exists a, s. split; [done|by apply H]. Qed.

Lemma total_bind {A B} P (m : ST S A) (f : A -> ST S B) R Q :
  total P m R -> (forall a, total (R a) (f a) Q) -> total P (mbind f m) Q.
Proof.
  intros Hm Hf s Hs. destruct (Hm s Hs) as (a & s' & E & HR).
  destruct (Hf a s' HR) as (b & s'' & E' & HQ).
  exists b, s''. split; [|done]. unfold mbind, st_bind. by rewrite E.
Qed.

Lemma total_gets {A} P (f : S -> A) Q :
  (forall s, P s -> Q (f s) s) -> total P (gets f) Q.
Proof. intros H s Hs. exists (f s), s. split; [done|by apply H]. Qed.

Lemma total_modify P f Q : (forall s, P s -> Q tt (f s)) -> total P (modify f) Q.
Proof. intros H s Hs. exists tt, (f s). split; [done|by apply H]. Qed.

Lemma total_act {A} P (f : S -> A * S) Q :
  (forall s, P s -> Q (f s).1 (f s).2) -> total P (act f) Q.
Proof.
  intros H s Hs. exists (f s).1, (f s).2.
  split; [unfold act; by destruct (f s)|by apply H].
Qed.

Lemma total_lift {A} P (m : exc A) Q :
  (forall s, P s -> exists a, m = Ret a /\ Q a s) -> total P (lift m) Q.
Proof.
  intros H s Hs. destruct (H s Hs) as (a & -> & HQ). by exists a, s.
Qed.

Lemma total_pre {A} P (m : ST S A) Q :
  (forall s, P s -> exists P', P' s /\ total P' m Q) -> total P m Q.
Proof. intros H s Hs. destruct (H s Hs) as (P' & Hs' & Hm). by apply Hm. Qed.

Lemma total_weaken {A} P P' (m : ST S A) Q Q' :
  total P' m Q' -> (forall s, P s -> P' s) -> (forall a s, Q' a s -> Q a s) -> total P m Q.
Proof.
  intros Hm HP HQ s Hs. destruct (Hm s (HP s Hs)) as (a & s' & E & H).
  exists a, s'. split; [done|by apply HQ].
Qed.

Lemma total_assume {A} P (m : ST S A) Q (X : Prop) :
  (forall s, P s -> X) -> (X -> total P m Q) -> total P m Q.
Proof. intros HX Hm s Hs. apply Hm; [by eapply HX|done]. Qed.

(** A fact about the result that the rest can use. *)
Lemma total_seq {A B} P P' (X : A -> Prop) (m : ST S A) (f : A -> ST S B) Q :
  total P m (fun a s => X a /\ P' s) -> (forall a, X a -> total P' (f a) Q) ->
  total P (mbind f m) Q.
Proof.
  intros Hm Hf. apply (total_bind _ _ _ _ _ Hm). intros a s [Ha Hs]. by apply (Hf a Ha).
Qed.

Lemma total_when P (b : bool) m Q :
  total P m Q -> (forall s, P s -> Q tt s) -> total P (when b m) Q.
Proof. intros Hm HQ. destruct b; [done|]. by apply total_ret. Qed.
End Total.

(** ** Invariants and typed results

    [typed a] is the range of a value of a C++ type ([Typed] gives it for each
    type of result).  [safe I m]: from a state that satisfies [I], [m] returns
    a typed result and keeps [I]. *)

Class Typed (A : Type) : Type := typed : A -> Prop.

#[export] Instance typed_unit : Typed unit := fun _ => True.
#[export] Instance typed_bool : Typed bool := fun _ => True.
#[export] Instance typed_option {A} `{Typed A} : Typed (option A) :=
  fun o => forall a, o = Some a -> typed a.
#[export] Instance typed_prod {A B} `{Typed A} `{Typed B} : Typed (A * B) :=
  fun p => typed p.1 /\ typed p.2.

Definition safe {S A} `{Typed A} (I : S -> Prop) (m : ST S A) : Prop :=
  total I m (fun a s => typed a /\ I s).

Section Safe.
Context {S : Type} (I : S -> Prop).

Lemma safe_ret {A : Type} {HA : Typed A} (a : A) : typed a -> safe I (mret a).
Proof. intros Ha. unfold safe. apply total_ret. auto. Qed.

Lemma safe_bind {A B : Type} {HA : Typed A} {HB : Typed B} (m : ST S A) (f : A -> ST S B) :
  safe I m -> (forall a, typed a -> safe I (f a)) -> safe I (mbind f m).
Proof.
  intros Hm Hf. apply (total_bind _ _ _ _ _ Hm). intros a s [Ha Hs].
  by apply (Hf a Ha).
Qed.

(** A prefix that keeps a precondition [P] the rest needs. *)
Lemma safe_before {A B : Type} {HA : Typed A} (m : ST S A) (f : A -> ST S B) Q :
  safe I m -> (forall a, typed a -> total I (f a) Q) -> total I (mbind f m) Q.
Proof.
  intros Hm Hf. apply (total_bind _ _ _ _ _ Hm). intros a s [Ha Hs]. by apply (Hf a Ha).
Qed.

Lemma safe_gets {A : Type} {HA : Typed A} (f : S -> A) : (forall s, I s -> typed (f s)) -> safe I (gets f).
Proof. intros Hf. apply total_gets. auto. Qed.

Lemma safe_modify f : (forall s, I s -> I (f s)) -> safe I (modify f).
Proof. intros Hf. apply total_modify. intros s Hs. split; [done|auto]. Qed.

Lemma safe_act {A : Type} {HA : Typed A} (f : S -> A * S) :
  (forall s, I s -> typed (f s).1 /\ I (f s).2) -> safe I (act f).
Proof. intros Hf. unfold safe. by apply total_act. Qed.

Lemma safe_lift {A : Type} {HA : Typed A} (m : exc A) a : m = Ret a -> typed a -> safe I (lift m).
Proof. intros -> Ha. apply total_lift. intros s Hs. by exists a. Qed.

Lemma safe_when (b : bool) m : safe I m -> safe I (when b m).
Proof. intros Hm. apply total_when; [done|]. by split. Qed.

Lemma safe_if {A : Type} {HA : Typed A} (b : bool) (m n : ST S A) :
  (b = true -> safe I m) -> (b = false -> safe I n) -> safe I (if b then m else n).
Proof. destruct b; auto. Qed.

Lemma safe_option {A B : Type} {HA : Typed A} {HB : Typed B} (o : option A) (m : A -> ST S B) (n : ST S B) :
  typed o -> (forall a, typed a -> safe I (m a)) -> safe I n ->
  safe I (match o with Some a => m a | None => n end).
Proof. intros Ho Hm Hn. destruct o; [|done]. by apply Hm, Ho. Qed.
End Safe.

Create HintDb safe discriminated.
#[export] Hint Constants Opaque : safe.
#[export] Hint Resolve safe_ret safe_when : safe.

(** One step through a computation; the hints of [safe] close its leaves. *)
Ltac safe_step :=
  lazymatch goal with
  | |- safe _ (mbind _ _) => eapply safe_bind; [|intros ? ?]
  | |- safe _ (if _ then _ else _) => eapply safe_if; intros ?
  | |- safe _ (match ?o with Some _ => _ | None => _ end) => eapply safe_option; [try assumption|intros ? ?|]
  | |- safe _ (match ?x with _ => _ end) => destruct x eqn:?
  | |- safe _ _ => solve [auto with safe]
  end.
Ltac safe := cbv zeta; repeat safe_step.
