(* ===== verification/ArmTypes.v ===== *)
(** * The ARM7TDMI: types, decoded instructions and the barrel shifter

    The enumerations and decoded-instruction records of
    [include/gba/core/arm7tdmi.hpp] and the helper functions at the top of
    [src/core/arm7tdmi.cpp].  A word is a [Z] of 32 bits, a [std::uint8_t]
    field a [Z] of 8 bits. *)

From S2P Require Import Prelude.

Module ArmCondition.
(** [nv] is the value 0xF, which has no enumerator. *)
(* @ arm7tdmi.hpp:13-29 ArmCondition *)
Inductive t : Type :=
  | eq | ne | cs | cc | mi | pl | vs | vc | hi | ls | ge | lt | gt | le | al | nv.
#[export] Instance eq_dec : EqDecision t.
Proof. solve_decision. Defined.

(** [static_cast<ArmCondition>(v)] of a four-bit value. *)
(* @ arm7tdmi.hpp:13-29 ArmCondition *)
Definition of_bits (v : Z) : t :=
  match v with
  | 0 => eq | 1 => ne | 2 => cs | 3 => cc | 4 => mi | 5 => pl | 6 => vs | 7 => vc
  | 8 => hi | 9 => ls | 10 => ge | 11 => lt | 12 => gt | 13 => le | 14 => al | _ => nv
  end.
End ArmCondition.
Export (hints) ArmCondition.

Module ArmOpcode.
(* @ arm7tdmi.hpp:31-48 ArmOpcode *)
Inductive t : Type :=
  | and_ | eor | sub | rsb | add | adc | sbc | rsc | tst | teq | cmp | cmn | orr | mov | bic | mvn.
#[export] Instance eq_dec : EqDecision t.
Proof. solve_decision. Defined.

(** [static_cast<ArmOpcode>(v)] of a four-bit value. *)
(* @ arm7tdmi.hpp:31-48 ArmOpcode *)
Definition of_bits (v : Z) : t :=
  match v with
  | 0 => and_ | 1 => eor | 2 => sub | 3 => rsb | 4 => add | 5 => adc | 6 => sbc | 7 => rsc
  | 8 => tst | 9 => teq | 10 => cmp | 11 => cmn | 12 => orr | 13 => mov | 14 => bic | _ => mvn
  end.
End ArmOpcode.
Export (hints) ArmOpcode.

Module ArmShiftType.
(* @ arm7tdmi.hpp:50-55 ArmShiftType *)
Inductive t : Type := lsl | lsr | asr | ror.
#[export] Instance eq_dec : EqDecision t.
Proof. solve_decision. Defined.

(** [static_cast<ArmShiftType>(v)] of a two-bit value. *)
(* @ arm7tdmi.hpp:50-55 ArmShiftType *)
Definition of_bits (v : Z) : t :=
  match v with 0 => lsl | 1 => lsr | 2 => asr | _ => ror end.
End ArmShiftType.
Export (hints) ArmShiftType.

Module ThumbOpcode.
(* @ arm7tdmi.hpp:57-62 ThumbOpcode *)
Inductive t : Type := mov | cmp | add | sub.
End ThumbOpcode.

Module ThumbHighRegisterOpcode.
(* @ arm7tdmi.hpp:64-69 ThumbHighRegisterOpcode *)
Inductive t : Type := add | cmp | mov | bx.
End ThumbHighRegisterOpcode.

Module ThumbAluOpcode.
(* @ arm7tdmi.hpp:71-88 ThumbAluOpcode *)
Inductive t : Type :=
  | and_ | eor | lsl | lsr | asr | adc | sbc | ror | tst | neg | cmp | cmn | orr | mul | bic | mvn.
#[export] Instance eq_dec : EqDecision t.
Proof. solve_decision. Defined.

(** [static_cast<ThumbAluOpcode>(v)] of a four-bit value. *)
(* @ arm7tdmi.hpp:71-88 ThumbAluOpcode *)
Definition of_bits (v : Z) : t :=
  match v with
  | 0 => and_ | 1 => eor | 2 => lsl | 3 => lsr | 4 => asr | 5 => adc | 6 => sbc | 7 => ror
  | 8 => tst | 9 => neg | 10 => cmp | 11 => cmn | 12 => orr | 13 => mul | 14 => bic | _ => mvn
  end.
End ThumbAluOpcode.
Export (hints) ThumbAluOpcode.

Module ThumbMemoryTransferKind.
(* @ arm7tdmi.hpp:90-96 ThumbMemoryTransferKind *)
Inductive t : Type := word | byte | halfword | signed_byte | signed_halfword.
#[export] Instance eq_dec : EqDecision t.
Proof. solve_decision. Defined.
End ThumbMemoryTransferKind.
Export (hints) ThumbMemoryTransferKind.

Module ArmProgramStatusRegister.
(* @ arm7tdmi.hpp:98-101 ArmProgramStatusRegister *)
Inductive t : Type := cpsr | spsr.
#[export] Instance eq_dec : EqDecision t.
Proof. solve_decision. Defined.
End ArmProgramStatusRegister.
Export (hints) ArmProgramStatusRegister.

Module CpuMode.
(** [unnamed v] is a value of the underlying [std::uint8_t] that no enumerator
    has: a [CpuMode] read from a snapshot may hold one. *)
(* @ arm7tdmi.hpp:103-111 CpuMode *)
Inductive t : Type :=
  | user | fiq | irq | supervisor | abort | undefined | system | unnamed (v : Z).
#[export] Instance eq_dec : EqDecision t.
Proof. solve_decision. Defined.

(** [static_cast<std::uint32_t>(mode)]. *)
(* @ arm7tdmi.hpp:103-111 CpuMode *)
Definition index (mode : t) : Z :=
  match mode with
  | user => 0x10 | fiq => 0x11 | irq => 0x12 | supervisor => 0x13 | abort => 0x17
  | undefined => 0x1B | system => 0x1F | unnamed v => v
  end.

(** [static_cast<CpuMode>(v)] of a byte. *)
(* @ arm7tdmi.hpp:103-111 CpuMode *)
Definition of_byte (v : Z) : t :=
  match v with
  | 0x10 => user | 0x11 => fiq | 0x12 => irq | 0x13 => supervisor | 0x17 => abort
  | 0x1B => undefined | 0x1F => system | _ => unnamed v
  end.
End CpuMode.
Export (hints) CpuMode.

Module ExceptionKind.
(* @ arm7tdmi.hpp:113-121 ExceptionKind *)
Inductive t : Type :=
  | reset | undefined_instruction | software_interrupt | prefetch_abort | data_abort | irq | fiq.
#[export] Instance eq_dec : EqDecision t.
Proof. solve_decision. Defined.
End ExceptionKind.
Export (hints) ExceptionKind.

Module ExecuteStatus.
(* @ arm7tdmi.hpp:123-127 ExecuteStatus *)
Inductive t : Type := executed | skipped_condition | unsupported.
#[export] Instance eq_dec : EqDecision t.
Proof. solve_decision. Defined.
End ExecuteStatus.
Export (hints) ExecuteStatus.

(* @ arm7tdmi.hpp:129-134 ArmCycleEstimate *)
Record ArmCycleEstimate : Type := mkArmCycleEstimate {
  ce_sequential : Z;
  ce_nonsequential : Z;
  ce_internal : Z;
  ce_data_dependent : bool
}.

(* @ arm7tdmi.hpp:136-140 ArmElapsedCycleEstimate *)
Record ArmElapsedCycleEstimate : Type := mkArmElapsedCycleEstimate {
  ee_cycles : Z;
  ee_data_dependent : bool;
  ee_memory_timing_applied : bool
}.

(* @ arm7tdmi.hpp:142-148 ArmStepResult *)
Record ArmStepResult : Type := mkArmStepResult {
  sr_status : ExecuteStatus.t;
  sr_elapsed_cycles : Z;
  sr_total_elapsed_cycles : Z;
  sr_data_dependent : bool;
  sr_memory_timing_applied : bool
}.

(* @ arm7tdmi.hpp:150-158 ExceptionVector *)
Record ExceptionVector : Type := mkExceptionVector {
  ev_kind : ExceptionKind.t;
  vector_address : Z;
  ev_mode : CpuMode.t;
  link_offset : Z;
  save_cpsr : bool;
  disable_irq : bool;
  disable_fiq : bool
}.

(** ** Decoded instructions *)

(* @ arm7tdmi.hpp:160-169 DecodedArmInstruction *)
Record DecodedArmInstruction : Type := mkDecodedArmInstruction {
  dp_condition : ArmCondition.t;
  dp_opcode : ArmOpcode.t;
  dp_set_flags : bool;
  dp_rn : Z;
  dp_rd : Z;
  dp_operand2 : Z;
  shifter_carry_valid : bool;
  shifter_carry : bool
}.

(* @ arm7tdmi.hpp:171-175 DecodedBranchInstruction *)
Record DecodedBranchInstruction : Type := mkDecodedBranchInstruction {
  br_condition : ArmCondition.t;
  br_link : bool;
  br_offset : Z
}.

(* @ arm7tdmi.hpp:177-180 DecodedBranchExchangeInstruction *)
Record DecodedBranchExchangeInstruction : Type := mkDecodedBranchExchangeInstruction {
  bx_condition : ArmCondition.t;
  bx_rm : Z
}.

(* @ arm7tdmi.hpp:182-190 DecodedMultiplyInstruction *)
Record DecodedMultiplyInstruction : Type := mkDecodedMultiplyInstruction {
  mu_condition : ArmCondition.t;
  mu_accumulate : bool;
  mu_set_flags : bool;
  mu_rd : Z;
  mu_rn : Z;
  mu_rs : Z;
  mu_rm : Z
}.

(* @ arm7tdmi.hpp:192-201 DecodedMultiplyLongInstruction *)
Record DecodedMultiplyLongInstruction : Type := mkDecodedMultiplyLongInstruction {
  ml_condition : ArmCondition.t;
  signed_multiply : bool;
  ml_accumulate : bool;
  ml_set_flags : bool;
  rd_hi : Z;
  rd_lo : Z;
  ml_rs : Z;
  ml_rm : Z
}.

(* @ arm7tdmi.hpp:203-213 DecodedSingleDataTransferInstruction *)
Record DecodedSingleDataTransferInstruction : Type := mkDecodedSingleDataTransferInstruction {
  sd_condition : ArmCondition.t;
  sd_load : bool;
  sd_byte : bool;
  sd_pre_index : bool;
  sd_up : bool;
  sd_write_back : bool;
  sd_rn : Z;
  sd_rd : Z;
  sd_offset : Z
}.

(* @ arm7tdmi.hpp:215-223 DecodedPsrTransferInstruction *)
Record DecodedPsrTransferInstruction : Type := mkDecodedPsrTransferInstruction {
  ps_condition : ArmCondition.t;
  ps_write : bool;
  ps_psr : ArmProgramStatusRegister.t;
  rd_or_rm : Z;
  field_mask : Z;
  ps_operand : Z;
  immediate_operand : bool
}.

(* @ arm7tdmi.hpp:225-231 DecodedSwapInstruction *)
Record DecodedSwapInstruction : Type := mkDecodedSwapInstruction {
  sw_condition : ArmCondition.t;
  sw_byte : bool;
  sw_rn : Z;
  sw_rd : Z;
  sw_rm : Z
}.

(* @ arm7tdmi.hpp:233-244 DecodedHalfwordDataTransferInstruction *)
Record DecodedHalfwordDataTransferInstruction : Type :=
  mkDecodedHalfwordDataTransferInstruction {
  hw_condition : ArmCondition.t;
  hw_load : bool;
  signed_transfer : bool;
  hw_halfword : bool;
  hw_pre_index : bool;
  hw_up : bool;
  hw_write_back : bool;
  hw_rn : Z;
  hw_rd : Z;
  hw_offset : Z
}.

(* @ arm7tdmi.hpp:246-254 DecodedBlockDataTransferInstruction *)
Record DecodedBlockDataTransferInstruction : Type := mkDecodedBlockDataTransferInstruction {
  bd_condition : ArmCondition.t;
  bd_load : bool;
  bd_pre_index : bool;
  bd_up : bool;
  bd_write_back : bool;
  bd_rn : Z;
  bd_register_list : Z
}.

(* @ arm7tdmi.hpp:256-262 DecodedThumbInstruction *)
Record DecodedThumbInstruction : Type := mkDecodedThumbInstruction {
  th_opcode : ThumbOpcode.t;
  th_rd : Z;
  th_rs : Z;
  th_operand : Z;
  operand_is_register : bool
}.

(* @ arm7tdmi.hpp:264-269 DecodedThumbShiftInstruction *)
Record DecodedThumbShiftInstruction : Type := mkDecodedThumbShiftInstruction {
  ts_type : ArmShiftType.t;
  ts_rd : Z;
  ts_rs : Z;
  ts_amount : Z
}.

(* @ arm7tdmi.hpp:271-275 DecodedThumbAluInstruction *)
Record DecodedThumbAluInstruction : Type := mkDecodedThumbAluInstruction {
  ta_opcode : ThumbAluOpcode.t;
  ta_rd : Z;
  ta_rs : Z
}.

(* @ arm7tdmi.hpp:277-281 DecodedThumbBranchInstruction *)
Record DecodedThumbBranchInstruction : Type := mkDecodedThumbBranchInstruction {
  tb_conditional : bool;
  tb_condition : ArmCondition.t;
  tb_offset : Z
}.

(* @ arm7tdmi.hpp:283-286 DecodedThumbLongBranchLinkInstruction *)
Record DecodedThumbLongBranchLinkInstruction : Type :=
  mkDecodedThumbLongBranchLinkInstruction { second_half : bool; tl_offset : Z }.

(* @ arm7tdmi.hpp:288-292 DecodedThumbHighRegisterInstruction *)
Record DecodedThumbHighRegisterInstruction : Type := mkDecodedThumbHighRegisterInstruction {
  hr_opcode : ThumbHighRegisterOpcode.t;
  hr_rd : Z;
  hr_rs : Z
}.

(* @ arm7tdmi.hpp:294-301 DecodedThumbMemoryTransferInstruction *)
Record DecodedThumbMemoryTransferInstruction : Type := mkDecodedThumbMemoryTransferInstruction {
  tm_load : bool;
  tm_kind : ThumbMemoryTransferKind.t;
  tm_rd : Z;
  tm_rb : Z;
  tm_offset : Z;
  offset_is_register : bool
}.

(* @ arm7tdmi.hpp:303-307 DecodedThumbBlockTransferInstruction *)
Record DecodedThumbBlockTransferInstruction : Type := mkDecodedThumbBlockTransferInstruction {
  tbt_load : bool;
  tbt_rb : Z;
  tbt_register_list : Z
}.

(* @ arm7tdmi.hpp:309-313 DecodedThumbStackInstruction *)
Record DecodedThumbStackInstruction : Type := mkDecodedThumbStackInstruction {
  tst_load : bool;
  extra_register : bool;
  tst_register_list : Z
}.

(* @ arm7tdmi.hpp:315-318 DecodedThumbStackPointerInstruction *)
Record DecodedThumbStackPointerInstruction : Type :=
  mkDecodedThumbStackPointerInstruction { sp_subtract : bool; sp_offset : Z }.

(* @ arm7tdmi.hpp:320-324 DecodedThumbLoadAddressInstruction *)
Record DecodedThumbLoadAddressInstruction : Type := mkDecodedThumbLoadAddressInstruction {
  base_is_sp : bool;
  la_rd : Z;
  la_offset : Z
}.

(* @ arm7tdmi.hpp:328-328 Arm7tdmi::kRegisterCount *)
Definition kRegisterCount : nat := 16.
(* @ arm7tdmi.hpp:329-329 Arm7tdmi::kLinkRegister *)
Definition kLinkRegister : Z := 14.
(* @ arm7tdmi.hpp:330-330 Arm7tdmi::kPc *)
Definition kPc : Z := 15.

(* @ arm7tdmi.cpp:51-51 kNegativeFlag *)
Definition kNegativeFlag : Z := 0x80000000.
(* @ arm7tdmi.cpp:52-52 kZeroFlag *)
Definition kZeroFlag : Z := 0x40000000.
(* @ arm7tdmi.cpp:53-53 kCarryFlag *)
Definition kCarryFlag : Z := 0x20000000.
(* @ arm7tdmi.cpp:54-54 kOverflowFlag *)
Definition kOverflowFlag : Z := 0x10000000.
(* @ arm7tdmi.cpp:55-55 kThumbStateFlag *)
Definition kThumbStateFlag : Z := 0x00000020.
(* @ arm7tdmi.cpp:56-56 kFiqDisableFlag *)
Definition kFiqDisableFlag : Z := 0x00000040.
(* @ arm7tdmi.cpp:57-57 kIrqDisableFlag *)
Definition kIrqDisableFlag : Z := 0x00000080.
(* @ arm7tdmi.cpp:58-58 kModeMask *)
Definition kModeMask : Z := 0x0000001F.
(* @ arm7tdmi.cpp:60-60 kControlByteMask *)
Definition kControlByteMask : Z := 0x000000FF.
(* @ arm7tdmi.cpp:68-68 kArmSkippedConditionElapsedCycles *)
Definition kArmSkippedConditionElapsedCycles : Z := 0.
(* @ arm7tdmi.cpp:69-69 kThumbSkippedConditionElapsedCycles *)
Definition kThumbSkippedConditionElapsedCycles : Z := 1.

(** ** Fields and shifts *)

(* @ arm7tdmi.cpp:82-84 bits *)
Definition bits (value shift mask : Z) : Z := u8 (Z.land (Z.shiftr value shift) mask).

(** [((instruction >> n) & 1) == 1]. *)
Definition bit (value n : Z) : bool := Z.land (Z.shiftr value n) 0x1 =? 1.

(** [(value & 0x80000000) != 0]. *)
Definition sign_bit (value : Z) : bool := has value 0x80000000.

(** [~value] of a word. *)
Definition not32 (value : Z) : Z := u32 (Z.lnot value).

(* @ arm7tdmi.cpp:86-92 rotate_right *)
Definition rotate_right (value amount : Z) : Z :=
  let shift := u8 (amount mod 32) in
  if shift =? 0 then value
  else Z.lor (Z.shiftr value shift) (u32 (Z.shiftl value (32 - shift))).

(* @ arm7tdmi.cpp:280-282 align_word *)
Definition align_word (value : Z) : Z := Z.land value (not32 0x3).

(* @ arm7tdmi.cpp:284-286 supported_condition *)
Definition supported_condition (condition : Z) : bool := condition <=? 14.

(* @ arm7tdmi.cpp:288-301 decode_cpu_mode *)
Definition decode_cpu_mode (value : Z) : option CpuMode.t :=
  match Z.land value kModeMask with
  | 0x10 => Some CpuMode.user
  | 0x11 => Some CpuMode.fiq
  | 0x12 => Some CpuMode.irq
  | 0x13 => Some CpuMode.supervisor
  | 0x17 => Some CpuMode.abort
  | 0x1B => Some CpuMode.undefined
  | 0x1F => Some CpuMode.system
  | _ => None
  end.

(* @ arm7tdmi.cpp:303-307 mode_has_spsr *)
Definition mode_has_spsr (mode : CpuMode.t) : bool :=
  match mode with
  | CpuMode.fiq | CpuMode.irq | CpuMode.supervisor | CpuMode.abort | CpuMode.undefined => true
  | CpuMode.user | CpuMode.system | CpuMode.unnamed _ => false
  end.

(* @ arm7tdmi.cpp:309-315 sign_extend_branch_offset *)
Definition sign_extend_branch_offset (instruction : Z) : Z :=
  let raw := Z.land instruction 0x00FFFFFF in
  let raw := if has raw 0x00800000 then Z.lor raw 0xFF000000 else raw in
  i32 raw * 4.

(* @ arm7tdmi.cpp:317-325 sign_extend_thumb_offset *)
Definition sign_extend_thumb_offset (raw bits : Z) : Z :=
  let sign_bit := u16 (Z.shiftl 1 (bits - 1)) in
  let mask := u16 (Z.shiftl 1 bits - 1) in
  let extended := Z.land raw mask in
  let extended := if has extended sign_bit then Z.lor extended (not32 mask) else extended in
  i32 extended * 2.

(* @ arm7tdmi.cpp:327-333 sign_extend_thumb_bl_prefix *)
Definition sign_extend_thumb_bl_prefix (raw : Z) : Z :=
  let extended := Z.land raw 0x07FF in
  let extended := if has extended 0x0400 then Z.lor extended (Z.lnot 0x07FF) else extended in
  extended * 4096.

(** Every four-bit opcode has an enumerator. *)
(* @ arm7tdmi.cpp:335-352 supported_data_processing_opcode *)
Definition supported_data_processing_opcode (opcode : Z) : bool :=
  (opcode =? 0x0) || (opcode =? 0x1) || (opcode =? 0x2) || (opcode =? 0x3) ||
  (opcode =? 0x4) || (opcode =? 0x5) || (opcode =? 0x6) || (opcode =? 0x7) ||
  (opcode =? 0x8) || (opcode =? 0x9) || (opcode =? 0xA) || (opcode =? 0xB) ||
  (opcode =? 0xC) || (opcode =? 0xD) || (opcode =? 0xE) || (opcode =? 0xF).

(* @ arm7tdmi.cpp:354-356 supported_thumb_branch_condition *)
Definition supported_thumb_branch_condition (condition : Z) : bool := condition <=? 13.

(* @ arm7tdmi.cpp:12-16 ShifterResult *)
Record ShifterResult : Type := mkShifterResult {
  sh_value : Z;
  carry_valid : bool;
  sh_carry : bool
}.

(** [((value >> n) & 1) == 1]. *)
(* @ arm7tdmi.cpp:368-368 apply_immediate_shift *)
Definition shifted_out (value n : Z) : bool := Z.land (Z.shiftr value n) 0x1 =? 1.

(* @ arm7tdmi.cpp:358-390 apply_immediate_shift *)
Definition apply_immediate_shift (value : Z) (type : ArmShiftType.t) (amount : Z)
    (carry_in : bool) : ShifterResult :=
  match type with
  | ArmShiftType.lsl =>
      if amount =? 0 then mkShifterResult value false false
      else mkShifterResult (u32 (Z.shiftl value amount)) true (shifted_out value (32 - amount))
  | ArmShiftType.lsr =>
      if amount =? 0 then mkShifterResult 0 true (sign_bit value)
      else mkShifterResult (Z.shiftr value amount) true (shifted_out value (amount - 1))
  | ArmShiftType.asr =>
      if amount =? 0 then
        mkShifterResult (if sign_bit value then 0xFFFFFFFF else 0) true (sign_bit value)
      else if negb (sign_bit value) then
        mkShifterResult (Z.shiftr value amount) true (shifted_out value (amount - 1))
      else
        mkShifterResult (Z.lor (Z.shiftr value amount) (u32 (Z.shiftl 0xFFFFFFFF (32 - amount))))
          true (shifted_out value (amount - 1))
  | ArmShiftType.ror =>
      if amount =? 0 then
        mkShifterResult (Z.lor (if carry_in then 0x80000000 else 0) (Z.shiftr value 1)) true
          (has value 0x1)
      else mkShifterResult (rotate_right value amount) true (sign_bit (rotate_right value amount))
  end.

(* @ arm7tdmi.cpp:392-432 apply_register_shift *)
Definition apply_register_shift (value : Z) (type : ArmShiftType.t) (amount : Z) : ShifterResult :=
  if amount =? 0 then mkShifterResult value false false
  else
    match type with
    | ArmShiftType.lsl =>
        if amount <? 32 then
          mkShifterResult (u32 (Z.shiftl value amount)) true (shifted_out value (32 - amount))
        else if amount =? 32 then mkShifterResult 0 true (has value 0x1)
        else mkShifterResult 0 true false
    | ArmShiftType.lsr =>
        if amount <? 32 then
          mkShifterResult (Z.shiftr value amount) true (shifted_out value (amount - 1))
        else if amount =? 32 then mkShifterResult 0 true (sign_bit value)
        else mkShifterResult 0 true false
    | ArmShiftType.asr =>
        if amount <? 32 then
          if negb (sign_bit value) then
            mkShifterResult (Z.shiftr value amount) true (shifted_out value (amount - 1))
          else
            mkShifterResult
              (Z.lor (Z.shiftr value amount) (u32 (Z.shiftl 0xFFFFFFFF (32 - amount))))
              true (shifted_out value (amount - 1))
        else mkShifterResult (if sign_bit value then 0xFFFFFFFF else 0) true (sign_bit value)
    | ArmShiftType.ror =>
        let rotate := u8 (amount mod 32) in
        let result := if rotate =? 0 then value else rotate_right value rotate in
        mkShifterResult result true (sign_bit result)
    end.

(** ** Transfers *)

(* @ arm7tdmi.cpp:434-436 supported_transfer_addressing *)
Definition supported_transfer_addressing (pre_index write_back : bool) : bool :=
  pre_index || negb write_back.

(* @ arm7tdmi.cpp:438-453 psr_field_mask *)
Definition psr_field_mask (field_mask : Z) : Z :=
  let mask := 0 in
  let mask := if has field_mask 0x1 then Z.lor mask 0x000000FF else mask in
  let mask := if has field_mask 0x2 then Z.lor mask 0x0000FF00 else mask in
  let mask := if has field_mask 0x4 then Z.lor mask 0x00FF0000 else mask in
  if has field_mask 0x8 then Z.lor mask 0xFF000000 else mask.

(* @ arm7tdmi.cpp:455-457 transfer_needs_write_back *)
Definition transfer_needs_write_back (pre_index write_back : bool) : bool :=
  negb pre_index || write_back.

(* @ arm7tdmi.cpp:459-462 offset_transfer_address *)
Definition offset_transfer_address (base offset : Z) (up : bool) : Z :=
  u32 (if up then base + offset else base - offset).

(** The loop runs once per bit of the 16-bit list: sixteen times at most. *)
(* @ arm7tdmi.cpp:464-471 count_registers *)
Fixpoint count_loop (fuel : nat) (register_list count : Z) : Z :=
  match fuel with
  | O => count
  | S fuel' =>
      if register_list =? 0 then count
      else count_loop fuel' (Z.shiftr register_list 1) (u8 (count + Z.land register_list 0x1))
  end.

(* @ arm7tdmi.cpp:464-471 count_registers *)
Definition count_registers (register_list : Z) : Z := count_loop 16 register_list 0.

(* @ arm7tdmi.cpp:473-475 register_list_contains *)
Definition register_list_contains (register_list index : Z) : bool :=
  has register_list (Z.shiftl 1 index).

(* @ arm7tdmi.cpp:477-479 block_transfer_has_pc *)
Definition block_transfer_has_pc (register_list : Z) : bool :=
  register_list_contains register_list kPc.

(* @ arm7tdmi.cpp:18-21 BlockTransferAddress *)
Record BlockTransferAddress : Type := mkBlockTransferAddress {
  ba_first : Z;
  ba_write_back : Z
}.

(* @ arm7tdmi.cpp:481-489 block_transfer_address *)
Definition block_transfer_address (base register_count : Z) (pre_index up : bool)
    : BlockTransferAddress :=
  let byte_count := u32 (register_count * 4) in
  if up then
    mkBlockTransferAddress (if pre_index then u32 (base + 4) else base) (u32 (base + byte_count))
  else
    mkBlockTransferAddress
      (if pre_index then u32 (base - byte_count) else u32 (base - byte_count + 4))
      (u32 (base - byte_count)).

(* @ arm7tdmi.cpp:1250-1255 sign_extend8 *)
Definition sign_extend8 (value : Z) : Z :=
  if has value 0x80 then Z.lor 0xFFFFFF00 value else value.

(* @ arm7tdmi.cpp:1257-1262 sign_extend16 *)
Definition sign_extend16 (value : Z) : Z :=
  if has value 0x8000 then Z.lor 0xFFFF0000 value else value.

(* @ arm7tdmi.cpp:2069-2087 Arm7tdmi::exception_vector *)
Definition exception_vector (kind : ExceptionKind.t) : ExceptionVector :=
  match kind with
  | ExceptionKind.reset =>
      mkExceptionVector kind 0x00 CpuMode.supervisor 0 false true true
  | ExceptionKind.undefined_instruction =>
      mkExceptionVector kind 0x04 CpuMode.undefined 4 true true false
  | ExceptionKind.software_interrupt =>
      mkExceptionVector kind 0x08 CpuMode.supervisor 4 true true false
  | ExceptionKind.prefetch_abort =>
      mkExceptionVector kind 0x0C CpuMode.abort 4 true true false
  | ExceptionKind.data_abort =>
      mkExceptionVector kind 0x10 CpuMode.abort 8 true true false
  | ExceptionKind.irq => mkExceptionVector kind 0x18 CpuMode.irq 4 true true false
  | ExceptionKind.fiq => mkExceptionVector kind 0x1C CpuMode.fiq 4 true true true
  end.

(* @ arm7tdmi.hpp:471-473 Arm7tdmi::irq_vector_address *)
Definition irq_vector_address : Z := 0x00000018.

(* @ arm7tdmi.cpp:2089-2091 Arm7tdmi::is_irq_vector_address *)
Definition is_irq_vector_address (address : Z) : bool := address =? irq_vector_address.
