(* ===== verification/ArmDecode.v ===== *)
(** * The ARM7TDMI: instruction decoders

    The [can_decode_*] predicates and [decode_*] functions of [Arm7tdmi]
    ([src/core/arm7tdmi.cpp]).  A decoder throws [std::invalid_argument] on an
    instruction its predicate rejects; an ARM instruction is a 32-bit [Z], a
    Thumb instruction a 16-bit one. *)

From S2P Require Import Prelude.
From S2P Require Import ArmTypes.

(** [static_cast<ArmCondition>(bits(instruction, 28, 0xFU))]. *)
Definition condition_field (instruction : Z) : ArmCondition.t :=
  ArmCondition.of_bits (bits instruction 28 0xF).

(** [static_cast<ArmOpcode>(bits(instruction, 21, 0xFU))]. *)
Definition opcode_field (instruction : Z) : ArmOpcode.t :=
  ArmOpcode.of_bits (bits instruction 21 0xF).

(** [static_cast<ArmShiftType>(bits(instruction, 5, 0x3U))]. *)
Definition shift_type_field (instruction : Z) : ArmShiftType.t :=
  ArmShiftType.of_bits (bits instruction 5 0x3).

(** [(instruction >> shift) & mask], a 32-bit field. *)
Definition field (instruction shift mask : Z) : Z := Z.land (Z.shiftr instruction shift) mask.

(** [if (!can_decode(...)) throw ...; return {...}]. *)
Definition checked {A} (accepted : bool) (decoded : A) : exc A :=
  if accepted then Ret decoded else Throw.

(** ** PSR transfers and swaps *)

(* @ arm7tdmi.cpp:1331-1333 Arm7tdmi::can_decode_psr_transfer *)
Definition is_mrs (instruction : Z) : bool :=
  (bits instruction 23 0x1F =? 0x2) && (bits instruction 16 0x3F =? 0x0F) &&
  (Z.land instruction 0xFFF =? 0).

(* @ arm7tdmi.cpp:1326-1348 Arm7tdmi::can_decode_psr_transfer *)
Definition can_decode_psr_transfer (instruction : Z) : bool :=
  if negb (supported_condition (bits instruction 28 0xF)) then false
  else
    let op_group := bits instruction 23 0x1F in
    if is_mrs instruction then true
    else
      let register_msr :=
        (op_group =? 0x2) && bit instruction 21 && negb (bit instruction 20) &&
        (bits instruction 12 0xF =? 0xF) && (bits instruction 4 0xFF =? 0) &&
        negb (bits instruction 16 0xF =? 0) in
      let immediate_msr :=
        (op_group =? 0x6) && bit instruction 21 && negb (bit instruction 20) &&
        (bits instruction 12 0xF =? 0xF) && negb (bits instruction 16 0xF =? 0) in
      register_msr || immediate_msr.

(** [((instruction >> 22) & 1) == 1 ? spsr : cpsr]. *)
Definition psr_field (instruction : Z) : ArmProgramStatusRegister.t :=
  if bit instruction 22 then ArmProgramStatusRegister.spsr else ArmProgramStatusRegister.cpsr.

(* @ arm7tdmi.cpp:1350-1390 Arm7tdmi::decode_psr_transfer *)
Definition decode_psr_transfer (instruction : Z) : exc DecodedPsrTransferInstruction :=
  checked (can_decode_psr_transfer instruction)
    (if is_mrs instruction then
       mkDecodedPsrTransferInstruction (condition_field instruction) false
         (psr_field instruction) (bits instruction 12 0xF) 0 0 false
     else
       let immediate := bit instruction 25 in
       let operand :=
         if immediate
         then rotate_right (Z.land instruction 0xFF) (u8 (bits instruction 8 0xF * 2)) else 0 in
       let rd_or_rm := if immediate then 0 else bits instruction 0 0xF in
       mkDecodedPsrTransferInstruction (condition_field instruction) true
         (psr_field instruction) rd_or_rm (bits instruction 16 0xF) operand immediate).

(* @ arm7tdmi.cpp:1392-1395 Arm7tdmi::can_decode_software_interrupt *)
Definition can_decode_software_interrupt (instruction : Z) : bool :=
  supported_condition (bits instruction 28 0xF) && (field instruction 24 0xF =? 0xF).

(* @ arm7tdmi.cpp:1397-1406 Arm7tdmi::can_decode_swap *)
Definition can_decode_swap (instruction : Z) : bool :=
  let swap_group := bits instruction 23 0x1F =? 0x2 in
  let swap_shape := (field instruction 20 0x3 =? 0) && (bits instruction 4 0xFF =? 0x9) in
  swap_group && swap_shape && supported_condition (bits instruction 28 0xF) &&
  negb (bits instruction 16 0xF =? kPc) && negb (bits instruction 12 0xF =? kPc) &&
  negb (bits instruction 0 0xF =? kPc).

(* @ arm7tdmi.cpp:1408-1420 Arm7tdmi::decode_swap *)
Definition decode_swap (instruction : Z) : exc DecodedSwapInstruction :=
  checked (can_decode_swap instruction)
    (mkDecodedSwapInstruction (condition_field instruction) (bit instruction 22)
       (bits instruction 16 0xF) (bits instruction 12 0xF) (bits instruction 0 0xF)).

(** ** Data processing *)

(* @ arm7tdmi.cpp:1065-1078 Arm7tdmi::can_decode_data_processing_immediate *)
Definition can_decode_data_processing_immediate (instruction : Z) : bool :=
  if can_decode_psr_transfer instruction then false
  else
    let data_processing_group := field instruction 26 0x3 =? 0 in
    let immediate_operand := bit instruction 25 in
    if negb data_processing_group || negb immediate_operand then false
    else
      supported_condition (bits instruction 28 0xF) &&
      supported_data_processing_opcode (bits instruction 21 0xF).

(* @ arm7tdmi.cpp:1080-1098 Arm7tdmi::decode_data_processing_immediate *)
Definition decode_data_processing_immediate (instruction : Z) : exc DecodedArmInstruction :=
  checked (can_decode_data_processing_immediate instruction)
    (let rotate := bits instruction 8 0xF in
     let immediate := Z.land instruction 0xFF in
     let operand2 := rotate_right immediate (u8 (rotate * 2)) in
     mkDecodedArmInstruction (condition_field instruction) (opcode_field instruction)
       (bit instruction 20) (bits instruction 16 0xF) (bits instruction 12 0xF) operand2
       (negb (rotate =? 0)) (has operand2 0x80000000)).

(* @ arm7tdmi.cpp:1100-1117 Arm7tdmi::can_decode_data_processing_register_shift *)
Definition can_decode_data_processing_register_shift (instruction : Z) : bool :=
  if can_decode_psr_transfer instruction || can_decode_swap instruction then false
  else
    let data_processing_group := field instruction 26 0x3 =? 0 in
    let register_operand := negb (bit instruction 25) in
    let immediate_shift := negb (bit instruction 4) in
    let register_shift := bit instruction 4 && negb (bit instruction 7) in
    if negb data_processing_group || negb register_operand ||
       (negb immediate_shift && negb register_shift)
    then false
    else
      supported_condition (bits instruction 28 0xF) &&
      supported_data_processing_opcode (bits instruction 21 0xF).

(** The fields of a data-processing instruction with a shifted register
    operand: the two overloads return the same aggregate. *)
(* @ arm7tdmi.cpp:1135-1144 Arm7tdmi::decode_data_processing_register_shift *)
Definition shifted_instruction (instruction : Z) (shifter : ShifterResult) :=
  mkDecodedArmInstruction (condition_field instruction) (opcode_field instruction)
    (bit instruction 20) (bits instruction 16 0xF) (bits instruction 12 0xF)
    (sh_value shifter) (carry_valid shifter) (sh_carry shifter).

(** The overload that takes the carry: shifts by an immediate amount. *)
(* @ arm7tdmi.cpp:1124-1145 Arm7tdmi::decode_data_processing_register_shift *)
Definition decode_data_processing_immediate_shift (instruction rm_value : Z) (carry_in : bool)
    : exc DecodedArmInstruction :=
  let immediate_shift := negb (bit instruction 4) in
  checked (can_decode_data_processing_register_shift instruction && immediate_shift)
    (shifted_instruction instruction
       (apply_immediate_shift rm_value (shift_type_field instruction)
          (bits instruction 7 0x1F) carry_in)).

(** The overload that takes the value of [Rs]: shifts by a register. *)
(* @ arm7tdmi.cpp:1147-1168 Arm7tdmi::decode_data_processing_register_shift *)
Definition decode_data_processing_register_shift (instruction rm_value rs_value : Z)
    : exc DecodedArmInstruction :=
  let register_shift := bit instruction 4 && negb (bit instruction 7) in
  checked (can_decode_data_processing_register_shift instruction && register_shift)
    (shifted_instruction instruction
       (apply_register_shift rm_value (shift_type_field instruction)
          (u8 (Z.land rs_value 0xFF)))).

(** ** Multiplies *)

(* @ arm7tdmi.cpp:1170-1174 Arm7tdmi::can_decode_multiply *)
Definition can_decode_multiply (instruction : Z) : bool :=
  (field instruction 22 0x3F =? 0) && (field instruction 4 0xF =? 0x9) &&
  supported_condition (bits instruction 28 0xF).

(* @ arm7tdmi.cpp:1176-1190 Arm7tdmi::decode_multiply *)
Definition decode_multiply (instruction : Z) : exc DecodedMultiplyInstruction :=
  checked (can_decode_multiply instruction)
    (mkDecodedMultiplyInstruction (condition_field instruction) (bit instruction 21)
       (bit instruction 20) (bits instruction 16 0xF) (bits instruction 12 0xF)
       (bits instruction 8 0xF) (bits instruction 0 0xF)).

(* @ arm7tdmi.cpp:1192-1197 Arm7tdmi::can_decode_multiply_long *)
Definition can_decode_multiply_long (instruction : Z) : bool :=
  (field instruction 23 0x1F =? 0x1) && (field instruction 4 0xF =? 0x9) &&
  supported_condition (bits instruction 28 0xF).

(* @ arm7tdmi.cpp:1199-1214 Arm7tdmi::decode_multiply_long *)
Definition decode_multiply_long (instruction : Z) : exc DecodedMultiplyLongInstruction :=
  checked (can_decode_multiply_long instruction)
    (mkDecodedMultiplyLongInstruction (condition_field instruction) (bit instruction 22)
       (bit instruction 21) (bit instruction 20) (bits instruction 16 0xF)
       (bits instruction 12 0xF) (bits instruction 8 0xF) (bits instruction 0 0xF)).

(** ** Branches *)

(* @ arm7tdmi.cpp:1216-1219 Arm7tdmi::can_decode_branch *)
Definition can_decode_branch (instruction : Z) : bool :=
  (field instruction 25 0x7 =? 0x5) && supported_condition (bits instruction 28 0xF).

(* @ arm7tdmi.cpp:1221-1231 Arm7tdmi::decode_branch *)
Definition decode_branch (instruction : Z) : exc DecodedBranchInstruction :=
  checked (can_decode_branch instruction)
    (mkDecodedBranchInstruction (condition_field instruction) (bit instruction 24)
       (sign_extend_branch_offset instruction)).

(* @ arm7tdmi.cpp:1233-1236 Arm7tdmi::can_decode_branch_exchange *)
Definition can_decode_branch_exchange (instruction : Z) : bool :=
  (Z.land instruction 0x0FFFFFF0 =? 0x012FFF10) &&
  supported_condition (bits instruction 28 0xF).

(* @ arm7tdmi.cpp:1238-1248 Arm7tdmi::decode_branch_exchange *)
Definition decode_branch_exchange (instruction : Z) : exc DecodedBranchExchangeInstruction :=
  checked (can_decode_branch_exchange instruction)
    (mkDecodedBranchExchangeInstruction (condition_field instruction) (bits instruction 0 0xF)).

(** ** Data transfers *)

(* @ arm7tdmi.cpp:1264-1269 Arm7tdmi::can_decode_single_data_transfer_immediate *)
Definition can_decode_single_data_transfer_immediate (instruction : Z) : bool :=
  (field instruction 26 0x3 =? 0x1) && negb (bit instruction 25) &&
  supported_condition (bits instruction 28 0xF).

(** The fields of a single data transfer, its offset apart. *)
(* @ arm7tdmi.cpp:1277-1287 Arm7tdmi::decode_single_data_transfer_immediate *)
Definition single_data_transfer (instruction offset : Z) : DecodedSingleDataTransferInstruction :=
  mkDecodedSingleDataTransferInstruction (condition_field instruction) (bit instruction 20)
    (bit instruction 22) (bit instruction 24) (bit instruction 23) (bit instruction 21)
    (bits instruction 16 0xF) (bits instruction 12 0xF) offset.

(* @ arm7tdmi.cpp:1271-1288 Arm7tdmi::decode_single_data_transfer_immediate *)
Definition decode_single_data_transfer_immediate (instruction : Z)
    : exc DecodedSingleDataTransferInstruction :=
  checked (can_decode_single_data_transfer_immediate instruction)
    (single_data_transfer instruction (Z.land instruction 0xFFF)).

(* @ arm7tdmi.cpp:1290-1296 Arm7tdmi::can_decode_single_data_transfer_register *)
Definition can_decode_single_data_transfer_register (instruction : Z) : bool :=
  (field instruction 26 0x3 =? 0x1) && bit instruction 25 && negb (bit instruction 4) &&
  supported_condition (bits instruction 28 0xF).

(* @ arm7tdmi.cpp:1303-1324 Arm7tdmi::decode_single_data_transfer_register *)
Definition decode_single_data_transfer_register (instruction rm_value : Z) (carry_in : bool)
    : exc DecodedSingleDataTransferInstruction :=
  checked (can_decode_single_data_transfer_register instruction)
    (let shifter :=
       apply_immediate_shift rm_value (shift_type_field instruction)
         (bits instruction 7 0x1F) carry_in in
     single_data_transfer instruction (sh_value shifter)).

(** The shape both halfword forms share. *)
(* @ arm7tdmi.cpp:1425-1432 Arm7tdmi::can_decode_halfword_data_transfer_immediate *)
Definition halfword_shape (instruction : Z) : bool :=
  let shape := bit instruction 7 && bit instruction 4 in
  let transfer_kind := bits instruction 5 0x3 in
  let load := bit instruction 20 in
  let unsigned_halfword := transfer_kind =? 0x1 in
  let signed_byte_or_halfword := load && ((transfer_kind =? 0x2) || (transfer_kind =? 0x3)) in
  shape && (unsigned_halfword || signed_byte_or_halfword).

(* @ arm7tdmi.cpp:1422-1435 Arm7tdmi::can_decode_halfword_data_transfer_immediate *)
Definition can_decode_halfword_data_transfer_immediate (instruction : Z) : bool :=
  (field instruction 25 0x7 =? 0) && bit instruction 22 && halfword_shape instruction &&
  supported_condition (bits instruction 28 0xF).

(** The fields of a halfword transfer, its offset apart. *)
(* @ arm7tdmi.cpp:1443-1455 Arm7tdmi::decode_halfword_data_transfer_immediate *)
Definition halfword_data_transfer (instruction offset : Z)
    : DecodedHalfwordDataTransferInstruction :=
  mkDecodedHalfwordDataTransferInstruction (condition_field instruction) (bit instruction 20)
    (bit instruction 6) (bit instruction 5) (bit instruction 24) (bit instruction 23)
    (bit instruction 21) (bits instruction 16 0xF) (bits instruction 12 0xF) offset.

(* @ arm7tdmi.cpp:1437-1456 Arm7tdmi::decode_halfword_data_transfer_immediate *)
Definition decode_halfword_data_transfer_immediate (instruction : Z)
    : exc DecodedHalfwordDataTransferInstruction :=
  checked (can_decode_halfword_data_transfer_immediate instruction)
    (halfword_data_transfer instruction
       (Z.lor (Z.shiftl (bits instruction 8 0xF) 4) (bits instruction 0 0xF))).

(* @ arm7tdmi.cpp:1458-1472 Arm7tdmi::can_decode_halfword_data_transfer_register *)
Definition can_decode_halfword_data_transfer_register (instruction : Z) : bool :=
  (field instruction 25 0x7 =? 0) && negb (bit instruction 22) && halfword_shape instruction &&
  (bits instruction 8 0xF =? 0) && supported_condition (bits instruction 28 0xF).

(* @ arm7tdmi.cpp:1474-1492 Arm7tdmi::decode_halfword_data_transfer_register *)
Definition decode_halfword_data_transfer_register (instruction rm_value : Z)
    : exc DecodedHalfwordDataTransferInstruction :=
  checked (can_decode_halfword_data_transfer_register instruction)
    (halfword_data_transfer instruction rm_value).

(* @ arm7tdmi.cpp:1494-1503 Arm7tdmi::can_decode_block_data_transfer *)
Definition can_decode_block_data_transfer (instruction : Z) : bool :=
  (field instruction 25 0x7 =? 0x4) && negb (Z.land instruction 0xFFFF =? 0) &&
  negb (bits instruction 16 0xF =? kPc) && supported_condition (bits instruction 28 0xF).

(* @ arm7tdmi.cpp:1505-1520 Arm7tdmi::decode_block_data_transfer *)
Definition decode_block_data_transfer (instruction : Z)
    : exc DecodedBlockDataTransferInstruction :=
  checked (can_decode_block_data_transfer instruction)
    (mkDecodedBlockDataTransferInstruction (condition_field instruction) (bit instruction 20)
       (bit instruction 24) (bit instruction 23) (bit instruction 21)
       (bits instruction 16 0xF) (Z.land instruction 0xFFFF)).
