(* ===== verification/ThumbDecode.v ===== *)
(** * The ARM7TDMI: Thumb instruction decoders

    The [can_decode_thumb_*] predicates and [decode_thumb_*] functions of
    [Arm7tdmi] ([src/core/arm7tdmi.cpp]); an instruction is a 16-bit [Z]. *)

From S2P Require Import Prelude.
From S2P Require Import ArmTypes.
From S2P Require Import ArmDecode.

(* @ arm7tdmi.cpp:1522-1524 Arm7tdmi::can_decode_thumb_add_subtract *)
Definition can_decode_thumb_add_subtract (instruction : Z) : bool :=
  field instruction 11 0x1F =? 0x3.

(* @ arm7tdmi.cpp:1750-1765 Arm7tdmi::decode_thumb_add_subtract *)
Definition decode_thumb_add_subtract (instruction : Z) : exc DecodedThumbInstruction :=
  checked (can_decode_thumb_add_subtract instruction)
    (let immediate_operand := bit instruction 10 in
     let subtract := bit instruction 9 in
     mkDecodedThumbInstruction (if subtract then ThumbOpcode.sub else ThumbOpcode.add)
       (bits instruction 0 0x7) (bits instruction 3 0x7) (bits instruction 6 0x7)
       (negb immediate_operand)).

(* @ arm7tdmi.cpp:1526-1529 Arm7tdmi::can_decode_thumb_shift_immediate *)
Definition can_decode_thumb_shift_immediate (instruction : Z) : bool :=
  (field instruction 13 0x7 =? 0x0) && negb (field instruction 11 0x3 =? 0x3).

(* @ arm7tdmi.cpp:1531-1557 Arm7tdmi::decode_thumb_shift_immediate *)
Definition decode_thumb_shift_immediate (instruction : Z) : exc DecodedThumbShiftInstruction :=
  checked (can_decode_thumb_shift_immediate instruction)
    (let type :=
       match bits instruction 11 0x3 with
       | 0x0 => ArmShiftType.lsl
       | 0x1 => ArmShiftType.lsr
       | 0x2 => ArmShiftType.asr
       | _ => ArmShiftType.lsl
       end in
     mkDecodedThumbShiftInstruction type (bits instruction 0 0x7) (bits instruction 3 0x7)
       (bits instruction 6 0x1F)).

(* @ arm7tdmi.cpp:1559-1561 Arm7tdmi::can_decode_thumb_alu *)
Definition can_decode_thumb_alu (instruction : Z) : bool := field instruction 10 0x3F =? 0x10.

(* @ arm7tdmi.cpp:1563-1573 Arm7tdmi::decode_thumb_alu *)
Definition decode_thumb_alu (instruction : Z) : exc DecodedThumbAluInstruction :=
  checked (can_decode_thumb_alu instruction)
    (mkDecodedThumbAluInstruction (ThumbAluOpcode.of_bits (bits instruction 6 0xF))
       (bits instruction 0 0x7) (bits instruction 3 0x7)).

(* @ arm7tdmi.cpp:1767-1769 Arm7tdmi::can_decode_thumb_immediate *)
Definition can_decode_thumb_immediate (instruction : Z) : bool := field instruction 13 0x7 =? 0x1.

(* @ arm7tdmi.cpp:1771-1795 Arm7tdmi::decode_thumb_immediate *)
Definition decode_thumb_immediate (instruction : Z) : exc DecodedThumbInstruction :=
  checked (can_decode_thumb_immediate instruction)
    (let opcode :=
       match bits instruction 11 0x3 with
       | 0x0 => ThumbOpcode.mov
       | 0x1 => ThumbOpcode.cmp
       | 0x2 => ThumbOpcode.add
       | 0x3 => ThumbOpcode.sub
       | _ => ThumbOpcode.mov
       end in
     let rd := bits instruction 8 0x7 in
     mkDecodedThumbInstruction opcode rd rd (Z.land instruction 0xFF) false).

(* @ arm7tdmi.cpp:1797-1799 Arm7tdmi::can_decode_thumb_unconditional_branch *)
Definition can_decode_thumb_unconditional_branch (instruction : Z) : bool :=
  field instruction 11 0x1F =? 0x1C.

(* @ arm7tdmi.cpp:1801-1809 Arm7tdmi::decode_thumb_unconditional_branch *)
Definition decode_thumb_unconditional_branch (instruction : Z)
    : exc DecodedThumbBranchInstruction :=
  checked (can_decode_thumb_unconditional_branch instruction)
    (mkDecodedThumbBranchInstruction false ArmCondition.al
       (sign_extend_thumb_offset (Z.land instruction 0x7FF) 11)).

(* @ arm7tdmi.cpp:1811-1817 Arm7tdmi::can_decode_thumb_conditional_branch *)
Definition can_decode_thumb_conditional_branch (instruction : Z) : bool :=
  if negb (field instruction 12 0xF =? 0xD) then false
  else supported_thumb_branch_condition (bits instruction 8 0xF).

(* @ arm7tdmi.cpp:1819-1827 Arm7tdmi::decode_thumb_conditional_branch *)
Definition decode_thumb_conditional_branch (instruction : Z)
    : exc DecodedThumbBranchInstruction :=
  checked (can_decode_thumb_conditional_branch instruction)
    (mkDecodedThumbBranchInstruction true (ArmCondition.of_bits (bits instruction 8 0xF))
       (sign_extend_thumb_offset (Z.land instruction 0xFF) 8)).

(* @ arm7tdmi.cpp:1829-1831 Arm7tdmi::can_decode_thumb_long_branch_link *)
Definition can_decode_thumb_long_branch_link (instruction : Z) : bool :=
  (Z.land instruction 0xF800 =? 0xF000) || (Z.land instruction 0xF800 =? 0xF800).

(* @ arm7tdmi.cpp:1833-1845 Arm7tdmi::decode_thumb_long_branch_link *)
Definition decode_thumb_long_branch_link (instruction : Z)
    : exc DecodedThumbLongBranchLinkInstruction :=
  checked (can_decode_thumb_long_branch_link instruction)
    (let second_half := has instruction 0x0800 in
     let raw := Z.land instruction 0x07FF in
     mkDecodedThumbLongBranchLinkInstruction second_half
       (if second_half then raw * 2 else sign_extend_thumb_bl_prefix raw)).

(* @ arm7tdmi.cpp:1847-1856 Arm7tdmi::can_decode_thumb_high_register *)
Definition can_decode_thumb_high_register (instruction : Z) : bool :=
  field instruction 10 0x3F =? 0x11.

(* @ arm7tdmi.cpp:1858-1886 Arm7tdmi::decode_thumb_high_register *)
Definition decode_thumb_high_register (instruction : Z)
    : exc DecodedThumbHighRegisterInstruction :=
  checked (can_decode_thumb_high_register instruction)
    (let opcode :=
       match bits instruction 8 0x3 with
       | 0x0 => ThumbHighRegisterOpcode.add
       | 0x1 => ThumbHighRegisterOpcode.cmp
       | 0x2 => ThumbHighRegisterOpcode.mov
       | 0x3 => ThumbHighRegisterOpcode.bx
       | _ => ThumbHighRegisterOpcode.add
       end in
     mkDecodedThumbHighRegisterInstruction opcode
       (u8 (Z.lor (bits instruction 0 0x7) (Z.shiftl (bits instruction 7 0x1) 3)))
       (u8 (Z.lor (bits instruction 3 0x7) (Z.shiftl (bits instruction 6 0x1) 3)))).

(* @ arm7tdmi.cpp:1888-1903 Arm7tdmi::can_decode_thumb_memory_transfer *)
Definition can_decode_thumb_memory_transfer (instruction : Z) : bool :=
  let top_nibble := bits instruction 12 0xF in
  if field instruction 11 0x1F =? 0x9 then true
  else if top_nibble =? 0x5 then true
  else if field instruction 13 0x7 =? 0x3 then true
  else if top_nibble =? 0x8 then true
  else top_nibble =? 0x9.

(* @ arm7tdmi.cpp:1913-1940 Arm7tdmi::decode_thumb_memory_transfer *)
Definition register_transfer_kind (op : Z) : ThumbMemoryTransferKind.t :=
  match op with
  | 0x0 => ThumbMemoryTransferKind.word
  | 0x1 => ThumbMemoryTransferKind.halfword
  | 0x2 => ThumbMemoryTransferKind.byte
  | 0x3 => ThumbMemoryTransferKind.signed_byte
  | 0x4 => ThumbMemoryTransferKind.word
  | 0x5 => ThumbMemoryTransferKind.halfword
  | 0x6 => ThumbMemoryTransferKind.byte
  | 0x7 => ThumbMemoryTransferKind.signed_halfword
  | _ => ThumbMemoryTransferKind.word
  end.

(* @ arm7tdmi.cpp:1905-1995 Arm7tdmi::decode_thumb_memory_transfer *)
Definition decode_thumb_memory_transfer (instruction : Z)
    : exc DecodedThumbMemoryTransferInstruction :=
  checked (can_decode_thumb_memory_transfer instruction)
    (let top_nibble := bits instruction 12 0xF in
     if field instruction 11 0x1F =? 0x9 then
       mkDecodedThumbMemoryTransferInstruction true ThumbMemoryTransferKind.word
         (bits instruction 8 0x7) kPc (Z.land instruction 0xFF * 4) false
     else if top_nibble =? 0x5 then
       let op := bits instruction 9 0x7 in
       mkDecodedThumbMemoryTransferInstruction ((0x4 <=? op) || (op =? 0x3))
         (register_transfer_kind op) (bits instruction 0 0x7) (bits instruction 3 0x7)
         (bits instruction 6 0x7) true
     else if field instruction 13 0x7 =? 0x3 then
       let byte := bit instruction 12 in
       let load := bit instruction 11 in
       let raw_offset := bits instruction 6 0x1F in
       mkDecodedThumbMemoryTransferInstruction load
         (if byte then ThumbMemoryTransferKind.byte else ThumbMemoryTransferKind.word)
         (bits instruction 0 0x7) (bits instruction 3 0x7)
         (if byte then raw_offset else raw_offset * 4) false
     else if top_nibble =? 0x8 then
       mkDecodedThumbMemoryTransferInstruction (bit instruction 11)
         ThumbMemoryTransferKind.halfword (bits instruction 0 0x7) (bits instruction 3 0x7)
         (bits instruction 6 0x1F * 2) false
     else
       mkDecodedThumbMemoryTransferInstruction (bit instruction 11)
         ThumbMemoryTransferKind.word (bits instruction 8 0x7) 13
         (Z.land instruction 0xFF * 4) false).

(* @ arm7tdmi.cpp:1997-2000 Arm7tdmi::can_decode_thumb_block_transfer *)
Definition can_decode_thumb_block_transfer (instruction : Z) : bool :=
  (field instruction 12 0xF =? 0xC) && negb (Z.land instruction 0xFF =? 0).

(* @ arm7tdmi.cpp:2002-2013 Arm7tdmi::decode_thumb_block_transfer *)
Definition decode_thumb_block_transfer (instruction : Z)
    : exc DecodedThumbBlockTransferInstruction :=
  checked (can_decode_thumb_block_transfer instruction)
    (mkDecodedThumbBlockTransferInstruction (bit instruction 11) (bits instruction 8 0x7)
       (Z.land instruction 0xFF)).

(* @ arm7tdmi.cpp:2015-2017 Arm7tdmi::can_decode_thumb_stack_transfer *)
Definition can_decode_thumb_stack_transfer (instruction : Z) : bool :=
  (Z.land instruction 0xFE00 =? 0xB400) || (Z.land instruction 0xFE00 =? 0xBC00).

(* @ arm7tdmi.cpp:2019-2030 Arm7tdmi::decode_thumb_stack_transfer *)
Definition decode_thumb_stack_transfer (instruction : Z) : exc DecodedThumbStackInstruction :=
  checked (can_decode_thumb_stack_transfer instruction)
    (mkDecodedThumbStackInstruction (has instruction 0x0800) (has instruction 0x0100)
       (Z.land instruction 0x00FF)).

(* @ arm7tdmi.cpp:2032-2034 Arm7tdmi::can_decode_thumb_stack_pointer_adjust *)
Definition can_decode_thumb_stack_pointer_adjust (instruction : Z) : bool :=
  Z.land instruction 0xFF00 =? 0xB000.

(* @ arm7tdmi.cpp:2036-2046 Arm7tdmi::decode_thumb_stack_pointer_adjust *)
Definition decode_thumb_stack_pointer_adjust (instruction : Z)
    : exc DecodedThumbStackPointerInstruction :=
  checked (can_decode_thumb_stack_pointer_adjust instruction)
    (mkDecodedThumbStackPointerInstruction (has instruction 0x0080)
       (Z.land instruction 0x007F * 4)).

(* @ arm7tdmi.cpp:2048-2050 Arm7tdmi::can_decode_thumb_load_address *)
Definition can_decode_thumb_load_address (instruction : Z) : bool :=
  Z.land instruction 0xF000 =? 0xA000.

(* @ arm7tdmi.cpp:2052-2063 Arm7tdmi::decode_thumb_load_address *)
Definition decode_thumb_load_address (instruction : Z)
    : exc DecodedThumbLoadAddressInstruction :=
  checked (can_decode_thumb_load_address instruction)
    (mkDecodedThumbLoadAddressInstruction (has instruction 0x0800) (bits instruction 8 0x7)
       (Z.land instruction 0x00FF * 4)).

(* @ arm7tdmi.cpp:2065-2067 Arm7tdmi::can_decode_thumb_software_interrupt *)
Definition can_decode_thumb_software_interrupt (instruction : Z) : bool :=
  Z.land instruction 0xFF00 =? 0xDF00.
