(* ===== verification/ArmState.v ===== *)
(** * The ARM7TDMI: state, banks and flags

    The registers of [Arm7tdmi] ([include/gba/core/arm7tdmi.hpp],
    [src/core/arm7tdmi.cpp]), the mode switch that exchanges the banked
    registers, the status registers, the flag setters and the snapshot.

    [registers_] is an [std::array] of 16 words and the two R8-R12 banks have
    5: an access at a constant index is in range, one at a computed index is
    [reg] or [set_reg], which throw out of range like [at]. *)

From S2P Require Import Prelude.
From S2P Require Import StateHash.
From S2P Require Import StateMonad.
From S2P Require Import ArmTypes.

(* @ arm7tdmi.hpp:536-564 Arm7tdmi *)
Record Arm7tdmi : Type := mkArm7tdmi {
  registers_ : list Z;
  elapsed_cycles_ : Z;
  negative_ : bool;
  zero_ : bool;
  carry_ : bool;
  overflow_ : bool;
  irq_disabled_ : bool;
  fiq_disabled_ : bool;
  thumb_state_ : bool;
  mode_ : CpuMode.t;
  shared_r8_r12_ : list Z;
  fiq_r8_r12_ : list Z;
  user_sp_ : Z;
  user_lr_ : Z;
  fiq_sp_ : Z;
  fiq_lr_ : Z;
  irq_sp_ : Z;
  irq_lr_ : Z;
  supervisor_sp_ : Z;
  supervisor_lr_ : Z;
  abort_sp_ : Z;
  abort_lr_ : Z;
  undefined_sp_ : Z;
  undefined_lr_ : Z;
  fiq_spsr_ : Z;
  supervisor_spsr_ : Z;
  abort_spsr_ : Z;
  irq_spsr_ : Z;
  undefined_spsr_ : Z
}.

#[export] Instance eta_Arm7tdmi : Eta Arm7tdmi := fun s =>
  mkArm7tdmi
    (registers_ s) (elapsed_cycles_ s) (negative_ s) (zero_ s) (carry_ s) (overflow_ s)
    (irq_disabled_ s) (fiq_disabled_ s) (thumb_state_ s) (mode_ s) (shared_r8_r12_ s)
    (fiq_r8_r12_ s) (user_sp_ s) (user_lr_ s) (fiq_sp_ s) (fiq_lr_ s) (irq_sp_ s)
    (irq_lr_ s) (supervisor_sp_ s) (supervisor_lr_ s) (abort_sp_ s) (abort_lr_ s)
    (undefined_sp_ s) (undefined_lr_ s) (fiq_spsr_ s) (supervisor_spsr_ s) (abort_spsr_ s)
    (irq_spsr_ s) (undefined_spsr_ s).

(* @ arm7tdmi.hpp:344-374 Arm7tdmi::State *)
Record State : Type := mkState {
  st_registers : list Z;
  st_elapsed_cycles : Z;
  st_negative : bool;
  st_zero : bool;
  st_carry : bool;
  st_overflow : bool;
  st_irq_disabled : bool;
  st_fiq_disabled : bool;
  st_thumb_state : bool;
  st_mode : CpuMode.t;
  st_shared_r8_r12 : list Z;
  st_fiq_r8_r12 : list Z;
  st_user_sp : Z;
  st_user_lr : Z;
  st_fiq_sp : Z;
  st_fiq_lr : Z;
  st_irq_sp : Z;
  st_irq_lr : Z;
  st_supervisor_sp : Z;
  st_supervisor_lr : Z;
  st_abort_sp : Z;
  st_abort_lr : Z;
  st_undefined_sp : Z;
  st_undefined_lr : Z;
  st_fiq_spsr : Z;
  st_supervisor_spsr : Z;
  st_abort_spsr : Z;
  st_irq_spsr : Z;
  st_undefined_spsr : Z
}.

(* @ arm7tdmi.cpp:2192-2222 Arm7tdmi::reset *)
Definition reset : Arm7tdmi :=
  mkArm7tdmi (replicate kRegisterCount 0) 0 false false false false false false false
    CpuMode.supervisor (replicate 5 0) (replicate 5 0)
    0 0 0 0 0 0 0 0 0 0 0 0 0 0 0 0 0.

(* @ arm7tdmi.cpp:2228-2260 Arm7tdmi::save_state *)
Definition save_state (s : Arm7tdmi) : State :=
  mkState
    (registers_ s) (elapsed_cycles_ s) (negative_ s) (zero_ s) (carry_ s) (overflow_ s)
    (irq_disabled_ s) (fiq_disabled_ s) (thumb_state_ s) (mode_ s) (shared_r8_r12_ s)
    (fiq_r8_r12_ s) (user_sp_ s) (user_lr_ s) (fiq_sp_ s) (fiq_lr_ s) (irq_sp_ s)
    (irq_lr_ s) (supervisor_sp_ s) (supervisor_lr_ s) (abort_sp_ s) (abort_lr_ s)
    (undefined_sp_ s) (undefined_lr_ s) (fiq_spsr_ s) (supervisor_spsr_ s) (abort_spsr_ s)
    (irq_spsr_ s) (undefined_spsr_ s).

(* @ arm7tdmi.cpp:2262-2297 Arm7tdmi::load_state *)
Definition load_state (state : State) (s : Arm7tdmi) : bool * Arm7tdmi :=
  match decode_cpu_mode (CpuMode.index (st_mode state)) with
  | None => (false, s)
  | Some _ =>
      (true,
       mkArm7tdmi
         (st_registers state) (st_elapsed_cycles state) (st_negative state) (st_zero state)
         (st_carry state) (st_overflow state) (st_irq_disabled state)
         (st_fiq_disabled state) (st_thumb_state state) (st_mode state)
         (st_shared_r8_r12 state) (st_fiq_r8_r12 state) (st_user_sp state)
         (st_user_lr state) (st_fiq_sp state) (st_fiq_lr state) (st_irq_sp state)
         (st_irq_lr state) (st_supervisor_sp state) (st_supervisor_lr state)
         (st_abort_sp state) (st_abort_lr state) (st_undefined_sp state)
         (st_undefined_lr state) (st_fiq_spsr state) (st_supervisor_spsr state)
         (st_abort_spsr state) (st_irq_spsr state) (st_undefined_spsr state))
  end.

(** ** Register access *)

Definition CPU (A : Type) : Type := ST Arm7tdmi A.

(** [registers_.at(i)] at a constant [i]. *)
Definition reg_at (i : nat) (s : Arm7tdmi) : Z := default 0 (registers_ s !! i).

(** [registers_.at(index)]. *)
Definition reg (index : Z) : CPU Z := fun s =>
  r ← array_at (registers_ s) (Z.to_nat index); Ret (r, s).

(** [registers_.at(index) = value]. *)
Definition set_reg (index value : Z) : CPU unit := fun s =>
  l ← array_put (registers_ s) (Z.to_nat index) value; Ret (tt, s <| registers_ := l |>).

(* @ arm7tdmi.cpp:2168-2173 Arm7tdmi::register_value *)
Definition register_value (index : Z) : CPU Z :=
  if Z.of_nat kRegisterCount <=? index then throw else reg index.

(* @ arm7tdmi.cpp:2175-2178 Arm7tdmi::arm_visible_register_value *)
Definition arm_visible_register_value (index : Z) : CPU Z :=
  value ← reg index; mret (if index =? kPc then u32 (value + 8) else value).

(* @ arm7tdmi.cpp:2180-2183 Arm7tdmi::thumb_visible_register_value *)
Definition thumb_visible_register_value (index : Z) : CPU Z :=
  value ← reg index;
  mret (if index =? kPc then Z.land (u32 (value + 4)) (not32 0x1) else value).

(* @ arm7tdmi.cpp:2185-2190 Arm7tdmi::set_register *)
Definition set_register (index value : Z) : CPU unit :=
  if Z.of_nat kRegisterCount <=? index then throw else set_reg index value.

(* @ arm7tdmi.cpp:2224-2226 Arm7tdmi::reset_elapsed_cycles *)
Definition reset_elapsed_cycles (s : Arm7tdmi) : Arm7tdmi := s <| elapsed_cycles_ := 0 |>.

(** ** Mode switches *)

(* @ arm7tdmi.cpp:2444-2482 Arm7tdmi::save_banked_registers *)
Definition save_banked_registers (mode : CpuMode.t) (s : Arm7tdmi) : Arm7tdmi :=
  let r8_r12 := map (fun index => reg_at (8 + index) s) (seq 0 5) in
  let s :=
    match mode with
    | CpuMode.fiq => s <| fiq_r8_r12_ := r8_r12 |>
    | _ => s <| shared_r8_r12_ := r8_r12 |>
    end in
  match mode with
  | CpuMode.fiq => s <| fiq_sp_ := reg_at 13 s |> <| fiq_lr_ := reg_at 14 s |>
  | CpuMode.irq => s <| irq_sp_ := reg_at 13 s |> <| irq_lr_ := reg_at 14 s |>
  | CpuMode.supervisor =>
      s <| supervisor_sp_ := reg_at 13 s |> <| supervisor_lr_ := reg_at 14 s |>
  | CpuMode.abort => s <| abort_sp_ := reg_at 13 s |> <| abort_lr_ := reg_at 14 s |>
  | CpuMode.undefined =>
      s <| undefined_sp_ := reg_at 13 s |> <| undefined_lr_ := reg_at 14 s |>
  | CpuMode.user | CpuMode.system =>
      s <| user_sp_ := reg_at 13 s |> <| user_lr_ := reg_at 14 s |>
  | CpuMode.unnamed _ => s
  end.

(** [registers_.at(13) = sp; registers_.at(14) = lr]. *)
(* @ arm7tdmi.cpp:2493-2494 Arm7tdmi::load_banked_registers *)
Definition load_sp_lr (sp lr : Z) (s : Arm7tdmi) : Arm7tdmi :=
  s <| registers_ ::= fun l => <[14%nat := lr]> (<[13%nat := sp]> l) |>.

(* @ arm7tdmi.cpp:2484-2518 Arm7tdmi::load_banked_registers *)
Definition load_banked_registers (mode : CpuMode.t) (s : Arm7tdmi) : Arm7tdmi :=
  let r8_r12 := match mode with CpuMode.fiq => fiq_r8_r12_ s | _ => shared_r8_r12_ s end in
  let s :=
    s <| registers_ ::= fun l =>
      fold_left (fun l index => <[(8 + index)%nat := default 0 (r8_r12 !! index)]> l)
        (seq 0 5) l |> in
  match mode with
  | CpuMode.fiq => load_sp_lr (fiq_sp_ s) (fiq_lr_ s) s
  | CpuMode.irq => load_sp_lr (irq_sp_ s) (irq_lr_ s) s
  | CpuMode.supervisor => load_sp_lr (supervisor_sp_ s) (supervisor_lr_ s) s
  | CpuMode.abort => load_sp_lr (abort_sp_ s) (abort_lr_ s) s
  | CpuMode.undefined => load_sp_lr (undefined_sp_ s) (undefined_lr_ s) s
  | CpuMode.user | CpuMode.system => load_sp_lr (user_sp_ s) (user_lr_ s) s
  | CpuMode.unnamed _ => s
  end.

(* @ arm7tdmi.cpp:2520-2527 Arm7tdmi::switch_mode *)
Definition switch_mode (mode : CpuMode.t) (s : Arm7tdmi) : Arm7tdmi :=
  if decide (mode_ s = mode) then s
  else
    let s := save_banked_registers (mode_ s) s in
    let s := s <| mode_ := mode |> in
    load_banked_registers (mode_ s) s.

(** ** Status registers *)

(** [if (flag) value |= mask;]. *)
Definition or_if (flag : bool) (mask value : Z) : Z :=
  if flag then Z.lor value mask else value.

(* @ arm7tdmi.cpp:2331-2355 Arm7tdmi::cpsr *)
Definition cpsr (s : Arm7tdmi) : Z :=
  let value := CpuMode.index (mode_ s) in
  let value := or_if (negative_ s) kNegativeFlag value in
  let value := or_if (zero_ s) kZeroFlag value in
  let value := or_if (carry_ s) kCarryFlag value in
  let value := or_if (overflow_ s) kOverflowFlag value in
  let value := or_if (thumb_state_ s) kThumbStateFlag value in
  let value := or_if (fiq_disabled_ s) kFiqDisableFlag value in
  or_if (irq_disabled_ s) kIrqDisableFlag value.

(* @ arm7tdmi.cpp:2357-2372 Arm7tdmi::set_cpsr *)
Definition set_cpsr (value : Z) (s : Arm7tdmi) : bool * Arm7tdmi :=
  match decode_cpu_mode value with
  | None => (false, s)
  | Some mode =>
      let s := s <| negative_ := has value kNegativeFlag |>
                 <| zero_ := has value kZeroFlag |>
                 <| carry_ := has value kCarryFlag |>
                 <| overflow_ := has value kOverflowFlag |>
                 <| thumb_state_ := has value kThumbStateFlag |>
                 <| fiq_disabled_ := has value kFiqDisableFlag |>
                 <| irq_disabled_ := has value kIrqDisableFlag |> in
      (true, switch_mode mode s)
  end.

(* @ arm7tdmi.cpp:2374-2376 Arm7tdmi::has_spsr *)
Definition has_spsr (s : Arm7tdmi) : bool := mode_has_spsr (mode_ s).

(* @ arm7tdmi.cpp:2378-2395 Arm7tdmi::spsr *)
Definition spsr (s : Arm7tdmi) : option Z :=
  match mode_ s with
  | CpuMode.fiq => Some (fiq_spsr_ s)
  | CpuMode.supervisor => Some (supervisor_spsr_ s)
  | CpuMode.abort => Some (abort_spsr_ s)
  | CpuMode.irq => Some (irq_spsr_ s)
  | CpuMode.undefined => Some (undefined_spsr_ s)
  | CpuMode.user | CpuMode.system | CpuMode.unnamed _ => None
  end.

(* @ arm7tdmi.cpp:2397-2419 Arm7tdmi::set_spsr *)
Definition set_spsr (value : Z) (s : Arm7tdmi) : bool * Arm7tdmi :=
  match mode_ s with
  | CpuMode.fiq => (true, s <| fiq_spsr_ := value |>)
  | CpuMode.supervisor => (true, s <| supervisor_spsr_ := value |>)
  | CpuMode.abort => (true, s <| abort_spsr_ := value |>)
  | CpuMode.irq => (true, s <| irq_spsr_ := value |>)
  | CpuMode.undefined => (true, s <| undefined_spsr_ := value |>)
  | CpuMode.user | CpuMode.system | CpuMode.unnamed _ => (false, s)
  end.

(* @ arm7tdmi.cpp:2421-2442 Arm7tdmi::set_spsr_for_mode *)
Definition set_spsr_for_mode (mode : CpuMode.t) (value : Z) (s : Arm7tdmi) : Arm7tdmi :=
  match mode with
  | CpuMode.fiq => s <| fiq_spsr_ := value |>
  | CpuMode.supervisor => s <| supervisor_spsr_ := value |>
  | CpuMode.abort => s <| abort_spsr_ := value |>
  | CpuMode.irq => s <| irq_spsr_ := value |>
  | CpuMode.undefined => s <| undefined_spsr_ := value |>
  | CpuMode.user | CpuMode.system | CpuMode.unnamed _ => s
  end.

(** ** Flags *)

(* @ arm7tdmi.cpp:4067-4101 Arm7tdmi::condition_passed *)
Definition condition_passed (condition : ArmCondition.t) (s : Arm7tdmi) : bool :=
  match condition with
  | ArmCondition.eq => zero_ s
  | ArmCondition.ne => negb (zero_ s)
  | ArmCondition.cs => carry_ s
  | ArmCondition.cc => negb (carry_ s)
  | ArmCondition.mi => negative_ s
  | ArmCondition.pl => negb (negative_ s)
  | ArmCondition.vs => overflow_ s
  | ArmCondition.vc => negb (overflow_ s)
  | ArmCondition.hi => carry_ s && negb (zero_ s)
  | ArmCondition.ls => negb (carry_ s) || zero_ s
  | ArmCondition.ge => Bool.eqb (negative_ s) (overflow_ s)
  | ArmCondition.lt => negb (Bool.eqb (negative_ s) (overflow_ s))
  | ArmCondition.gt => negb (zero_ s) && Bool.eqb (negative_ s) (overflow_ s)
  | ArmCondition.le => zero_ s || negb (Bool.eqb (negative_ s) (overflow_ s))
  | ArmCondition.al => true
  | ArmCondition.nv => false
  end.

(* @ arm7tdmi.cpp:4103-4106 Arm7tdmi::set_nz *)
Definition set_nz (result : Z) (s : Arm7tdmi) : Arm7tdmi :=
  s <| negative_ := sign_bit result |> <| zero_ := result =? 0 |>.

(* @ arm7tdmi.cpp:4108-4111 Arm7tdmi::set_nz64 *)
Definition set_nz64 (result : Z) (s : Arm7tdmi) : Arm7tdmi :=
  s <| negative_ := has result 0x8000000000000000 |> <| zero_ := result =? 0 |>.

(** The signs of the operands agree and the result's differs. *)
(* @ arm7tdmi.cpp:4116-4119 Arm7tdmi::set_add_flags *)
Definition add_overflow (left right result : Z) : bool :=
  Bool.eqb (sign_bit left) (sign_bit right) && negb (Bool.eqb (sign_bit left) (sign_bit result)).

(** The signs of the operands differ and the result's is not the left one's. *)
(* @ arm7tdmi.cpp:4137-4140 Arm7tdmi::set_sub_flags *)
Definition sub_overflow (left right result : Z) : bool :=
  negb (Bool.eqb (sign_bit left) (sign_bit right)) &&
  negb (Bool.eqb (sign_bit left) (sign_bit result)).

(* @ arm7tdmi.cpp:4113-4120 Arm7tdmi::set_add_flags *)
Definition set_add_flags (left right result : Z) (s : Arm7tdmi) : Arm7tdmi :=
  set_nz result s <| carry_ := result <? left |>
                  <| overflow_ := add_overflow left right result |>.

(* @ arm7tdmi.cpp:4122-4132 Arm7tdmi::set_adc_flags *)
Definition set_adc_flags (left right : Z) (carry_in : bool) (result : Z) (s : Arm7tdmi)
    : Arm7tdmi :=
  let sum := u64 (left + right + z_of_bool carry_in) in
  set_nz result s <| carry_ := 0xFFFFFFFF <? sum |>
                  <| overflow_ := add_overflow left right result |>.

(* @ arm7tdmi.cpp:4134-4141 Arm7tdmi::set_sub_flags *)
Definition set_sub_flags (left right result : Z) (s : Arm7tdmi) : Arm7tdmi :=
  set_nz result s <| carry_ := right <=? left |>
                  <| overflow_ := sub_overflow left right result |>.

(* @ arm7tdmi.cpp:4143-4153 Arm7tdmi::set_sbc_flags *)
Definition set_sbc_flags (left right : Z) (carry_in : bool) (result : Z) (s : Arm7tdmi)
    : Arm7tdmi :=
  let subtrahend := u64 (right + (if carry_in then 0 else 1)) in
  set_nz result s <| carry_ := subtrahend <=? left |>
                  <| overflow_ := sub_overflow left right result |>.

(* @ arm7tdmi.cpp:4155-4161 Arm7tdmi::set_logical_flags *)
Definition set_logical_flags (result : Z) (decoded : DecodedArmInstruction) (s : Arm7tdmi)
    : Arm7tdmi :=
  let s := set_nz result s in
  if shifter_carry_valid decoded then s <| carry_ := shifter_carry decoded |> else s.

(* @ arm7tdmi.cpp:2533-2571 Arm7tdmi::state_hash *)
Definition state_hash (s : Arm7tdmi) : Z :=
  let add_words l h := fold_left (fun h r => add_u32 r h) l h in
  let h := add_words (registers_ s) kOffsetBasis in
  let h := add_u64 (elapsed_cycles_ s) h in
  let h := add_bool (negative_ s) h in
  let h := add_bool (zero_ s) h in
  let h := add_bool (carry_ s) h in
  let h := add_bool (overflow_ s) h in
  let h := add_bool (irq_disabled_ s) h in
  let h := add_bool (fiq_disabled_ s) h in
  let h := add_bool (thumb_state_ s) h in
  let h := add_u8 (CpuMode.index (mode_ s)) h in
  let h := add_words (shared_r8_r12_ s) h in
  let h := add_words (fiq_r8_r12_ s) h in
  let h := add_u32 (user_sp_ s) h in
  let h := add_u32 (user_lr_ s) h in
  let h := add_u32 (fiq_sp_ s) h in
  let h := add_u32 (fiq_lr_ s) h in
  let h := add_u32 (irq_sp_ s) h in
  let h := add_u32 (irq_lr_ s) h in
  let h := add_u32 (supervisor_sp_ s) h in
  let h := add_u32 (supervisor_lr_ s) h in
  let h := add_u32 (abort_sp_ s) h in
  let h := add_u32 (abort_lr_ s) h in
  let h := add_u32 (undefined_sp_ s) h in
  let h := add_u32 (undefined_lr_ s) h in
  let h := add_u32 (fiq_spsr_ s) h in
  let h := add_u32 (supervisor_spsr_ s) h in
  let h := add_u32 (abort_spsr_ s) h in
  let h := add_u32 (irq_spsr_ s) h in
  add_u32 (undefined_spsr_ s) h.
