(* ===== verification/ArmMultiply.v ===== *)
(** * The ARM7TDMI: the carry of a long multiplication

    The model of the hardware's Booth multiplier at the top of
    [src/core/arm7tdmi.cpp], which a flag-setting UMULL/SMULL/UMLAL/SMLAL uses
    for the carry flag.  [std::uint64_t] operations wrap at 64 bits. *)

From S2P Require Import Prelude.
From S2P Require Import ArmTypes.

(* @ arm7tdmi.cpp:23-26 CarrySaveAdderOutput *)
Record CarrySaveAdderOutput : Type := mkCarrySaveAdderOutput {
  cs_output : Z;
  cs_carry : Z
}.

(* @ arm7tdmi.cpp:28-31 BoothRecodingOutput *)
Record BoothRecodingOutput : Type := mkBoothRecodingOutput {
  br_output : Z;
  br_carry : bool
}.

(* @ arm7tdmi.cpp:33-36 U128Pair *)
Record U128Pair : Type := mkU128Pair {
  lo : Z;
  hi : Z
}.

(* @ arm7tdmi.cpp:41-44 Adder32Output *)
Record Adder32Output : Type := mkAdder32Output {
  ad_output : Z;
  ad_carry : bool
}.

(* @ arm7tdmi.cpp:46-49 MultiplyHardwareOutput *)
Record MultiplyHardwareOutput : Type := mkMultiplyHardwareOutput {
  mh_output : Z;
  mh_carry : bool
}.

(** [value << n] and [~value] of 64 bits. *)
Definition shl64 (value n : Z) : Z := u64 (Z.shiftl value n).
Definition not64 (value : Z) : Z := u64 (Z.lnot value).

(* @ arm7tdmi.cpp:94-96 bit64 *)
Definition bit64 (value bit : Z) : bool := negb (Z.land (Z.shiftr value bit) 1 =? 0).

(* @ arm7tdmi.cpp:98-106 mask64_range *)
Definition mask64_range (low high : Z) : Z :=
  if high <=? low then 0
  else if 64 <=? high then (if low =? 0 then not64 0 else shl64 (not64 0) low)
  else shl64 (u64 (shl64 1 (high - low) - 1)) low.

(* @ arm7tdmi.cpp:108-115 sign_extend64 *)
Definition sign_extend64 (value from_bits to_bits : Z) : Z :=
  let value :=
    if bit64 value (u8 (from_bits - 1)) then Z.lor value (mask64_range from_bits to_bits)
    else value in
  if 64 <=? to_bits then value else Z.land value (mask64_range 0 to_bits).

(** [static_cast<std::int64_t>(x) >> shift] is an arithmetic shift. *)
(* @ arm7tdmi.cpp:117-123 arithmetic_shift_right *)
Definition arithmetic_shift_right (value shift width : Z) : Z :=
  let extended := sign_extend64 value width 64 in
  let signed_value := swrap 64 extended in
  Z.land (u64 (Z.shiftr signed_value shift)) (mask64_range 0 width).

(* @ arm7tdmi.cpp:125-130 rotate_right_128 *)
Definition rotate_right_128 (value : U128Pair) (shift : Z) : U128Pair :=
  mkU128Pair
    (Z.lor (Z.shiftr (lo value) shift) (shl64 (hi value) (64 - shift)))
    (Z.lor (Z.shiftr (hi value) shift) (shl64 (lo value) (64 - shift))).

(* @ arm7tdmi.cpp:132-136 add32 *)
Definition add32 (left right : Z) (carry_in : bool) : Adder32Output :=
  let sum := u64 (Z.land left 0xFFFFFFFF + Z.land right 0xFFFFFFFF + z_of_bool carry_in) in
  mkAdder32Output (u32 sum) (0xFFFFFFFF <? sum).

(* @ arm7tdmi.cpp:138-166 booth_recode *)
Definition booth_recode (input booth_chunk : Z) : BoothRecodingOutput :=
  let output :=
    match booth_chunk with
    | 0 | 7 => mkBoothRecodingOutput 0 false
    | 1 | 2 => mkBoothRecodingOutput input false
    | 3 => mkBoothRecodingOutput (u64 (2 * input)) false
    | 4 => mkBoothRecodingOutput (not64 (u64 (2 * input))) true
    | 5 | 6 => mkBoothRecodingOutput (not64 input) true
    | _ => mkBoothRecodingOutput 0 false
    end in
  mkBoothRecodingOutput (Z.land (br_output output) 0x3FFFFFFFF) (br_carry output).

(* @ arm7tdmi.cpp:168-172 carry_save_add *)
Definition carry_save_add (a b c : Z) : CarrySaveAdderOutput :=
  mkCarrySaveAdderOutput (Z.lxor (Z.lxor a b) c)
    (Z.lor (Z.lor (Z.land a b) (Z.land b c)) (Z.land c a)).

(** The state of the loop of [multiply_csa_cycle]: [csa], [final] and
    [acc_shift]. *)
Definition CsaState : Type := CarrySaveAdderOutput * CarrySaveAdderOutput * Z.

(** The body of the loop at [i]. *)
(* @ arm7tdmi.cpp:181-202 multiply_csa_cycle *)
Definition csa_step (multiplicand multiplier : Z) (state : CsaState) (i : Z) : CsaState :=
  let '(csa, final, acc_shift) := state in
  let csa := mkCarrySaveAdderOutput (Z.land (cs_output csa) 0x1FFFFFFFF)
               (Z.land (cs_carry csa) 0x1FFFFFFFF) in
  let addend := booth_recode multiplicand (u8 (Z.land (Z.shiftr multiplier (2 * i)) 0x7)) in
  let result :=
    carry_save_add (cs_output csa) (Z.land (br_output addend) 0x1FFFFFFFF) (cs_carry csa) in
  let carry := Z.lor (shl64 (cs_carry result) 1) (z_of_bool (br_carry addend)) in
  let output := cs_output result in
  let final :=
    mkCarrySaveAdderOutput
      (Z.lor (cs_output final) (shl64 (Z.land output 0x3) (2 * i)))
      (Z.lor (cs_carry final) (shl64 (Z.land carry 0x3) (2 * i))) in
  let output := Z.shiftr output 2 in
  let carry := Z.shiftr carry 2 in
  let sign_extension_fix :=
    z_of_bool (bit64 acc_shift 0) + z_of_bool (negb (bit64 (cs_carry csa) 32)) +
    z_of_bool (negb (bit64 (br_output addend) 33)) in
  let output := Z.lor output (shl64 sign_extension_fix 31) in
  let carry := Z.lor carry (shl64 (z_of_bool (negb (bit64 acc_shift 1))) 32) in
  (mkCarrySaveAdderOutput output carry, final, Z.shiftr acc_shift 2).

(** The sum and the new [acc_shift]. *)
(* @ arm7tdmi.cpp:174-206 multiply_csa_cycle *)
Definition multiply_csa_cycle (previous : CarrySaveAdderOutput)
    (multiplicand multiplier acc_shift : Z) : CarrySaveAdderOutput * Z :=
  let '(csa, final, acc_shift) :=
    fold_left (csa_step multiplicand multiplier) [0; 1; 2; 3]
      (previous, mkCarrySaveAdderOutput 0 0, acc_shift) in
  (mkCarrySaveAdderOutput (Z.lor (cs_output final) (shl64 (cs_output csa) 8))
     (Z.lor (cs_carry final) (shl64 (cs_carry csa) 8)), acc_shift).

(* @ arm7tdmi.cpp:208-211 multiply_should_terminate *)
Definition multiply_should_terminate (multiplier : Z) (signed_multiply : bool) : bool :=
  if signed_multiply then (multiplier =? 0x1FFFFFFFF) || (multiplier =? 0) else multiplier =? 0.

(** The variables of the do-while loop. *)
(* @ arm7tdmi.cpp:235-242 arm7tdmi_multiply_long_output *)
Record MultiplierState : Type := mkMultiplierState {
  ms_csa : CarrySaveAdderOutput;
  ms_acc_shift : Z;
  ms_partial_sum : U128Pair;
  ms_partial_carry : U128Pair;
  ms_multiplier : Z;
  ms_iterations : Z
}.

(** The loop's body. *)
(* @ arm7tdmi.cpp:244-252 arm7tdmi_multiply_long_output *)
Definition multiplier_step (multiplicand : Z) (m : MultiplierState) : MultiplierState :=
  let '(csa, acc_shift) :=
    multiply_csa_cycle (ms_csa m) multiplicand (ms_multiplier m) (ms_acc_shift m) in
  let or_lo (p : U128Pair) (v : Z) := mkU128Pair (Z.lor (lo p) (Z.land v 0xFF)) (hi p) in
  mkMultiplierState
    (mkCarrySaveAdderOutput (Z.shiftr (cs_output csa) 8) (Z.shiftr (cs_carry csa) 8))
    acc_shift
    (rotate_right_128 (or_lo (ms_partial_sum m) (cs_output csa)) 8)
    (rotate_right_128 (or_lo (ms_partial_carry m) (cs_carry csa)) 8)
    (arithmetic_shift_right (ms_multiplier m) 8 33)
    (u8 (ms_iterations m + 1)).

(** [do step while (!terminate)]; [None] when the fuel runs out. *)
(* @ arm7tdmi.cpp:243-253 arm7tdmi_multiply_long_output *)
Fixpoint multiplier_loop (fuel : nat) (multiplicand : Z) (signed_multiply : bool)
    (m : MultiplierState) : option MultiplierState :=
  match fuel with
  | O => None
  | S fuel' =>
      let m := multiplier_step multiplicand m in
      if multiply_should_terminate (ms_multiplier m) signed_multiply then Some m
      else multiplier_loop fuel' multiplicand signed_multiply m
  end.

(** The state before the loop. *)
(* @ arm7tdmi.cpp:218-242 arm7tdmi_multiply_long_output *)
Definition multiplier_start (signed_multiply : bool) (rm rs accumulator : Z)
    : Z * MultiplierState :=
  let multiplier := if signed_multiply then sign_extend64 rs 32 34 else Z.land rs 0x1FFFFFFFF in
  let multiplicand := if signed_multiply then sign_extend64 rm 32 34 else Z.land rm 0x1FFFFFFFF in
  let csa :=
    mkCarrySaveAdderOutput accumulator
      (if negb (Z.land multiplier 1 =? 0) then not64 multiplicand else 0) in
  (multiplicand,
   mkMultiplierState
     (mkCarrySaveAdderOutput (Z.shiftr (cs_output csa) 1) (Z.shiftr (cs_carry csa) 1))
     (Z.shiftr accumulator 34)
     (rotate_right_128 (mkU128Pair (Z.land (cs_output csa) 1) 0) 1)
     (rotate_right_128 (mkU128Pair (Z.land (cs_carry csa) 1) 0) 1)
     multiplier 0).

(** The adder stage after the loop. *)
(* @ arm7tdmi.cpp:255-277 arm7tdmi_multiply_long_output *)
Definition multiplier_finish (alu_carry_in : bool) (m : MultiplierState)
    : MultiplyHardwareOutput :=
  let iterations := ms_iterations m in
  let or_lo (p : U128Pair) (v : Z) := mkU128Pair (Z.lor (lo p) v) (hi p) in
  let correction_ror :=
    if iterations =? 1 then 23 else if iterations =? 2 then 15
    else if iterations =? 3 then 7 else 31 in
  let partial_sum :=
    rotate_right_128 (or_lo (ms_partial_sum m) (cs_output (ms_csa m))) correction_ror in
  let partial_carry :=
    rotate_right_128 (or_lo (ms_partial_carry m) (cs_carry (ms_csa m))) correction_ror in
  if iterations =? 4 then
    let low := add32 (hi partial_sum) (hi partial_carry) alu_carry_in in
    let high :=
      add32 (Z.shiftr (hi partial_sum) 32) (Z.shiftr (hi partial_carry) 32) (ad_carry low) in
    mkMultiplyHardwareOutput (Z.lor (shl64 (ad_output high) 32) (ad_output low))
      (bit64 (hi partial_carry) 63)
  else
    let low :=
      add32 (Z.shiftr (hi partial_sum) 32) (Z.shiftr (hi partial_carry) 32) alu_carry_in in
    let shift_amount := u8 (2 + 8 * iterations) in
    let carry_lo := sign_extend64 (lo partial_carry) shift_amount 64 in
    let sum_lo := Z.lor (lo partial_sum) (shl64 (ms_acc_shift m) shift_amount) in
    let high := add32 sum_lo carry_lo (ad_carry low) in
    mkMultiplyHardwareOutput (Z.lor (shl64 (ad_output high) 32) (ad_output low))
      (bit64 (hi partial_carry) 63).

(** Each iteration consumes eight bits of the 33-bit multiplier: four
    iterations are enough. *)
(* @ arm7tdmi.cpp:213-278 arm7tdmi_multiply_long_output *)
Definition arm7tdmi_multiply_long_output (signed_multiply : bool) (rm rs accumulator : Z)
    : option MultiplyHardwareOutput :=
  let alu_carry_in := negb (Z.land rs 1 =? 0) in
  let '(multiplicand, m) := multiplier_start signed_multiply rm rs accumulator in
  m ← multiplier_loop 4 multiplicand signed_multiply m;
  Some (multiplier_finish alu_carry_in m).

(* @ arm7tdmi.cpp:549-560 signed_multiply_iterations *)
Definition signed_multiply_iterations (value : Z) : Z :=
  let top mask := (Z.land value mask =? 0) || (Z.land value mask =? mask) in
  if top 0xFFFFFF00 then 1 else if top 0xFFFF0000 then 2 else if top 0xFF000000 then 3 else 4.

(* @ arm7tdmi.cpp:562-573 unsigned_multiply_iterations *)
Definition unsigned_multiply_iterations (value : Z) : Z :=
  if Z.land value 0xFFFFFF00 =? 0 then 1
  else if Z.land value 0xFFFF0000 =? 0 then 2
  else if Z.land value 0xFF000000 =? 0 then 3 else 4.
