(* ===== verification/ArmExecute.v ===== *)
(** * The ARM7TDMI: instructions that do not access memory

    Exception entry and return, [execute_arm(instruction)] and
    [execute_thumb(instruction)] with the operations they dispatch to
    ([src/core/arm7tdmi.cpp]).  Each is a [CPU] computation: it returns the
    [ExecuteStatus] and the new state, or throws where an [at], a decoder or
    an empty [optional] would. *)

From S2P Require Import Prelude.
From S2P Require Import StateMonad.
From S2P Require Import ArmTypes.
From S2P Require Import ArmDecode.
From S2P Require Import ThumbDecode.
From S2P Require Import ArmMultiply.
From S2P Require Import ArmState.
From S2P Require Interrupts.

Definition executed {S} : ST S ExecuteStatus.t := mret ExecuteStatus.executed.
Definition skipped_condition {S} : ST S ExecuteStatus.t := mret ExecuteStatus.skipped_condition.
Definition unsupported {S} : ST S ExecuteStatus.t := mret ExecuteStatus.unsupported.

(** [flag ? executed : unsupported]. *)
Definition status_of {S} (flag : bool) : ST S ExecuteStatus.t :=
  if flag then executed else unsupported.

(** [optional.value()]. *)
Definition value_of {S A} (o : option A) : ST S A :=
  match o with Some a => mret a | None => throw end.

(** [if (!condition_passed(condition)) return skipped_condition;]. *)
Definition if_passed (condition : ArmCondition.t) (m : CPU ExecuteStatus.t)
    : CPU ExecuteStatus.t :=
  passed ← gets (condition_passed condition); if (passed : bool) then m else skipped_condition.

(** ** Exceptions *)

(* @ arm7tdmi.cpp:3312-3355 Arm7tdmi::enter_exception *)
Definition enter_exception (kind : ExceptionKind.t) : CPU ExecuteStatus.t :=
  let vector := exception_vector kind in
  saved_cpsr ← gets cpsr;
  saved_pc ← reg kPc;
  modify (switch_mode (ev_mode vector));;
  when (save_cpsr vector)
    (modify (set_spsr_for_mode (ev_mode vector) saved_cpsr);;
     let link_offset :=
       if has saved_cpsr kThumbStateFlag &&
          (bool_decide (kind = ExceptionKind.irq) ||
           bool_decide (kind = ExceptionKind.software_interrupt))
       then 2 else link_offset vector in
     set_reg kLinkRegister (u32 (saved_pc + link_offset)));;
  modify (fun s => s <| thumb_state_ := false |>);;
  when (disable_irq vector) (modify (fun s => s <| irq_disabled_ := true |>));;
  when (disable_fiq vector) (modify (fun s => s <| fiq_disabled_ := true |>));;
  set_reg kPc (vector_address vector);;
  executed.

(* @ arm7tdmi.cpp:3357-3369 Arm7tdmi::return_from_exception *)
Definition return_from_exception (link_adjustment : Z) : CPU ExecuteStatus.t :=
  saved_psr ← gets spsr;
  match saved_psr with
  | None => unsupported
  | Some saved_psr =>
      lr ← reg kLinkRegister;
      let return_pc := u32 (lr - link_adjustment) in
      restored ← act (set_cpsr saved_psr);
      if negb restored then unsupported
      else set_reg kPc return_pc;; executed
  end.

(** ** Data processing *)

(** The lambda [write_result]: a flag-setting write to R15 in a mode with an
    SPSR restores the CPSR first. *)
(* @ arm7tdmi.cpp:2694-2701 Arm7tdmi::execute_data_processing *)
Definition write_result (decoded : DecodedArmInstruction) (spsr_restore_to_pc : bool)
    (result : Z) : CPU unit :=
  if negb spsr_restore_to_pc then set_reg (dp_rd decoded) result
  else
    saved ← gets spsr;
    saved ← value_of saved;
    act (set_cpsr saved);;
    set_reg kPc (Z.land result (not32 0x3)).

(* @ arm7tdmi.cpp:2686-2831 Arm7tdmi::execute_data_processing *)
Definition execute_data_processing (decoded : DecodedArmInstruction) (pc_offset : Z)
    : CPU ExecuteStatus.t :=
  has_saved ← gets has_spsr;
  let spsr_restore_to_pc := (dp_rd decoded =? kPc) && dp_set_flags decoded && has_saved in
  let update_flags := dp_set_flags decoded && negb spsr_restore_to_pc in
  let finish result flags :=
    write_result decoded spsr_restore_to_pc result;;
    when update_flags (modify flags);; executed in
  let logical result := finish result (set_logical_flags result decoded) in
  let operand2 := dp_operand2 decoded in
  pc ← reg kPc;
  rn_value ← reg (dp_rn decoded);
  let left := if dp_rn decoded =? kPc then u32 (pc + pc_offset) else rn_value in
  carry_in ← gets carry_;
  let borrow := if (carry_in : bool) then 0 else 1 in
  match dp_opcode decoded with
  | ArmOpcode.and_ => logical (Z.land left operand2)
  | ArmOpcode.eor => logical (Z.lxor left operand2)
  | ArmOpcode.mov => logical operand2
  | ArmOpcode.add =>
      let result := u32 (left + operand2) in finish result (set_add_flags left operand2 result)
  | ArmOpcode.sub =>
      let result := u32 (left - operand2) in finish result (set_sub_flags left operand2 result)
  | ArmOpcode.rsb =>
      let result := u32 (operand2 - left) in finish result (set_sub_flags operand2 left result)
  | ArmOpcode.adc =>
      let result := u32 (left + operand2 + z_of_bool carry_in) in
      finish result (set_adc_flags left operand2 carry_in result)
  | ArmOpcode.sbc =>
      let result := u32 (left - operand2 - borrow) in
      finish result (set_sbc_flags left operand2 carry_in result)
  | ArmOpcode.rsc =>
      let result := u32 (operand2 - left - borrow) in
      finish result (set_sbc_flags operand2 left carry_in result)
  | ArmOpcode.cmp =>
      let result := u32 (left - operand2) in
      modify (set_sub_flags left operand2 result);; executed
  | ArmOpcode.cmn =>
      let result := u32 (left + operand2) in
      modify (set_add_flags left operand2 result);; executed
  | ArmOpcode.tst => modify (set_logical_flags (Z.land left operand2) decoded);; executed
  | ArmOpcode.teq => modify (set_logical_flags (Z.lxor left operand2) decoded);; executed
  | ArmOpcode.orr => logical (Z.lor left operand2)
  | ArmOpcode.bic => logical (Z.land left (not32 operand2))
  | ArmOpcode.mvn => logical (not32 operand2)
  end.

(** ** Status register transfers *)

(* @ arm7tdmi.cpp:2833-2876 Arm7tdmi::execute_psr_transfer *)
Definition execute_psr_transfer (decoded : DecodedPsrTransferInstruction)
    : CPU ExecuteStatus.t :=
  let is_spsr := bool_decide (ps_psr decoded = ArmProgramStatusRegister.spsr) in
  if negb (ps_write decoded) then
    if is_spsr then
      value ← gets spsr;
      match value with
      | None => unsupported
      | Some value => set_reg (rd_or_rm decoded) value;; executed
      end
    else value ← gets cpsr; set_reg (rd_or_rm decoded) value;; executed
  else
    let field_mask := psr_field_mask (field_mask decoded) in
    if field_mask =? 0 then unsupported
    else
      operand ← (if immediate_operand decoded then mret (ps_operand decoded)
                 else arm_visible_register_value (rd_or_rm decoded));
      if is_spsr then
        old_value ← gets spsr;
        match old_value with
        | None => unsupported
        | Some old_value =>
            done ← act (set_spsr (Z.lor (Z.land old_value (not32 field_mask))
                                    (Z.land operand field_mask)));
            status_of done
        end
      else
        mode ← gets mode_;
        let effective_field_mask :=
          if bool_decide (mode = CpuMode.user) && has field_mask kControlByteMask
          then Z.land field_mask (not32 kControlByteMask) else field_mask in
        old ← gets cpsr;
        let merged :=
          Z.lor (Z.land old (not32 effective_field_mask)) (Z.land operand effective_field_mask) in
        done ← act (set_cpsr merged);
        status_of done.

(** ** Multiplies *)

(* @ arm7tdmi.cpp:2878-2891 Arm7tdmi::execute_multiply *)
Definition execute_multiply (decoded : DecodedMultiplyInstruction) : CPU ExecuteStatus.t :=
  rm_value ← reg (mu_rm decoded);
  rs_value ← reg (mu_rs decoded);
  let product := u64 (rm_value * rs_value) in
  result ← (if mu_accumulate decoded
            then rn_value ← reg (mu_rn decoded); mret (u32 (u32 product + rn_value))
            else mret (u32 product));
  set_reg (mu_rd decoded) result;;
  when (mu_set_flags decoded) (modify (set_nz result));;
  executed.

(** The 64-bit product, accumulator included. *)
(* @ arm7tdmi.cpp:2897-2912 Arm7tdmi::execute_multiply_long *)
Definition long_product (signed_multiply : bool) (rm rs accumulator : Z) : Z :=
  let product := if signed_multiply then u64 (i32 rm * i32 rs) else u64 (rm * rs) in
  u64 (product + accumulator).

(* @ arm7tdmi.cpp:2893-2921 Arm7tdmi::execute_multiply_long *)
Definition execute_multiply_long (decoded : DecodedMultiplyLongInstruction)
    : CPU ExecuteStatus.t :=
  rm ← reg (ml_rm decoded);
  rs ← reg (ml_rs decoded);
  accumulator ←
    (if ml_accumulate decoded
     then high ← reg (rd_hi decoded); low ← reg (rd_lo decoded);
          mret (Z.lor (u64 (Z.shiftl high 32)) low)
     else mret 0);
  let result := long_product (signed_multiply decoded) rm rs accumulator in
  set_reg (rd_lo decoded) (u32 (Z.land result 0xFFFFFFFF));;
  set_reg (rd_hi decoded) (u32 (Z.shiftr result 32));;
  when (ml_set_flags decoded)
    (modify (set_nz64 result);;
     output ← value_of (arm7tdmi_multiply_long_output (signed_multiply decoded) rm rs accumulator);
     modify (fun s => s <| carry_ := mh_carry output |>));;
  executed.

(** ** ARM dispatch *)

(** The lambda [register_shift_visible_value]. *)
(* @ arm7tdmi.cpp:2659-2662 Arm7tdmi::execute_arm *)
Definition register_shift_visible_value (index : Z) : CPU Z :=
  value ← reg index; mret (if index =? kPc then u32 (value + 12) else value).

(* @ arm7tdmi.cpp:2606-2617 Arm7tdmi::execute_arm *)
Definition execute_branch (decoded : DecodedBranchInstruction) : CPU ExecuteStatus.t :=
  if_passed (br_condition decoded)
    (pc ← reg kPc;
     when (br_link decoded) (set_reg kLinkRegister (u32 (pc + 4)));;
     set_reg kPc (u32 (pc + 8 + br_offset decoded));;
     executed).

(* @ arm7tdmi.cpp:2621-2633 Arm7tdmi::execute_arm *)
Definition execute_branch_exchange (decoded : DecodedBranchExchangeInstruction)
    : CPU ExecuteStatus.t :=
  if_passed (bx_condition decoded)
    (target ← (if bx_rm decoded =? kPc then arm_visible_register_value kPc
               else reg (bx_rm decoded));
     modify (fun s => s <| thumb_state_ := has target 0x1 |>);;
     set_reg kPc (Z.land target (not32 0x1));;
     executed).

(** The data-processing forms with a shifted register operand. *)
(* @ arm7tdmi.cpp:2656-2675 Arm7tdmi::execute_arm *)
Definition execute_shifted_data_processing (instruction : Z) : CPU ExecuteStatus.t :=
  let rm := bits instruction 0 0xF in
  let register_shift := bit instruction 4 && negb (bit instruction 7) in
  decoded ←
    (if register_shift
     then rm_value ← register_shift_visible_value rm;
          rs_value ← register_shift_visible_value (bits instruction 8 0xF);
          lift (decode_data_processing_register_shift instruction rm_value rs_value)
     else rm_value ← arm_visible_register_value rm;
          carry_in ← gets carry_;
          lift (decode_data_processing_immediate_shift instruction rm_value carry_in));
  if_passed (dp_condition decoded)
    (execute_data_processing decoded (if register_shift then 12 else 8)).

(* @ arm7tdmi.cpp:2573-2684 Arm7tdmi::execute_arm *)
Definition execute_arm (instruction : Z) : CPU ExecuteStatus.t :=
  if bits instruction 28 0xF =? 0xF then skipped_condition
  else if can_decode_software_interrupt instruction then
    if_passed (condition_field instruction) (enter_exception ExceptionKind.software_interrupt)
  else
    let class_nybble := field instruction 24 0xF in
    if (class_nybble =? 0xE) || (class_nybble =? 0xF) then
      if_passed (condition_field instruction) executed
    else if can_decode_psr_transfer instruction then
      decoded ← lift (decode_psr_transfer instruction);
      if_passed (ps_condition decoded) (execute_psr_transfer decoded)
    else if can_decode_branch instruction then
      decoded ← lift (decode_branch instruction); execute_branch decoded
    else if can_decode_branch_exchange instruction then
      decoded ← lift (decode_branch_exchange instruction); execute_branch_exchange decoded
    else if can_decode_multiply_long instruction then
      decoded ← lift (decode_multiply_long instruction);
      if_passed (ml_condition decoded) (execute_multiply_long decoded)
    else if can_decode_multiply instruction then
      decoded ← lift (decode_multiply instruction);
      if_passed (mu_condition decoded) (execute_multiply decoded)
    else if negb (can_decode_data_processing_immediate instruction) then
      if negb (can_decode_data_processing_register_shift instruction) then unsupported
      else execute_shifted_data_processing instruction
    else
      decoded ← lift (decode_data_processing_immediate instruction);
      if_passed (dp_condition decoded) (execute_data_processing decoded 8).

(** ** The interrupt controller raises an exception *)

(* @ interrupt_controller.cpp:79-84 InterruptController::service_pending_irq *)
Definition service_pending_irq (ic : Interrupts.InterruptController) : CPU bool :=
  masked ← gets irq_disabled_;
  if negb (Interrupts.irq_line ic) || (masked : bool) then mret false
  else
    status ← enter_exception ExceptionKind.irq;
    mret (bool_decide (status = ExecuteStatus.executed)).
