(* ===== verification/ThumbExecute.v ===== *)
(** * The ARM7TDMI: Thumb instructions that do not access memory

    [execute_thumb(instruction)] and the operations it dispatches to
    ([src/core/arm7tdmi.cpp]). *)

From S2P Require Import Prelude.
From S2P Require Import StateMonad.
From S2P Require Import ArmTypes.
From S2P Require Import ArmDecode.
From S2P Require Import ThumbDecode.
From S2P Require Import ArmState.
From S2P Require Import ArmExecute.

(** The result of a shift and the carry it leaves, if any. *)
Definition Shifted : Type := Z * option bool.

(* @ arm7tdmi.cpp:1582-1610 Arm7tdmi::execute_thumb_shift *)
Definition thumb_shift (type : ArmShiftType.t) (value amount : Z) : option Shifted :=
  let shift_count := if amount =? 0 then 32 else amount in
  let carry_out := has (Z.shiftr value (shift_count - 1)) 0x1 in
  match type with
  | ArmShiftType.lsl =>
      Some (if amount =? 0 then (value, None)
            else (u32 (Z.shiftl value amount), Some (has (Z.shiftr value (32 - amount)) 0x1)))
  | ArmShiftType.lsr =>
      Some (if shift_count =? 32 then 0 else Z.shiftr value shift_count, Some carry_out)
  | ArmShiftType.asr =>
      Some (if shift_count =? 32 then (if sign_bit value then 0xFFFFFFFF else 0)
            else u32 (Z.shiftr (i32 value) shift_count), Some carry_out)
  | ArmShiftType.ror => None
  end.

(** [if (update_carry) carry_ = carry_out;]. *)
Definition update_carry (carry_out : option bool) (s : Arm7tdmi) : Arm7tdmi :=
  match carry_out with Some c => s <| carry_ := c |> | None => s end.

(* @ arm7tdmi.cpp:1575-1618 Arm7tdmi::execute_thumb_shift *)
Definition execute_thumb_shift (decoded : DecodedThumbShiftInstruction) : CPU ExecuteStatus.t :=
  value ← reg (ts_rs decoded);
  match thumb_shift (ts_type decoded) value (ts_amount decoded) with
  | None => unsupported
  | Some (result, carry_out) =>
      set_reg (ts_rd decoded) result;;
      modify (set_nz result);;
      modify (update_carry carry_out);;
      executed
  end.

(** The register shifts of [execute_thumb_alu]: [amount] is the low byte of
    the right operand. *)
(* @ arm7tdmi.cpp:1637-1702 Arm7tdmi::execute_thumb_alu *)
Definition alu_shift (opcode : ThumbAluOpcode.t) (left amount : Z) : Shifted :=
  if amount =? 0 then (left, None)
  else
    match opcode with
    | ThumbAluOpcode.lsl =>
        if amount <? 32 then
          (u32 (Z.shiftl left amount), Some (has (Z.shiftr left (32 - amount)) 0x1))
        else if amount =? 32 then (0, Some (has left 0x1))
        else (0, Some false)
    | ThumbAluOpcode.lsr =>
        if amount <? 32 then (Z.shiftr left amount, Some (has (Z.shiftr left (amount - 1)) 0x1))
        else if amount =? 32 then (0, Some (sign_bit left))
        else (0, Some false)
    | ThumbAluOpcode.asr =>
        if amount <? 32 then
          (u32 (Z.shiftr (i32 left) amount), Some (has (Z.shiftr left (amount - 1)) 0x1))
        else (if sign_bit left then 0xFFFFFFFF else 0, Some (sign_bit left))
    | _ =>
        let shift := u8 (amount mod 32) in
        let result := if shift =? 0 then left else rotate_right left shift in
        (result, Some (sign_bit result))
    end.

(* @ arm7tdmi.cpp:1620-1748 Arm7tdmi::execute_thumb_alu *)
Definition execute_thumb_alu (decoded : DecodedThumbAluInstruction) : CPU ExecuteStatus.t :=
  left ← reg (ta_rd decoded);
  right ← reg (ta_rs decoded);
  carry_in ← gets carry_;
  let amount := u8 (Z.land right 0xFF) in
  let write result := set_reg (ta_rd decoded) result in
  let logical result := write result;; modify (set_nz result);; executed in
  let shifted :=
    let '(result, carry_out) := alu_shift (ta_opcode decoded) left amount in
    write result;; modify (set_nz result);; modify (update_carry carry_out);; executed in
  match ta_opcode decoded with
  | ThumbAluOpcode.and_ => logical (Z.land left right)
  | ThumbAluOpcode.eor => logical (Z.lxor left right)
  | ThumbAluOpcode.lsl | ThumbAluOpcode.lsr | ThumbAluOpcode.asr => shifted
  | ThumbAluOpcode.adc =>
      let result := u32 (left + right + z_of_bool carry_in) in
      modify (set_adc_flags left right carry_in result);; write result;; executed
  | ThumbAluOpcode.sbc =>
      let result := u32 (left - right - (if (carry_in : bool) then 0 else 1)) in
      modify (set_sbc_flags left right carry_in result);; write result;; executed
  | ThumbAluOpcode.ror => shifted
  | ThumbAluOpcode.tst => modify (set_nz (Z.land left right));; executed
  | ThumbAluOpcode.neg =>
      let result := u32 (0 - right) in
      modify (set_sub_flags 0 right result);; write result;; executed
  | ThumbAluOpcode.cmp => modify (set_sub_flags left right (u32 (left - right)));; executed
  | ThumbAluOpcode.cmn => modify (set_add_flags left right (u32 (left + right)));; executed
  | ThumbAluOpcode.orr => logical (Z.lor left right)
  | ThumbAluOpcode.mul => logical (u32 (left * right))
  | ThumbAluOpcode.bic => logical (Z.land left (not32 right))
  | ThumbAluOpcode.mvn => logical (not32 right)
  end.

(* @ arm7tdmi.cpp:3371-3404 Arm7tdmi::execute_thumb_data_processing *)
Definition execute_thumb_data_processing (decoded : DecodedThumbInstruction)
    : CPU ExecuteStatus.t :=
  operand ← (if operand_is_register decoded then reg (th_operand decoded)
             else mret (th_operand decoded));
  match th_opcode decoded with
  | ThumbOpcode.mov => set_reg (th_rd decoded) operand;; modify (set_nz operand);; executed
  | ThumbOpcode.cmp =>
      left ← reg (th_rd decoded);
      modify (set_sub_flags left operand (u32 (left - operand)));; executed
  | ThumbOpcode.add =>
      left ← reg (th_rs decoded);
      let result := u32 (left + operand) in
      set_reg (th_rd decoded) result;; modify (set_add_flags left operand result);; executed
  | ThumbOpcode.sub =>
      left ← reg (th_rs decoded);
      let result := u32 (left - operand) in
      set_reg (th_rd decoded) result;; modify (set_sub_flags left operand result);; executed
  end.

(* @ arm7tdmi.cpp:2987-2996 Arm7tdmi::execute_thumb_branch *)
Definition execute_thumb_branch (decoded : DecodedThumbBranchInstruction)
    : CPU ExecuteStatus.t :=
  passed ← gets (condition_passed (tb_condition decoded));
  if tb_conditional decoded && negb passed then skipped_condition
  else
    pc ← thumb_visible_register_value kPc;
    set_reg kPc (u32 (pc + u32 (tb_offset decoded)));;
    executed.

(* @ arm7tdmi.cpp:2998-3012 Arm7tdmi::execute_thumb_long_branch_link *)
Definition execute_thumb_long_branch_link (decoded : DecodedThumbLongBranchLinkInstruction)
    : CPU ExecuteStatus.t :=
  if negb (second_half decoded) then
    pc ← thumb_visible_register_value kPc;
    set_reg kLinkRegister (u32 (pc + u32 (tl_offset decoded)));;
    executed
  else
    lr ← reg kLinkRegister;
    let target := u32 (lr + u32 (tl_offset decoded)) in
    pc ← reg kPc;
    set_reg kLinkRegister (Z.lor (u32 (pc + 2)) 0x1);;
    set_reg kPc (Z.land target (not32 0x1));;
    modify (fun s => s <| thumb_state_ := true |>);;
    executed.

(* @ arm7tdmi.cpp:3014-3039 Arm7tdmi::execute_thumb_high_register *)
Definition execute_thumb_high_register (decoded : DecodedThumbHighRegisterInstruction)
    : CPU ExecuteStatus.t :=
  let write value :=
    set_reg (hr_rd decoded) (if hr_rd decoded =? kPc then Z.land value (not32 0x1) else value) in
  source ← thumb_visible_register_value (hr_rs decoded);
  match hr_opcode decoded with
  | ThumbHighRegisterOpcode.add =>
      left ← thumb_visible_register_value (hr_rd decoded);
      write (u32 (left + source));; executed
  | ThumbHighRegisterOpcode.cmp =>
      left ← thumb_visible_register_value (hr_rd decoded);
      modify (set_sub_flags left source (u32 (left - source)));; executed
  | ThumbHighRegisterOpcode.mov => write source;; executed
  | ThumbHighRegisterOpcode.bx =>
      modify (fun s => s <| thumb_state_ := has source 0x1 |>);;
      set_reg kPc (Z.land source (not32 0x1));; executed
  end.

(* @ arm7tdmi.cpp:3262-3270 Arm7tdmi::execute_thumb_stack_pointer_adjust *)
Definition execute_thumb_stack_pointer_adjust (decoded : DecodedThumbStackPointerInstruction)
    : CPU ExecuteStatus.t :=
  sp ← reg 13;
  set_reg 13 (u32 (if sp_subtract decoded then sp - sp_offset decoded
                   else sp + sp_offset decoded));;
  executed.

(* @ arm7tdmi.cpp:3272-3279 Arm7tdmi::execute_thumb_load_address *)
Definition execute_thumb_load_address (decoded : DecodedThumbLoadAddressInstruction)
    : CPU ExecuteStatus.t :=
  base ← (if base_is_sp decoded then reg 13
          else pc ← thumb_visible_register_value kPc; mret (align_word pc));
  set_reg (la_rd decoded) (u32 (base + la_offset decoded));;
  executed.

(* @ arm7tdmi.cpp:2923-2969 Arm7tdmi::execute_thumb *)
Definition execute_thumb (instruction : Z) : CPU ExecuteStatus.t :=
  if can_decode_thumb_software_interrupt instruction then
    enter_exception ExceptionKind.software_interrupt
  else if can_decode_thumb_high_register instruction then
    decoded ← lift (decode_thumb_high_register instruction); execute_thumb_high_register decoded
  else if can_decode_thumb_conditional_branch instruction then
    decoded ← lift (decode_thumb_conditional_branch instruction); execute_thumb_branch decoded
  else if can_decode_thumb_unconditional_branch instruction then
    decoded ← lift (decode_thumb_unconditional_branch instruction); execute_thumb_branch decoded
  else if can_decode_thumb_long_branch_link instruction then
    decoded ← lift (decode_thumb_long_branch_link instruction);
    execute_thumb_long_branch_link decoded
  else if can_decode_thumb_shift_immediate instruction then
    decoded ← lift (decode_thumb_shift_immediate instruction); execute_thumb_shift decoded
  else if can_decode_thumb_alu instruction then
    decoded ← lift (decode_thumb_alu instruction); execute_thumb_alu decoded
  else if can_decode_thumb_stack_pointer_adjust instruction then
    decoded ← lift (decode_thumb_stack_pointer_adjust instruction);
    execute_thumb_stack_pointer_adjust decoded
  else if can_decode_thumb_load_address instruction then
    decoded ← lift (decode_thumb_load_address instruction); execute_thumb_load_address decoded
  else if can_decode_thumb_add_subtract instruction then
    decoded ← lift (decode_thumb_add_subtract instruction); execute_thumb_data_processing decoded
  else if can_decode_thumb_immediate instruction then
    decoded ← lift (decode_thumb_immediate instruction); execute_thumb_data_processing decoded
  else unsupported.
