(* ===== verification/ArmMemory.v ===== *)
(** * The ARM7TDMI: instructions that access memory

    [execute_arm(instruction, memory)], [execute_thumb(instruction, memory)]
    and the transfers they dispatch to ([src/core/arm7tdmi.cpp]).  They run on
    a processor and a bus with its IO devices; a load that the bus does not
    answer reads the pipeline's open bus. *)

From S2P Require Import Prelude.
From S2P Require Import StateMonad.
From S2P Require Import BusTypes.
From S2P Require MemoryBus.
From S2P Require Import ArmTypes.
From S2P Require Import ArmDecode.
From S2P Require Import ThumbDecode.
From S2P Require Import ArmState.
From S2P Require Import ArmExecute.
From S2P Require Import ThumbExecute.

Section Memory.
Context {D : Type} (io : MemoryBus.IoCallbacks D).

Abbreviation Bus := (MemoryBus.Bus (D := D)).
Abbreviation read8 := (MemoryBus.read8 io).
Abbreviation read16 := (MemoryBus.read16 io).
Abbreviation read32 := (MemoryBus.read32 io).

(** The processor and [MemoryBus& memory]. *)
Definition Sys : Type := Arm7tdmi * Bus.

(** A computation of the processor alone. *)
Definition cpu {A} (m : CPU A) : ST Sys A := fun s =>
  match m s.1 with Ret (a, c) => Ret (a, (c, s.2)) | Throw => Throw end.

(** A read of [const MemoryBus&]. *)
Definition load {A} (f : Bus -> A) : ST Sys A := gets (fun s => f s.2).

Definition store (op : MemoryBus.bus_op) : ST Sys bool :=
  act (fun s => let '(done, b) := op s.2 in (done, (s.1, b))).

Definition write8 (address value : Z) : ST Sys bool := store (MemoryBus.write8 io address value).
Definition write16 (address value : Z) : ST Sys bool := store (MemoryBus.write16 io address value).
Definition write32 (address value : Z) : ST Sys bool := store (MemoryBus.write32 io address value).

(** [if (!value.has_value()) return unsupported;]. *)
Definition if_value {A} (value : option A) (m : A -> ST Sys ExecuteStatus.t)
    : ST Sys ExecuteStatus.t :=
  match value with Some a => m a | None => unsupported end.

(** [if (!condition_passed(condition)) return skipped_condition;]. *)
Definition when_passed (condition : ArmCondition.t) (m : ST Sys ExecuteStatus.t)
    : ST Sys ExecuteStatus.t :=
  passed ← cpu (gets (condition_passed condition));
  if (passed : bool) then m else skipped_condition.

(** ** Open-bus reads *)

(* @ arm7tdmi.cpp:898-901 read_arm_pipeline_open_bus_word *)
Definition read_arm_pipeline_open_bus_word (pc : Z) (memory : Bus) : option Z :=
  read32 (u32 (pc + 8)) memory.

(* @ arm7tdmi.cpp:903-906 read_thumb_pipeline_open_bus_word *)
Definition read_thumb_pipeline_open_bus_word (pc : Z) (memory : Bus) : option Z :=
  read32 (u32 (pc + 4)) memory.

(** The byte lane of the open-bus word at [address]. *)
(* @ arm7tdmi.cpp:908-919 read8_or_arm_pipeline_open_bus *)
Definition open_bus_byte (open_bus address : Z) : Z :=
  u8 (Z.land (Z.shiftr open_bus (Z.land address 0x3 * 8)) 0xFF).

(* @ arm7tdmi.cpp:908-919 read8_or_arm_pipeline_open_bus *)
Definition read8_or_arm_pipeline_open_bus (address pc : Z) (memory : Bus) : option Z :=
  match read8 address memory with
  | Some value => Some value
  | None =>
      open_bus ← read_arm_pipeline_open_bus_word pc memory;
      Some (open_bus_byte open_bus address)
  end.

(* @ arm7tdmi.cpp:921-933 read8_or_thumb_pipeline_open_bus *)
Definition read8_or_thumb_pipeline_open_bus (address pc : Z) (memory : Bus) : option Z :=
  match read8 address memory with
  | Some value => Some value
  | None =>
      open_bus ← read_thumb_pipeline_open_bus_word pc memory;
      Some (open_bus_byte open_bus address)
  end.

(* @ arm7tdmi.cpp:935-947 read16_or_arm_pipeline_open_bus *)
Definition read16_or_arm_pipeline_open_bus (address pc : Z) (memory : Bus) : option Z :=
  match read16 address memory with
  | Some value => Some value
  | None =>
      open_bus ← read_arm_pipeline_open_bus_word pc memory;
      let shift := u8 (Z.land address 0x2 * 8) in
      Some (u16 (Z.land (Z.shiftr open_bus shift) 0xFFFF))
  end.

(* @ arm7tdmi.cpp:949-961 read16_or_thumb_pipeline_open_bus *)
Definition read16_or_thumb_pipeline_open_bus (address pc : Z) (memory : Bus) : option Z :=
  match read16 address memory with
  | Some value => Some value
  | None =>
      open_bus ← read_thumb_pipeline_open_bus_word pc memory;
      Some (u16 (Z.land (Z.shiftr open_bus 16) 0xFFFF))
  end.

(* @ arm7tdmi.cpp:963-974 read32_or_arm_pipeline_open_bus *)
Definition read32_or_arm_pipeline_open_bus (address pc : Z) (memory : Bus) : option Z :=
  match read32 address memory with
  | Some value => Some value
  | None =>
      open_bus ← read_arm_pipeline_open_bus_word pc memory;
      Some (rotate_right open_bus (u8 (Z.land address 0x3 * 8)))
  end.

(** The halfword in both halves of a word. *)
(* @ arm7tdmi.cpp:976-991 read32_or_thumb_pipeline_open_bus *)
Definition duplicated (half : Z) : Z := Z.lor half (u32 (Z.shiftl half 16)).

(* @ arm7tdmi.cpp:976-991 read32_or_thumb_pipeline_open_bus *)
Definition read32_or_thumb_pipeline_open_bus (address pc : Z) (memory : Bus) : option Z :=
  match read32 address memory with
  | Some value => Some value
  | None =>
      half ← read16 (u32 (pc + 4)) memory;
      Some (rotate_right (duplicated half) (u8 (Z.land address 0x3 * 8)))
  end.

(* @ arm7tdmi.cpp:993-1011 read32_or_thumb_block_open_bus *)
Definition read32_or_thumb_block_open_bus (address pc : Z) (memory : Bus) : option Z :=
  match read32 address memory with
  | Some value => Some value
  | None =>
      match MemoryBus.open_bus_latch memory.1 with
      | Some latched_bus => Some (rotate_right latched_bus (u8 (Z.land address 0x3 * 8)))
      | None =>
          prefetched_halfword ← read16 (u32 (pc + 4)) memory;
          Some (rotate_right (duplicated prefetched_halfword) (u8 (Z.land address 0x3 * 8)))
      end
  end.

(** ** Register lists *)

(** [for (index = 0; index < n; ++index)]. *)
Definition indices (n : nat) : list Z := map Z.of_nat (seq 0 n).

(** The load loop: a word for each register of the list, from [address] on. *)
(* @ arm7tdmi.cpp:3485-3496 Arm7tdmi::execute_arm *)
Fixpoint load_registers (read : Z -> option Z) (index : list Z) (register_list address : Z)
    (loaded : list Z) : option (list Z) :=
  match index with
  | [] => Some loaded
  | i :: index =>
      if negb (register_list_contains register_list i) then
        load_registers read index register_list address loaded
      else
        value ← read address;
        load_registers read index register_list (u32 (address + 4))
          (<[Z.to_nat i := value]> loaded)
  end.

(** The load loop of the stack transfer, which appends the words it reads;
    it returns them with the next address. *)
(* @ arm7tdmi.cpp:3216-3227 Arm7tdmi::execute_thumb_stack_transfer *)
Fixpoint load_words (read : Z -> option Z) (index : list Z) (register_list address : Z)
    (loaded : list Z) : option (list Z * Z) :=
  match index with
  | [] => Some (loaded, address)
  | i :: index =>
      if negb (register_list_contains register_list i) then
        load_words read index register_list address loaded
      else
        value ← read address;
        load_words read index register_list (u32 (address + 4)) (loaded ++ [value])
  end.

(** The store loop: it returns whether every write succeeded, and the next
    address. *)
(* @ arm7tdmi.cpp:3535-3549 Arm7tdmi::execute_arm *)
Fixpoint store_registers (value : Z -> CPU Z) (index : list Z) (register_list address : Z)
    : ST Sys (bool * Z) :=
  match index with
  | [] => mret (true, address)
  | i :: index =>
      if negb (register_list_contains register_list i) then
        store_registers value index register_list address
      else
        stored ← cpu (value i);
        done ← write32 address stored;
        if (done : bool) then store_registers value index register_list (u32 (address + 4))
        else mret (false, address)
  end.

(** [registers_.at(index) = loaded.at(index)] for each register of the list,
    through [write]. *)
(* @ arm7tdmi.cpp:3505-3514 Arm7tdmi::execute_arm *)
Fixpoint assign_registers (write : Z -> Z -> CPU unit) (index : list Z) (register_list : Z)
    (loaded : list Z) : CPU unit :=
  match index with
  | [] => mret tt
  | i :: index =>
      when (register_list_contains register_list i)
        (value ← lift (array_at loaded (Z.to_nat i)); write i value);;
      assign_registers write index register_list loaded
  end.

(** [registers_.at(index) = loaded.at(read_index++)] for each register of the
    list, from [read_index]; it returns the next one. *)
(* @ arm7tdmi.cpp:3237-3242 Arm7tdmi::execute_thumb_stack_transfer *)
Fixpoint assign_words (index : list Z) (register_list : Z) (loaded : list Z) (read_index : nat)
    : CPU nat :=
  match index with
  | [] => mret read_index
  | i :: index =>
      if register_list_contains register_list i then
        value ← lift (array_at loaded read_index);
        set_reg i value;;
        assign_words index register_list loaded (read_index + 1)
      else assign_words index register_list loaded read_index
  end.

(** A loaded PC selects the state with its bit 0: [cpsr()] with the T bit
    replaced is written back. *)
(* @ arm7tdmi.cpp:3246-3254 Arm7tdmi::execute_thumb_stack_transfer *)
Definition set_state_from (loaded_pc : Z) : CPU bool :=
  set_reg kPc (Z.land loaded_pc (not32 0x1));;
  next_cpsr ← gets cpsr;
  let next_cpsr :=
    if has loaded_pc 0x1 then Z.lor next_cpsr kThumbStateFlag
    else Z.land next_cpsr (not32 kThumbStateFlag) in
  act (set_cpsr next_cpsr).

(** ** Swaps *)

(* @ arm7tdmi.cpp:3281-3310 Arm7tdmi::execute_swap *)
Definition execute_swap (decoded : DecodedSwapInstruction) : ST Sys ExecuteStatus.t :=
  when_passed (sw_condition decoded)
    (address ← cpu (reg (sw_rn decoded));
     if sw_byte decoded then
       old_value ← load (read8 address);
       if_value old_value (fun old_value =>
         rm_value ← cpu (reg (sw_rm decoded));
         done ← write8 address (u8 (Z.land rm_value 0xFF));
         if negb done then unsupported
         else cpu (set_reg (sw_rd decoded) old_value);; executed)
     else
       old_value ← load (read32 address);
       if_value old_value (fun old_value =>
         rm_value ← cpu (reg (sw_rm decoded));
         done ← write32 address rm_value;
         if negb done then unsupported
         else cpu (set_reg (sw_rd decoded) old_value);; executed)).

(** ** Block data transfers *)

(** The lambdas [user_bank_value] and [write_user_bank_value]. *)
(* @ arm7tdmi.cpp:3457-3465 Arm7tdmi::execute_arm *)
Definition user_bank_value (index : Z) : CPU Z :=
  if index =? 13 then gets user_sp_
  else if index =? 14 then gets user_lr_
  else reg index.

(* @ arm7tdmi.cpp:3466-3476 Arm7tdmi::execute_arm *)
Definition write_user_bank_value (index value : Z) : CPU unit :=
  if index =? 13 then modify (fun s => s <| user_sp_ := value |>)
  else if index =? 14 then modify (fun s => s <| user_lr_ := value |>)
  else set_reg index value.

(** The value a store puts in memory for a register: R15 reads 12 ahead. *)
(* @ arm7tdmi.cpp:3539-3544 Arm7tdmi::execute_arm *)
Definition block_stored_value (force_user_bank : bool) (index : Z) : CPU Z :=
  raw_value ← (if force_user_bank then user_bank_value index else reg index);
  mret (if index =? kPc then u32 (raw_value + 12) else raw_value).

(** The loaded values reach the registers; the result is [false] where the
    code returns [unsupported]. *)
(* @ arm7tdmi.cpp:3498-3533 Arm7tdmi::execute_arm *)
Definition block_load_commit (register_list : Z) (force_user_bank : bool) (loaded : list Z)
    : CPU bool :=
  let has_pc := register_list_contains register_list kPc in
  restored ←
    (if force_user_bank && has_pc
     then saved ← gets spsr; saved ← value_of saved; act (set_cpsr saved)
     else mret true);
  if negb restored then mret false
  else
    assign_registers (if force_user_bank then write_user_bank_value else set_reg) (indices 15)
      register_list loaded;;
    if has_pc then
      loaded_pc ← lift (array_at loaded (Z.to_nat kPc));
      if force_user_bank then set_reg kPc (Z.land loaded_pc (not32 0x3));; mret true
      else set_state_from loaded_pc
    else mret true.

(* @ arm7tdmi.cpp:3433-3555 Arm7tdmi::execute_arm *)
Definition execute_block_data_transfer (instruction : Z)
    (decoded : DecodedBlockDataTransferInstruction) : ST Sys ExecuteStatus.t :=
  let register_list := bd_register_list decoded in
  when_passed (bd_condition decoded)
    (if bd_load decoded && bd_write_back decoded &&
        register_list_contains register_list (bd_rn decoded)
     then unsupported
     else
       let force_user_bank := bit instruction 22 in
       has_saved ← cpu (gets has_spsr);
       if force_user_bank && negb has_saved then unsupported
       else if negb (bd_load decoded) && force_user_bank &&
               register_list_contains register_list kPc
       then unsupported
       else
         let register_count := count_registers register_list in
         base ← cpu (reg (bd_rn decoded));
         let transfer :=
           block_transfer_address base register_count (bd_pre_index decoded) (bd_up decoded) in
         let write_back :=
           cpu (when (bd_write_back decoded) (set_reg (bd_rn decoded) (ba_write_back transfer)));;
           executed in
         if bd_load decoded then
           loaded ← load (fun memory =>
             load_registers (fun address => read32 address memory) (indices 16) register_list
               (ba_first transfer) (replicate kRegisterCount 0));
           if_value loaded (fun loaded =>
             done ← cpu (block_load_commit register_list force_user_bank loaded);
             if negb done then unsupported else write_back)
         else
           '(done, _) ← store_registers (block_stored_value force_user_bank) (indices 16)
                          register_list (ba_first transfer);
           if negb done then unsupported else write_back).

(** ** Halfword and signed transfers *)

(** [classify(address).region == region]. *)
Definition in_region (address : Z) (r : Region.t) : bool :=
  bool_decide (region (classify address) = r).

(** The address a halfword transfer uses: the save memory is not aligned. *)
(* @ arm7tdmi.cpp:3611-3613 Arm7tdmi::execute_arm *)
Definition halfword_address (address : Z) : Z :=
  if in_region address Region.game_pak_save then address else Z.land address (not32 0x1).

(** [registers_.at(rd) = value; if (needs_write_back) registers_.at(rn) = ...]. *)
(* @ arm7tdmi.cpp:3591-3595 Arm7tdmi::execute_arm *)
Definition load_and_write_back (rd value : Z) (needs_write_back : bool) (rn address : Z)
    : ST Sys ExecuteStatus.t :=
  cpu (set_reg rd value);; cpu (when needs_write_back (set_reg rn address));; executed.

(* @ arm7tdmi.cpp:3566-3645 Arm7tdmi::execute_arm *)
Definition execute_halfword_data_transfer (decoded : DecodedHalfwordDataTransferInstruction)
    : ST Sys ExecuteStatus.t :=
  when_passed (hw_condition decoded)
    (if negb (supported_transfer_addressing (hw_pre_index decoded) (hw_write_back decoded))
     then unsupported
     else
       base ← cpu (arm_visible_register_value (hw_rn decoded));
       let write_back_address := offset_transfer_address base (hw_offset decoded) (hw_up decoded) in
       let address := if hw_pre_index decoded then write_back_address else base in
       let needs_write_back :=
         transfer_needs_write_back (hw_pre_index decoded) (hw_write_back decoded) in
       if needs_write_back && hw_load decoded && (hw_rn decoded =? hw_rd decoded) then unsupported
       else
         pc ← cpu (reg kPc);
         let finish value :=
           load_and_write_back (hw_rd decoded) value needs_write_back (hw_rn decoded)
             write_back_address in
         if hw_load decoded then
           if (signed_transfer decoded && negb (hw_halfword decoded)) ||
              (signed_transfer decoded && has address 0x1)
           then
             value ← load (read8_or_arm_pipeline_open_bus address pc);
             if_value value (fun value => finish (sign_extend8 value))
           else
             value ← load (read16_or_arm_pipeline_open_bus (halfword_address address) pc);
             if_value value (fun value =>
               finish (if signed_transfer decoded then sign_extend16 value
                       else if has address 0x1 then rotate_right value 8 else value))
         else if signed_transfer decoded || negb (hw_halfword decoded) then unsupported
         else
           rd_value ← cpu (reg (hw_rd decoded));
           done ← write16 (halfword_address address) (u16 (Z.land rd_value 0xFFFF));
           if negb done then unsupported
           else cpu (when needs_write_back (set_reg (hw_rn decoded) write_back_address));; executed).

(** ** Single transfers *)

(** The address a word store uses. *)
(* @ arm7tdmi.cpp:3715-3719 Arm7tdmi::execute_arm *)
Definition word_write_address (address : Z) : Z :=
  if in_region address Region.game_pak_save || in_region address Region.io then address
  else Z.land address (not32 0x3).

(* @ arm7tdmi.cpp:3659-3730 Arm7tdmi::execute_arm *)
Definition execute_single_data_transfer (decoded : DecodedSingleDataTransferInstruction)
    : ST Sys ExecuteStatus.t :=
  when_passed (sd_condition decoded)
    (if negb (supported_transfer_addressing (sd_pre_index decoded) (sd_write_back decoded))
     then unsupported
     else
       base ← cpu (arm_visible_register_value (sd_rn decoded));
       let write_back_address := offset_transfer_address base (sd_offset decoded) (sd_up decoded) in
       let address := if sd_pre_index decoded then write_back_address else base in
       let needs_write_back :=
         transfer_needs_write_back (sd_pre_index decoded) (sd_write_back decoded) in
       if needs_write_back && sd_load decoded && (sd_rn decoded =? sd_rd decoded) then unsupported
       else
         pc ← cpu (reg kPc);
         let finish value :=
           load_and_write_back (sd_rd decoded) value needs_write_back (sd_rn decoded)
             write_back_address in
         let write_back (done : bool) :=
           if negb done then unsupported
           else cpu (when needs_write_back (set_reg (sd_rn decoded) write_back_address));; executed in
         if sd_load decoded then
           value ← load (if sd_byte decoded then read8_or_arm_pipeline_open_bus address pc
                         else read32_or_arm_pipeline_open_bus address pc);
           if_value value finish
         else
           rd_value ← cpu (reg (sd_rd decoded));
           if sd_byte decoded then
             done ← write8 address (u8 (Z.land rd_value 0xFF)); write_back done
           else
             let stored_value :=
               if sd_rd decoded =? kPc then u32 (pc + 12) else rd_value in
             done ← write32 (word_write_address address) stored_value; write_back done).

(** The two decoders of a transfer: the register form reads [Rm]. *)
(* @ arm7tdmi.cpp:3560-3565 Arm7tdmi::execute_arm *)
Definition decode_halfword (instruction : Z) : CPU DecodedHalfwordDataTransferInstruction :=
  if can_decode_halfword_data_transfer_register instruction then
    rm_value ← arm_visible_register_value (bits instruction 0 0xF);
    lift (decode_halfword_data_transfer_register instruction rm_value)
  else lift (decode_halfword_data_transfer_immediate instruction).

(* @ arm7tdmi.cpp:3652-3658 Arm7tdmi::execute_arm *)
Definition decode_single (instruction : Z) : CPU DecodedSingleDataTransferInstruction :=
  if can_decode_single_data_transfer_register instruction then
    rm_value ← arm_visible_register_value (bits instruction 0 0xF);
    carry_in ← gets carry_;
    lift (decode_single_data_transfer_register instruction rm_value carry_in)
  else lift (decode_single_data_transfer_immediate instruction).

(** [execute_arm(instruction, memory)]. *)
(* @ arm7tdmi.cpp:3406-3433 Arm7tdmi::execute_arm *)
Definition execute_arm_memory (instruction : Z) : ST Sys ExecuteStatus.t :=
  if bits instruction 28 0xF =? 0xF then skipped_condition
  else if can_decode_software_interrupt instruction then
    when_passed (condition_field instruction)
      (cpu (enter_exception ExceptionKind.software_interrupt))
  else
    let class_nybble := field instruction 24 0xF in
    if (class_nybble =? 0xE) || (class_nybble =? 0xF) then
      when_passed (condition_field instruction) executed
    else if can_decode_swap instruction then
      decoded ← lift (decode_swap instruction); execute_swap decoded
    else if can_decode_block_data_transfer instruction then
      decoded ← lift (decode_block_data_transfer instruction);
      execute_block_data_transfer instruction decoded
    else if can_decode_halfword_data_transfer_immediate instruction ||
            can_decode_halfword_data_transfer_register instruction
    then decoded ← cpu (decode_halfword instruction); execute_halfword_data_transfer decoded
    else if negb (can_decode_single_data_transfer_immediate instruction) &&
            negb (can_decode_single_data_transfer_register instruction)
    then cpu (execute_arm instruction)
    else decoded ← cpu (decode_single instruction); execute_single_data_transfer decoded.

(** ** Thumb transfers *)

(** The address of a Thumb transfer: a PC base is word-aligned. *)
(* @ arm7tdmi.cpp:3043-3047 Arm7tdmi::execute_thumb_memory_transfer *)
Definition thumb_transfer_address (decoded : DecodedThumbMemoryTransferInstruction) : CPU Z :=
  base ← (if tm_rb decoded =? kPc then pc ← reg kPc; mret (align_word (u32 (pc + 4)))
          else reg (tm_rb decoded));
  offset ← (if offset_is_register decoded then reg (tm_offset decoded)
            else mret (tm_offset decoded));
  mret (u32 (base + offset)).

(** The address a halfword store uses. *)
(* @ arm7tdmi.cpp:3121-3125 Arm7tdmi::execute_thumb_memory_transfer *)
Definition halfword_write_address (address : Z) : Z :=
  if in_region address Region.game_pak_save || in_region address Region.io then address
  else Z.land address (not32 0x1).

(** The value a load of the kind puts in the register. *)
(* @ arm7tdmi.cpp:3049-3097 Arm7tdmi::execute_thumb_memory_transfer *)
Definition thumb_loaded_value (kind : ThumbMemoryTransferKind.t) (address pc : Z) (memory : Bus)
    : option Z :=
  match kind with
  | ThumbMemoryTransferKind.word => read32_or_thumb_pipeline_open_bus address pc memory
  | ThumbMemoryTransferKind.byte => read8_or_thumb_pipeline_open_bus address pc memory
  | ThumbMemoryTransferKind.halfword => read16_or_thumb_pipeline_open_bus address pc memory
  | ThumbMemoryTransferKind.signed_byte =>
      value ← read8_or_thumb_pipeline_open_bus address pc memory; Some (sign_extend8 value)
  | ThumbMemoryTransferKind.signed_halfword =>
      value ← read16_or_thumb_pipeline_open_bus address pc memory; Some (sign_extend16 value)
  end.

(* @ arm7tdmi.cpp:3041-3137 Arm7tdmi::execute_thumb_memory_transfer *)
Definition execute_thumb_memory_transfer (decoded : DecodedThumbMemoryTransferInstruction)
    : ST Sys ExecuteStatus.t :=
  address ← cpu (thumb_transfer_address decoded);
  if tm_load decoded then
    pc ← cpu (reg kPc);
    value ← load (thumb_loaded_value (tm_kind decoded) address pc);
    if_value value (fun value => cpu (set_reg (tm_rd decoded) value);; executed)
  else
    rd_value ← cpu (reg (tm_rd decoded));
    match tm_kind decoded with
    | ThumbMemoryTransferKind.word =>
        done ← write32 (word_write_address address) rd_value; status_of done
    | ThumbMemoryTransferKind.byte =>
        done ← write8 address (u8 (Z.land rd_value 0xFF)); status_of done
    | ThumbMemoryTransferKind.halfword =>
        done ← write16 (halfword_write_address address) (u16 (Z.land rd_value 0xFFFF));
        status_of done
    | ThumbMemoryTransferKind.signed_byte | ThumbMemoryTransferKind.signed_halfword =>
        unsupported
    end.

(* @ arm7tdmi.cpp:3139-3181 Arm7tdmi::execute_thumb_block_transfer *)
Definition execute_thumb_block_transfer (decoded : DecodedThumbBlockTransferInstruction)
    : ST Sys ExecuteStatus.t :=
  let register_list := tbt_register_list decoded in
  let register_count := count_registers register_list in
  if register_count =? 0 then unsupported
  else
    old_base ← cpu (reg (tbt_rb decoded));
    let write_back :=
      cpu (set_reg (tbt_rb decoded) (u32 (old_base + u32 (register_count * 4))));; executed in
    if tbt_load decoded then
      pc ← cpu (reg kPc);
      loaded ← load (fun memory =>
        load_registers (fun address => read32_or_thumb_block_open_bus address pc memory)
          (indices 8) register_list old_base (replicate 8 0));
      if_value loaded (fun loaded =>
        cpu (assign_registers set_reg (indices 8) register_list loaded);; write_back)
    else
      '(done, _) ← store_registers reg (indices 8) register_list old_base;
      if negb done then unsupported else write_back.

(** PUSH. *)
(* @ arm7tdmi.cpp:3194-3211 Arm7tdmi::execute_thumb_stack_transfer *)
Definition execute_push (decoded : DecodedThumbStackInstruction) (register_count old_sp : Z)
    : ST Sys ExecuteStatus.t :=
  let new_sp := u32 (old_sp - u32 (register_count * 4)) in
  '(done, address) ← store_registers reg (indices 8) (tst_register_list decoded) new_sp;
  if negb done then unsupported
  else
    done ← (if extra_register decoded
            then lr ← cpu (reg kLinkRegister); write32 address lr
            else mret true);
    if negb done then unsupported
    else cpu (set_reg 13 new_sp);; executed.

(** The words POP reads: the listed registers, then the PC. *)
(* @ arm7tdmi.cpp:3214-3235 Arm7tdmi::execute_thumb_stack_transfer *)
Definition pop_words (decoded : DecodedThumbStackInstruction) (old_sp : Z) (memory : Bus)
    : option (list Z) :=
  '(loaded, address) ← load_words (fun address => read32 address memory) (indices 8)
                         (tst_register_list decoded) old_sp [];
  if extra_register decoded then value ← read32 address memory; Some (loaded ++ [value])
  else Some loaded.

(** POP. *)
(* @ arm7tdmi.cpp:3214-3259 Arm7tdmi::execute_thumb_stack_transfer *)
Definition execute_pop (decoded : DecodedThumbStackInstruction) (register_count old_sp : Z)
    : ST Sys ExecuteStatus.t :=
  loaded ← load (pop_words decoded old_sp);
  if_value loaded (fun loaded =>
    read_index ← cpu (assign_words (indices 8) (tst_register_list decoded) loaded 0);
    done ← (if extra_register decoded
            then loaded_pc ← lift (array_at loaded read_index); cpu (set_state_from loaded_pc)
            else mret true);
    if negb done then unsupported
    else cpu (set_reg 13 (u32 (old_sp + u32 (register_count * 4))));; executed).

(* @ arm7tdmi.cpp:3183-3260 Arm7tdmi::execute_thumb_stack_transfer *)
Definition execute_thumb_stack_transfer (decoded : DecodedThumbStackInstruction)
    : ST Sys ExecuteStatus.t :=
  let low_register_count := count_registers (tst_register_list decoded) in
  let register_count := u8 (low_register_count + (if extra_register decoded then 1 else 0)) in
  if register_count =? 0 then unsupported
  else
    old_sp ← cpu (reg 13);
    if negb (tst_load decoded) then execute_push decoded register_count old_sp
    else execute_pop decoded register_count old_sp.

(** [execute_thumb(instruction, memory)]. *)
(* @ arm7tdmi.cpp:2971-2985 Arm7tdmi::execute_thumb *)
Definition execute_thumb_memory (instruction : Z) : ST Sys ExecuteStatus.t :=
  if can_decode_thumb_block_transfer instruction then
    decoded ← lift (decode_thumb_block_transfer instruction);
    execute_thumb_block_transfer decoded
  else if can_decode_thumb_stack_transfer instruction then
    decoded ← lift (decode_thumb_stack_transfer instruction);
    execute_thumb_stack_transfer decoded
  else if can_decode_thumb_memory_transfer instruction then
    decoded ← lift (decode_thumb_memory_transfer instruction);
    execute_thumb_memory_transfer decoded
  else cpu (execute_thumb instruction).
End Memory.
