(* ===== verification/ArmTiming.v ===== *)
(** * The ARM7TDMI: cycle estimates and steps

    The cycle estimates of [src/core/arm7tdmi.cpp] and [step_arm] and
    [step_thumb], which execute an instruction and add its cycles to
    [elapsed_cycles_].  Cycle counts are [std::uint32_t]; the pointer to a
    [WaitStateControl] is an [option]. *)

From S2P Require Import Prelude.
From S2P Require Import StateMonad.
From S2P Require Import BusTypes.
From S2P Require Import WaitState.
From S2P Require MemoryBus.
From S2P Require Import ArmTypes.
From S2P Require Import ArmDecode.
From S2P Require Import ThumbDecode.
From S2P Require Import ArmMultiply.
From S2P Require Import ArmState.
From S2P Require Import ArmExecute.
From S2P Require Import ThumbExecute.
From S2P Require Import ArmMemory.

Abbreviation bits := ArmTypes.bits.

(* @ arm7tdmi.cpp:38-38 kOamMirrorBankStart *)
Definition kOamMirrorBankStart : Z := 0x07000000.
(* @ arm7tdmi.cpp:39-39 kGamePakRomStart *)
Definition kGamePakRomStart : Z := 0x08000000.
(* @ arm7tdmi.cpp:77-77 kMirroredOamArmPrefetchFastRomCycles *)
Definition kMirroredOamArmPrefetchFastRomCycles : Z := 5.
(* @ arm7tdmi.cpp:78-78 kMirroredOamArmPrefetchSlowRomCycles *)
Definition kMirroredOamArmPrefetchSlowRomCycles : Z := 3.
(* @ arm7tdmi.cpp:79-79 kMirroredOamThumbPrefetchFastRomCycles *)
Definition kMirroredOamThumbPrefetchFastRomCycles : Z := 7.
(* @ arm7tdmi.cpp:80-80 kMirroredOamThumbPrefetchSlowRomCycles *)
Definition kMirroredOamThumbPrefetchSlowRomCycles : Z := 6.

(** ** Cycle counts of an ARM instruction *)

(* @ arm7tdmi.cpp:491-501 data_processing_cycle_estimate *)
Definition data_processing_cycle_estimate (instruction : Z) : ArmCycleEstimate :=
  let register_shift := bit instruction 4 && negb (bit instruction 7) in
  let writes_pc := bits instruction 12 0xF =? kPc in
  mkArmCycleEstimate (if writes_pc then 2 else 1) (if writes_pc then 1 else 0)
    (if register_shift then 1 else 0) false.

(* @ arm7tdmi.cpp:503-505 branch_cycle_estimate *)
Definition branch_cycle_estimate : ArmCycleEstimate := mkArmCycleEstimate 2 1 0 false.

(* @ arm7tdmi.cpp:507-521 single_transfer_cycle_estimate *)
Definition single_transfer_cycle_estimate (instruction : Z) : ArmCycleEstimate :=
  let load := bit instruction 20 in
  let loads_pc := load && (bits instruction 12 0xF =? kPc) in
  if load then
    mkArmCycleEstimate (if loads_pc then 2 else 1) (if loads_pc then 2 else 1) 1 false
  else mkArmCycleEstimate 1 1 0 false.

(* @ arm7tdmi.cpp:523-537 block_transfer_cycle_estimate *)
Definition block_transfer_cycle_estimate (instruction : Z) : ArmCycleEstimate :=
  let register_list := Z.land instruction 0xFFFF in
  let register_count := count_registers register_list in
  let load := bit instruction 20 in
  let loads_pc := load && block_transfer_has_pc register_list in
  if load then
    mkArmCycleEstimate (u8 (register_count + z_of_bool loads_pc)) (u8 (1 + z_of_bool loads_pc))
      1 false
  else mkArmCycleEstimate (u8 (register_count - 1)) 2 0 false.

(* @ arm7tdmi.cpp:539-547 multiply_cycle_estimate *)
Definition multiply_cycle_estimate (accumulate_or_long long_accumulate : bool)
    : ArmCycleEstimate :=
  mkArmCycleEstimate 1 0
    (if accumulate_or_long then (if long_accumulate then 2 else 1) else 0) true.

(* @ arm7tdmi.cpp:2093-2141 Arm7tdmi::estimate_arm_cycles *)
Definition estimate_arm_cycles (instruction : Z) : option ArmCycleEstimate :=
  if can_decode_software_interrupt instruction then Some branch_cycle_estimate
  else if can_decode_swap instruction then Some (mkArmCycleEstimate 0 2 1 false)
  else if can_decode_psr_transfer instruction then Some (mkArmCycleEstimate 1 0 0 false)
  else if can_decode_branch instruction then Some branch_cycle_estimate
  else if can_decode_branch_exchange instruction then Some branch_cycle_estimate
  else if can_decode_multiply_long instruction then
    Some (multiply_cycle_estimate true (bit instruction 21))
  else if can_decode_multiply instruction then
    Some (multiply_cycle_estimate (bit instruction 21) false)
  else if can_decode_block_data_transfer instruction then
    Some (block_transfer_cycle_estimate instruction)
  else if can_decode_single_data_transfer_immediate instruction ||
          can_decode_single_data_transfer_register instruction ||
          can_decode_halfword_data_transfer_immediate instruction ||
          can_decode_halfword_data_transfer_register instruction
  then Some (single_transfer_cycle_estimate instruction)
  else if can_decode_data_processing_immediate instruction ||
          can_decode_data_processing_register_shift instruction
  then Some (data_processing_cycle_estimate instruction)
  else None.

(** ** Access widths *)

(* @ arm7tdmi.cpp:575-582 can_estimate_memory_elapsed_cycles *)
Definition can_estimate_memory_elapsed_cycles (instruction : Z) : bool :=
  can_decode_single_data_transfer_immediate instruction ||
  can_decode_single_data_transfer_register instruction ||
  can_decode_halfword_data_transfer_immediate instruction ||
  can_decode_halfword_data_transfer_register instruction ||
  can_decode_block_data_transfer instruction ||
  can_decode_swap instruction.

(* @ arm7tdmi.cpp:584-605 transfer_access_width *)
Definition transfer_access_width (instruction : Z) : AccessWidth.t :=
  let byte_or_word := if bit instruction 22 then AccessWidth.byte else AccessWidth.word in
  if can_decode_swap instruction then byte_or_word
  else if can_decode_block_data_transfer instruction then AccessWidth.word
  else if can_decode_single_data_transfer_immediate instruction ||
          can_decode_single_data_transfer_register instruction
  then byte_or_word
  else if can_decode_halfword_data_transfer_immediate instruction ||
          can_decode_halfword_data_transfer_register instruction
  then if bits instruction 5 0x3 =? 0x2 then AccessWidth.byte else AccessWidth.halfword
  else AccessWidth.word.

(* @ arm7tdmi.cpp:607-620 thumb_transfer_access_width *)
Definition thumb_transfer_access_width (kind : ThumbMemoryTransferKind.t) : AccessWidth.t :=
  match kind with
  | ThumbMemoryTransferKind.word => AccessWidth.word
  | ThumbMemoryTransferKind.halfword | ThumbMemoryTransferKind.signed_halfword =>
      AccessWidth.halfword
  | ThumbMemoryTransferKind.byte | ThumbMemoryTransferKind.signed_byte => AccessWidth.byte
  end.

(** ** Elapsed cycles of a transfer *)

(* @ arm7tdmi.cpp:622-631 thumb_memory_cycles *)
Definition thumb_memory_cycles (decoded : DecodedThumbMemoryTransferInstruction)
    (timing : MemoryAccessTiming) : Z :=
  if tm_load decoded then u32 (nonsequential timing + sequential timing + 1)
  else u32 (sequential timing + nonsequential timing).

(* @ arm7tdmi.cpp:633-657 iwram_single_transfer_cycles *)
Definition iwram_single_transfer_cycles (fetch_address data_address : Z) (width : AccessWidth.t)
    (load : bool) (waitcnt : WaitStateControl) : option Z :=
  if negb (in_region fetch_address Region.iwram) then None
  else
    let data_region := region (classify data_address) in
    if negb (bool_decide (width = AccessWidth.byte)) &&
       negb (bool_decide (data_region = Region.iwram))
    then None
    else
      let timing := timing_waitcnt data_address width waitcnt in
      if nonsequential timing =? 0 then None
      else
        let cartridge_bus_cycle :=
          z_of_bool (bool_decide (data_region = Region.game_pak_rom) ||
                     bool_decide (data_region = Region.game_pak_save)) in
        Some (u32 (1 + nonsequential timing + cartridge_bus_cycle + z_of_bool load)).

(** The data region is one of the two work RAMs. *)
(* @ arm7tdmi.cpp:667-668 thumb_prefetch_overlaps_internal_data_load_cycle *)
Definition in_work_ram (address : Z) : bool :=
  in_region address Region.ewram || in_region address Region.iwram.

(* @ arm7tdmi.cpp:659-668 thumb_prefetch_overlaps_internal_data_load_cycle *)
Definition thumb_prefetch_overlaps_internal_data_load_cycle
    (decoded : DecodedThumbMemoryTransferInstruction) (address : Z)
    (waitcnt_prefetch_enabled : bool) : bool :=
  if negb waitcnt_prefetch_enabled || negb (tm_load decoded) then false
  else in_work_ram address.

(* @ arm7tdmi.cpp:670-673 MirroredOamTuning *)
Record MirroredOamTuning : Type := mkMirroredOamTuning {
  prefetch_fast_rom : Z;
  prefetch_slow_rom : Z
}.

(* @ arm7tdmi.cpp:695-704 compose_elapsed_cycles *)
Definition compose_elapsed_cycles (cycles : ArmCycleEstimate) (timing : MemoryAccessTiming)
    : ArmElapsedCycleEstimate :=
  mkArmElapsedCycleEstimate
    (u32 (ce_sequential cycles * sequential timing +
          ce_nonsequential cycles * nonsequential timing + ce_internal cycles))
    (ce_data_dependent cycles) true.

(* @ arm7tdmi.cpp:706-710 timing_for_elapsed_estimate *)
Definition timing_for_elapsed_estimate (address : Z) (width : AccessWidth.t)
    (waitcnt : option WaitStateControl) : MemoryAccessTiming :=
  match waitcnt with
  | Some waitcnt => timing_waitcnt address width waitcnt
  | None => timing address width
  end.

(** The adjustments to the elapsed cycles of a load that crosses into the
    cartridge, by the words still in the mirror. *)
(* @ arm7tdmi.cpp:741-769 mirrored_oam_cross_rom_block_load_elapsed_cycles *)
Definition cross_rom_cycles (elapsed mirrored_words rom_words : Z)
    (rom_timing : MemoryAccessTiming) (waitcnt_prefetch_enabled : bool) : Z :=
  let n := nonsequential rom_timing in
  let s := sequential rom_timing in
  let elapsed := u32 (elapsed + rom_words * (n + s) + s) in
  let elapsed :=
    if n =? 3 then
      u32 (elapsed + (if mirrored_words =? 2 then 2
                      else if mirrored_words =? 3 then 1
                      else if mirrored_words =? 4 then 0 else 3))
    else elapsed in
  let elapsed :=
    if negb waitcnt_prefetch_enabled && (s =? 1) then
      if mirrored_words =? 4 then u32 (elapsed + 1)
      else u32 (elapsed - (if mirrored_words =? 2 then 1 else if mirrored_words =? 3 then 0 else 2))
    else elapsed in
  if waitcnt_prefetch_enabled then
    u32 (elapsed +
         (if mirrored_words =? 2 then
            (if n =? 3 then (if s =? 1 then 2 else 3) else (if s =? 1 then 3 else 4))
          else if (3 <=? mirrored_words) && negb (n =? 3) && (s =? 1) then 5
          else if (3 <=? mirrored_words) && (n =? 3) && (s =? 1) then 4
          else if n =? 3 then 2 else 3))
  else elapsed.

(* @ arm7tdmi.cpp:717-773 mirrored_oam_cross_rom_block_load_elapsed_cycles *)
Definition mirrored_oam_cross_rom_block_load_elapsed_cycles (data_address register_count : Z)
    (waitcnt : option WaitStateControl) (waitcnt_prefetch_enabled : bool)
    (tuning : MirroredOamTuning) (trailing_internal_cycles : Z) : option Z :=
  let first := classify data_address in
  if negb (bool_decide (region first = Region.oam)) || negb (mirrored first) ||
     (data_address <? kOamMirrorBankStart) || (kGamePakRomStart <=? data_address)
  then None
  else
    let words_until_rom := Z.max ((kGamePakRomStart - data_address) / 4) 1 in
    let mirrored_words := Z.min register_count words_until_rom in
    let rom_words := u32 (register_count - mirrored_words) in
    let rom_timing := timing_for_elapsed_estimate kGamePakRomStart AccessWidth.word waitcnt in
    if (rom_words =? 0) && waitcnt_prefetch_enabled then
      Some (if sequential rom_timing =? 1 then prefetch_fast_rom tuning
            else prefetch_slow_rom tuning)
    else
      let elapsed := u32 (1 + mirrored_words) in
      let elapsed :=
        if negb (rom_words =? 0) then
          cross_rom_cycles elapsed mirrored_words rom_words rom_timing waitcnt_prefetch_enabled
        else elapsed in
      Some (u32 (elapsed + trailing_internal_cycles)).

(* @ arm7tdmi.cpp:681-693 thumb_mirrored_oam_block_load_elapsed_cycles *)
Definition thumb_mirrored_oam_block_load_elapsed_cycles
    (decoded : DecodedThumbBlockTransferInstruction) (data_address : Z)
    (waitcnt : WaitStateControl) : option Z :=
  if negb (tbt_load decoded) then None
  else
    mirrored_oam_cross_rom_block_load_elapsed_cycles data_address
      (count_registers (tbt_register_list decoded)) (Some waitcnt) (prefetch_enabled waitcnt)
      (mkMirroredOamTuning kMirroredOamThumbPrefetchFastRomCycles
         kMirroredOamThumbPrefetchSlowRomCycles) 1.

(** A decoder the caller has guarded by its predicate: it returns. *)
Definition guarded {A} (decoded : exc A) : option A :=
  match decoded with Ret a => Some a | Throw => None end.

(* @ arm7tdmi.cpp:775-794 mirrored_oam_block_load_elapsed_cycles *)
Definition mirrored_oam_block_load_elapsed_cycles (instruction data_address : Z)
    (cycles : ArmCycleEstimate) (waitcnt : option WaitStateControl)
    (waitcnt_prefetch_enabled : bool) : option Z :=
  if negb (can_decode_block_data_transfer instruction) then None
  else
    decoded ← guarded (decode_block_data_transfer instruction);
    if negb (bd_load decoded) then None
    else
      mirrored_oam_cross_rom_block_load_elapsed_cycles data_address
        (count_registers (bd_register_list decoded)) waitcnt waitcnt_prefetch_enabled
        (mkMirroredOamTuning kMirroredOamArmPrefetchFastRomCycles
           kMirroredOamArmPrefetchSlowRomCycles) (ce_internal cycles).

(* @ arm7tdmi.cpp:796-816 has_elapsed_timing_for_estimate *)
Definition has_elapsed_timing_for_estimate (address : Z) (timing : MemoryAccessTiming)
    (waitcnt_aware : bool) : bool :=
  if t_readable timing || t_writable timing then true
  else
    let r := region (classify address) in
    let timed := negb (nonsequential timing =? 0) && negb (sequential timing =? 0) in
    if (bool_decide (r = Region.io) || bool_decide (r = Region.unknown) ||
        bool_decide (r = Region.bios)) && timed
    then true
    else if negb waitcnt_aware || negb timed then false
    else
      bool_decide (r = Region.bios) || bool_decide (r = Region.game_pak_rom) ||
      bool_decide (r = Region.game_pak_save).

(* @ arm7tdmi.cpp:818-827 arm_data_load_has_internal_cycle *)
Definition arm_data_load_has_internal_cycle (instruction : Z) : bool :=
  if can_decode_single_data_transfer_immediate instruction ||
     can_decode_single_data_transfer_register instruction ||
     can_decode_halfword_data_transfer_immediate instruction ||
     can_decode_halfword_data_transfer_register instruction ||
     can_decode_block_data_transfer instruction
  then bit instruction 20 else false.

(* @ arm7tdmi.cpp:829-852 prefetch_internal_data_load_overlap_cycles *)
Definition prefetch_internal_data_load_overlap_cycles (instruction data_address : Z)
    (cycles : ArmCycleEstimate)
    (waitcnt_prefetch_enabled fast_rom_sequential_prefetch : bool) : Z :=
  if negb waitcnt_prefetch_enabled || (ce_internal cycles =? 0) ||
     negb (arm_data_load_has_internal_cycle instruction)
  then 0
  else if negb (in_work_ram data_address) then 0
  else
    match guarded (decode_block_data_transfer instruction) with
    | Some decoded =>
        if bd_load decoded then
          let overlap_cap := if fast_rom_sequential_prefetch then 2 else 4 in
          Z.min (count_registers (bd_register_list decoded)) overlap_cap
        else 1
    | None => 1
    end.

(* @ arm7tdmi.cpp:854-878 prefetch_block_store_overlap_cycles *)
Definition prefetch_block_store_overlap_cycles (instruction data_address : Z)
    (waitcnt_prefetch_enabled fast_rom_sequential_prefetch : bool) : Z :=
  if negb waitcnt_prefetch_enabled || negb (can_decode_block_data_transfer instruction) then 0
  else if negb (in_work_ram data_address) then 0
  else
    match guarded (decode_block_data_transfer instruction) with
    | Some decoded =>
        if bd_load decoded then 0
        else
          let register_count := count_registers (bd_register_list decoded) in
          if register_count <? 2 then 0
          else
            let overlap_cap := if fast_rom_sequential_prefetch then 2 else 4 in
            Z.min (register_count - 1) overlap_cap
    | None => 0
    end.

(* @ arm7tdmi.cpp:880-890 arm_single_word_load_from_game_pak_rom *)
Definition arm_single_word_load_from_game_pak_rom (instruction data_address : Z) : bool :=
  if negb (can_decode_single_data_transfer_immediate instruction) &&
     negb (can_decode_single_data_transfer_register instruction)
  then false
  else
    bit instruction 20 && negb (bit instruction 22) &&
    in_region data_address Region.game_pak_rom.

(* @ arm7tdmi.cpp:892-896 thumb_word_load_from_game_pak_rom *)
Definition thumb_word_load_from_game_pak_rom (decoded : DecodedThumbMemoryTransferInstruction)
    (data_address : Z) : bool :=
  tm_load decoded && bool_decide (tm_kind decoded = ThumbMemoryTransferKind.word) &&
  in_region data_address Region.game_pak_rom.

(* @ arm7tdmi.cpp:1013-1057 estimate_arm_elapsed_cycles_with_timing *)
Definition estimate_arm_elapsed_cycles_with_timing (instruction data_address : Z)
    (timing : MemoryAccessTiming)
    (waitcnt_aware waitcnt_prefetch_enabled fast_rom_sequential_prefetch : bool)
    (waitcnt : option WaitStateControl) : option ArmElapsedCycleEstimate :=
  cycles ← estimate_arm_cycles instruction;
  if negb (can_estimate_memory_elapsed_cycles instruction) then
    Some (mkArmElapsedCycleEstimate
            (u32 (ce_sequential cycles + ce_nonsequential cycles + ce_internal cycles))
            (ce_data_dependent cycles) false)
  else if negb (has_elapsed_timing_for_estimate data_address timing waitcnt_aware) then None
  else
    let elapsed := compose_elapsed_cycles cycles timing in
    let elapsed :=
      match mirrored_oam_block_load_elapsed_cycles instruction data_address cycles waitcnt
              waitcnt_prefetch_enabled with
      | Some mirrored => mkArmElapsedCycleEstimate mirrored (ce_data_dependent cycles) true
      | None => elapsed
      end in
    let count := ee_cycles elapsed in
    let count :=
      if waitcnt_aware && arm_single_word_load_from_game_pak_rom instruction data_address
      then u32 (count + 3) else count in
    let prefetch_overlap :=
      prefetch_internal_data_load_overlap_cycles instruction data_address cycles
        waitcnt_prefetch_enabled fast_rom_sequential_prefetch +
      prefetch_block_store_overlap_cycles instruction data_address waitcnt_prefetch_enabled
        fast_rom_sequential_prefetch in
    let count :=
      if negb (prefetch_overlap =? 0) then count - Z.min count prefetch_overlap else count in
    Some (mkArmElapsedCycleEstimate count (ee_data_dependent elapsed)
            (ee_memory_timing_applied elapsed)).

(** The overload without WAITCNT. *)
(* @ arm7tdmi.cpp:2143-2149 Arm7tdmi::estimate_arm_elapsed_cycles *)
Definition estimate_arm_elapsed_cycles (instruction data_address : Z)
    : option ArmElapsedCycleEstimate :=
  estimate_arm_elapsed_cycles_with_timing instruction data_address
    (timing data_address (transfer_access_width instruction)) false false false None.

(** The overload with WAITCNT. *)
(* @ arm7tdmi.cpp:2151-2166 Arm7tdmi::estimate_arm_elapsed_cycles *)
Definition estimate_arm_elapsed_cycles_waitcnt (instruction data_address : Z)
    (waitcnt : WaitStateControl) : option ArmElapsedCycleEstimate :=
  let width := transfer_access_width instruction in
  let timing := timing_waitcnt data_address width waitcnt in
  let fast_rom_sequential_prefetch :=
    gw_sequential (rom_wait_states CartridgeWindow.rom_wait0 waitcnt) <=? 1 in
  estimate_arm_elapsed_cycles_with_timing instruction data_address timing true
    (prefetch_enabled waitcnt) fast_rom_sequential_prefetch (Some waitcnt).

(** ** Addresses and overrides *)

(** The address of a decoded transfer. *)
(* @ arm7tdmi.cpp:3770-3773 Arm7tdmi::first_data_address *)
Definition transfer_address (rn offset : Z) (up pre_index : bool) : CPU (option Z) :=
  base ← arm_visible_register_value rn;
  mret (Some (if pre_index then offset_transfer_address base offset up else base)).

(* @ arm7tdmi.cpp:3733-3777 Arm7tdmi::first_data_address *)
Definition first_data_address (instruction : Z) : CPU (option Z) :=
  if can_decode_swap instruction then
    address ← reg (bits instruction 16 0xF); mret (Some address)
  else if can_decode_block_data_transfer instruction then
    decoded ← lift (decode_block_data_transfer instruction);
    base ← reg (bd_rn decoded);
    mret (Some (ba_first (block_transfer_address base
                            (count_registers (bd_register_list decoded))
                            (bd_pre_index decoded) (bd_up decoded))))
  else if can_decode_halfword_data_transfer_immediate instruction ||
          can_decode_halfword_data_transfer_register instruction
  then
    decoded ← decode_halfword instruction;
    transfer_address (hw_rn decoded) (hw_offset decoded) (hw_up decoded) (hw_pre_index decoded)
  else if can_decode_single_data_transfer_immediate instruction ||
          can_decode_single_data_transfer_register instruction
  then
    decoded ← decode_single instruction;
    transfer_address (sd_rn decoded) (sd_offset decoded) (sd_up decoded) (sd_pre_index decoded)
  else mret None.

(** The offset of the decoded transfer plays no part in its condition. *)
(* @ arm7tdmi.cpp:3779-3810 Arm7tdmi::memory_condition_passed *)
Definition memory_condition_passed (instruction : Z) : CPU bool :=
  if can_decode_swap instruction then
    decoded ← lift (decode_swap instruction); gets (condition_passed (sw_condition decoded))
  else if can_decode_block_data_transfer instruction then
    decoded ← lift (decode_block_data_transfer instruction);
    gets (condition_passed (bd_condition decoded))
  else if can_decode_halfword_data_transfer_immediate instruction ||
          can_decode_halfword_data_transfer_register instruction
  then
    decoded ←
      (if can_decode_halfword_data_transfer_register instruction then
         rm_value ← reg (bits instruction 0 0xF);
         lift (decode_halfword_data_transfer_register instruction rm_value)
       else lift (decode_halfword_data_transfer_immediate instruction));
    gets (condition_passed (hw_condition decoded))
  else if can_decode_single_data_transfer_immediate instruction ||
          can_decode_single_data_transfer_register instruction
  then
    decoded ←
      (if can_decode_single_data_transfer_register instruction then
         rm_value ← reg (bits instruction 0 0xF);
         carry_in ← gets carry_;
         lift (decode_single_data_transfer_register instruction rm_value carry_in)
       else lift (decode_single_data_transfer_immediate instruction));
    gets (condition_passed (sd_condition decoded))
  else mret true.

(* @ arm7tdmi.cpp:3847-3868 Arm7tdmi::runtime_multiply_elapsed_cycles *)
Definition runtime_multiply_elapsed_cycles (instruction : Z)
    : CPU (option ArmElapsedCycleEstimate) :=
  if can_decode_multiply_long instruction then
    decoded ← lift (decode_multiply_long instruction);
    multiplier ← reg (ml_rs decoded);
    let iterations :=
      if signed_multiply decoded then signed_multiply_iterations multiplier
      else unsigned_multiply_iterations multiplier in
    mret (Some (mkArmElapsedCycleEstimate (u32 (iterations + (if ml_accumulate decoded then 3 else 2)))
                  true false))
  else if can_decode_multiply instruction then
    decoded ← lift (decode_multiply instruction);
    multiplier ← reg (mu_rs decoded);
    mret (Some (mkArmElapsedCycleEstimate
                  (u32 (signed_multiply_iterations multiplier +
                        (if mu_accumulate decoded then 2 else 1))) true false))
  else mret None.

(* @ arm7tdmi.cpp:3870-3887 Arm7tdmi::runtime_thumb_elapsed_cycles *)
Definition runtime_thumb_elapsed_cycles (instruction : Z)
    : CPU (option ArmElapsedCycleEstimate) :=
  if negb (can_decode_thumb_alu instruction) then mret None
  else
    decoded ← lift (decode_thumb_alu instruction);
    if negb (bool_decide (ta_opcode decoded = ThumbAluOpcode.mul)) then mret None
    else
      rd_value ← reg (ta_rd decoded);
      mret (Some (mkArmElapsedCycleEstimate (u32 (signed_multiply_iterations rd_value + 1)) true false)).

(** ** Steps *)

(** [elapsed_cycles_ += cycles]. *)
Definition add_elapsed (cycles : Z) (s : Arm7tdmi) : Arm7tdmi :=
  s <| elapsed_cycles_ ::= fun e => u64 (e + cycles) |>.

(** [{status, cycles, elapsed_cycles_, data_dependent, memory_timing_applied}]. *)
Definition step_result (status : ExecuteStatus.t) (estimate : ArmElapsedCycleEstimate)
    : CPU ArmStepResult :=
  total ← gets elapsed_cycles_;
  mret (mkArmStepResult status (ee_cycles estimate) total (ee_data_dependent estimate)
          (ee_memory_timing_applied estimate)).

(** An estimate of no cycles. *)
Definition no_cycles : ArmElapsedCycleEstimate := mkArmElapsedCycleEstimate 0 false false.

(* @ arm7tdmi.cpp:3812-3845 Arm7tdmi::finish_step *)
Definition finish_step (instruction : Z) (data_address : option Z) (status : ExecuteStatus.t)
    (waitcnt : option WaitStateControl) (elapsed_override : option ArmElapsedCycleEstimate)
    : CPU ArmStepResult :=
  match status with
  | ExecuteStatus.skipped_condition =>
      modify (add_elapsed kArmSkippedConditionElapsedCycles);;
      step_result status (mkArmElapsedCycleEstimate kArmSkippedConditionElapsedCycles false false)
  | ExecuteStatus.unsupported => step_result status no_cycles
  | ExecuteStatus.executed =>
      let estimate :=
        match elapsed_override, waitcnt with
        | Some _, _ => elapsed_override
        | None, None => estimate_arm_elapsed_cycles instruction (default 0 data_address)
        | None, Some waitcnt =>
            estimate_arm_elapsed_cycles_waitcnt instruction (default 0 data_address) waitcnt
        end in
      match estimate with
      | None => step_result status no_cycles
      | Some estimate => modify (add_elapsed (ee_cycles estimate));; step_result status estimate
      end
  end.

(** The end of each [step_thumb]: [estimate] or one cycle. *)
(* @ arm7tdmi.cpp:4048-4065 Arm7tdmi::step_thumb *)
Definition finish_thumb (status : ExecuteStatus.t) (estimate : option ArmElapsedCycleEstimate)
    : CPU ArmStepResult :=
  match status with
  | ExecuteStatus.skipped_condition =>
      modify (add_elapsed kThumbSkippedConditionElapsedCycles);;
      step_result status
        (mkArmElapsedCycleEstimate kThumbSkippedConditionElapsedCycles false false)
  | ExecuteStatus.unsupported => step_result status no_cycles
  | ExecuteStatus.executed =>
      let elapsed := default (mkArmElapsedCycleEstimate 1 false false) estimate in
      modify (add_elapsed (ee_cycles elapsed));; step_result status elapsed
  end.

(** [step_arm(instruction)]. *)
(* @ arm7tdmi.cpp:3889-3894 Arm7tdmi::step_arm *)
Definition step_arm (instruction : Z) : CPU ArmStepResult :=
  elapsed_override ← runtime_multiply_elapsed_cycles instruction;
  status ← execute_arm instruction;
  finish_step instruction None status None elapsed_override.

(** [step_thumb(instruction)]. *)
(* @ arm7tdmi.cpp:3938-3957 Arm7tdmi::step_thumb *)
Definition step_thumb (instruction : Z) : CPU ArmStepResult :=
  elapsed_override ← runtime_thumb_elapsed_cycles instruction;
  status ← execute_thumb instruction;
  finish_thumb status elapsed_override.

(** The override of a single transfer run from IWRAM. *)
(* @ arm7tdmi.cpp:3919-3933 Arm7tdmi::step_arm *)
Definition iwram_override (instruction : Z) (data_address : option Z)
    (waitcnt : WaitStateControl) : CPU (option ArmElapsedCycleEstimate) :=
  match data_address with
  | Some address =>
      if negb (can_decode_swap instruction) &&
         (can_decode_single_data_transfer_immediate instruction ||
          can_decode_single_data_transfer_register instruction ||
          can_decode_halfword_data_transfer_immediate instruction ||
          can_decode_halfword_data_transfer_register instruction) &&
         negb (bits instruction 12 0xF =? kPc)
      then
        pc ← reg kPc;
        mret (c ← iwram_single_transfer_cycles pc address (transfer_access_width instruction)
                    (has instruction (Z.shiftl 1 20)) waitcnt;
              Some (mkArmElapsedCycleEstimate c false true))
      else mret None
  | None => mret None
  end.

(** [o1] or else [o2]. *)
Definition or_else {A} (o1 o2 : option A) : option A :=
  match o1 with Some a => Some a | None => o2 end.

(** The estimate of a Thumb transfer. *)
(* @ arm7tdmi.cpp:3992-4018 Arm7tdmi::step_thumb *)
Definition thumb_transfer_estimate (decoded : DecodedThumbMemoryTransferInstruction)
    (waitcnt : WaitStateControl) (prefetch_internal_load_overlap : bool)
    : CPU (option ArmElapsedCycleEstimate) :=
  address ← thumb_transfer_address decoded;
  pc ← reg kPc;
  let width := thumb_transfer_access_width (tm_kind decoded) in
  let timing := timing_waitcnt address width waitcnt in
  if has_elapsed_timing_for_estimate address timing true then
    let cycles := thumb_memory_cycles decoded timing in
    let iwram_cycles := iwram_single_transfer_cycles pc address width (tm_load decoded) waitcnt in
    let cycles := default cycles iwram_cycles in
    let cycles :=
      if thumb_word_load_from_game_pak_rom decoded address then u32 (cycles + 3) else cycles in
    let cycles :=
      if negb (bool_decide (is_Some iwram_cycles)) &&
         thumb_prefetch_overlaps_internal_data_load_cycle decoded address
           (prefetch_enabled waitcnt && prefetch_internal_load_overlap)
      then u32 (cycles - 1) else cycles in
    mret (Some (mkArmElapsedCycleEstimate cycles false true))
  else mret None.

(** The estimate of a Thumb block transfer. *)
(* @ arm7tdmi.cpp:4019-4042 Arm7tdmi::step_thumb *)
Definition thumb_block_estimate (decoded : DecodedThumbBlockTransferInstruction)
    (waitcnt : WaitStateControl) : CPU (option ArmElapsedCycleEstimate) :=
  address ← reg (tbt_rb decoded);
  match thumb_mirrored_oam_block_load_elapsed_cycles decoded address waitcnt with
  | Some mirrored => mret (Some (mkArmElapsedCycleEstimate mirrored false true))
  | None =>
      let register_count := count_registers (tbt_register_list decoded) in
      let timing := timing_waitcnt address AccessWidth.word waitcnt in
      mret (if has_elapsed_timing_for_estimate address timing true then
              let cycles :=
                if tbt_load decoded
                then u32 (1 + register_count * (nonsequential timing + sequential timing))
                else u32 (register_count * sequential timing) in
              Some (mkArmElapsedCycleEstimate cycles false true)
            else None)
  end.

Section Steps.
Context {D : Type} (io : MemoryBus.IoCallbacks D).
Abbreviation Sys := (ArmMemory.Sys (D := D)).

(** The transfer at [data_address] has a cost estimate, or is not executed. *)
Definition estimable (instruction : Z) (data_address : option Z)
    (estimate : Z -> option ArmElapsedCycleEstimate) : CPU bool :=
  passed ← memory_condition_passed instruction;
  mret (match data_address with
        | Some address => negb passed || bool_decide (is_Some (estimate address))
        | None => true
        end).

(** [step_arm(instruction, memory)]. *)
(* @ arm7tdmi.cpp:3896-3906 Arm7tdmi::step_arm *)
Definition step_arm_memory (instruction : Z) : ST Sys ArmStepResult :=
  data_address ← cpu (first_data_address instruction);
  known ← cpu (estimable instruction data_address (estimate_arm_elapsed_cycles instruction));
  if negb known then cpu (step_result ExecuteStatus.unsupported no_cycles)
  else
    elapsed_override ← cpu (runtime_multiply_elapsed_cycles instruction);
    status ← execute_arm_memory io instruction;
    cpu (finish_step instruction data_address status None elapsed_override).

(** [step_arm(instruction, memory, waitcnt, elapsed_override)]. *)
(* @ arm7tdmi.cpp:3908-3936 Arm7tdmi::step_arm *)
Definition step_arm_waitcnt (instruction : Z) (waitcnt : WaitStateControl)
    (elapsed_override : option ArmElapsedCycleEstimate) : ST Sys ArmStepResult :=
  data_address ← cpu (first_data_address instruction);
  known ← cpu (estimable instruction data_address (fun address =>
                 estimate_arm_elapsed_cycles_waitcnt instruction address waitcnt));
  if negb known then cpu (step_result ExecuteStatus.unsupported no_cycles)
  else
    runtime_override ←
      (match elapsed_override with
       | Some _ => mret elapsed_override
       | None => cpu (runtime_multiply_elapsed_cycles instruction)
       end);
    runtime_override ←
      (match runtime_override with
       | Some _ => mret runtime_override
       | None => cpu (iwram_override instruction data_address waitcnt)
       end);
    status ← execute_arm_memory io instruction;
    cpu (finish_step instruction data_address status (Some waitcnt) runtime_override).

(** [step_thumb(instruction, memory)]. *)
(* @ arm7tdmi.cpp:3959-3978 Arm7tdmi::step_thumb *)
Definition step_thumb_memory (instruction : Z) : ST Sys ArmStepResult :=
  elapsed_override ← cpu (runtime_thumb_elapsed_cycles instruction);
  status ← execute_thumb_memory io instruction;
  cpu (finish_thumb status elapsed_override).

(** [step_thumb(instruction, memory, waitcnt, prefetch_internal_load_overlap,
    elapsed_override)]. *)
(* @ arm7tdmi.cpp:3985-4065 Arm7tdmi::step_thumb *)
Definition step_thumb_waitcnt (instruction : Z) (waitcnt : WaitStateControl)
    (prefetch_internal_load_overlap : bool) (elapsed_override : option ArmElapsedCycleEstimate)
    : ST Sys ArmStepResult :=
  estimate ←
    (if can_decode_thumb_memory_transfer instruction then
       decoded ← lift (decode_thumb_memory_transfer instruction);
       cpu (thumb_transfer_estimate decoded waitcnt prefetch_internal_load_overlap)
     else mret None);
  block_estimate ←
    (if can_decode_thumb_block_transfer instruction then
       decoded ← lift (decode_thumb_block_transfer instruction);
       cpu (thumb_block_estimate decoded waitcnt)
     else mret None);
  let estimate := or_else block_estimate estimate in
  runtime_override ←
    (match elapsed_override with
     | Some _ => mret elapsed_override
     | None => cpu (runtime_thumb_elapsed_cycles instruction)
     end);
  status ← execute_thumb_memory io instruction;
  cpu (finish_thumb status (or_else runtime_override estimate)).

(** [step_thumb(instruction, memory, waitcnt)]. *)
(* @ arm7tdmi.cpp:3980-3983 Arm7tdmi::step_thumb *)
Definition step_thumb_waitcnt_default (instruction : Z) (waitcnt : WaitStateControl)
    : ST Sys ArmStepResult :=
  step_thumb_waitcnt instruction waitcnt false None.
End Steps.
