(* ===== verification/ArmSafety.v ===== *)
(** * The ARM7TDMI: type safety

    The invariant of the processor (array sizes, words in range, a mode that
    has an enumerator) and the proof that every instruction, decoded or not,
    returns a status and keeps it: no [at] is out of range, no decoder is
    called on an instruction its predicate rejects, no empty [optional] is
    read. *)

From S2P Require Import Prelude.
From S2P Require Import StateMonad.
From S2P Require Import ArmTypes.
From S2P Require Import ArmDecode.
From S2P Require Import ThumbDecode.
From S2P Require Import ArmMultiply.
From S2P Require Import ArmState.
From S2P Require Import ArmExecute.
From S2P Require Import ThumbExecute.

(** A register number. *)
Definition reg_index (i : Z) : Prop := 0 <= i < 16.

(** The banked words. *)
Definition banked (s : Arm7tdmi) : list Z :=
  [user_sp_ s; user_lr_ s; fiq_sp_ s; fiq_lr_ s; irq_sp_ s; irq_lr_ s;
   supervisor_sp_ s; supervisor_lr_ s; abort_sp_ s; abort_lr_ s; undefined_sp_ s;
   undefined_lr_ s; fiq_spsr_ s; supervisor_spsr_ s; abort_spsr_ s; irq_spsr_ s;
   undefined_spsr_ s].

(** A mode with an enumerator. *)
Definition named (mode : CpuMode.t) : Prop := decode_cpu_mode (CpuMode.index mode) = Some mode.

Definition words (n : nat) (l : list Z) : Prop := length l = n /\ Forall (fits 32) l.

Record wf (s : Arm7tdmi) : Prop := mk_wf {
  wf_registers : words 16 (registers_ s);
  wf_shared : words 5 (shared_r8_r12_ s);
  wf_fiq : words 5 (fiq_r8_r12_ s);
  wf_banked : Forall (fits 32) (banked s);
  wf_mode : named (mode_ s);
  wf_elapsed : fits 64 (elapsed_cycles_ s)
}.

#[export] Instance typed_word : Typed Z := fits 32.
#[export] Instance typed_mode : Typed CpuMode.t := fun _ => True.
#[export] Instance typed_status : Typed ExecuteStatus.t := fun _ => True.

(** The typing of the decoded instructions. *)
#[export] Instance typed_arm : Typed DecodedArmInstruction := fun d =>
  reg_index (dp_rn d) /\ reg_index (dp_rd d) /\ fits 32 (dp_operand2 d).
#[export] Instance typed_branch : Typed DecodedBranchInstruction := fun _ => True.
#[export] Instance typed_exchange : Typed DecodedBranchExchangeInstruction := fun d =>
  reg_index (bx_rm d).
#[export] Instance typed_multiply : Typed DecodedMultiplyInstruction := fun d =>
  reg_index (mu_rd d) /\ reg_index (mu_rn d) /\ reg_index (mu_rs d) /\ reg_index (mu_rm d).
#[export] Instance typed_multiply_long : Typed DecodedMultiplyLongInstruction := fun d =>
  reg_index (rd_hi d) /\ reg_index (rd_lo d) /\ reg_index (ml_rs d) /\ reg_index (ml_rm d).
#[export] Instance typed_psr : Typed DecodedPsrTransferInstruction := fun d =>
  reg_index (rd_or_rm d) /\ fits 32 (ps_operand d).
#[export] Instance typed_thumb : Typed DecodedThumbInstruction := fun d =>
  reg_index (th_rd d) /\ reg_index (th_rs d) /\ fits 32 (th_operand d) /\
  (operand_is_register d = true -> reg_index (th_operand d)).
#[export] Instance typed_thumb_shift : Typed DecodedThumbShiftInstruction := fun d =>
  reg_index (ts_rd d) /\ reg_index (ts_rs d) /\ 0 <= ts_amount d < 32.
#[export] Instance typed_thumb_alu : Typed DecodedThumbAluInstruction := fun d =>
  reg_index (ta_rd d) /\ reg_index (ta_rs d).
#[export] Instance typed_thumb_branch : Typed DecodedThumbBranchInstruction := fun _ => True.
#[export] Instance typed_thumb_long : Typed DecodedThumbLongBranchLinkInstruction :=
  fun _ => True.
#[export] Instance typed_thumb_high : Typed DecodedThumbHighRegisterInstruction := fun d =>
  reg_index (hr_rd d) /\ reg_index (hr_rs d).
#[export] Instance typed_thumb_sp : Typed DecodedThumbStackPointerInstruction := fun _ => True.
#[export] Instance typed_thumb_address : Typed DecodedThumbLoadAddressInstruction := fun d =>
  reg_index (la_rd d).

(** ** Fields of an instruction *)

Lemma bits_range x n m : 0 <= m < 256 -> 0 <= bits x n m <= m.
Proof.
  intros Hm. unfold bits. pose proof (land_range (Z.shiftr x n) m) as H.
  rewrite wrap_id; [lia|unfold fits; lia].
Qed.

Lemma bits_index x n : reg_index (bits x n 0xF).
Proof. pose proof (bits_range x n 0xF). unfold reg_index. lia. Qed.

Lemma bits_low_index x n : reg_index (bits x n 0x7).
Proof. pose proof (bits_range x n 0x7). unfold reg_index. lia. Qed.

Lemma land_word x m : 0 <= m < 2 ^ 32 -> fits 32 (Z.land x m).
Proof. intros Hm. pose proof (land_range x m). unfold fits. lia. Qed.

Lemma not32_fits x : fits 32 (not32 x).
Proof. apply wrap_fits. lia. Qed.

Lemma rotate_right_fits v n : fits 32 v -> fits 32 (rotate_right v n).
Proof.
  intros Hv. unfold rotate_right. cbv zeta. destruct (_ =? 0); [done|].
  apply fits_lor; [lia| |width]. apply fits_shiftr; [lia| |done].
  pose proof (wrap_fits 8 ltac:(lia) (n mod 32)). unfold fits in *. lia.
Qed.

Lemma u8_word x : fits 32 (u8 x).
Proof. apply (fits_mono 8); [lia|apply wrap_fits; lia]. Qed.

#[export] Hint Resolve bits_index bits_low_index not32_fits rotate_right_fits u8_word : width.
#[export] Hint Extern 2 (fits 32 (Z.land _ ?m)) => (apply land_word; lia) : width.

Lemma immediate_shift_fits v type n c :
  fits 32 v -> 0 <= n -> fits 32 (sh_value (apply_immediate_shift v type n c)).
Proof.
  intros Hv Hn. destruct type; unfold apply_immediate_shift; destruct (n =? 0);
    try destruct (negb _); cbn [sh_value]; try (destruct c); try (destruct (sign_bit v)); width.
Qed.

Lemma register_shift_fits v type n :
  fits 32 v -> 0 <= n -> fits 32 (sh_value (apply_register_shift v type n)).
Proof.
  intros Hv Hn. unfold apply_register_shift. destruct (n =? 0); [done|].
  destruct type; cbv zeta.
  - destruct (n <? 32); [width|]. destruct (n =? 32); by vm_compute.
  - destruct (n <? 32); [width|]. destruct (n =? 32); by vm_compute.
  - destruct (n <? 32); [|by destruct (sign_bit v); vm_compute].
    destruct (negb _); cbn [sh_value]; width.
  - cbn [sh_value]. destruct (u8 _ =? 0); [done|]. by apply rotate_right_fits.
Qed.

(** ** The state *)

Lemma words_lookup n l i : words n l -> fits 32 (default 0 (l !! i)).
Proof.
  intros [_ Hl]. destruct (l !! i) eqn:E; [|by vm_compute].
  by apply (Forall_lookup_1 _ _ _ _ Hl E).
Qed.

Lemma words_insert n l i v : words n l -> fits 32 v -> words n (<[i := v]> l).
Proof. intros [Hn Hl] Hv. split; [by rewrite length_insert|by apply Forall_insert]. Qed.

Lemma reg_at_fits i s : wf s -> fits 32 (reg_at i s).
Proof. intros H. apply (words_lookup 16), H. Qed.

Lemma wf_set_registers l s : words 16 l -> wf s -> wf (s <| registers_ := l |>).
Proof. by intros Hl []. Qed.

(** The flags are not constrained. *)
Lemma wf_flags s n z c v i f t :
  wf s -> wf (s <| negative_ := n |> <| zero_ := z |> <| carry_ := c |> <| overflow_ := v |>
               <| thumb_state_ := t |> <| fiq_disabled_ := f |> <| irq_disabled_ := i |>).
Proof. by intros []. Qed.

Lemma wf_set_mode mode s : named mode -> wf s -> wf (s <| mode_ := mode |>).
Proof. by intros Hm []. Qed.

Lemma wf_add_elapsed c s : wf s -> wf (s <| elapsed_cycles_ ::= fun e => u64 (e + c) |>).
Proof. intros []. constructor; try done. cbn. width. Qed.

Lemma wf_set_nz r s : wf s -> wf (set_nz r s).
Proof. by intros []. Qed.

Lemma wf_set_nz64 r s : wf s -> wf (set_nz64 r s).
Proof. by intros []. Qed.

Lemma wf_set_add_flags a b r s : wf s -> wf (set_add_flags a b r s).
Proof. by intros []. Qed.

Lemma wf_set_adc_flags a b c r s : wf s -> wf (set_adc_flags a b c r s).
Proof. by intros []. Qed.

Lemma wf_set_sub_flags a b r s : wf s -> wf (set_sub_flags a b r s).
Proof. by intros []. Qed.

Lemma wf_set_sbc_flags a b c r s : wf s -> wf (set_sbc_flags a b c r s).
Proof. by intros []. Qed.

Lemma wf_set_logical_flags r d s : wf s -> wf (set_logical_flags r d s).
Proof. intros H. unfold set_logical_flags. case_match; by destruct H. Qed.

Lemma wf_update_carry c s : wf s -> wf (update_carry c s).
Proof. intros H. destruct c; by destruct H. Qed.

#[export] Hint Resolve wf_set_nz wf_set_nz64 wf_set_add_flags wf_set_adc_flags wf_set_sub_flags
  wf_set_sbc_flags wf_set_logical_flags wf_update_carry : safe.

Lemma wf_save_banked mode s : wf s -> wf (save_banked_registers mode s).
Proof.
  intros H. pose proof (reg_at_fits 13 s H) as H13. pose proof (reg_at_fits 14 s H) as H14.
  assert (Hr : words 5 (map (fun index => reg_at (8 + index) s) (seq 0 5))).
  { split; [done|]. repeat constructor; by apply reg_at_fits. }
  unfold save_banked_registers. cbv zeta.
  set (l := map _ _) in *. clearbody l. destruct H as [H1 H2 H3 H4 H5 H6].
  unfold banked in H4. rewrite !Forall_cons_iff in H4. destruct_and!.
  destruct mode; (constructor; [done..| |done|done]); unfold banked; cbn;
    rewrite !Forall_cons_iff; split_and!; done.
Qed.

Lemma wf_load_sp_lr sp lr s : fits 32 sp -> fits 32 lr -> wf s -> wf (load_sp_lr sp lr s).
Proof.
  intros H1 H2 H. apply (wf_set_registers (<[14%nat := lr]> (<[13%nat := sp]> (registers_ s))));
    [|done]. by repeat apply words_insert; [apply H| |].
Qed.

Lemma wf_load_banked mode s : wf s -> wf (load_banked_registers mode s).
Proof.
  intros H. unfold load_banked_registers. cbv zeta.
  set (bank := match mode with CpuMode.fiq => fiq_r8_r12_ s | _ => shared_r8_r12_ s end).
  assert (Hb : words 5 bank) by (destruct mode; apply H).
  set (s1 := set_field registers_ _ s).
  assert (H1 : wf s1).
  { apply (wf_set_registers (fold_left
      (fun l index => <[(8 + index)%nat := default 0 (bank !! index)]> l) (seq 0 5) (registers_ s)));
      [|done].
    cbn [seq fold_left]. repeat apply words_insert; try apply H; by apply (words_lookup 5). }
  clearbody s1. pose proof (wf_banked s1 H1) as Hf. unfold banked in Hf.
  rewrite !Forall_cons_iff in Hf. destruct_and!.
  destruct mode; try done; by apply wf_load_sp_lr.
Qed.

Lemma wf_switch_mode mode s : named mode -> wf s -> wf (switch_mode mode s).
Proof.
  intros Hm H. unfold switch_mode. case_decide; [done|].
  by apply wf_load_banked, wf_set_mode, wf_save_banked.
Qed.

Lemma decode_named v mode : decode_cpu_mode v = Some mode -> named mode.
Proof.
  unfold decode_cpu_mode. pose proof (land_range v kModeMask ltac:(by vm_compute)) as Hr.
  change kModeMask with 31 in *. set (x := Z.land v 31) in *. clearbody x.
  bit_cases x 32%nat; try discriminate; intros E; apply (inj Some) in E as <-; reflexivity.
Qed.

Lemma wf_set_cpsr v s : wf s -> wf (set_cpsr v s).2.
Proof.
  intros H. unfold set_cpsr. destruct (decode_cpu_mode v) as [mode|] eqn:E; [|done].
  cbn [snd]. apply wf_switch_mode; [by eapply decode_named|]. by destruct H.
Qed.

Lemma or_if_fits b m v : fits 32 m -> fits 32 v -> fits 32 (or_if b m v).
Proof. destruct b; [|done]. unfold or_if. width. Qed.

Lemma unnamed_not_named u : ~ named (CpuMode.unnamed u).
Proof.
  unfold named, decode_cpu_mode.
  pose proof (land_range (CpuMode.index (CpuMode.unnamed u)) kModeMask ltac:(by vm_compute)) as Hr.
  change kModeMask with 31 in *. set (x := Z.land _ 31) in *. clearbody x.
  bit_cases x 32%nat; clear; intros E; congruence.
Qed.

Lemma named_index mode : named mode -> fits 32 (CpuMode.index mode).
Proof.
  intros Hm. destruct mode as [| | | | | | |u]; [..|by destruct (unnamed_not_named u)];
    clear Hm; unfold fits; cbn [CpuMode.index]; lia.
Qed.

Lemma cpsr_fits s : wf s -> fits 32 (cpsr s).
Proof.
  intros H. unfold cpsr. cbv zeta. do 7 (apply or_if_fits; [by vm_compute|]).
  by apply named_index, wf_mode.
Qed.

Lemma spsr_fits s : wf s -> typed (spsr s).
Proof.
  intros H v. pose proof (wf_banked s H) as Hb. unfold banked in Hb.
  rewrite !Forall_cons_iff in Hb. destruct_and!. unfold spsr.
  destruct (mode_ s); intros E; simplify_eq; done.
Qed.

Lemma wf_set_spsr_for_mode mode v s : fits 32 v -> wf s -> wf (set_spsr_for_mode mode v s).
Proof.
  intros Hv [H1 H2 H3 H4 H5 H6]. unfold banked in H4. rewrite !Forall_cons_iff in H4. destruct_and!.
  destruct mode; (constructor; [done..| |done|done]); unfold banked; cbn;
    rewrite !Forall_cons_iff; split_and!; done.
Qed.

Lemma wf_set_spsr v s : fits 32 v -> wf s -> wf (set_spsr v s).2.
Proof.
  intros Hv H. pose proof (wf_set_spsr_for_mode (mode_ s) v s Hv H) as H'.
  unfold set_spsr, set_spsr_for_mode in *. by destruct (mode_ s).
Qed.

Lemma wf_reset : wf reset.
Proof.
  constructor; try (split; [done|]); try (apply (bool_decide_unpack _); by vm_compute).
Qed.

(** ** Leaves *)

Lemma array_at_word n l i : words n l -> 0 <= i < Z.of_nat n ->
  exists v, array_at l (Z.to_nat i) = Ret v /\ fits 32 v.
Proof.
  intros [Hn Hl] Hi. destruct (array_at_lt l (Z.to_nat i)) as (v & E & Ev); [lia|].
  exists v. split; [done|]. by apply (Forall_lookup_1 _ _ _ _ Hl E).
Qed.

Lemma safe_reg i : reg_index i -> safe wf (reg i).
Proof.
  intros Hi. unfold safe. intros s Hs. destruct (array_at_word 16 (registers_ s) i) as (v & E & Hv);
    [apply Hs|exact Hi|].
  exists v, s. split; [|done]. unfold reg. by rewrite E.
Qed.

Lemma safe_set_reg i v : reg_index i -> fits 32 v -> safe wf (set_reg i v).
Proof.
  intros Hi Hv s Hs. exists tt, (s <| registers_ := <[Z.to_nat i := v]> (registers_ s) |>).
  destruct (wf_registers s Hs) as [Hn Hl] eqn:E. split.
  - unfold set_reg. rewrite array_put_lt; [done|]. unfold reg_index in Hi. lia.
  - split; [done|]. apply wf_set_registers; [|done]. by apply words_insert.
Qed.

Lemma safe_arm_visible i : reg_index i -> safe wf (arm_visible_register_value i).
Proof.
  intros Hi. unfold arm_visible_register_value. apply (safe_bind wf (A:=Z)); [by apply safe_reg|]. intros v Hv. apply safe_ret.
  unfold typed, typed_word in *. destruct (_ =? _); [width|done].
Qed.

Lemma safe_thumb_visible i : reg_index i -> safe wf (thumb_visible_register_value i).
Proof.
  intros Hi. unfold thumb_visible_register_value. apply (safe_bind wf (A:=Z)); [by apply safe_reg|]. intros v Hv. apply safe_ret.
  unfold typed, typed_word in *. destruct (_ =? _); [width|done].
Qed.

Lemma safe_register_shift_value i : reg_index i -> safe wf (register_shift_visible_value i).
Proof.
  intros Hi. unfold register_shift_visible_value. apply (safe_bind wf (A:=Z)); [by apply safe_reg|]. intros v Hv. apply safe_ret.
  unfold typed, typed_word in *. destruct (_ =? _); [width|done].
Qed.

Lemma safe_set_cpsr v : safe wf (act (set_cpsr v)).
Proof. apply safe_act. intros s Hs. split; [done|by apply wf_set_cpsr]. Qed.

Lemma safe_set_spsr v : fits 32 v -> safe wf (act (set_spsr v)).
Proof. intros Hv. apply safe_act. intros s Hs. split; [done|by apply wf_set_spsr]. Qed.

Lemma safe_cpsr : safe wf (gets cpsr).
Proof. apply safe_gets, cpsr_fits. Qed.

Lemma safe_spsr : safe wf (gets spsr).
Proof. apply safe_gets, spsr_fits. Qed.

Lemma safe_flag (f : Arm7tdmi -> bool) : safe wf (gets f).
Proof. by apply safe_gets. Qed.

Lemma safe_mode : safe wf (gets mode_).
Proof. by apply safe_gets. Qed.

Lemma safe_condition c m : safe wf m -> safe wf (if_passed c m).
Proof.
  intros Hm. unfold if_passed. apply (safe_bind wf (A:=bool)); [apply safe_flag|]. intros passed _.
  apply safe_if; [done|]. intros _. by apply safe_ret.
Qed.

Lemma safe_status_of {S} (I : S -> Prop) b : safe I (status_of b).
Proof. apply safe_if; intros _; by apply safe_ret. Qed.

Lemma safe_executed {S} (I : S -> Prop) : safe I executed.
Proof. by apply safe_ret. Qed.
Lemma safe_skipped {S} (I : S -> Prop) : safe I skipped_condition.
Proof. by apply safe_ret. Qed.
Lemma safe_unsupported {S} (I : S -> Prop) : safe I unsupported.
Proof. by apply safe_ret. Qed.

Lemma safe_checked {S} (I : S -> Prop) {A} {HA : Typed A} c (d : A) :
  c = true -> typed d -> safe I (lift (checked c d)).
Proof. intros -> Hd. by apply (safe_lift I _ d). Qed.

Lemma pc_index : reg_index kPc.
Proof. by vm_compute. Qed.
Lemma lr_index : reg_index kLinkRegister.
Proof. by vm_compute. Qed.
Lemma sp_index : reg_index 13.
Proof. by vm_compute. Qed.

Lemma safe_thumb_state (f : Arm7tdmi -> bool) : safe wf (modify (fun s => s <| thumb_state_ := f s |>)).
Proof. apply safe_modify. by intros s []. Qed.
Lemma safe_irq_disabled b : safe wf (modify (fun s => s <| irq_disabled_ := b |>)).
Proof. apply safe_modify. by intros s []. Qed.
Lemma safe_fiq_disabled b : safe wf (modify (fun s => s <| fiq_disabled_ := b |>)).
Proof. apply safe_modify. by intros s []. Qed.
Lemma safe_carry b : safe wf (modify (fun s => s <| carry_ := b |>)).
Proof. apply safe_modify. by intros s []. Qed.

#[export] Hint Resolve safe_reg safe_set_reg safe_arm_visible safe_thumb_visible
  safe_register_shift_value safe_set_cpsr safe_set_spsr safe_cpsr safe_spsr safe_flag safe_mode
  safe_condition safe_status_of safe_executed safe_skipped safe_unsupported pc_index lr_index
  sp_index safe_irq_disabled safe_fiq_disabled safe_carry : safe.
#[export] Hint Extern 1 (safe wf (modify (fun s => s <| thumb_state_ := _ |>))) =>
  apply (safe_thumb_state (fun _ => _)) : safe.
#[export] Hint Extern 2 (safe wf (modify _)) => (apply safe_modify; intros; auto with safe) : safe.
#[export] Hint Extern 1 (fits 32 _) => (unfold typed, typed_word in *; width) : safe.
#[export] Hint Extern 1 (safe _ (mret _)) => (apply safe_ret; auto with safe) : safe.
#[export] Hint Extern 1 (typed _) => exact I : safe.
#[export] Hint Extern 2 (@typed Z _ _) => (unfold typed, typed_word in *; width) : safe.
#[export] Hint Extern 1 (reg_index (bits _ _ 0xF)) => apply bits_index : safe.
#[export] Hint Extern 1 (reg_index (bits _ _ 0x7)) => apply bits_low_index : safe.
