(* ===== verification/ArmTotal.v ===== *)
(** * The ARM7TDMI: every instruction returns

    Type safety of the instructions that do not access memory: from a
    well-formed processor [execute_arm] and [execute_thumb] return a status and
    a well-formed processor, for every instruction. *)

From S2P Require Import Prelude.
From S2P Require Import StateMonad.
From S2P Require Import ArmTypes.
From S2P Require Import ArmDecode.
From S2P Require Import ThumbDecode.
From S2P Require Import ArmMultiply.
From S2P Require Import ArmState.
From S2P Require Import ArmExecute.
From S2P Require Import ThumbExecute.
From S2P Require Import ArmSafety.

(** ** Decoders *)

Section Decoders.
Context {S : Type} (I : S -> Prop).

Ltac decoder := intros Hc; apply safe_checked; [done|].

Lemma safe_decode_psr i : can_decode_psr_transfer i = true -> safe I (lift (decode_psr_transfer i)).
Proof.
  decoder. destruct (is_mrs i); [split; [apply bits_index|by vm_compute]|]. cbv zeta.
  unfold typed, typed_psr. cbn [rd_or_rm ps_operand].
  destruct (bit i 25); split; [by vm_compute| |apply bits_index|by vm_compute].
  apply rotate_right_fits, land_word. lia.
Qed.

Lemma safe_decode_branch i : can_decode_branch i = true -> safe I (lift (decode_branch i)).
Proof. by decoder. Qed.

Lemma safe_decode_exchange i :
  can_decode_branch_exchange i = true -> safe I (lift (decode_branch_exchange i)).
Proof. decoder. apply bits_index. Qed.

Lemma safe_decode_multiply i : can_decode_multiply i = true -> safe I (lift (decode_multiply i)).
Proof. decoder. split_and!; apply bits_index. Qed.

Lemma safe_decode_long i :
  can_decode_multiply_long i = true -> safe I (lift (decode_multiply_long i)).
Proof. decoder. split_and!; apply bits_index. Qed.

Lemma safe_decode_dp i :
  can_decode_data_processing_immediate i = true ->
  safe I (lift (decode_data_processing_immediate i)).
Proof.
  decoder. split_and!; try apply bits_index. apply rotate_right_fits, land_word. lia.
Qed.

Lemma bits_nonneg i n m : 0 <= bits i n m.
Proof. apply Z.mod_pos_bound. lia. Qed.

Lemma safe_decode_immediate_shift i rm c :
  can_decode_data_processing_register_shift i = true -> bit i 4 = false -> fits 32 rm ->
  safe I (lift (decode_data_processing_immediate_shift i rm c)).
Proof.
  intros Hc H4 Hrm. apply safe_checked; [by rewrite Hc, H4|].
  split_and!; try apply bits_index. apply immediate_shift_fits; [done|apply bits_nonneg].
Qed.

Lemma safe_decode_register_shift i rm rs :
  can_decode_data_processing_register_shift i = true ->
  bit i 4 && negb (bit i 7) = true -> fits 32 rm ->
  safe I (lift (decode_data_processing_register_shift i rm rs)).
Proof.
  intros Hc H4 Hrm. apply safe_checked; [by rewrite Hc, H4|].
  split_and!; try apply bits_index. apply register_shift_fits; [done|].
  apply Z.mod_pos_bound. lia.
Qed.

Lemma safe_decode_thumb_add i :
  can_decode_thumb_add_subtract i = true -> safe I (lift (decode_thumb_add_subtract i)).
Proof.
  decoder. split_and!; try apply bits_low_index; [apply u8_word|].
  intros _. apply bits_low_index.
Qed.

Lemma safe_decode_thumb_shift i :
  can_decode_thumb_shift_immediate i = true -> safe I (lift (decode_thumb_shift_immediate i)).
Proof.
  decoder. split_and!; try apply bits_low_index; pose proof (bits_range i 6 0x1F);
    cbn [ts_amount]; lia.
Qed.

Lemma safe_decode_thumb_alu i :
  can_decode_thumb_alu i = true -> safe I (lift (decode_thumb_alu i)).
Proof. decoder. split; apply bits_low_index. Qed.

Lemma safe_decode_thumb_immediate i :
  can_decode_thumb_immediate i = true -> safe I (lift (decode_thumb_immediate i)).
Proof.
  decoder. split_and!; try apply bits_low_index; [apply land_word; lia|done].
Qed.

Lemma safe_decode_thumb_unconditional i :
  can_decode_thumb_unconditional_branch i = true ->
  safe I (lift (decode_thumb_unconditional_branch i)).
Proof. by decoder. Qed.

Lemma safe_decode_thumb_conditional i :
  can_decode_thumb_conditional_branch i = true ->
  safe I (lift (decode_thumb_conditional_branch i)).
Proof. by decoder. Qed.

Lemma safe_decode_thumb_long i :
  can_decode_thumb_long_branch_link i = true -> safe I (lift (decode_thumb_long_branch_link i)).
Proof. by decoder. Qed.

(** Three bits and a fourth make a register number. *)
Lemma high_index i n m : reg_index (u8 (Z.lor (bits i n 0x7) (Z.shiftl (bits i m 0x1) 3))).
Proof.
  assert (H : fits 4 (Z.lor (bits i n 0x7) (Z.shiftl (bits i m 0x1) 3))).
  { apply fits_lor; [lia| |].
    - pose proof (bits_range i n 0x7). unfold fits. lia.
    - pose proof (bits_range i m 0x1). rewrite Z.shiftl_mul_pow2 by lia. unfold fits. lia. }
  rewrite wrap_id; [exact H|]. by apply (fits_mono 4).
Qed.

Lemma safe_decode_thumb_high i :
  can_decode_thumb_high_register i = true -> safe I (lift (decode_thumb_high_register i)).
Proof. decoder. split; apply high_index. Qed.

Lemma safe_decode_thumb_sp i :
  can_decode_thumb_stack_pointer_adjust i = true ->
  safe I (lift (decode_thumb_stack_pointer_adjust i)).
Proof. by decoder. Qed.

Lemma safe_decode_thumb_address i :
  can_decode_thumb_load_address i = true -> safe I (lift (decode_thumb_load_address i)).
Proof. decoder. apply bits_low_index. Qed.
End Decoders.

#[export] Hint Resolve safe_decode_psr safe_decode_branch safe_decode_exchange
  safe_decode_multiply safe_decode_long safe_decode_dp safe_decode_thumb_add
  safe_decode_thumb_shift safe_decode_thumb_alu safe_decode_thumb_immediate
  safe_decode_thumb_unconditional safe_decode_thumb_conditional safe_decode_thumb_long
  safe_decode_thumb_high safe_decode_thumb_sp safe_decode_thumb_address : safe.

(** ** The long multiplier terminates *)

Lemma mask64_low n : 0 < n < 64 -> mask64_range 0 n = Z.ones n.
Proof.
  intros Hn. unfold mask64_range, shl64. rewrite (proj2 (Z.leb_gt n 0)) by lia.
  rewrite (proj2 (Z.leb_gt 64 n)) by lia.
  rewrite Z.sub_0_r, Z.shiftl_0_r, Z.shiftl_1_l, Z.ones_equiv.
  assert (0 < 2 ^ n < 2 ^ 64) by (split; [|apply Z.pow_lt_mono_r]; lia).
  rewrite (wrap_id 64 (2 ^ n)), (wrap_id 64 (2 ^ n - 1)), wrap_id; unfold fits; lia.
Qed.

(** The multiplier register as a 33-bit two's-complement number. *)
Definition multiplier_value (v : Z) : Z := swrap 33 v.

Lemma swrap_mod w v : 0 < w -> wrap w (swrap w v) = wrap w v.
Proof.
  intros Hw. unfold swrap. destruct (_ <? _); [apply wrap_wrap; lia|].
  unfold wrap. rewrite Zminus_mod, Z_mod_same_full, Z.sub_0_r, !Zmod_mod. done.
Qed.

Lemma swrap_unique w v z : 0 < w -> sfits w z -> wrap w v = wrap w z -> swrap w v = z.
Proof.
  intros Hw Hz E. unfold swrap. rewrite E. unfold sfits in Hz.
  assert (H2 : 2 ^ w = 2 * 2 ^ (w - 1)) by (rewrite <- Z.pow_succ_r by lia; f_equal; lia).
  destruct (Z.lt_ge_cases z 0).
  - replace (wrap w z) with (z + 2 ^ w).
    2: { symmetry. unfold wrap. symmetry. apply Zmod_unique with (-1); lia. }
    rewrite (proj2 (Z.ltb_ge _ _)); lia.
  - rewrite (wrap_id w z) by (unfold fits; lia). rewrite (proj2 (Z.ltb_lt _ _)); lia.
Qed.

Lemma bit64_testbit v n : 0 <= n -> bit64 v n = Z.testbit v n.
Proof.
  intros Hn. unfold bit64. pose proof (has_bit (Z.shiftr v n) 0 ltac:(lia)) as H. unfold has in H.
  change (2 ^ 0) with 1 in H. rewrite H. by rewrite Z.shiftr_spec, Z.add_0_l by lia.
Qed.

(** A multiplier register: 33 bits, or 34 bits whose top two agree. *)
Definition register33 (v : Z) : Prop :=
  fits 33 v \/ (fits 33 (v - 2 ^ 33) /\ Z.testbit v 32 = true).

Lemma high_ones_lor r : fits 33 r -> Z.lor r (2 ^ 64 - 2 ^ 33) = r + (2 ^ 64 - 2 ^ 33).
Proof.
  intros Hr. replace (2 ^ 64 - 2 ^ 33) with (Z.shiftl (Z.ones 31) 33) by reflexivity.
  rewrite Z.add_nocarry_lxor, Z.lxor_lor; [done| |];
    apply Z.bits_inj'; intros i Hi; rewrite Z.land_spec, Z.bits_0, Z.shiftl_spec by lia;
    (destruct (Z.lt_ge_cases i 33);
      [by rewrite (Z.testbit_neg_r _ (i - 33)), andb_false_r by lia
      |by rewrite (fits_testbit_high 33 ltac:(lia) r i Hr ltac:(lia))]).
Qed.

Lemma testbit_top r : fits 33 r -> Z.testbit r 32 = (2 ^ 32 <=? r).
Proof.
  intros Hr. unfold fits in Hr. destruct (Z.leb_spec (2 ^ 32) r).
  - apply Z.testbit_true; [lia|]. by rewrite <- (Z.div_unique r (2 ^ 32) 1 (r - 2 ^ 32)) by lia.
  - apply Z.testbit_false; [lia|]. by rewrite Z.div_small by lia.
Qed.

(** Sign extension of the register gives its value. *)
Lemma extended_value v : register33 v -> swrap 64 (sign_extend64 v 33 64) = multiplier_value v.
Proof.
  intros Hv. unfold multiplier_value.
  assert (Hw : wrap 33 v = v \/ wrap 33 v = v - 2 ^ 33 /\ Z.testbit v 32 = true).
  { destruct Hv as [Hv|[Hv Hb]]; [left; by apply wrap_id|right]. split; [|done].
    rewrite <- (wrap_id 33 (v - 2 ^ 33) Hv). unfold wrap.
    by rewrite Zminus_mod, Z_mod_same_full, Z.sub_0_r, Zmod_mod. }
  assert (Hr : fits 33 (wrap 33 v)) by (apply wrap_fits; lia).
  assert (Hb : Z.testbit v 32 = (2 ^ 32 <=? wrap 33 v)).
  { rewrite <- testbit_top by done. by rewrite testbit_wrap by lia. }
  unfold sign_extend64. change (u8 (33 - 1)) with 32. rewrite bit64_testbit, Hb by lia.
  change (64 <=? 64) with true. cbv iota zeta. change (mask64_range 33 64) with (2 ^ 64 - 2 ^ 33).
  unfold swrap at 2. cbv zeta. change (33 - 1) with 32.
  set (r := wrap 33 v) in *. unfold fits in Hr. destruct (Z.leb_spec (2 ^ 32) r).
  - assert (El : Z.lor v (2 ^ 64 - 2 ^ 33) = r + (2 ^ 64 - 2 ^ 33)).
    { rewrite <- (high_ones_lor r Hr). destruct Hw as [Hw|[Hw _]]; [by rewrite Hw|].
      apply Z.bits_inj'. intros i Hi. rewrite !Z.lor_spec.
      change (2 ^ 64 - 2 ^ 33) with (Z.shiftl (Z.ones 31) 33).
      destruct (Z.lt_ge_cases i 33).
      - unfold r. rewrite testbit_wrap by lia. by rewrite (proj2 (Z.ltb_lt i 33)) by lia.
      - rewrite Z.shiftl_spec, (Z.testbit_ones_nonneg 31 (i - 33)) by lia.
        destruct (Z.ltb_spec (i - 33) 31); [by rewrite !orb_true_r|]. rewrite !orb_false_r.
        assert (fits 34 v) by (unfold fits; lia).
        rewrite (fits_testbit_high 34 ltac:(lia) v i), (fits_testbit_high 33 ltac:(lia) r i);
          done || lia. }
    rewrite El, (proj2 (Z.ltb_ge r (2 ^ 32))) by lia.
    apply swrap_unique; [lia|unfold sfits; lia|]. unfold wrap.
    rewrite <- (Z_mod_plus_full (r - 2 ^ 33) 1 (2 ^ 64)). f_equal. lia.
  - rewrite (proj2 (Z.ltb_lt r (2 ^ 32))) by lia.
    assert (Ev : v = r) by (destruct Hw as [Hw|[_ Ht]]; [done|congruence]).
    rewrite Ev.
    apply swrap_unique; [lia|unfold sfits; lia|done].
Qed.

(** A shift by eight divides the value by 256. *)
Lemma shift_value v :
  register33 v -> arithmetic_shift_right v 8 33 = wrap 33 (multiplier_value v / 2 ^ 8).
Proof.
  intros Hv. unfold arithmetic_shift_right. cbv zeta. rewrite (extended_value v Hv).
  rewrite mask64_low by lia. rewrite Z.land_ones by lia. rewrite Z.shiftr_div_pow2 by lia.
  set (z := multiplier_value v / 2 ^ 8). unfold wrap.
  apply Z.mod_mod_divide. by exists (2 ^ 31).
Qed.

Lemma shifts_value v n :
  register33 v -> Nat.iter (Datatypes.S n) (fun v => arithmetic_shift_right v 8 33) v =
  wrap 33 (multiplier_value v / 2 ^ (8 * Z.of_nat (Datatypes.S n))).
Proof.
  intros Hv. induction n as [|n IH]; [by apply shift_value|].
  change (Nat.iter (Datatypes.S (Datatypes.S n)) _ v) with
    (arithmetic_shift_right (Nat.iter (Datatypes.S n) (fun v => arithmetic_shift_right v 8 33) v) 8 33).
  rewrite IH. set (k := 8 * Z.of_nat (Datatypes.S n)).
  assert (Hz : sfits 33 (multiplier_value v / 2 ^ k)).
  { pose proof (swrap_range 33 v ltac:(lia)) as Hr. unfold multiplier_value, sfits in *.
    change (33 - 1) with 32 in *. assert (1 <= 2 ^ k) by (apply (Z.pow_le_mono_r 2 0 k); lia).
    split; [apply Z.div_le_lower_bound; nia|apply Z.div_lt_upper_bound; nia]. }
  rewrite shift_value by (left; apply wrap_fits; lia). f_equal.
  unfold multiplier_value at 1. rewrite (swrap_unique 33 _ (multiplier_value v / 2 ^ k));
    [|lia|done|by apply wrap_wrap].
  rewrite Z.div_div, <- Z.pow_add_r by lia. f_equal. f_equal. lia.
Qed.

Lemma multiplier_step_value mc m :
  ms_multiplier (multiplier_step mc m) = arithmetic_shift_right (ms_multiplier m) 8 33.
Proof. unfold multiplier_step. by destruct (multiply_csa_cycle _ _ _ _). Qed.

(** The loop returns once the multiplier it would reach after some step ends
    it. *)
Lemma loop_returns sg mc k : forall fuel m,
  (k < fuel)%nat ->
  multiply_should_terminate
    (Nat.iter (Datatypes.S k) (fun v => arithmetic_shift_right v 8 33) (ms_multiplier m)) sg = true ->
  is_Some (multiplier_loop fuel mc sg m).
Proof.
  induction k as [|k IH]; intros [|fuel] m Hk Ht; try lia; cbn [multiplier_loop];
    rewrite multiplier_step_value.
  - change (Nat.iter 1 _ (ms_multiplier m)) with (arithmetic_shift_right (ms_multiplier m) 8 33) in Ht.
    rewrite Ht. by eexists.
  - destruct (multiply_should_terminate (arithmetic_shift_right _ _ _) sg); [by eexists|].
    apply IH; [lia|]. rewrite multiplier_step_value. by rewrite Nat.iter_succ_r in Ht.
Qed.

Lemma signed_start rs : fits 32 rs -> register33 (sign_extend64 rs 32 34).
Proof.
  intros Hr. unfold sign_extend64. change (u8 (32 - 1)) with 31. rewrite bit64_testbit by lia.
  change (64 <=? 34) with false. cbv iota zeta. change (mask64_range 32 34) with (3 * 2 ^ 32).
  rewrite mask64_low, Z.land_ones by lia. unfold fits in Hr.
  assert (Ht : Z.testbit rs 31 = (2 ^ 31 <=? rs)).
  { destruct (Z.leb_spec (2 ^ 31) rs).
    - apply Z.testbit_true; [lia|]. by rewrite <- (Z.div_unique rs (2 ^ 31) 1 (rs - 2 ^ 31)) by lia.
    - apply Z.testbit_false; [lia|]. by rewrite Z.div_small by lia. }
  rewrite Ht. destruct (Z.leb_spec (2 ^ 31) rs).
  - assert (E : Z.lor rs (3 * 2 ^ 32) = rs + 3 * 2 ^ 32).
    { change (3 * 2 ^ 32) with (Z.shiftl 3 32).
      rewrite Z.add_nocarry_lxor, Z.lxor_lor; [done| |];
        apply Z.bits_inj'; intros i Hi; rewrite Z.land_spec, Z.bits_0, Z.shiftl_spec by lia;
        (destruct (Z.lt_ge_cases i 32);
          [by rewrite (Z.testbit_neg_r _ (i - 32)), andb_false_r by lia
          |by rewrite (fits_testbit_high 32 ltac:(lia) rs i Hr ltac:(lia))]). }
    rewrite E, Z.mod_small by lia. right. split; [unfold fits; lia|].
    apply Z.testbit_true; [lia|]. by rewrite <- (Z.div_unique _ (2 ^ 32) 3 rs) by lia.
  - rewrite Z.mod_small by lia. left. unfold fits. lia.
Qed.

Lemma multiplier_returns (signed_multiply : bool) (rm rs accumulator : Z) :
  fits 32 rs ->
  exists output, arm7tdmi_multiply_long_output signed_multiply rm rs accumulator = Some output.
Proof.
  intros Hrs. unfold arm7tdmi_multiply_long_output.
  destruct (multiplier_start signed_multiply rm rs accumulator) as [mc m] eqn:E.
  assert (Hl : is_Some (multiplier_loop 4 mc signed_multiply m)).
  { apply (loop_returns _ _ 3); [lia|]. injection E as _ <-. cbn [ms_multiplier].
    destruct signed_multiply.
    - rewrite shifts_value by (by apply signed_start). change (8 * Z.of_nat 4) with 32.
      pose proof (swrap_range 33 (sign_extend64 rs 32 34) ltac:(lia)) as Hz.
      fold (multiplier_value (sign_extend64 rs 32 34)) in Hz.
      set (z := multiplier_value _) in *. clearbody z. unfold sfits in Hz. change (33 - 1) with 32 in Hz.
      destruct (Z.lt_ge_cases z 0).
      + rewrite <- (Z.div_unique z (2 ^ 32) (-1) (z + 2 ^ 32)) by lia. done.
      + rewrite Z.div_small by lia. done.
    - assert (Hm : Z.land rs 0x1FFFFFFFF = rs).
      { change 0x1FFFFFFFF with (Z.ones 33). rewrite Z.land_ones by lia. unfold fits in Hrs.
        apply Z.mod_small. lia. }
      rewrite Hm. assert (H33 : fits 33 rs) by (unfold fits in *; lia).
      rewrite shifts_value by (by left). unfold multiplier_value.
      unfold fits in Hrs.
      rewrite (swrap_unique 33 rs rs) by (try done; try lia; unfold sfits; change (33 - 1) with 32; lia).
      change (8 * Z.of_nat 4) with 32. rewrite Z.div_small by lia. done. }
  destruct Hl as [m' ->]. by eexists.
Qed.

(** C36: the do-while loop of the long multiplier ends after at most four
    iterations, for every pair of operands, so that the carry of a
    flag-setting long multiplication is defined. *)
Theorem long_multiplier_terminates (signed_multiply : bool) (rm rs accumulator : Z) :
  fits 32 rs ->
  exists output, arm7tdmi_multiply_long_output signed_multiply rm rs accumulator = Some output.
Proof. apply multiplier_returns. Qed.

Lemma long_multiplier_terminates_witness :
  exists output, arm7tdmi_multiply_long_output true 5 0xFFFFFFFF 7 = Some output.
Proof. apply (long_multiplier_terminates true 5 0xFFFFFFFF 7). by apply (bool_decide_unpack _). Defined.

(** ** Executions *)

Lemma safe_enter_exception kind : safe wf (enter_exception kind).
Proof.
  unfold enter_exception. cbv zeta. safe.
  - apply safe_modify. intros s Hs. apply wf_switch_mode; [by destruct kind|done].
  - apply safe_when. safe. apply safe_modify. intros s Hs. by apply wf_set_spsr_for_mode.
  - apply safe_set_reg; [apply pc_index|]. by destruct kind; vm_compute.
Qed.

Lemma safe_return_from_exception adj : safe wf (return_from_exception adj).
Proof. unfold return_from_exception. safe. Qed.

(** The processor while the mode's SPSR is known to exist or not. *)
Definition wf_saved (has_saved : bool) (s : Arm7tdmi) : Prop := wf s /\ has_spsr s = has_saved.

Lemma has_spsr_some s : has_spsr s = true -> exists v, spsr s = Some v.
Proof. unfold has_spsr, spsr. destruct (mode_ s); try discriminate; by eexists. Qed.

Lemma write_result_total d h (b : bool) r :
  reg_index (dp_rd d) -> fits 32 r ->
  total (wf_saved h) (write_result d (b && h) r) (fun _ s => wf s).
Proof.
  intros Hd Hr s [Hs Hh]. unfold write_result. destruct (b && h) eqn:E; cbn [negb].
  - apply andb_true_iff in E as [_ ->]. destruct (has_spsr_some s Hh) as [v Hv].
    assert (Ht : safe wf (act (set_cpsr v);; set_reg kPc (Z.land r (not32 0x3)))) by safe.
    destruct (Ht s Hs) as (a & s' & E & _ & Hs'). exists a, s'. split; [|done].
    rewrite <- E. unfold mbind, st_bind, gets, value_of. by rewrite Hv.
  - destruct (safe_set_reg (dp_rd d) r Hd Hr s Hs) as (a & s' & E' & _ & Hs'). by exists a, s'.
Qed.

Lemma finish_total d h (b u : bool) r flags :
  reg_index (dp_rd d) -> fits 32 r -> (forall s, wf s -> wf (flags s)) ->
  total (wf_saved h) (write_result d (b && h) r;; when u (modify flags);; executed)
    (fun a s => typed a /\ wf s).
Proof.
  intros Hd Hr Hf. apply (total_bind _ _ _ (fun _ s => wf s)); [by apply write_result_total|].
  intros _. change (safe wf (when u (modify flags);; executed)). safe.
Qed.

Lemma flags_total h flags :
  (forall s, wf s -> wf (flags s)) ->
  total (wf_saved h) (modify flags;; executed) (fun a s => typed a /\ wf s).
Proof.
  intros Hf s [Hs _]. exists ExecuteStatus.executed, (flags s).
  split; [done|]. split; [done|by apply Hf].
Qed.

Lemma saved_reg h i : reg_index i -> safe (wf_saved h) (reg i).
Proof.
  intros Hi s [Hs Hh]. destruct (safe_reg i Hi s Hs) as (v & s' & E & Hv & _).
  assert (s' = s) as -> by (unfold reg in E; destruct (array_at _ _); by simplify_eq/=).
  by exists v, s.
Qed.

Lemma safe_execute_data_processing d off :
  typed d -> safe wf (execute_data_processing d off).
Proof.
  intros (Hn & Hd & Ho). unfold execute_data_processing. cbv zeta.
  apply (total_bind _ _ _ (fun h s => wf_saved h s)); [by apply total_gets|]. intros h.
  apply (safe_before (A:=Z) (wf_saved h)); [apply saved_reg, pc_index|]. intros pc Hpc.
  apply (safe_before (A:=Z) (wf_saved h)); [by apply saved_reg|]. intros rn Hrn.
  apply (safe_before (A:=bool) (wf_saved h)); [by apply safe_gets|]. intros c _.
  assert (Hleft : fits 32 (if dp_rn d =? kPc then u32 (pc + off) else rn))
    by (destruct (_ =? _); [width|done]).
  set (left := if _ =? kPc then _ else rn) in *. clearbody left.
  destruct (dp_opcode d);
    (apply flags_total || (apply finish_total; [done| |]));
    intros; auto with safe; width.
Qed.

#[export] Hint Resolve safe_enter_exception safe_execute_data_processing : safe.

Lemma safe_execute_psr_transfer d : typed d -> safe wf (execute_psr_transfer d).
Proof.
  intros [Hr Ho]. unfold execute_psr_transfer. safe.
Qed.

Lemma safe_execute_multiply d : typed d -> safe wf (execute_multiply d).
Proof. intros (Hd & Hn & Hs & Hm). unfold execute_multiply. safe.
Qed.

(** The 64-bit accumulator is no register value. *)
Lemma total_accumulator d :
  typed d ->
  total wf (if ml_accumulate d
            then high ← reg (rd_hi d); low ← reg (rd_lo d);
                 mret (Z.lor (u64 (Z.shiftl high 32)) low)
            else mret 0) (fun _ s => wf s).
Proof.
  intros (Hh & Hl & Hs & Hm). destruct (ml_accumulate d); [|by apply total_ret].
  apply (safe_before wf (A:=Z)); [by apply safe_reg|]. intros high _.
  apply (safe_before wf (A:=Z)); [by apply safe_reg|]. intros low _. by apply total_ret.
Qed.

Lemma safe_long_carry sg rm rs acc :
  fits 32 rs ->
  safe wf (output ← value_of (arm7tdmi_multiply_long_output sg rm rs acc);
           modify (fun s => s <| carry_ := mh_carry output |>)).
Proof.
  intros Hrs. destruct (multiplier_returns sg rm rs acc Hrs) as [out ->].
  apply (safe_carry (mh_carry out)).
Qed.

Lemma safe_execute_multiply_long d : typed d -> safe wf (execute_multiply_long d).
Proof.
  intros Hd. pose proof (total_accumulator d Hd) as Hacc. destruct Hd as (Hh & Hl & Hs & Hm).
  unfold execute_multiply_long. cbv zeta.
  eapply safe_bind; [auto with safe|]. intros rm Hrm.
  eapply safe_bind; [auto with safe|]. intros rs Hrs.
  apply (total_bind _ _ _ _ _ Hacc). intros acc.
  change (safe wf (set_reg (rd_lo d) (u32 (Z.land (long_product (signed_multiply d) rm rs acc) 0xFFFFFFFF));;
    set_reg (rd_hi d) (u32 (Z.shiftr (long_product (signed_multiply d) rm rs acc) 32));;
    when (ml_set_flags d)
      (modify (set_nz64 (long_product (signed_multiply d) rm rs acc));;
       output ← value_of (arm7tdmi_multiply_long_output (signed_multiply d) rm rs acc);
       modify (fun s => s <| carry_ := mh_carry output |>));; executed)).
  eapply safe_bind; [auto with safe|]. intros _ _.
  eapply safe_bind; [auto with safe|]. intros _ _.
  eapply safe_bind; [|auto with safe]. apply safe_when.
  eapply safe_bind; [auto with safe|]. intros _ _. by apply safe_long_carry.
Qed.

Lemma safe_execute_branch d : safe wf (execute_branch d).
Proof. unfold execute_branch. apply safe_condition. safe. Qed.

Lemma safe_execute_branch_exchange d : typed d -> safe wf (execute_branch_exchange d).
Proof. intros Hd. unfold execute_branch_exchange. apply safe_condition. safe. Qed.

(** A shifted operand not shifted by a register is shifted by an immediate. *)
Lemma immediate_shift_bit i :
  can_decode_data_processing_register_shift i = true ->
  bit i 4 && negb (bit i 7) = false -> bit i 4 = false.
Proof.
  unfold can_decode_data_processing_register_shift. destruct (_ || _); [done|]. cbv zeta.
  intros Hc Hr. rewrite Hr in Hc. destruct (bit i 4); [|done].
  by rewrite orb_true_r in Hc.
Qed.

Lemma safe_execute_shifted i :
  can_decode_data_processing_register_shift i = true ->
  safe wf (execute_shifted_data_processing i).
Proof.
  intros Hc. unfold execute_shifted_data_processing. cbv zeta.
  eapply safe_bind; [|intros d Hd; by apply safe_condition, safe_execute_data_processing].
  apply safe_if; intros Hb.
  - eapply safe_bind; [auto with safe|]. intros rm Hrm.
    eapply safe_bind; [auto with safe|]. intros rs Hrs.
    by apply safe_decode_register_shift.
  - eapply safe_bind; [auto with safe|]. intros rm Hrm.
    eapply safe_bind; [apply safe_flag|]. intros c _.
    apply safe_decode_immediate_shift; [done|by apply immediate_shift_bit|done].
Qed.

#[export] Hint Resolve safe_execute_psr_transfer safe_execute_multiply safe_execute_multiply_long
  safe_execute_branch safe_execute_branch_exchange safe_execute_shifted : safe.

Lemma safe_execute_arm i : safe wf (execute_arm i).
Proof.
  unfold execute_arm. safe.
  - apply safe_execute_shifted. by apply negb_false_iff.
  - apply safe_decode_dp. by apply negb_false_iff.
Qed.

(** ** Thumb *)

Lemma thumb_shift_fits type v n r c :
  fits 32 v -> 0 <= n < 32 -> thumb_shift type v n = Some (r, c) -> fits 32 r.
Proof.
  intros Hv Hn. unfold thumb_shift. cbv zeta. destruct type; try discriminate;
    intros E; apply (inj Some) in E; revert E.
  - destruct (n =? 0); intros [= <- _]; width.
  - intros [= <- _]. destruct (_ =? 32); [by vm_compute|].
    apply fits_shiftr; [lia| |done]. destruct (n =? 0); lia.
  - intros [= <- _]. destruct (_ =? 32); [|width]. by destruct (sign_bit v); vm_compute.
Qed.

Lemma safe_execute_thumb_shift d : typed d -> safe wf (execute_thumb_shift d).
Proof.
  intros (Hd & Hs & Ha). unfold execute_thumb_shift.
  eapply safe_bind; [auto with safe|]. intros v Hv.
  destruct (thumb_shift _ v _) as [[r c]|] eqn:E; [|auto with safe].
  pose proof (thumb_shift_fits _ _ _ _ _ Hv Ha E) as Hr. safe.
Qed.

Lemma alu_shift_fits op left n : fits 32 left -> 0 <= n -> fits 32 (alu_shift op left n).1.
Proof.
  intros Hl Hn. unfold alu_shift. destruct (n =? 0); [done|]. cbv zeta.
  assert (Hror : fits 32 (if u8 (n mod 32) =? 0 then left else rotate_right left (u8 (n mod 32))))
    by (destruct (_ =? 0); [done|by apply rotate_right_fits]).
  destruct op; cbn [fst]; try done.
  - destruct (n <? 32); [cbn [fst]; width|]. by destruct (n =? 32); vm_compute.
  - destruct (n <? 32); [cbn [fst]; width|]. by destruct (n =? 32); vm_compute.
  - destruct (n <? 32); cbn [fst]; [width|]. by destruct (sign_bit left); vm_compute.
Qed.

Lemma safe_execute_thumb_alu d : typed d -> safe wf (execute_thumb_alu d).
Proof.
  intros (Hd & Hs). unfold execute_thumb_alu. cbv zeta.
  eapply safe_bind; [auto with safe|]. intros left Hleft.
  eapply safe_bind; [auto with safe|]. intros right Hright.
  eapply safe_bind; [apply safe_flag|]. intros c _.
  assert (Hsh : safe wf (let '(result, carry_out) :=
      alu_shift (ta_opcode d) left (u8 (Z.land right 0xFF)) in
    set_reg (ta_rd d) result;; modify (set_nz result);; modify (update_carry carry_out);; executed)).
  { pose proof (alu_shift_fits (ta_opcode d) left (u8 (Z.land right 0xFF)) Hleft) as Hf.
    destruct (alu_shift _ _ _) as [r co]. cbn [fst] in Hf.
    specialize (Hf (proj1 (wrap_fits 8 ltac:(lia) _))). safe. }
  destruct (ta_opcode d); try exact Hsh; safe.
Qed.

Lemma safe_execute_thumb_data_processing d : typed d -> safe wf (execute_thumb_data_processing d).
Proof.
  intros (Hd & Hs & Ho & Hr). unfold execute_thumb_data_processing.
  eapply safe_bind; [apply safe_if; intros E; auto with safe|]. intros operand Hop.
  destruct (th_opcode d); safe.
Qed.

Lemma safe_execute_thumb_branch d : safe wf (execute_thumb_branch d).
Proof. unfold execute_thumb_branch. safe. Qed.

Lemma safe_execute_thumb_long d : safe wf (execute_thumb_long_branch_link d).
Proof. unfold execute_thumb_long_branch_link. safe. Qed.

Lemma safe_execute_thumb_high d : typed d -> safe wf (execute_thumb_high_register d).
Proof.
  intros (Hd & Hs). unfold execute_thumb_high_register. cbv zeta.
  assert (Hw : forall v, fits 32 v -> safe wf (set_reg (hr_rd d)
    (if hr_rd d =? kPc then Z.land v (not32 0x1) else v))).
  { intros v Hv. apply safe_set_reg; [done|]. destruct (_ =? _); [width|done]. }
  eapply safe_bind; [auto with safe|]. intros source Hsource.
  destruct (hr_opcode d); safe.
Qed.

Lemma safe_execute_thumb_sp d : safe wf (execute_thumb_stack_pointer_adjust d).
Proof. unfold execute_thumb_stack_pointer_adjust. safe. Qed.

Lemma safe_execute_thumb_address d : typed d -> safe wf (execute_thumb_load_address d).
Proof.
  intros Hd. unfold execute_thumb_load_address. safe.
Qed.

#[export] Hint Resolve safe_execute_thumb_shift safe_execute_thumb_alu
  safe_execute_thumb_data_processing safe_execute_thumb_branch safe_execute_thumb_long
  safe_execute_thumb_high safe_execute_thumb_sp safe_execute_thumb_address : safe.

Lemma safe_execute_thumb i : safe wf (execute_thumb i).
Proof. unfold execute_thumb. safe. Qed.
