(* ===== verification/ArmFlagsSpec.v ===== *)
(** * The ARM7TDMI: arithmetic and conditions against the architecture

    [add_with_carry] is the architecture's adder.  The eight arithmetic
    data-processing instructions compute it on the operands or their
    complements, and the condition codes after a comparison are the
    comparisons of the unsigned and of the signed operands. *)

From S2P Require Import Prelude.
From S2P Require Import StateMonad.
From S2P Require Import ArmTypes.
From S2P Require Import ArmDecode.
From S2P Require Import ThumbDecode.
From S2P Require Import ArmMultiply.
From S2P Require Import ArmState.
From S2P Require Import ArmExecute.
From S2P Require Import ThumbExecute.
From S2P Require Import ArmSafety.
From S2P Require Import ArmTotal.

(** The result of an addition, its carry and its signed overflow. *)
Record Sum : Type := mkSum { sum_result : Z; sum_carry : bool; sum_overflow : bool }.

(** The architecture's [AddWithCarry]: the carry says that the unsigned sum
    does not fit a word, the overflow that the signed sum does not. *)
Definition add_with_carry (x y : Z) (carry_in : bool) : Sum :=
  let unsigned_sum := x + y + z_of_bool carry_in in
  let signed_sum := i32 x + i32 y + z_of_bool carry_in in
  let result := u32 unsigned_sum in
  mkSum result (negb (result =? unsigned_sum)) (negb (i32 result =? signed_sum)).

(** The processor with the flags of a sum. *)
Definition with_sum (sum : Sum) (s : Arm7tdmi) : Arm7tdmi :=
  s <| negative_ := i32 (sum_result sum) <? 0 |>
    <| zero_ := sum_result sum =? 0 |>
    <| carry_ := sum_carry sum |>
    <| overflow_ := sum_overflow sum |>.

(** What each arithmetic opcode adds. *)
Definition arithmetic_sum (opcode : ArmOpcode.t) (left operand2 : Z) (carry : bool)
    : option Sum :=
  match opcode with
  | ArmOpcode.add | ArmOpcode.cmn => Some (add_with_carry left operand2 false)
  | ArmOpcode.adc => Some (add_with_carry left operand2 carry)
  | ArmOpcode.sub | ArmOpcode.cmp => Some (add_with_carry left (not32 operand2) true)
  | ArmOpcode.sbc => Some (add_with_carry left (not32 operand2) carry)
  | ArmOpcode.rsb => Some (add_with_carry operand2 (not32 left) true)
  | ArmOpcode.rsc => Some (add_with_carry operand2 (not32 left) carry)
  | _ => None
  end.

(** The opcodes that only set flags. *)
Definition compares (opcode : ArmOpcode.t) : bool :=
  match opcode with ArmOpcode.cmp | ArmOpcode.cmn => true | _ => false end.

(** ** Words *)

Lemma u32_cases x :
  - 2 ^ 32 <= x < 2 * 2 ^ 32 ->
  u32 x = if x <? 0 then x + 2 ^ 32 else if x <? 2 ^ 32 then x else x - 2 ^ 32.
Proof.
  intros Hx. unfold wrap. destruct (Z.ltb_spec x 0); [|destruct (Z.ltb_spec x (2 ^ 32))].
  - symmetry. apply (Z.mod_unique _ _ (-1)); lia.
  - apply Z.mod_small. lia.
  - symmetry. apply (Z.mod_unique _ _ 1); lia.
Qed.

Lemma i32_word v : fits 32 v -> i32 v = if v <? 2 ^ 31 then v else v - 2 ^ 32.
Proof. intros Hv. unfold swrap. by rewrite (wrap_id 32 v Hv). Qed.

Lemma sign_bit_word v : fits 32 v -> sign_bit v = (i32 v <? 0).
Proof.
  intros Hv. rewrite i32_word by done. unfold sign_bit. change 0x80000000 with (2 ^ 31).
  rewrite has_bit by lia. unfold fits in Hv. destruct (Z.ltb_spec v (2 ^ 31)) as [H|H].
  - rewrite (fits_testbit_high 31) by (unfold fits; lia). zcmp.
  - apply eq_trans with true; [|zcmp].
    apply Z.testbit_true; [lia|]. by rewrite <- (Z.div_unique v (2 ^ 31) 1 (v - 2 ^ 31)) by lia.
Qed.

Lemma not32_word v : fits 32 v -> not32 v = 2 ^ 32 - 1 - v.
Proof.
  intros Hv. unfold not32, Z.lnot, fits in *. rewrite u32_cases by lia. zcmp.
Qed.

(** ** The flag functions *)

Lemma set_nz_word r s : fits 32 r ->
  set_nz r s = s <| negative_ := i32 r <? 0 |> <| zero_ := r =? 0 |>.
Proof. intros Hr. unfold set_nz. by rewrite sign_bit_word. Qed.

Lemma add_flags_sum l r (c : bool) :
  fits 32 l -> fits 32 r ->
  let sum := add_with_carry l r c in
  sum_result sum = u32 (l + r + z_of_bool c) /\
  sum_carry sum = (0xFFFFFFFF <? u64 (l + r + z_of_bool c)) /\
  sum_overflow sum = add_overflow l r (sum_result sum).
Proof.
  intros Hl Hr. cbv zeta. cbn [add_with_carry sum_result sum_carry sum_overflow].
  unfold add_overflow. rewrite !sign_bit_word by width. rewrite !i32_word by width.
  assert (Hc : 0 <= z_of_bool c <= 1) by (destruct c; cbn; lia).
  set (x := z_of_bool c) in *. clearbody x. unfold fits in *.
  rewrite (wrap_id 64) by (unfold fits; lia). rewrite u32_cases by lia.
  split; [done|]. split; zcmp; done.
Qed.

Lemma sub_flags_sum l r (c : bool) :
  fits 32 l -> fits 32 r ->
  let sum := add_with_carry l (not32 r) c in
  let borrow := if c then 0 else 1 in
  sum_result sum = u32 (l - r - borrow) /\
  sum_carry sum = (u64 (r + borrow) <=? l) /\
  sum_overflow sum = sub_overflow l r (sum_result sum).
Proof.
  intros Hl Hr. cbv zeta. cbn [add_with_carry sum_result sum_carry sum_overflow].
  unfold sub_overflow. rewrite !sign_bit_word by width. rewrite !i32_word by width.
  rewrite not32_word by done. unfold fits in *.
  replace (l + (2 ^ 32 - 1 - r) + z_of_bool c) with (l - r - (if c then 0 else 1) + 2 ^ 32)
    by (destruct c; cbn; lia).
  replace (z_of_bool c) with (1 - (if c then 0 else 1)) by (by destruct c).
  assert (Hc : 0 <= (if c then 0 else 1) <= 1) by (destruct c; lia).
  set (x := if c then 0 else 1) in *. clearbody x.
  rewrite (wrap_id 64) by (unfold fits; lia). rewrite !u32_cases by lia.
  destruct (Z.ltb_spec l (2 ^ 31)), (Z.ltb_spec r (2 ^ 31));
    (split; [zcmp|]; split; zcmp; done).
Qed.

Lemma carry_of_add l r :
  fits 32 l -> fits 32 r -> (u32 (l + r) <? l) = (0xFFFFFFFF <? u64 (l + r + 0)).
Proof.
  intros Hl Hr. unfold fits in *. rewrite (wrap_id 64) by (unfold fits; lia).
  rewrite u32_cases by lia. destruct (Z.ltb_spec (l + r) 0), (Z.ltb_spec (l + r) (2 ^ 32)); zcmp; done.
Qed.

(** Equal flags make equal processors. *)
Lemma with_sum_flags sum c v s :
  fits 32 (sum_result sum) -> sum_carry sum = c -> sum_overflow sum = v ->
  set_nz (sum_result sum) s <| carry_ := c |> <| overflow_ := v |> = with_sum sum s.
Proof. intros Hr <- <-. by rewrite set_nz_word. Qed.

Lemma sum_fits x y c : fits 32 (sum_result (add_with_carry x y c)).
Proof. cbn. width. Qed.

Lemma set_add_flags_sum l r s :
  fits 32 l -> fits 32 r ->
  set_add_flags l r (u32 (l + r)) s = with_sum (add_with_carry l r false) s.
Proof.
  intros Hl Hr. destruct (add_flags_sum l r false Hl Hr) as (E & Hc & Hv). cbv zeta in *.
  cbn [z_of_bool] in E, Hc. rewrite Z.add_0_r in E.
  unfold set_add_flags. rewrite <- E.
  apply with_sum_flags; [apply sum_fits| |done]. by rewrite Hc, E, carry_of_add.
Qed.

Lemma set_adc_flags_sum l r c s :
  fits 32 l -> fits 32 r ->
  set_adc_flags l r c (u32 (l + r + z_of_bool c)) s = with_sum (add_with_carry l r c) s.
Proof.
  intros Hl Hr. destruct (add_flags_sum l r c Hl Hr) as (E & Hc & Hv). cbv zeta in *.
  unfold set_adc_flags. cbv zeta. rewrite <- E.
  apply with_sum_flags; [apply sum_fits|done..].
Qed.

Lemma set_sub_flags_sum l r s :
  fits 32 l -> fits 32 r ->
  set_sub_flags l r (u32 (l - r)) s = with_sum (add_with_carry l (not32 r) true) s.
Proof.
  intros Hl Hr. destruct (sub_flags_sum l r true Hl Hr) as (E & Hc & Hv). cbv zeta in *.
  rewrite Z.sub_0_r in E. rewrite Z.add_0_r, wrap_id in Hc by (by apply (fits_mono 32)).
  unfold set_sub_flags. rewrite <- E.
  apply with_sum_flags; [apply sum_fits|done..].
Qed.

Lemma set_sbc_flags_sum l r (c : bool) s :
  fits 32 l -> fits 32 r ->
  set_sbc_flags l r c (u32 (l - r - (if c then 0 else 1))) s
  = with_sum (add_with_carry l (not32 r) c) s.
Proof.
  intros Hl Hr. destruct (sub_flags_sum l r c Hl Hr) as (E & Hc & Hv). cbv zeta in *.
  unfold set_sbc_flags. cbv zeta. rewrite <- E.
  apply with_sum_flags; [apply sum_fits|done..].
Qed.

(** ** Data processing *)

Lemma reg_read i s : wf s -> reg_index i -> reg i s = Ret (reg_at (Z.to_nat i) s, s).
Proof.
  intros Hs Hi. destruct (wf_registers s Hs) as [Hn _]. unfold reg, reg_at.
  destruct (array_at_lt (registers_ s) (Z.to_nat i)) as (v & Ev & E); [unfold reg_index in Hi; lia|].
  by rewrite E, Ev.
Qed.

Lemma set_reg_write i v s : wf s -> reg_index i ->
  set_reg i v s = Ret (tt, s <| registers_ := <[Z.to_nat i := v]> (registers_ s) |>).
Proof.
  intros Hs Hi. destruct (wf_registers s Hs) as [Hn _]. unfold set_reg.
  rewrite array_put_lt; [done|]. unfold reg_index in Hi. lia.
Qed.

(** The first operand: the PC reads ahead. *)
Definition first_operand (d : DecodedArmInstruction) (pc_offset : Z) (s : Arm7tdmi) : Z :=
  if dp_rn d =? kPc then u32 (reg_at 15 s + pc_offset) else reg_at (Z.to_nat (dp_rn d)) s.

(** The processor after an arithmetic instruction. *)
Definition after_arithmetic (d : DecodedArmInstruction) (sum : Sum) (s : Arm7tdmi) : Arm7tdmi :=
  let s' :=
    if compares (dp_opcode d) then s
    else s <| registers_ := <[Z.to_nat (dp_rd d) := sum_result sum]> (registers_ s) |> in
  if compares (dp_opcode d) || dp_set_flags d then with_sum sum s' else s'.

(** The end of an instruction that writes the sum of [result] and [flags]. *)
Lemma finish_sum d sum result flags s :
  wf s -> reg_index (dp_rd d) -> sum_result sum = result ->
  (forall s, flags s = with_sum sum s) ->
  (write_result d false result;; when (dp_set_flags d && negb false) (modify flags);; executed) s
  = Ret (ExecuteStatus.executed,
         let s' := s <| registers_ := <[Z.to_nat (dp_rd d) := sum_result sum]> (registers_ s) |> in
         if dp_set_flags d then with_sum sum s' else s').
Proof.
  intros Hs Hd <- Hf. unfold write_result, mbind, st_bind. cbn [negb].
  rewrite (set_reg_write _ _ s Hs Hd). rewrite andb_true_r. cbv zeta.
  destruct (dp_set_flags d); [|done]. cbn [when]. unfold modify. by rewrite Hf.
Qed.

Lemma arithmetic_run (d : DecodedArmInstruction) (pc_offset : Z) (s : Arm7tdmi)
    (sum : Sum) :
  wf s -> typed d -> dp_rd d <> kPc ->
  arithmetic_sum (dp_opcode d) (first_operand d pc_offset s) (dp_operand2 d) (carry_ s)
    = Some sum ->
  execute_data_processing d pc_offset s
  = Ret (ExecuteStatus.executed, after_arithmetic d sum s).
Proof.
  intros Hs (Hn & Hd & Ho) Hpc. unfold execute_data_processing, after_arithmetic. cbv zeta.
  apply Z.eqb_neq in Hpc. rewrite Hpc. cbn [andb].
  unfold mbind, st_bind, gets. rewrite (reg_read kPc), (reg_read (dp_rn d)) by (done || apply pc_index).
  change (reg_at (Z.to_nat kPc) s) with (reg_at 15 s).
  change (if dp_rn d =? kPc then _ else _) with (first_operand d pc_offset s).
  assert (Hleft : fits 32 (first_operand d pc_offset s)).
  { unfold first_operand. destruct (dp_rn d =? kPc); [width|by apply reg_at_fits]. }
  set (left := first_operand d pc_offset s) in *. clearbody left.
  destruct (add_flags_sum left (dp_operand2 d) false Hleft Ho) as [Eadd _].
  destruct (add_flags_sum left (dp_operand2 d) (carry_ s) Hleft Ho) as [Eadc _].
  destruct (sub_flags_sum left (dp_operand2 d) true Hleft Ho) as [Esub _].
  destruct (sub_flags_sum left (dp_operand2 d) (carry_ s) Hleft Ho) as [Esbc _].
  destruct (sub_flags_sum (dp_operand2 d) left true Ho Hleft) as [Ersb _].
  destruct (sub_flags_sum (dp_operand2 d) left (carry_ s) Ho Hleft) as [Ersc _].
  cbn [z_of_bool] in Eadd. rewrite Z.add_0_r in Eadd. rewrite Z.sub_0_r in Esub, Ersb.
  destruct (dp_opcode d); cbn [arithmetic_sum compares orb]; intros E; try discriminate E;
    apply (inj Some) in E as <-.
  - apply finish_sum; [done..|]. intros s'. by apply set_sub_flags_sum.
  - apply finish_sum; [done..|]. intros s'. by apply set_sub_flags_sum.
  - apply finish_sum; [done..|]. intros s'. by apply set_add_flags_sum.
  - apply finish_sum; [done..|]. intros s'. by apply set_adc_flags_sum.
  - apply finish_sum; [done..|]. intros s'. by apply set_sbc_flags_sum.
  - apply finish_sum; [done..|]. intros s'. by apply set_sbc_flags_sum.
  - unfold modify. by rewrite set_sub_flags_sum.
  - unfold modify. by rewrite set_add_flags_sum.
Qed.



(** ** Conditions *)

(** What a condition says of the operands of the comparison before it. *)
Definition comparison (condition : ArmCondition.t) (left right : Z) : option bool :=
  match condition with
  | ArmCondition.eq => Some (left =? right)
  | ArmCondition.ne => Some (negb (left =? right))
  | ArmCondition.cs => Some (right <=? left)
  | ArmCondition.cc => Some (left <? right)
  | ArmCondition.hi => Some (right <? left)
  | ArmCondition.ls => Some (left <=? right)
  | ArmCondition.ge => Some (i32 right <=? i32 left)
  | ArmCondition.lt => Some (i32 left <? i32 right)
  | ArmCondition.gt => Some (i32 right <? i32 left)
  | ArmCondition.le => Some (i32 left <=? i32 right)
  | ArmCondition.al => Some true
  | ArmCondition.nv => Some false
  | ArmCondition.mi | ArmCondition.pl | ArmCondition.vs | ArmCondition.vc => None
  end.

(** The flags of a comparison, read as order. *)
Lemma compare_flags l r s :
  fits 32 l -> fits 32 r ->
  let s' := with_sum (add_with_carry l (not32 r) true) s in
  zero_ s' = (l =? r) /\ carry_ s' = (r <=? l) /\
  Bool.eqb (negative_ s') (overflow_ s') = (i32 r <=? i32 l).
Proof.
  intros Hl Hr. cbv zeta. cbn [with_sum set_field zero_ carry_ negative_ overflow_].
  cbn [add_with_carry sum_result sum_carry sum_overflow z_of_bool].
  rewrite !i32_word by width. rewrite !not32_word by done.
  replace (l + (2 ^ 32 - 1 - r) + 1) with (l - r + 2 ^ 32) by lia. unfold fits in *.
  rewrite !u32_cases by lia.
  destruct (Z.ltb_spec l (2 ^ 31)), (Z.ltb_spec r (2 ^ 31)), (Z.ltb_spec (l - r + 2 ^ 32) (2 ^ 32));
    (split; [zcmp; done|]; split; [zcmp; done|zcmp; done]).
Qed.

(** C27: After a CMP, every condition code is the comparison it is named for:
    EQ/NE the equality, CS/CC/HI/LS the unsigned order and GE/LT/GT/LE the
    signed order of the operands, for all pairs of words; the registers, mode
    and memory of the processor do not change. *)
Theorem compare_then_condition (d : DecodedArmInstruction) (pc_offset : Z) (s : Arm7tdmi)
    (condition : ArmCondition.t) (b : bool) :
  wf s -> typed d -> dp_opcode d = ArmOpcode.cmp -> dp_rd d <> kPc ->
  comparison condition (first_operand d pc_offset s) (dp_operand2 d) = Some b ->
  exists s', execute_data_processing d pc_offset s = Ret (ExecuteStatus.executed, s') /\
    registers_ s' = registers_ s /\ mode_ s' = mode_ s /\ condition_passed condition s' = b.
Proof.
  intros Hs Hd Ho Hpc Hc. eexists. split.
  { apply arithmetic_run; [done..|]. by rewrite Ho. }
  unfold after_arithmetic. rewrite Ho. cbn [compares orb]. split; [done|]. split; [done|].
  assert (Hleft : fits 32 (first_operand d pc_offset s)).
  { unfold first_operand. case (dp_rn d =? kPc); [width|by apply reg_at_fits]. }
  assert (Hright : fits 32 (dp_operand2 d)) by apply Hd.
  destruct (compare_flags _ _ s Hleft Hright) as (Ez & Ec & En). cbv zeta in *.
  set (s' := with_sum _ s) in *. clearbody s'.
  set (l := first_operand d pc_offset s) in *. set (r := dp_operand2 d) in *. clearbody l r.
  assert (Hi : i32 l = i32 r <-> l = r).
  { rewrite !i32_word by done. split; [|by intros ->]. unfold fits in *. zcmp. }
  destruct condition; cbn [comparison] in Hc; try discriminate Hc; apply (inj Some) in Hc as <-;
    cbn [condition_passed]; rewrite ?Ez, ?Ec, ?En; zcmp; done.
Qed.

(** -1 is below 1 as a signed word, and above as an unsigned one. *)
Lemma compare_then_condition_witness :
  let d := mkDecodedArmInstruction ArmCondition.al ArmOpcode.cmp true 1 0 1 false false in
  let s := reset <| registers_ := <[1%nat := 0xFFFFFFFF]> (registers_ reset) |> in
  exists s', execute_data_processing d 8 s = Ret (ExecuteStatus.executed, s') /\
    registers_ s' = registers_ s /\ mode_ s' = mode_ s /\
    condition_passed ArmCondition.lt s' = true.
Proof.
  cbv zeta. apply compare_then_condition.
  - apply wf_set_registers; [apply words_insert; [apply wf_reset|by vm_compute]|apply wf_reset].
  - split_and!; by vm_compute.
  - reflexivity.
  - by vm_compute.
  - reflexivity.
Defined.
