(* ===== verification/ArmBankSpec.v ===== *)
(** * The ARM7TDMI: banked registers and exceptions

    The code keeps the visible registers in one array and copies banks in and
    out at each mode switch.  The architecture has one physical register per
    bank.  [physical s mode r] reads the architecture's register file off the
    code's state; a mode switch does not change it, and a register write
    changes one of its registers. *)

From S2P Require Import Prelude.
From S2P Require Import StateMonad.
From S2P Require Import ArmTypes.
From S2P Require Import ArmDecode.
From S2P Require Import ArmState.
From S2P Require Import ArmExecute.
From S2P Require Import ArmSafety.
From S2P Require Import ArmTotal.
From S2P Require Import ArmFlagsSpec.
From S2P Require Interrupts.

(** ** The architecture's register file *)

Definition is_fiq (mode : CpuMode.t) : bool := bool_decide (mode = CpuMode.fiq).

(** System mode shares the registers of user mode. *)
Definition bank (mode : CpuMode.t) : CpuMode.t :=
  match mode with CpuMode.system => CpuMode.user | _ => mode end.

(** Two modes see the same physical register as R[r]: FIQ has R8 to R12 of its
    own, every bank its R13 and R14. *)
Definition same_register (mode mode' : CpuMode.t) (r : nat) : bool :=
  if (8 <=? r)%nat && (r <=? 12)%nat then Bool.eqb (is_fiq mode) (is_fiq mode')
  else if (r =? 13)%nat || (r =? 14)%nat then bool_decide (bank mode = bank mode')
  else true.

(** Where the code stores a register that is not visible. *)
Definition stored_r8_r12 (mode : CpuMode.t) (s : Arm7tdmi) : list Z :=
  match mode with CpuMode.fiq => fiq_r8_r12_ s | _ => shared_r8_r12_ s end.

Definition stored_sp_lr (mode : CpuMode.t) (s : Arm7tdmi) : Z * Z :=
  match mode with
  | CpuMode.fiq => (fiq_sp_ s, fiq_lr_ s)
  | CpuMode.irq => (irq_sp_ s, irq_lr_ s)
  | CpuMode.supervisor => (supervisor_sp_ s, supervisor_lr_ s)
  | CpuMode.abort => (abort_sp_ s, abort_lr_ s)
  | CpuMode.undefined => (undefined_sp_ s, undefined_lr_ s)
  | _ => (user_sp_ s, user_lr_ s)
  end.

Definition stored (mode : CpuMode.t) (r : nat) (s : Arm7tdmi) : Z :=
  if (r <=? 12)%nat then default 0 (stored_r8_r12 mode s !! (r - 8)%nat)
  else if (r =? 13)%nat then (stored_sp_lr mode s).1 else (stored_sp_lr mode s).2.

(** The register R[r] of [mode]. *)
Definition physical (s : Arm7tdmi) (mode : CpuMode.t) (r : nat) : Z :=
  if same_register mode (mode_ s) r then reg_at r s else stored mode r s.

(** ** Copies *)

Definition banked_index (r : nat) : bool := ((8 <=? r) && (r <=? 14))%nat.

Ltac named_cases mode H :=
  destruct mode; try (by destruct (unnamed_not_named _ H)).

Lemma same_register_low mode mode' r :
  (r < 16)%nat -> banked_index r = false -> same_register mode mode' r = true.
Proof.
  intros Hr Hb. unfold banked_index in Hb. unfold same_register.
  destruct (Nat.leb_spec 8 r), (Nat.leb_spec r 12), (Nat.leb_spec r 14), (Nat.eqb_spec r 13),
    (Nat.eqb_spec r 14); cbn in *; try lia; try discriminate Hb; done.
Qed.

Lemma same_register_refl mode r : same_register mode mode r = true.
Proof.
  unfold same_register. rewrite Bool.eqb_reflx, bool_decide_eq_true_2 by done.
  destruct (_ && _); [done|]. by destruct (_ || _).
Qed.

(** A mode sees another's register exactly when it is its own. *)
Lemma same_register_trans m1 m2 m3 r :
  same_register m1 m2 r = true -> same_register m2 m3 r = same_register m1 m3 r.
Proof.
  unfold same_register. case_match; [by intros ->%eqb_prop|]. case_match; [|done].
  by intros ->%bool_decide_eq_true.
Qed.

Lemma same_register_stored m1 m2 r s :
  named m1 -> named m2 -> banked_index r = true -> same_register m1 m2 r = true ->
  stored m1 r s = stored m2 r s.
Proof.
  intros H1 H2 Hr. unfold same_register, stored, banked_index in *.
  apply andb_true_iff in Hr as [Hl%Nat.leb_le Hr%Nat.leb_le].
  destruct (Nat.leb_spec 8 r); [|lia]. destruct (Nat.leb_spec r 12); cbn [andb].
  - intros E%eqb_prop. revert E.
    named_cases m1 H1; named_cases m2 H2; by vm_compute.
  - destruct (Nat.eqb_spec r 13), (Nat.eqb_spec r 14); cbn [orb]; try lia.
    + intros E%bool_decide_eq_true. revert E. named_cases m1 H1; named_cases m2 H2; done.
    + intros E%bool_decide_eq_true. revert E. named_cases m1 H1; named_cases m2 H2; done.
Qed.

(** A save fills the registers of the bank it saves. *)
Lemma stored_save mode mode' r s :
  named mode -> named mode' -> banked_index r = true ->
  stored mode' r (save_banked_registers mode s)
  = if same_register mode' mode r then reg_at r s else stored mode' r s.
Proof.
  intros H H' Hr. apply andb_true_iff in Hr as [Hl%Nat.leb_le Hr%Nat.leb_le].
  assert (Hin : In r (seq 8 7)) by (apply in_seq; lia). cbn [seq] in Hin.
  repeat (destruct Hin as [<-|Hin]); [..|destruct Hin];
    named_cases mode H; named_cases mode' H'; reflexivity.
Qed.

Lemma reg_at_save mode r s : reg_at r (save_banked_registers mode s) = reg_at r s.
Proof. by destruct mode. Qed.

(** A load makes the registers of its bank visible. *)
Lemma reg_at_load mode r s :
  named mode -> length (registers_ s) = 16%nat -> (r < 16)%nat ->
  reg_at r (load_banked_registers mode s)
  = if banked_index r then stored mode r s else reg_at r s.
Proof.
  intros H Hn Hr. destruct s as [l]. cbn [ArmState.registers_] in Hn.
  do 16 (destruct l as [|? l]; [discriminate Hn|]). destruct l; [|discriminate Hn].
  assert (Hin : In r (seq 0 16)) by (apply in_seq; lia). cbn [seq] in Hin.
  repeat (destruct Hin as [<-|Hin]); [..|destruct Hin]; named_cases mode H; reflexivity.
Qed.

Lemma stored_load mode mode' r s :
  stored mode' r (load_banked_registers mode s) = stored mode' r s.
Proof. by destruct mode, mode'. Qed.

(** ** Mode switches *)

Lemma mode_load mode mode' s : mode_ (load_banked_registers mode s) = mode' <-> mode_ s = mode'.
Proof. by destruct mode. Qed.

Lemma mode_switch mode s : mode_ (switch_mode mode s) = mode.
Proof.
  unfold switch_mode. case_decide as E; [done|]. cbv zeta. by apply mode_load.
Qed.

Lemma physical_switch mode mode' r s :
  wf s -> named mode -> named mode' -> (r < 16)%nat ->
  physical (switch_mode mode s) mode' r = physical s mode' r.
Proof.
  intros Hs H H' Hr. unfold physical. rewrite mode_switch. unfold switch_mode.
  case_decide as E; [by rewrite E|]. cbv zeta. cbn [set_field mode_].
  set (s2 := (save_banked_registers (mode_ s) s) <| mode_ := mode |>).
  assert (Hl : length (registers_ s2) = 16%nat).
  { replace (registers_ s2) with (registers_ s); [apply (wf_registers s Hs)|].
    unfold s2. by destruct (mode_ s). }
  change (mode_ s2) with mode. rewrite reg_at_load, stored_load by done.
  assert (Hst : forall m, stored m r s2 = stored m r (save_banked_registers (mode_ s) s))
    by (by intros []).
  rewrite !Hst. change (reg_at r s2) with (reg_at r (save_banked_registers (mode_ s) s)).
  rewrite reg_at_save. pose proof (wf_mode s Hs) as Hm.
  destruct (banked_index r) eqn:Hb; [|by rewrite !same_register_low].
  rewrite !stored_save by done.
  destruct (same_register mode' mode r) eqn:Es; [|done].
  rewrite (same_register_trans _ _ (mode_ s) _ Es). destruct (same_register mode' (mode_ s) r); [done|].
  symmetry. by apply same_register_stored.
Qed.

(** ** Refinement of the register file *)

(** The architecture's view: the current mode and the register file, a function
    of a mode and a register number. *)
Record RegisterFile : Type := mkRegisterFile {
  rf_mode : CpuMode.t;
  rf_file : CpuMode.t -> nat -> Z
}.

Definition rf_read (r : nat) (a : RegisterFile) : Z := rf_file a (rf_mode a) r.

(** A write reaches every mode that shares the register. *)
Definition rf_write (r : nat) (v : Z) (a : RegisterFile) : RegisterFile :=
  mkRegisterFile (rf_mode a) (fun mode r' =>
    if decide (r' = r) then
      if same_register mode (rf_mode a) r then v else rf_file a mode r'
    else rf_file a mode r').

(** A mode switch moves no register. *)
Definition rf_switch (mode : CpuMode.t) (a : RegisterFile) : RegisterFile :=
  mkRegisterFile mode (rf_file a).

Definition refines (s : Arm7tdmi) (a : RegisterFile) : Prop :=
  wf s /\ mode_ s = rf_mode a /\
  forall mode r, named mode -> (r < 16)%nat -> physical s mode r = rf_file a mode r.

Lemma refines_read s a r :
  refines s a -> (r < 16)%nat -> reg (Z.of_nat r) s = Ret (rf_read r a, s).
Proof.
  intros (Hs & Hm & Hp) Hr. rewrite reg_read by (done || unfold reg_index; lia).
  unfold rf_read. rewrite <- Hm, <- Hp, Nat2Z.id by (done || apply Hs).
  unfold physical. by rewrite same_register_refl.
Qed.

(** [s] with a register assigned. *)
Definition put_reg (r : nat) (v : Z) (s : Arm7tdmi) : Arm7tdmi :=
  s <| registers_ := <[r := v]> (registers_ s) |>.

Lemma refines_write s a r v :
  refines s a -> (r < 16)%nat -> fits 32 v ->
  set_reg (Z.of_nat r) v s = Ret (tt, put_reg r v s) /\ refines (put_reg r v s) (rf_write r v a).
Proof.
  intros (Hs & Hm & Hp) Hr Hv. split.
  { rewrite set_reg_write by (done || unfold reg_index; lia). by rewrite Nat2Z.id. }
  split; [by apply wf_set_registers; [apply words_insert; [apply Hs|]|]|]. split; [done|].
  intros mode r' Hmode Hr'. cbn [rf_write rf_file]. rewrite <- Hm, <- !Hp by done.
  unfold physical. change (mode_ (put_reg r v s)) with (mode_ s).
  change (stored mode r' (put_reg r v s)) with (stored mode r' s).
  unfold reg_at, put_reg. cbn [set_field registers_]. case_decide as E.
  - subst r'. rewrite list_lookup_insert_eq by (rewrite (proj1 (wf_registers s Hs)); lia).
    by destruct (same_register mode (mode_ s) r).
  - by rewrite list_lookup_insert_ne.
Qed.

Lemma refines_switch s a mode :
  refines s a -> named mode -> refines (switch_mode mode s) (rf_switch mode a).
Proof.
  intros (Hs & Hm & Hp) Hmode. split; [by apply wf_switch_mode|]. split; [apply mode_switch|].
  intros mode' r Hmode' Hr. rewrite physical_switch by done. by apply Hp.
Qed.

Lemma refines_physical s : wf s -> refines s (mkRegisterFile (mode_ s) (physical s)).
Proof. done. Qed.

(** C20: The copying of banks at mode switches implements the architecture's
    register file. With [physical] as abstraction function: a register read
    returns the register of the current mode, a write changes that register
    alone (in every mode that shares it), and a mode switch, which copies 14
    words through the bank arrays, leaves every register of every mode as it
    was. *)
Theorem register_banks_refine (s : Arm7tdmi) (a : RegisterFile) :
  refines s a ->
  (forall r, (r < 16)%nat -> reg (Z.of_nat r) s = Ret (rf_read r a, s)) /\
  (forall r v, (r < 16)%nat -> fits 32 v ->
     exists s', set_reg (Z.of_nat r) v s = Ret (tt, s') /\ refines s' (rf_write r v a)) /\
  (forall mode, named mode -> refines (switch_mode mode s) (rf_switch mode a)).
Proof.
  intros H. split_and!.
  - intros r Hr. by apply refines_read.
  - intros r v Hr Hv. eexists. by apply refines_write.
  - intros mode Hmode. by apply refines_switch.
Qed.

Lemma register_banks_refine_witness :
  (forall r, (r < 16)%nat -> reg (Z.of_nat r) reset
     = Ret (rf_read r (mkRegisterFile CpuMode.supervisor (physical reset)), reset)) /\
  (forall r v, (r < 16)%nat -> fits 32 v ->
     exists s', set_reg (Z.of_nat r) v reset = Ret (tt, s') /\
       refines s' (rf_write r v (mkRegisterFile CpuMode.supervisor (physical reset)))) /\
  (forall mode, named mode -> refines (switch_mode mode reset)
     (rf_switch mode (mkRegisterFile CpuMode.supervisor (physical reset)))).
Proof. apply register_banks_refine, refines_physical, wf_reset. Defined.

(** ** The CPSR *)

Lemma cpsr_fields s :
  named (mode_ s) ->
  decode_cpu_mode (cpsr s) = Some (mode_ s) /\
  has (cpsr s) kNegativeFlag = negative_ s /\ has (cpsr s) kZeroFlag = zero_ s /\
  has (cpsr s) kCarryFlag = carry_ s /\ has (cpsr s) kOverflowFlag = overflow_ s /\
  has (cpsr s) kThumbStateFlag = thumb_state_ s /\
  has (cpsr s) kFiqDisableFlag = fiq_disabled_ s /\
  has (cpsr s) kIrqDisableFlag = irq_disabled_ s.
Proof.
  intros H. unfold cpsr. cbv zeta. named_cases (mode_ s) H;
    destruct (negative_ s), (zero_ s), (carry_ s), (overflow_ s), (thumb_state_ s),
      (fiq_disabled_ s), (irq_disabled_ s); by vm_compute.
Qed.

(** The flags of the CPSR, on which a mode switch has no effect. *)
Definition flags (s : Arm7tdmi) : list bool :=
  [negative_ s; zero_ s; carry_ s; overflow_ s; thumb_state_ s; fiq_disabled_ s; irq_disabled_ s].

Lemma flags_switch mode s :
  flags (switch_mode mode s) = flags s /\
  elapsed_cycles_ (switch_mode mode s) = elapsed_cycles_ s.
Proof.
  unfold switch_mode. case_decide; [done|]. cbv zeta.
  by destruct (mode_ s), mode.
Qed.

Lemma cpsr_of_flags s s' : flags s = flags s' -> mode_ s = mode_ s' -> cpsr s = cpsr s'.
Proof. intros E Hm. unfold cpsr. injection E as -> -> -> -> -> -> ->. by rewrite Hm. Qed.

(** [s] with the flags of [s0]. *)
Definition with_flags_of (s0 s : Arm7tdmi) : Arm7tdmi :=
  s <| negative_ := negative_ s0 |> <| zero_ := zero_ s0 |> <| carry_ := carry_ s0 |>
    <| overflow_ := overflow_ s0 |> <| thumb_state_ := thumb_state_ s0 |>
    <| fiq_disabled_ := fiq_disabled_ s0 |> <| irq_disabled_ := irq_disabled_ s0 |>.

Lemma set_cpsr_of s0 s :
  named (mode_ s0) -> set_cpsr (cpsr s0) s = (true, switch_mode (mode_ s0) (with_flags_of s0 s)).
Proof.
  intros H. destruct (cpsr_fields s0 H) as (Hm & Hn & Hz & Hc & Hv & Ht & Hf & Hi).
  unfold set_cpsr. by rewrite Hm, Hn, Hz, Hc, Hv, Ht, Hf, Hi.
Qed.

Lemma refines_flags_of s0 s a : refines s a -> refines (with_flags_of s0 s) a.
Proof. intros (Hs & Hm & Hp). split; [by apply wf_flags|done]. Qed.

Lemma refines_spsr s a mode v :
  fits 32 v -> refines s a -> refines (set_spsr_for_mode mode v s) a.
Proof.
  intros Hv (Hs & Hm & Hp). split; [by apply wf_set_spsr_for_mode|]. by destruct mode.
Qed.

(** ** Exceptions *)

(** The distance of the return address from the interrupted instruction. *)
Definition link_of (kind : ExceptionKind.t) (s : Arm7tdmi) : Z :=
  if thumb_state_ s &&
     (bool_decide (kind = ExceptionKind.irq) || bool_decide (kind = ExceptionKind.software_interrupt))
  then 2 else link_offset (exception_vector kind).

(** The processor in the exception handler. *)
Definition entered (kind : ExceptionKind.t) (s : Arm7tdmi) : Arm7tdmi :=
  let vector := exception_vector kind in
  let s1 := set_spsr_for_mode (ev_mode vector) (cpsr s) (switch_mode (ev_mode vector) s) in
  let s2 := put_reg 14 (u32 (reg_at 15 s + link_of kind s)) s1 in
  put_reg 15 (vector_address vector)
    (s2 <| thumb_state_ := false |> <| irq_disabled_ := true |>
        <| fiq_disabled_ := fiq_disabled_ s2 || disable_fiq vector |>).

Lemma enter_run kind s :
  wf s -> kind <> ExceptionKind.reset ->
  enter_exception kind s = Ret (ExecuteStatus.executed, entered kind s).
Proof.
  intros Hs Hk. destruct (cpsr_fields s (wf_mode s Hs)) as (_ & _ & _ & _ & _ & Ht & _).
  set (vector := exception_vector kind).
  assert (Hm : named (ev_mode vector)) by (by destruct kind).
  assert (H1 : wf (set_spsr_for_mode (ev_mode vector) (cpsr s) (switch_mode (ev_mode vector) s))).
  { apply wf_set_spsr_for_mode; [by apply cpsr_fits|by apply wf_switch_mode]. }
  unfold enter_exception, entered. cbv zeta. fold vector.
  unfold mbind, st_bind, gets, modify. rewrite (reg_read kPc s Hs pc_index).
  change (reg_at (Z.to_nat kPc) s) with (reg_at 15 s).
  replace (save_cpsr vector) with true by (by destruct kind). cbn [when]. rewrite Ht.
  unfold link_of. fold vector.
  set (s1 := set_spsr_for_mode _ _ _) in *. set (lr := u32 _).
  rewrite (set_reg_write kLinkRegister lr s1 H1 lr_index).
  change (s1 <| registers_ := _ |>) with (put_reg 14 lr s1).
  assert (H2 : wf (put_reg 14 lr s1)).
  { apply wf_set_registers; [apply words_insert; [apply H1|width]|done]. }
  set (s2 := put_reg 14 lr s1) in *.
  replace (disable_irq vector) with true by (by destruct kind). cbn [when].
  assert (Hf : forall s, wf s -> wf (s <| thumb_state_ := false |> <| irq_disabled_ := true |>))
    by (by intros ? []).
  destruct (disable_fiq vector); cbn [when]; unfold mret, st_ret;
    cbv beta iota.
  - rewrite set_reg_write by (try apply pc_index; by destruct H2).
    by rewrite orb_true_r.
  - rewrite set_reg_write by (try apply pc_index; by destruct H2).
    rewrite orb_false_r. clearbody s2. by destruct s2.
Qed.

Lemma refines_entered kind s a :
  refines s a -> kind <> ExceptionKind.reset ->
  let vector := exception_vector kind in
  refines (entered kind s)
    (rf_write 15 (vector_address vector)
       (rf_write 14 (u32 (rf_read 15 a + link_of kind s)) (rf_switch (ev_mode vector) a))).
Proof.
  intros Ha Hk vector. unfold entered. fold vector. cbv zeta.
  assert (Hm : named (ev_mode vector)) by (by destruct kind).
  assert (Hpc : rf_read 15 a = reg_at 15 s).
  { pose proof (refines_read s a 15 Ha ltac:(lia)) as E.
    rewrite reg_read in E by (try apply Ha; by vm_compute). by injection E. }
  rewrite Hpc. apply refines_write; [|lia|by destruct kind; vm_compute].
  match goal with |- refines ?s' _ => set (s1 := s') end.
  assert (H14 : refines (put_reg 14 (u32 (reg_at 15 s + link_of kind s))
    (set_spsr_for_mode (ev_mode vector) (cpsr s) (switch_mode (ev_mode vector) s)))
    (rf_write 14 (u32 (reg_at 15 s + link_of kind s)) (rf_switch (ev_mode vector) a))).
  { apply refines_write; [|lia|width].
    apply refines_spsr; [apply cpsr_fits, Ha|]. by apply refines_switch. }
  destruct H14 as (Hw & Hmode & Hp). split; [|done]. by destruct Hw.
Qed.

(** The exception's mode holds the interrupted CPSR. *)
Lemma spsr_entered kind s :
  kind <> ExceptionKind.reset -> spsr (entered kind s) = Some (cpsr s).
Proof.
  intros Hk. unfold entered. cbv zeta.
  assert (Hm : mode_ (switch_mode (ev_mode (exception_vector kind)) s)
               = ev_mode (exception_vector kind)) by apply mode_switch.
  set (s1 := switch_mode _ s) in *. clearbody s1. set (c := cpsr s). clearbody c.
  destruct s1; cbn in Hm. subst. by destruct kind.
Qed.

Lemma elapsed_entered kind s : elapsed_cycles_ (entered kind s) = elapsed_cycles_ s.
Proof.
  unfold entered. cbv zeta. rewrite <- (proj2 (flags_switch (ev_mode (exception_vector kind)) s)).
  set (s1 := switch_mode _ s). by destruct kind.
Qed.

Lemma flags_put r v s :
  flags (put_reg r v s) = flags s /\ elapsed_cycles_ (put_reg r v s) = elapsed_cycles_ s.
Proof. by destruct s. Qed.

Lemma flags_of s0 s :
  flags (with_flags_of s0 s) = flags s0 /\
  elapsed_cycles_ (with_flags_of s0 s) = elapsed_cycles_ s.
Proof. by destruct s. Qed.

(** The return restores the mode and flags of [s0] and jumps. *)
Lemma return_run s0 s a adjustment :
  named (mode_ s0) -> refines s a -> spsr s = Some (cpsr s0) ->
  exists s', return_from_exception adjustment s = Ret (ExecuteStatus.executed, s') /\
    refines s' (rf_write 15 (u32 (rf_read 14 a - adjustment)) (rf_switch (mode_ s0) a)) /\
    flags s' = flags s0 /\ elapsed_cycles_ s' = elapsed_cycles_ s.
Proof.
  intros Hm Ha Hs. unfold return_from_exception. rewrite bind_gets, Hs.
  assert (H14 : reg kLinkRegister s = Ret (rf_read 14 a, s))
    by (apply (refines_read s a 14 Ha); lia).
  rewrite (bind_Ret _ _ _ _ _ H14). rewrite (bind_act _ _ _ _ _ (set_cpsr_of s0 s Hm)).
  pose proof (refines_switch _ a _ (refines_flags_of s0 s a Ha) Hm) as Hsw.
  destruct (flags_switch (mode_ s0) (with_flags_of s0 s)) as [Hf He].
  set (s1 := switch_mode _ _) in *. clearbody s1. set (v := u32 _).
  destruct (refines_write s1 _ 15 v Hsw) as [E Hr]; [lia|unfold v; width|].
  destruct (flags_put 15 v s1) as [Hfp Hep]. destruct (flags_of s0 s) as [Hfo Heo].
  exists (put_reg 15 v s1).
  split; [|split; [exact Hr|split; [by rewrite Hfp, Hf|by rewrite Hep, He]]].
  cbn [negb]. change kPc with (Z.of_nat 15). by rewrite (bind_Ret _ _ _ _ _ E).
Qed.

Lemma link_range kind s : 0 <= link_of kind s <= 8.
Proof. unfold link_of. case_match; [lia|]. destruct kind; cbn; lia. Qed.

(** C21: Exceptions are transparent to the interrupted program. An exception
    other than reset enters the handler in the exception's mode, in ARM state
    with IRQs disabled, at its vector, with the interrupted CPSR in the SPSR;
    and returning from there with the link distance of the exception resumes
    the program: same PC, same sixteen registers, same mode and flags (so the
    same state), from any state whose R14 the exception does not share. *)
Theorem exception_return_resumes (kind : ExceptionKind.t) (s : Arm7tdmi) :
  wf s -> kind <> ExceptionKind.reset ->
  bank (mode_ s) <> bank (ev_mode (exception_vector kind)) ->
  exists handler s',
    enter_exception kind s = Ret (ExecuteStatus.executed, handler) /\
    mode_ handler = ev_mode (exception_vector kind) /\
    reg_at 15 handler = vector_address (exception_vector kind) /\
    spsr handler = Some (cpsr s) /\
    thumb_state_ handler = false /\ irq_disabled_ handler = true /\
    return_from_exception (link_of kind s) handler = Ret (ExecuteStatus.executed, s') /\
    cpsr s' = cpsr s /\ elapsed_cycles_ s' = elapsed_cycles_ s /\
    forall r, (r < 16)%nat -> reg_at r s' = reg_at r s.
Proof.
  intros Hs Hk Hb. pose proof (refines_entered kind s _ (refines_physical s Hs) Hk) as He.
  cbv zeta in He. set (vector := exception_vector kind) in *.
  destruct (return_run s _ _ (link_of kind s) (wf_mode s Hs) He (spsr_entered kind s Hk))
    as (s' & Hret & Hr & Hf & Hel).
  assert (Hvis : forall s a r, refines s a -> (r < 16)%nat -> reg_at r s = rf_read r a).
  { intros s1 a r H Hr1. pose proof (refines_read s1 a r H Hr1) as E.
    rewrite reg_read, Nat2Z.id in E by (try apply H; unfold reg_index; lia). by injection E. }
  exists (entered kind s), s'. split; [by apply enter_run|].
  split; [apply He|]. split; [by rewrite (Hvis _ _ _ He) by lia|].
  split; [by apply spsr_entered|]. split; [done|]. split; [done|]. split; [done|].
  pose proof (proj1 (proj2 Hr)) as Hmode. cbn [rf_write rf_switch rf_mode] in Hmode.
  split; [by apply cpsr_of_flags|]. split; [by rewrite Hel, elapsed_entered|].
  intros r Hr16. rewrite (Hvis _ _ _ Hr Hr16).
  assert (Hsame : same_register (mode_ s) (ev_mode vector) 14 = false)
    by (by apply bool_decide_eq_false).
  unfold rf_read. cbn [rf_write rf_switch rf_mode rf_file].
  rewrite !same_register_refl, Hsame.
  assert (Hphys : physical s (mode_ s) r = reg_at r s)
    by (unfold physical; by rewrite same_register_refl).
  destruct (decide (r = 15%nat)) as [->|H15].
  - rewrite decide_False, decide_True by done. rewrite Hphys. unfold wrap.
    rewrite Zminus_mod_idemp_l, Z.add_simpl_r. by apply wrap_id, reg_at_fits.
  - destruct (decide (r = 14%nat)) as [->|]; done.
Qed.

Lemma exception_return_resumes_witness :
  let s := (set_cpsr 0x60000030 reset).2 in
  exists handler s',
    enter_exception ExceptionKind.irq s = Ret (ExecuteStatus.executed, handler) /\
    mode_ handler = CpuMode.irq /\ reg_at 15 handler = 0x18 /\ spsr handler = Some (cpsr s) /\
    thumb_state_ handler = false /\ irq_disabled_ handler = true /\
    return_from_exception (link_of ExceptionKind.irq s) handler
      = Ret (ExecuteStatus.executed, s') /\
    cpsr s' = cpsr s /\ elapsed_cycles_ s' = elapsed_cycles_ s /\
    forall r, (r < 16)%nat -> reg_at r s' = reg_at r s.
Proof.
  apply (exception_return_resumes ExceptionKind.irq); [apply wf_set_cpsr, wf_reset|done|].
  by vm_compute.
Defined.

(** ** Servicing an interrupt *)

(** C32: Servicing the interrupt controller. When IME, an enabled requested
    source and a clear I bit agree, the processor enters the IRQ handler: IRQ
    mode, vector 0x18, the interrupted CPSR saved, further IRQs masked, so that
    servicing again does nothing; in every other case it returns [false] and
    the processor does not change. *)
Theorem irq_service_spec (ic : Interrupts.InterruptController) (s : Arm7tdmi) :
  wf s ->
  if Interrupts.irq_line ic && negb (irq_disabled_ s)
  then exists s', service_pending_irq ic s = Ret (true, s') /\ wf s' /\
    mode_ s' = CpuMode.irq /\ reg_at 15 s' = 0x18 /\ spsr s' = Some (cpsr s) /\
    irq_disabled_ s' = true /\ service_pending_irq ic s' = Ret (false, s')
  else service_pending_irq ic s = Ret (false, s).
Proof.
  intros Hs. unfold service_pending_irq.
  destruct (Interrupts.irq_line ic) eqn:El, (irq_disabled_ s) eqn:Ei; cbn [negb andb orb];
    rewrite (bind_gets irq_disabled_ _ s), ?Ei; try done.
  assert (Hk : ExceptionKind.irq <> ExceptionKind.reset) by done.
  pose proof (refines_entered ExceptionKind.irq s _ (refines_physical s Hs) Hk) as He.
  rewrite (bind_Ret _ _ _ _ _ (enter_run ExceptionKind.irq s Hs Hk)).
  exists (entered ExceptionKind.irq s). split; [done|]. split; [apply He|].
  split; [apply He|]. split.
  - assert (E15 : reg (Z.of_nat 15) (entered ExceptionKind.irq s)
      = Ret (0x18, entered ExceptionKind.irq s)) by (rewrite (refines_read _ _ 15 He) by lia; done).
    rewrite ArmFlagsSpec.reg_read in E15 by (try apply He; by vm_compute). by injection E15.
  - split; [by apply spsr_entered|]. split; [done|].
    rewrite (bind_gets irq_disabled_ _ (entered ExceptionKind.irq s)).
    change (irq_disabled_ (entered ExceptionKind.irq s)) with true.
    done.
Qed.

Lemma irq_service_spec_witness :
  let ic := Interrupts.mkInterruptController 0x1 0x1 true in
  let s := reset <| irq_disabled_ := false |> in
  exists s', service_pending_irq ic s = Ret (true, s') /\ wf s' /\
    mode_ s' = CpuMode.irq /\ reg_at 15 s' = 0x18 /\ spsr s' = Some (cpsr s) /\
    irq_disabled_ s' = true /\ service_pending_irq ic s' = Ret (false, s').
Proof.
  assert (H : wf (reset <| irq_disabled_ := false |>)) by (by destruct wf_reset).
  exact (irq_service_spec (Interrupts.mkInterruptController 0x1 0x1 true) _ H).
Defined.
