(* ===== verification/ArmMemorySafety.v ===== *)
(** * The ARM7TDMI on a bus: every instruction returns

    Against the interface of [BusInterface.v]: from a well-formed processor
    and bus, every ARM and Thumb instruction and every step returns, and
    leaves a well-formed processor and bus.  Then block transfers whose effect
    is not the architecture's, on concrete states. *)

From S2P Require Import Prelude.
From S2P Require Import StateMonad.
From S2P Require Import BusTypes.
From S2P Require Import WaitState.
From S2P Require MemoryBus MemoryBusSpec BusSafety ArmBankSpec.
From S2P Require Import BusInterface.
From S2P Require Import ArmTypes.
From S2P Require Import ArmDecode.
From S2P Require Import ThumbDecode.
From S2P Require Import ArmMultiply.
From S2P Require Import ArmState.
From S2P Require Import ArmExecute.
From S2P Require Import ThumbExecute.
From S2P Require Import ArmMemory.
From S2P Require Import ArmTiming.
From S2P Require Import ArmSafety.
From S2P Require Import ArmTotal.

(** ** The decoded transfers *)

#[export] Instance typed_words : Typed (list Z) := Forall (fits 32).
#[export] Instance typed_swap : Typed DecodedSwapInstruction := fun d =>
  reg_index (sw_rn d) /\ reg_index (sw_rd d) /\ reg_index (sw_rm d).
#[export] Instance typed_block : Typed DecodedBlockDataTransferInstruction := fun d =>
  reg_index (bd_rn d).
#[export] Instance typed_halfword : Typed DecodedHalfwordDataTransferInstruction := fun d =>
  reg_index (hw_rn d) /\ reg_index (hw_rd d).
#[export] Instance typed_single : Typed DecodedSingleDataTransferInstruction := fun d =>
  reg_index (sd_rn d) /\ reg_index (sd_rd d).
#[export] Instance typed_thumb_memory : Typed DecodedThumbMemoryTransferInstruction := fun d =>
  reg_index (tm_rd d) /\ reg_index (tm_rb d) /\ fits 32 (tm_offset d) /\
  (offset_is_register d = true -> reg_index (tm_offset d)).
#[export] Instance typed_thumb_block : Typed DecodedThumbBlockTransferInstruction := fun d =>
  reg_index (tbt_rb d).
#[export] Instance typed_thumb_stack : Typed DecodedThumbStackInstruction := fun _ => True.

Section Decoders.
Context {S : Type} (I : S -> Prop).

Lemma safe_decode_swap i : can_decode_swap i = true -> safe I (lift (decode_swap i)).
Proof. intros Hc. apply safe_checked; [done|]. split_and!; apply bits_index. Qed.

Lemma safe_decode_block i :
  can_decode_block_data_transfer i = true -> safe I (lift (decode_block_data_transfer i)).
Proof. intros Hc. apply safe_checked; [done|]. apply bits_index. Qed.

Lemma safe_decode_halfword_immediate i :
  can_decode_halfword_data_transfer_immediate i = true ->
  safe I (lift (decode_halfword_data_transfer_immediate i)).
Proof. intros Hc. apply safe_checked; [done|]. split; apply bits_index. Qed.

Lemma safe_decode_halfword_register i v :
  can_decode_halfword_data_transfer_register i = true ->
  safe I (lift (decode_halfword_data_transfer_register i v)).
Proof. intros Hc. apply safe_checked; [done|]. split; apply bits_index. Qed.

Lemma safe_decode_single_immediate i :
  can_decode_single_data_transfer_immediate i = true ->
  safe I (lift (decode_single_data_transfer_immediate i)).
Proof. intros Hc. apply safe_checked; [done|]. split; apply bits_index. Qed.

Lemma safe_decode_single_register i v c :
  can_decode_single_data_transfer_register i = true ->
  safe I (lift (decode_single_data_transfer_register i v c)).
Proof. intros Hc. apply safe_checked; [done|]. split; apply bits_index. Qed.

Lemma safe_decode_thumb_memory i :
  can_decode_thumb_memory_transfer i = true -> safe I (lift (decode_thumb_memory_transfer i)).
Proof.
  intros Hc. apply safe_checked; [done|]. cbv zeta.
  pose proof (land_range i 0xFF). pose proof (bits_range i 6 0x7).
  pose proof (bits_range i 6 0x1F).
  repeat destruct (_ =? _); (split; [|split; [|split]]);
    cbn [tm_rd tm_rb tm_offset offset_is_register].
  all: try apply bits_low_index; try apply pc_index; try apply sp_index.
  all: try (intros _; apply bits_low_index); try (intros E; discriminate E).
  all: unfold fits; repeat destruct (bit _ _); lia.
Qed.

Lemma safe_decode_thumb_block i :
  can_decode_thumb_block_transfer i = true -> safe I (lift (decode_thumb_block_transfer i)).
Proof.
  intros Hc. apply safe_checked; [done|].
  pose proof (bits_low_index i 8). unfold typed, typed_thumb_block, reg_index in *. cbn. lia.
Qed.

Lemma safe_decode_thumb_stack i :
  can_decode_thumb_stack_transfer i = true -> safe I (lift (decode_thumb_stack_transfer i)).
Proof. intros Hc. by apply safe_checked. Qed.
End Decoders.

#[export] Hint Resolve safe_decode_swap safe_decode_block safe_decode_halfword_immediate
  safe_decode_halfword_register safe_decode_single_immediate safe_decode_single_register
  safe_decode_thumb_memory safe_decode_thumb_block safe_decode_thumb_stack : safe.

Lemma safe_decode_halfword i :
  can_decode_halfword_data_transfer_immediate i ||
  can_decode_halfword_data_transfer_register i = true ->
  safe wf (decode_halfword i).
Proof.
  intros Hc. unfold decode_halfword. safe. apply safe_decode_halfword_immediate.
  by apply orb_true_iff in Hc as [|]; [|congruence].
Qed.

Lemma safe_decode_single i :
  can_decode_single_data_transfer_immediate i ||
  can_decode_single_data_transfer_register i = true ->
  safe wf (decode_single i).
Proof.
  intros Hc. unfold decode_single. safe. apply safe_decode_single_immediate.
  by apply orb_true_iff in Hc as [|]; [|congruence].
Qed.

#[export] Hint Resolve safe_decode_halfword safe_decode_single : safe.

(** ** Values *)

Lemma sign_extend8_fits v : fits 32 v -> fits 32 (sign_extend8 v).
Proof. intros Hv. unfold sign_extend8. destruct (has _ _); [|done]. width. Qed.

Lemma sign_extend16_fits v : fits 32 v -> fits 32 (sign_extend16 v).
Proof. intros Hv. unfold sign_extend16. destruct (has _ _); [|done]. width. Qed.

Lemma block_address_fits base count pre up :
  fits 32 base ->
  fits 32 (ba_first (block_transfer_address base count pre up)) /\
  fits 32 (ba_write_back (block_transfer_address base count pre up)).
Proof.
  intros Hb. unfold block_transfer_address. cbv zeta.
  destruct up, pre; cbn [ba_first ba_write_back]; split; width.
Qed.

Lemma halfword_address_fits a : fits 32 a -> fits 32 (halfword_address a).
Proof. intros Ha. unfold halfword_address. destruct (in_region _ _); [done|width]. Qed.

Lemma word_write_address_fits a : fits 32 a -> fits 32 (word_write_address a).
Proof. intros Ha. unfold word_write_address. destruct (_ || _); [done|width]. Qed.

Lemma duplicated_fits h : fits 16 h -> fits 32 (duplicated h).
Proof. intros H. apply fits_lor; [lia|by apply (fits_mono 16)|width]. Qed.

Lemma typed_Some {A} {HA : Typed A} (a : A) : typed a -> typed (Some a).
Proof. intros Ha b E. by apply (inj Some) in E as <-. Qed.

Lemma typed_None {A} {HA : Typed A} : typed (@None A).
Proof. done. Qed.

#[export] Hint Resolve typed_Some typed_None : safe.

(** A value of the option's type, or nothing. *)
Lemma typed_bind {A B} {HA : Typed A} {HB : Typed B} (o : option A) (f : A -> option B) :
  typed o -> (forall a, typed a -> typed (f a)) -> typed (mbind f o).
Proof. intros Ho Hf. destruct o as [a|]; [|done]. by apply Hf, Ho. Qed.

(** ** Register lists *)

Lemma indices_range n i : i ∈ indices n -> 0 <= i < Z.of_nat n.
Proof. unfold indices. rewrite list_elem_of_fmap. intros (k & -> & Hk%elem_of_seq). lia. Qed.

Lemma load_registers_typed read index list a loaded :
  (forall a, typed (read a)) -> typed loaded ->
  forall l, load_registers read index list a loaded = Some l ->
            typed l /\ length l = length loaded.
Proof.
  intros Hr. revert a loaded. induction index as [|i index IH]; intros a loaded Hl l; cbn.
  - intros E. by apply (inj Some) in E as <-.
  - destruct (negb _); [by apply IH|]. specialize (Hr a).
    destruct (read a) as [v|]; [|done]. cbn. intros E.
    apply IH in E as [H1 H2]; [|by apply Forall_insert, Hr].
    split; [done|]. by rewrite H2, length_insert.
Qed.

Lemma load_words_typed read index list a loaded :
  (forall a, typed (read a)) -> typed loaded ->
  forall l a', load_words read index list a loaded = Some (l, a') ->
    typed l /\
    length l = (length loaded + length (List.filter (register_list_contains list) index))%nat.
Proof.
  intros Hr. revert a loaded. induction index as [|i index IH]; intros a loaded Hl l a'; cbn.
  - intros E. apply (inj Some) in E. simplify_eq. split; [done|lia].
  - destruct (register_list_contains list i); cbn [negb]; [|by apply IH]. specialize (Hr a).
    destruct (read a) as [v|]; [|done]. cbn [mbind option_bind]. intros E.
    apply IH in E as [H1 H2].
    + split; [done|]. rewrite H2, length_app. cbn. lia.
    + apply Forall_app. split; [done|]. by repeat constructor; apply Hr.
Qed.

Lemma safe_assign_registers write index list loaded :
  (forall i v, i ∈ index -> fits 32 v -> safe wf (write i v)) ->
  (forall i, i ∈ index -> (Z.to_nat i < length loaded)%nat) -> typed loaded ->
  safe wf (assign_registers write index list loaded).
Proof.
  intros Hw Hi Hl. induction index as [|i index IH]; cbn; [by apply safe_ret|].
  eapply safe_bind; [|intros _ _; apply IH; intros; [apply Hw|apply Hi]; by rewrite ?elem_of_cons; auto].
  apply safe_when. destruct (array_at_lt loaded (Z.to_nat i)) as (v & E & Ev).
  { apply Hi. by left. }
  eapply safe_bind; [|intros v' Hv'; apply Hw; [by left|exact Hv']].
  apply (safe_lift wf _ _ Ev). by apply (Forall_lookup_1 _ _ _ _ Hl E).
Qed.

Lemma safe_assign_words index list loaded : forall k,
  Forall reg_index index -> typed loaded ->
  (k + length (List.filter (register_list_contains list) index) <= length loaded)%nat ->
  total wf (assign_words index list loaded k)
    (fun k' s => k' = (k + length (List.filter (register_list_contains list) index))%nat /\ wf s).
Proof.
  induction index as [|i index IH]; intros k Hi Hl Hk; cbn in *.
  - apply total_ret. intros s Hs. split; [lia|done].
  - apply Forall_cons_iff in Hi as [Hi Hindex].
    destruct (register_list_contains list i); [|by apply IH]. cbn [length] in *.
    destruct (array_at_lt loaded k) as (v & E & Ev); [lia|].
    apply (safe_before wf (A:=Z)).
    { apply (safe_lift wf _ _ Ev). by apply (Forall_lookup_1 _ _ _ _ Hl E). }
    intros v' Hv'. apply (safe_before wf (A:=unit)); [by apply safe_set_reg|]. intros _ _.
    eapply total_weaken; [apply (IH (k + 1)%nat); [done..|lia]|done|].
    intros k' s [-> Hs]. split; [lia|done].
Qed.

Lemma safe_set_state_from v : fits 32 v -> safe wf (set_state_from v).
Proof.
  intros Hv. unfold set_state_from. cbv zeta.
  eapply safe_bind; [apply safe_set_reg; [apply pc_index|width]|]. intros _ _.
  eapply safe_bind; [apply safe_cpsr|]. intros c _. apply safe_set_cpsr.
Qed.

Lemma safe_user_bank_value i : reg_index i -> safe wf (user_bank_value i).
Proof.
  intros Hi. unfold user_bank_value. safe; apply safe_gets; intros s Hs;
    pose proof (wf_banked s Hs) as Hb; unfold banked in Hb; rewrite !Forall_cons_iff in Hb;
    by destruct_and!.
Qed.

Lemma safe_write_user_bank_value i v :
  reg_index i -> fits 32 v -> safe wf (write_user_bank_value i v).
Proof.
  intros Hi Hv. unfold write_user_bank_value.
  safe; apply safe_modify; intros s [H1 H2 H3 H4 H5 H6]; unfold banked in H4;
    rewrite !Forall_cons_iff in H4; destruct_and!; constructor; try done;
    unfold banked; cbn; rewrite !Forall_cons_iff; by split_and!.
Qed.

Lemma safe_block_stored_value b i : reg_index i -> safe wf (block_stored_value b i).
Proof.
  intros Hi. unfold block_stored_value.
  eapply safe_bind; [apply safe_if; intros _; [by apply safe_user_bank_value|by apply safe_reg]|].
  intros v Hv. apply safe_ret. unfold typed, typed_word in *. destruct (_ =? _); [width|done].
Qed.

#[export] Hint Resolve safe_set_state_from safe_user_bank_value safe_write_user_bank_value
  safe_block_stored_value : safe.

(** The SPSR the commit restores is there: [has_spsr] was checked. *)
Lemma block_load_commit_total list (user : bool) loaded :
  length loaded = 16%nat -> typed loaded ->
  total (fun s => wf s /\ (user = true -> has_spsr s = true))
    (block_load_commit list user loaded) (fun _ s => wf s).
Proof.
  intros Hn Hl. unfold block_load_commit. cbv zeta.
  set (rest := fun restored : bool => if negb restored then _ else _).
  assert (Hrest : forall b, safe wf (rest b)).
  { intros b. unfold rest. apply safe_if; [intros _; by apply safe_ret|]. intros _.
    eapply safe_bind.
    { apply safe_assign_registers; [| |done]; intros i.
      - intros v Hi%indices_range Hv. unfold reg_index.
        destruct user; [apply safe_write_user_bank_value|apply safe_set_reg];
          unfold reg_index; (done || lia).
      - intros Hi%indices_range. lia. }
    intros _ _. apply safe_if; [|intros _; by apply safe_ret]. intros _.
    destruct (array_at_word 16 loaded kPc) as (pc & E & Hpc); [done|by vm_compute|].
    eapply safe_bind; [by apply (safe_lift wf _ _ E)|]. intros pc' Hpc'.
    destruct user; safe. }
  apply (total_bind _ _ _ (fun _ s => wf s)).
  2: { intros b. apply (total_weaken _ _ _ _ _ (Hrest b)); [done|]. by intros ? ? []. }
  destruct (user && _) eqn:Eu; [|apply total_ret; by intros s []].
  apply andb_true_iff in Eu as [-> _]. intros s [Hs Hh]. specialize (Hh eq_refl).
  destruct (has_spsr_some s Hh) as [v Ev]. exists (set_cpsr v s).1, (set_cpsr v s).2.
  split; [|by apply wf_set_cpsr].
  unfold gets, mbind, st_bind. rewrite Ev.
  change (Ret (set_cpsr v s) = Ret ((set_cpsr v s).1, (set_cpsr v s).2)). by destruct (set_cpsr v s).
Qed.

(** ** The processor and its bus *)

Section MemorySafety.
Context {D : Type} (io : MemoryBus.IoCallbacks D) (ok : MemoryBus.Bus (D := D) -> Prop)
  {bus : MemoryInterface io ok}.

(** The invariant of the processor and its bus. *)
Definition sys_ok (s : Sys (D := D)) : Prop := wf s.1 /\ ok s.2.

Lemma total_cpu {A} P (m : CPU A) Q :
  total P m Q -> total (fun s => P s.1 /\ ok s.2) (cpu m) (fun a s => Q a s.1 /\ ok s.2).
Proof using Type.
  intros Hm [c b] [Hc Hb]. destruct (Hm c Hc) as (a & c' & E & Ha).
  exists a, (c', b). unfold cpu. cbn [fst snd] in *. by rewrite E.
Qed.

Lemma safe_cpu {A} {HA : Typed A} (m : CPU A) : safe wf m -> safe sys_ok (cpu m).
Proof using Type.
  intros Hm. eapply total_weaken; [apply (total_cpu _ _ _ Hm)|done|].
  intros a s [[Ha Hs] Hb]. done.
Qed.

Lemma safe_load {A} {HA : Typed A} (f : MemoryBus.Bus (D := D) -> A) :
  (forall b, ok b -> typed (f b)) -> safe sys_ok (load f).
Proof using Type. intros Hf. apply safe_gets. intros s [_ Hb]. by apply Hf. Qed.

Lemma safe_store (op : MemoryBus.bus_op) :
  (forall b, ok b -> ok (op b).2) -> safe sys_ok (store op).
Proof using Type.
  intros Hop. apply safe_act. intros [c b] [Hc Hb]. cbn [fst snd] in *.
  specialize (Hop b Hb). destruct (op b) as [r b']. done.
Qed.

Lemma safe_write8 a v : fits 8 v -> safe sys_ok (write8 io a v).
Proof using bus. intros Hv. apply safe_store. intros b Hb. by apply mi_write8. Qed.
Lemma safe_write16 a v : fits 16 v -> safe sys_ok (write16 io a v).
Proof using bus. intros Hv. apply safe_store. intros b Hb. by apply mi_write16. Qed.
Lemma safe_write32 a v : fits 32 v -> safe sys_ok (write32 io a v).
Proof using bus. intros Hv. apply safe_store. intros b Hb. by apply mi_write32. Qed.

Lemma safe_if_value {A} {HA : Typed A} (o : option A) (m : A -> ST (Sys (D := D)) ExecuteStatus.t) :
  typed o -> (forall a, typed a -> safe sys_ok (m a)) -> safe sys_ok (if_value o m).
Proof using Type. intros Ho Hm. refine (safe_option sys_ok o m _ Ho Hm _). apply safe_unsupported. Qed.

Lemma safe_when_passed c (m : ST (Sys (D := D)) ExecuteStatus.t) :
  safe sys_ok m -> safe sys_ok (when_passed c m).
Proof using Type.
  intros Hm. unfold when_passed. eapply safe_bind; [apply safe_cpu, safe_flag|]. intros passed _.
  apply safe_if; [done|]. intros _. apply safe_skipped.
Qed.

(** ** Loads *)

Lemma read8_typed a b : ok b -> typed (MemoryBus.read8 io a b).
Proof using bus. intros Hb v E. apply (fits_mono 8); [lia|]. by eapply mi_read8. Qed.
Lemma read16_typed a b : ok b -> typed (MemoryBus.read16 io a b).
Proof using bus. intros Hb v E. apply (fits_mono 16); [lia|]. by eapply mi_read16. Qed.
Lemma read32_typed a b : ok b -> typed (MemoryBus.read32 io a b).
Proof using bus. intros Hb v E. by eapply mi_read32. Qed.

Hint Resolve read8_typed read16_typed read32_typed : safe.

Lemma or_open_bus_typed (o : option Z) (fallback : option Z) :
  typed o -> typed fallback -> typed (match o with Some v => Some v | None => fallback end).
Proof using Type. intros Ho Hf. by destruct o. Qed.

Lemma arm_open_bus8 a pc b : ok b -> typed (read8_or_arm_pipeline_open_bus io a pc b).
Proof using bus.
  intros Hb. apply or_open_bus_typed; [by apply read8_typed|].
  eapply typed_bind; [by apply read32_typed|]. intros v Hv. apply typed_Some, u8_word.
Qed.

Lemma thumb_open_bus8 a pc b : ok b -> typed (read8_or_thumb_pipeline_open_bus io a pc b).
Proof using bus.
  intros Hb. apply or_open_bus_typed; [by apply read8_typed|].
  eapply typed_bind; [by apply read32_typed|]. intros v Hv. apply typed_Some, u8_word.
Qed.

Lemma u16_word x : fits 32 (u16 x).
Proof using Type. apply (fits_mono 16); [lia|apply wrap_fits; lia]. Qed.

Lemma arm_open_bus16 a pc b : ok b -> typed (read16_or_arm_pipeline_open_bus io a pc b).
Proof using bus.
  intros Hb. apply or_open_bus_typed; [by apply read16_typed|].
  eapply typed_bind; [by apply read32_typed|]. intros v Hv. apply typed_Some, u16_word.
Qed.

Lemma thumb_open_bus16 a pc b : ok b -> typed (read16_or_thumb_pipeline_open_bus io a pc b).
Proof using bus.
  intros Hb. apply or_open_bus_typed; [by apply read16_typed|].
  eapply typed_bind; [by apply read32_typed|]. intros v Hv. apply typed_Some, u16_word.
Qed.

Lemma arm_open_bus32 a pc b : ok b -> typed (read32_or_arm_pipeline_open_bus io a pc b).
Proof using bus.
  intros Hb. apply or_open_bus_typed; [by apply read32_typed|].
  eapply typed_bind; [by apply read32_typed|]. intros v Hv. by apply typed_Some, rotate_right_fits.
Qed.

Lemma duplicated_typed (o : option Z) n :
  (forall v, o = Some v -> fits 16 v) ->
  typed (half ← o; Some (rotate_right (duplicated half) n)).
Proof using Type.
  intros Ho. destruct o as [v|]; [|done].
  by apply typed_Some, rotate_right_fits, duplicated_fits, Ho.
Qed.

Lemma thumb_open_bus32 a pc b : ok b -> typed (read32_or_thumb_pipeline_open_bus io a pc b).
Proof using bus.
  intros Hb. apply or_open_bus_typed; [by apply read32_typed|].
  apply duplicated_typed. intros v E. by eapply mi_read16.
Qed.

Lemma thumb_block_open_bus32 a pc b : ok b -> typed (read32_or_thumb_block_open_bus io a pc b).
Proof using bus.
  intros Hb. apply or_open_bus_typed; [by apply read32_typed|].
  destruct (MemoryBus.open_bus_latch b.1) as [v|] eqn:E.
  - apply typed_Some, rotate_right_fits. by eapply mi_latch.
  - apply duplicated_typed. intros v E'. by eapply mi_read16.
Qed.

Lemma thumb_loaded_typed kind a pc b : ok b -> typed (thumb_loaded_value io kind a pc b).
Proof using bus.
  intros Hb. destruct kind; cbn.
  - by apply thumb_open_bus32.
  - by apply thumb_open_bus8.
  - by apply thumb_open_bus16.
  - eapply typed_bind; [by apply thumb_open_bus8|]. intros v Hv.
    by apply typed_Some, sign_extend8_fits.
  - eapply typed_bind; [by apply thumb_open_bus16|]. intros v Hv.
    by apply typed_Some, sign_extend16_fits.
Qed.

(** ** Transfers *)

Hint Resolve safe_write8 safe_write16 safe_write32 : safe.

(** A step of a computation on the processor and its bus. *)
Ltac sys_step :=
  lazymatch goal with
  | |- safe _ (cpu _) => apply safe_cpu
  | |- safe _ (if_value _ _) => eapply safe_if_value; [try assumption|intros ? ?]
  | |- safe _ (when_passed _ _) => apply safe_when_passed
  | |- safe _ (load _) => apply safe_load; intros ? ?
  | |- _ => safe_step
  end.
Ltac sys := cbv zeta; repeat sys_step.

Lemma safe_store_registers value index list : forall a,
  (forall i, i ∈ index -> safe wf (value i)) -> fits 32 a ->
  safe sys_ok (store_registers io value index list a).
Proof using bus.
  induction index as [|i index IH]; intros a Hv Ha; cbn; [by apply safe_ret|].
  assert (Hindex : forall j, j ∈ index -> safe wf (value j)) by (intros j Hj; apply Hv; by right).
  apply safe_if; intros _; [by apply IH|].
  eapply safe_bind; [apply safe_cpu, Hv; by left|]. intros v Hv'.
  eapply safe_bind; [by apply safe_write32|]. intros b _.
  apply safe_if; intros _; [apply IH; [done|width]|by apply safe_ret].
Qed.

Lemma safe_execute_swap d : typed d -> safe sys_ok (execute_swap io d).
Proof using bus.
  intros (Hn & Hd & Hm). unfold execute_swap. sys.
  all: try (by apply read8_typed); try (by apply read32_typed); try done.
  apply safe_write8. width.
Qed.

Lemma safe_write_back (b : bool) rn v :
  reg_index rn -> fits 32 v ->
  safe sys_ok (cpu (D := D) (when b (set_reg rn v));; executed).
Proof using Type. intros Hn Hv. sys. Qed.

Lemma load_registers_safe_total list a b :
  ok b -> forall l, load_registers (fun a => MemoryBus.read32 io a b) (indices 16) list a
                      (replicate kRegisterCount 0) = Some l ->
  typed l /\ length l = 16%nat.
Proof using bus.
  intros Hb l E. apply load_registers_typed in E; [done| |].
  - intros a'. by apply read32_typed.
  - apply Forall_replicate. by vm_compute.
Qed.

(** The load half, where the SPSR a restore needs is known to be there. *)
Lemma block_load_total list (user : bool) h a (write_back : ST (Sys (D := D)) ExecuteStatus.t) :
  (user = true -> h = true) -> safe sys_ok write_back ->
  total (fun s => wf_saved h s.1 /\ ok s.2)
    (loaded ← load (fun memory =>
       load_registers (fun address => MemoryBus.read32 io address memory) (indices 16) list a
         (replicate kRegisterCount 0));
     if_value loaded (fun loaded =>
       done ← cpu (block_load_commit list user loaded);
       if negb done then unsupported else write_back))
    (fun r s => typed r /\ sys_ok s).
Proof using bus.
  intros Hu Hw s [[Hs Hh] Hb]. unfold load, mbind, st_bind, gets.
  destruct (load_registers _ _ _ _ _) as [l|] eqn:E; cbn [if_value].
  2: { by exists ExecuteStatus.unsupported, s. }
  apply load_registers_safe_total in E as [Hl Hn]; [|done].
  refine (total_bind _ _ _ (fun _ s => sys_ok s) _
            (total_cpu _ _ _ (block_load_commit_total list user l Hn Hl)) _ s _).
  - intros r. change (safe sys_ok (if negb r then unsupported else write_back)).
    apply safe_if; [|done]. intros _. apply safe_unsupported.
  - split; [|done]. split; [done|]. intros E. rewrite Hh. by apply Hu.
Qed.

Lemma safe_execute_block i d : typed d -> safe sys_ok (execute_block_data_transfer io i d).
Proof using bus.
  intros Hd. unfold execute_block_data_transfer. cbv zeta. apply safe_when_passed.
  apply safe_if; intros _; [apply safe_unsupported|].
  apply (total_bind _ _ _ (fun h s => wf_saved h s.1 /\ ok s.2)).
  { eapply total_weaken; [apply (total_cpu wf (gets has_spsr) wf_saved); by apply total_gets|done|done]. }
  intros h. assert (Hdrop : forall m : ST (Sys (D := D)) ExecuteStatus.t, safe sys_ok m ->
    total (fun s => wf_saved h s.1 /\ ok s.2) m (fun r s => typed r /\ sys_ok s)).
  { intros m Hm. eapply total_weaken; [apply Hm| |done]. by intros s [[? _] ?]. }
  destruct (bit i 22 && negb h) eqn:Eu; [apply Hdrop, safe_unsupported|].
  destruct (_ && _ && _); [apply Hdrop, safe_unsupported|].
  apply (total_bind _ _ _ (fun v s => fits 32 v /\ wf_saved h s.1 /\ ok s.2)).
  { eapply total_weaken; [apply (total_cpu _ _ _ (saved_reg h _ Hd))|done|].
    by intros v s [[? ?] ?]. }
  intros base s (Hbase & Hs). revert s Hs.
  destruct (block_address_fits base (count_registers (bd_register_list d)) (bd_pre_index d)
              (bd_up d) Hbase) as [Hfirst Hback].
  pose proof (safe_write_back (bd_write_back d) (bd_rn d) _ Hd Hback) as Hw.
  destruct (bd_load d).
  - apply block_load_total; [|done]. intros E. rewrite E in Eu. by destruct h.
  - apply Hdrop. eapply safe_bind.
    { apply safe_store_registers; [|done]. intros j Hj%indices_range.
      by apply safe_block_stored_value. }
    intros [stored a] _. apply safe_if; [|done]. intros _. apply safe_unsupported.
Qed.

Lemma safe_load_and_write_back rd v (b : bool) rn a :
  reg_index rd -> reg_index rn -> fits 32 v -> fits 32 a ->
  safe sys_ok (load_and_write_back (D := D) rd v b rn a).
Proof using Type. intros Hd Hn Hv Ha. unfold load_and_write_back. sys. Qed.

Lemma write_back_address_fits base offset up : fits 32 (offset_transfer_address base offset up).
Proof using Type. unfold offset_transfer_address. width. Qed.

Lemma safe_execute_halfword d : typed d -> safe sys_ok (execute_halfword_data_transfer io d).
Proof using bus.
  intros [Hn Hd]. unfold execute_halfword_data_transfer. cbv zeta. apply safe_when_passed.
  apply safe_if; intros _; [apply safe_unsupported|].
  eapply safe_bind; [by apply safe_cpu, safe_arm_visible|]. intros base Hbase.
  pose proof (write_back_address_fits base (hw_offset d) (hw_up d)) as Hwb.
  apply safe_if; intros _; [apply safe_unsupported|].
  eapply safe_bind; [apply safe_cpu, safe_reg, pc_index|]. intros pc _.
  apply safe_if; intros _; [apply safe_if; intros _|sys].
  - eapply safe_bind; [apply safe_load; intros b Hb; by apply arm_open_bus8|]. intros o Ho.
    apply safe_if_value; [done|]. intros v Hv.
    by apply safe_load_and_write_back; [..|apply sign_extend8_fits|].
  - eapply safe_bind; [apply safe_load; intros b Hb; by apply arm_open_bus16|]. intros o Ho.
    apply safe_if_value; [done|]. intros v Hv. apply safe_load_and_write_back; [done..| |done].
    case_match; [by apply sign_extend16_fits|]. case_match; [by apply rotate_right_fits|done].
  - apply safe_write16. width.
Qed.

Lemma safe_execute_single d : typed d -> safe sys_ok (execute_single_data_transfer io d).
Proof using bus.
  intros [Hn Hd]. unfold execute_single_data_transfer. cbv zeta. apply safe_when_passed.
  apply safe_if; intros _; [apply safe_unsupported|].
  eapply safe_bind; [by apply safe_cpu, safe_arm_visible|]. intros base Hbase.
  pose proof (write_back_address_fits base (sd_offset d) (sd_up d)) as Hwb.
  apply safe_if; intros _; [apply safe_unsupported|].
  eapply safe_bind; [apply safe_cpu, safe_reg, pc_index|]. intros pc _.
  apply safe_if; intros _.
  - eapply safe_bind.
    { apply safe_load. intros b Hb. case_match; [by apply arm_open_bus8|by apply arm_open_bus32]. }
    intros o Ho. apply safe_if_value; [done|]. intros v Hv. by apply safe_load_and_write_back.
  - eapply safe_bind; [by apply safe_cpu, safe_reg|]. intros v Hv.
    apply safe_if; intros _; (eapply safe_bind; [|intros done _; sys]).
    + apply safe_write8. width.
    + apply safe_write32. unfold typed, typed_word in *. case_match; [width|done].
Qed.

Hint Resolve safe_execute_swap safe_execute_block safe_execute_halfword safe_execute_single
  safe_execute_arm safe_execute_thumb : safe.

Lemma safe_execute_arm_memory i : safe sys_ok (execute_arm_memory io i).
Proof using bus.
  unfold execute_arm_memory. sys. apply safe_decode_single.
  match goal with H : negb _ && negb _ = false |- _ =>
    by rewrite <- negb_orb, negb_false_iff in H end.
Qed.

(** ** Thumb transfers *)

Lemma safe_thumb_transfer_address d : typed d -> safe wf (thumb_transfer_address d).
Proof using Type.
  intros (Hd & Hb & Hf & Ho). unfold thumb_transfer_address. safe.
Qed.

Lemma safe_execute_thumb_memory_transfer d :
  typed d -> safe sys_ok (execute_thumb_memory_transfer io d).
Proof using bus.
  intros Ht. pose proof Ht as (Hd & _). unfold execute_thumb_memory_transfer.
  eapply safe_bind; [by apply safe_cpu, safe_thumb_transfer_address|]. intros a Ha.
  apply safe_if; intros _.
  - eapply safe_bind; [apply safe_cpu, safe_reg, pc_index|]. intros pc _.
    eapply safe_bind; [apply safe_load; intros b Hok; by apply thumb_loaded_typed|]. intros o Ho. sys.
  - eapply safe_bind; [by apply safe_cpu, safe_reg|]. intros v Hv.
    destruct (tm_kind d); sys; [apply safe_write8|apply safe_write16]; width.
Qed.

Lemma load_registers_thumb_total list a b pc :
  ok b -> forall l,
  load_registers (fun a => read32_or_thumb_block_open_bus io a pc b) (indices 8) list a
    (replicate 8 0) = Some l -> typed l /\ length l = 8%nat.
Proof using bus.
  intros Hb l E. apply load_registers_typed in E; [done| |].
  - intros a'. by apply thumb_block_open_bus32.
  - apply Forall_replicate. by vm_compute.
Qed.

(** A list of [n] words. *)
Definition word_list (n : nat) (o : option (list Z)) : Prop :=
  forall l, o = Some l -> typed l /\ length l = n.

Lemma total_load {A} (f : MemoryBus.Bus (D := D) -> A) (R : A -> Prop) :
  (forall b, ok b -> R (f b)) -> total sys_ok (load f) (fun a s => R a /\ sys_ok s).
Proof using Type. intros Hf. apply total_gets. intros s [Hc Hb]. split; [by apply Hf|done]. Qed.

Lemma safe_after {A B} {HB : Typed B} (m : ST (Sys (D := D)) A) (f : A -> ST (Sys (D := D)) B) R :
  total sys_ok m (fun a s => R a /\ sys_ok s) -> (forall a, R a -> safe sys_ok (f a)) ->
  safe sys_ok (mbind f m).
Proof using Type.
  intros Hm Hf. apply (total_bind _ _ _ _ _ Hm). intros a s [Ha Hs]. by apply (Hf a Ha).
Qed.

Lemma low_index i n : i ∈ indices n -> (n <= 16)%nat -> reg_index i.
Proof using Type. intros Hi%indices_range Hn. unfold reg_index. lia. Qed.

Lemma safe_execute_thumb_block d : typed d -> safe sys_ok (execute_thumb_block_transfer io d).
Proof using bus.
  intros Hd. unfold execute_thumb_block_transfer. cbv zeta.
  apply safe_if; intros _; [apply safe_unsupported|].
  eapply safe_bind; [by apply safe_cpu, safe_reg|]. intros base Hbase.
  assert (Hwb : safe sys_ok (cpu (D := D) (set_reg (tbt_rb d)
    (u32 (base + u32 (count_registers (tbt_register_list d) * 4))));; executed)) by sys.
  apply safe_if; intros _.
  - eapply safe_bind; [apply safe_cpu, safe_reg, pc_index|]. intros pc _.
    apply (safe_after _ _ (word_list 8)); [apply total_load; intros b Hb;
      intros l; by apply load_registers_thumb_total|].
    intros [l|] Hl; [|apply safe_unsupported]. destruct (Hl l eq_refl) as [Ht Hn].
    cbn [if_value]. eapply safe_bind; [|done]. apply safe_cpu, safe_assign_registers; [| |done].
    + intros i v Hi Hv. apply safe_set_reg; [by eapply low_index; [done|lia]|done].
    + intros i Hi%indices_range. lia.
  - eapply safe_bind.
    { apply safe_store_registers; [|done]. intros i Hi.
      apply safe_reg. by eapply low_index; [done|lia]. }
    intros [stored a] _. apply safe_if; [|done]. intros _. apply safe_unsupported.
Qed.

(** The listed registers, low to high. *)
Definition listed (register_list : Z) : list Z :=
  List.filter (register_list_contains register_list) (indices 8).

Lemma pop_words_typed d a b :
  ok b -> word_list (length (listed (tst_register_list d)) + (if extra_register d then 1 else 0))
            (pop_words io d a b).
Proof using bus.
  intros Hb l. unfold pop_words.
  destruct (load_words _ _ _ _ _) as [[w a']|] eqn:E; [|done]. cbn [mbind option_bind].
  apply load_words_typed in E as [Hw Hn]; [|intros a''; by apply read32_typed|by constructor].
  cbn [length] in Hn. pose proof (read32_typed a' b Hb) as Hr.
  destruct (extra_register d).
  - destruct (MemoryBus.read32 io a' b) as [v|]; [|done]. cbn [mbind option_bind].
    intros E'. apply (inj Some) in E' as <-. rewrite length_app, Hn. cbn [length].
    split; [|unfold listed; lia]. apply Forall_app. split; [done|]. by repeat constructor; apply Hr.
  - intros E'. apply (inj Some) in E' as <-. split; [done|]. unfold listed. lia.
Qed.

Lemma safe_execute_push d n sp : fits 32 sp -> safe sys_ok (execute_push io d n sp).
Proof using bus.
  intros Hsp. unfold execute_push. cbv zeta. eapply safe_bind.
  { apply safe_store_registers; [|width]. intros i Hi.
    apply safe_reg. by eapply low_index; [done|lia]. }
  intros [stored a] [_ Ha]. apply safe_if; intros _; [apply safe_unsupported|]. sys.
Qed.

Lemma safe_execute_pop d n sp : fits 32 sp -> safe sys_ok (execute_pop io d n sp).
Proof using bus.
  intros Hsp. unfold execute_pop. eapply safe_after.
  { apply total_load. intros b Hb. by apply (pop_words_typed d sp b). }
  intros [l|] Hl; [|apply safe_unsupported]. destruct (Hl l eq_refl) as [Ht Hn]. cbn [if_value].
  apply (safe_after _ _ (fun k => k = length (listed (tst_register_list d)))).
  { eapply total_weaken; [apply (total_cpu wf); apply safe_assign_words with (k := O)| |].
    - apply list.Forall_forall. intros i Hi. by eapply low_index; [done|lia].
    - exact Ht.
    - rewrite Hn. unfold listed. lia.
    - done.
    - intros k s [[-> Hs] Hb]. by split. }
  intros k ->. cbv beta. eapply safe_bind.
  - apply safe_if; intros E; [|by apply safe_ret]. rewrite E in Hn.
    destruct (array_at_lt l (length (listed (tst_register_list d)))) as (v & Ev & Hv).
    { unfold listed in *. lia. }
    eapply safe_bind; [apply (safe_lift sys_ok _ v Hv); by apply (Forall_lookup_1 _ _ _ _ Ht Ev)|].
    intros v' Hv'. by apply safe_cpu, safe_set_state_from.
  - intros b _. sys.
Qed.

Lemma safe_execute_thumb_stack d : safe sys_ok (execute_thumb_stack_transfer io d).
Proof using bus.
  unfold execute_thumb_stack_transfer. cbv zeta.
  apply safe_if; intros _; [apply safe_unsupported|].
  eapply safe_bind; [apply safe_cpu, safe_reg, sp_index|]. intros sp Hsp.
  apply safe_if; intros _; [by apply safe_execute_push|by apply safe_execute_pop].
Qed.

Hint Resolve safe_execute_thumb_stack safe_execute_thumb_block
  safe_execute_thumb_memory_transfer : safe.

Lemma safe_execute_thumb_memory i : safe sys_ok (execute_thumb_memory io i).
Proof using bus. unfold execute_thumb_memory. sys. Qed.
End MemorySafety.

(** ** Block transfers on concrete states *)

(** The registers and mode after an ARM instruction on the initial bus whose
    word at [address] is [value]. *)
Definition after_arm (instruction address value : Z) (s : Arm7tdmi)
    : option (list Z * CpuMode.t * Z * Z) :=
  match execute_arm_memory MemoryBusSpec.no_io instruction
          (s, (MemoryBus.write32 MemoryBusSpec.no_io address value (MemoryBus.initial, tt)).2) with
  | Ret (ExecuteStatus.executed, (c, _)) => Some (registers_ c, mode_ c, user_lr_ c, irq_sp_ c)
  | _ => None
  end.

(** An IRQ handler about to return to user mode, its stack at 0x03007F00, the
    user stack at 0x03006000. *)
Definition irq_handler : Arm7tdmi :=
  (set_spsr_for_mode CpuMode.irq 0x10 (switch_mode CpuMode.irq reset))
    <| user_sp_ := 0x03006000 |> <| user_lr_ := 0x08000100 |>
    <| registers_ := <[13%nat := 0x03007F00]> (replicate 16 0) |>.

(** [LDMIA SP!, {PC}^], the return of an exception handler: the CPSR is restored
    before the write-back, so the write-back of the handler's stack pointer goes
    to the interrupted program's. *)
Example exception_return_moves_user_sp :
  match after_arm 0xE8FD8000 0x03007F00 0x08000200 irq_handler with
  | Some (registers, mode, _, irq_sp) =>
      mode = CpuMode.user /\ registers !! 13%nat = Some 0x03007F04 /\
      registers !! 15%nat = Some 0x08000200 /\ irq_sp = 0x03007F00
  | None => False
  end.
Proof. vm_compute. split_and!; reflexivity. Qed.

(** [LDMIA R0, {LR, PC}^]: the loaded LR goes to [user_lr_], which is no longer
    the visible R14 once the CPSR is restored; R14 keeps its old value and
    [user_lr_] is overwritten at the next mode switch. *)
Example exception_return_loses_lr :
  match after_arm 0xE8D0C000 0x03007F00 0x0BADF00D
          (irq_handler <| registers_ := <[0%nat := 0x03007F00]> (replicate 16 0) |>) with
  | Some (registers, mode, user_lr, _) =>
      mode = CpuMode.user /\ registers !! 14%nat = Some 0x08000100 /\ user_lr = 0x0BADF00D
  | None => False
  end.
Proof. vm_compute. split_and!; reflexivity. Qed.

(** [LDMIA R0!, {R0}] in Thumb state: the write-back replaces the loaded word. *)
Example thumb_load_base_overwritten :
  match execute_thumb_memory MemoryBusSpec.no_io 0xC801
          (reset <| registers_ := <[0%nat := 0x03007F00]> (replicate 16 0) |>,
           (MemoryBus.write32 MemoryBusSpec.no_io 0x03007F00 0x12345678
              (MemoryBus.initial, tt)).2) with
  | Ret (ExecuteStatus.executed, (c, _)) => registers_ c !! 0%nat = Some 0x03007F04
  | _ => False
  end.
Proof. vm_compute. reflexivity. Qed.

(** The user-bank form of a store in FIQ mode reads FIQ's own R8, not the R8 of
    user mode. *)
Example user_bank_store_in_fiq :
  let s := switch_mode CpuMode.fiq
             (reset <| registers_ := <[8%nat := 0x11111111]> (replicate 16 0) |>) in
  block_stored_value true 8 s = Ret (0, s) /\ ArmBankSpec.physical s CpuMode.user 8 = 0x11111111.
Proof. vm_compute. split; reflexivity. Qed.

(** A snapshot whose mode byte is no mode is accepted: only its low five bits
    are checked. *)
Example load_state_unnamed_mode :
  (load_state (save_state (reset <| mode_ := CpuMode.unnamed 0x30 |>)) reset).1 = true.
Proof. reflexivity. Qed.
