(* ===== verification/ArmStepSafety.v ===== *)
(** * The ARM7TDMI: every step returns

    [step_arm] and [step_thumb], with and without WAITCNT, return a result from
    every well-formed processor and bus, whatever the instruction. *)

From S2P Require Import Prelude.
From S2P Require Import StateMonad.
From S2P Require Import BusTypes.
From S2P Require Import WaitState.
From S2P Require MemoryBus MemoryBusSpec BusSafety.
From S2P Require Import BusInterface.
From S2P Require Import ArmTypes.
From S2P Require Import ArmDecode.
From S2P Require Import ThumbDecode.
From S2P Require Import ArmMultiply.
From S2P Require Import ArmState.
From S2P Require Import ArmExecute.
From S2P Require Import ThumbExecute.
From S2P Require Import ArmMemory.
From S2P Require Import ArmTiming.
From S2P Require Import ArmSafety.
From S2P Require Import ArmTotal.
From S2P Require Import ArmMemorySafety.

(** Cycle counts are 32-bit. *)
#[export] Instance typed_estimate : Typed ArmElapsedCycleEstimate := fun e => fits 32 (ee_cycles e).
#[export] Instance typed_step_result : Typed ArmStepResult := fun r => fits 32 (sr_elapsed_cycles r).

(** ** Estimates *)

Lemma some_estimate c b m : fits 32 c -> typed (Some (mkArmElapsedCycleEstimate c b m)).
Proof. intros Hc. by apply typed_Some. Qed.

Lemma no_estimate : typed (None : option ArmElapsedCycleEstimate).
Proof. by intros e. Qed.

#[export] Hint Resolve no_estimate : safe.

Lemma count_registers_nonneg l : 0 <= count_registers l.
Proof.
  unfold count_registers. assert (H : forall n l c, 0 <= c -> 0 <= count_loop n l c).
  { clear l. induction n as [|n IH]; intros l c Hc; cbn [count_loop]; [done|].
    case_match; [done|]. apply IH. by apply (wrap_fits 8). }
  by apply H.
Qed.

Lemma overlap_nonneg i a c p f :
  0 <= prefetch_internal_data_load_overlap_cycles i a c p f +
       prefetch_block_store_overlap_cycles i a p f.
Proof.
  unfold prefetch_internal_data_load_overlap_cycles, prefetch_block_store_overlap_cycles.
  pose proof (fun d => count_registers_nonneg (bd_register_list d)) as Hn.
  apply Z.add_nonneg_nonneg; repeat case_match; try lia;
    match goal with |- context [count_registers (bd_register_list ?d)] => specialize (Hn d) end; lia.
Qed.

Lemma mirrored_cycles_typed a n w b tuning t c :
  fits 32 (prefetch_fast_rom tuning) -> fits 32 (prefetch_slow_rom tuning) ->
  mirrored_oam_cross_rom_block_load_elapsed_cycles a n w b tuning t = Some c -> fits 32 c.
Proof.
  intros Hf Hs. unfold mirrored_oam_cross_rom_block_load_elapsed_cycles. cbv zeta.
  case_match; [done|]. case_match; intros [= <-]; [by case_match|apply wrap_fits; lia].
Qed.

Lemma estimate_with_timing_typed i a t w p f c :
  typed (estimate_arm_elapsed_cycles_with_timing i a t w p f c).
Proof.
  unfold estimate_arm_elapsed_cycles_with_timing.
  destruct (estimate_arm_cycles i) as [e|]; [cbn [mbind option_bind]|by intros x].
  case_match; [apply some_estimate, wrap_fits; lia|]. case_match; [by intros x|]. cbv zeta.
  pose proof (overlap_nonneg i a e p f) as Ho.
  set (overlap := _ + _) in *. clearbody overlap.
  destruct (mirrored_oam_block_load_elapsed_cycles i a e c p) as [m|] eqn:Em.
  - assert (Hm : fits 32 m).
    { revert Em. unfold mirrored_oam_block_load_elapsed_cycles. case_match; [done|].
      destruct (guarded _); [cbn [mbind option_bind]|done]. case_match; [done|].
      intros E. eapply mirrored_cycles_typed; [| |exact E]; by vm_compute. }
    set (n := if w && _ then _ else _).
    assert (Hn : fits 32 n) by (subst n; case_match; [apply wrap_fits; lia|done]).
    apply some_estimate. unfold fits in *. case_match; lia.
  - set (n := if w && _ then _ else _).
    assert (Hn : fits 32 n) by (subst n; case_match; apply wrap_fits; lia).
    apply some_estimate. unfold fits in *. case_match; lia.
Qed.

Lemma estimate_typed i a : typed (estimate_arm_elapsed_cycles i a).
Proof. unfold estimate_arm_elapsed_cycles. apply estimate_with_timing_typed. Qed.

Lemma estimate_waitcnt_typed i a w : typed (estimate_arm_elapsed_cycles_waitcnt i a w).
Proof. unfold estimate_arm_elapsed_cycles_waitcnt. apply estimate_with_timing_typed. Qed.

Lemma iwram_cycles_typed f a w l c n :
  iwram_single_transfer_cycles f a w l c = Some n -> fits 32 n.
Proof.
  unfold iwram_single_transfer_cycles. cbv zeta.
  case_match; [done|]. case_match; [done|]. case_match; [done|].
  intros E. apply (inj Some) in E as <-. apply wrap_fits. lia.
Qed.

(** ** Addresses, conditions and overrides *)

Lemma safe_transfer_address rn o up pre :
  reg_index rn -> safe wf (transfer_address rn o up pre).
Proof.
  intros Hn. unfold transfer_address.
  eapply safe_bind; [by apply safe_arm_visible|]. intros base Hb. apply safe_ret.
  apply typed_Some. unfold typed, typed_word in *.
  destruct pre; [apply write_back_address_fits|done].
Qed.

Lemma safe_first_data_address i : safe wf (first_data_address i).
Proof.
  unfold first_data_address. safe.
  all: try (apply safe_ret, typed_Some; apply block_address_fits || idtac; done).
  all: try (apply safe_transfer_address; by match goal with H : typed _ |- _ => apply H end).
  all: try (apply safe_ret; done).
Qed.

Lemma safe_memory_condition i : safe wf (memory_condition_passed i).
Proof.
  unfold memory_condition_passed. safe.
  - apply safe_decode_halfword_immediate.
    by match goal with H : _ || _ = true, H' : _ = false |- _ => rewrite H', orb_false_r in H end.
  - apply safe_decode_single_immediate.
    by match goal with H : _ || ?b = true, H' : ?b = false |- _ => rewrite H', orb_false_r in H end.
Qed.

Lemma safe_runtime_multiply i : safe wf (runtime_multiply_elapsed_cycles i).
Proof.
  unfold runtime_multiply_elapsed_cycles. safe.
  all: try (apply safe_ret, some_estimate, wrap_fits; lia).
  all: match goal with H : typed _ |- safe wf (reg _) => destruct H as (? & ? & ? & ?) end; auto with safe.
Qed.

Lemma safe_runtime_thumb i : safe wf (runtime_thumb_elapsed_cycles i).
Proof.
  unfold runtime_thumb_elapsed_cycles. safe.
  - apply safe_decode_thumb_alu. by apply negb_false_iff.
  - match goal with H : typed ?d |- safe wf (reg (ta_rd ?d)) => apply safe_reg, H end.
  - apply safe_ret, some_estimate, wrap_fits. lia.
Qed.

#[export] Hint Resolve safe_first_data_address safe_memory_condition safe_runtime_multiply
  safe_runtime_thumb : safe.

Lemma safe_estimable i o f : safe wf (estimable i o f).
Proof. unfold estimable. safe. Qed.

Lemma safe_iwram_override i o w : typed o -> safe wf (iwram_override i o w).
Proof.
  intros Ho. unfold iwram_override. safe. apply safe_ret.
  destruct (iwram_single_transfer_cycles _ _ _ _ _) as [n|] eqn:E; [|done].
  apply some_estimate. by eapply iwram_cycles_typed.
Qed.

Lemma safe_thumb_transfer_estimate d w b : typed d -> safe wf (thumb_transfer_estimate d w b).
Proof.
  intros Hd. unfold thumb_transfer_estimate. cbv zeta.
  eapply safe_bind; [by apply safe_thumb_transfer_address|]. intros a _.
  eapply safe_bind; [apply safe_reg, pc_index|]. intros pc _.
  apply safe_if; intros _; [|apply safe_ret, no_estimate]. apply safe_ret, some_estimate.
  assert (Hm : forall t, fits 32 (thumb_memory_cycles d t)).
  { intros t. unfold thumb_memory_cycles. case_match; apply wrap_fits; lia. }
  specialize (Hm (timing_waitcnt a (thumb_transfer_access_width (tm_kind d)) w)).
  destruct (iwram_single_transfer_cycles _ _ _ _ _) as [n|] eqn:E; cbn [default];
    [apply iwram_cycles_typed in E|]; repeat case_match; done || apply wrap_fits; lia.
Qed.

Lemma safe_thumb_block_estimate d w : typed d -> safe wf (thumb_block_estimate d w).
Proof.
  intros Hd. unfold thumb_block_estimate. cbv zeta.
  eapply safe_bind; [by apply safe_reg|]. intros a _.
  destruct (thumb_mirrored_oam_block_load_elapsed_cycles _ _ _) as [n|] eqn:E.
  - apply safe_ret, some_estimate. revert E. unfold thumb_mirrored_oam_block_load_elapsed_cycles.
    case_match; [done|]. intros E. eapply mirrored_cycles_typed; [| |exact E]; by vm_compute.
  - apply safe_ret. case_match; [|done]. apply some_estimate. case_match; apply wrap_fits; lia.
Qed.

(** ** The end of a step *)

Lemma safe_add_elapsed n : safe wf (modify (add_elapsed n)).
Proof.
  apply safe_modify. intros s [H1 H2 H3 H4 H5 H6]. constructor; try done. cbn. width.
Qed.

Lemma safe_step_result r e : typed e -> safe wf (step_result r e).
Proof.
  intros He. unfold step_result. apply (safe_bind wf (HA := fun _ : Z => True)); [by apply total_gets|].
  intros n _. by apply safe_ret.
Qed.

Lemma no_cycles_typed : typed no_cycles.
Proof. by vm_compute. Qed.

#[export] Hint Resolve safe_estimable safe_iwram_override safe_thumb_transfer_estimate
  safe_thumb_block_estimate safe_add_elapsed safe_step_result no_cycles_typed : safe.

Lemma safe_finish_step i a r w e : typed e -> safe wf (finish_step i a r w e).
Proof.
  intros He. unfold finish_step. destruct r; cbv zeta.
  - set (estimate := match e with Some _ => e | None => _ end).
    assert (Ht : typed estimate).
    { subst estimate. destruct e as [x|]; [exact He|].
      destruct w; [apply estimate_waitcnt_typed|apply estimate_typed]. }
    clearbody estimate. destruct estimate as [x|]; [|auto with safe].
    eapply safe_bind; [auto with safe|]. intros ? _. by apply safe_step_result, Ht.
  - eapply safe_bind; [auto with safe|]. intros ? _. apply safe_step_result. by vm_compute.
  - auto with safe.
Qed.

Lemma safe_finish_thumb r e : typed e -> safe wf (finish_thumb r e).
Proof.
  intros He. unfold finish_thumb. destruct r; cbv zeta.
  - eapply safe_bind; [auto with safe|]. intros ? _. apply safe_step_result.
    destruct e as [x|]; [by apply He|by vm_compute].
  - eapply safe_bind; [auto with safe|]. intros ? _. apply safe_step_result. by vm_compute.
  - auto with safe.
Qed.

#[export] Hint Resolve safe_finish_step safe_finish_thumb : safe.

Lemma or_else_typed {A} {HA : Typed A} (o1 o2 : option A) : typed o1 -> typed o2 -> typed (or_else o1 o2).
Proof. by destruct o1. Qed.

(** ** Steps on a bus *)

Section Steps.
Context {D : Type} (io : MemoryBus.IoCallbacks D) (ok : MemoryBus.Bus (D := D) -> Prop)
  {bus : MemoryInterface io ok}.

Abbreviation sys_ok := (sys_ok ok).

Lemma safe_optional {A} {HA : Typed A} (o : option A) (m : ST (Sys (D := D)) (option A)) :
  typed o -> safe sys_ok m ->
  safe sys_ok (match o with Some _ => mret o | None => m end).
Proof using Type. intros Ho Hm. destruct o; [by apply safe_ret|done]. Qed.

Lemma safe_step_arm_memory i : safe sys_ok (step_arm_memory io i).
Proof using bus.
  unfold step_arm_memory. eapply safe_bind; [apply safe_cpu, safe_first_data_address|].
  intros a Ha. eapply safe_bind; [apply safe_cpu, safe_estimable|]. intros known _.
  apply safe_if; intros _; [apply safe_cpu; auto with safe|].
  eapply safe_bind; [apply safe_cpu, safe_runtime_multiply|]. intros e He.
  eapply safe_bind; [by eapply safe_execute_arm_memory|]. intros r _.
  by apply safe_cpu, safe_finish_step.
Qed.

Lemma safe_step_arm_waitcnt i w e : typed e -> safe sys_ok (step_arm_waitcnt io i w e).
Proof using bus.
  intros He. unfold step_arm_waitcnt. eapply safe_bind; [apply safe_cpu, safe_first_data_address|].
  intros a Ha. eapply safe_bind; [apply safe_cpu, safe_estimable|]. intros known _.
  apply safe_if; intros _; [apply safe_cpu; auto with safe|].
  eapply safe_bind; [apply safe_optional; [done|apply safe_cpu, safe_runtime_multiply]|].
  intros e' He'.
  eapply safe_bind; [apply safe_optional; [done|by apply safe_cpu, safe_iwram_override]|].
  intros e'' He''.
  eapply safe_bind; [by eapply safe_execute_arm_memory|]. intros r _.
  by apply safe_cpu, safe_finish_step.
Qed.

Lemma safe_step_thumb_memory i : safe sys_ok (step_thumb_memory io i).
Proof using bus.
  unfold step_thumb_memory. eapply safe_bind; [apply safe_cpu, safe_runtime_thumb|]. intros e He.
  eapply safe_bind; [by eapply safe_execute_thumb_memory|]. intros r _.
  by apply safe_cpu, safe_finish_thumb.
Qed.

Lemma safe_step_thumb_waitcnt i w b e : typed e -> safe sys_ok (step_thumb_waitcnt io i w b e).
Proof using bus.
  intros He. unfold step_thumb_waitcnt. cbv zeta. eapply safe_bind.
  { apply safe_if; intros E; [|apply safe_ret, no_estimate].
    eapply safe_bind; [by apply safe_decode_thumb_memory|]. intros d Hd.
    by apply safe_cpu, safe_thumb_transfer_estimate. }
  intros estimate Hest. eapply safe_bind.
  { apply safe_if; intros E; [|apply safe_ret, no_estimate].
    eapply safe_bind; [by apply safe_decode_thumb_block|]. intros d Hd.
    by apply safe_cpu, safe_thumb_block_estimate. }
  intros block Hblock.
  eapply safe_bind; [apply safe_optional; [done|apply safe_cpu, safe_runtime_thumb]|]. intros e' He'.
  eapply safe_bind; [by eapply safe_execute_thumb_memory|]. intros r _.
  by apply safe_cpu, safe_finish_thumb; repeat apply or_else_typed.
Qed.
End Steps.

(** ** Runs *)

(** What the scheduler asks of the processor: a step in either state, an
    exception, a return from one, a write of the CPSR. *)
Inductive Call : Type :=
| call_step_arm (instruction : Z)
| call_step_arm_waitcnt (instruction : Z) (waitcnt : WaitStateControl)
    (elapsed_override : option ArmElapsedCycleEstimate)
| call_step_thumb (instruction : Z)
| call_step_thumb_waitcnt (instruction : Z) (waitcnt : WaitStateControl) (overlap : bool)
    (elapsed_override : option ArmElapsedCycleEstimate)
| call_enter_exception (kind : ExceptionKind.t)
| call_return_from_exception (link_adjustment : Z)
| call_set_cpsr (value : Z).

(** The cycles of an override are a [std::uint32_t]. *)
Definition call_typed (c : Call) : Prop :=
  match c with
  | call_step_arm_waitcnt _ _ e | call_step_thumb_waitcnt _ _ _ e => typed e
  | _ => True
  end.

Section Runs.
Context {D : Type} (io : MemoryBus.IoCallbacks D).

(** One call, its result dropped. *)
Definition call (c : Call) : ST (Sys (D := D)) unit :=
  match c with
  | call_step_arm i => step_arm_memory io i;; mret tt
  | call_step_arm_waitcnt i w e => step_arm_waitcnt io i w e;; mret tt
  | call_step_thumb i => step_thumb_memory io i;; mret tt
  | call_step_thumb_waitcnt i w b e => step_thumb_waitcnt io i w b e;; mret tt
  | call_enter_exception kind => cpu (enter_exception kind);; mret tt
  | call_return_from_exception a => cpu (return_from_exception a);; mret tt
  | call_set_cpsr v => cpu (act (set_cpsr v));; mret tt
  end.

Fixpoint run (calls : list Call) : ST (Sys (D := D)) unit :=
  match calls with [] => mret tt | c :: calls => call c;; run calls end.
End Runs.

Lemma safe_call {D} (io : MemoryBus.IoCallbacks D) ok {bus : MemoryInterface io ok} c :
  call_typed c -> safe (sys_ok ok) (call io c).
Proof.
  intros Ht. destruct c; (eapply safe_bind; [|intros ? _; by apply safe_ret]).
  - by eapply safe_step_arm_memory.
  - by eapply safe_step_arm_waitcnt.
  - by eapply safe_step_thumb_memory.
  - by eapply safe_step_thumb_waitcnt.
  - apply safe_cpu, safe_enter_exception.
  - apply safe_cpu, safe_return_from_exception.
  - apply safe_cpu, safe_set_cpsr.
Qed.

Lemma safe_run {D} (io : MemoryBus.IoCallbacks D) ok {bus : MemoryInterface io ok} calls :
  Forall call_typed calls -> safe (sys_ok ok) (run io calls).
Proof.
  induction 1 as [|c calls Hc _ IH]; cbn; [by apply safe_ret|].
  eapply safe_bind; [by eapply safe_call|]. by intros [] _.
Qed.

(** C2: Type safety of the processor on its bus. For IO devices whose callbacks
    return values of their width and keep an invariant [I], any sequence of
    calls (steps of arbitrary instruction words in either state, with or
    without WAITCNT, any 32-bit override of the cycles, exceptions, returns,
    CPSR writes) from a well-formed
    processor and bus returns: no [at] is out of range, no [optional] is read
    empty, no decoder throws, the multiplier loop ends; and it leaves a
    well-formed processor and bus. *)
Theorem cpu_run_total {D : Type} (io : MemoryBus.IoCallbacks D) (I : D -> Prop)
    {laws : DeviceLaws io I} (calls : list Call) (cpu : Arm7tdmi) (bus : MemoryBus.Bus (D := D)) :
  Forall call_typed calls -> wf cpu -> BusSafety.wf bus.1 -> I bus.2 ->
  exists cpu' bus', run io calls (cpu, bus) = Ret (tt, (cpu', bus')) /\
    wf cpu' /\ BusSafety.wf bus'.1 /\ I bus'.2.
Proof.
  intros Ht Hc Hb HI.
  destruct (safe_run io (bus_ok I) calls Ht (cpu, bus)) as ([] & [c b] & E & _ & Hc' & Hb').
  - by split.
  - by exists c, b.
Qed.

(** A push, a pop, a block load with restore, a long multiply and a software
    interrupt, from reset. *)
Lemma cpu_run_total_witness :
  exists cpu' bus',
    run MemoryBusSpec.no_io
      [call_step_thumb 0xB5FF; call_step_thumb 0xBDFF; call_step_arm 0xE8FD8001;
       call_step_arm_waitcnt 0xE0C10392 WaitState.reset None;
       call_enter_exception ExceptionKind.software_interrupt; call_return_from_exception 4]
      (ArmState.reset, (MemoryBus.initial, tt)) = Ret (tt, (cpu', bus')) /\
    wf cpu' /\ BusSafety.wf bus'.1 /\ True.
Proof.
  apply (cpu_run_total MemoryBusSpec.no_io (fun _ => True)); [by repeat constructor|apply wf_reset| |done].
  apply BusSafety.initial_wf.
Defined.
