(* ===== verification/Bios.v ===== *)
(** * BIOS services

    [BiosController] of [src/core/bios.cpp]: the execution mode, the decoding
    of software interrupts, the cycle counts of IRQ dispatch and the arithmetic
    services of the high-level emulation.  A [std::int32_t] is a [Z] in its
    range; [wrap_*] reduce to it as the code's unsigned arithmetic does. *)

From S2P Require Import Prelude.

Module BiosExecutionMode.
(* @ bios.hpp:7-11 BiosExecutionMode *)
Inductive t : Type := no_bios | caller_provided_bios | hle.
#[export] Instance eq_dec : EqDecision t.
Proof. solve_decision. Defined.

(* @ bios.hpp:7-11 BiosExecutionMode *)
Definition index (mode : t) : Z :=
  match mode with no_bios => 0 | caller_provided_bios => 1 | hle => 2 end.

(** [static_cast<BiosExecutionMode>(v)] of a value up to [hle]. *)
(* @ bios.hpp:7-11 BiosExecutionMode *)
Definition of_byte (v : Z) : t :=
  match v with 0 => no_bios | 1 => caller_provided_bios | _ => hle end.
End BiosExecutionMode.
Export (hints) BiosExecutionMode.

Module BiosSwiSource.
(* @ bios.hpp:13-16 BiosSwiSource *)
Inductive t : Type := arm | thumb.
#[export] Instance eq_dec : EqDecision t.
Proof. solve_decision. Defined.
End BiosSwiSource.
Export (hints) BiosSwiSource.

Module BiosSwiStatus.
(* @ bios.hpp:18-22 BiosSwiStatus *)
Inductive t : Type := trap_to_vector | handled | unimplemented_service.
#[export] Instance eq_dec : EqDecision t.
Proof. solve_decision. Defined.
End BiosSwiStatus.
Export (hints) BiosSwiStatus.

(* @ bios.hpp:24-28 BiosSwiCall *)
Record BiosSwiCall : Type := mkBiosSwiCall {
  swi_source : BiosSwiSource.t;
  raw_comment : Z;
  service : Z
}.

(* @ bios.hpp:30-36 BiosSwiResult *)
Record BiosSwiResult : Type := mkBiosSwiResult {
  result_mode : BiosExecutionMode.t;
  result_status : BiosSwiStatus.t;
  result_call : BiosSwiCall;
  result_handled : bool;
  requires_bios_bytes : bool
}.

(* @ bios.hpp:40-40 BiosHleConstants::kIrqVectorAddress *)
Definition kIrqVectorAddress : Z := 0x00000018.
(* @ bios.hpp:42-42 BiosHleConstants::kUserIrqHandlerPointer *)
Definition kUserIrqHandlerPointer : Z := 0x03007FFC.
(* @ bios.hpp:43-43 BiosHleConstants::kIrqReturnSentinelPc *)
Definition kIrqReturnSentinelPc : Z := 0x0FFFFF00.
(* @ bios.hpp:45-45 BiosHleConstants::kIrqDispatchCycles *)
Definition kIrqDispatchCycles : Z := 21.
(* @ bios.hpp:46-46 BiosHleConstants::kIrqPostReturnDispatchCycles *)
Definition kIrqPostReturnDispatchCycles : Z := 24.
(* @ bios.hpp:47-47 BiosHleConstants::kIrqChainedPostReturnDispatchCycles *)
Definition kIrqChainedPostReturnDispatchCycles : Z := 26.
(* @ bios.hpp:48-48 BiosHleConstants::kIrqReentryDispatchCycles *)
Definition kIrqReentryDispatchCycles : Z := 29.
(* @ bios.hpp:49-49 BiosHleConstants::kIrqReturnCycles *)
Definition kIrqReturnCycles : Z := 3.
(* @ bios.hpp:50-50 BiosHleConstants::kIntrWaitReturnCycles *)
Definition kIntrWaitReturnCycles : Z := 57.
(* @ bios.hpp:51-51 BiosHleConstants::kVBlankIntrWaitReturnCycles *)
Definition kVBlankIntrWaitReturnCycles : Z := 515.
(* @ bios.hpp:52-52 BiosHleConstants::kHblankHaltReturnCycles *)
Definition kHblankHaltReturnCycles : Z := 83.

(* @ bios.hpp:55-64 BiosIrqDispatchTiming *)
Record BiosIrqDispatchTiming : Type := mkBiosIrqDispatchTiming {
  reentry : bool;
  post_return : bool;
  chained_post_return : bool;
  chained_post_return_data : bool;
  chained_post_return_spaced_data : bool;
  timer0_interrupt_requested : bool;
  timer0_reload : Z;
  timer_io_access_gap_cycles : Z
}.

(* @ bios.cpp:12-12 kBiosHleLongTimerNonDataIrqDispatchExtraCycles *)
Definition kBiosHleLongTimerNonDataIrqDispatchExtraCycles : Z := 2.
(* @ bios.cpp:13-13 kBiosHleVeryLongTimerNonDataIrqDispatchAdvanceCycles *)
Definition kBiosHleVeryLongTimerNonDataIrqDispatchAdvanceCycles : Z := 3.
(* @ bios.cpp:14-14 kBiosHleSpacedTimerDataIrqDispatchAdvanceCycles *)
Definition kBiosHleSpacedTimerDataIrqDispatchAdvanceCycles : Z := 1.
(* @ bios.cpp:15-15 kBiosHleLongTimerChainedPostReturnExtraCycles *)
Definition kBiosHleLongTimerChainedPostReturnExtraCycles : Z := 5.
(* @ bios.cpp:16-16 kBiosHleSlowTimer0ActiveReturnExtraCycles *)
Definition kBiosHleSlowTimer0ActiveReturnExtraCycles : Z := 1.
(* @ bios.cpp:17-17 kLooseTimerIoIrqDispatchGapCycles *)
Definition kLooseTimerIoIrqDispatchGapCycles : Z := 12.

(** ** Wrapping arithmetic *)

(* @ bios.cpp:47-49 wrap_i32 *)
Definition wrap_i32 (value : Z) : Z := i32 value.
(* @ bios.cpp:51-53 wrap_u32 *)
Definition wrap_u32 (value : Z) : Z := u32 value.
(* @ bios.cpp:55-57 wrap_mul_i32 *)
Definition wrap_mul_i32 (left right : Z) : Z := wrap_i32 (u32 (wrap_u32 left * wrap_u32 right)).
(* @ bios.cpp:59-61 wrap_shl_i32 *)
Definition wrap_shl_i32 (value shift : Z) : Z :=
  wrap_i32 (u32 (Z.shiftl (wrap_u32 value) shift)).

(* @ bios.cpp:66-76 wrap_asr_i32 *)
Definition wrap_asr_i32 (value shift : Z) : Z :=
  if shift =? 0 then value
  else
    let raw := wrap_u32 value in
    let shifted := Z.shiftr raw shift in
    let sign_fill :=
      if has raw 0x80000000 then u32 (Z.shiftl 0xFFFFFFFF (32 - shift)) else 0 in
    wrap_i32 (Z.lor shifted sign_fill).

(** ** Software interrupts *)

(* @ bios.cpp:84-106 kHleHandledGbaServices *)
Definition kHleHandledGbaServices : list Z :=
  [0x01; 0x02; 0x04; 0x05; 0x06; 0x07; 0x08; 0x09; 0x0A; 0x0B; 0x0C; 0x0E; 0x0F; 0x10; 0x11;
   0x12; 0x13; 0x14; 0x15; 0x16; 0x17].

(** [BiosController] holds its mode. *)
(* @ bios.hpp:127-127 BiosController::mode_ *)
Record BiosController : Type := mkBiosController { mode_ : BiosExecutionMode.t }.

(* @ bios.cpp:114-116 BiosController::reset *)
Definition reset : BiosController := mkBiosController BiosExecutionMode.no_bios.

(* @ bios.cpp:118-120 BiosController::set_mode *)
Definition set_mode (mode : BiosExecutionMode.t) (b : BiosController) : BiosController :=
  mkBiosController mode.

(* @ bios.cpp:151-154 BiosController::known_gba_service *)
Definition known_gba_service (s : Z) : bool := existsb (Z.eqb s) kHleHandledGbaServices.

(* @ bios.cpp:126-138 BiosController::handle_swi *)
Definition handle_swi (call : BiosSwiCall) (b : BiosController) : BiosSwiResult :=
  match mode_ b with
  | BiosExecutionMode.no_bios =>
      mkBiosSwiResult (mode_ b) BiosSwiStatus.trap_to_vector call false false
  | BiosExecutionMode.caller_provided_bios =>
      mkBiosSwiResult (mode_ b) BiosSwiStatus.trap_to_vector call false true
  | BiosExecutionMode.hle =>
      mkBiosSwiResult (mode_ b)
        (if known_gba_service (service call) then BiosSwiStatus.handled
         else BiosSwiStatus.unimplemented_service)
        call (known_gba_service (service call)) false
  end.

(* @ bios.cpp:140-144 BiosController::decode_arm_swi *)
Definition decode_arm_swi (instruction : Z) : BiosSwiCall :=
  let comment := Z.land instruction 0x00FFFFFF in
  mkBiosSwiCall BiosSwiSource.arm comment (u8 (Z.land (Z.shiftr comment 16) 0xFF)).

(* @ bios.cpp:146-149 BiosController::decode_thumb_swi *)
Definition decode_thumb_swi (instruction : Z) : BiosSwiCall :=
  let comment := u8 (Z.land instruction 0x00FF) in
  mkBiosSwiCall BiosSwiSource.thumb comment comment.

(** ** IRQ dispatch *)

(* @ bios.cpp:156-186 BiosController::irq_dispatch_cycles *)
Definition irq_dispatch_cycles (timing : BiosIrqDispatchTiming) : Z :=
  let long_timer_chained_post_return_dispatch :=
    chained_post_return timing && timer0_interrupt_requested timing &&
    (timer0_reload timing <=? 0xFF80) in
  let spaced_long_timer_data_dispatch :=
    long_timer_chained_post_return_dispatch && chained_post_return_spaced_data timing &&
    (0xF800 <=? timer0_reload timing) && (timer0_reload timing <? 0xFF80) in
  let chained_dispatch_cycles := kIrqChainedPostReturnDispatchCycles in
  let chained_dispatch_cycles :=
    if long_timer_chained_post_return_dispatch && negb (chained_post_return_data timing) then
      let cycles := chained_dispatch_cycles + kBiosHleLongTimerNonDataIrqDispatchExtraCycles in
      if (timer0_reload timing <=? 0x8000) &&
         (kLooseTimerIoIrqDispatchGapCycles <=? timer_io_access_gap_cycles timing)
      then cycles - kBiosHleVeryLongTimerNonDataIrqDispatchAdvanceCycles
      else cycles
    else if spaced_long_timer_data_dispatch
    then chained_dispatch_cycles - kBiosHleSpacedTimerDataIrqDispatchAdvanceCycles
    else chained_dispatch_cycles in
  if reentry timing then kIrqReentryDispatchCycles
  else if chained_post_return timing then chained_dispatch_cycles
  else if post_return timing then kIrqPostReturnDispatchCycles
  else kIrqDispatchCycles.

(* @ bios.cpp:188-193 BiosController::irq_return_cycles *)
Definition irq_return_cycles (long_timer_chained_return slow_timer0_active_return : bool) : Z :=
  kIrqReturnCycles +
  (if long_timer_chained_return then kBiosHleLongTimerChainedPostReturnExtraCycles else 0) +
  (if slow_timer0_active_return then kBiosHleSlowTimer0ActiveReturnExtraCycles else 0).

(** ** Arithmetic services *)

(** [std::numeric_limits<std::int32_t>::min()]. *)
Definition int_min : Z := - 2 ^ 31.

(** The quotient that does not fit. *)
Definition div_overflows (numerator denominator : Z) : bool :=
  (denominator =? -1) && (numerator =? int_min).

(* @ bios.cpp:195-205 BiosController::hle_div_quotient *)
Definition hle_div_quotient (numerator denominator : Z) : Z :=
  if denominator =? 0 then if numerator <? 0 then -1 else 1
  else if div_overflows numerator denominator then int_min
  else i32 (Z.quot numerator denominator).

(* @ bios.cpp:207-217 BiosController::hle_div_remainder *)
Definition hle_div_remainder (numerator denominator : Z) : Z :=
  if denominator =? 0 then numerator
  else if div_overflows numerator denominator then 0
  else i32 (Z.rem numerator denominator).

(* @ bios.cpp:219-231 BiosController::hle_div_abs_scratch *)
Definition hle_div_abs_scratch (numerator denominator : Z) : Z :=
  if denominator =? 0 then 1
  else if div_overflows numerator denominator then wrap_u32 int_min
  else
    let quotient := Z.quot numerator denominator in
    let absolute := if quotient <? 0 then - quotient else quotient in
    u32 absolute.

(* @ bios.cpp:233-244 BiosController::hle_div_base_cycles *)
Definition hle_div_base_cycles (numerator denominator : Z) : Z :=
  if (denominator =? 0) || div_overflows numerator denominator then 330
  else
    let abs64 value := if value <? 0 then - value else value in
    if abs64 numerator <? abs64 denominator then 70 else 330.

(** [static_cast<std::uint32_t>(std::sqrt(static_cast<double>(input)))]: a
    double holds every 32-bit value, and the IEEE square root of one truncates
    to the integer square root. *)
(* @ bios.cpp:246-248 BiosController::hle_sqrt *)
Definition hle_sqrt (input : Z) : Z := u32 (Z.sqrt input).

(* @ bios.cpp:250-255 BiosController::hle_sqrt_base_cycles *)
Definition hle_sqrt_base_cycles (value : Z) : Z :=
  if value =? 0 then 99 else if value <=? 0xFF then 214 else 1130.

(** One step of the polynomial. *)
(* @ bios.cpp:269-269 BiosController::hle_arc_tan *)
Definition arc_tan_step (polynomial factor constant : Z) : Z :=
  wrap_asr_i32 (wrap_mul_i32 factor polynomial) 14 + constant.

(** The result, the scratch of R1 and the scratch of R3. *)
(* @ bios.cpp:257-277 BiosController::hle_arc_tan *)
Definition hle_arc_tan (value : Z) : Z * Z * Z :=
  let square := wrap_mul_i32 value value in
  let polynomial := - wrap_asr_i32 square 14 in
  let factor := wrap_asr_i32 (wrap_mul_i32 0xA9 polynomial) 14 + 0x390 in
  let factor := arc_tan_step polynomial factor 0x91C in
  let factor := arc_tan_step polynomial factor 0xFB6 in
  let factor := arc_tan_step polynomial factor 0x16AA in
  let factor := arc_tan_step polynomial factor 0x2081 in
  let factor := arc_tan_step polynomial factor 0x3651 in
  let factor := arc_tan_step polynomial factor 0xA2F9 in
  (i16 (wrap_asr_i32 (wrap_mul_i32 value factor) 16), polynomial, factor).

(** The result and the scratch of R1, if it is written. *)
(* @ bios.cpp:279-308 BiosController::hle_arc_tan2 *)
Definition hle_arc_tan2 (x y : Z) : Z * option Z :=
  let of_y := hle_arc_tan (Z.quot (wrap_shl_i32 y 14) x) in
  let of_x := hle_arc_tan (Z.quot (wrap_shl_i32 x 14) y) in
  if y =? 0 then (if 0 <=? x then 0 else 0x8000, None)
  else if x =? 0 then (if 0 <=? y then 0x4000 else 0xC000, None)
  else if 0 <=? y then
    if 0 <=? x then
      if y <=? x then (of_y.1.1, Some of_y.1.2)
      else (0x4000 - of_x.1.1, Some of_x.1.2)
    else if y <=? - x then (of_y.1.1 + 0x8000, Some of_y.1.2)
    else (0x4000 - of_x.1.1, Some of_x.1.2)
  else if x <=? 0 then
    if - y <? - x then (of_y.1.1 + 0x8000, Some of_y.1.2)
    else (0xC000 - of_x.1.1, Some of_x.1.2)
  else if - y <=? x then (of_y.1.1 + 0x10000, Some of_y.1.2)
  else (0xC000 - of_x.1.1, Some of_x.1.2).

(** ** Affine matrices *)

(* @ bios.cpp:24-33 kAffineQuarterSine *)
Definition kAffineQuarterSine : list Z :=
  [0; 402; 803; 1205; 1605; 2005; 2404; 2801;
   3196; 3589; 3980; 4369; 4756; 5139; 5519; 5896;
   6269; 6639; 7005; 7366; 7723; 8075; 8423; 8765;
   9102; 9434; 9759; 10079; 10393; 10701; 11002; 11297;
   11585; 11866; 12139; 12406; 12665; 12916; 13159; 13395;
   13622; 13842; 14053; 14255; 14449; 14634; 14810; 14978;
   15136; 15286; 15426; 15557; 15678; 15790; 15892; 15985;
   16069; 16142; 16206; 16260; 16305; 16339; 16364; 16379;
   16384].

(* @ bios.cpp:35-40 affine_sine *)
Definition affine_sine (angle : Z) : exc Z :=
  let quadrant := Z.shiftr angle 6 in
  let offset := Z.land angle 0x3F in
  value ← array_at kAffineQuarterSine
            (Z.to_nat (if has quadrant 1 then 64 - offset else offset));
  Ret (if has quadrant 2 then - value else value).

(* @ bios.cpp:42-45 affine_halfword *)
Definition affine_halfword (value : Z) : Z :=
  let bits := u16 value in if bits <? 0x8000 then bits else bits - 0x10000.

(** [AffineMatrix] and [WideAffineMatrix]. *)
(* @ bios.hpp:111-116 BiosController::WideAffineMatrix *)
Record AffineMatrix : Type := mkAffineMatrix { am_pa : Z; am_pb : Z; am_pc : Z; am_pd : Z }.

(* @ bios.cpp:317-330 BiosController::hle_affine_matrix_wide *)
Definition hle_affine_matrix_wide (scale_x scale_y rotation : Z) : exc AffineMatrix :=
  let angle := u8 (Z.shiftr rotation 8) in
  sine ← affine_sine angle;
  cosine ← affine_sine (u8 (angle + 64));
  Ret (mkAffineMatrix
         (wrap_asr_i32 (scale_x * cosine) 14)
         (- wrap_asr_i32 (scale_x * sine) 14)
         (wrap_asr_i32 (scale_y * sine) 14)
         (wrap_asr_i32 (scale_y * cosine) 14)).

(* @ bios.cpp:310-315 BiosController::hle_affine_matrix *)
Definition hle_affine_matrix (scale_x scale_y rotation : Z) : exc AffineMatrix :=
  matrix ← hle_affine_matrix_wide scale_x scale_y rotation;
  Ret (mkAffineMatrix (affine_halfword (am_pa matrix)) (affine_halfword (am_pb matrix))
         (affine_halfword (am_pc matrix)) (affine_halfword (am_pd matrix))).
