(* ===== verification/BiosSpec.v ===== *)
(** * Properties of the BIOS services

    The division of [SWI 6] against Euclid's equation, the square root, and the
    rotation matrices of [SWI 0xE] and [SWI 0xF]. *)

From S2P Require Import Prelude Bios.

Lemma i32_id x : sfits 32 x -> i32 x = x.
Proof.
  unfold sfits, swrap, wrap. intros H.
  destruct (Z.lt_ge_cases x 0).
  - rewrite <- (Z_mod_plus_full x 1), Z.mod_small by lia. zcmp; lia.
  - rewrite Z.mod_small by lia. zcmp; lia.
Qed.

(** The quotient of two 32-bit integers is one, apart from the quotient of the
    least by -1. *)
Lemma quot_fits n d :
  sfits 32 n -> sfits 32 d -> d <> 0 -> ~ (n = int_min /\ d = -1) ->
  sfits 32 (Z.quot n d).
Proof.
  unfold sfits, int_min. intros Hn Hd H0 Ho.
  destruct (decide (Z.abs d = 1)) as [H1|].
  - destruct (decide (d = 1)) as [->|]; [rewrite Z.quot_1_r; lia|].
    assert (d = -1) as -> by lia.
    replace (-1) with (- (1)) by lia. rewrite Z.quot_opp_r, Z.quot_1_r by lia. lia.
  - pose proof (Z.quot_abs n d H0) as Ha.
    destruct (decide (n = 0)) as [->|]; [rewrite Z.quot_0_l by done; lia|].
    pose proof (Z.quot_lt (Z.abs n) (Z.abs d) ltac:(lia) ltac:(lia)). lia.
Qed.

Lemma rem_fits n d : sfits 32 n -> sfits 32 d -> d <> 0 -> sfits 32 (Z.rem n d).
Proof.
  unfold sfits. intros Hn Hd H0. pose proof (Z.rem_bound_abs n d H0). lia.
Qed.

(** The division service, for every pair of 32-bit integers.  Dividing by
    zero gives the sign of the numerator as quotient, the numerator as remainder
    and 1 in R3; the least integer by -1 wraps to itself with remainder 0.
    Otherwise the quotient and remainder satisfy [n = q * d + r] exactly, with
    [r] smaller than [d] and of the sign of [n], and R3 is the absolute value
    of the quotient; in every case but a division by zero the equation holds
    in 32-bit arithmetic. *)
Theorem division_service n d
    (Hn : sfits 32 n) (Hd : sfits 32 d) :
  let q := hle_div_quotient n d in
  let r := hle_div_remainder n d in
  let s := hle_div_abs_scratch n d in
  sfits 32 q /\ sfits 32 r /\ fits 32 s /\
  (d = 0 -> q = (if n <? 0 then -1 else 1) /\ r = n /\ s = 1) /\
  (d <> 0 -> i32 (q * d + r) = n /\ s = u32 (Z.abs q)) /\
  (d <> 0 -> ~ (n = int_min /\ d = -1) ->
   n = q * d + r /\ Z.abs r < Z.abs d /\ 0 <= r * n).
Proof.
  cbv zeta. unfold hle_div_quotient, hle_div_remainder, hle_div_abs_scratch.
  destruct (Z.eqb_spec d 0) as [->|H0].
  { unfold sfits, fits in *. split_and!; try done; zcmp; lia. }
  destruct (div_overflows n d) eqn:Ho; unfold div_overflows in Ho.
  { apply andb_prop in Ho as [->%Z.eqb_eq ->%Z.eqb_eq].
    split_and!; try done. intros _ []. done. }
  assert (Hno : ~ (n = int_min /\ d = -1)).
  { intros [-> ->]. by cbv in Ho. }
  pose proof (quot_fits n d Hn Hd H0 Hno) as Hq. pose proof (rem_fits n d Hn Hd H0) as Hr.
  rewrite !i32_id by done.
  pose proof (Z.quot_rem n d H0). pose proof (Z.rem_bound_abs n d H0).
  pose proof (Z.rem_sign_mul n d H0).
  assert (Hqr : Z.quot n d * d + Z.rem n d = n) by lia.
  split_and!; [done|done|apply wrap_fits; lia|done| |intros _ _; lia].
  intros _. rewrite Hqr, i32_id by done. split; [done|].
  zcmp; f_equal; lia.
Qed.

Lemma division_service_witness :
  sfits 32 (-7) /\ sfits 32 2 /\ hle_div_quotient (-7) 2 = -3 /\
  -7 = hle_div_quotient (-7) 2 * 2 + hle_div_remainder (-7) 2.
Proof.
  assert (Hn : sfits 32 (-7)) by (unfold sfits; lia).
  assert (Hd : sfits 32 2) by (unfold sfits; lia).
  split_and!; [done|done|reflexivity|].
  apply (division_service (-7) 2 Hn Hd); [done|]. intros []. done.
Defined.

(** [Sqrt] is the integer square root. *)
Lemma sqrt_service n :
  fits 32 n -> let s := hle_sqrt n in fits 16 s /\ s * s <= n < (s + 1) * (s + 1).
Proof.
  unfold fits, hle_sqrt. intros H.
  pose proof (Z.sqrt_spec n ltac:(lia)) as Hs. cbv zeta in Hs. pose proof (Z.sqrt_nonneg n).
  assert (Z.sqrt n < 2 ^ 16) by (apply (Z.sqrt_lt_square n (2 ^ 16)); [lia|lia|]; change (2 ^ 16 * 2 ^ 16) with (2 ^ 32); lia).
  unfold wrap. cbv zeta. rewrite Z.mod_small by lia. split; lia.
Qed.

(** ** Rotation matrices *)

(** A property of the 256 angles, checked angle by angle. *)
Lemma every_angle (P : Z -> bool) :
  forallb P (seqZ 0 256) = true -> forall a, fits 8 a -> P a = true.
Proof.
  rewrite forallb_forall. intros H a Ha. apply H.
  rewrite <- list_elem_of_In, elem_of_seqZ. unfold fits in Ha. lia.
Qed.

Definition sine_of (a : Z) : Z := match affine_sine a with Ret v => v | Throw => 0 end.

Lemma affine_sine_returns a : fits 8 a -> affine_sine a = Ret (sine_of a).
Proof.
  intros H. unfold sine_of.
  assert (Hb : (match affine_sine a with Ret _ => true | Throw => false end) = true)
    by (apply (every_angle (fun a => match affine_sine a with Ret _ => true | Throw => false end));
        [by vm_compute|done]).
  by destruct (affine_sine a).
Qed.

(** The sine is odd around half a turn, symmetric around a quarter, and with
    the cosine its squares add to 2^28 up to 39392 (about 0.015 percent). *)
Lemma sine_laws a :
  fits 8 a ->
  sine_of (u8 (a + 128)) = - sine_of a /\
  sine_of (u8 (128 - a)) = sine_of a /\
  - 2 ^ 14 <= sine_of a <= 2 ^ 14 /\
  Z.abs (sine_of a * sine_of a + sine_of (u8 (a + 64)) * sine_of (u8 (a + 64)) - 2 ^ 28)
    <= 39392.
Proof.
  intros H.
  pose proof (every_angle (fun a =>
    (sine_of (u8 (a + 128)) =? - sine_of a) && (sine_of (u8 (128 - a)) =? sine_of a) &&
    (- 2 ^ 14 <=? sine_of a) && (sine_of a <=? 2 ^ 14) &&
    (Z.abs (sine_of a * sine_of a + sine_of (u8 (a + 64)) * sine_of (u8 (a + 64)) - 2 ^ 28)
       <=? 39392)) ltac:(by vm_compute) a H) as Hb.
  cbv beta in Hb. rewrite !andb_true_iff, !Z.leb_le, !Z.eqb_eq in Hb. lia.
Qed.

(** The code's arithmetic shift is the rounding division of the signed value. *)
Lemma wrap_asr_div v s : sfits 32 v -> 0 <= s < 32 -> wrap_asr_i32 v s = v / 2 ^ s.
Proof.
  intros Hv Hs. unfold wrap_asr_i32, wrap_i32, wrap_u32.
  destruct (Z.eqb_spec s 0) as [->|H0]; [by rewrite Z.div_1_r|].
  assert (Hdiv : sfits 32 (v / 2 ^ s)).
  { unfold sfits in *. assert (0 < 2 ^ s) by (apply Z.pow_pos_nonneg; lia).
    split; [apply Z.div_le_lower_bound|apply Z.div_lt_upper_bound]; nia. }
  rewrite <- (i32_id _ Hdiv). unfold swrap.
  assert (Hw : u32 (Z.lor (Z.shiftr (u32 v) s)
                 (if has (u32 v) 0x80000000 then u32 (Z.shiftl 0xFFFFFFFF (32 - s)) else 0))
               = u32 (v / 2 ^ s)); [|by rewrite Hw].
  apply (bits_ext 32); [lia|apply wrap_fits; lia|apply wrap_fits; lia|]. intros i Hi.
  assert (Hsign : forall j, 31 <= j -> Z.testbit v j = (v <? 0)).
  { intros j Hj. unfold sfits in Hv. zcmp.
    - apply Z.bits_above_log2_neg; [lia|].
      destruct (decide (v = -1)) as [->|]; [change (0 < j); lia|].
      apply Z.log2_lt_pow2; [lia|]. apply Z.lt_le_trans with (2 ^ 31); [lia|].
      apply Z.pow_le_mono_r; lia.
    - destruct (decide (v = 0)) as [->|]; [by rewrite Z.testbit_0_l|].
      apply Z.bits_above_log2; [lia|]. apply Z.log2_lt_pow2; [lia|].
      apply Z.lt_le_trans with (2 ^ 31); [lia|]. apply Z.pow_le_mono_r; lia. }
  assert (Hbit : has (u32 v) 0x80000000 = (v <? 0)).
  { change 0x80000000 with (2 ^ 31). rewrite has_bit, testbit_wrap by lia. by rewrite Hsign. }
  rewrite Hbit, !testbit_wrap, Z.lor_spec, Z.shiftr_spec, testbit_wrap, <- Z.shiftr_div_pow2,
    Z.shiftr_spec by lia.
  assert (i <? 32 = true) as -> by lia. cbn [andb].
  destruct (Z.ltb_spec (i + s) 32) as [Hl|Hl]; cbn [andb orb].
  - destruct (v <? 0); [|by rewrite Z.testbit_0_l, orb_false_r].
    rewrite testbit_wrap, Z.shiftl_spec_low by lia. by rewrite andb_false_r, orb_false_r.
  - rewrite (Hsign (i + s)) by lia. destruct (v <? 0); [|by rewrite Z.testbit_0_l].
    rewrite testbit_wrap, Z.shiftl_spec by lia. change 0xFFFFFFFF with (Z.ones 32).
    rewrite Z.ones_spec_low by lia. by assert (i <? 32 = true) as -> by lia.
Qed.

Lemma affine_halfword_id v : sfits 16 v -> affine_halfword v = v.
Proof.
  unfold sfits, affine_halfword, wrap. intros H. destruct (Z.lt_ge_cases v 0).
  - rewrite <- (Z_mod_plus_full v 1), Z.mod_small by lia. zcmp; lia.
  - rewrite Z.mod_small by lia. zcmp; lia.
Qed.

(** An entry of the matrix, a scale times a sine at most one, is at most the scale. *)
Lemma affine_entry scale a :
  sfits 16 scale -> fits 8 a ->
  wrap_asr_i32 (scale * sine_of a) 14 = scale * sine_of a / 2 ^ 14 /\
  Z.abs (scale * sine_of a / 2 ^ 14) <= Z.abs scale.
Proof.
  intros Hs Ha. pose proof (sine_laws a Ha) as (_ & _ & Hb & _). unfold sfits in Hs.
  split; [apply wrap_asr_div; [unfold sfits; nia|lia]|].
  assert (- Z.abs scale <= scale * sine_of a / 2 ^ 14 <= Z.abs scale); [|lia].
  split; [apply Z.div_le_lower_bound|apply Z.div_le_upper_bound]; nia.
Qed.

(** C35: The rotation matrix of the affine services, for every scale above the
    least halfword and every rotation: the table is never indexed out of range,
    the four entries are the scales times the sine and cosine of the angle
    rounded down (the second one negated after rounding), none is larger than
    its scale, and storing them as halfwords loses nothing. *)
Theorem affine_matrix_spec scale_x scale_y rotation
    (Hx : sfits 16 scale_x) (Hy : sfits 16 scale_y)
    (Hxm : scale_x <> - 2 ^ 15) (Hym : scale_y <> - 2 ^ 15) :
  let angle := u8 (Z.shiftr rotation 8) in
  let sine := sine_of angle in
  let cosine := sine_of (u8 (angle + 64)) in
  exists m,
    hle_affine_matrix_wide scale_x scale_y rotation = Ret m /\
    hle_affine_matrix scale_x scale_y rotation = Ret m /\
    am_pa m = scale_x * cosine / 2 ^ 14 /\ am_pb m = - (scale_x * sine / 2 ^ 14) /\
    am_pc m = scale_y * sine / 2 ^ 14 /\ am_pd m = scale_y * cosine / 2 ^ 14 /\
    Z.abs (am_pa m) <= Z.abs scale_x /\ Z.abs (am_pb m) <= Z.abs scale_x /\
    Z.abs (am_pc m) <= Z.abs scale_y /\ Z.abs (am_pd m) <= Z.abs scale_y.
Proof.
  cbv zeta. set (angle := u8 (Z.shiftr rotation 8)).
  assert (Ha : fits 8 angle) by (apply wrap_fits; lia).
  assert (Hc : fits 8 (u8 (angle + 64))) by (apply wrap_fits; lia).
  destruct (affine_entry scale_x (u8 (angle + 64)) Hx Hc) as [Epa Bpa].
  destruct (affine_entry scale_x angle Hx Ha) as [Epb Bpb].
  destruct (affine_entry scale_y angle Hy Ha) as [Epc Bpc].
  destruct (affine_entry scale_y (u8 (angle + 64)) Hy Hc) as [Epd Bpd].
  eexists. unfold hle_affine_matrix, hle_affine_matrix_wide. fold angle.
  rewrite (affine_sine_returns angle Ha), (affine_sine_returns _ Hc). cbn [mbind exc_bind].
  rewrite Epa, Epb, Epc, Epd. split; [reflexivity|]. cbn [mbind exc_bind am_pa am_pb am_pc am_pd].
  unfold sfits in *.
  rewrite !affine_halfword_id by (unfold sfits; lia).
  split_and!; try reflexivity; try lia.
Qed.

Lemma affine_matrix_spec_witness :
  exists m, hle_affine_matrix 256 (-256) 0x4000 = Ret m /\ am_pb m = - 256 /\ am_pc m = -256.
Proof.
  assert (Hx : sfits 16 256) by (unfold sfits; lia).
  assert (Hy : sfits 16 (-256)) by (unfold sfits; lia).
  destruct (affine_matrix_spec 256 (-256) 0x4000 Hx Hy ltac:(lia) ltac:(lia))
    as (m & _ & Hm & _ & Hb & Hc & _).
  exists m. split; [exact Hm|]. rewrite Hb, Hc. by vm_compute.
Defined.
