(* ===== verification/SchedulerTiming.v ===== *)
(** * The scheduler: timing of data accesses

    The constants of [src/core/core_scheduler.cpp] and its helpers for the
    cycles a data access takes before it samples a device: loads of DISPSTAT
    and of the timer registers around the HBlank edges and the overflows of
    timer 0.  All are pure functions of the access and the devices. *)

From S2P Require Import Prelude Interrupts BusTypes WaitState.
From S2P Require Timers PpuTiming MemoryBus.
From S2P Require Import Bios.
From S2P Require Import StateMonad ArmTypes ArmState.

(** ** Constants *)

(* @ core_scheduler.cpp:21-21 kGamePakSequentialBoundary *)
Definition kGamePakSequentialBoundary : Z := 128 * 1024.
(* @ core_scheduler.cpp:22-22 kGamePakInlineLiteralWindowBytes *)
Definition kGamePakInlineLiteralWindowBytes : Z := 256.
(* @ core_scheduler.cpp:23-23 kPrefetchBufferCapacityHalfwords *)
Definition kPrefetchBufferCapacityHalfwords : Z := 8.
(* @ core_scheduler.cpp:24-24 kMaxBiosWaitCycles *)
Definition kMaxBiosWaitCycles : Z := 280896 * 2.
(* @ core_scheduler.cpp:29-29 kIntrWaitCoarseBatchCycles *)
Definition kIntrWaitCoarseBatchCycles : Z := 64.
(* @ core_scheduler.cpp:32-32 kHleLz77AdditionalCallCycles *)
Definition kHleLz77AdditionalCallCycles : Z := 43.
(* @ core_scheduler.cpp:33-33 kTimerIoBase *)
Definition kTimerIoBase : Z := 0x04000100.
(* @ core_scheduler.cpp:34-34 kTimerIoEnd *)
Definition kTimerIoEnd : Z := 0x04000110.
(* @ core_scheduler.cpp:35-35 kDispstatIo *)
Definition kDispstatIo : Z := 0x04000004.
(* @ core_scheduler.cpp:36-36 kInterruptFlagIo *)
Definition kInterruptFlagIo : Z := 0x04000202.
(* @ core_scheduler.cpp:37-37 kAutoIrqLatencyCycles *)
Definition kAutoIrqLatencyCycles : Z := 5.
(* @ core_scheduler.cpp:44-44 kMaxDmaChainExpansion *)
Definition kMaxDmaChainExpansion : Z := 16.
(* @ core_scheduler.cpp:83-83 kAutoIrqSlowTimerLatencyCycles *)
Definition kAutoIrqSlowTimerLatencyCycles : Z := 3.
(* @ core_scheduler.cpp:84-84 kAutoIrqPostHleReturnLatencyCycles *)
Definition kAutoIrqPostHleReturnLatencyCycles : Z := 2.
(* @ core_scheduler.cpp:85-85 kAutoIrqLongTimerChainedPostHleReturnLatencyCycles *)
Definition kAutoIrqLongTimerChainedPostHleReturnLatencyCycles : Z := 0.
(* @ core_scheduler.cpp:86-86 kAutoIrqSlowTimerChainedPostHleReturnLatencyCycles *)
Definition kAutoIrqSlowTimerChainedPostHleReturnLatencyCycles : Z := 0.
(* @ core_scheduler.cpp:87-87 kAutoIrqPhase184SecondSpacedDataLatencyCycles *)
Definition kAutoIrqPhase184SecondSpacedDataLatencyCycles : Z := 4.
(* @ core_scheduler.cpp:88-88 kAutoIrqChainedPostHleReturnLatencyCycles *)
Definition kAutoIrqChainedPostHleReturnLatencyCycles : Z := 1.
(* @ core_scheduler.cpp:89-89 kTimerIoDataPhaseCycles *)
Definition kTimerIoDataPhaseCycles : Z := 1.
(* @ core_scheduler.cpp:90-90 kTimerIoLoadDataPhaseCycles *)
Definition kTimerIoLoadDataPhaseCycles : Z := 3.
(* @ core_scheduler.cpp:91-91 kDispstatIoLoadDataPhaseCycles *)
Definition kDispstatIoLoadDataPhaseCycles : Z := 2.
(* @ core_scheduler.cpp:92-92 kDispstatIoLoadCompletionCycles *)
Definition kDispstatIoLoadCompletionCycles : Z := 3.
(* @ core_scheduler.cpp:93-93 kDispstatHblankTransitionStallCycles *)
Definition kDispstatHblankTransitionStallCycles : Z := 1.
(* @ core_scheduler.cpp:94-94 kDispstatLineRolloverStallCycles *)
Definition kDispstatLineRolloverStallCycles : Z := 3.
(* @ core_scheduler.cpp:95-95 kDispstatLateHblankSetStallCycles *)
Definition kDispstatLateHblankSetStallCycles : Z := 3.
(* @ core_scheduler.cpp:96-96 kDispstatHblankClearTimerSampleCycle *)
Definition kDispstatHblankClearTimerSampleCycle : Z := 14.
(* @ core_scheduler.cpp:97-97 kInterruptFlagStoreDataPhaseCycles *)
Definition kInterruptFlagStoreDataPhaseCycles : Z := 2.
(* @ core_scheduler.cpp:98-98 kSpacedTimerIoDispatchGapCycles *)
Definition kSpacedTimerIoDispatchGapCycles : Z := 16.
(* @ core_scheduler.cpp:99-99 kLooseTimerIoIrqDispatchGapCycles *)
Definition kLooseTimerIoIrqDispatchGapCycles : Z := 12.
(* @ core_scheduler.cpp:100-100 kTightChainedSlowTimerIoLoadExtraCycles *)
Definition kTightChainedSlowTimerIoLoadExtraCycles : Z := 0.
(* @ core_scheduler.cpp:101-101 kSpacedSlowTimerIoLoadExtraCycles *)
Definition kSpacedSlowTimerIoLoadExtraCycles : Z := 0.
(* @ core_scheduler.cpp:102-102 kSpacedSlowTimerNearReloadIoLoadExtraCycles *)
Definition kSpacedSlowTimerNearReloadIoLoadExtraCycles : Z := 16.
(* @ core_scheduler.cpp:103-103 kSpacedSlowTimerPostReloadIoLoadExtraCycles *)
Definition kSpacedSlowTimerPostReloadIoLoadExtraCycles : Z := 8.
(* @ core_scheduler.cpp:104-104 kSpacedSlowTimerAlignedReloadIoLoadExtraCycles *)
Definition kSpacedSlowTimerAlignedReloadIoLoadExtraCycles : Z := 8.

(** [MemoryBus::classify(address).region == r]. *)
Definition in_region (r : Region.t) (address : Z) : bool :=
  bool_decide (region (classify address) = r).

(** ** Misfetched Thumb code *)

(* @ core_scheduler.cpp:46-50 cpu_thumb_misfetch_region *)
Definition cpu_thumb_misfetch_region (pc : Z) : bool :=
  in_region Region.game_pak_rom pc || in_region Region.iwram pc || in_region Region.ewram pc.

Section Misfetch.
Context {D : Type} (io : MemoryBus.IoCallbacks D).

(* @ core_scheduler.cpp:52-63 looks_like_thumb_misfetch_as_arm *)
Definition looks_like_thumb_misfetch_as_arm (memory : MemoryBus.Bus (D := D)) (pc : Z) : bool :=
  if negb (cpu_thumb_misfetch_region pc) then false
  else
    match MemoryBus.read32 io (Z.land pc (not32 0x3)) memory with
    | Some arm_word =>
        if negb (Z.land (Z.shiftr arm_word 28) 0xF =? 0xF) then false
        else bool_decide (is_Some (MemoryBus.read16 io pc memory))
    | None => false
    end.

(** The count is [recovery_count], passed by reference. *)
(* @ core_scheduler.cpp:65-76 recover_thumb_state_from_rom_misfetch *)
Definition recover_thumb_state_from_rom_misfetch (memory : MemoryBus.Bus (D := D))
    (recovery_count : Z) : CPU Z :=
  thumb ← gets thumb_state_;
  if (thumb : bool) then mret recovery_count
  else
    pc ← register_value kPc;
    if negb (looks_like_thumb_misfetch_as_arm memory pc) then mret recovery_count
    else
      status ← gets cpsr;
      _ ← act (set_cpsr (Z.lor status 0x20));
      mret (u32 (recovery_count + 1)).
End Misfetch.

(** ** Cycle profiles of the emulated BIOS calls *)

Module HleSwiProfileKind.
(* @ core_scheduler.cpp:106-110 HleSwiProfileKind *)
Inductive t : Type := simple | literal | cpu_set.
End HleSwiProfileKind.

(* @ core_scheduler.cpp:112-114 as_i32 *)
Definition as_i32 (value : Z) : Z := i32 value.

(* @ core_scheduler.cpp:116-118 wrap_u32 *)
Definition wrap_u32 (value : Z) : Z := u32 value.

(** A pointer to a [WaitStateControl] is an [option]. *)
(* @ core_scheduler.cpp:120-131 hle_rom_wait_profile *)
Definition hle_rom_wait_profile (waitcnt : option WaitStateControl) : Z :=
  match waitcnt with
  | None => 0
  | Some waitcnt =>
      let control := read_control waitcnt in
      let prefetch := has control 0x4000 in
      let nonsequential := has control 0x0004 in
      let fast_sequential := has control 0x0010 in
      u8 (Z.lor (Z.lor (if prefetch then 1 else 0) (if nonsequential then 2 else 0))
            (if fast_sequential then 4 else 0))
  end.

(* @ core_scheduler.cpp:139-140 kArmSimpleRom *)
Definition kArmSimpleRom : list Z := [16; 16; 14; 14; 13; 13; 11; 11].
(* @ core_scheduler.cpp:141-142 kThumbSimpleRom *)
Definition kThumbSimpleRom : list Z := [10; 10; 8; 8; 9; 9; 7; 7].
(* @ core_scheduler.cpp:143-144 kArmLiteralRom *)
Definition kArmLiteralRom : list Z := [16; 19; 14; 16; 13; 17; 11; 14].
(* @ core_scheduler.cpp:145-146 kThumbLiteralRom *)
Definition kThumbLiteralRom : list Z := [10; 13; 8; 10; 9; 13; 7; 10].
(* @ core_scheduler.cpp:147-148 kThumbCpuSetRom *)
Definition kThumbCpuSetRom : list Z := [10; 19; 8; 14; 9; 21; 7; 16].

(* @ core_scheduler.cpp:136-181 hle_swi_profile_adjustment *)
Definition hle_swi_profile_adjustment (call : BiosSwiCall) (fetch_address : Z)
    (waitcnt : option WaitStateControl) (profile : HleSwiProfileKind.t) : exc Z :=
  let thumb := bool_decide (swi_source call = BiosSwiSource.thumb) in
  if in_region Region.iwram fetch_address then Ret 0
  else if in_region Region.ewram fetch_address then
    Ret match profile with
        | HleSwiProfileKind.literal => if thumb then 1 else 7
        | HleSwiProfileKind.cpu_set => if thumb then -9 else 12
        | HleSwiProfileKind.simple => if thumb then 6 else 12
        end
  else if negb (in_region Region.game_pak_rom fetch_address) then Ret 0
  else
    let index := Z.to_nat (hle_rom_wait_profile waitcnt) in
    match profile with
    | HleSwiProfileKind.literal =>
        if thumb then array_at kThumbLiteralRom index else array_at kArmLiteralRom index
    | HleSwiProfileKind.cpu_set =>
        if thumb then array_at kThumbCpuSetRom index else array_at kArmSimpleRom index
    | HleSwiProfileKind.simple =>
        if thumb then array_at kThumbSimpleRom index else array_at kArmSimpleRom index
    end.

(* @ core_scheduler.cpp:183-190 add_hle_profile_adjustment *)
Definition add_hle_profile_adjustment (base_cycles adjustment : Z) : Z :=
  if 0 <=? adjustment then u32 (base_cycles + u32 adjustment)
  else
    let magnitude := u32 (- adjustment) in
    if magnitude <? base_cycles then base_cycles - magnitude else 0.

(* @ core_scheduler.cpp:194-194 kSourceRegionMask *)
Definition kSourceRegionMask : Z := 0x0E000000.

(* @ core_scheduler.cpp:192-200 hle_cpu_set_source_allowed *)
Definition hle_cpu_set_source_allowed (source byte_length : Z) : bool :=
  if byte_length =? 0 then true
  else
    let end_ := u32 (source + byte_length) in
    has source kSourceRegionMask && has end_ kSourceRegionMask.

(** [count = (count + 7U) & ~7U;] for the fast call. *)
(* @ core_scheduler.cpp:205-208 hle_cpu_set_base_cycles *)
Definition cpu_set_count (control : Z) (fast : bool) : Z :=
  let count := Z.land control 0x001FFFFF in
  if fast then Z.land (u32 (count + 7)) (not32 7) else count.

(* @ core_scheduler.cpp:202-220 hle_cpu_set_base_cycles *)
Definition hle_cpu_set_base_cycles (control : Z) (fast : bool) (source : Z) : Z :=
  let count := cpu_set_count control fast in
  let word_bit := has control (Z.shiftl 1 26) in
  let word := fast || word_bit in
  let byte_length := u32 (count * (if word then 4 else 2)) in
  if negb (count =? 0) && negb (hle_cpu_set_source_allowed source byte_length)
  then if fast then 86 else 84
  else if fast then u32 (318 + count * 12)
  else u32 (64 + count * (if word_bit then 8 else 4)).

(** ** Addresses and conditions

    Copies of the helpers of [arm7tdmi.cpp] that the scheduler keeps. *)

(* @ core_scheduler.cpp:222-224 align_word *)
Definition align_word (value : Z) : Z := Z.land value (not32 0x3).

(* @ core_scheduler.cpp:226-230 offset_transfer_address *)
Definition offset_transfer_address (base offset : Z) (up : bool) : Z :=
  if up then u32 (base + offset) else u32 (base - offset).

(* @ core_scheduler.cpp:232-235 supported_transfer_addressing *)
Definition supported_transfer_addressing (pre_index write_back : bool) : bool :=
  pre_index || negb write_back.

(* @ core_scheduler.cpp:237-240 transfer_needs_write_back *)
Definition transfer_needs_write_back (pre_index write_back : bool) : bool :=
  negb pre_index || write_back.

(** The loop: once per bit of the list. *)
(* @ core_scheduler.cpp:244-247 count_registers *)
Fixpoint count_registers_loop (fuel : nat) (register_list count : Z) : Z :=
  match fuel with
  | O => count
  | S fuel' =>
      if register_list =? 0 then count
      else count_registers_loop fuel' (u16 (Z.shiftr register_list 1))
             (u8 (count + Z.land register_list 0x1))
  end.

(* @ core_scheduler.cpp:242-249 count_registers *)
Definition count_registers (register_list : Z) : Z := count_registers_loop 16 register_list 0.

(* @ core_scheduler.cpp:251-254 register_list_contains *)
Definition register_list_contains (register_list index : Z) : bool :=
  negb (Z.land register_list (Z.shiftl 1 index) =? 0).

(* @ core_scheduler.cpp:256-264 block_transfer_first_address *)
Definition block_transfer_first_address (base register_count : Z) (pre_index up : bool) : Z :=
  let byte_count := u32 (register_count * 4) in
  if up then if pre_index then u32 (base + 4) else base
  else if pre_index then u32 (base - byte_count) else u32 (base - byte_count + 4).

(* @ core_scheduler.cpp:266-301 condition_passed_for_cpu *)
Definition condition_passed_for_cpu (cpu : Arm7tdmi) (condition : ArmCondition.t) : bool :=
  match condition with
  | ArmCondition.eq => zero_ cpu
  | ArmCondition.ne => negb (zero_ cpu)
  | ArmCondition.cs => carry_ cpu
  | ArmCondition.cc => negb (carry_ cpu)
  | ArmCondition.mi => negative_ cpu
  | ArmCondition.pl => negb (negative_ cpu)
  | ArmCondition.vs => overflow_ cpu
  | ArmCondition.vc => negb (overflow_ cpu)
  | ArmCondition.hi => carry_ cpu && negb (zero_ cpu)
  | ArmCondition.ls => negb (carry_ cpu) || zero_ cpu
  | ArmCondition.ge => Bool.eqb (negative_ cpu) (overflow_ cpu)
  | ArmCondition.lt => negb (Bool.eqb (negative_ cpu) (overflow_ cpu))
  | ArmCondition.gt => negb (zero_ cpu) && Bool.eqb (negative_ cpu) (overflow_ cpu)
  | ArmCondition.le => zero_ cpu || negb (Bool.eqb (negative_ cpu) (overflow_ cpu))
  | ArmCondition.al => true
  | _ => false
  end.

(** ** The data access of an instruction *)

(* @ core_scheduler.cpp:303-307 DataAccessTimingProbe *)
Record DataAccessTimingProbe : Type := mkDataAccessTimingProbe {
  pr_address : Z;
  pr_width : AccessWidth.t;
  pr_load : bool
}.

(* @ core_scheduler.cpp:309-311 timer_io_address *)
Definition timer_io_address (address : Z) : bool :=
  (kTimerIoBase <=? address) && (address <? kTimerIoEnd).

(* @ core_scheduler.cpp:313-319 arm_test_or_compare_instruction *)
Definition arm_test_or_compare_instruction (instruction : Z) : bool :=
  if has instruction 0x0C000000 then false
  else
    let opcode := Z.land (Z.shiftr instruction 21) 0xF in
    (0x8 <=? opcode) && (opcode <=? 0xB).

(* @ core_scheduler.cpp:324-337 thumb_test_or_compare_instruction *)
Definition thumb_test_or_compare_instruction (instruction : Z) : bool :=
  let top5 := Z.shiftr instruction 11 in
  if top5 =? 0x05 then true
  else if (Z.shiftr instruction 10 =? 0x11) && (Z.land (Z.shiftr instruction 8) 0x3 =? 0x1)
  then true
  else if Z.shiftr instruction 10 =? 0x10 then
    let alu_opcode := Z.land (Z.shiftr instruction 6) 0xF in
    (alu_opcode =? 0x8) || (alu_opcode =? 0xA) || (alu_opcode =? 0xB)
  else false.

(* @ core_scheduler.cpp:339-350 arm_immediate_data_processing_without_pc_write *)
Definition arm_immediate_data_processing_without_pc_write (instruction : Z) : bool :=
  if negb (Z.land instruction 0x0E000000 =? 0x02000000) then false
  else negb (Z.land instruction 0x0000F000 =? 0x0000F000).

(* @ core_scheduler.cpp:352-354 simple_arm_no_data_instruction *)
Definition simple_arm_no_data_instruction (instruction : Z) : bool :=
  arm_immediate_data_processing_without_pc_write instruction.

(* @ core_scheduler.cpp:356-359 simple_thumb_alu_without_pc_write *)
Definition simple_thumb_alu_without_pc_write (instruction : Z) : bool :=
  (Z.shiftr instruction 13 <=? 0x1) || (Z.land (Z.shiftr instruction 10) 0x3F =? 0x10).

(* @ core_scheduler.cpp:361-366 hle_irq_timing_sensitive_state *)
Definition hle_irq_timing_sensitive_state (hle_irq_return_latency_pending
    hle_irq_post_return_latency_armed hle_irq_post_return_chain_active : bool) : bool :=
  hle_irq_return_latency_pending || hle_irq_post_return_latency_armed ||
  hle_irq_post_return_chain_active.

(* @ core_scheduler.cpp:372-388 access_covers_address *)
Definition access_covers_address (address : Z) (width : AccessWidth.t) (target : Z) : bool :=
  let bytes :=
    match width with
    | AccessWidth.byte => 1
    | AccessWidth.halfword => 2
    | AccessWidth.word => 4
    end in
  (address <=? target) && (target <? u32 (address + bytes)).

(* @ core_scheduler.cpp:390-393 interrupt_flag_io_address *)
Definition interrupt_flag_io_address (address : Z) (width : AccessWidth.t) : bool :=
  access_covers_address address width kInterruptFlagIo.

(** The access covers DISPSTAT. *)
Definition dispstat_access (p : DataAccessTimingProbe) : bool :=
  access_covers_address (pr_address p) (pr_width p) kDispstatIo.

(* @ core_scheduler.cpp:395-414 io_store_pre_access_cycles *)
Definition io_store_pre_access_cycles (p : DataAccessTimingProbe) : Z :=
  if pr_load p then
    if dispstat_access p then kDispstatIoLoadDataPhaseCycles
    else if timer_io_address (pr_address p) && bool_decide (pr_width p = AccessWidth.word)
    then kTimerIoLoadDataPhaseCycles
    else 0
  else if timer_io_address (pr_address p) then kTimerIoDataPhaseCycles
  else if interrupt_flag_io_address (pr_address p) (pr_width p)
  then kInterruptFlagStoreDataPhaseCycles
  else 0.

(** A halfword load of a timer register while IME is clear and the HBlank
    source is enabled: a program polling DISPSTAT that reads a timer. *)
Definition polled_timer_load (data_access : option DataAccessTimingProbe)
    (interrupts : InterruptController) : bool :=
  match data_access with
  | Some p =>
      pr_load p && bool_decide (pr_width p = AccessWidth.halfword) &&
      timer_io_address (pr_address p) && negb (master_enabled interrupts) &&
      Interrupts.enabled InterruptSource.hblank interrupts
  | None => false
  end.

(* @ core_scheduler.cpp:416-431 late_hblank_timer_load_samples_on_data_phase *)
Definition late_hblank_timer_load_samples_on_data_phase
    (data_access : option DataAccessTimingProbe) (ppu : PpuTiming.PpuTiming)
    (interrupts : InterruptController) : bool :=
  if negb (polled_timer_load data_access interrupts) then false
  else
    let start := PpuTiming.line_cycle ppu in
    let sample_cycle := u32 (start + kTimerIoLoadDataPhaseCycles) in
    PpuTiming.vblank ppu || PpuTiming.hblank ppu ||
    ((start <? PpuTiming.kHblankFlagCycles) && (PpuTiming.kHblankFlagCycles <=? sample_cycle)).

(* @ core_scheduler.cpp:434-451 dispstat_hblank_clear_timer_load_pre_access_cycles *)
Definition dispstat_hblank_clear_timer_load_pre_access_cycles
    (data_access : option DataAccessTimingProbe) (ppu : PpuTiming.PpuTiming)
    (interrupts : InterruptController) : option Z :=
  if negb (polled_timer_load data_access interrupts) ||
     negb (Interrupts.requested InterruptSource.hblank interrupts) ||
     negb (PpuTiming.vblank ppu) || PpuTiming.hblank ppu
  then None
  else
    let start := PpuTiming.line_cycle ppu in
    if kDispstatHblankClearTimerSampleCycle <=? start then None
    else Some (kDispstatHblankClearTimerSampleCycle - start).

(* @ core_scheduler.cpp:464-466 kLongHblankPollingGapCycles *)
Definition kLongHblankPollingGapCycles : Z :=
  PpuTiming.kHblankFlagCycles - kDispstatIoLoadCompletionCycles -
  kDispstatHblankTransitionStallCycles - kTimerIoDataPhaseCycles.

(* @ core_scheduler.cpp:453-468 long_hblank_poll_timer_load_samples_before_completion *)
Definition long_hblank_poll_timer_load_samples_before_completion
    (data_access : option DataAccessTimingProbe) (ppu : PpuTiming.PpuTiming)
    (interrupts : InterruptController) (timer_io_gap_cycles : Z) : bool :=
  if negb (polled_timer_load data_access interrupts) || negb (PpuTiming.hblank ppu) then false
  else kLongHblankPollingGapCycles <=? timer_io_gap_cycles.

(** A load of DISPSTAT. *)
Definition dispstat_load (data_access : option DataAccessTimingProbe) : bool :=
  match data_access with
  | Some p => pr_load p && dispstat_access p
  | None => false
  end.

(* @ core_scheduler.cpp:470-492 adjust_dispstat_hblank_set_pre_access_cycles *)
Definition adjust_dispstat_hblank_set_pre_access_cycles
    (data_access : option DataAccessTimingProbe) (ppu : PpuTiming.PpuTiming)
    (pre_access_cycles : Z) : Z :=
  if negb (dispstat_load data_access) || (pre_access_cycles =? 0) then pre_access_cycles
  else
    let start := PpuTiming.line_cycle ppu in
    let data_sample := u32 (start + pre_access_cycles) in
    let load_completion := u32 (start + kDispstatIoLoadCompletionCycles) in
    if (start <? PpuTiming.kHblankFlagCycles) && (data_sample =? PpuTiming.kHblankFlagCycles)
    then 0
    else
      let completes_on_hblank_flag :=
        (data_sample <? PpuTiming.kHblankFlagCycles) &&
        (PpuTiming.kHblankFlagCycles <=? load_completion) in
      if completes_on_hblank_flag then kDispstatIoLoadCompletionCycles else pre_access_cycles.

(** [start < edge && end >= edge]. *)
Definition crosses (start end_ edge : Z) : bool := (start <? edge) && (edge <=? end_).

(* @ core_scheduler.cpp:494-529 dispstat_status_transition_stall_cycles *)
Definition dispstat_status_transition_stall_cycles
    (data_access : option DataAccessTimingProbe) (ppu : PpuTiming.PpuTiming)
    (interrupts : InterruptController) (pre_access_cycles : Z) : Z :=
  if negb (dispstat_load data_access) || (pre_access_cycles =? 0) then 0
  else
    let start := PpuTiming.line_cycle ppu in
    let end_ := u32 (start + pre_access_cycles) in
    let masked_pending_hblank :=
      negb (master_enabled interrupts) && Interrupts.enabled InterruptSource.hblank interrupts &&
      Interrupts.requested InterruptSource.hblank interrupts in
    if masked_pending_hblank &&
       (PpuTiming.kHblankFlagCycles + kDispstatIoLoadCompletionCycles +
          kDispstatHblankTransitionStallCycles <? start) &&
       (start <=? PpuTiming.kHblankFlagCycles + kDispstatIoLoadCompletionCycles +
          kDispstatLateHblankSetStallCycles) &&
       PpuTiming.hblank ppu
    then kDispstatLateHblankSetStallCycles
    else
      let crosses_raw_hblank :=
        (start <=? PpuTiming.kVisibleCycles) && (PpuTiming.kVisibleCycles <=? end_) in
      let crosses_dispstat_hblank := crosses start end_ PpuTiming.kHblankFlagCycles in
      let crosses_line_rollover := PpuTiming.kCyclesPerLine <=? end_ in
      if crosses_line_rollover then kDispstatLineRolloverStallCycles
      else if crosses_dispstat_hblank then kDispstatHblankTransitionStallCycles
      else if crosses_raw_hblank then 1 else 0.

(* @ core_scheduler.cpp:531-540 crosses_ppu_status_transition *)
Definition crosses_ppu_status_transition (start cycles : Z) : bool :=
  if cycles =? 0 then false
  else
    let end_ := u32 (start + cycles) in
    crosses start end_ PpuTiming.kVisibleCycles ||
    crosses start end_ PpuTiming.kHblankFlagCycles ||
    (PpuTiming.kCyclesPerLine <=? end_).

(** ** Timer 0 around a load *)

(** [timers.enabled(0) && !timers.count_up(0) && timers.irq_enabled(0)]. *)
Definition timer0_counts_with_irq (timers : Timers.Timers) : exc bool :=
  en ← Timers.enabled 0 timers;
  if negb en then Ret false
  else
    cu ← Timers.count_up 0 timers;
    if (cu : bool) then Ret false else Timers.irq_enabled 0 timers.

Definition is_load (data_access : option DataAccessTimingProbe) : bool :=
  match data_access with Some p => pr_load p | None => false end.

(** [cycles_until_overflow > base_cycles && cycles_until_overflow < window]. *)
Definition overflow_within (cycles_until_overflow base_cycles window : Z) : bool :=
  (base_cycles <? cycles_until_overflow) && (cycles_until_overflow <? window).

(** The windows fitted to single reload values. *)
(* @ core_scheduler.cpp:615-641 adjust_slow_timer_load_pre_access_cycles *)
Definition reload_window_cycles (base_cycles cycles_until_overflow reload divisor : Z) : Z :=
  if (reload =? 0xFFEE) &&
     overflow_within cycles_until_overflow base_cycles
       (u32 (base_cycles + kSpacedSlowTimerNearReloadIoLoadExtraCycles))
  then u32 cycles_until_overflow
  else if (reload =? 0xFFED) &&
     overflow_within cycles_until_overflow base_cycles
       (u32 (base_cycles + kSpacedSlowTimerPostReloadIoLoadExtraCycles))
  then u32 cycles_until_overflow
  else if (reload =? 0xFFF0) && (256 <=? divisor) &&
     overflow_within cycles_until_overflow base_cycles
       (u32 (base_cycles + kSpacedSlowTimerAlignedReloadIoLoadExtraCycles))
  then u32 cycles_until_overflow
  else base_cycles.

(** [cycles_until_overflow > base_cycles && cycles_until_overflow <= window]. *)
Definition overflow_by (cycles_until_overflow base_cycles window : Z) : bool :=
  (base_cycles <? cycles_until_overflow) && (cycles_until_overflow <=? window).

(** The choice once the distance to the overflow is known. *)
(* @ core_scheduler.cpp:581-641 adjust_slow_timer_load_pre_access_cycles *)
Definition slow_timer_load_cycles (base_cycles cycles_until_overflow mature_cycles
    timer_io_gap_cycles reload divisor : Z)
    (spaced_timer_io_access tight_timer_io_access post_return_chain_active : bool) : Z :=
  if cycles_until_overflow <=? base_cycles then u32 (Z.max base_cycles mature_cycles)
  else if tight_timer_io_access && negb post_return_chain_active &&
          (mature_cycles <=? u32 (base_cycles + timer_io_gap_cycles))
  then u32 (Z.max base_cycles mature_cycles)
  else if tight_timer_io_access && post_return_chain_active &&
          overflow_by cycles_until_overflow base_cycles
            (u32 (base_cycles + kTightChainedSlowTimerIoLoadExtraCycles))
  then u32 cycles_until_overflow
  else if negb spaced_timer_io_access || negb post_return_chain_active then base_cycles
  else if overflow_by cycles_until_overflow base_cycles
            (u32 (base_cycles + kSpacedSlowTimerIoLoadExtraCycles))
  then u32 cycles_until_overflow
  else reload_window_cycles base_cycles cycles_until_overflow reload divisor.

(* @ core_scheduler.cpp:542-642 adjust_slow_timer_load_pre_access_cycles *)
Definition adjust_slow_timer_load_pre_access_cycles (base_cycles : Z)
    (data_access : option DataAccessTimingProbe) (timer_io_access spaced_timer_io_access : bool)
    (timer_io_gap_cycles : Z)
    (return_latency_pending post_return_chain_active timer0_irq_requested : bool)
    (timers : Timers.Timers) : exc Z :=
  if (base_cycles =? 0) || negb (is_load data_access) || negb timer_io_access ||
     negb return_latency_pending || timer0_irq_requested
  then Ret base_cycles
  else
    counting ← timer0_counts_with_irq timers;
    if negb counting then Ret base_cycles
    else
      let tight_timer_io_access :=
        timer_io_gap_cycles <=? kLooseTimerIoIrqDispatchGapCycles in
      if negb spaced_timer_io_access && negb tight_timer_io_access then Ret base_cycles
      else
        divisor ← Timers.prescaler_divisor 0 timers;
        if divisor <=? 1 then Ret base_cycles
        else
          cycles_until_tick ← Timers.cycles_until_next_prescaler_tick 0 timers;
          if cycles_until_tick =? 0 then Ret base_cycles
          else
            counter ← Timers.counter_at 0 timers;
            let ticks_to_overflow := u32 (0x10000 - counter) in
            let cycles_until_overflow :=
              u64 (cycles_until_tick + u64 (u32 (ticks_to_overflow - 1) * divisor)) in
            let post_event_latency :=
              if post_return_chain_active then kAutoIrqSlowTimerChainedPostHleReturnLatencyCycles
              else kAutoIrqPostHleReturnLatencyCycles in
            let mature_cycles := u64 (cycles_until_overflow + post_event_latency) in
            reload ← Timers.reload_at 0 timers;
            Ret (slow_timer_load_cycles base_cycles cycles_until_overflow mature_cycles
                   timer_io_gap_cycles reload divisor spaced_timer_io_access
                   tight_timer_io_access post_return_chain_active).

(* @ core_scheduler.cpp:644-655 should_replay_slow_timer_load_after_irq *)
Definition should_replay_slow_timer_load_after_irq
    (data_access : option DataAccessTimingProbe)
    (timer_io_access spaced_timer_io_access post_return_armed timer0_irq_requested : bool)
    (timers : Timers.Timers) : exc bool :=
  if negb (is_load data_access && timer_io_access && spaced_timer_io_access &&
           post_return_armed && timer0_irq_requested)
  then Ret false
  else
    counting ← timer0_counts_with_irq timers;
    if negb counting then Ret false
    else
      divisor ← Timers.prescaler_divisor 0 timers;
      reload ← Timers.reload_at 0 timers;
      Ret ((1 <? divisor) && (reload =? 0xFFED)).

(* @ core_scheduler.cpp:657-681 should_defer_slow_timer_load_irq_until_after_access *)
Definition should_defer_slow_timer_load_irq_until_after_access
    (data_access : option DataAccessTimingProbe)
    (timer_io_access spaced_timer_io_access : bool) (pre_access_cycles : Z)
    (return_latency_pending post_return_chain_active timer0_irq_requested : bool)
    (timers : Timers.Timers) : exc bool :=
  divisor ← Timers.prescaler_divisor 0 timers;
  last_phase ← Timers.last_enable_phase_at 0 timers;
  let enable_phase := Z.land last_phase 0x7 in
  if negb (is_load data_access) || negb timer_io_access || negb spaced_timer_io_access ||
     negb return_latency_pending || negb post_return_chain_active || negb timer0_irq_requested
  then Ret false
  else
    counting ← timer0_counts_with_irq timers;
    if negb counting || (enable_phase <? 2) || (4 <? enable_phase) then Ret false
    else
      reload ← Timers.reload_at 0 timers;
      if reload =? 0xFFEE
      then Ret ((divisor =? 256) || ((divisor =? 1024) && (5 <=? pre_access_cycles)))
      else Ret ((reload =? 0xFFED) && (divisor =? 256) && (7 <=? pre_access_cycles)).

(* @ core_scheduler.cpp:683-693 access_width_bytes *)
Definition access_width_bytes (width : AccessWidth.t) : Z :=
  match width with
  | AccessWidth.byte => 1
  | AccessWidth.halfword => 2
  | AccessWidth.word => 4
  end.

(* @ core_scheduler.cpp:695-700 non_word_game_pak_data_access *)
Definition non_word_game_pak_data_access (address : Z) (width : AccessWidth.t) : bool :=
  (in_region Region.game_pak_rom address || in_region Region.game_pak_save address) &&
  negb (bool_decide (width = AccessWidth.word)).

(* @ core_scheduler.cpp:702-705 game_pak_data_access *)
Definition game_pak_data_access (address : Z) : bool :=
  in_region Region.game_pak_rom address || in_region Region.game_pak_save address.

(* @ core_scheduler.cpp:707-716 game_pak_data_access_disturbs_prefetch *)
Definition game_pak_data_access_disturbs_prefetch (data_address fetch_address : Z) : bool :=
  if negb (game_pak_data_access data_address) then false
  else if data_address <? fetch_address then true
  else kGamePakInlineLiteralWindowBytes <? data_address - fetch_address.
