(* ===== verification/SchedulerProbe.v ===== *)
(** * The scheduler: results and instruction probes

    The result records of [include/gba/core/core_scheduler.hpp] and the helpers
    of [src/core/core_scheduler.cpp] that look at an instruction before it is
    executed: its first data access, the multiplication and pipeline-refill
    cycles of code in the cartridge, the prefetch buffer's bubbles.  Those that
    read registers run in the processor's monad; the pointer to the wait-state
    control is an [option]. *)

From S2P Require Import Prelude Interrupts BusTypes WaitState.
From S2P Require Timers PpuTiming MemoryBus.
From S2P Require Import Apu DmaTransfer StateMonad ArmTypes ArmDecode ThumbDecode ArmState.
From S2P Require Import SchedulerTiming.

(** ** Results *)

(* @ core_scheduler.hpp:24-30 CoreDeviceTickResult *)
Record CoreDeviceTickResult : Type := mkCoreDeviceTickResult {
  dt_cycles : Z;
  apu_frame_step : option ApuFrameStep;
  apu_timer_events : Z;
  last_direct_sound : DirectSoundTimerResult;
  triggered_dma : DmaRunResult
}.

#[export] Instance eta_CoreDeviceTickResult : Eta CoreDeviceTickResult := fun r =>
  mkCoreDeviceTickResult (dt_cycles r) (apu_frame_step r) (apu_timer_events r)
    (last_direct_sound r) (triggered_dma r).

(** The value-initialised results. *)
Definition no_dma : DmaRunResult := mkDmaRunResult 0 0 false 0.
Definition no_direct_sound : DirectSoundTimerResult :=
  mkDirectSoundTimerResult (mkDirectSoundSample false 0 false) (mkDirectSoundSample false 0 false).
Definition no_device_ticks : CoreDeviceTickResult :=
  mkCoreDeviceTickResult 0 None 0 no_direct_sound no_dma.

(* @ core_scheduler.hpp:39-46 CoreDataAccessTrace *)
Record CoreDataAccessTrace : Type := mkCoreDataAccessTrace {
  tr_address : Z;
  tr_width_bytes : Z;
  tr_load : bool;
  tr_timer_io : bool;
  tr_pre_access_cycles : Z;
  tr_timer_io_gap_cycles : Z
}.

#[export] Instance eta_CoreDataAccessTrace : Eta CoreDataAccessTrace := fun r =>
  mkCoreDataAccessTrace (tr_address r) (tr_width_bytes r) (tr_load r) (tr_timer_io r)
    (tr_pre_access_cycles r) (tr_timer_io_gap_cycles r).

(* @ core_scheduler.hpp:48-55 CoreSchedulerStepResult *)
Record CoreSchedulerStepResult : Type := mkCoreSchedulerStepResult {
  cpu_step : ArmStepResult;
  step_devices : CoreDeviceTickResult;
  immediate_dma : DmaRunResult;
  irq_serviced : bool;
  step_scheduler_cycles : Z;
  data_access : option CoreDataAccessTrace
}.

#[export] Instance eta_CoreSchedulerStepResult : Eta CoreSchedulerStepResult := fun r =>
  mkCoreSchedulerStepResult (cpu_step r) (step_devices r) (immediate_dma r) (irq_serviced r)
    (step_scheduler_cycles r) (data_access r).

#[export] Instance eta_ArmStepResult : Eta ArmStepResult := fun r =>
  mkArmStepResult (sr_status r) (sr_elapsed_cycles r) (sr_total_elapsed_cycles r)
    (sr_data_dependent r) (sr_memory_timing_applied r).

Module CoreRunStopReason.
(* @ core_scheduler.hpp:57-61 CoreRunStopReason *)
Inductive t : Type := max_steps | fetch_failed | unsupported_instruction.
End CoreRunStopReason.

Module CoreInstructionSet.
(* @ core_scheduler.hpp:63-66 CoreInstructionSet *)
Inductive t : Type := arm | thumb.
End CoreInstructionSet.

(* @ core_scheduler.hpp:68-83 CoreSchedulerFetchStepResult *)
Record CoreSchedulerFetchStepResult : Type := mkCoreSchedulerFetchStepResult {
  instruction_set : CoreInstructionSet.t;
  instruction_width_bytes : Z;
  fetch_address : Z;
  fetched_instruction : option Z;
  fetch_step : option CoreSchedulerStepResult;
  fetch_cycles : Z;
  fetch_failed : bool;
  pc_advanced : bool;
  fetch_timing_applied : bool;
  fetch_sequential : bool;
  fs_prefetch_enabled : bool;
  prefetch_hit : bool;
  fs_prefetch_buffer_halfwords : Z;
  boundary_forced_nonsequential : bool
}.

(* @ core_scheduler.hpp:85-95 CoreSchedulerRunResult *)
Record CoreSchedulerRunResult : Type := mkCoreSchedulerRunResult {
  requested_steps : Z;
  attempted_steps : Z;
  executed_steps : Z;
  skipped_steps : Z;
  unsupported_steps : Z;
  fetch_failures : Z;
  stop_reason : CoreRunStopReason.t;
  final_pc : Z;
  run_scheduler_cycles : Z
}.
#[export] Instance eta_CoreSchedulerRunResult : Eta CoreSchedulerRunResult := fun r =>
  mkCoreSchedulerRunResult (requested_steps r) (attempted_steps r) (executed_steps r)
    (skipped_steps r) (unsupported_steps r) (fetch_failures r) (stop_reason r) (final_pc r)
    (run_scheduler_cycles r).

(** ** The first data access of an instruction *)

(* @ core_scheduler.cpp:718-731 thumb_probe_access_width *)
Definition thumb_probe_access_width (kind : ThumbMemoryTransferKind.t) : AccessWidth.t :=
  match kind with
  | ThumbMemoryTransferKind.word => AccessWidth.word
  | ThumbMemoryTransferKind.halfword
  | ThumbMemoryTransferKind.signed_halfword => AccessWidth.halfword
  | ThumbMemoryTransferKind.byte
  | ThumbMemoryTransferKind.signed_byte => AccessWidth.byte
  end.

(* @ core_scheduler.cpp:733-737 arm_visible_register_value *)
Definition arm_visible_register_value (index : Z) : CPU Z :=
  value ← register_value index;
  mret (if index =? kPc then u32 (value + 8) else value).

(** [condition_passed_for_cpu(cpu, condition)]. *)
Definition passed (condition : ArmCondition.t) : CPU bool :=
  gets (fun cpu => condition_passed_for_cpu cpu condition).

(* @ core_scheduler.cpp:741-757 first_arm_data_access_for_timing *)
Definition block_data_access (instruction : Z) : CPU (option DataAccessTimingProbe) :=
  decoded ← lift (decode_block_data_transfer instruction);
  ok ← passed (bd_condition decoded);
  if negb ok then mret None
  else if bd_load decoded && bd_write_back decoded &&
          register_list_contains (bd_register_list decoded) (bd_rn decoded)
  then mret None
  else
    let register_count := count_registers (bd_register_list decoded) in
    base ← register_value (bd_rn decoded);
    mret (Some (mkDataAccessTimingProbe
                  (block_transfer_first_address base register_count (bd_pre_index decoded)
                     (bd_up decoded)) AccessWidth.word (bd_load decoded))).

(** The address of a halfword or single transfer. *)
(* @ core_scheduler.cpp:780-786 first_arm_data_access_for_timing *)
Definition transfer_probe (rn offset : Z) (up pre_index : bool) (width : AccessWidth.t)
    (load : bool) : CPU (option DataAccessTimingProbe) :=
  base ← arm_visible_register_value rn;
  let offset_address := offset_transfer_address base offset up in
  mret (Some (mkDataAccessTimingProbe (if pre_index then offset_address else base) width load)).

(* @ core_scheduler.cpp:759-787 first_arm_data_access_for_timing *)
Definition halfword_data_access (instruction : Z) : CPU (option DataAccessTimingProbe) :=
  decoded ←
    (if can_decode_halfword_data_transfer_register instruction then
       rm_value ← arm_visible_register_value (Z.land instruction 0xF);
       lift (decode_halfword_data_transfer_register instruction rm_value)
     else lift (decode_halfword_data_transfer_immediate instruction));
  ok ← passed (hw_condition decoded);
  if negb ok then mret None
  else if negb (supported_transfer_addressing (hw_pre_index decoded) (hw_write_back decoded))
  then mret None
  else
    let needs_write_back :=
      transfer_needs_write_back (hw_pre_index decoded) (hw_write_back decoded) in
    if (needs_write_back && hw_load decoded && (hw_rn decoded =? hw_rd decoded)) ||
       (negb (hw_load decoded) && (signed_transfer decoded || negb (hw_halfword decoded)))
    then mret None
    else
      transfer_probe (hw_rn decoded) (hw_offset decoded) (hw_up decoded) (hw_pre_index decoded)
        (if hw_halfword decoded then AccessWidth.halfword else AccessWidth.byte)
        (hw_load decoded).

(* @ core_scheduler.cpp:789-816 first_arm_data_access_for_timing *)
Definition single_data_access (instruction : Z) : CPU (option DataAccessTimingProbe) :=
  decoded ←
    (if can_decode_single_data_transfer_register instruction then
       rm_value ← arm_visible_register_value (Z.land instruction 0xF);
       carry_in ← gets carry_;
       lift (decode_single_data_transfer_register instruction rm_value carry_in)
     else lift (decode_single_data_transfer_immediate instruction));
  ok ← passed (sd_condition decoded);
  if negb ok then mret None
  else if negb (supported_transfer_addressing (sd_pre_index decoded) (sd_write_back decoded))
  then mret None
  else
    let needs_write_back :=
      transfer_needs_write_back (sd_pre_index decoded) (sd_write_back decoded) in
    if needs_write_back && sd_load decoded && (sd_rn decoded =? sd_rd decoded) then mret None
    else
      transfer_probe (sd_rn decoded) (sd_offset decoded) (sd_up decoded) (sd_pre_index decoded)
        (if sd_byte decoded then AccessWidth.byte else AccessWidth.word) (sd_load decoded).

(* @ core_scheduler.cpp:739-819 first_arm_data_access_for_timing *)
Definition first_arm_data_access_for_timing (instruction : Z)
    : CPU (option DataAccessTimingProbe) :=
  if can_decode_block_data_transfer instruction then block_data_access instruction
  else if can_decode_halfword_data_transfer_immediate instruction ||
          can_decode_halfword_data_transfer_register instruction
  then halfword_data_access instruction
  else if can_decode_single_data_transfer_immediate instruction ||
          can_decode_single_data_transfer_register instruction
  then single_data_access instruction
  else mret None.

(* @ core_scheduler.cpp:821-836 thumb_data_timing_probe_candidate *)
Definition thumb_data_timing_probe_candidate (instruction : Z) : bool :=
  match Z.land (Z.shiftr instruction 12) 0xF with
  | 0x4 => Z.land (Z.shiftr instruction 11) 0x1F =? 0x9
  | 0x5 | 0x6 | 0x7 | 0x8 | 0x9 => true
  | 0xC => negb (u8 (Z.land instruction 0xFF) =? 0)
  | _ => false
  end.

(* @ core_scheduler.cpp:838-870 first_thumb_data_access_for_timing *)
Definition first_thumb_data_access_for_timing (instruction : Z)
    : CPU (option DataAccessTimingProbe) :=
  if negb (thumb_data_timing_probe_candidate instruction) then mret None
  else if can_decode_thumb_block_transfer instruction then
    decoded ← lift (decode_thumb_block_transfer instruction);
    base ← register_value (tbt_rb decoded);
    mret (Some (mkDataAccessTimingProbe base AccessWidth.word (tbt_load decoded)))
  else if negb (can_decode_thumb_memory_transfer instruction) then mret None
  else
    decoded ← lift (decode_thumb_memory_transfer instruction);
    if negb (tm_load decoded) &&
       (bool_decide (tm_kind decoded = ThumbMemoryTransferKind.signed_byte) ||
        bool_decide (tm_kind decoded = ThumbMemoryTransferKind.signed_halfword))
    then mret None
    else
      base ←
        (if tm_rb decoded =? kPc
         then pc ← register_value kPc; mret (align_word (u32 (pc + 4)))
         else register_value (tm_rb decoded));
      offset ←
        (if offset_is_register decoded then register_value (u8 (tm_offset decoded))
         else mret (tm_offset decoded));
      mret (Some (mkDataAccessTimingProbe (u32 (base + offset))
                    (thumb_probe_access_width (tm_kind decoded)) (tm_load decoded))).

(* @ core_scheduler.cpp:872-887 merge_device_ticks *)
Definition merge_device_ticks (target source : CoreDeviceTickResult) : CoreDeviceTickResult :=
  let t := triggered_dma target in
  let s := triggered_dma source in
  mkCoreDeviceTickResult
    (u32 (dt_cycles target + dt_cycles source))
    (match apu_frame_step source with Some step => Some step | None => apu_frame_step target end)
    (u32 (apu_timer_events target + apu_timer_events source))
    (last_direct_sound source)
    (mkDmaRunResult
       (u8 (Z.min 255 (u32 (channels_executed t + channels_executed s))))
       (u32 (units_transferred t + units_transferred s))
       (unsupported_request t || unsupported_request s)
       (u32 (bus_cycles t + bus_cycles s))).

(** ** The prefetch buffer *)

(* @ core_scheduler.cpp:889-891 game_pak_rom_address *)
Definition game_pak_rom_address (address : Z) : bool :=
  (0x08000000 <=? address) && (address <=? 0x0DFFFFFF).

(** [waitcnt != nullptr && waitcnt->prefetch_enabled()]. *)
Definition prefetching (waitcnt : option WaitStateControl) : bool :=
  match waitcnt with Some w => prefetch_enabled w | None => false end.

Definition step_executed (step : CoreSchedulerStepResult) : bool :=
  bool_decide (sr_status (cpu_step step) = ExecuteStatus.executed).

(** The address is in the work RAM. *)
Definition in_work_ram (address : Z) : bool :=
  in_region Region.ewram address || in_region Region.iwram address.

(* @ core_scheduler.cpp:893-907 should_charge_prefetch_execute_bubble *)
Definition should_charge_prefetch_execute_bubble (fetch_address : Z)
    (waitcnt : option WaitStateControl) (step : CoreSchedulerStepResult)
    (pc_advanced prefetch_hit : bool) (fetch_width_bytes remaining_prefetch_halfwords : Z) : bool :=
  if negb (prefetching waitcnt) || negb pc_advanced || negb (step_executed step) ||
     bool_decide (is_Some (data_access step))
  then false
  else if (fetch_width_bytes =? 2) && (negb prefetch_hit || (remaining_prefetch_halfwords =? 0))
  then false
  else game_pak_rom_address fetch_address.

(* @ core_scheduler.cpp:909-925 should_overlap_thumb_internal_data_load *)
Definition should_overlap_thumb_internal_data_load (fetch_address : Z)
    (waitcnt : option WaitStateControl) (instruction fetch_cycles : Z) : CPU bool :=
  if negb (prefetching waitcnt) || (fetch_cycles =? 0) ||
     negb (in_region Region.game_pak_rom fetch_address)
  then mret false
  else
    access ← first_thumb_data_access_for_timing instruction;
    mret (match access with
          | Some p => pr_load p && in_work_ram (pr_address p)
          | None => false
          end).

(* @ core_scheduler.cpp:927-941 should_suppress_next_thumb_prefetch_execute_bubble *)
Definition should_suppress_next_thumb_prefetch_execute_bubble (fetch_address : Z)
    (waitcnt : option WaitStateControl) (step : CoreSchedulerStepResult)
    (pc_advanced prefetch_enabled : bool) (fetch_cycles : Z) : bool :=
  match data_access step with
  | Some access =>
      prefetching waitcnt && prefetch_enabled && (fetch_cycles =? 0) && pc_advanced &&
      step_executed step && tr_load access && in_region Region.game_pak_rom fetch_address &&
      in_work_ram (tr_address access)
  | None => false
  end.

(** ** Multiplications fetched from the cartridge *)

(** [(value & mask) == 0 || (value & mask) == mask]. *)
Definition uniform (value mask : Z) : bool :=
  (Z.land value mask =? 0) || (Z.land value mask =? mask).

(* @ core_scheduler.cpp:943-955 scheduler_signed_multiply_iterations *)
Definition scheduler_signed_multiply_iterations (value : Z) : Z :=
  if uniform value 0xFFFFFF00 then 1
  else if uniform value 0xFFFF0000 then 2
  else if uniform value 0xFF000000 then 3
  else 4.

(* @ core_scheduler.cpp:957-969 scheduler_unsigned_multiply_iterations *)
Definition scheduler_unsigned_multiply_iterations (value : Z) : Z :=
  if Z.land value 0xFFFFFF00 =? 0 then 1
  else if Z.land value 0xFFFF0000 =? 0 then 2
  else if Z.land value 0xFF000000 =? 0 then 3
  else 4.

(* @ core_scheduler.cpp:971-976 nonprefetch_multiply_rom_recovery_cycles *)
Definition nonprefetch_multiply_rom_recovery_cycles (timing : MemoryAccessTiming) : Z :=
  let first_access_recovery :=
    if 2 <? nonsequential timing then nonsequential timing - 2 else 0 in
  u32 (first_access_recovery + (if sequential timing =? 1 then 1 else 0)).

(* @ core_scheduler.cpp:978-995 prefetched_arm_multiply_cycles *)
Definition prefetched_arm_multiply_cycles (iterations : Z) (long_multiply accumulate : bool)
    (timing : MemoryAccessTiming) : Z :=
  if negb (sequential timing =? 1) then
    if long_multiply && accumulate && (iterations =? 4) then 2 else 1
  else if negb long_multiply then
    if accumulate then 1 else if iterations =? 4 then 2 else 1
  else if accumulate then iterations
  else if 1 <? iterations then iterations - 1 else 1.

(** [waitcnt == nullptr || classify(fetch_address).region != game_pak_rom]. *)
Definition rom_waitcnt (fetch_address : Z) (waitcnt : option WaitStateControl)
    : option WaitStateControl :=
  if in_region Region.game_pak_rom fetch_address then waitcnt else None.

(* @ core_scheduler.cpp:997-1040 arm_rom_multiply_elapsed_override *)
Definition arm_rom_multiply_elapsed_override (instruction fetch_address : Z)
    (waitcnt : option WaitStateControl) : CPU (option ArmElapsedCycleEstimate) :=
  match rom_waitcnt fetch_address waitcnt with
  | None => mret None
  | Some waitcnt =>
      let timing := timing_waitcnt fetch_address AccessWidth.word waitcnt in
      if can_decode_multiply_long instruction then
        decoded ← lift (decode_multiply_long instruction);
        multiplier ← register_value (ml_rs decoded);
        let iterations :=
          if signed_multiply decoded then scheduler_signed_multiply_iterations multiplier
          else scheduler_unsigned_multiply_iterations multiplier in
        let base_cycles := u32 (iterations + (if ml_accumulate decoded then 3 else 2)) in
        let cycles :=
          if prefetch_enabled waitcnt
          then prefetched_arm_multiply_cycles iterations true (ml_accumulate decoded) timing
          else u32 (base_cycles + nonprefetch_multiply_rom_recovery_cycles timing) in
        mret (Some (mkArmElapsedCycleEstimate cycles true false))
      else if negb (can_decode_multiply instruction) then mret None
      else
        decoded ← lift (decode_multiply instruction);
        multiplier ← register_value (mu_rs decoded);
        let iterations := scheduler_signed_multiply_iterations multiplier in
        let base_cycles := u32 (iterations + (if mu_accumulate decoded then 2 else 1)) in
        let cycles :=
          if prefetch_enabled waitcnt
          then prefetched_arm_multiply_cycles iterations false (mu_accumulate decoded) timing
          else u32 (base_cycles + nonprefetch_multiply_rom_recovery_cycles timing) in
        mret (Some (mkArmElapsedCycleEstimate cycles true false))
  end.

(* @ core_scheduler.cpp:1042-1069 thumb_rom_multiply_elapsed_override *)
Definition thumb_rom_multiply_elapsed_override (instruction fetch_address : Z)
    (waitcnt : option WaitStateControl) : CPU (option ArmElapsedCycleEstimate) :=
  match rom_waitcnt fetch_address waitcnt with
  | None => mret None
  | Some waitcnt =>
      if negb (can_decode_thumb_alu instruction) then mret None
      else
        decoded ← lift (decode_thumb_alu instruction);
        if negb (bool_decide (ta_opcode decoded = ThumbAluOpcode.mul)) then mret None
        else
          let timing := timing_waitcnt fetch_address AccessWidth.halfword waitcnt in
          multiplier ← register_value (ta_rd decoded);
          let iterations := scheduler_signed_multiply_iterations multiplier in
          let base_cycles := u32 (iterations + 1) in
          let cycles :=
            if prefetch_enabled waitcnt
            then if sequential timing =? 1 then iterations
                 else if 1 <? iterations then iterations - 1 else 1
            else u32 (base_cycles + nonprefetch_multiply_rom_recovery_cycles timing) in
          mret (Some (mkArmElapsedCycleEstimate cycles true false))
  end.

(** ** Pipeline refills *)

(* @ core_scheduler.cpp:1071-1074 arm_instruction_refills_pipeline *)
Definition arm_instruction_refills_pipeline (instruction : Z) : bool :=
  can_decode_branch instruction || can_decode_branch_exchange instruction.

(* @ core_scheduler.cpp:1076-1088 thumb_instruction_refills_pipeline *)
Definition thumb_instruction_refills_pipeline (instruction : Z) : exc bool :=
  if can_decode_thumb_unconditional_branch instruction ||
     can_decode_thumb_conditional_branch instruction ||
     can_decode_thumb_long_branch_link instruction
  then Ret true
  else if negb (can_decode_thumb_high_register instruction) then Ret false
  else
    decoded ← decode_thumb_high_register instruction;
    Ret (match hr_opcode decoded with ThumbHighRegisterOpcode.bx => true | _ => false end).

(* @ core_scheduler.cpp:1090-1110 arm_branch_refill_cycles *)
Definition arm_branch_refill_cycles (target_address : Z) (waitcnt : option WaitStateControl) : Z :=
  if in_region Region.iwram target_address then 0
  else if in_region Region.ewram target_address then 10
  else
    match rom_waitcnt target_address waitcnt with
    | None => 0
    | Some waitcnt =>
        let timing := timing_waitcnt target_address AccessWidth.word waitcnt in
        let fast_sequential := sequential timing <=? 1 in
        if fast_sequential then if prefetch_enabled waitcnt then 7 else 6
        else if prefetch_enabled waitcnt then 11 else 10
    end.

(* @ core_scheduler.cpp:1112-1128 thumb_branch_refill_cycles *)
Definition thumb_branch_refill_cycles (target_address : Z) (waitcnt : option WaitStateControl)
    : Z :=
  if in_region Region.iwram target_address then 2
  else if in_region Region.ewram target_address then 6
  else
    match rom_waitcnt target_address waitcnt with
    | None => 0
    | Some waitcnt =>
        let timing := timing_waitcnt target_address AccessWidth.halfword waitcnt in
        if sequential timing <=? 1 then 4 else 6
    end.

(** A prefetched jump backwards in the cartridge costs more. *)
(* @ core_scheduler.cpp:1144-1154 arm_branch_exchange_refill_cycles *)
Definition backward_rom_penalty (fetch_address target_address : Z)
    (waitcnt : option WaitStateControl) (width : AccessWidth.t) : Z :=
  match rom_waitcnt fetch_address (rom_waitcnt target_address waitcnt) with
  | Some waitcnt =>
      if prefetch_enabled waitcnt && (target_address <? fetch_address) then
        let timing := timing_waitcnt target_address width waitcnt in
        if sequential timing <=? 1 then if 4 <=? nonsequential timing then 4 else 3
        else if 4 <=? nonsequential timing then 3 else 2
      else 0
  | None => 0
  end.

(* @ core_scheduler.cpp:1130-1156 arm_branch_exchange_refill_cycles *)
Definition arm_branch_exchange_refill_cycles (fetch_address target_address : Z)
    (waitcnt : option WaitStateControl) : Z :=
  let cycles :=
    u32 (arm_branch_refill_cycles target_address waitcnt +
         backward_rom_penalty fetch_address target_address waitcnt AccessWidth.word) in
  match (if in_region Region.iwram fetch_address then rom_waitcnt target_address waitcnt
         else None) with
  | Some waitcnt =>
      if negb (prefetch_enabled waitcnt)
      then nonsequential (timing_waitcnt target_address AccessWidth.word waitcnt)
      else cycles
  | None => cycles
  end.

(* @ core_scheduler.cpp:1158-1181 thumb_branch_exchange_refill_cycles *)
Definition thumb_branch_exchange_refill_cycles (fetch_address target_address : Z)
    (waitcnt : option WaitStateControl) : Z :=
  if in_region Region.game_pak_rom fetch_address && in_region Region.ewram target_address &&
     negb (prefetching waitcnt)
  then 1
  else
    u32 (thumb_branch_refill_cycles target_address waitcnt +
         backward_rom_penalty fetch_address target_address waitcnt AccessWidth.halfword).

(* @ core_scheduler.cpp:1183-1196 branch_exchange_seeds_fast_prefetch *)
Definition branch_exchange_seeds_fast_prefetch (fetch_address target_address : Z)
    (waitcnt : option WaitStateControl) : bool :=
  match rom_waitcnt fetch_address (rom_waitcnt target_address waitcnt) with
  | Some waitcnt =>
      if negb (prefetch_enabled waitcnt) || (fetch_address <=? target_address) then false
      else sequential (timing_waitcnt target_address AccessWidth.halfword waitcnt) <=? 1
  | None => false
  end.

(* @ core_scheduler.cpp:1198-1208 charge_pipeline_refill *)
Definition charge_pipeline_refill (step : CoreSchedulerStepResult)
    (refill_devices : CoreDeviceTickResult) (refill_cycles : Z) : CoreSchedulerStepResult :=
  if refill_cycles =? 0 then step
  else
    step <| step_devices ::= fun d => merge_device_ticks d refill_devices |>
         <| cpu_step ::= fun c =>
              c <| sr_elapsed_cycles ::= fun e => u32 (e + refill_cycles) |>
                <| sr_total_elapsed_cycles ::= fun e => u64 (e + refill_cycles) |> |>
         <| step_scheduler_cycles ::= fun e =>
              u64 (e + u32 (refill_cycles + bus_cycles (triggered_dma refill_devices))) |>.
