(* ===== verification/SchedulerState.v ===== *)
(** * The scheduler: state

    The state [CoreScheduler] of [include/gba/core/core_scheduler.hpp] keeps of
    its own, its constructors, snapshots and hash
    ([src/core/core_scheduler.cpp]).  The components it refers to are the
    threaded [Core]: the processor, and the bus with the devices.  The pointers
    [waitcnt_] and [io_] refer to the devices' wait-state control and IO
    registers, so only their presence is state; [bios_] is the controller it
    points to, whose mode the scheduler only reads.  The scanline observer is
    outside the core: [observed_scanlines_] is the trace of its calls, with the
    bus and the devices it then sees.  The debug trace sink is not modelled. *)

From S2P Require Import Prelude StateHash StateMonad Bios.
From S2P Require Import Interrupts.
From S2P Require PpuTiming MemoryBus IoRegisters.

(* @ core_scheduler.hpp:97-102 HleIrqFrame *)
Record HleIrqFrame : Type := mkHleIrqFrame {
  return_lr : Z;
  saved_registers : option (list Z);
  long_timer_return_pending : bool;
  slow_timer0_return_pending : bool
}.

(* @ core_scheduler.hpp:104-107 HleWorkFrame *)
Record HleWorkFrame : Type := mkHleWorkFrame {
  remaining_cycles : Z;
  owner_irq_depth : Z
}.

(* @ core_scheduler.hpp:109-140 CoreSchedulerState *)
Record CoreSchedulerState : Type := mkCoreSchedulerState {
  st_scheduler_cycles : Z;
  st_halted : bool;
  st_last_fetch_address : option Z;
  st_last_fetch_width_bytes : option Z;
  st_last_fetch_window : option Z;
  st_prefetch_buffer_halfwords : Z;
  st_suppress_next_game_pak_prefetch : bool;
  st_recover_next_game_pak_data_fetch : bool;
  st_suppress_next_thumb_prefetch_execute_bubble : bool;
  st_previous_thumb_internal_load : bool;
  st_last_waitcnt_control : option Z;
  st_hle_irq_return_lr : option Z;
  st_hle_irq_saved_registers : option (list Z);
  st_hle_irq_reentry_dispatch_pending : bool;
  st_hle_irq_return_latency_pending : bool;
  st_hle_irq_post_return_latency_armed : bool;
  st_hle_irq_post_return_dispatch_pending : bool;
  st_hle_irq_chained_post_return_dispatch_pending : bool;
  st_hle_irq_chained_post_return_data_dispatch_pending : bool;
  st_hle_irq_chained_post_return_spaced_data_dispatch_pending : bool;
  st_hle_irq_long_timer_chained_return_pending : bool;
  st_hle_irq_slow_timer0_return_pending : bool;
  st_hle_irq_post_return_chain_active : bool;
  st_hle_irq_chained_spaced_data_service_count : Z;
  st_auto_irq_line_high : bool;
  st_auto_irq_latency_cycles : Z;
  st_timer_io_access_gap_cycles : Z;
  st_thumb_misfetch_recovery_count : Z;
  st_hle_irq_outer_frames : list HleIrqFrame;
  st_hle_work_frames : list HleWorkFrame
}.

(** A call of the scanline observer: its argument and what it can read. *)
Record ScanlineCall : Type := mkScanlineCall {
  call_scanline : Z;
  call_machine : MemoryBus.MemoryBus * IoRegisters.Devices
}.

(* @ core_scheduler.hpp:191-232 CoreScheduler *)
Record CoreScheduler : Type := mkCoreScheduler {
  bios_ : option BiosController;
  io_ : bool;
  waitcnt_ : bool;
  scheduler_cycles_ : Z;
  halted_ : bool;
  last_fetch_address_ : option Z;
  last_fetch_width_bytes_ : option Z;
  last_fetch_window_ : option Z;
  prefetch_buffer_halfwords_ : Z;
  suppress_next_game_pak_prefetch_ : bool;
  recover_next_game_pak_data_fetch_ : bool;
  suppress_next_thumb_prefetch_execute_bubble_ : bool;
  previous_thumb_internal_load_ : bool;
  last_waitcnt_control_ : option Z;
  hle_irq_return_lr_ : option Z;
  hle_irq_saved_registers_ : option (list Z);
  hle_irq_reentry_dispatch_pending_ : bool;
  hle_irq_return_latency_pending_ : bool;
  hle_irq_post_return_latency_armed_ : bool;
  hle_irq_post_return_dispatch_pending_ : bool;
  hle_irq_chained_post_return_dispatch_pending_ : bool;
  hle_irq_chained_post_return_data_dispatch_pending_ : bool;
  hle_irq_chained_post_return_spaced_data_dispatch_pending_ : bool;
  hle_irq_long_timer_chained_return_pending_ : bool;
  hle_irq_slow_timer0_return_pending_ : bool;
  hle_irq_post_return_chain_active_ : bool;
  hle_irq_chained_spaced_data_service_count_ : Z;
  auto_irq_line_high_ : bool;
  auto_irq_latency_cycles_ : Z;
  timer_io_access_gap_cycles_ : Z;
  thumb_misfetch_recovery_count_ : Z;
  hle_irq_outer_frames_ : list HleIrqFrame;
  hle_work_frames_ : list HleWorkFrame;
  scanline_observer_ : bool;
  observed_scanlines_ : list ScanlineCall
}.

#[export] Instance eta_CoreScheduler : Eta CoreScheduler := fun s =>
  mkCoreScheduler (bios_ s) (io_ s) (waitcnt_ s) (scheduler_cycles_ s) (halted_ s)
    (last_fetch_address_ s) (last_fetch_width_bytes_ s) (last_fetch_window_ s)
    (prefetch_buffer_halfwords_ s) (suppress_next_game_pak_prefetch_ s)
    (recover_next_game_pak_data_fetch_ s) (suppress_next_thumb_prefetch_execute_bubble_ s)
    (previous_thumb_internal_load_ s) (last_waitcnt_control_ s) (hle_irq_return_lr_ s)
    (hle_irq_saved_registers_ s) (hle_irq_reentry_dispatch_pending_ s)
    (hle_irq_return_latency_pending_ s) (hle_irq_post_return_latency_armed_ s)
    (hle_irq_post_return_dispatch_pending_ s) (hle_irq_chained_post_return_dispatch_pending_ s)
    (hle_irq_chained_post_return_data_dispatch_pending_ s)
    (hle_irq_chained_post_return_spaced_data_dispatch_pending_ s)
    (hle_irq_long_timer_chained_return_pending_ s) (hle_irq_slow_timer0_return_pending_ s)
    (hle_irq_post_return_chain_active_ s) (hle_irq_chained_spaced_data_service_count_ s)
    (auto_irq_line_high_ s) (auto_irq_latency_cycles_ s) (timer_io_access_gap_cycles_ s)
    (thumb_misfetch_recovery_count_ s) (hle_irq_outer_frames_ s) (hle_work_frames_ s)
    (scanline_observer_ s) (observed_scanlines_ s).

(** The members the three constructors initialise alike. *)
(* @ core_scheduler.cpp:1298-1329 CoreScheduler::CoreScheduler *)
Definition initial_scheduler (bios : option BiosController) (waitcnt : bool) : CoreScheduler :=
  mkCoreScheduler bios false waitcnt 0 false None None None 0 false false false false None None
    None false false false false false false false false false false 0 false 0 0 0 [] [] false
    [].

(* @ core_scheduler.cpp:1212-1249 CoreScheduler::CoreScheduler *)
Definition construct : CoreScheduler := initial_scheduler None false.

(* @ core_scheduler.cpp:1251-1289 CoreScheduler::CoreScheduler *)
Definition construct_waitcnt : CoreScheduler := initial_scheduler None true.

(* @ core_scheduler.cpp:1291-1329 CoreScheduler::CoreScheduler *)
Definition construct_bios (bios : BiosController) : CoreScheduler :=
  initial_scheduler (Some bios) true.

(* @ core_scheduler.cpp:2451-2455 CoreScheduler::reset_auto_irq_latency *)
Definition reset_auto_irq_latency (s : CoreScheduler) : CoreScheduler :=
  s <| auto_irq_line_high_ := false |> <| auto_irq_latency_cycles_ := 0 |>
    <| hle_irq_post_return_latency_armed_ := false |>.

(* @ core_scheduler.cpp:2416-2423 CoreScheduler::reset_fetch_timing_sequence *)
Definition reset_fetch_timing_sequence (s : CoreScheduler) : CoreScheduler :=
  s <| last_fetch_address_ := None |> <| last_fetch_width_bytes_ := None |>
    <| last_fetch_window_ := None |> <| prefetch_buffer_halfwords_ := 0 |>
    <| suppress_next_game_pak_prefetch_ := false |>
    <| recover_next_game_pak_data_fetch_ := false |>.

(* @ core_scheduler.cpp:1368-1386 CoreScheduler::save_state *)
Definition save_state (s : CoreScheduler) : CoreSchedulerState :=
  mkCoreSchedulerState (scheduler_cycles_ s) (halted_ s) (last_fetch_address_ s)
    (last_fetch_width_bytes_ s) (last_fetch_window_ s) (prefetch_buffer_halfwords_ s)
    (suppress_next_game_pak_prefetch_ s) (recover_next_game_pak_data_fetch_ s)
    (suppress_next_thumb_prefetch_execute_bubble_ s) (previous_thumb_internal_load_ s)
    (last_waitcnt_control_ s) (hle_irq_return_lr_ s) (hle_irq_saved_registers_ s)
    (hle_irq_reentry_dispatch_pending_ s) (hle_irq_return_latency_pending_ s)
    (hle_irq_post_return_latency_armed_ s) (hle_irq_post_return_dispatch_pending_ s)
    (hle_irq_chained_post_return_dispatch_pending_ s)
    (hle_irq_chained_post_return_data_dispatch_pending_ s)
    (hle_irq_chained_post_return_spaced_data_dispatch_pending_ s)
    (hle_irq_long_timer_chained_return_pending_ s) (hle_irq_slow_timer0_return_pending_ s)
    (hle_irq_post_return_chain_active_ s) (hle_irq_chained_spaced_data_service_count_ s)
    (auto_irq_line_high_ s) (auto_irq_latency_cycles_ s) (timer_io_access_gap_cycles_ s)
    (thumb_misfetch_recovery_count_ s) (hle_irq_outer_frames_ s) (hle_work_frames_ s).

(* @ core_scheduler.cpp:1388-1426 CoreScheduler::load_state *)
Definition load_state (state : CoreSchedulerState) (s : CoreScheduler) : CoreScheduler :=
  mkCoreScheduler (bios_ s) (io_ s) (waitcnt_ s) (st_scheduler_cycles state) (st_halted state)
    (st_last_fetch_address state) (st_last_fetch_width_bytes state) (st_last_fetch_window state)
    (st_prefetch_buffer_halfwords state) (st_suppress_next_game_pak_prefetch state)
    (st_recover_next_game_pak_data_fetch state)
    (st_suppress_next_thumb_prefetch_execute_bubble state)
    (st_previous_thumb_internal_load state) (st_last_waitcnt_control state)
    (st_hle_irq_return_lr state) (st_hle_irq_saved_registers state)
    (st_hle_irq_reentry_dispatch_pending state) (st_hle_irq_return_latency_pending state)
    (st_hle_irq_post_return_latency_armed state) (st_hle_irq_post_return_dispatch_pending state)
    (st_hle_irq_chained_post_return_dispatch_pending state)
    (st_hle_irq_chained_post_return_data_dispatch_pending state)
    (st_hle_irq_chained_post_return_spaced_data_dispatch_pending state)
    (st_hle_irq_long_timer_chained_return_pending state)
    (st_hle_irq_slow_timer0_return_pending state) (st_hle_irq_post_return_chain_active state)
    (st_hle_irq_chained_spaced_data_service_count state) (st_auto_irq_line_high state)
    (st_auto_irq_latency_cycles state) (st_timer_io_access_gap_cycles state)
    (st_thumb_misfetch_recovery_count state) (st_hle_irq_outer_frames state)
    (st_hle_work_frames state) (scanline_observer_ s) (observed_scanlines_ s).

(* @ core_scheduler.cpp:1339-1366 CoreScheduler::reset_scheduler_cycles *)
Definition reset_scheduler_cycles (s : CoreScheduler) : CoreScheduler :=
  let s := s <| scheduler_cycles_ := 0 |> <| halted_ := false |>
             <| hle_irq_return_lr_ := None |> <| hle_irq_saved_registers_ := None |>
             <| hle_irq_outer_frames_ := [] |> <| hle_work_frames_ := [] |>
             <| hle_irq_reentry_dispatch_pending_ := false |>
             <| hle_irq_return_latency_pending_ := false |>
             <| hle_irq_post_return_latency_armed_ := false |>
             <| hle_irq_post_return_dispatch_pending_ := false |>
             <| hle_irq_chained_post_return_dispatch_pending_ := false |>
             <| hle_irq_chained_post_return_data_dispatch_pending_ := false |>
             <| hle_irq_chained_post_return_spaced_data_dispatch_pending_ := false |>
             <| hle_irq_long_timer_chained_return_pending_ := false |>
             <| hle_irq_slow_timer0_return_pending_ := false |>
             <| hle_irq_post_return_chain_active_ := false |>
             <| hle_irq_chained_spaced_data_service_count_ := 0 |> in
  let s := reset_fetch_timing_sequence (reset_auto_irq_latency s) in
  s <| last_waitcnt_control_ := None |> <| suppress_next_game_pak_prefetch_ := false |>
    <| recover_next_game_pak_data_fetch_ := false |>
    <| suppress_next_thumb_prefetch_execute_bubble_ := false |>
    <| previous_thumb_internal_load_ := false |>
    <| timer_io_access_gap_cycles_ := 0 |> <| thumb_misfetch_recovery_count_ := 0 |>.

(** ** Hashing *)

(** [add_bool(o.has_value()); if (o.has_value()) add(o.value());]. *)
Definition add_option {A} (add : A -> Z -> Z) (o : option A) (h : Z) : Z :=
  match o with Some a => add a (add_bool true h) | None => add_bool false h end.

(** The lambda [add_irq_registers]: the legacy form hashed only the low byte of
    each register. *)
(* @ core_scheduler.cpp:1438-1445 CoreScheduler::state_hash_impl *)
Definition add_irq_registers (legacy_irq_registers : bool) (registers : list Z) (h : Z) : Z :=
  if legacy_irq_registers then add_bytes registers h
  else fold_left (fun h r => add_u32 r h) registers (add_u64 (Z.of_nat (length registers)) h).

(* @ core_scheduler.cpp:1496-1502 CoreScheduler::state_hash_impl *)
Definition add_irq_frame (legacy_irq_registers : bool) (h : Z) (frame : HleIrqFrame) : Z :=
  let h := add_u32 (return_lr frame) h in
  let h := add_option (add_irq_registers legacy_irq_registers) (saved_registers frame) h in
  let h := add_bool (long_timer_return_pending frame) h in
  add_bool (slow_timer0_return_pending frame) h.

(* @ core_scheduler.cpp:1508-1511 CoreScheduler::state_hash_impl *)
Definition add_work_frame (h : Z) (frame : HleWorkFrame) : Z :=
  add_u32 (owner_irq_depth frame) (add_u64 (remaining_cycles frame) h).

(* @ core_scheduler.cpp:1436-1514 CoreScheduler::state_hash_impl *)
Definition state_hash_impl (legacy_irq_registers : bool) (s : CoreScheduler) : Z :=
  let h := add_u64 (scheduler_cycles_ s) kOffsetBasis in
  let h := add_bool (halted_ s) h in
  let h := add_option add_u32 (last_fetch_address_ s) h in
  let h := add_option add_u8 (last_fetch_width_bytes_ s) h in
  let h := add_option add_u8 (last_fetch_window_ s) h in
  let h := add_u8 (prefetch_buffer_halfwords_ s) h in
  let h := add_bool (suppress_next_game_pak_prefetch_ s) h in
  let h := add_bool (recover_next_game_pak_data_fetch_ s) h in
  let h := add_bool (suppress_next_thumb_prefetch_execute_bubble_ s) h in
  let h := add_bool (previous_thumb_internal_load_ s) h in
  let h := add_option add_u16 (last_waitcnt_control_ s) h in
  let h := add_option add_u32 (hle_irq_return_lr_ s) h in
  let h := add_option (add_irq_registers legacy_irq_registers) (hle_irq_saved_registers_ s) h in
  let h := add_bool (hle_irq_reentry_dispatch_pending_ s) h in
  let h := add_bool (hle_irq_return_latency_pending_ s) h in
  let h := add_bool (hle_irq_post_return_latency_armed_ s) h in
  let h := add_bool (hle_irq_post_return_dispatch_pending_ s) h in
  let h := add_bool (hle_irq_chained_post_return_dispatch_pending_ s) h in
  let h := add_bool (hle_irq_chained_post_return_data_dispatch_pending_ s) h in
  let h := add_bool (hle_irq_chained_post_return_spaced_data_dispatch_pending_ s) h in
  let h := add_bool (hle_irq_long_timer_chained_return_pending_ s) h in
  let h := add_bool (hle_irq_slow_timer0_return_pending_ s) h in
  let h := add_bool (hle_irq_post_return_chain_active_ s) h in
  let h := add_u8 (hle_irq_chained_spaced_data_service_count_ s) h in
  let h := add_bool (auto_irq_line_high_ s) h in
  let h := add_u8 (auto_irq_latency_cycles_ s) h in
  let h := add_u32 (timer_io_access_gap_cycles_ s) h in
  let h := add_u32 (thumb_misfetch_recovery_count_ s) h in
  let h :=
    if bool_decide (hle_irq_outer_frames_ s = []) then h
    else fold_left (add_irq_frame legacy_irq_registers) (hle_irq_outer_frames_ s)
           (add_u64 (Z.of_nat (length (hle_irq_outer_frames_ s))) (add_u32 0x4952514E h)) in
  if bool_decide (hle_work_frames_ s = []) then h
  else fold_left add_work_frame (hle_work_frames_ s)
         (add_u64 (Z.of_nat (length (hle_work_frames_ s))) (add_u32 0x484C4557 h)).

(* @ core_scheduler.cpp:1428-1430 CoreScheduler::state_hash *)
Definition state_hash (s : CoreScheduler) : Z := state_hash_impl false s.

(* @ core_scheduler.cpp:1432-1434 CoreScheduler::legacy_irq_state_hash *)
Definition legacy_irq_state_hash (s : CoreScheduler) : Z := state_hash_impl true s.

(** ** Halting *)

(* @ core_scheduler.cpp:1520-1522 CoreScheduler::halt_until_interrupt *)
Definition halt_until_interrupt (s : CoreScheduler) : CoreScheduler := s <| halted_ := true |>.

(* @ core_scheduler.cpp:1524-1530 CoreScheduler::wake_from_halt_if_irq_pending *)
Definition wake_from_halt_if_irq_pending (interrupts : InterruptController) (s : CoreScheduler)
    : bool * CoreScheduler :=
  if negb (halted_ s) || negb (irq_line_active interrupts) then (false, s)
  else (true, s <| halted_ := false |>).

(* @ core_scheduler.cpp:1532-1534 CoreScheduler::set_io_registers *)
Definition set_io_registers (s : CoreScheduler) : CoreScheduler := s <| io_ := true |>.

(** The observer is a callback; its presence is what the scheduler reads. *)
(* @ core_scheduler.cpp:1540-1544 CoreScheduler::set_scanline_observer *)
Definition set_scanline_observer (observer : bool) (s : CoreScheduler) : bool * CoreScheduler :=
  (scanline_observer_ s, s <| scanline_observer_ := observer |>).
