(* ===== verification/SchedulerDevices.v ===== *)
(** * The scheduler: devices and interrupts

    [CoreScheduler::advance_devices], the automatic IRQ latency and
    [service_pending_irq] of [src/core/core_scheduler.cpp].  A scheduler
    operation runs on [Core]: the scheduler's own state, the processor, and the
    bus with the devices. *)

From S2P Require ArmExecute.
From S2P Require Import Prelude StateMonad StateHash Interrupts BusTypes WaitState.
From S2P Require Timers PpuTiming MemoryBus.
From S2P Require Import Apu Dma IoRegisters DmaTransfer Bios.
From S2P Require Import ArmTypes ArmState ArmMemory.
From S2P Require Import SchedulerTiming SchedulerProbe SchedulerState.

(** ** The core *)

Definition Core : Type := CoreScheduler * Sys (D := Devices).
Definition SCH (A : Type) : Type := ST Core A.

(** The components of the core. *)
Definition sched (c : Core) : CoreScheduler := c.1.
Definition cpu_of (c : Core) : Arm7tdmi := c.2.1.
Definition machine_of (c : Core) : Machine := c.2.2.
Definition bus_of (c : Core) : MemoryBus.MemoryBus := c.2.2.1.
Definition devices_of (c : Core) : Devices := c.2.2.2.

(** [waitcnt_], as an option. *)
Definition waitcnt_ptr (c : Core) : option WaitStateControl :=
  if waitcnt_ (sched c) then Some (waitcnt (devices_of c)) else None.

Definition set_sched (f : CoreScheduler -> CoreScheduler) : SCH unit :=
  modify (fun c => (f c.1, c.2)).

Definition on_sys {A} (m : ST (Sys (D := Devices)) A) : SCH A := fun c =>
  match m c.2 with Ret (a, s) => Ret (a, (c.1, s)) | Throw => Throw end.

Definition on_cpu {A} (m : CPU A) : SCH A := fun c =>
  match m c.2.1 with Ret (a, s) => Ret (a, (c.1, (s, c.2.2))) | Throw => Throw end.

Definition on_machine {A} (m : Machine -> exc (A * Machine)) : SCH A := fun c =>
  match m c.2.2 with Ret (a, s) => Ret (a, (c.1, (c.2.1, s))) | Throw => Throw end.

Definition on_devices {A} (m : Devices -> exc (A * Devices)) : SCH A :=
  on_machine (fun s =>
    match m s.2 with Ret (a, d) => Ret (a, (s.1, d)) | Throw => Throw end).

(** The devices' components. *)
Definition tick_timers (cycles : Z) : SCH Timers.TickResult :=
  on_devices (fun d =>
    '(result, ic, ts) ← Timers.tick cycles (interrupts d) (timers_ d);
    Ret (result, d <| interrupts := ic |> <| timers_ := ts |>)).

Definition tick_ppu (cycles : Z) : SCH PpuTiming.PpuTickEvents :=
  on_devices (fun d =>
    match PpuTiming.tick cycles (interrupts d) (ppu d) with
    | Some (p, ic, events) => Ret (events, d <| interrupts := ic |> <| ppu := p |>)
    | None => Throw
    end).

Definition on_apu {A} (m : Apu -> exc (A * Apu)) : SCH A :=
  on_devices (fun d => '(a, p) ← m (apu d); Ret (a, d <| apu := p |>)).

Definition overflow_count (index : nat) : SCH Z :=
  c ← gets devices_of; lift (Timers.overflow_count_at index (timers_ c)).

Definition io_tick (cycles : Z) : SCH unit :=
  on_devices (fun d => d ← IoRegisters.tick cycles d; Ret (tt, d)).

(** DMA transfers, with the scheduler's [waitcnt_]. *)
Definition dma_trigger (trigger : DmaTrigger.t) : SCH DmaRunResult :=
  with_waitcnt ← gets (fun c => waitcnt_ (sched c));
  on_machine (run_trigger trigger with_waitcnt).

Definition dma_sound_fifo (trigger : DmaTrigger.t) : SCH DmaRunResult :=
  with_waitcnt ← gets (fun c => waitcnt_ (sched c));
  on_machine (run_sound_fifo trigger with_waitcnt).

(* @ core_scheduler.cpp:1730-1732 CoreScheduler::run_immediate_dma *)
Definition run_immediate_dma : SCH DmaRunResult :=
  with_waitcnt ← gets (fun c => waitcnt_ (sched c));
  on_machine (run_immediate with_waitcnt).

(** ** The automatic IRQ latency *)

(** [interrupts_.irq_line_active() && !cpu_.irq_disabled()]. *)
Definition irq_line_to_cpu (c : Core) : bool :=
  irq_line_active (interrupts (devices_of c)) && negb (irq_disabled_ (cpu_of c)).

(* @ core_scheduler.cpp:2425-2444 CoreScheduler::update_auto_irq_latency *)
Definition update_auto_irq_latency (elapsed_cycles : Z) : SCH unit :=
  line_active ← gets irq_line_to_cpu;
  set_sched (fun s =>
    if negb line_active then reset_auto_irq_latency s
    else if negb (auto_irq_line_high_ s) then
      s <| auto_irq_line_high_ := true |> <| auto_irq_latency_cycles_ := kAutoIrqLatencyCycles |>
    else if elapsed_cycles <? auto_irq_latency_cycles_ s then
      s <| auto_irq_latency_cycles_ ::= fun l => u8 (l - elapsed_cycles) |>
    else s <| auto_irq_latency_cycles_ := 0 |>).

(* @ core_scheduler.cpp:2446-2449 CoreScheduler::auto_irq_ready *)
Definition auto_irq_ready (c : Core) : bool :=
  irq_line_to_cpu c && auto_irq_line_high_ (sched c) &&
  (auto_irq_latency_cycles_ (sched c) =? 0).

(* @ core_scheduler.cpp:2457-2459 CoreScheduler::bios_hle_enabled *)
Definition bios_hle_enabled (s : CoreScheduler) : bool :=
  match bios_ s with
  | Some bios => bool_decide (Bios.mode_ bios = BiosExecutionMode.hle)
  | None => false
  end.

(** ** Advancing the devices *)

(** The local variables of [advance_devices]. *)
Record Advance : Type := mkAdvance {
  ad_first_irq_cycle : option Z;
  ad_apu_frame_step : option ApuFrameStep;
  ad_apu_timer_events : Z;
  ad_last_direct_sound : DirectSoundTimerResult;
  ad_total_dma : DmaRunResult;
  ad_cpu_remaining : Z;
  ad_dma_remaining : Z;
  ad_elapsed : Z;
  ad_dma_chain_budget : Z;
  ad_dma_chain_generated : Z;
  ad_allow_new_dma : bool
}.

#[export] Instance eta_Advance : Eta Advance := fun a =>
  mkAdvance (ad_first_irq_cycle a) (ad_apu_frame_step a) (ad_apu_timer_events a)
    (ad_last_direct_sound a) (ad_total_dma a) (ad_cpu_remaining a) (ad_dma_remaining a)
    (ad_elapsed a) (ad_dma_chain_budget a) (ad_dma_chain_generated a) (ad_allow_new_dma a).

(* @ core_scheduler.cpp:1553-1563 CoreScheduler::advance_devices *)
Definition initial_advance (cycles : Z) : Advance :=
  mkAdvance None None 0 no_direct_sound no_dma cycles 0 0 0 0 true.

(** The lambda [accumulate_dma]. *)
(* @ core_scheduler.cpp:1564-1573 CoreScheduler::advance_devices *)
Definition accumulate_dma (event_result : DmaRunResult) (a : Advance) : Advance :=
  let t := ad_total_dma a in
  a <| ad_total_dma :=
         mkDmaRunResult
           (u8 (Z.min 255 (u32 (channels_executed t + channels_executed event_result))))
           (u32 (units_transferred t + units_transferred event_result))
           (unsupported_request t || unsupported_request event_result)
           (u32 (bus_cycles t + bus_cycles event_result)) |>
    <| ad_dma_remaining ::= fun r => u32 (r + bus_cycles event_result) |>.

(** A refill requested by a FIFO: a sound DMA when new DMA is allowed. *)
(* @ core_scheduler.cpp:1578-1585 CoreScheduler::advance_devices *)
Definition refill_fifo (request : bool) (trigger : DmaTrigger.t) (a : Advance) : SCH Advance :=
  if ad_allow_new_dma a && request then
    result ← dma_sound_fifo trigger; mret (accumulate_dma result a)
  else mret a.

(** The lambda [consume_direct_sound_timer]: the loop over the overflows. *)
(* @ core_scheduler.cpp:1574-1590 CoreScheduler::advance_devices *)
Fixpoint consume_direct_sound_timer (timer_index : Z) (overflow_delta : nat) (a : Advance)
    : SCH Advance :=
  match overflow_delta with
  | O => mret a
  | S overflow_delta' =>
      sample ← on_apu (timer_overflow timer_index);
      let a := a <| ad_last_direct_sound := sample |> in
      a ← refill_fifo (refill_request (fifo_a sample)) DmaTrigger.fifo_a a;
      a ← refill_fifo (refill_request (fifo_b sample)) DmaTrigger.fifo_b a;
      let a := a <| ad_apu_timer_events ::= fun n =>
                      if n =? 0xFFFFFFFF then n else u32 (n + 1) |> in
      consume_direct_sound_timer timer_index overflow_delta' a
  end.

(** [for (event = 0; event < entries; ++event) accumulate_dma(run_trigger(...))]. *)
(* @ core_scheduler.cpp:1637-1645 CoreScheduler::advance_devices *)
Fixpoint run_triggers (trigger : DmaTrigger.t) (entries : nat) (a : Advance) : SCH Advance :=
  match entries with
  | O => mret a
  | S entries' =>
      result ← dma_trigger trigger;
      run_triggers trigger entries' (accumulate_dma result a)
  end.

(** The next edge of the display on the current line. *)
(* @ core_scheduler.cpp:1597-1601 CoreScheduler::advance_devices *)
Definition next_boundary (line_cycle : Z) : Z :=
  if line_cycle <? PpuTiming.kVisibleCycles then PpuTiming.kVisibleCycles
  else if line_cycle <? PpuTiming.kHblankFlagCycles then PpuTiming.kHblankFlagCycles
  else PpuTiming.kCyclesPerLine.

(** The scanline observer is called at the visible end of a visible line. *)
(* @ core_scheduler.cpp:1622-1626 CoreScheduler::advance_devices *)
Definition observe_scanline : SCH unit :=
  c ← gets (fun c => c);
  let p := ppu (devices_of c) in
  set_sched (fun s =>
    if (PpuTiming.line_cycle p =? PpuTiming.kVisibleCycles) &&
       (PpuTiming.vcount p <? PpuTiming.kVisibleLines) && scanline_observer_ s
    then s <| observed_scanlines_ ::= fun l =>
                l ++ [mkScanlineCall (PpuTiming.vcount p) (machine_of c)] |>
    else s).

(** The DMA and sound events of an interval. *)
(* @ core_scheduler.cpp:1632-1656 CoreScheduler::advance_devices *)
Definition interval_events (dma_interval : bool) (events : PpuTiming.PpuTickEvents)
    (timer0_delta timer1_delta : Z) (a : Advance) : SCH Advance :=
  if (PpuTiming.hblank_entries events =? 0) && (PpuTiming.vblank_entries events =? 0) &&
     (timer0_delta =? 0) && (timer1_delta =? 0)
  then mret a
  else
    let a := a <| ad_allow_new_dma :=
                    negb dma_interval || (ad_dma_chain_generated a <? ad_dma_chain_budget a) |> in
    let dma_cycles_before := bus_cycles (ad_total_dma a) in
    a ← (if ad_allow_new_dma a then
           a ← run_triggers DmaTrigger.hblank (Z.to_nat (PpuTiming.hblank_entries events)) a;
           run_triggers DmaTrigger.vblank (Z.to_nat (PpuTiming.vblank_entries events)) a
         else mret a);
    a ← consume_direct_sound_timer 0 (Z.to_nat timer0_delta) a;
    a ← consume_direct_sound_timer 1 (Z.to_nat timer1_delta) a;
    let generated_dma := u32 (bus_cycles (ad_total_dma a) - dma_cycles_before) in
    mret (if negb dma_interval
          then a <| ad_dma_chain_budget := u64 (generated_dma * kMaxDmaChainExpansion) |>
          else a <| ad_dma_chain_generated ::= fun g => u64 (g + generated_dma) |>).

(** The length of the next interval and the state that charges it. *)
(* @ core_scheduler.cpp:1596-1610 CoreScheduler::advance_devices *)
Definition charge_interval (line_cycle : Z) (a : Advance) : bool * Z * Advance :=
  let dma_interval := negb (ad_dma_remaining a =? 0) in
  let boundary := next_boundary line_cycle in
  let interval :=
    Z.min (if dma_interval then ad_dma_remaining a else ad_cpu_remaining a)
      (u32 (boundary - line_cycle)) in
  (dma_interval, interval,
   if dma_interval then a <| ad_dma_remaining ::= fun r => r - interval |>
   else a <| ad_cpu_remaining ::= fun r => r - interval |>
          <| ad_dma_chain_budget := 0 |> <| ad_dma_chain_generated := 0 |>).

(** The body of the [while] loop. *)
(* @ core_scheduler.cpp:1596-1660 CoreScheduler::advance_devices *)
Definition advance_interval (a : Advance) : SCH Advance :=
  line_cycle ← gets (fun c => PpuTiming.line_cycle (ppu (devices_of c)));
  let '(dma_interval, interval, a) := charge_interval line_cycle a in
  timer0_before ← overflow_count 0;
  timer1_before ← overflow_count 1;
  interval_timers ← tick_timers interval;
  let a :=
    match Timers.first_irq_cycle interval_timers, ad_first_irq_cycle a with
    | Some c, None => a <| ad_first_irq_cycle := Some (u64 (ad_elapsed a + c)) |>
    | _, _ => a
    end in
  has_io ← gets (fun c => io_ (sched c));
  when has_io (io_tick interval);;
  events ← tick_ppu interval;
  observe_scanline;;
  timer0_after ← overflow_count 0;
  timer1_after ← overflow_count 1;
  a ← interval_events dma_interval events (u64 (timer0_after - timer0_before))
        (u64 (timer1_after - timer1_before)) a;
  step ← on_apu (Apu.tick interval);
  let a := match step with Some _ => a <| ad_apu_frame_step := step |> | None => a end in
  mret (a <| ad_elapsed ::= fun e => u32 (e + interval) |>).

(** The [while] loop.  A CPU interval lowers the remaining CPU cycles; a DMA
    interval that generates new transfers raises [dma_chain_generated] towards
    the budget, and any other one lowers the remaining DMA cycles; these are
    below 2^32, 2^36 and 2^32, so that 2^102 iterations are enough. *)
Definition kAdvanceFuel : nat := 102.

(* @ core_scheduler.cpp:1595-1661 CoreScheduler::advance_devices *)
Definition advance_loop (a : Advance) : SCH Advance := fun c =>
  loop kAdvanceFuel (fun st =>
    if (ad_cpu_remaining st.1 =? 0) && (ad_dma_remaining st.1 =? 0) then Ret (inr st)
    else st' ← advance_interval st.1 st.2; Ret (inl st')) (a, c).

(** The latency of a timer interrupt that rose during the interval. *)
(* @ core_scheduler.cpp:1678-1713 CoreScheduler::advance_devices *)
Definition timer_irq_latency (d : Devices) (s : CoreScheduler) : exc Z :=
  let post_hle_return_irq := hle_irq_return_latency_pending_ s in
  let chained_post_hle_return_irq :=
    post_hle_return_irq && hle_irq_post_return_chain_active_ s in
  let timer0_requested := requested InterruptSource.timer0 (interrupts d) in
  reload ← Timers.reload_at 0 (timers_ d);
  divisor ← Timers.prescaler_divisor 0 (timers_ d);
  enable_phase ← Timers.last_enable_phase_at 0 (timers_ d);
  let long_timer_chained_post_hle_return_irq :=
    chained_post_hle_return_irq && timer0_requested && (reload <=? 0xFF80) in
  let slow_timer0_irq := timer0_requested && (1 <? divisor) in
  let slow_timer_chained_post_hle_return_irq :=
    chained_post_hle_return_irq && slow_timer0_irq in
  let slow_timer_normal_irq := negb post_hle_return_irq && slow_timer0_irq in
  let phase184_second_spaced_data_irq :=
    slow_timer_chained_post_hle_return_irq && (reload =? 0xFFEE) && (divisor =? 1024) &&
    (enable_phase =? 184) && (hle_irq_chained_spaced_data_service_count_ s =? 1) in
  Ret (if long_timer_chained_post_hle_return_irq
       then kAutoIrqLongTimerChainedPostHleReturnLatencyCycles
       else if phase184_second_spaced_data_irq
       then kAutoIrqPhase184SecondSpacedDataLatencyCycles
       else if slow_timer_chained_post_hle_return_irq
       then kAutoIrqSlowTimerChainedPostHleReturnLatencyCycles
       else if chained_post_hle_return_irq then kAutoIrqChainedPostHleReturnLatencyCycles
       else if post_hle_return_irq then kAutoIrqPostHleReturnLatencyCycles
       else if slow_timer_normal_irq then kAutoIrqSlowTimerLatencyCycles
       else kAutoIrqLatencyCycles).

(** The automatic IRQ latency after the loop. *)
(* @ core_scheduler.cpp:1671-1726 CoreScheduler::advance_devices *)
Definition settle_irq_latency (irq_line_active_before : bool) (first_irq_cycle : option Z)
    (total_visible_cycles : Z) : SCH unit :=
  irq_line_active_after ← gets irq_line_to_cpu;
  match first_irq_cycle with
  | Some first =>
      if irq_line_active_before || negb irq_line_active_after
      then update_auto_irq_latency total_visible_cycles
      else
        c ← gets (fun c => c);
        latency ← lift (timer_irq_latency (devices_of c) (sched c));
        set_sched (fun s =>
          s <| auto_irq_line_high_ := true |> <| auto_irq_latency_cycles_ := latency |>
            <| hle_irq_post_return_latency_armed_ := hle_irq_return_latency_pending_ s |>
            <| hle_irq_return_latency_pending_ := false |>);;
        let event_cycle := u32 (Z.min total_visible_cycles first) in
        let cycles_after_event := u32 (total_visible_cycles - event_cycle) in
        when (negb (cycles_after_event =? 0)) (update_auto_irq_latency cycles_after_event)
  | None => update_auto_irq_latency total_visible_cycles
  end.

(** Saturating addition of 32-bit cycle counts. *)
(* @ core_scheduler.cpp:1664-1670 CoreScheduler::advance_devices *)
Definition saturating_add32 (a b : Z) : Z :=
  if 0xFFFFFFFF - a <? b then 0xFFFFFFFF else u32 (a + b).

(* @ core_scheduler.cpp:1546-1728 CoreScheduler::advance_devices *)
Definition advance_devices (cycles : Z) : SCH CoreDeviceTickResult :=
  if cycles =? 0 then mret no_device_ticks
  else
    irq_line_active_before ← gets irq_line_to_cpu;
    a ← advance_loop (initial_advance cycles);
    let total_visible_cycles := u32 (cycles + bus_cycles (ad_total_dma a)) in
    set_sched (fun s =>
      s <| scheduler_cycles_ ::= fun n => u64 (n + total_visible_cycles) |>
        <| timer_io_access_gap_cycles_ ::= fun g =>
             if total_visible_cycles =? 0 then g else saturating_add32 g total_visible_cycles |>);;
    settle_irq_latency irq_line_active_before (ad_first_irq_cycle a) total_visible_cycles;;
    mret (mkCoreDeviceTickResult cycles (ad_apu_frame_step a) (ad_apu_timer_events a)
            (ad_last_direct_sound a) (ad_total_dma a)).

(** ** Servicing interrupts *)

Definition write32 (address value : Z) : SCH bool :=
  on_sys (ArmMemory.write32 io_callbacks address value).

(** The flags a serviced interrupt leaves. *)
(* @ core_scheduler.cpp:1746-1777 CoreScheduler::service_pending_irq *)
Definition mark_serviced (from_data_access from_spaced_timer_io_access : bool)
    (s : CoreScheduler) : CoreScheduler :=
  let s :=
    if hle_irq_post_return_latency_armed_ s then
      let chain := hle_irq_post_return_chain_active_ s in
      let data := chain && from_data_access in
      let spaced := data && from_spaced_timer_io_access in
      s <| hle_irq_post_return_dispatch_pending_ := true |>
        <| hle_irq_chained_post_return_dispatch_pending_ := chain |>
        <| hle_irq_chained_post_return_data_dispatch_pending_ := data |>
        <| hle_irq_chained_post_return_spaced_data_dispatch_pending_ := spaced |>
        <| hle_irq_post_return_chain_active_ := true |>
        <| hle_irq_chained_spaced_data_service_count_ ::= fun n =>
             if spaced then u8 (Z.min (n + 1) 0xFF) else 0 |>
    else
      s <| hle_irq_chained_post_return_dispatch_pending_ := false |>
        <| hle_irq_chained_post_return_data_dispatch_pending_ := false |>
        <| hle_irq_chained_post_return_spaced_data_dispatch_pending_ := false |>
        <| hle_irq_post_return_chain_active_ := false |>
        <| hle_irq_chained_spaced_data_service_count_ := 0 |> in
  s <| hle_irq_post_return_latency_armed_ := false |>.

(** The word below the handler pointer keeps the link for the emulated BIOS. *)
(* @ core_scheduler.cpp:1737-1745 CoreScheduler::service_pending_irq *)
Definition record_irq_link : SCH unit :=
  irq_link ← on_cpu (register_value kLinkRegister);
  when (negb (irq_link =? kIrqReturnSentinelPc))
    (set_sched (fun s =>
       match hle_irq_return_lr_ s with
       | None => s <| hle_irq_return_lr_ := Some irq_link |>
       | Some _ => s
       end);;
     _ ← write32 0x03007FF8 irq_link; mret tt).

(* @ core_scheduler.cpp:1734-1779 CoreScheduler::service_pending_irq *)
Definition service_pending_irq (from_data_access from_spaced_timer_io_access : bool) : SCH bool :=
  ic ← gets (fun c => interrupts (devices_of c));
  serviced ← on_cpu (ArmExecute.service_pending_irq ic);
  hle ← gets (fun c => bios_hle_enabled (sched c));
  when (serviced && hle) record_irq_link;;
  when serviced (set_sched (mark_serviced from_data_access from_spaced_timer_io_access));;
  mret serviced.
