(* ===== verification/SchedulerDevicesSpec.v ===== *)
(** * The scheduler: advancing the devices

    [advance_devices] always ends: the loop's intervals are positive, and the
    transfers a DMA interval starts are paid from a budget fixed by the cycles
    the processor asked for.  It keeps the invariants of the bus and the
    devices, leaves the processor alone, and charges exactly the cycles it was
    asked for and those of the transfers it ran. *)

From S2P Require Import Prelude StateMonad StateHash Interrupts BusTypes WaitState.
From S2P Require Timers PpuTiming MemoryBus TimersSpec PpuTimingSpec ApuSpec.
From S2P Require Import Apu Dma IoRegisters DmaTransfer Bios.
From S2P Require Import ArmTypes ArmState ArmMemory BusInterface.
From S2P Require Import ApuTyped IoRegistersSpec DmaTransferSpec.
From S2P Require Import SchedulerTiming SchedulerProbe SchedulerState SchedulerDevices.

(** ** Typed results *)

#[export] Instance typed_dma : Typed DmaRunResult := result_ok.
#[export] Instance typed_frame_step : Typed ApuFrameStep := fun _ => True.
#[export] Instance typed_direct_sound : Typed DirectSoundTimerResult := fun _ => True.
#[export] Instance typed_timer_ticks : Typed Timers.TickResult := fun _ => True.
#[export] Instance typed_ppu_events : Typed PpuTiming.PpuTickEvents := fun _ => True.
#[export] Instance typed_ticks : Typed CoreDeviceTickResult := fun r =>
  fits 32 (dt_cycles r) /\ fits 32 (apu_timer_events r) /\ result_ok (triggered_dma r).

Lemma no_dma_typed : result_ok no_dma.
Proof. by vm_compute. Qed.

Lemma no_ticks_typed : typed no_device_ticks.
Proof. by vm_compute. Qed.

(** ** Operations on the devices

    For an invariant of the core that only asks the machine to be well formed:
    the devices' operations are safe for it. *)

(** What the scanline observer is shown: a visible line of a well-formed
    machine. *)
Definition scanline_call_ok (k : ScanlineCall) : Prop :=
  machine_ok (call_machine k) /\ 0 <= call_scanline k < PpuTiming.kVisibleLines.

Class MachineInvariant (I : Core -> Prop) : Prop := {
  inv_machine c : I c -> machine_ok (machine_of c);
  inv_put c m : I c -> machine_ok m -> I (c.1, (c.2.1, m));
  inv_observe c k : I c -> scanline_call_ok k ->
    I (c.1 <| observed_scanlines_ ::= fun l => l ++ [k] |>, c.2)
}.

Section Devices.
Context (I : Core -> Prop) {inv : MachineInvariant I}.

Lemma inv_devices c : I c -> devices_wf (devices_of c).
Proof using inv. intros H. by destruct (inv_machine c H). Qed.

Lemma safe_on_machine {A} {HA : Typed A} (f : Machine -> exc (A * Machine)) :
  (forall m, machine_ok m -> ensures (fun r => typed r.1 /\ machine_ok r.2) (f m)) ->
  safe I (on_machine f).
Proof using inv.
  intros Hf c Hc. destruct (Hf _ (inv_machine c Hc)) as ([a m] & E & Ha & Hm).
  unfold on_machine. unfold machine_of in E. rewrite E. eexists _, _. split; [done|].
  split; [done|]. by apply inv_put.
Qed.

Lemma safe_on_devices {A} {HA : Typed A} (f : Devices -> exc (A * Devices)) :
  (forall d, devices_wf d -> ensures (fun r => typed r.1 /\ devices_wf r.2) (f d)) ->
  safe I (on_devices f).
Proof using inv.
  intros Hf. apply safe_on_machine. intros m [Hb Hd].
  destruct (Hf _ Hd) as ([a d] & E & Ha & Hd'). rewrite E. by apply ensures_ret.
Qed.

Lemma safe_tick_timers n : 0 < n -> safe I (tick_timers n).
Proof using inv.
  intros Hn. apply safe_on_devices. intros d Hd.
  destruct (tick_timers_safe n (interrupts d) (timers_ d) (dv_timers d Hd) Hn)
    as ([[r ic] ts] & E & H).
  destruct (H (dv_interrupts d Hd)) as [Hic Hts]. rewrite E. apply ensures_ret. split; [done|].
  by apply wf_timers; [apply wf_interrupts|].
Qed.

Lemma safe_tick_ppu n : fits 32 n -> safe I (tick_ppu n).
Proof using inv.
  intros Hn. apply safe_on_devices. intros d Hd.
  destruct (tick_ppu_safe n (interrupts d) (ppu d) (dv_ppu d Hd) Hn (dv_interrupts d Hd))
    as (p & ic & ev & E & Hp & Hic & Hdc & Hl).
  rewrite E. apply ensures_ret. split; [done|].
  apply wf_ppu; [by apply wf_interrupts|done| |].
  - unfold PpuTimingSpec.lcd_ok. rewrite Hl. apply Hd.
  - rewrite Hdc. apply Hd.
Qed.

Lemma safe_on_apu {A} {HA : Typed A} (f : Apu -> exc (A * Apu)) :
  (forall p, ApuSpec.wf p -> apu_typed p ->
    ensures (fun r => typed r.1 /\ ApuSpec.wf r.2 /\ apu_typed r.2) (f p)) ->
  safe I (on_apu f).
Proof using inv.
  intros Hf. apply safe_on_devices. intros d Hd.
  destruct (Hf _ (dv_apu d Hd) (dv_apu_typed d Hd)) as ([a p] & E & Ha & Hp & Ht).
  rewrite E. apply ensures_ret. split; [done|]. by apply wf_apu.
Qed.

Lemma safe_apu_tick n : ApuSpec.tick_fits n -> safe I (on_apu (Apu.tick n)).
Proof using inv.
  intros Hn. apply safe_on_apu. intros p Hp Ht.
  destruct (ApuSpec.run_op_wf (ApuSpec.op_tick n) p Hp Hn) as (p1 & E & Hp1).
  cbn [ApuSpec.run_op] in E. destruct (Apu.tick n p) as [[r p']|] eqn:E'; [|done].
  injection E as ->. apply ensures_ret. split; [by intros ? ?|]. split; [done|].
  by eapply tick_typed.
Qed.

Lemma safe_apu_overflow i : safe I (on_apu (Apu.timer_overflow i)).
Proof using inv.
  apply safe_on_apu. intros p Hp Ht.
  destruct (ApuSpec.timer_overflow_ret i p Hp) as (r & p' & E & Hp'). rewrite E.
  apply ensures_ret. split; [done|]. split; [done|]. by eapply timer_overflow_typed.
Qed.

Lemma safe_io_tick n : 0 <= n -> safe I (io_tick n).
Proof using inv.
  intros Hn. apply safe_on_devices. intros d Hd.
  destruct (io_tick_wf n d Hd Hn) as (d' & E & Hd'). rewrite E. by apply ensures_ret.
Qed.

(** A property of a timer. *)
Lemma timer_field {A} (f : Timers.Timer -> A) i d : devices_wf d -> (i < Timers.kTimerCount)%nat ->
  ensures (fun a => exists t, TimersSpec.regs_ok t /\ a = f t)
    (t ← Timers.checked_timer i (timers_ d); Ret (f t)).
Proof using Type.
  intros Hd Hi. destruct (timers_safe_lookup i _ (dv_timers d Hd) Hi) as (t & -> & Hr & _).
  apply ensures_ret. by exists t.
Qed.

Lemma total_overflow_count i : (i < Timers.kTimerCount)%nat ->
  total I (overflow_count i) (fun _ c => I c).
Proof using inv.
  intros Hi. unfold overflow_count. apply (total_bind _ _ _ (fun d c => devices_wf d /\ I c)).
  { apply total_gets. intros c Hc. split; [by apply inv_devices|done]. }
  intros d. apply total_lift. intros c [Hd Hc].
  destruct (timer_field Timers.overflow_count i d Hd Hi) as (n & E & _).
  exists n. by split.
Qed.

Lemma safe_dma_trigger t : safe I (dma_trigger t).
Proof using inv.
  unfold dma_trigger. eapply (safe_bind I (HA := typed_bool)); [by apply safe_gets|].
  intros w _. apply safe_on_machine. intros m. apply run_trigger_wf.
Qed.

Lemma safe_dma_sound_fifo t : safe I (dma_sound_fifo t).
Proof using inv.
  unfold dma_sound_fifo. eapply (safe_bind I (HA := typed_bool)); [by apply safe_gets|].
  intros w _. apply safe_on_machine. intros m. apply run_sound_fifo_wf.
Qed.

Lemma safe_run_immediate : safe I run_immediate_dma.
Proof using inv. exact (safe_dma_trigger DmaTrigger.immediate). Qed.

Lemma safe_observe : safe I observe_scanline.
Proof using inv.
  unfold observe_scanline. intros [s x] Hc. cbv zeta.
  eexists tt, _. split; [reflexivity|]. split; [exact Logic.I|]. cbn [fst snd].
  case_match eqn:E; [|done]. apply (inv_observe (s, x)); [done|]. split.
  { exact (inv_machine _ Hc). }
  destruct (dv_ppu _ (inv_devices _ Hc)) as (Hv & _).
  apply andb_true_iff in E as [[_ E]%andb_true_iff _]. apply Z.ltb_lt in E. split; [apply Hv|exact E].
Qed.

(** ** The transfers of an interval *)

(** The widths of the loop's variables. *)
Record advance_ok (a : Advance) : Prop := mk_advance_ok {
  ao_cpu : fits 32 (ad_cpu_remaining a);
  ao_dma : fits 32 (ad_dma_remaining a);
  ao_elapsed : fits 32 (ad_elapsed a);
  ao_budget : fits 36 (ad_dma_chain_budget a);
  ao_generated : fits 64 (ad_dma_chain_generated a);
  ao_events : fits 32 (ad_apu_timer_events a);
  ao_total : result_ok (ad_total_dma a);
  ao_first : forall n, ad_first_irq_cycle a = Some n -> fits 64 n
}.

(** Transfers change the total and the cycles still to run, by the same
    amount; without permission they do not run. *)
Record accrues (a a' : Advance) : Prop := mk_accrues {
  ac_cpu : ad_cpu_remaining a' = ad_cpu_remaining a;
  ac_elapsed : ad_elapsed a' = ad_elapsed a;
  ac_budget : ad_dma_chain_budget a' = ad_dma_chain_budget a;
  ac_generated : ad_dma_chain_generated a' = ad_dma_chain_generated a;
  ac_allow : ad_allow_new_dma a' = ad_allow_new_dma a;
  ac_difference : u32 (ad_dma_remaining a' - bus_cycles (ad_total_dma a')) =
                  u32 (ad_dma_remaining a - bus_cycles (ad_total_dma a));
  ac_idle : ad_allow_new_dma a = false ->
    ad_dma_remaining a' = ad_dma_remaining a /\
    bus_cycles (ad_total_dma a') = bus_cycles (ad_total_dma a);
  ac_ok : advance_ok a -> advance_ok a'
}.

Lemma accrues_refl a : accrues a a.
Proof using Type. by constructor. Qed.

Lemma accrues_trans a b c : accrues a b -> accrues b c -> accrues a c.
Proof using Type.
  intros H1 H2. destruct H1 as [h1 h2 h3 h4 h5 h6 h7 h8], H2 as [k1 k2 k3 k4 k5 k6 k7 k8].
  constructor; try congruence; [|auto]. intros E.
  destruct (h7 E) as [r1 b1]. destruct k7 as [r2 b2]; [congruence|]. split; congruence.
Qed.

Lemma u32_difference r b n : u32 (u32 (r + n) - u32 (b + n)) = u32 (r - b).
Proof using Type.
  unfold wrap. rewrite <- Zminus_mod. f_equal. lia.
Qed.

Lemma accumulate_accrues r a : result_ok r -> ad_allow_new_dma a = true ->
  accrues a (accumulate_dma r a).
Proof using Type.
  intros (H1 & H2 & H3) Ha. constructor; try done.
  - cbn. apply u32_difference.
  - cbn. congruence.
  - intros []. constructor; try done; cbn; [apply wrap_fits; lia|].
    split_and!; apply wrap_fits; lia.
Qed.

Lemma total_refill request t a :
  total I (refill_fifo request t a) (fun a' c => accrues a a' /\ I c).
Proof using inv.
  unfold refill_fifo. destruct (ad_allow_new_dma a && request) eqn:E.
  - apply andb_true_iff in E as [E _].
    eapply total_seq; [apply safe_dma_sound_fifo|]. intros r Hr. apply total_ret.
    intros c Hc. split; [by apply accumulate_accrues|done].
  - apply total_ret. intros c Hc. split; [apply accrues_refl|done].
Qed.

Lemma event_accrues a : accrues a (a <| ad_apu_timer_events ::= fun n =>
  if n =? 0xFFFFFFFF then n else u32 (n + 1) |>).
Proof using Type.
  constructor; try done. intros []. constructor; try done. cbn.
  case_match; [done|apply wrap_fits; lia].
Qed.

Lemma sample_accrues a sample : accrues a (a <| ad_last_direct_sound := sample |>).
Proof using Type. constructor; try done. intros []. by constructor. Qed.

Lemma total_consume i n a :
  total I (consume_direct_sound_timer i n a) (fun a' c => accrues a a' /\ I c).
Proof using inv.
  revert a. induction n as [|n IH]; intros a; cbn [consume_direct_sound_timer].
  { apply total_ret. intros c Hc. split; [apply accrues_refl|done]. }
  eapply total_seq; [apply (safe_apu_overflow i)|]. intros sample _. cbv zeta.
  eapply total_seq; [apply total_refill|]. intros a2 H2.
  eapply total_seq; [apply total_refill|]. intros a3 H3.
  eapply total_weaken; [apply IH|done|]. intros a4 c [H4 Hc]. split; [|done].
  eapply accrues_trans; [apply sample_accrues|]. eapply accrues_trans; [exact H2|].
  eapply accrues_trans; [exact H3|]. eapply accrues_trans; [apply event_accrues|exact H4].
Qed.

Lemma total_run_triggers t n a : ad_allow_new_dma a = true ->
  total I (run_triggers t n a) (fun a' c => accrues a a' /\ I c).
Proof using inv.
  revert a. induction n as [|n IH]; intros a Ha; cbn [run_triggers].
  { apply total_ret. intros c Hc. split; [apply accrues_refl|done]. }
  eapply total_seq; [apply (safe_dma_trigger t)|]. intros r Hr.
  pose proof (accumulate_accrues r a Hr Ha) as H.
  eapply total_weaken; [apply IH, Ha|done|]. intros a' c [H' Hc].
  split; [by eapply accrues_trans|done].
Qed.

(** ** One interval *)

(** The events of an interval: a DMA interval either leaves the cycles to run
    as they were, or takes from its budget. *)
Record settles (dma_interval : bool) (a a' : Advance) : Prop := mk_settles {
  se_cpu : ad_cpu_remaining a' = ad_cpu_remaining a;
  se_elapsed : ad_elapsed a' = ad_elapsed a;
  se_difference : u32 (ad_dma_remaining a' - bus_cycles (ad_total_dma a')) =
                  u32 (ad_dma_remaining a - bus_cycles (ad_total_dma a));
  se_ok : advance_ok a';
  se_budget : dma_interval = true ->
    ad_dma_chain_budget a' = ad_dma_chain_budget a /\
    (ad_dma_chain_generated a' = ad_dma_chain_generated a /\
     ad_dma_remaining a' = ad_dma_remaining a \/
     ad_dma_chain_generated a < ad_dma_chain_budget a /\
     ad_dma_chain_generated a < ad_dma_chain_generated a')
}.

Lemma no_difference r b r' b' : fits 32 r -> fits 32 r' ->
  u32 (r' - b') = u32 (r - b) -> u32 (b' - b) = 0 -> r' = r.
Proof using Type.
  unfold fits, wrap. intros Hr Hr' E Z. rewrite <- (Z.mod_small r (2 ^ 32)), <- (Z.mod_small r' (2 ^ 32)) by done.
  replace r with ((r - b) + b) by lia. replace r' with ((r' - b') + ((b' - b) + b)) by lia.
  rewrite Z.add_mod, E, <- Z.add_mod by done.
  rewrite (Z.add_mod (r - b)), (Z.add_mod (b' - b)), Z by done.
  by rewrite Z.add_0_l, Zmod_mod, <- Z.add_mod by done.
Qed.

(** The events, once whether new transfers may start is known. *)
Lemma accrues_settles d a a1 : advance_ok a ->
  accrues (a <| ad_allow_new_dma :=
             negb d || (ad_dma_chain_generated a <? ad_dma_chain_budget a) |>) a1 ->
  let generated := u32 (bus_cycles (ad_total_dma a1) - bus_cycles (ad_total_dma a)) in
  settles d a
    (if negb d then a1 <| ad_dma_chain_budget := u64 (generated * kMaxDmaChainExpansion) |>
     else a1 <| ad_dma_chain_generated ::= fun g => u64 (g + generated) |>).
Proof using Type.
  intros Ha H generated. destruct H as [h1 h2 h3 h4 h5 h6 h7 h8]. cbn in h1, h2, h3, h4, h5, h6, h7.
  assert (Ha1 : advance_ok a1).
  { apply h8. destruct Ha. by constructor. }
  assert (Hg : fits 32 generated) by (apply wrap_fits; lia).
  destruct Ha as [b1 b2 b3 b4 b5 b6 b7 b8], Ha1 as [c1 c2 c3 c4 c5 c6 c7 c8].
  destruct d; cbn [negb orb] in *.
  - constructor; try done; [constructor; try done; apply wrap_fits; lia|].
    intros _. split; [done|]. cbn. rewrite h4.
    destruct (Z.ltb_spec (ad_dma_chain_generated a) (ad_dma_chain_budget a)) as [Hlt|Hge].
    + destruct (decide (generated = 0)) as [E|E].
      * left. rewrite E, Z.add_0_r. split; [by apply wrap_id|]. by eapply no_difference.
      * right. split; [done|]. rewrite wrap_id; unfold fits in *; lia.
    + left. destruct (h7 eq_refl) as [hr hb]. subst generated. rewrite hb, Z.sub_diag.
      change (u32 0) with 0. rewrite Z.add_0_r. split; [by apply wrap_id|done].
  - constructor; try done. constructor; try done. cbn. unfold kMaxDmaChainExpansion.
    rewrite wrap_id; unfold fits in *; lia.
Qed.

Lemma total_interval_events d ev t0 t1 a : advance_ok a ->
  total I (interval_events d ev t0 t1 a) (fun a' c => settles d a a' /\ I c).
Proof using inv.
  intros Ha. unfold interval_events. case_match.
  { apply total_ret. intros c Hc. split; [|done]. constructor; try done. intros _. by auto. }
  cbv zeta. set (a0 := a <| ad_allow_new_dma := _ |>).
  eapply total_seq.
  { assert (Hdma : total I
      (if ad_allow_new_dma a0 then
         a1 ← run_triggers DmaTrigger.hblank (Z.to_nat (PpuTiming.hblank_entries ev)) a0;
         run_triggers DmaTrigger.vblank (Z.to_nat (PpuTiming.vblank_entries ev)) a1
       else mret a0) (fun a1 c => accrues a0 a1 /\ I c)); [|exact Hdma].
    destruct (ad_allow_new_dma a0) eqn:E.
    - eapply total_seq; [by apply total_run_triggers|]. intros a1 H1.
      eapply total_weaken; [apply total_run_triggers; by rewrite (ac_allow _ _ H1)|done|].
      intros a2 c [H2 Hc]. split; [by eapply accrues_trans|done].
    - apply total_ret. intros c Hc. split; [apply accrues_refl|done]. }
  intros a1 H1. eapply total_seq; [apply total_consume|]. intros a2 H2.
  eapply total_seq; [apply total_consume|]. intros a3 H3.
  apply total_ret. intros c Hc. split; [|done]. apply (accrues_settles d a a3 Ha).
  eapply accrues_trans; [exact H1|]. by eapply accrues_trans.
Qed.

(** The cycles accounted for: those spent and those to come, less the
    transfers'. *)
Definition account (a : Advance) : Z :=
  u32 (ad_elapsed a + ad_cpu_remaining a + ad_dma_remaining a - bus_cycles (ad_total_dma a)).

(** The measure of the loop. *)
Definition left_to_run (a : Advance) : Z :=
  ad_cpu_remaining a * 2 ^ 70 +
  Z.max 0 (ad_dma_chain_budget a - ad_dma_chain_generated a) * 2 ^ 33 + ad_dma_remaining a.

Lemma left_bound a : advance_ok a -> 0 <= left_to_run a < 2 ^ 102.
Proof using Type. intros []. unfold left_to_run, fits in *. lia. Qed.

Definition finished (a : Advance) : bool := (ad_cpu_remaining a =? 0) && (ad_dma_remaining a =? 0).

(** An interval is at least one cycle and ends on its line. *)
Record charged (a : Advance) (d : bool) (n : Z) (a' : Advance) : Prop := mk_charged {
  cg_interval : 1 <= n <= PpuTiming.kCyclesPerLine;
  cg_ok : advance_ok a';
  cg_elapsed : ad_elapsed a' = ad_elapsed a;
  cg_total : ad_total_dma a' = ad_total_dma a;
  cg_state : if d
    then ad_cpu_remaining a' = ad_cpu_remaining a /\ ad_dma_remaining a' = ad_dma_remaining a - n /\
         ad_dma_chain_budget a' = ad_dma_chain_budget a /\
         ad_dma_chain_generated a' = ad_dma_chain_generated a
    else ad_cpu_remaining a' = ad_cpu_remaining a - n /\
         ad_dma_remaining a = 0 /\ ad_dma_remaining a' = 0
}.

Lemma boundary_after line_cycle : 0 <= line_cycle < PpuTiming.kCyclesPerLine ->
  1 <= u32 (next_boundary line_cycle - line_cycle) <= PpuTiming.kCyclesPerLine.
Proof using Type.
  unfold next_boundary. change PpuTiming.kCyclesPerLine with 1232.
  change PpuTiming.kVisibleCycles with 960. change PpuTiming.kHblankFlagCycles with 1004.
  intros H. set (b := if _ <? _ then _ else _).
  assert (Hb : line_cycle + 1 <= b <= 1232).
  { subst b. destruct (Z.ltb_spec line_cycle 960), (Z.ltb_spec line_cycle 1004); lia. }
  rewrite wrap_id; unfold fits; lia.
Qed.

Lemma charge_interval_charged line_cycle a : 0 <= line_cycle < PpuTiming.kCyclesPerLine ->
  advance_ok a -> finished a = false ->
  let r := charge_interval line_cycle a in charged a r.1.1 r.1.2 r.2.
Proof using Type.
  intros Hl [] Hf. unfold charge_interval. cbv zeta. cbn [fst snd].
  pose proof (boundary_after line_cycle Hl) as Hb.
  set (room := u32 _) in *. clearbody room. unfold finished in Hf. unfold fits in *.
  assert (Hk : PpuTiming.kCyclesPerLine < 2 ^ 32) by done.
  destruct (Z.eqb_spec (ad_dma_remaining a) 0) as [E|E]; cbn [negb].
  - rewrite andb_true_r in Hf. apply Z.eqb_neq in Hf.
    constructor; try done; [lia|constructor; try done; cbn; unfold fits; lia].
  - constructor; try done; [lia|constructor; try done; cbn; unfold fits; lia].
Qed.

Lemma account_split a : account a =
  u32 (ad_elapsed a + ad_cpu_remaining a + u32 (ad_dma_remaining a - bus_cycles (ad_total_dma a))).
Proof using Type. rewrite wrap_add_r. unfold account. f_equal. lia. Qed.

(** What an interval leaves. *)
Definition progress (a a' : Advance) : Prop :=
  advance_ok a' /\ left_to_run a' < left_to_run a /\ account a' = account a.

Lemma charged_progress a d n a1 a2 a3 : advance_ok a ->
  charged a d n a1 -> settles d a1 a2 ->
  ad_cpu_remaining a3 = ad_cpu_remaining a2 -> ad_dma_remaining a3 = ad_dma_remaining a2 ->
  ad_total_dma a3 = ad_total_dma a2 -> ad_dma_chain_budget a3 = ad_dma_chain_budget a2 ->
  ad_dma_chain_generated a3 = ad_dma_chain_generated a2 ->
  ad_elapsed a3 = u32 (ad_elapsed a2 + n) -> advance_ok a3 -> progress a a3.
Proof using Type.
  intros Ha [C1 C2 C3 C4 C5] [S1 S2 S3 S4 S5] E1 E2 E3 E4 E5 E6 H3. split; [done|]. split.
  - unfold left_to_run. rewrite E1, E2, E4, E5, S1.
    destruct C2, S4. unfold fits in *. destruct d.
    + destruct (S5 eq_refl) as [B G]. destruct C5 as (K1 & K2 & K3 & K4). lia.
    + destruct C5 as (K1 & K2 & K3). lia.
  - rewrite !account_split, E1, E2, E3, E6, S1, S2, S3, C3, C4.
    rewrite <- !Z.add_assoc, wrap_add_l, !Z.add_assoc, !wrap_add_r. f_equal. destruct d; lia.
Qed.

Lemma first_irq_ok a (first : option Z) : advance_ok a ->
  advance_ok (match first, ad_first_irq_cycle a with
              | Some c, None => a <| ad_first_irq_cycle := Some (u64 (ad_elapsed a + c)) |>
              | _, _ => a end).
Proof using Type.
  intros H. destruct first as [n|], (ad_first_irq_cycle a) eqn:E; try done.
  destruct H. constructor; try done. cbn. intros m [= <-]. apply wrap_fits. lia.
Qed.

Lemma charged_first a d n a1 first : charged a d n a1 ->
  charged a d n (match first, ad_first_irq_cycle a1 with
    | Some c, None => a1 <| ad_first_irq_cycle := Some (u64 (ad_elapsed a1 + c)) |>
    | _, _ => a1 end).
Proof using Type.
  intros [C1 C2 C3 C4 C5]. pose proof (first_irq_ok a1 first C2) as H.
  destruct first, (ad_first_irq_cycle a1); by constructor.
Qed.

Lemma total_advance_interval a : advance_ok a -> finished a = false ->
  total I (advance_interval a) (fun a' c => progress a a' /\ I c).
Proof using inv.
  intros Ha Hf. unfold advance_interval.
  apply (total_seq _ I (fun l => 0 <= l < PpuTiming.kCyclesPerLine)).
  { apply total_gets. intros c Hc. split; [|done]. apply (dv_ppu _ (inv_devices c Hc)). }
  intros l Hl. pose proof (charge_interval_charged l a Hl Ha Hf) as C.
  destruct (charge_interval l a) as [[d n] a1]. cbn [fst snd] in C.
  pose proof (cg_interval _ _ _ _ C) as Hn. change PpuTiming.kCyclesPerLine with 1232 in Hn.
  eapply total_bind; [by apply total_overflow_count; unfold Timers.kTimerCount; lia|]. intros t0.
  eapply total_bind; [by apply total_overflow_count; unfold Timers.kTimerCount; lia|]. intros t1.
  eapply total_seq; [apply safe_tick_timers; lia|]. intros ticks _. cbv zeta.
  pose proof (charged_first a d n a1 (Timers.first_irq_cycle ticks) C) as C'.
  set (a1' := match Timers.first_irq_cycle ticks with Some _ => _ | None => _ end) in *.
  clearbody a1'. clear C.
  eapply (total_seq _ I (fun _ => True)); [by apply total_gets|]. intros has_io _.
  eapply total_seq; [apply safe_when, safe_io_tick; lia|]. intros [] _.
  eapply total_seq; [apply safe_tick_ppu; unfold fits; lia|]. intros ev _.
  eapply total_seq; [apply safe_observe|]. intros [] _.
  eapply total_bind; [by apply total_overflow_count; unfold Timers.kTimerCount; lia|]. intros t0'.
  eapply total_bind; [by apply total_overflow_count; unfold Timers.kTimerCount; lia|]. intros t1'.
  eapply total_seq; [apply total_interval_events, (cg_ok _ _ _ _ C')|]. intros a2 S.
  eapply total_seq.
  { apply safe_apu_tick. unfold ApuSpec.tick_fits, kCpuCyclesPerFrameSequencerStep. lia. }
  intros step _. apply total_ret. intros c Hc. split; [|done].
  pose proof (se_ok _ _ _ S) as Ho.
  destruct step; (eapply (charged_progress a d n a1' a2); try done;
    destruct Ho; constructor; try done; apply wrap_fits; lia).
Qed.

(** ** The loop *)

Lemma total_advance_loop a : advance_ok a ->
  total I (advance_loop a)
    (fun a' c => (advance_ok a' /\ finished a' = true /\ account a' = account a) /\ I c).
Proof using inv.
  intros Ha c Hc. unfold advance_loop.
  destruct (loop_total
    (fun st : Advance * Core =>
      if finished st.1 then Ret (inr st) else st' ← advance_interval st.1 st.2; Ret (inl st'))
    (fun st => (advance_ok st.1 /\ account st.1 = account a) /\ I st.2)
    (fun st => (advance_ok st.1 /\ finished st.1 = true /\ account st.1 = account a) /\ I st.2)
    (fun st => left_to_run st.1)) with (k := kAdvanceFuel) (s := (a, c)) as ([a' c'] & E & H).
  - intros [b x] [[Hb Eb] Hx]. cbn [fst snd] in *. destruct (finished b) eqn:Ef.
    + by exists (inr (b, x)).
    + destruct (total_advance_interval b Hb Ef x Hx) as (b' & x' & E & (Hb' & Hm & Ha') & Hx').
      rewrite E. exists (inl (b', x')). split; [done|]. cbn [fst snd].
      split_and!; [done|congruence|done|by apply left_bound|done].
  - done.
  - apply left_bound, Ha.
  - exists a', c'. by split.
Qed.
End Devices.
