(* ===== verification/SchedulerSafety.v ===== *)
(** * The scheduler: its invariant

    [scheduler_wf]: the widths of the scheduler's own state and the shape of
    the frames of the emulated BIOS.  [core_ok]: the processor, the bus, the
    devices and the scheduler are well formed.  The operations of the parts are
    safe for it, and [advance_devices] in particular. *)

From S2P Require Import Prelude StateMonad StateHash Interrupts BusTypes WaitState.
From S2P Require Timers PpuTiming MemoryBus TimersSpec PpuTimingSpec BusSafety.
From S2P Require Import Apu Dma IoRegisters DmaTransfer Bios.
From S2P Require Import ArmTypes ArmState ArmMemory BusInterface.
From S2P Require Import ArmSafety ArmTotal ArmMemorySafety ArmStepSafety.
From S2P Require Import ApuTyped IoRegistersSpec DmaTransferSpec.
From S2P Require Import SchedulerTiming SchedulerProbe SchedulerState SchedulerDevices.
From S2P Require Import SchedulerDevicesSpec.

(** ** The invariant *)

Definition option_fits (w : Z) (o : option Z) : Prop := forall v, o = Some v -> fits w v.

(** The saved registers R0 to R12. *)
Definition saved_words (o : option (list Z)) : Prop := forall l, o = Some l -> words 13 l.

Definition irq_frame_typed (f : HleIrqFrame) : Prop :=
  fits 32 (return_lr f) /\ saved_words (saved_registers f).

(** Queued work is never empty. *)
Definition work_frame_typed (f : HleWorkFrame) : Prop :=
  fits 64 (remaining_cycles f) /\ remaining_cycles f <> 0 /\ fits 32 (owner_irq_depth f).

Record scheduler_wf (s : CoreScheduler) : Prop := mk_scheduler_wf {
  sw_cycles : fits 64 (scheduler_cycles_ s);
  sw_address : option_fits 32 (last_fetch_address_ s);
  sw_buffer : 0 <= prefetch_buffer_halfwords_ s <= kPrefetchBufferCapacityHalfwords;
  sw_waitcnt : option_fits 16 (last_waitcnt_control_ s);
  sw_lr : option_fits 32 (hle_irq_return_lr_ s);
  sw_saved : saved_words (hle_irq_saved_registers_ s);
  sw_service : fits 8 (hle_irq_chained_spaced_data_service_count_ s);
  sw_latency : fits 8 (auto_irq_latency_cycles_ s);
  sw_gap : fits 32 (timer_io_access_gap_cycles_ s);
  sw_misfetch : fits 32 (thumb_misfetch_recovery_count_ s);
  sw_outer : Forall irq_frame_typed (hle_irq_outer_frames_ s);
  sw_work : Forall work_frame_typed (hle_work_frames_ s);
  sw_observed : Forall scanline_call_ok (observed_scanlines_ s)
}.

Definition core_ok (c : Core) : Prop := sys_ok machine_ok c.2 /\ scheduler_wf c.1.

Lemma option_fits_None w : option_fits w None.
Proof. done. Qed.

Lemma option_fits_Some w v : fits w v -> option_fits w (Some v).
Proof. by intros H ? [= <-]. Qed.

Lemma saved_words_None : saved_words None.
Proof. done. Qed.

Create HintDb sched discriminated.
#[export] Hint Resolve option_fits_None option_fits_Some saved_words_None : sched.
#[export] Hint Extern 1 (fits _ (wrap _ _)) => (apply wrap_fits; lia) : sched.
#[export] Hint Extern 2 (fits _ 0) => (by vm_compute) : sched.

(** An update of fields the invariant constrains independently. *)
Ltac sched_fields :=
  let H := fresh in intros H; destruct H; constructor; try assumption; cbn; auto with sched; try done.

(** ** Operations *)

#[export] Instance core_invariant : MachineInvariant core_ok.
Proof.
  split.
  - intros c [[_ H] _]. exact H.
  - intros c m [[Hc _] Hs] Hm. by split.
  - intros c k [Hc Hs] Hk. split; [done|]. revert Hs. sched_fields.
    by apply Forall_app_2; [|constructor].
Qed.

(** The same, with the processor and the scheduler left alone, but for the
    scanlines shown to the observer. *)
Definition beside (c0 c : Core) : Prop :=
  core_ok c /\ cpu_of c = cpu_of c0 /\
  exists l, sched c = (sched c0) <| observed_scanlines_ := l |>.

#[export] Instance beside_invariant c0 : MachineInvariant (beside c0).
Proof.
  split.
  - intros c [H _]. by apply inv_machine.
  - intros c m (H & Hc & Hs) Hm. split; [by apply inv_put|]. by split.
  - intros c k (H & Hc & l & Hs) Hk. split; [by apply inv_observe|]. split; [done|].
    exists (l ++ [k]). cbn. unfold sched in Hs. by rewrite Hs.
Qed.

Lemma beside_refl c : core_ok c -> beside c c.
Proof.
  intros H. split; [done|]. split; [done|]. exists (observed_scanlines_ (sched c)). by destruct (sched c).
Qed.

Lemma safe_set_sched f : (forall s, scheduler_wf s -> scheduler_wf (f s)) -> safe core_ok (set_sched f).
Proof. intros Hf. apply safe_modify. intros c [Hc Hs]. split; [done|by apply Hf]. Qed.

Lemma safe_on_cpu {A} {HA : Typed A} (m : CPU A) : safe wf m -> safe core_ok (on_cpu m).
Proof.
  intros Hm [s [cpu mem]] [[Hc Hb] Hs]. destruct (Hm cpu Hc) as (a & cpu' & E & Ha & Hc').
  unfold on_cpu. cbn [fst snd] in *. rewrite E. by exists a, (s, (cpu', mem)).
Qed.

Lemma safe_on_sys {A} {HA : Typed A} (m : ST (Sys (D := Devices)) A) :
  safe (sys_ok machine_ok) m -> safe core_ok (on_sys m).
Proof.
  intros Hm [s x] [Hx Hs]. destruct (Hm x Hx) as (a & x' & E & Ha & Hx').
  unfold on_sys. cbn [fst snd] in *. rewrite E. by exists a, (s, x').
Qed.

Lemma safe_register_value i : reg_index i -> safe wf (register_value i).
Proof.
  intros Hi. unfold register_value. apply safe_if; [|intros _; by apply safe_reg].
  intros E%Z.leb_le. unfold reg_index in Hi. change (Z.of_nat kRegisterCount) with 16 in E. lia.
Qed.

Lemma safe_set_register i v : reg_index i -> fits 32 v -> safe wf (set_register i v).
Proof.
  intros Hi Hv. unfold set_register. apply safe_if; [|intros _; by apply ArmSafety.safe_set_reg].
  intros E%Z.leb_le. unfold reg_index in Hi. change (Z.of_nat kRegisterCount) with 16 in E. lia.
Qed.

Lemma safe_asks {A} (f : Core -> A) {HA : Typed A} : (forall c, core_ok c -> typed (f c)) -> safe core_ok (gets f).
Proof. intros Hf. by apply safe_gets. Qed.

Lemma safe_sched_write32 a v : fits 32 v -> safe core_ok (SchedulerDevices.write32 a v).
Proof. intros Hv. apply safe_on_sys. exact (safe_write32 io_callbacks machine_ok a v Hv). Qed.

(** ** Advancing the devices *)

Lemma initial_advance_ok n : fits 32 n -> advance_ok (initial_advance n).
Proof. intros Hn. constructor; try done; by vm_compute. Qed.

(** The cycles an advance was asked for, and those of its transfers. *)
Lemma advance_charges n a : fits 32 n -> advance_ok a -> finished a = true ->
  account a = account (initial_advance n) ->
  ad_elapsed a = u32 (n + bus_cycles (ad_total_dma a)).
Proof.
  intros Hn [] Hf E. unfold finished in Hf. apply andb_true_iff in Hf as [H1%Z.eqb_eq H2%Z.eqb_eq].
  replace (account (initial_advance n)) with n in E.
  - unfold account in E. rewrite H1, H2, !Z.add_0_r in E.
    by rewrite <- E, wrap_add_l, Z.sub_add, wrap_id.
  - unfold account. change (n = u32 (0 + n + 0 - 0)). rewrite Z.add_0_l, Z.add_0_r, Z.sub_0_r.
    by rewrite wrap_id.
Qed.

Lemma latency_typed d s : devices_wf d -> ensures (fits 8) (timer_irq_latency d s).
Proof.
  intros Hd. unfold timer_irq_latency, Timers.reload_at, Timers.prescaler_divisor,
    Timers.last_enable_phase_at. cbv zeta.
  destruct (timers_safe_lookup 0 _ (dv_timers d Hd)) as (t & -> & _ & _).
  { unfold Timers.kTimerCount. lia. }
  apply ensures_ret. cbn [mbind exc_bind]. repeat case_match; by vm_compute.
Qed.

Lemma reset_fetch_wf s : scheduler_wf s -> scheduler_wf (reset_fetch_timing_sequence s).
Proof. sched_fields. Qed.

Lemma safe_reset_fetch : safe core_ok (set_sched reset_fetch_timing_sequence).
Proof. apply safe_set_sched, reset_fetch_wf. Qed.

Lemma reset_latency_wf s : scheduler_wf s -> scheduler_wf (reset_auto_irq_latency s).
Proof. sched_fields. Qed.

(** Operations on the latency leave the machine and the clock alone. *)
Definition latency_only (c0 c : Core) : Prop :=
  core_ok c /\ c.2 = c0.2 /\ scheduler_cycles_ (sched c) = scheduler_cycles_ (sched c0).

Lemma latency_only_refl c : core_ok c -> latency_only c c.
Proof. done. Qed.

Lemma set_latency c0 f :
  (forall s, scheduler_wf s -> scheduler_wf (f s) /\ scheduler_cycles_ (f s) = scheduler_cycles_ s) ->
  safe (latency_only c0) (set_sched f).
Proof.
  intros Hf. apply safe_modify. intros c ([Hc Hs] & Hm & Hk). destruct (Hf c.1 Hs) as [Hs' Hk'].
  split; [by split|]. split; [done|]. cbn. unfold sched in *. by rewrite Hk'.
Qed.

Lemma update_latency c0 n : 0 <= n -> safe (latency_only c0) (update_auto_irq_latency n).
Proof.
  intros Hn. unfold update_auto_irq_latency.
  eapply (safe_bind _ (HA := typed_bool)); [by apply safe_gets|]. intros line _.
  apply set_latency. intros s Hs. split; [|by repeat case_match].
  case_match; [by apply reset_latency_wf|]. case_match; [revert Hs; sched_fields|].
  destruct (Z.ltb_spec n (auto_irq_latency_cycles_ s)); revert Hs; sched_fields.
Qed.

Lemma safe_update_latency n : 0 <= n -> safe core_ok (update_auto_irq_latency n).
Proof.
  intros Hn c Hc. destruct (update_latency c n Hn c (latency_only_refl c Hc)) as (r & c' & E & _ & H & _).
  by exists r, c'.
Qed.

Lemma settle_latency c0 before (first : option Z) n :
  0 <= n -> safe (latency_only c0) (settle_irq_latency before first n).
Proof.
  intros Hn. unfold settle_irq_latency.
  eapply (safe_bind _ (HA := typed_bool)); [by apply safe_gets|]. intros after _.
  destruct first as [f|]; [|by apply update_latency].
  apply safe_if; intros _; [by apply update_latency|].
  eapply (total_seq _ (latency_only c0) (fun c => devices_wf (devices_of c))).
  { apply total_gets. intros c Hc. split; [apply (inv_devices core_ok), Hc|done]. }
  intros c1 Hd. eapply (total_seq _ (latency_only c0) (fits 8)).
  { apply total_lift. intros c Hc. destruct (latency_typed _ (sched c1) Hd) as (l & E & Hl).
    by exists l. }
  intros l Hl. eapply safe_bind.
  { apply set_latency. intros s Hs. split; [|done]. revert Hs. sched_fields. }
  intros _ _. apply safe_when, update_latency. apply wrap_fits. lia.
Qed.

(** Everything an advance keeps and reports. *)
Lemma advance_devices_run n c : core_ok c -> fits 32 n ->
  exists r c', advance_devices n c = Ret (r, c') /\ typed r /\ core_ok c' /\ cpu_of c' = cpu_of c /\
    dt_cycles r = n /\
    scheduler_cycles_ (sched c') =
      u64 (scheduler_cycles_ (sched c) + u32 (n + bus_cycles (triggered_dma r))).
Proof.
  intros Hc Hn. unfold advance_devices. destruct (Z.eqb_spec n 0) as [->|Hz].
  { exists no_device_ticks, c. split_and!; try done.
    cbn. rewrite Z.add_0_r. symmetry. apply wrap_id, Hc. }
  eapply (total_seq (eq c) (eq c) (fun _ => True)) with (s := c); [by apply total_gets| |done].
  intros before _. eapply total_bind.
  { intros c1 <-. exact (total_advance_loop (beside c) _ (initial_advance_ok n Hn) c (beside_refl c Hc)). }
  intros a. cbv zeta. apply total_pre. intros c1 ((Ha & Hf & He) & (H1 & Hcpu & l & Hs)).
  set (total := u32 (n + bus_cycles (ad_total_dma a))).
  assert (Ht : fits 32 total) by (apply wrap_fits; lia).
  exists (eq c1). split; [done|].
  set (c2 := (c1.1 <| scheduler_cycles_ ::= fun k => u64 (k + total) |>
                   <| timer_io_access_gap_cycles_ ::= fun g =>
                        if total =? 0 then g else saturating_add32 g total |>, c1.2)).
  assert (H2 : core_ok c2).
  { destruct H1 as [Hx Hw]. split; [done|]. revert Hw. unfold c2. sched_fields.
    case_match; [done|]. unfold saturating_add32. case_match; [by vm_compute|].
    apply wrap_fits. lia. }
  eapply (total_bind _ _ _ (fun _ => eq c2)); [by apply total_modify; intros ? <-|]. intros [].
  eapply total_bind.
  { intros c' <-. exact (settle_latency c2 before (ad_first_irq_cycle a) total (proj1 Ht) c2
      (latency_only_refl c2 H2)). }
  intros [] c3 (_ & H3 & Hm & Hk). eexists _, c3. split; [reflexivity|].
  cbn [dt_cycles triggered_dma]. destruct Ha. split_and!; try done.
  - unfold cpu_of in *. by rewrite Hm.
  - rewrite Hk. cbn. unfold sched in *. by rewrite Hs.
Qed.

Lemma safe_advance n : fits 32 n -> safe core_ok (advance_devices n).
Proof.
  intros Hn c Hc. destruct (advance_devices_run n c Hc Hn) as (r & c' & E & Hr & Hc' & _).
  by exists r, c'.
Qed.
