(* ===== verification/SchedulerProbeSafety.v ===== *)
(** * The scheduler: safety of the probes

    The helpers that look at an instruction or a device before the instruction
    is executed return, and the cycles they give are 32-bit. *)

From S2P Require Import Prelude StateMonad StateHash Interrupts BusTypes WaitState.
From S2P Require Timers PpuTiming MemoryBus TimersSpec.
From S2P Require Import Apu Dma IoRegisters DmaTransfer Bios.
From S2P Require Import ArmTypes ArmDecode ThumbDecode ArmState ArmMemory ArmTiming BusInterface.
From S2P Require Import ArmSafety ArmTotal ArmMemorySafety ArmStepSafety.
From S2P Require Import IoRegistersSpec DmaTransferSpec.
From S2P Require Import SchedulerTiming SchedulerProbe SchedulerState SchedulerDevices.
From S2P Require Import SchedulerDevicesSpec SchedulerSafety.

Lemma safe_ensures {S A} {HA : Typed A} (I : S -> Prop) (m : exc A) :
  ensures typed m -> safe I (lift m).
Proof. intros (a & E & Ha). by apply (safe_lift I m a). Qed.

(** ** Access timings *)

Definition timing_ok (t : MemoryAccessTiming) : Prop :=
  0 <= nonsequential t <= 8 /\ 0 <= sequential t <= 8.

Lemma second_wait_bound b n : 0 <= n <= 8 -> 0 <= second_wait_state b n <= 8.
Proof. intros Hn. unfold second_wait_state. case_match; lia. Qed.

Lemma timing_bounds a w : timing_ok (timing a w).
Proof. unfold timing. cbv zeta. destruct (region (classify a)), w; split; cbn; lia. Qed.

Lemma timing_waitcnt_bounds a w c : timing_ok (timing_waitcnt a w c).
Proof.
  unfold timing_waitcnt. cbv zeta. destruct (region (classify a)); try apply timing_bounds.
  - pose proof (first_wait_states_bound (WaitState.control c)) as H.
    destruct (ca_window (describe_cartridge a)); split; cbn; try lia;
      try (apply second_wait_bound; lia); specialize (H 2) as H2; specialize (H 5) as H5;
      specialize (H 8) as H8; lia.
  - unfold save_wait_states. pose proof (first_wait_states_bound (WaitState.control c) 0). split; cbn; lia.
Qed.

Lemma small_fits n : 0 <= n <= 8 -> fits 32 n.
Proof. unfold fits. lia. Qed.

(** ** The data access *)

#[export] Instance typed_probe : Typed DataAccessTimingProbe := fun p => fits 32 (pr_address p).
#[export] Instance typed_width : Typed AccessWidth.t := fun _ => True.

Lemma safe_arm_visible_reg i : reg_index i -> safe wf (SchedulerProbe.arm_visible_register_value i).
Proof.
  intros Hi. unfold SchedulerProbe.arm_visible_register_value.
  eapply safe_bind; [by apply safe_register_value|]. intros v Hv. apply safe_ret.
  case_match; [apply wrap_fits; lia|done].
Qed.

Lemma safe_passed c : safe wf (passed c).
Proof. by apply safe_gets. Qed.

Lemma no_probe : typed (None : option DataAccessTimingProbe).
Proof. by intros p. Qed.

Lemma some_probe a w l : fits 32 a -> typed (Some (mkDataAccessTimingProbe a w l)).
Proof. intros Ha. by apply typed_Some. Qed.

#[export] Hint Resolve safe_passed no_probe : safe.

Lemma safe_transfer_probe rn o up pre w l : reg_index rn ->
  safe wf (transfer_probe rn o up pre w l).
Proof.
  intros Hn. unfold transfer_probe. eapply safe_bind; [by apply safe_arm_visible_reg|].
  intros base Hb. cbv zeta. apply safe_ret, some_probe. case_match; [|done].
  unfold SchedulerTiming.offset_transfer_address. case_match; apply wrap_fits; lia.
Qed.

Lemma block_first_fits base n pre up : fits 32 base ->
  fits 32 (SchedulerTiming.block_transfer_first_address base n pre up).
Proof.
  intros Hb. unfold SchedulerTiming.block_transfer_first_address.
  repeat case_match; done || apply wrap_fits; lia.
Qed.

Lemma safe_block_access i : can_decode_block_data_transfer i = true -> safe wf (block_data_access i).
Proof.
  intros Hc. unfold block_data_access. eapply safe_bind; [by apply safe_decode_block|]. intros d Hd.
  eapply safe_bind; [apply safe_passed|]. intros ok _. apply safe_if; intros _; [by apply safe_ret|].
  apply safe_if; intros _; [by apply safe_ret|]. cbv zeta.
  eapply safe_bind; [by apply safe_register_value|]. intros base Hb. apply safe_ret, some_probe.
  by apply block_first_fits.
Qed.

Lemma field4_index i : reg_index (Z.land i 0xF).
Proof. unfold reg_index. pose proof (Z.land_nonneg i 0xF). pose proof (land_range i 0xF ltac:(lia)). lia. Qed.

Lemma safe_halfword_access i :
  can_decode_halfword_data_transfer_immediate i || can_decode_halfword_data_transfer_register i = true ->
  safe wf (halfword_data_access i).
Proof.
  intros Hc. unfold halfword_data_access.
  eapply (safe_bind wf).
  { apply safe_if; intros E.
    - eapply safe_bind; [apply safe_arm_visible_reg, field4_index|]. intros v Hv.
      by apply safe_decode_halfword_register.
    - apply safe_decode_halfword_immediate. by rewrite E, orb_false_r in Hc. }
  intros d Hd. eapply safe_bind; [apply safe_passed|]. intros ok _.
  apply safe_if; intros _; [by apply safe_ret|]. apply safe_if; intros _; [by apply safe_ret|].
  cbv zeta. apply safe_if; intros _; [by apply safe_ret|]. apply safe_transfer_probe; apply Hd.
Qed.

Lemma safe_single_access i :
  can_decode_single_data_transfer_immediate i || can_decode_single_data_transfer_register i = true ->
  safe wf (single_data_access i).
Proof.
  intros Hc. unfold single_data_access.
  eapply (safe_bind wf).
  { apply safe_if; intros E.
    - eapply safe_bind; [apply safe_arm_visible_reg, field4_index|]. intros v Hv.
      eapply safe_bind; [apply safe_flag|]. intros carry _. by apply safe_decode_single_register.
    - apply safe_decode_single_immediate. by rewrite E, orb_false_r in Hc. }
  intros d Hd. eapply safe_bind; [apply safe_passed|]. intros ok _.
  apply safe_if; intros _; [by apply safe_ret|]. apply safe_if; intros _; [by apply safe_ret|].
  cbv zeta. apply safe_if; intros _; [by apply safe_ret|]. apply safe_transfer_probe, Hd.
Qed.

Lemma safe_first_arm_access i : safe wf (first_arm_data_access_for_timing i).
Proof.
  unfold first_arm_data_access_for_timing. apply safe_if; intros H1; [by apply safe_block_access|].
  apply safe_if; intros H2; [by apply safe_halfword_access|].
  apply safe_if; intros H3; [by apply safe_single_access|]. by apply safe_ret.
Qed.

Lemma safe_first_thumb_access i : safe wf (first_thumb_data_access_for_timing i).
Proof.
  unfold first_thumb_data_access_for_timing. apply safe_if; intros _; [by apply safe_ret|].
  apply safe_if; intros Hb.
  { eapply safe_bind; [by apply safe_decode_thumb_block|]. intros d Hd.
    eapply safe_bind; [by apply safe_register_value|]. intros base H. by apply safe_ret, some_probe. }
  apply safe_if; intros Hm; [by apply safe_ret|].
  eapply safe_bind; [apply safe_decode_thumb_memory; by apply negb_false_iff|]. intros d (_ & Hb' & Ho & Hr).
  apply safe_if; intros _; [by apply safe_ret|].
  eapply safe_bind.
  { apply safe_if; intros _; [|by apply safe_register_value].
    eapply safe_bind; [apply safe_register_value, pc_index|]. intros pc _. apply safe_ret.
    unfold typed, typed_word, SchedulerTiming.align_word. apply fits_land_l; [lia|apply wrap_fits; lia]. }
  intros base _. eapply safe_bind.
  { apply safe_if; intros E; [|by apply safe_ret]. apply safe_register_value.
    rewrite wrap_id; [by apply Hr|]. specialize (Hr E). unfold reg_index, fits in *. lia. }
  intros offset _. apply safe_ret, some_probe, wrap_fits. lia.
Qed.

Lemma safe_overlap a w i n : safe wf (should_overlap_thumb_internal_data_load a w i n).
Proof.
  unfold should_overlap_thumb_internal_data_load. apply safe_if; intros _; [by apply safe_ret|].
  eapply safe_bind; [apply safe_first_thumb_access|]. intros o _. by apply safe_ret.
Qed.

(** ** Multiplications and refills *)

Lemma safe_arm_override i a w : safe wf (arm_rom_multiply_elapsed_override i a w).
Proof.
  unfold arm_rom_multiply_elapsed_override. destruct (rom_waitcnt a w) as [c|]; [|by apply safe_ret].
  cbv zeta. pose proof (timing_waitcnt_bounds a AccessWidth.word c) as [_ Ht].
  assert (Hp : forall n l x, 1 <= n <= 4 ->
    fits 32 (prefetched_arm_multiply_cycles n l x (timing_waitcnt a AccessWidth.word c))).
  { intros n l x Hn. unfold prefetched_arm_multiply_cycles, fits. repeat case_match; lia. }
  apply safe_if; intros H1.
  - eapply safe_bind; [by apply safe_decode_long|]. intros d (_ & _ & Hs & _).
    eapply safe_bind; [by apply safe_register_value|]. intros m _. apply safe_ret, some_estimate.
    case_match; [|apply wrap_fits; lia]. apply Hp.
    unfold scheduler_signed_multiply_iterations, scheduler_unsigned_multiply_iterations.
    repeat case_match; lia.
  - apply safe_if; intros H2; [apply safe_ret, no_estimate|].
    eapply safe_bind; [apply safe_decode_multiply; by apply negb_false_iff|]. intros d (_ & _ & Hs & _).
    eapply safe_bind; [by apply safe_register_value|]. intros m _. apply safe_ret, some_estimate.
    case_match; [|apply wrap_fits; lia]. apply Hp.
    unfold scheduler_signed_multiply_iterations. repeat case_match; lia.
Qed.

Lemma safe_thumb_override i a w : safe wf (thumb_rom_multiply_elapsed_override i a w).
Proof.
  unfold thumb_rom_multiply_elapsed_override. destruct (rom_waitcnt a w) as [c|]; [|by apply safe_ret].
  cbv zeta. apply safe_if; intros H1; [apply safe_ret, no_estimate|].
  eapply safe_bind; [apply safe_decode_thumb_alu; by apply negb_false_iff|]. intros d [Hd _].
  apply safe_if; intros _; [apply safe_ret, no_estimate|].
  eapply safe_bind; [by apply safe_register_value|]. intros m _. apply safe_ret, some_estimate.
  unfold scheduler_signed_multiply_iterations. repeat case_match; (apply wrap_fits || unfold fits); lia.
Qed.

Lemma safe_refills {S} (I : S -> Prop) i : safe I (lift (thumb_instruction_refills_pipeline i)).
Proof.
  apply safe_ensures. unfold thumb_instruction_refills_pipeline. case_match; [by apply ensures_ret|].
  destruct (can_decode_thumb_high_register i) eqn:E; [|by apply ensures_ret].
  unfold decode_thumb_high_register. rewrite E. by apply ensures_ret.
Qed.

Lemma rom_waitcnt_fits a o w : fits 32 (nonsequential (timing_waitcnt a w o)).
Proof. apply small_fits, timing_waitcnt_bounds. Qed.

Lemma arm_refill_fits t w : fits 32 (arm_branch_refill_cycles t w).
Proof. unfold arm_branch_refill_cycles. cbv zeta. repeat case_match; by vm_compute. Qed.

Lemma thumb_refill_fits t w : fits 32 (thumb_branch_refill_cycles t w).
Proof. unfold thumb_branch_refill_cycles. cbv zeta. repeat case_match; by vm_compute. Qed.

Lemma arm_exchange_refill_fits f t w : fits 32 (arm_branch_exchange_refill_cycles f t w).
Proof.
  unfold arm_branch_exchange_refill_cycles. cbv zeta.
  destruct (if in_region Region.iwram f then _ else _); [case_match; [apply rom_waitcnt_fits|]|];
    apply wrap_fits; lia.
Qed.

Lemma thumb_exchange_refill_fits f t w : fits 32 (thumb_branch_exchange_refill_cycles f t w).
Proof.
  unfold thumb_branch_exchange_refill_cycles. case_match; [by vm_compute|apply wrap_fits; lia].
Qed.

(** ** Misfetched code *)

Lemma safe_recover {D} (io : MemoryBus.IoCallbacks D) m n : fits 32 n ->
  safe wf (recover_thumb_state_from_rom_misfetch io m n).
Proof.
  intros Hn. unfold recover_thumb_state_from_rom_misfetch.
  eapply safe_bind; [apply safe_flag|]. intros thumb _.
  apply safe_if; intros _; [by apply safe_ret|].
  eapply safe_bind; [apply safe_register_value, pc_index|]. intros pc _.
  apply safe_if; intros _; [by apply safe_ret|].
  eapply safe_bind; [apply safe_cpsr|]. intros status _.
  eapply safe_bind; [apply safe_set_cpsr|]. intros ok _. apply safe_ret, wrap_fits. lia.
Qed.

(** ** Timer 0 *)

Section Timer0.
Context (d : Devices) (Hd : devices_wf d).

Lemma timer_exists_at i : (i < Timers.kTimerCount)%nat ->
  exists t, Timers.checked_timer i (timers_ d) = Ret t.
Proof using Hd.
  intros Hi. destruct (timers_safe_lookup i _ (dv_timers d Hd) Hi) as (t & E & _). by exists t.
Qed.

(** Every question about timer 0 has an answer. *)
Ltac timer0 :=
  let t := fresh "t" in let E := fresh "E" in
  destruct (timer_exists_at 0 ltac:(unfold Timers.kTimerCount; lia)) as [t E];
  unfold timer0_counts_with_irq, Timers.enabled, Timers.count_up, Timers.irq_enabled,
    Timers.prescaler_divisor, Timers.cycles_until_next_prescaler_tick, Timers.counter_at,
    Timers.reload_at, Timers.last_enable_phase_at, Timers.enabled, Timers.count_up;
  rewrite ?E; cbn [mbind exc_bind Nat.eqb]; rewrite ?E; cbn [mbind exc_bind Nat.eqb]; cbv zeta.

Lemma divisor_ret : ensures (fun _ => True) (Timers.prescaler_divisor 0 (timers_ d)).
Proof using Hd. timer0. by apply ensures_ret. Qed.

Lemma reload_ret : ensures (fun _ => True) (Timers.reload_at 0 (timers_ d)).
Proof using Hd. timer0. by apply ensures_ret. Qed.

Lemma enabled_ret : ensures (fun _ => True) (Timers.enabled 0 (timers_ d)).
Proof using Hd. timer0. by apply ensures_ret. Qed.

Lemma phase_ret : ensures (fun _ => True) (Timers.last_enable_phase_at 0 (timers_ d)).
Proof using Hd. timer0. by apply ensures_ret. Qed.

Lemma counts_ret : ensures (fun _ => True) (timer0_counts_with_irq (timers_ d)).
Proof using Hd. timer0. case_match; by apply ensures_ret. Qed.

Lemma counter_ret i : (i < Timers.kTimerCount)%nat ->
  ensures (fun _ => True) (Timers.counter_at i (timers_ d)).
Proof using Hd.
  intros Hi. destruct (timer_exists_at i Hi) as [t E]. unfold Timers.counter_at. rewrite E.
  by apply ensures_ret.
Qed.

Lemma until_tick_ret i : (i < Timers.kTimerCount)%nat ->
  ensures (fun _ => True) (Timers.cycles_until_next_prescaler_tick i (timers_ d)).
Proof using Hd.
  intros Hi. destruct (timer_exists_at i Hi) as [t E].
  unfold Timers.cycles_until_next_prescaler_tick, Timers.enabled, Timers.count_up. rewrite E.
  cbn [mbind exc_bind]. case_match; [by apply ensures_ret|].
  destruct (i =? 0)%nat; cbn [mbind exc_bind];
    repeat case_match; by apply ensures_ret.
Qed.

(** The timers' answers, one bind at a time. *)
Ltac ask :=
  match goal with
  | |- ensures _ (if _ then _ else _) => case_match
  | |- ensures _ (Ret _) => apply ensures_ret
  | |- ensures _ (mbind _ (timer0_counts_with_irq _)) => apply (ensures_bind _ _ _ _ counts_ret); intros ? _
  | |- ensures _ (mbind _ (Timers.prescaler_divisor 0 _)) => apply (ensures_bind _ _ _ _ divisor_ret); intros ? _
  | |- ensures _ (mbind _ (Timers.reload_at 0 _)) => apply (ensures_bind _ _ _ _ reload_ret); intros ? _
  | |- ensures _ (mbind _ (Timers.enabled 0 _)) => apply (ensures_bind _ _ _ _ enabled_ret); intros ? _
  | |- ensures _ (mbind _ (Timers.last_enable_phase_at 0 _)) =>
      apply (ensures_bind _ _ _ _ phase_ret); intros ? _
  | |- ensures _ (mbind _ (Timers.counter_at 0 _)) =>
      eapply ensures_bind; [apply counter_ret; unfold Timers.kTimerCount; lia|intros ? _]
  | |- ensures _ (mbind _ (Timers.cycles_until_next_prescaler_tick 0 _)) =>
      eapply ensures_bind; [apply until_tick_ret; unfold Timers.kTimerCount; lia|intros ? _]
  end; cbv zeta.

Lemma slow_cycles_fits b u m g r v s t p : fits 32 b ->
  fits 32 (slow_timer_load_cycles b u m g r v s t p).
Proof using Type.
  intros Hb. unfold slow_timer_load_cycles, reload_window_cycles.
  repeat case_match; done || (apply wrap_fits; lia).
Qed.

Lemma adjusted_fits b a io s g rl pc t0 : fits 32 b ->
  ensures (fits 32) (adjust_slow_timer_load_pre_access_cycles b a io s g rl pc t0 (timers_ d)).
Proof using Hd.
  intros Hb. unfold adjust_slow_timer_load_pre_access_cycles. cbv zeta.
  repeat ask; try done. by apply slow_cycles_fits.
Qed.

Lemma replay_ret a io s pr t0 :
  ensures (fun _ => True) (should_replay_slow_timer_load_after_irq a io s pr t0 (timers_ d)).
Proof using Hd. unfold should_replay_slow_timer_load_after_irq. by repeat ask. Qed.

Lemma defer_ret a io s n rl pc t0 :
  ensures (fun _ => True)
    (should_defer_slow_timer_load_irq_until_after_access a io s n rl pc t0 (timers_ d)).
Proof using Hd. unfold should_defer_slow_timer_load_irq_until_after_access. by repeat ask. Qed.
End Timer0.

(** ** The adjustments of the emulated BIOS calls *)

Definition adjustment_ok (n : Z) : Prop := - 9 <= n <= 21.

Lemma profile_rows l i : In l [kArmSimpleRom; kThumbSimpleRom; kArmLiteralRom; kThumbLiteralRom;
    kThumbCpuSetRom] -> (i < 8)%nat -> ensures adjustment_ok (array_at l i).
Proof.
  intros Hl Hi.
  assert (H : Forall (fun l => length l = 8%nat /\ Forall adjustment_ok l)
    [kArmSimpleRom; kThumbSimpleRom; kArmLiteralRom; kThumbLiteralRom; kThumbCpuSetRom]).
  { unfold adjustment_ok. repeat constructor; try done; lia. }
  rewrite Forall_forall in H. destruct (H l Hl) as [Hn Ha].
  destruct (array_at_lt l i) as (v & Ev & E); [by rewrite Hn|].
  rewrite E. apply ensures_ret. by eapply Forall_lookup_1.
Qed.

Lemma wait_profile_bound w : (Z.to_nat (hle_rom_wait_profile w) < 8)%nat.
Proof.
  unfold hle_rom_wait_profile. destruct w as [w|]; [|lia]. cbv zeta.
  destruct (has _ 0x4000), (has _ 0x0004), (has _ 0x0010); vm_compute; lia.
Qed.

Lemma profile_adjustment_ok call a w p :
  ensures adjustment_ok (hle_swi_profile_adjustment call a w p).
Proof.
  unfold hle_swi_profile_adjustment. cbv zeta.
  case_match; [apply ensures_ret; by unfold adjustment_ok|].
  case_match; [apply ensures_ret; unfold adjustment_ok; repeat case_match; lia|].
  case_match; [apply ensures_ret; by unfold adjustment_ok|].
  pose proof (wait_profile_bound w) as Hw.
  repeat case_match; (apply profile_rows; [cbn; auto 8|done]).
Qed.

Lemma add_adjustment_fits n a : fits 32 n -> fits 32 (add_hle_profile_adjustment n a).
Proof.
  intros Hn. unfold add_hle_profile_adjustment. cbv zeta.
  case_match; [apply wrap_fits; lia|]. pose proof (wrap_fits 32 ltac:(lia) (- a)) as Hm.
  unfold fits in *. destruct (Z.ltb_spec (u32 (- a)) n); lia.
Qed.
