(* ===== verification/SchedulerWait.v ===== *)
(** * The scheduler: waiting for interrupts

    The horizons of [IntrWait] and [Halt], [wait_for_interrupt_mask] and the
    queued work of the emulated BIOS ([advance_hle_work]) of
    [src/core/core_scheduler.cpp]. *)

From S2P Require Import Prelude StateMonad Interrupts BusTypes WaitState.
From S2P Require Timers PpuTiming MemoryBus.
From S2P Require Import Apu Dma IoRegisters DmaTransfer Bios.
From S2P Require Import ArmTypes ArmState ArmMemory.
From S2P Require Import SchedulerTiming SchedulerProbe SchedulerState SchedulerDevices.

(** ** Horizons *)

(** [(mask & (1 << source)) != 0]. *)
Definition watches (mask : Z) (source : InterruptSource.t) : bool :=
  has mask (interrupt_bit source).

(** [horizon = std::min(horizon, distance)] when the source can rise. *)
Definition shorten (can_rise : bool) (distance horizon : Z) : Z :=
  if can_rise then Z.min horizon distance else horizon.

(* @ core_scheduler.cpp:2888-2893 CoreScheduler::intr_wait_ppu_horizon_cycles *)
Definition hblank_distance (p : PpuTiming.PpuTiming) : Z :=
  let line_cycle := PpuTiming.line_cycle p in
  if line_cycle <? PpuTiming.kHblankFlagCycles then PpuTiming.kHblankFlagCycles - line_cycle
  else u32 (PpuTiming.kCyclesPerLine - line_cycle + PpuTiming.kHblankFlagCycles).

(* @ core_scheduler.cpp:2896-2905 CoreScheduler::intr_wait_ppu_horizon_cycles *)
Definition vblank_distance (p : PpuTiming.PpuTiming) : Z :=
  let vblank_edge := u32 (PpuTiming.kVisibleLines * PpuTiming.kCyclesPerLine) in
  let frame_position := PpuTiming.frame_cycle p mod PpuTiming.kCyclesPerFrame in
  let distance :=
    u32 (vblank_edge + PpuTiming.kCyclesPerFrame - frame_position) mod PpuTiming.kCyclesPerFrame in
  if distance =? 0 then PpuTiming.kCyclesPerFrame else distance.

(* @ core_scheduler.cpp:2908-2917 CoreScheduler::intr_wait_ppu_horizon_cycles *)
Definition vcount_distance (p : PpuTiming.PpuTiming) : Z :=
  let setting := PpuTiming.vcount_setting p in
  let current_line := PpuTiming.vcount p in
  let lines_until_match :=
    u32 (setting + PpuTiming.kTotalLines - current_line) mod PpuTiming.kTotalLines in
  let lines_until_match :=
    if lines_until_match =? 0 then PpuTiming.kTotalLines else lines_until_match in
  u32 ((lines_until_match - 1) * PpuTiming.kCyclesPerLine +
       u32 (PpuTiming.kCyclesPerLine - PpuTiming.line_cycle p)).

(* @ core_scheduler.cpp:2876-2920 CoreScheduler::intr_wait_ppu_horizon_cycles *)
Definition intr_wait_ppu_horizon_cycles (mask : Z) (p : PpuTiming.PpuTiming) : Z :=
  let horizon := kIntrWaitCoarseBatchCycles in
  let horizon :=
    shorten (watches mask InterruptSource.hblank && PpuTiming.hblank_irq_enabled p)
      (hblank_distance p) horizon in
  let horizon :=
    shorten (watches mask InterruptSource.vblank && PpuTiming.vblank_irq_enabled p)
      (vblank_distance p) horizon in
  shorten (watches mask InterruptSource.vcount && PpuTiming.vcount_irq_enabled p)
    (vcount_distance p) horizon.

(** A timer that counts cycles by itself, and the cycles until it overflows. *)
(* @ core_scheduler.cpp:2929-2944 CoreScheduler::intr_wait_timer_horizon_cycles *)
Definition root_overflow (timer : nat) (ts : Timers.Timers) : exc (option Z) :=
  en ← Timers.enabled timer ts;
  if negb en then Ret None
  else
    cascades ← Timers.count_up timer ts;
    if (cascades : bool) then Ret None
    else
      cycles_until_tick ← Timers.cycles_until_next_prescaler_tick timer ts;
      counter ← Timers.counter_at timer ts;
      divisor ← Timers.prescaler_divisor timer ts;
      let ticks_to_overflow := u32 (0x10000 - counter) in
      Ret (Some (u64 (cycles_until_tick + u64 (u32 (ticks_to_overflow - 1) * divisor)))).

(** The flags [has_root] and [earliest_root]. *)
(* @ core_scheduler.cpp:2926-2945 CoreScheduler::intr_wait_timer_horizon_cycles *)
Fixpoint timer_roots (timers : list nat) (ts : Timers.Timers) (earliest_root : Z)
    : exc (list bool * Z) :=
  match timers with
  | [] => Ret ([], earliest_root)
  | timer :: timers' =>
      distance ← root_overflow timer ts;
      let earliest_root :=
        match distance with
        | Some distance => Z.min earliest_root (u32 (Z.min distance 0xFFFFFFFF))
        | None => earliest_root
        end in
      '(roots, earliest_root) ← timer_roots timers' ts earliest_root;
      Ret (bool_decide (is_Some distance) :: roots, earliest_root)
  end.

(** The second loop: a watched timer with a root at or below it. *)
(* @ core_scheduler.cpp:2946-2957 CoreScheduler::intr_wait_timer_horizon_cycles *)
Definition watched_root (mask : Z) (roots : list bool) (timer : nat) : bool :=
  let timer_bit :=
    u16 (Z.shiftl 1 (InterruptSource.index InterruptSource.timer0 + Z.of_nat timer)) in
  has mask timer_bit && existsb id (take (S timer) roots).

(* @ core_scheduler.cpp:2922-2960 CoreScheduler::intr_wait_timer_horizon_cycles *)
Definition intr_wait_timer_horizon_cycles (mask : Z) (ts : Timers.Timers) : exc Z :=
  '(roots, earliest_root) ← timer_roots (seq 0 Timers.kTimerCount) ts kIntrWaitCoarseBatchCycles;
  Ret (if existsb (watched_root mask roots) (seq 0 Timers.kTimerCount)
       then Z.min kIntrWaitCoarseBatchCycles (Z.max earliest_root 1)
       else kIntrWaitCoarseBatchCycles).

(* @ core_scheduler.cpp:2962-2973 CoreScheduler::intr_wait_serial_horizon_cycles *)
Definition intr_wait_serial_horizon_cycles (mask : Z) (c : Core) : Z :=
  if negb (io_ (sched c)) || negb (watches mask InterruptSource.serial) ||
     negb (sio_transfer_active (devices_of c))
  then kIntrWaitCoarseBatchCycles
  else Z.max (sio_transfer_cycles_remaining (devices_of c)) 1.

(* @ core_scheduler.cpp:2975-2980 CoreScheduler::intr_wait_batch_cycles *)
Definition intr_wait_batch_cycles (mask : Z) (c : Core) : exc Z :=
  timers ← intr_wait_timer_horizon_cycles mask (timers_ (devices_of c));
  let shortest :=
    Z.min (Z.min (intr_wait_ppu_horizon_cycles mask (ppu (devices_of c))) timers)
      (intr_wait_serial_horizon_cycles mask c) in
  Ret (Z.min (Z.max shortest 1) kIntrWaitCoarseBatchCycles).

(** ** Waiting *)

(** A pending interrupt that the processor accepts is delivered at once. *)
(* @ core_scheduler.cpp:2995-2998 CoreScheduler::wait_for_interrupt_mask *)
Definition expose_irq_line : SCH unit :=
  line ← gets irq_line_to_cpu;
  when line (set_sched (fun s =>
    s <| auto_irq_line_high_ := true |> <| auto_irq_latency_cycles_ := 0 |>)).

(** [(interrupts_.interrupt_flags() & mask) != 0]. *)
Definition flags_match (mask : Z) (c : Core) : bool :=
  has (interrupt_flags (interrupts (devices_of c))) mask.

(** The [for] loop; each batch is at least one cycle, so [kMaxBiosWaitCycles]
    iterations are enough.  The result is the early [true], if any. *)
(* @ core_scheduler.cpp:2993-3005 CoreScheduler::wait_for_interrupt_mask *)
Definition wait_loop (mask : Z) : SCH bool := fun c =>
  loop 20 (fun st =>
    let '(cycles, c) := st in
    if negb (cycles <? kMaxBiosWaitCycles) then Ret (inr (false, c))
    else if flags_match mask c then
      '(_, c) ← expose_irq_line c; Ret (inr (true, c))
    else
      let remaining := kMaxBiosWaitCycles - cycles in
      horizon ← intr_wait_batch_cycles mask c;
      let batch := Z.min horizon remaining in
      '(_, c) ← advance_devices batch c;
      Ret (inl (u32 (cycles + batch), c))) (0, c).

(* @ core_scheduler.cpp:2982-3012 CoreScheduler::wait_for_interrupt_mask *)
Definition wait_for_interrupt_mask (mask : Z) (discard_old_flags : bool) : SCH bool :=
  if mask =? 0 then mret false
  else
    when discard_old_flags
      (on_devices (fun d => Ret (tt, d <| interrupts ::= write_interrupt_flags mask |>)));;
    early ← wait_loop mask;
    if (early : bool) then mret true
    else
      matched ← gets (flags_match mask);
      when matched expose_irq_line;;
      mret matched.

(** ** Queued work of the emulated BIOS *)

(* @ core_scheduler.cpp:2461-2464 CoreScheduler::hle_irq_depth *)
Definition hle_irq_depth (s : CoreScheduler) : Z :=
  u32 (u32 (Z.of_nat (length (hle_irq_outer_frames_ s))) +
       (if bool_decide (is_Some (hle_irq_saved_registers_ s)) then 1 else 0)).

(* @ core_scheduler.cpp:2466-2468 CoreScheduler::queue_hle_work *)
Definition queue_hle_work (cycles : Z) (s : CoreScheduler) : CoreScheduler :=
  if negb (cycles =? 0)
  then s <| hle_work_frames_ ::= fun l => l ++ [mkHleWorkFrame cycles (hle_irq_depth s)] |>
  else s.

(** The work at the back belongs to the current interrupt depth, and the
    processor is not at an emulated vector. *)
(* @ core_scheduler.cpp:2471-2480 CoreScheduler::advance_hle_work *)
Definition current_work : SCH (option HleWorkFrame) :=
  s ← gets sched;
  match list.last (hle_work_frames_ s) with
  | None => mret None
  | Some frame =>
      if negb (owner_irq_depth frame =? hle_irq_depth s) then mret None
      else
        pc ← on_cpu (register_value kPc);
        mode ← gets (fun c => ArmState.mode_ (cpu_of c));
        mret (if bool_decide (mode = CpuMode.irq) &&
                 ((pc =? kIrqVectorAddress) || (pc =? kIrqReturnSentinelPc))
              then None else Some frame)
  end.

(** [hle_work_frames_.back().remaining_cycles -= cycles;] and the [pop_back] of
    finished work. *)
(* @ core_scheduler.cpp:2522-2523 CoreScheduler::advance_hle_work *)
Definition spend_work (cycles : Z) (s : CoreScheduler) : CoreScheduler :=
  s <| hle_work_frames_ ::= fun l =>
    match list.last l with
    | Some frame =>
        let left := u64 (remaining_cycles frame - cycles) in
        removelast l ++
        (if left =? 0 then [] else [mkHleWorkFrame left (owner_irq_depth frame)])
    | None => l
    end |>.

(** [auto_irq_ready() && service_pending_irq()], then the latency is reset. *)
(* @ core_scheduler.cpp:2524-2525 CoreScheduler::advance_hle_work *)
Definition service_if_ready : SCH bool :=
  ready ← gets auto_irq_ready;
  serviced ← (if (ready : bool) then service_pending_irq false false else mret false);
  when serviced (set_sched reset_auto_irq_latency);;
  mret serviced.

(** The cycles of the next slice of work. *)
(* @ core_scheduler.cpp:2506-2520 CoreScheduler::advance_hle_work *)
Definition work_slice (frame : HleWorkFrame) (c : Core) : exc Z :=
  let s := sched c in
  let frame_remaining :=
    u32 (PpuTiming.kCyclesPerFrame - scheduler_cycles_ s mod PpuTiming.kCyclesPerFrame) in
  let line_cycle := PpuTiming.line_cycle (ppu (devices_of c)) in
  let ppu_remaining := u32 (next_boundary line_cycle - line_cycle) in
  batch ← intr_wait_batch_cycles kSupportedMask c;
  let cycles :=
    u32 (Z.min (remaining_cycles frame) (Z.min (Z.min batch frame_remaining) ppu_remaining)) in
  Ret (if auto_irq_line_high_ s && negb (auto_irq_latency_cycles_ s =? 0)
       then Z.min cycles (auto_irq_latency_cycles_ s) else cycles).

(** The lambda [result]. *)
(* @ core_scheduler.cpp:2489-2493 CoreScheduler::advance_hle_work *)
Definition work_result (devices : CoreDeviceTickResult) (dma : DmaRunResult) (cycles : Z)
    (irq_serviced : bool) : SCH (option CoreSchedulerStepResult) :=
  c ← gets (fun c => c);
  mret (Some (mkCoreSchedulerStepResult
    (mkArmStepResult ExecuteStatus.executed cycles (elapsed_cycles_ (cpu_of c)) false false)
    devices dma irq_serviced (scheduler_cycles_ (sched c)) None)).

(* @ core_scheduler.cpp:2470-2527 CoreScheduler::advance_hle_work *)
Definition advance_hle_work : SCH (option CoreSchedulerStepResult) :=
  work ← current_work;
  match work with
  | None => mret None
  | Some frame =>
      set_sched (fun s =>
        reset_fetch_timing_sequence s <| previous_thumb_internal_load_ := false |>
          <| suppress_next_thumb_prefetch_execute_bubble_ := false |>);;
      frame_before_dma ←
        gets (fun c => scheduler_cycles_ (sched c) / PpuTiming.kCyclesPerFrame);
      dma ← run_immediate_dma;
      devices ←
        (if negb (bus_cycles dma =? 0) then advance_devices (bus_cycles dma)
         else mret no_device_ticks);
      frame_now ← gets (fun c => scheduler_cycles_ (sched c) / PpuTiming.kCyclesPerFrame);
      if negb (frame_now =? frame_before_dma) then work_result devices dma 0 false
      else
        line ← gets irq_line_to_cpu;
        serviced ←
          (if (line : bool) then update_auto_irq_latency 0;; service_if_ready else mret false);
        if (serviced : bool) then work_result devices dma 0 true
        else
          c ← gets (fun c => c);
          cycles ← lift (work_slice frame c);
          ticks ← advance_devices cycles;
          set_sched (spend_work cycles);;
          irq_serviced ← service_if_ready;
          work_result (merge_device_ticks devices ticks) dma cycles irq_serviced
  end.

(* @ core_scheduler.cpp:2529-2538 CoreScheduler::step_hle_work_from_pc *)
Definition step_hle_work_from_pc : SCH (option CoreSchedulerFetchStepResult) :=
  thumb ← gets (fun c => thumb_state_ (cpu_of c));
  pc ← on_cpu (register_value kPc);
  work ← advance_hle_work;
  let whole (step : CoreSchedulerStepResult) :=
    mkCoreSchedulerFetchStepResult
      (if (thumb : bool) then CoreInstructionSet.thumb else CoreInstructionSet.arm)
      (if thumb then 2 else 4) pc None (Some step) 0 false false false false false false 0 false in
  mret (whole <$> work).

(* @ core_scheduler.cpp:2540-2554 CoreScheduler::hle_memory_cycles *)
Definition hle_memory_cycles (address : Z) (width : AccessWidth.t) (load : bool) (c : Core) : Z :=
  let control := match waitcnt_ptr c with Some w => w | None => WaitState.reset end in
  let timing := timing_waitcnt address width control in
  let rom := in_region Region.game_pak_rom address in
  let cycles := nonsequential timing in
  let cycles :=
    if rom || in_region Region.game_pak_save address then
      let cycles := u64 (cycles + 1) in
      if rom && bool_decide (width = AccessWidth.word)
      then u64 (cycles + u32 (sequential timing + 1)) else cycles
    else cycles in
  u64 (cycles + (if load then 1 else 0)).
