(* ===== verification/SchedulerWaitSafety.v ===== *)
(** * The scheduler: waiting ends

    The batches of [IntrWait] are between 1 and 64 cycles, so the wait of at
    most two frames ends; it reports whether the interrupt it waited for is
    pending.  The queued work of the emulated BIOS and the interrupts it
    services are safe. *)

From S2P Require ArmExecute.
From S2P Require Import Prelude StateMonad StateHash Interrupts BusTypes WaitState.
From S2P Require Timers PpuTiming MemoryBus TimersSpec PpuTimingSpec.
From S2P Require Import Apu Dma IoRegisters DmaTransfer Bios.
From S2P Require Import ArmTypes ArmState ArmMemory BusInterface.
From S2P Require Import ArmSafety ArmTotal ArmMemorySafety ArmStepSafety.
From S2P Require Import IoRegistersSpec DmaTransferSpec.
From S2P Require Import SchedulerTiming SchedulerProbe SchedulerState SchedulerDevices.
From S2P Require Import SchedulerDevicesSpec SchedulerSafety SchedulerProbeSafety SchedulerWait.

(** ** Horizons *)

Section Horizons.
Context (d : Devices) (Hd : devices_wf d).

Lemma root_ret i : (i < Timers.kTimerCount)%nat ->
  ensures (fun _ => True) (root_overflow i (timers_ d)).
Proof using Hd.
  intros Hi. unfold root_overflow. destruct (timer_exists_at d Hd i Hi) as [t E].
  unfold Timers.enabled, Timers.count_up, Timers.prescaler_divisor. rewrite E.
  cbn [mbind exc_bind]. case_match; [by apply ensures_ret|].
  assert (Hcu : exists b, (if (i =? 0)%nat then Ret false else Ret (has (Timers.control t) Timers.kCountUpFlag)) = Ret b).
  { case_match; eauto. }
  destruct Hcu as [b ->]. cbn [mbind exc_bind]. case_match; [by apply ensures_ret|].
  apply (ensures_bind _ _ _ _ (until_tick_ret d Hd i Hi)). intros u _.
  apply (ensures_bind _ _ _ _ (counter_ret d Hd i Hi)). intros n _. by apply ensures_ret.
Qed.

Lemma roots_ret l e : Forall (fun i => (i < Timers.kTimerCount)%nat) l ->
  ensures (fun _ => True) (timer_roots l (timers_ d) e).
Proof using Hd.
  intros Hl. revert e. induction Hl as [|i l Hi _ IH]; intros e; cbn [timer_roots].
  { by apply ensures_ret. }
  apply (ensures_bind _ _ _ _ (root_ret i Hi)). intros o _. cbv zeta.
  eapply ensures_bind; [apply IH|]. intros [r e'] _. by apply ensures_ret.
Qed.

Lemma timer_horizon_ret mask :
  ensures (fun _ => True) (intr_wait_timer_horizon_cycles mask (timers_ d)).
Proof using Hd.
  unfold intr_wait_timer_horizon_cycles. eapply ensures_bind.
  { apply roots_ret. unfold Timers.kTimerCount. repeat constructor. }
  intros [r e] _. by apply ensures_ret.
Qed.
End Horizons.

(** A batch is between 1 and 64 cycles. *)
Lemma batch_bounds mask c : core_ok c ->
  ensures (fun n => 1 <= n <= kIntrWaitCoarseBatchCycles) (intr_wait_batch_cycles mask c).
Proof.
  intros Hc. unfold intr_wait_batch_cycles.
  eapply ensures_bind; [apply timer_horizon_ret, (inv_devices core_ok), Hc|]. intros n _.
  apply ensures_ret. cbv zeta. unfold kIntrWaitCoarseBatchCycles. lia.
Qed.

(** ** Waiting *)

Lemma safe_expose : safe core_ok expose_irq_line.
Proof.
  unfold expose_irq_line. eapply (safe_bind _ (HA := typed_bool)); [by apply safe_gets|].
  intros line _. apply safe_when, safe_set_sched. intros s. sched_fields.
Qed.

(** Exposing the line touches only the latency. *)
Lemma expose_devices c c' r : expose_irq_line c = Ret (r, c') -> devices_of c' = devices_of c.
Proof. unfold expose_irq_line, mbind, st_bind, gets. destruct (irq_line_to_cpu c); by intros [= _ <-]. Qed.

(** Batches of a wait while the interrupt is not there: [n] cycles in all. *)
Inductive idle (mask : Z) (c0 : Core) : Z -> Core -> Prop :=
| idle_start : idle mask c0 0 c0
| idle_batch n c h r c' :
    idle mask c0 n c -> n < kMaxBiosWaitCycles -> flags_match mask c = false ->
    intr_wait_batch_cycles mask c = Ret h ->
    advance_devices (Z.min h (kMaxBiosWaitCycles - n)) c = Ret (r, c') ->
    idle mask c0 (n + Z.min h (kMaxBiosWaitCycles - n)) c'.

(** The wait from [c0] that ends in [c']: at the first batch that finds the
    interrupt, which the processor then sees, or after [kMaxBiosWaitCycles]
    without it. *)
Definition waited (mask : Z) (c0 : Core) (b : bool) (c' : Core) : Prop :=
  exists n c1, idle mask c0 n c1 /\ 0 <= n <= kMaxBiosWaitCycles /\
    if b then flags_match mask c1 = true /\ expose_irq_line c1 = Ret (tt, c')
    else n = kMaxBiosWaitCycles /\ flags_match mask c1 = false /\ c' = c1.

Lemma wait_loop_run mask c : core_ok c ->
  exists b c', wait_loop mask c = Ret (b, c') /\ core_ok c' /\
    if b then waited mask c true c' else idle mask c kMaxBiosWaitCycles c'.
Proof.
  intros Hc. unfold wait_loop.
  match goal with |- context [loop 20 ?f _] =>
    destruct (loop_total f
      (fun st => 0 <= st.1 <= kMaxBiosWaitCycles /\ core_ok st.2 /\ idle mask c st.1 st.2)
      (fun r => core_ok r.2 /\
         if r.1 then waited mask c true r.2 else idle mask c kMaxBiosWaitCycles r.2)
      (fun st => kMaxBiosWaitCycles - st.1)) with (k := 20%nat) (s := (0, c)) as ([b c'] & E & H)
  end.
  - intros [n x] (Hn & Hx & Hi). cbn [fst snd] in Hn, Hx, Hi.
    destruct (Z.ltb_spec n kMaxBiosWaitCycles) as [Hlt|Hge]; cbn [negb].
    + destruct (flags_match mask x) eqn:Ef.
      * destruct (safe_expose x Hx) as ([] & x' & E & _ & Hx'). rewrite E. cbn [mbind exc_bind].
        exists (inr (true, x')). split; [done|]. split; [done|].
        exists n, x. split; [done|]. split; [lia|done].
      * destruct (batch_bounds mask x Hx) as (h & Eh & Hh). rewrite Eh. cbn [mbind exc_bind]. cbv zeta.
        assert (Hk : kMaxBiosWaitCycles = 561792) by done.
        assert (Hb : 1 <= Z.min h (kMaxBiosWaitCycles - n) <= kMaxBiosWaitCycles - n).
        { unfold kIntrWaitCoarseBatchCycles in *. lia. }
        destruct (safe_advance (Z.min h (kMaxBiosWaitCycles - n))) with (s := x) as (t & x' & E & _ & Hx');
          [unfold fits; lia|done|].
        rewrite E. cbn [mbind exc_bind].
        eexists (inl (_, x')). split; [reflexivity|]. cbn [fst snd].
        rewrite wrap_id by (unfold fits; lia). split; [split; [lia|split; [done|by econstructor]]|lia].
    + exists (inr (false, x)). split; [done|]. split; [done|]. cbn.
      by replace kMaxBiosWaitCycles with n by lia.
  - split; [by vm_compute|]. split; [done|constructor].
  - by vm_compute.
  - exists b, c'. by split.
Qed.

(** The machine a wait starts on: old flags may be dropped. *)
Definition wait_start (mask : Z) (discard : bool) (c : Core) : Core :=
  if discard
  then (c.1, (cpu_of c, (bus_of c, (devices_of c) <| interrupts ::= write_interrupt_flags mask |>)))
  else c.

Lemma wait_start_run (mask : Z) (discard : bool) c :
  when discard (on_devices (fun d => Ret (tt, d <| interrupts ::= write_interrupt_flags mask |>))) c =
    Ret (tt, wait_start mask discard c).
Proof. destruct discard; [|done]. by destruct c as [s [cpu [b d]]]. Qed.

Lemma wait_start_ok mask discard c : core_ok c -> core_ok (wait_start mask discard c).
Proof.
  intros Hc. destruct discard; [|done]. destruct c as [s [cpu [b d]]]. destruct Hc as [[Hcpu [Hb Hd]] Hs].
  split; [|done]. split; [done|]. split; [done|]. apply wf_interrupts; [done|].
  apply write_interrupt_flags_wf, Hd.
Qed.

(** A wait ends, and reports whether the flag it waited for is set. *)
Lemma wait_run mask discard c : core_ok c -> mask <> 0 ->
  exists b c', wait_for_interrupt_mask mask discard c = Ret (b, c') /\ core_ok c' /\
    b = flags_match mask c' /\ waited mask (wait_start mask discard c) b c'.
Proof.
  intros Hc Hm. unfold wait_for_interrupt_mask. destruct (Z.eqb_spec mask 0); [done|].
  rewrite (bind_Ret _ _ _ _ _ (wait_start_run mask discard c)).
  apply (wait_start_ok mask discard) in Hc. set (c0 := wait_start mask discard c) in *.
  destruct (wait_loop_run mask c0 Hc) as (b & x & E & Hx & H). rewrite (bind_Ret _ _ _ _ _ E).
  destruct b.
  { exists true, x. split; [done|]. split; [done|]. split; [|done].
    destruct H as (k & c1 & _ & _ & Hf & Ee). unfold flags_match in *.
    by rewrite (expose_devices _ _ _ Ee). }
  rewrite bind_gets. destruct (flags_match mask x) eqn:Ef.
  - destruct (safe_expose x Hx) as ([] & x' & Ee & _ & Hx'). exists true, x'.
    split; [cbn [when]; by rewrite (bind_Ret _ _ _ _ _ Ee)|]. split; [done|].
    split; [unfold flags_match in *; by rewrite (expose_devices _ _ _ Ee)|].
    exists kMaxBiosWaitCycles, x. by split_and!.
  - exists false, x. split; [done|]. split; [done|]. split; [done|].
    exists kMaxBiosWaitCycles, x. by split_and!.
Qed.

Lemma safe_wait mask discard : safe core_ok (wait_for_interrupt_mask mask discard).
Proof.
  intros c Hc. destruct (decide (mask = 0)) as [->|Hm]; [by exists false, c|].
  destruct (wait_run mask discard c Hc Hm) as (b & c' & E & Hc' & _). by exists b, c'.
Qed.

(** ** Servicing interrupts *)

#[export] Instance typed_core : Typed Core := core_ok.
#[export] Instance typed_scheduler : Typed CoreScheduler := scheduler_wf.
#[export] Instance typed_devices : Typed Devices := devices_wf.
#[export] Instance typed_work_frame : Typed HleWorkFrame := work_frame_typed.
#[export] Instance typed_step : Typed CoreSchedulerStepResult := fun r =>
  typed (cpu_step r) /\ typed (step_devices r) /\ result_ok (immediate_dma r) /\
  fits 64 (step_scheduler_cycles r).
#[export] Instance typed_fetch_step : Typed CoreSchedulerFetchStepResult := fun r =>
  typed (fetch_step r) /\ (fetch_failed r = false -> is_Some (fetch_step r)).

Lemma safe_ask_core : safe core_ok (gets (fun c => c)).
Proof. by apply safe_gets. Qed.

Lemma safe_ask_sched : safe core_ok (gets sched).
Proof. apply safe_gets. by intros c [_ Hs]. Qed.

Lemma safe_ask_devices : safe core_ok (gets devices_of).
Proof. apply safe_gets. intros c Hc. by apply (inv_devices core_ok). Qed.

Lemma safe_ask_bool (f : Core -> bool) : safe core_ok (gets f).
Proof. by apply safe_gets. Qed.

#[export] Hint Resolve safe_ask_core safe_ask_sched safe_ask_devices safe_ask_bool
  no_ticks_typed no_dma_typed : safe.

Lemma merge_typed a b : typed (merge_device_ticks a b).
Proof. unfold typed, typed_ticks, result_ok. split_and!; apply wrap_fits; lia. Qed.

#[export] Hint Resolve merge_typed : safe.

Lemma safe_irq_exception ic : safe wf (ArmExecute.service_pending_irq ic).
Proof.
  unfold ArmExecute.service_pending_irq. eapply safe_bind; [apply safe_flag|]. intros masked _.
  apply safe_if; intros _; [by apply safe_ret|].
  eapply safe_bind; [apply safe_enter_exception|]. intros s _. by apply safe_ret.
Qed.

Lemma safe_record_link : safe core_ok record_irq_link.
Proof.
  unfold record_irq_link.
  eapply safe_bind; [apply safe_on_cpu, safe_register_value, lr_index|]. intros lr Hlr.
  apply safe_when. eapply safe_bind.
  { apply safe_set_sched. intros s Hs. destruct (hle_irq_return_lr_ s) eqn:E; [done|].
    revert Hs. sched_fields. }
  intros _ _. eapply safe_bind; [by apply safe_sched_write32|]. intros ok _. by apply safe_ret.
Qed.

Lemma mark_serviced_wf a b s : scheduler_wf s -> scheduler_wf (mark_serviced a b s).
Proof.
  unfold mark_serviced. cbv zeta. destruct (hle_irq_post_return_latency_armed_ s).
  - sched_fields. case_match; auto with sched.
  - sched_fields.
Qed.

Lemma safe_service a b : safe core_ok (SchedulerDevices.service_pending_irq a b).
Proof.
  unfold SchedulerDevices.service_pending_irq.
  eapply (safe_bind _ (HA := fun _ : InterruptController => True)); [by apply safe_gets|]. intros ic _.
  eapply safe_bind; [apply safe_on_cpu, safe_irq_exception|]. intros serviced _.
  eapply safe_bind; [apply safe_ask_bool|]. intros hle _.
  eapply safe_bind; [apply safe_when, safe_record_link|]. intros _ _.
  eapply safe_bind; [apply safe_when, safe_set_sched, mark_serviced_wf|]. intros _ _.
  by apply safe_ret.
Qed.

Lemma safe_reset_latency : safe core_ok (set_sched reset_auto_irq_latency).
Proof. apply safe_set_sched, reset_latency_wf. Qed.

Lemma safe_service_if_ready : safe core_ok service_if_ready.
Proof.
  unfold service_if_ready. eapply safe_bind; [apply safe_ask_bool|]. intros ready _.
  eapply safe_bind; [apply safe_if; intros _; [apply safe_service|by apply safe_ret]|].
  intros serviced _. eapply safe_bind; [apply safe_when, safe_reset_latency|]. intros _ _.
  by apply safe_ret.
Qed.

(** ** Queued work *)

Lemma depth_fits s : fits 32 (hle_irq_depth s).
Proof. apply wrap_fits. lia. Qed.

Lemma queue_work_wf n s : fits 64 n -> scheduler_wf s -> scheduler_wf (queue_hle_work n s).
Proof.
  intros Hn. unfold queue_hle_work. destruct (Z.eqb_spec n 0); [done|]. cbn [negb]. sched_fields.
  apply Forall_app. split; [done|]. constructor; [|constructor].
  split; [exact Hn|]. split; [done|apply depth_fits].
Qed.

Lemma removelast_forall {A} (P : A -> Prop) l : Forall P l -> Forall P (removelast l).
Proof.
  induction 1 as [|a l Ha Hl IH]; [constructor|]. cbn. destruct l; [constructor|by constructor].
Qed.

Lemma last_forall {A} (P : A -> Prop) (l : list A) a : Forall P l -> list.last l = Some a -> P a.
Proof.
  intros Hl E. apply last_Some in E as [l' ->]. apply Forall_app in Hl as [_ Hl].
  by apply Forall_cons_1 in Hl as [Ha _].
Qed.

Lemma spend_work_wf n s : scheduler_wf s -> scheduler_wf (spend_work n s).
Proof.
  unfold spend_work. sched_fields. destruct (list.last (hle_work_frames_ s)) as [f|] eqn:E; [|done].
  apply Forall_app. split; [by apply removelast_forall|]. cbv zeta.
  pose proof (last_forall _ _ _ sw_work E) as (_ & _ & Ho).
  destruct (Z.eqb_spec (u64 (remaining_cycles f - n)) 0); constructor; [|constructor].
  split_and!; [apply wrap_fits; lia|done|done].
Qed.

Lemma safe_current_work : safe core_ok current_work.
Proof.
  unfold current_work. eapply safe_bind; [apply safe_ask_sched|]. intros s Hs.
  destruct (list.last (hle_work_frames_ s)) as [f|] eqn:E; [|by apply safe_ret; intros ? ?].
  pose proof (last_forall _ _ _ (SchedulerSafety.sw_work s Hs) E) as Hf.
  apply safe_if; intros _; [by apply safe_ret; intros ? ?|].
  eapply safe_bind; [apply safe_on_cpu, safe_register_value, pc_index|]. intros pc _.
  eapply (safe_bind _ (HA := typed_mode)); [by apply safe_gets|]. intros mode _.
  apply safe_ret. case_match; [by intros ? ?|by apply typed_Some].
Qed.

Lemma slice_fits f c : core_ok c -> ensures (fits 32) (work_slice f c).
Proof.
  intros Hc. unfold work_slice. cbv zeta.
  apply (ensures_bind _ _ _ _ (batch_bounds kSupportedMask c Hc)). intros batch _.
  apply ensures_ret. set (n := u32 _). assert (Hn : fits 32 n) by (apply wrap_fits; lia).
  case_match; [|done]. destruct Hc as [_ []]. unfold fits in *. unfold sched. lia.
Qed.

Lemma safe_work_result a b n i : typed a -> result_ok b -> fits 32 n ->
  safe core_ok (work_result a b n i).
Proof.
  intros Ha Hb Hn. unfold work_result. eapply safe_bind; [apply safe_ask_core|]. intros c [_ Hs].
  apply safe_ret, typed_Some. split; [exact Hn|]. split; [exact Ha|]. split; [exact Hb|apply Hs].
Qed.

Lemma safe_advance_if (b : bool) n (Hn : fits 32 n) :
  safe core_ok (if b then advance_devices n else mret no_device_ticks).
Proof. apply safe_if; intros _; [by apply safe_advance|apply safe_ret, no_ticks_typed]. Qed.

Lemma safe_advance_work : safe core_ok advance_hle_work.
Proof.
  unfold advance_hle_work. eapply safe_bind; [apply safe_current_work|]. intros [f|] Hf;
    [|by apply safe_ret; intros ? ?].
  eapply safe_bind; [apply safe_set_sched; intros s Hs%reset_fetch_wf; revert Hs; sched_fields|].
  intros _ _.
  eapply (safe_bind _ (HA := fun _ : Z => True)); [by apply safe_gets|]. intros before _.
  eapply safe_bind; [apply (safe_run_immediate core_ok)|]. intros dma Hdma.
  eapply safe_bind; [apply safe_advance_if, Hdma|]. intros ticks Ht.
  eapply (safe_bind _ (HA := fun _ : Z => True)); [by apply safe_gets|]. intros now _.
  apply safe_if; intros _; [by apply safe_work_result|].
  eapply safe_bind; [apply safe_ask_bool|]. intros line _.
  eapply safe_bind.
  { apply safe_if; intros _; [|by apply safe_ret].
    eapply safe_bind; [by apply safe_update_latency|]. intros _ _. apply safe_service_if_ready. }
  intros serviced _. apply safe_if; intros _; [by apply safe_work_result|].
  eapply safe_bind; [apply safe_ask_core|]. intros c Hc.
  eapply safe_bind; [apply safe_ensures, (slice_fits f c Hc)|]. intros n Hn.
  eapply safe_bind; [by apply safe_advance|]. intros more Hmore.
  eapply safe_bind; [apply safe_set_sched, spend_work_wf|]. intros _ _.
  eapply safe_bind; [apply safe_service_if_ready|]. intros irq _.
  apply safe_work_result; [apply merge_typed|done|done].
Qed.

Lemma safe_step_work : safe core_ok step_hle_work_from_pc.
Proof.
  unfold step_hle_work_from_pc. eapply safe_bind; [apply safe_ask_bool|]. intros thumb _.
  eapply safe_bind; [apply safe_on_cpu, safe_register_value, pc_index|]. intros pc _.
  eapply safe_bind; [apply safe_advance_work|]. intros [w|] Hw; apply safe_ret.
  - apply typed_Some. split; [|by eexists]. by apply typed_Some, Hw.
  - by intros ? ?.
Qed.
