(* ===== verification/SchedulerIrq.v ===== *)
(** * The scheduler: interrupts of the emulated BIOS

    [dispatch_hle_irq_vector] and [dispatch_hle_irq_return] of
    [src/core/core_scheduler.cpp]: without BIOS code, the scheduler enters the
    user's handler at the IRQ vector and restores the interrupted program when
    the handler returns to the sentinel address. *)

From S2P Require Import Prelude StateMonad Interrupts BusTypes WaitState.
From S2P Require Timers PpuTiming MemoryBus.
From S2P Require Import Apu Dma IoRegisters DmaTransfer Bios.
From S2P Require Import ArmTypes ArmState ArmExecute ArmMemory.
From S2P Require Import SchedulerTiming SchedulerProbe SchedulerState SchedulerDevices.
From S2P Require Import SchedulerWait.

Definition read32 (address : Z) (c : Core) : option Z :=
  MemoryBus.read32 io_callbacks address (machine_of c).

(** A step that executed for [cycles]. *)
Definition hle_step (status : ExecuteStatus.t) (cycles : Z) (c : Core) : ArmStepResult :=
  mkArmStepResult status cycles (elapsed_cycles_ (cpu_of c)) false false.

(** [CoreSchedulerStepResult{step, devices, {}, irq_serviced, scheduler_cycles_, nullopt}]. *)
Definition step_of (step : ArmStepResult) (devices : CoreDeviceTickResult) (irq_serviced : bool)
    (c : Core) : CoreSchedulerStepResult :=
  mkCoreSchedulerStepResult step devices no_dma irq_serviced (scheduler_cycles_ (sched c)) None.

(** ** Entering the handler *)

(** The registers R0 to R12. *)
(* @ core_scheduler.cpp:2614-2617 CoreScheduler::dispatch_hle_irq_vector *)
Fixpoint saved_of (registers : list Z) : CPU (list Z) :=
  match registers with
  | [] => mret []
  | r :: registers' =>
      value ← register_value r; rest ← saved_of registers'; mret (value :: rest)
  end.

Definition kSavedRegisters : list Z := seqZ 0 13.

(** The timing record of the dispatch. *)
(* @ core_scheduler.cpp:2574-2584 CoreScheduler::dispatch_hle_irq_vector *)
Definition dispatch_timing (c : Core) : exc BiosIrqDispatchTiming :=
  let s := sched c in
  timer0_reload ← Timers.reload_at 0 (timers_ (devices_of c));
  Ret (mkBiosIrqDispatchTiming (hle_irq_reentry_dispatch_pending_ s)
         (hle_irq_post_return_dispatch_pending_ s)
         (hle_irq_chained_post_return_dispatch_pending_ s)
         (hle_irq_chained_post_return_data_dispatch_pending_ s)
         (hle_irq_chained_post_return_spaced_data_dispatch_pending_ s)
         (requested InterruptSource.timer0 (interrupts (devices_of c)))
         timer0_reload (timer_io_access_gap_cycles_ s)).

(** A nested dispatch keeps the frame of the interrupted handler. *)
(* @ core_scheduler.cpp:2595-2599 CoreScheduler::dispatch_hle_irq_vector *)
Definition push_outer_frame (nested : bool) (s : CoreScheduler) : CoreScheduler :=
  if nested then
    s <| hle_irq_outer_frames_ ::= fun l =>
           l ++ [mkHleIrqFrame (default 0 (hle_irq_return_lr_ s)) (hle_irq_saved_registers_ s)
                   (hle_irq_long_timer_chained_return_pending_ s)
                   (hle_irq_slow_timer0_return_pending_ s)] |>
  else s.

(** The flags of the dispatch. *)
(* @ core_scheduler.cpp:2600-2609 CoreScheduler::dispatch_hle_irq_vector *)
Definition begin_dispatch (long_timer slow_timer0 : bool) (s : CoreScheduler) : CoreScheduler :=
  s <| hle_irq_reentry_dispatch_pending_ := false |>
    <| hle_irq_post_return_dispatch_pending_ := false |>
    <| hle_irq_chained_post_return_dispatch_pending_ := false |>
    <| hle_irq_chained_post_return_data_dispatch_pending_ := false |>
    <| hle_irq_chained_post_return_spaced_data_dispatch_pending_ := false |>
    <| hle_irq_long_timer_chained_return_pending_ := long_timer |>
    <| hle_irq_slow_timer0_return_pending_ := slow_timer0 |>.

(** The dispatch to [handler], once the handler's instruction set is selected. *)
(* @ core_scheduler.cpp:2574-2625 CoreScheduler::dispatch_hle_irq_vector *)
Definition enter_handler (handler : Z) : SCH CoreSchedulerStepResult :=
  c ← gets (fun c => c);
  irq_timing ← lift (dispatch_timing c);
  let dispatch_cycles := irq_dispatch_cycles irq_timing in
  let long_timer_chained_post_return_dispatch :=
    chained_post_return irq_timing && timer0_interrupt_requested irq_timing &&
    (timer0_reload irq_timing <=? 0xFF80) in
  irq_link ← on_cpu (register_value kLinkRegister);
  let s := sched c in
  let nested :=
    bool_decide (is_Some (hle_irq_return_lr_ s)) &&
    bool_decide (is_Some (hle_irq_saved_registers_ s)) &&
    negb (irq_link =? kIrqReturnSentinelPc) in
  divisor ← lift (Timers.prescaler_divisor 0 (timers_ (devices_of c)));
  let slow_timer0 :=
    requested InterruptSource.timer0 (interrupts (devices_of c)) && (1 <? divisor) in
  set_sched (fun s =>
    begin_dispatch long_timer_chained_post_return_dispatch slow_timer0
      (push_outer_frame nested s));;
  when (negb (irq_link =? kIrqReturnSentinelPc))
    (set_sched (fun s => s <| hle_irq_return_lr_ := Some irq_link |>);;
     when (negb nested) (_ ← write32 0x03007FF8 irq_link; mret tt));;
  saved_registers ← on_cpu (saved_of kSavedRegisters);
  set_sched (fun s => s <| hle_irq_saved_registers_ := Some saved_registers |>);;
  on_cpu (set_register kLinkRegister kIrqReturnSentinelPc);;
  on_cpu (set_register kPc (Z.land handler (not32 1)));;
  cpu_step ← gets (hle_step ExecuteStatus.executed dispatch_cycles);
  devices ← advance_devices dispatch_cycles;
  gets (step_of cpu_step devices false).

(* @ core_scheduler.cpp:2556-2626 CoreScheduler::dispatch_hle_irq_vector *)
Definition dispatch_hle_irq_vector (fetch_address : Z) : SCH (option CoreSchedulerStepResult) :=
  c ← gets (fun c => c);
  if negb (bios_hle_enabled (sched c)) || negb (fetch_address =? kIrqVectorAddress) ||
     negb (bool_decide (ArmState.mode_ (cpu_of c) = CpuMode.irq))
  then mret None
  else
    match read32 kUserIrqHandlerPointer c with
    | None | Some 0 => mret None
    | Some handler =>
        let thumb_handler := has handler 0x1 in
        let status := cpsr (cpu_of c) in
        selected ← on_cpu (act (set_cpsr
                     (if thumb_handler then Z.lor status 0x20 else Z.land status (not32 0x20))));
        if negb selected then mret None
        else step ← enter_handler handler; mret (Some step)
    end.

(** ** Leaving the handler *)

(** The return address, read back from memory when the scheduler has none. *)
(* @ core_scheduler.cpp:2635-2643 CoreScheduler::dispatch_hle_irq_return *)
Definition recall_return_lr : SCH (option Z) :=
  c ← gets (fun c => c);
  match hle_irq_return_lr_ (sched c) with
  | Some lr => mret (Some lr)
  | None =>
      match read32 0x03007FF8 c with
      | Some lr =>
          if negb (lr =? 0) && negb (lr =? kIrqReturnSentinelPc) then
            set_sched (fun s => s <| hle_irq_return_lr_ := Some lr |>);; mret (Some lr)
          else mret None
      | None => mret None
      end
  end.

(** The saved registers are written back. *)
(* @ core_scheduler.cpp:2648-2650 CoreScheduler::dispatch_hle_irq_return *)
Fixpoint restore_registers (index : Z) (values : list Z) : CPU unit :=
  match values with
  | [] => mret tt
  | value :: values' => set_register index value;; restore_registers (index + 1) values'
  end.

(* @ core_scheduler.cpp:2647-2652 CoreScheduler::dispatch_hle_irq_return *)
Definition restore_saved : SCH unit :=
  saved ← gets (fun c => hle_irq_saved_registers_ (sched c));
  match saved with
  | Some values =>
      on_cpu (restore_registers 0 values);;
      set_sched (fun s => s <| hle_irq_saved_registers_ := None |>)
  | None => mret tt
  end.

(** The frame of the interrupted handler, if the returning one was nested. *)
(* @ core_scheduler.cpp:2670-2677 CoreScheduler::dispatch_hle_irq_return *)
Definition pop_outer_frame (s : CoreScheduler) : CoreScheduler :=
  match list.last (hle_irq_outer_frames_ s) with
  | Some frame =>
      s <| hle_irq_outer_frames_ ::= fun l => removelast l |>
        <| hle_irq_return_lr_ := Some (return_lr frame) |>
        <| hle_irq_saved_registers_ := saved_registers frame |>
        <| hle_irq_long_timer_chained_return_pending_ := long_timer_return_pending frame |>
        <| hle_irq_slow_timer0_return_pending_ := slow_timer0_return_pending frame |>
  | None => s
  end.

(** [hle_irq_slow_timer0_return_pending_ && timers_.enabled(0) && divisor > 1]. *)
(* @ core_scheduler.cpp:2663-2665 CoreScheduler::dispatch_hle_irq_return *)
Definition slow_timer0_active_return (c : Core) : exc bool :=
  if negb (hle_irq_slow_timer0_return_pending_ (sched c)) then Ret false
  else
    en ← Timers.enabled 0 (timers_ (devices_of c));
    divisor ← Timers.prescaler_divisor 0 (timers_ (devices_of c));
    Ret (en && (1 <? divisor)).

(** An interrupt that is already pending is taken at once. *)
(* @ core_scheduler.cpp:2683-2698 CoreScheduler::dispatch_hle_irq_return *)
Definition service_on_return : SCH bool :=
  line ← gets irq_line_to_cpu;
  irq_serviced ←
    (if (line : bool) then
       irq_serviced ← service_pending_irq false false;
       (if (irq_serviced : bool) then
          set_sched (fun s =>
            reset_auto_irq_latency
              (s <| hle_irq_reentry_dispatch_pending_ := true |>
                 <| hle_irq_return_latency_pending_ := false |>))
        else
          set_sched (fun s =>
            s <| auto_irq_line_high_ := true |> <| auto_irq_latency_cycles_ := 0 |>));;
       mret irq_serviced
     else mret false);
  when (negb irq_serviced)
    (set_sched (fun s => s <| hle_irq_return_latency_pending_ := true |>));;
  mret irq_serviced.

(** After the exception return. *)
(* @ core_scheduler.cpp:2661-2700 CoreScheduler::dispatch_hle_irq_return *)
Definition finish_return (status : ExecuteStatus.t) : SCH CoreSchedulerStepResult :=
  set_sched (fun s => s <| hle_irq_return_lr_ := None |>);;
  c ← gets (fun c => c);
  count ← on_cpu (recover_thumb_state_from_rom_misfetch io_callbacks (machine_of c)
                    (thumb_misfetch_recovery_count_ (sched c)));
  set_sched (fun s => s <| thumb_misfetch_recovery_count_ := count |>);;
  slow ← lift (slow_timer0_active_return c);
  let return_cycles :=
    irq_return_cycles (hle_irq_long_timer_chained_return_pending_ (sched c)) slow in
  set_sched (fun s =>
    pop_outer_frame
      (s <| hle_irq_long_timer_chained_return_pending_ := false |>
         <| hle_irq_slow_timer0_return_pending_ := false |>));;
  cpu_step ← gets (hle_step status return_cycles);
  devices ← advance_devices return_cycles;
  irq_serviced ← service_on_return;
  gets (step_of cpu_step devices irq_serviced).

(* @ core_scheduler.cpp:2628-2701 CoreScheduler::dispatch_hle_irq_return *)
Definition dispatch_hle_irq_return (fetch_address : Z) : SCH (option CoreSchedulerStepResult) :=
  c ← gets (fun c => c);
  if negb (bios_hle_enabled (sched c)) || negb (fetch_address =? kIrqReturnSentinelPc) ||
     negb (bool_decide (ArmState.mode_ (cpu_of c) = CpuMode.irq))
  then mret None
  else
    lr ← recall_return_lr;
    match lr with
    | None => mret None
    | Some saved_return_lr =>
        on_cpu (set_register kLinkRegister saved_return_lr);;
        restore_saved;;
        saved_psr ← gets (fun c => spsr (cpu_of c));
        let adjustment :=
          match saved_psr with Some psr => if has psr 0x20 then 2 else 4 | None => 4 end in
        status ← on_cpu (return_from_exception adjustment);
        step ←
          (if negb (bool_decide (status = ExecuteStatus.executed)) then
             set_sched (fun s => s <| hle_irq_return_lr_ := Some saved_return_lr |>);;
             c ← gets (fun c => c);
             mret (step_of (hle_step status 1 c) no_device_ticks false c)
           else finish_return status);
        mret (Some step)
    end.
