(* ===== verification/SchedulerIrqSafety.v ===== *)
(** * The scheduler: safety of the emulated interrupt handlers

    Entering and leaving the user's handler without BIOS code keeps the
    invariant of the core: the frames hold thirteen words each. *)

From S2P Require Import Prelude StateMonad StateHash Interrupts BusTypes WaitState.
From S2P Require Timers PpuTiming MemoryBus TimersSpec.
From S2P Require Import Apu Dma IoRegisters DmaTransfer Bios.
From S2P Require Import ArmTypes ArmState ArmExecute ArmMemory BusInterface.
From S2P Require Import ArmSafety ArmTotal ArmMemorySafety ArmStepSafety.
From S2P Require Import IoRegistersSpec DmaTransferSpec.
From S2P Require Import SchedulerTiming SchedulerProbe SchedulerState SchedulerDevices.
From S2P Require Import SchedulerDevicesSpec SchedulerSafety SchedulerProbeSafety SchedulerWait.
From S2P Require Import SchedulerWaitSafety SchedulerIrq.

(** ** Reads *)

Lemma read32_option a c : core_ok c -> typed (SchedulerIrq.read32 a c).
Proof. intros Hc v E. by apply (mi_read32 a (machine_of c) v (inv_machine c Hc)). Qed.

Lemma hle_step_typed status n c : fits 32 n -> typed (hle_step status n c).
Proof. done. Qed.

Lemma safe_hle_step status n : fits 32 n -> safe core_ok (gets (hle_step status n)).
Proof. intros Hn. by apply safe_gets. Qed.

Lemma step_of_typed r t b c : typed r -> typed t -> core_ok c -> typed (step_of r t b c).
Proof.
  intros Hr Ht [_ Hs]. split; [exact Hr|]. split; [exact Ht|]. split; [apply no_dma_typed|apply Hs].
Qed.

Lemma safe_step_of r t b : typed r -> typed t -> safe core_ok (gets (step_of r t b)).
Proof. intros Hr Ht. apply safe_gets. intros c Hc. by apply step_of_typed. Qed.

(** ** Entering the handler *)

Lemma saved_of_total l : Forall reg_index l ->
  total wf (saved_of l) (fun v s => words (length l) v /\ wf s).
Proof.
  induction 1 as [|i l Hi _ IH]; cbn [saved_of].
  { apply total_ret. intros s Hs. split; [by split|done]. }
  eapply total_seq; [by apply safe_register_value|]. intros v Hv.
  eapply total_seq; [apply IH|]. intros rest [Hn Hr]. apply total_ret. intros s Hs.
  split; [|done]. split; [cbn; by rewrite Hn|by constructor].
Qed.

Lemma saved_registers_index : Forall reg_index kSavedRegisters.
Proof. apply (bool_decide_unpack _). by vm_compute. Qed.

Lemma dispatch_cycles_fits t : fits 32 (irq_dispatch_cycles t).
Proof. unfold irq_dispatch_cycles. repeat case_match; by vm_compute. Qed.

Lemma return_cycles_fits a b : fits 32 (irq_return_cycles a b).
Proof. unfold irq_return_cycles. repeat case_match; by vm_compute. Qed.

Lemma push_frame_wf b s : scheduler_wf s -> scheduler_wf (push_outer_frame b s).
Proof.
  unfold push_outer_frame. destruct b; [|done]. sched_fields. apply Forall_app. split; [done|].
  constructor; [|constructor]. split; [|done]. cbn.
  destruct (hle_irq_return_lr_ s) eqn:E; [by apply sw_lr|by vm_compute].
Qed.

Lemma begin_dispatch_wf a b s : scheduler_wf s -> scheduler_wf (begin_dispatch a b s).
Proof. unfold begin_dispatch. sched_fields. Qed.

Lemma safe_saved_registers :
  total core_ok (on_cpu (saved_of kSavedRegisters)) (fun l c => words 13 l /\ core_ok c).
Proof.
  intros [s [cpu m]] [[Hc Hb] Hs].
  destruct (saved_of_total _ saved_registers_index cpu Hc) as (l & cpu' & E & Hl & Hc').
  unfold on_cpu. cbn [fst snd] in *. rewrite E. by exists l, (s, (cpu', m)).
Qed.

Lemma dispatch_timing_ret c : core_ok c -> ensures (fun _ => True) (dispatch_timing c).
Proof.
  intros Hc. unfold dispatch_timing. cbv zeta.
  apply (ensures_bind _ _ _ _ (reload_ret _ (inv_devices core_ok c Hc))). intros r _. by apply ensures_ret.
Qed.

Lemma sentinel_fits : fits 32 kIrqReturnSentinelPc.
Proof. by vm_compute. Qed.

Lemma safe_set_cpu_register i v : reg_index i -> fits 32 v -> safe core_ok (on_cpu (set_register i v)).
Proof. intros Hi Hv. by apply safe_on_cpu, safe_set_register. Qed.

Lemma total_lift_ret {S A} (I : S -> Prop) (m : exc A) :
  ensures (fun _ => True) m -> total I (lift m) (fun _ c => True /\ I c).
Proof. intros (a & E & _). apply total_lift. intros s Hs. by exists a. Qed.

Lemma safe_enter_handler handler : fits 32 handler -> safe core_ok (enter_handler handler).
Proof.
  intros Hh. unfold enter_handler. eapply safe_bind; [apply safe_ask_core|]. intros c Hc.
  pose proof (inv_devices core_ok c Hc) as Hd.
  eapply total_seq; [apply total_lift_ret, dispatch_timing_ret, Hc|]. intros t _. cbv zeta.
  eapply safe_bind; [apply safe_on_cpu, safe_register_value, lr_index|]. intros lr Hlr.
  eapply total_seq; [apply total_lift_ret, (divisor_ret _ Hd)|]. intros divisor _.
  eapply safe_bind.
  { apply safe_set_sched. intros s Hs. by apply begin_dispatch_wf, push_frame_wf. }
  intros _ _. eapply safe_bind.
  { apply safe_when. eapply safe_bind; [apply safe_set_sched; intros s; sched_fields|]. intros _ _.
    apply safe_when. eapply safe_bind; [by apply safe_sched_write32|]. intros ok _. by apply safe_ret. }
  intros _ _. eapply total_seq; [apply safe_saved_registers|]. intros saved Hsaved.
  eapply safe_bind.
  { apply safe_set_sched. intros s. sched_fields. intros l [= <-]. exact Hsaved. }
  intros _ _. eapply safe_bind; [apply safe_set_cpu_register; [apply lr_index|apply sentinel_fits]|].
  intros _ _. eapply safe_bind.
  { apply safe_set_cpu_register; [apply pc_index|]. by apply fits_land_l; [lia|]. }
  intros _ _. eapply safe_bind; [apply safe_hle_step, dispatch_cycles_fits|]. intros r Hr.
  eapply safe_bind; [apply safe_advance, dispatch_cycles_fits|]. intros ticks Ht.
  by apply safe_step_of.
Qed.

Lemma safe_dispatch_vector a : safe core_ok (dispatch_hle_irq_vector a).
Proof.
  unfold dispatch_hle_irq_vector. eapply safe_bind; [apply safe_ask_core|]. intros c Hc.
  apply safe_if; intros _; [by apply safe_ret; intros ? ?|].
  pose proof (read32_option kUserIrqHandlerPointer c Hc) as Hr.
  destruct (SchedulerIrq.read32 kUserIrqHandlerPointer c) as [handler|]; [|by apply safe_ret; intros ? ?].
  assert (Hh : fits 32 handler) by (by apply Hr).
  assert (G : safe core_ok
    (let thumb_handler := has handler 0x1 in
     let status := cpsr (cpu_of c) in
     selected ← on_cpu (act (set_cpsr
       (if thumb_handler then Z.lor status 0x20 else Z.land status (not32 0x20))));
     if negb selected then mret None
     else step ← enter_handler handler; mret (Some step))).
  { cbv zeta. eapply safe_bind; [apply safe_on_cpu, safe_set_cpsr|]. intros ok _.
    apply safe_if; intros _; [by apply safe_ret; intros ? ?|].
    eapply safe_bind; [by apply safe_enter_handler|]. intros step Hstep. by apply safe_ret, typed_Some. }
  destruct handler; [by apply safe_ret; intros ? ?|exact G|exact G].
Qed.

(** ** Leaving the handler *)

Lemma safe_recall : safe core_ok recall_return_lr.
Proof.
  unfold recall_return_lr. eapply safe_bind; [apply safe_ask_core|]. intros c Hc.
  destruct (hle_irq_return_lr_ (sched c)) as [lr|] eqn:E.
  { apply safe_ret, typed_Some. destruct Hc as [_ Hs]. by apply (sw_lr _ Hs). }
  pose proof (read32_option 0x03007FF8 c Hc) as Hr.
  destruct (SchedulerIrq.read32 0x03007FF8 c) as [lr|]; [|by apply safe_ret; intros ? ?].
  assert (Hlr : fits 32 lr) by (by apply Hr).
  apply safe_if; intros _; [|by apply safe_ret; intros ? ?].
  eapply safe_bind; [apply safe_set_sched; intros s; sched_fields|]. intros _ _.
  by apply safe_ret, typed_Some.
Qed.

Lemma restore_total l i : 0 <= i -> i + Z.of_nat (length l) <= 16 -> Forall (fits 32) l ->
  safe wf (restore_registers i l).
Proof.
  intros Hi Hn Hl. revert i Hi Hn.
  induction Hl as [|v l Hv _ IH]; intros i Hi Hn; cbn [restore_registers]; [by apply safe_ret|].
  cbn [length] in Hn. eapply safe_bind; [apply safe_set_register; [unfold reg_index; lia|done]|].
  intros _ _. apply IH; lia.
Qed.

Lemma safe_restore_saved : safe core_ok restore_saved.
Proof.
  unfold restore_saved.
  eapply (total_seq _ core_ok saved_words).
  { apply total_gets. intros c Hc. split; [apply Hc|done]. }
  intros [l|] H; [|by apply safe_ret]. destruct (H l eq_refl) as [Hn Hl].
  eapply safe_bind; [apply safe_on_cpu, restore_total; [lia|rewrite Hn; lia|done]|]. intros _ _.
  apply safe_set_sched. intros s. sched_fields.
Qed.

Lemma pop_frame_wf s : scheduler_wf s -> scheduler_wf (pop_outer_frame s).
Proof.
  unfold pop_outer_frame. destruct (list.last (hle_irq_outer_frames_ s)) as [f|] eqn:E; [|done].
  intros Hs. destruct (last_forall _ _ _ (sw_outer s Hs) E) as [Hr Hsv]. revert Hs. sched_fields.
  by apply removelast_forall.
Qed.

Lemma safe_service_on_return : safe core_ok service_on_return.
Proof.
  unfold service_on_return. eapply safe_bind; [apply safe_ask_bool|]. intros line _.
  eapply safe_bind.
  { apply safe_if; intros _; [|by apply safe_ret].
    eapply safe_bind; [apply safe_service|]. intros irq _.
    eapply safe_bind; [|intros _ _; by apply safe_ret].
    apply safe_if; intros _; apply safe_set_sched; intros s; [|sched_fields].
    intros Hs. apply reset_latency_wf. revert Hs. sched_fields. }
  intros irq _. eapply safe_bind; [|intros _ _; by apply safe_ret].
  apply safe_when, safe_set_sched. intros s. sched_fields.
Qed.

Lemma slow_return_ret c : core_ok c -> ensures (fun _ => True) (slow_timer0_active_return c).
Proof.
  intros Hc. unfold slow_timer0_active_return. case_match; [by apply ensures_ret|].
  apply (ensures_bind _ _ _ _ (enabled_ret _ (inv_devices core_ok c Hc))). intros en _.
  apply (ensures_bind _ _ _ _ (divisor_ret _ (inv_devices core_ok c Hc))). intros n _.
  by apply ensures_ret.
Qed.

Lemma safe_finish_return status : safe core_ok (finish_return status).
Proof.
  unfold finish_return. eapply safe_bind; [apply safe_set_sched; intros s; sched_fields|]. intros _ _.
  eapply safe_bind; [apply safe_ask_core|]. intros c Hc.
  eapply safe_bind; [apply safe_on_cpu, safe_recover, (sw_misfetch _ (proj2 Hc))|]. intros count Hcount.
  eapply safe_bind.
  { apply safe_set_sched. intros s. sched_fields. }
  intros _ _.
  eapply total_seq; [apply total_lift_ret, slow_return_ret, Hc|]. intros slow _. cbv zeta.
  eapply safe_bind.
  { apply safe_set_sched. intros s Hs. apply pop_frame_wf. revert Hs. sched_fields. }
  intros _ _. eapply safe_bind; [apply safe_hle_step, return_cycles_fits|]. intros r Hr.
  eapply safe_bind; [apply safe_advance, return_cycles_fits|]. intros ticks Ht.
  eapply safe_bind; [apply safe_service_on_return|]. intros irq _. by apply safe_step_of.
Qed.

Lemma safe_dispatch_return a : safe core_ok (dispatch_hle_irq_return a).
Proof.
  unfold dispatch_hle_irq_return. eapply safe_bind; [apply safe_ask_core|]. intros c0 _.
  apply safe_if; intros _; [by apply safe_ret; intros ? ?|].
  eapply safe_bind; [apply safe_recall|]. intros [lr|] Hlr; [|by apply safe_ret; intros ? ?].
  assert (Hf : fits 32 lr) by (by apply Hlr).
  eapply safe_bind; [by apply safe_set_cpu_register; [apply lr_index|]|]. intros _ _.
  eapply safe_bind; [apply safe_restore_saved|]. intros _ _.
  eapply (safe_bind _ (HA := fun _ : option Z => True)); [by apply safe_gets|]. intros psr _. cbv zeta.
  eapply safe_bind; [apply safe_on_cpu, safe_return_from_exception|]. intros status _.
  eapply safe_bind.
  { apply safe_if; intros _; [|apply safe_finish_return].
    eapply safe_bind; [apply safe_set_sched; intros s; sched_fields|]. intros _ _.
    eapply safe_bind; [apply safe_ask_core|]. intros c Hc. apply safe_ret, step_of_typed; [|apply no_ticks_typed|done].
    by vm_compute. }
  intros step Hstep. by apply safe_ret, typed_Some.
Qed.
