(* ===== verification/HleDecompress.v ===== *)
(** * The emulated BIOS: decompression

    The decoders of [src/core/core_scheduler.cpp] behind the decompression
    calls: LZ77, run-length and the two difference filters.  They only read
    memory, so they are functions of its byte reads; [None] is the [false] of
    an unreadable byte or a malformed stream, on which the code discards the
    output. *)

From S2P Require Import Prelude BusTypes.

(** [source++] of a [std::uint32_t]. *)
Definition next (source : Z) : Z := u32 (source + 1).

(** A byte of the source and the source after it. *)
Definition fetch (read8 : Z -> option Z) (source : Z) : option (Z * Z) :=
  value ← read8 source; Some (value, next source).

(** The four bytes every stream starts with: the type, and the size in the
    low 24 bits of what follows it. *)
(* @ core_scheduler.cpp:3770-3782 CoreScheduler::hle_lz77_decompress_from_source *)
Definition read_header (read8 : Z -> option Z) (source : Z) : option (Z * Z * Z) :=
  '(header_type, source) ← fetch read8 source;
  '(size0, source) ← fetch read8 source;
  '(size1, source) ← fetch read8 source;
  '(size2, source) ← fetch read8 source;
  let decompressed_size :=
    Z.lor (Z.lor size0 (u32 (Z.shiftl size1 8))) (u32 (Z.shiftl size2 16)) in
  Some (header_type, decompressed_size, source).

(** [(flags & (0x80U >> bit)) != 0]. *)
Definition flag_set (flags : Z) (bit : nat) : bool :=
  has flags (Z.shiftr 0x80 (Z.of_nat bit)).

(** [output.size()]. *)
Definition size {A} (output : list A) : Z := Z.of_nat (length output).

(** ** LZ77 *)

Module Lz77.
Section Decoder.
Context (read8 : Z -> option Z) (memory_cycles : Z -> AccessWidth.t -> bool -> Z).
Context (destination : Z) (vram : bool) (decompressed_size : Z).

(** The source, the output and the cycles, which the loops change. *)
Record State : Type := mkState { source : Z; output : list Z; cycles : Z }.

#[local] Instance eta_State : Eta State := fun s => mkState (source s) (output s) (cycles s).

Definition more (s : State) : bool := size (output s) <? decompressed_size.

Definition charge (n : Z) (s : State) : State := s <| cycles ::= fun c => u64 (c + n) |>.

(** The lambda [read_byte]. *)
(* @ core_scheduler.cpp:3795-3798 CoreScheduler::hle_lz77_decompress_from_source *)
Definition read_byte (s : State) : option (Z * State) :=
  let s := charge (memory_cycles (source s) AccessWidth.byte true) s in
  '(value, source') ← fetch read8 (source s);
  Some (value, s <| source := source' |>).

(** One byte of a back reference. *)
(* @ core_scheduler.cpp:3833-3840 CoreScheduler::hle_lz77_decompress_from_source *)
Definition copy_byte (displacement : Z) (s : State) : option State :=
  let address := u32 (destination + u32 (size (output s)) - displacement) in
  let address := if vram then Z.land address (u32 (Z.lnot 1)) else address in
  let s :=
    charge (u64 (10 + (if vram then 4 else 0) +
              memory_cycles address (if vram then AccessWidth.halfword else AccessWidth.byte)
                true)) s in
  value ← output s !! Z.to_nat (size (output s) - displacement);
  Some (s <| output ::= fun o => o ++ [value] |>).

(** [length] bytes of it, or fewer at the end of the output. *)
(* @ core_scheduler.cpp:3831-3841 CoreScheduler::hle_lz77_decompress_from_source *)
Fixpoint copy (length : nat) (displacement : Z) (s : State) : option State :=
  match length with
  | O => Some s
  | S length' =>
      if negb (more s) then Some s
      else s ← copy_byte displacement s; copy length' displacement s
  end.

(** The length and the displacement of a token. *)
(* @ core_scheduler.cpp:3823-3823 CoreScheduler::hle_lz77_decompress_from_source *)
Definition token_length (token_hi : Z) : Z := u32 (Z.shiftr token_hi 4 + 3).
(* @ core_scheduler.cpp:3824-3827 CoreScheduler::hle_lz77_decompress_from_source *)
Definition token_displacement (token_hi token_lo : Z) : Z :=
  u32 (Z.lor (u32 (Z.shiftl (Z.land token_hi 0x0F) 8)) token_lo + 1).

(** What a flag bit stands for: a literal byte or a back reference. *)
(* @ core_scheduler.cpp:3807-3841 CoreScheduler::hle_lz77_decompress_from_source *)
Definition decode_block (compressed : bool) (s : State) : option State :=
  let s := charge 32 s in
  if negb compressed then
    '(literal, s) ← read_byte s; Some (s <| output ::= fun o => o ++ [literal] |>)
  else
    '(token_hi, s) ← read_byte s;
    '(token_lo, s) ← read_byte s;
    let displacement := token_displacement token_hi token_lo in
    if size (output s) <? displacement then None
    else copy (Z.to_nat (token_length token_hi)) displacement s.

(** The blocks of a flag byte, from [bit]. *)
(* @ core_scheduler.cpp:3806-3842 CoreScheduler::hle_lz77_decompress_from_source *)
Fixpoint decode_bits (flags : Z) (bits : list nat) (s : State) : option State :=
  match bits with
  | [] => Some s
  | bit :: bits' =>
      if negb (more s) then Some s
      else s ← decode_block (flag_set flags bit) s; decode_bits flags bits' s
  end.

(** The [while] loop: every flag byte adds a byte of output at least, so the
    size is fuel enough. *)
(* @ core_scheduler.cpp:3800-3843 CoreScheduler::hle_lz77_decompress_from_source *)
Fixpoint decode (fuel : nat) (s : State) : option State :=
  if negb (more s) then Some s
  else
    match fuel with
    | O => None
    | S fuel' =>
        let s := charge 14 s in
        '(flags, s) ← read_byte s;
        s ← decode_bits flags (seq 0 8) s;
        decode fuel' s
    end.
End Decoder.

(** The output, the cycles and the end of the source.  A size of zero is
    accepted whatever the type. *)
(* @ core_scheduler.cpp:3765-3846 CoreScheduler::hle_lz77_decompress_from_source *)
Definition hle_lz77_decompress_from_source (read8 : Z -> option Z)
    (memory_cycles : Z -> AccessWidth.t -> bool -> Z) (source destination : Z) (vram : bool)
    : option State :=
  let cycles := u64 (20 + memory_cycles source AccessWidth.word true) in
  '(header_type, decompressed_size, source) ← read_header read8 source;
  if decompressed_size =? 0 then Some (mkState source [] cycles)
  else if negb (header_type =? 0x10) then None
  else
    decode read8 memory_cycles destination vram decompressed_size
      (Z.to_nat decompressed_size) (mkState source [] cycles).
End Lz77.

(** ** Run lengths *)

Module Rle.
Section Decoder.
Context (read8 : Z -> option Z) (decompressed_size : Z).

Definition State : Type := Z * list Z.

Definition more (s : State) : bool := size s.2 <? decompressed_size.

(** [length] copies of [value], or fewer at the end of the output. *)
(* @ core_scheduler.cpp:4047-4050 CoreScheduler::hle_rle_decompress_from_source *)
Fixpoint run (length : nat) (value : Z) (output : list Z) : list Z :=
  match length with
  | O => output
  | S length' =>
      if size output <? decompressed_size then run length' value (output ++ [value]) else output
  end.

(* @ core_scheduler.cpp:4031-4050 CoreScheduler::hle_rle_decompress_from_source *)
Definition decode_block (compressed : bool) (s : State) : option State :=
  let '(source, output) := s in
  if negb compressed then
    '(literal, source) ← fetch read8 source; Some (source, output ++ [literal])
  else
    '(length_byte, source) ← fetch read8 source;
    '(value, source) ← fetch read8 source;
    Some (source, run (Z.to_nat (u32 (length_byte + 3))) value output).

(* @ core_scheduler.cpp:4030-4051 CoreScheduler::hle_rle_decompress_from_source *)
Fixpoint decode_bits (flags : Z) (bits : list nat) (s : State) : option State :=
  match bits with
  | [] => Some s
  | bit :: bits' =>
      if negb (more s) then Some s
      else s ← decode_block (flag_set flags bit) s; decode_bits flags bits' s
  end.

(* @ core_scheduler.cpp:4025-4052 CoreScheduler::hle_rle_decompress_from_source *)
Fixpoint decode (fuel : nat) (s : State) : option State :=
  if negb (more s) then Some s
  else
    match fuel with
    | O => None
    | S fuel' =>
        '(flags, source) ← fetch read8 s.1;
        s ← decode_bits flags (seq 0 8) (source, s.2);
        decode fuel' s
    end.
End Decoder.

(* @ core_scheduler.cpp:4006-4054 CoreScheduler::hle_rle_decompress_from_source *)
Definition hle_rle_decompress_from_source (read8 : Z -> option Z) (expected_type source : Z)
    : option (list Z) :=
  '(header_type, decompressed_size, source) ← read_header read8 source;
  if negb (header_type =? expected_type) then None
  else snd <$> decode read8 decompressed_size (Z.to_nat decompressed_size) (source, []).
End Rle.

(** ** Difference filters *)

Module Diff.
(* @ core_scheduler.cpp:4075-4083 CoreScheduler::hle_diff8_decompress_from_source *)
Fixpoint sum8 (read8 : Z -> option Z) (n : nat) (source previous : Z) : option (list Z) :=
  match n with
  | O => Some []
  | S n' =>
      '(delta, source) ← fetch read8 source;
      let previous := u8 (previous + delta) in
      rest ← sum8 read8 n' source previous;
      Some (previous :: rest)
  end.

(* @ core_scheduler.cpp:4056-4085 CoreScheduler::hle_diff8_decompress_from_source *)
Definition hle_diff8_decompress_from_source (read8 : Z -> option Z) (expected_type source : Z)
    : option (list Z) :=
  '(header_type, decompressed_size, source) ← read_header read8 source;
  if negb (header_type =? expected_type) then None
  else sum8 read8 (Z.to_nat decompressed_size) source 0.

(** [n] halfwords. *)
(* @ core_scheduler.cpp:4110-4123 CoreScheduler::hle_diff16_decompress_from_source *)
Fixpoint sum16 (read8 : Z -> option Z) (n : nat) (source previous : Z) : option (list Z) :=
  match n with
  | O => Some []
  | S n' =>
      '(delta_lo, source) ← fetch read8 source;
      '(delta_hi, source) ← fetch read8 source;
      let delta := Z.lor delta_lo (u16 (Z.shiftl delta_hi 8)) in
      let previous := u16 (previous + delta) in
      rest ← sum16 read8 n' source previous;
      Some (u8 (Z.land previous 0xFF) :: u8 (Z.land (Z.shiftr previous 8) 0xFF) :: rest)
  end.

(* @ core_scheduler.cpp:4087-4125 CoreScheduler::hle_diff16_decompress_from_source *)
Definition hle_diff16_decompress_from_source (read8 : Z -> option Z) (expected_type source : Z)
    : option (list Z) :=
  '(header_type, decompressed_size, source) ← read_header read8 source;
  if negb (header_type =? expected_type) then None
  else if negb (decompressed_size mod 2 =? 0) then None
  else sum16 read8 (Z.to_nat (decompressed_size / 2)) source 0.
End Diff.
