(* ===== verification/HleDecompressSpec.v ===== *)
(** * The emulated BIOS: laws of the decompressors

    Whatever the stream, a decompressor that accepts it produces exactly as many
    bytes as its header announces, and its loop ends within that many
    iterations: [None] is always an unreadable byte or a malformed stream. *)

From S2P Require Import Prelude BusTypes HleDecompress.

Section Stream.
Context (read8 : Z -> option Z) (bytes : forall a v, read8 a = Some v -> fits 8 v).

Lemma fetch_typed source v source' :
  fetch read8 source = Some (v, source') -> fits 8 v /\ fits 32 source'.
Proof using bytes.
  unfold fetch. destruct (read8 source) eqn:E; [|done]. intros [= <- <-].
  split; [by eapply bytes|]. apply wrap_fits. lia.
Qed.

Lemma header_typed source t n source' :
  read_header read8 source = Some (t, n, source') -> fits 32 source' /\ 0 <= n < 2 ^ 24.
Proof using bytes.
  unfold read_header.
  destruct (fetch read8 source) as [[v0 s0]|]; [cbn [mbind option_bind]|done].
  destruct (fetch read8 s0) as [[v1 s1]|] eqn:E1; [cbn [mbind option_bind]|done].
  destruct (fetch read8 s1) as [[v2 s2]|] eqn:E2; [cbn [mbind option_bind]|done].
  destruct (fetch read8 s2) as [[v3 s3]|] eqn:E3; [cbn [mbind option_bind]|done].
  intros [= <- <- <-]. apply fetch_typed in E1 as [H1 _], E2 as [H2 _], E3 as [H3 H].
  split; [done|]. change (0 <= ?n < 2 ^ 24) with (fits 24 n).
  assert (Hs : forall v k, fits 8 v -> 0 <= k -> k <= 16 -> fits 24 (u32 (Z.shiftl v k))).
  { intros v k Hv Hk Hk'. apply testbit_high_fits; [lia| |].
    - apply wrap_fits. lia.
    - intros i Hi. rewrite testbit_wrap by lia. apply andb_false_iff. right.
      rewrite Z.shiftl_spec by lia. apply fits_testbit_high with (w := 8); [lia|done|lia]. }
  apply fits_lor; [lia|apply fits_lor; [lia| |]|]; [by apply (fits_mono 8)|apply Hs; done|apply Hs; done].
Qed.

(** What a decoder keeps: bytes, and no more of them than announced. *)
Definition output_ok (n : Z) (o : list Z) : Prop := Forall (fits 8) o /\ size o <= n.

Lemma empty_ok n : 0 <= n -> output_ok n [].
Proof using Type. by split. Qed.

Lemma size_snoc {A} (o : list A) a : size (o ++ [a]) = size o + 1.
Proof using Type. unfold size. rewrite length_app. cbn. lia. Qed.

Lemma output_snoc n o v : output_ok n o -> size o < n -> fits 8 v -> output_ok n (o ++ [v]).
Proof using Type.
  intros [Ho Hn] Hlt Hv. split; [|rewrite size_snoc; lia]. apply Forall_app. split; [done|by constructor].
Qed.

(** ** LZ77 *)

Section Lz77.
Context (cyc : Z -> AccessWidth.t -> bool -> Z) (destination : Z) (vram : bool) (n : Z).

Definition lz_ok (s : Lz77.State) : Prop := output_ok n (Lz77.output s) /\ fits 32 (Lz77.source s).

Lemma lz_more s : Lz77.more n s = true <-> size (Lz77.output s) < n.
Proof using Type. apply Z.ltb_lt. Qed.

Lemma lz_read s v s' : lz_ok s -> Lz77.read_byte read8 cyc s = Some (v, s') ->
  fits 8 v /\ lz_ok s' /\ Lz77.output s' = Lz77.output s.
Proof using bytes.
  intros [Ho Hs]. unfold Lz77.read_byte. cbv zeta.
  destruct (fetch read8 _) as [[w src]|] eqn:E; [cbn [mbind option_bind]|done].
  intros [= <- <-]. apply fetch_typed in E as [Hv Hsrc]. by split_and!.
Qed.

Lemma lz_copy_byte k s s' : lz_ok s -> size (Lz77.output s) < n ->
  Lz77.copy_byte cyc destination vram k s = Some s' ->
  lz_ok s' /\ size (Lz77.output s') = size (Lz77.output s) + 1.
Proof using Type.
  intros [Ho Hs] Hlt. unfold Lz77.copy_byte. cbv zeta.
  match goal with |- context [Lz77.charge ?x s] => set (s1 := Lz77.charge x s) end.
  assert (E1 : Lz77.output s1 = Lz77.output s) by done. rewrite E1.
  destruct (Lz77.output s !! _) as [v|] eqn:E; [cbn [mbind option_bind]|done]. intros [= <-].
  cbn. split; [|by rewrite size_snoc]. split; [|done]. apply output_snoc; [done|done|].
  eapply Forall_lookup_1; [apply Ho|exact E].
Qed.

(** A back reference of one byte at least adds a byte, while there is room. *)
Lemma lz_copy l k s s' : lz_ok s -> Lz77.copy cyc destination vram n l k s = Some s' ->
  lz_ok s' /\ size (Lz77.output s) <= size (Lz77.output s') /\
  (size (Lz77.output s) < n -> (0 < l)%nat -> size (Lz77.output s) < size (Lz77.output s')).
Proof using Type.
  revert s. induction l as [|l IH]; intros s Hs; cbn [Lz77.copy].
  { intros [= <-]. split; [done|]. split; [done|lia]. }
  destruct (Lz77.more n s) eqn:Em; cbn [negb].
  - apply lz_more in Em. destruct (Lz77.copy_byte _ _ _ _ _) as [s1|] eqn:E; [cbn [mbind option_bind]|done].
    intros H. destruct (lz_copy_byte _ _ _ Hs Em E) as [H1 L1]. destruct (IH s1 H1 H) as (H2 & L2 & _).
    split; [done|]. split; [lia|]. intros _ _. lia.
  - intros [= <-]. split; [done|]. split; [done|]. intros Hlt. apply lz_more in Hlt. congruence.
Qed.

Lemma token_length_pos hi : fits 8 hi -> (0 < Z.to_nat (Lz77.token_length hi))%nat.
Proof using Type.
  intros Hh. unfold Lz77.token_length. assert (H : 0 <= Z.shiftr hi 4 < 2 ^ 8).
  { apply (fits_shiftr 8); [lia| |done]. lia. }
  rewrite wrap_id by (unfold fits; lia). lia.
Qed.

Lemma lz_block b s s' : lz_ok s -> size (Lz77.output s) < n ->
  Lz77.decode_block read8 cyc destination vram n b s = Some s' ->
  lz_ok s' /\ size (Lz77.output s) < size (Lz77.output s').
Proof using bytes.
  intros Hs Hlt. unfold Lz77.decode_block. cbv zeta. set (s0 := Lz77.charge 32 s).
  assert (H0 : lz_ok s0) by done. assert (E0 : Lz77.output s0 = Lz77.output s) by done.
  clearbody s0. rewrite <- E0 in *. clear E0. destruct b; cbn [negb].
  - destruct (Lz77.read_byte read8 cyc s0) as [[hi s1]|] eqn:E1; [cbn [mbind option_bind]|done].
    destruct (lz_read _ _ _ H0 E1) as (Hh & H1 & O1).
    destruct (Lz77.read_byte read8 cyc s1) as [[lo s2]|] eqn:E2; [cbn [mbind option_bind]|done].
    destruct (lz_read _ _ _ H1 E2) as (Hl & H2 & O2).
    case_match; [done|]. intros Ec. destruct (lz_copy _ _ _ _ H2 Ec) as (H3 & _ & L3).
    split; [done|]. rewrite O2, O1 in L3. apply L3; [done|by apply token_length_pos].
  - destruct (Lz77.read_byte read8 cyc s0) as [[v s1]|] eqn:E1; [cbn [mbind option_bind]|done].
    destruct (lz_read _ _ _ H0 E1) as (Hv & [H1 Hsrc] & O1). intros [= <-]. cbn.
    rewrite size_snoc, O1. split; [|lia]. split; [|done]. change (output_ok n (Lz77.output s1 ++ [v])). rewrite O1 in H1 |- *.
    by apply output_snoc.
Qed.

Lemma lz_bits flags l s s' : lz_ok s ->
  Lz77.decode_bits read8 cyc destination vram n flags l s = Some s' ->
  lz_ok s' /\ size (Lz77.output s) <= size (Lz77.output s') /\
  (size (Lz77.output s) < n -> l <> [] -> size (Lz77.output s) < size (Lz77.output s')).
Proof using bytes.
  revert s. induction l as [|b l IH]; intros s Hs; cbn [Lz77.decode_bits].
  { intros [= <-]. split; [done|]. by split. }
  destruct (Lz77.more n s) eqn:Em; cbn [negb].
  - apply lz_more in Em. destruct (Lz77.decode_block _ _ _ _ _ _ _) as [s1|] eqn:E; [cbn [mbind option_bind]|done].
    intros H. destruct (lz_block _ _ _ Hs Em E) as [H1 L1]. destruct (IH s1 H1 H) as (H2 & L2 & _).
    split; [done|]. split; [lia|]. intros _ _. lia.
  - intros [= <-]. split; [done|]. split; [done|]. intros Hlt. apply lz_more in Hlt. congruence.
Qed.

(** One flag byte and its blocks. *)
Lemma lz_flags s f s1 s2 : lz_ok s -> size (Lz77.output s) < n ->
  Lz77.read_byte read8 cyc (Lz77.charge 14 s) = Some (f, s1) ->
  Lz77.decode_bits read8 cyc destination vram n f (seq 0 8) s1 = Some s2 ->
  lz_ok s2 /\ size (Lz77.output s) < size (Lz77.output s2).
Proof using bytes.
  intros Hs Hlt E1 E2. assert (H0 : lz_ok (Lz77.charge 14 s)) by done.
  destruct (lz_read _ _ _ H0 E1) as (_ & H1 & O1).
  destruct (lz_bits _ _ _ _ H1 E2) as (H2 & _ & L2). split; [done|].
  rewrite O1 in L2. by apply L2.
Qed.

Lemma lz_decode fuel s s' : lz_ok s ->
  Lz77.decode read8 cyc destination vram n fuel s = Some s' ->
  lz_ok s' /\ n <= size (Lz77.output s').
Proof using bytes.
  revert s. induction fuel as [|fuel IH]; intros s Hs; cbn [Lz77.decode];
    (destruct (Lz77.more n s) eqn:Em; cbn [negb];
     [|intros [= <-]; split; [done|]; apply Z.ltb_ge, Em]); [done|].
  cbv zeta. destruct (Lz77.read_byte _ _ _) as [[f s1]|] eqn:E1; [cbn [mbind option_bind]|done].
  destruct (Lz77.decode_bits _ _ _ _ _ _ _ _) as [s2|] eqn:E2; [cbn [mbind option_bind]|done].
  intros H. apply lz_more in Em. destruct (lz_flags _ _ _ _ Hs Em E1 E2) as [H2 _]. by apply (IH s2).
Qed.

(** The room left is fuel enough: one more iteration changes nothing. *)
Lemma lz_fuel fuel s : lz_ok s -> n - size (Lz77.output s) <= Z.of_nat fuel ->
  Lz77.decode read8 cyc destination vram n (S fuel) s =
  Lz77.decode read8 cyc destination vram n fuel s.
Proof using bytes.
  revert s. induction fuel as [|fuel IH]; intros s Hs Hf.
  { cbn [Lz77.decode]. destruct (Lz77.more n s) eqn:Em; [|done]. apply lz_more in Em. lia. }
  cbn [Lz77.decode]. destruct (Lz77.more n s) eqn:Em; cbn [negb]; [|done]. cbv zeta.
  destruct (Lz77.read_byte _ _ _) as [[f s1]|] eqn:E1; [cbn [mbind option_bind]|done].
  destruct (Lz77.decode_bits _ _ _ _ _ _ _ _) as [s2|] eqn:E2; [cbn [mbind option_bind]|done].
  apply lz_more in Em. destruct (lz_flags _ _ _ _ Hs Em E1 E2) as [H2 L2].
  apply (IH s2 H2). lia.
Qed.
End Lz77.

(** ** Run lengths *)

Section Rle.
Context (n : Z).

Lemma rle_run l v o : output_ok n o -> fits 8 v ->
  output_ok n (Rle.run n l v o) /\ size o <= size (Rle.run n l v o) /\
  (size o < n -> (0 < l)%nat -> size o < size (Rle.run n l v o)).
Proof using Type.
  intros Ho Hv. revert o Ho. induction l as [|l IH]; intros o Ho; cbn [Rle.run].
  { split; [done|]. split; [done|lia]. }
  destruct (Z.ltb_spec (size o) n) as [Hlt|Hge]; [|split; [done|]; split; [done|lia]].
  destruct (IH (o ++ [v])) as (H1 & L1 & _); [by apply output_snoc|]. rewrite size_snoc in L1.
  split; [done|]. lia.
Qed.

Lemma rle_block b (s s' : Rle.State) : output_ok n s.2 -> size s.2 < n ->
  Rle.decode_block read8 n b s = Some s' -> output_ok n s'.2 /\ size s.2 < size s'.2.
Proof using bytes.
  intros Ho Hlt. unfold Rle.decode_block. destruct s as [src o]. cbn [snd] in *. destruct b; cbn [negb].
  - destruct (fetch read8 src) as [[len s1]|] eqn:E1; [cbn [mbind option_bind]|done].
    destruct (fetch read8 s1) as [[v s2]|] eqn:E2; [cbn [mbind option_bind]|done]. intros [= <-]. cbn [snd].
    apply fetch_typed in E1 as [Hl _], E2 as [Hv _].
    destruct (rle_run (Z.to_nat (u32 (len + 3))) v o Ho Hv) as (H & _ & L). split; [done|].
    apply L; [done|]. unfold fits in Hl. rewrite wrap_id by (unfold fits; lia). lia.
  - destruct (fetch read8 src) as [[v s1]|] eqn:E1; [cbn [mbind option_bind]|done]. intros [= <-].
    apply fetch_typed in E1 as [Hv _]. cbn [snd]. rewrite size_snoc. split; [by apply output_snoc|lia].
Qed.

Lemma rle_bits flags l (s s' : Rle.State) : output_ok n s.2 -> Rle.decode_bits read8 n flags l s = Some s' ->
  output_ok n s'.2 /\ size s.2 <= size s'.2 /\ (size s.2 < n -> l <> [] -> size s.2 < size s'.2).
Proof using bytes.
  revert s. induction l as [|b l IH]; intros s Hs; cbn [Rle.decode_bits].
  { intros [= <-]. split; [done|]. by split. }
  unfold Rle.more. destruct (Z.ltb_spec (size s.2) n) as [Hlt|Hge]; cbn [negb].
  - destruct (Rle.decode_block _ _ _ _) as [s1|] eqn:E; [cbn [mbind option_bind]|done].
    intros H. destruct (rle_block _ _ _ Hs Hlt E) as [H1 L1]. destruct (IH s1 H1 H) as (H2 & L2 & _).
    split; [done|]. split; [lia|]. intros _ _. lia.
  - intros [= <-]. split; [done|]. split; [done|lia].
Qed.

Lemma rle_flags (s : Rle.State) f s1 (s2 : Rle.State) : output_ok n s.2 -> size s.2 < n ->
  Rle.decode_bits read8 n f (seq 0 8) (s1, s.2) = Some s2 -> output_ok n s2.2 /\ size s.2 < size s2.2.
Proof using bytes.
  intros Hs Hlt E. destruct (rle_bits f (seq 0 8) (s1, s.2) s2 Hs E) as (H & _ & L).
  split; [done|]. by apply L.
Qed.

Lemma rle_decode fuel (s s' : Rle.State) : output_ok n s.2 -> Rle.decode read8 n fuel s = Some s' ->
  output_ok n s'.2 /\ n <= size s'.2.
Proof using bytes.
  revert s. induction fuel as [|fuel IH]; intros s Hs; cbn [Rle.decode]; unfold Rle.more;
    (destruct (Z.ltb_spec (size s.2) n) as [Hlt|Hge]; cbn [negb]; [|by intros [= <-]]); [done|].
  destruct (fetch read8 s.1) as [[f src]|]; [cbn [mbind option_bind]|done].
  destruct (Rle.decode_bits _ _ _ _ _) as [s2|] eqn:E2; [cbn [mbind option_bind]|done].
  intros H. destruct (rle_flags _ _ _ _ Hs Hlt E2) as [H2 _]. by apply (IH s2).
Qed.

Lemma rle_fuel fuel (s : Rle.State) : output_ok n s.2 -> n - size s.2 <= Z.of_nat fuel ->
  Rle.decode read8 n (S fuel) s = Rle.decode read8 n fuel s.
Proof using bytes.
  revert s. induction fuel as [|fuel IH]; intros s Hs Hf.
  { cbn [Rle.decode]. unfold Rle.more. destruct (Z.ltb_spec (size s.2) n); [lia|done]. }
  cbn [Rle.decode]. unfold Rle.more. destruct (Z.ltb_spec (size s.2) n) as [Hlt|]; cbn [negb]; [|done].
  destruct (fetch read8 s.1) as [[f src]|]; [cbn [mbind option_bind]|done].
  destruct (Rle.decode_bits _ _ _ _ _) as [s2|] eqn:E2; [cbn [mbind option_bind]|done].
  destruct (rle_flags _ _ _ _ Hs Hlt E2) as [H2 L2]. apply (IH s2 H2). lia.
Qed.
End Rle.

(** ** Difference filters *)

Lemma sum8_typed k source p o : Diff.sum8 read8 k source p = Some o ->
  Forall (fits 8) o /\ length o = k.
Proof using Type.
  revert source p o. induction k as [|k IH]; intros source p o; cbn [Diff.sum8].
  { by intros [= <-]. }
  destruct (fetch read8 source) as [[d s]|]; [cbn [mbind option_bind]|done]. cbv zeta.
  destruct (Diff.sum8 read8 k s _) as [rest|] eqn:E; [cbn [mbind option_bind]|done].
  intros [= <-]. destruct (IH _ _ _ E) as [Hf Hl]. split; [|cbn; by rewrite Hl].
  constructor; [apply wrap_fits; lia|done].
Qed.

Lemma sum16_typed k source p o : Diff.sum16 read8 k source p = Some o ->
  Forall (fits 8) o /\ length o = (2 * k)%nat.
Proof using Type.
  revert source p o. induction k as [|k IH]; intros source p o; cbn [Diff.sum16].
  { by intros [= <-]. }
  destruct (fetch read8 source) as [[d s]|]; [cbn [mbind option_bind]|done].
  destruct (fetch read8 s) as [[d' s']|]; [cbn [mbind option_bind]|done]. cbv zeta.
  destruct (Diff.sum16 read8 k s' _) as [rest|] eqn:E; [cbn [mbind option_bind]|done].
  intros [= <-]. destruct (IH _ _ _ E) as [Hf Hl]. split; [|cbn [length]; lia].
  repeat (constructor; [apply wrap_fits; lia|]). done.
Qed.

(** ** The decompressors *)

(** [n] bytes of output. *)
Definition exactly (n : Z) (o : list Z) : Prop := Forall (fits 8) o /\ size o = n.

Lemma output_exact n o : output_ok n o -> n <= size o -> exactly n o.
Proof using Type. intros [Ho H] H'. split; [done|lia]. Qed.

Lemma lz77_exact cyc source destination vram st :
  Lz77.hle_lz77_decompress_from_source read8 cyc source destination vram = Some st ->
  exists t n s0, read_header read8 source = Some (t, n, s0) /\ exactly n (Lz77.output st) /\
    fits 32 (Lz77.source st).
Proof using bytes.
  unfold Lz77.hle_lz77_decompress_from_source. cbv zeta.
  destruct (read_header read8 source) as [[[t n] s0]|] eqn:E; [cbn [mbind option_bind]|done].
  destruct (header_typed _ _ _ _ E) as [Hs Hn]. intros H. exists t, n, s0. split; [done|].
  destruct (Z.eqb_spec n 0) as [->|Hz]; [by injection H as <-|].
  destruct (negb _); [done|].
  destruct (lz_decode cyc destination vram n _ _ _
    (conj (empty_ok n (proj1 Hn)) Hs : lz_ok n (Lz77.mkState s0 [] _)) H) as [[Ho Hs'] Hle].
  split; [by apply output_exact|done].
Qed.

Lemma rle_exact t source o : Rle.hle_rle_decompress_from_source read8 t source = Some o ->
  exists n s0, read_header read8 source = Some (t, n, s0) /\ exactly n o.
Proof using bytes.
  unfold Rle.hle_rle_decompress_from_source.
  destruct (read_header read8 source) as [[[t' n] s0]|] eqn:E; [cbn [mbind option_bind]|done].
  destruct (header_typed _ _ _ _ E) as [Hs Hn].
  destruct (Z.eqb_spec t' t) as [->|]; [|done]. cbn [negb].
  destruct (Rle.decode _ _ _ _) as [s|] eqn:Ed; [|done]. intros [= <-]. exists n, s0. split; [done|].
  destruct (rle_decode n _ (s0, []) _ (empty_ok n (proj1 Hn)) Ed) as [H1 H2]. by apply output_exact.
Qed.

Lemma diff8_exact t source o : Diff.hle_diff8_decompress_from_source read8 t source = Some o ->
  exists n s0, read_header read8 source = Some (t, n, s0) /\ exactly n o.
Proof using bytes.
  unfold Diff.hle_diff8_decompress_from_source.
  destruct (read_header read8 source) as [[[t' n] s0]|] eqn:E; [cbn [mbind option_bind]|done].
  destruct (header_typed _ _ _ _ E) as [Hs Hn].
  destruct (Z.eqb_spec t' t) as [->|]; [|done]. cbn [negb]. intros [H Hl]%sum8_typed.
  exists n, s0. split; [done|]. split; [done|]. unfold size. rewrite Hl. lia.
Qed.

Lemma diff16_exact t source o : Diff.hle_diff16_decompress_from_source read8 t source = Some o ->
  exists n s0, read_header read8 source = Some (t, n, s0) /\ exactly n o.
Proof using bytes.
  unfold Diff.hle_diff16_decompress_from_source.
  destruct (read_header read8 source) as [[[t' n] s0]|] eqn:E; [cbn [mbind option_bind]|done].
  destruct (header_typed _ _ _ _ E) as [Hs Hn].
  destruct (Z.eqb_spec t' t) as [->|]; [|done]. cbn [negb].
  destruct (Z.eqb_spec (n mod 2) 0) as [Hm|]; [|done]. cbn [negb]. intros [H Hl]%sum16_typed.
  exists n, s0. split; [done|]. split; [done|]. unfold size. rewrite Hl.
  pose proof (Z.div_mod n 2 ltac:(lia)). lia.
Qed.
End Stream.

(** C18: The decompressors on every stream, well formed or not.  When a call
    accepts a stream, its output is exactly as many bytes as the 24-bit size of
    the header announces: LZ77 back references and run lengths that overshoot
    are cut off, whatever the flag bytes say.  And the loops end: after as many
    iterations as the announced size, one more changes nothing, so a rejected
    stream is one with an unreadable byte, a wrong type or a reference before
    the start of the output. *)
Theorem decompression_exact_size (read8 : Z -> option Z)
    (bytes : forall a v, read8 a = Some v -> fits 8 v) (source t : Z) :
  (forall cyc destination vram st,
     Lz77.hle_lz77_decompress_from_source read8 cyc source destination vram = Some st ->
     exists t n s0, read_header read8 source = Some (t, n, s0) /\ exactly n (Lz77.output st)) /\
  (forall decompress o,
     In decompress [Rle.hle_rle_decompress_from_source; Diff.hle_diff8_decompress_from_source;
                    Diff.hle_diff16_decompress_from_source] ->
     decompress read8 t source = Some o ->
     exists n s0, read_header read8 source = Some (t, n, s0) /\ exactly n o) /\
  (forall n fuel, 0 <= n <= Z.of_nat fuel ->
     (forall cyc destination vram st, lz_ok n st -> Lz77.output st = [] ->
        Lz77.decode read8 cyc destination vram n (S fuel) st =
        Lz77.decode read8 cyc destination vram n fuel st) /\
     Rle.decode read8 n (S fuel) (source, []) = Rle.decode read8 n fuel (source, [])).
Proof.
  split; [|split].
  - intros cyc destination vram st H.
    destruct (lz77_exact read8 bytes _ _ _ _ _ H) as (t' & n & s0 & E & Hn & _). by exists t', n, s0.
  - intros decompress o [<-|[<-|[<-|[]]]] H;
      [by apply rle_exact|by apply diff8_exact|by apply diff16_exact].
  - intros n fuel [H0 Hn]. split.
    + intros cyc destination vram st Hs Ho. apply lz_fuel; [done|done|]. rewrite Ho.
      change (size []) with 0. lia.
    + apply rle_fuel; [done|by apply empty_ok|]. unfold size. cbn [length snd]. lia.
Qed.

(** A literal and a back reference of four bytes, cut to three. *)
Lemma decompression_exact_size_witness :
  let stream := [0x10; 4; 0; 0; 0x40; 65; 0x10; 0] in
  let read8 a := stream !! Z.to_nat a in
  exists st, Lz77.hle_lz77_decompress_from_source read8 (fun _ _ _ => 1) 0 0x02000000 false = Some st /\
    Lz77.output st = [65; 65; 65; 65] /\
    exists t n s0, read_header read8 0 = Some (t, n, s0) /\ exactly n (Lz77.output st).
Proof.
  intros stream read8.
  assert (bytes : forall a v, read8 a = Some v -> fits 8 v).
  { intros a v E. assert (Hb : Forall (fits 8) stream) by (repeat constructor; done).
    exact (Forall_lookup_1 _ _ _ _ Hb E). }
  destruct (Lz77.hle_lz77_decompress_from_source read8 (fun _ _ _ => 1) 0 0x02000000 false)
    as [st|] eqn:E; [|by vm_compute in E].
  exists st. split; [done|]. split; [by vm_compute in E; injection E as <-|].
  exact (proj1 (decompression_exact_size read8 bytes 0 0) _ _ _ _ E).
Defined.
