(* ===== verification/HleServices.v ===== *)
(** * The emulated BIOS: services

    The calls of [execute_hle_swi] that touch memory in
    [src/core/core_scheduler.cpp]: affine sets, decompression to work and video
    RAM, bit unpacking and [CpuSet], and the dispatch on the service number. *)

From S2P Require Import Prelude StateMonad Interrupts BusTypes WaitState.
From S2P Require Timers PpuTiming MemoryBus.
From S2P Require Import Apu Dma IoRegisters DmaTransfer Bios.
From S2P Require Import ArmTypes ArmDecode ThumbDecode ArmState ArmMemory.
From S2P Require Import SchedulerTiming SchedulerProbe SchedulerState SchedulerDevices.
From S2P Require Import SchedulerWait SchedulerIrq HleDecompress.

(** ** Memory *)

Definition read8 (address : Z) (c : Core) : option Z :=
  MemoryBus.read8 io_callbacks address (machine_of c).
Definition read16 (address : Z) (c : Core) : option Z :=
  MemoryBus.read16 io_callbacks address (machine_of c).
Definition write8 (address value : Z) : SCH bool :=
  on_sys (ArmMemory.write8 io_callbacks address value).
Definition write16 (address value : Z) : SCH bool :=
  on_sys (ArmMemory.write16 io_callbacks address value).

Definition reg (index : Z) : SCH Z := on_cpu (register_value index).
Definition set_reg (index value : Z) : SCH unit := on_cpu (set_register index value).

(** [for (i = first; i < first + n; ++i) if (!body(i)) return false; return true;]. *)
Fixpoint all_from (first : Z) (n : nat) (body : Z -> SCH bool) : SCH bool :=
  match n with
  | O => mret true
  | S n' => ok ← body first; if (ok : bool) then all_from (first + 1) n' body else mret false
  end.

(** [write(a) && write(b) && ...]: the first failure ends it. *)
Fixpoint all_writes (writes : list (SCH bool)) : SCH bool :=
  match writes with
  | [] => mret true
  | write :: writes' =>
      ok ← write; if (ok : bool) then all_writes writes' else mret false
  end.

(** ** Affine sets *)

(** The source record of a background. *)
Record BgSource : Type := mkBgSource {
  origin_x : Z; origin_y : Z; center_x : Z; center_y : Z;
  bg_scale_x : Z; bg_scale_y : Z; bg_rotation : Z
}.

(* @ core_scheduler.cpp:3702-3712 CoreScheduler::hle_bg_affine_set *)
Definition read_bg_source (src : Z) (c : Core) : option BgSource :=
  origin_x ← read32 src c;
  origin_y ← read32 (u32 (src + 4)) c;
  center_x ← read16 (u32 (src + 8)) c;
  center_y ← read16 (u32 (src + 10)) c;
  scale_x ← read16 (u32 (src + 12)) c;
  scale_y ← read16 (u32 (src + 14)) c;
  rotation ← read16 (u32 (src + 16)) c;
  Some (mkBgSource origin_x origin_y center_x center_y scale_x scale_y rotation).

(** One background: the matrix and the reference point that keeps the center. *)
(* @ core_scheduler.cpp:3700-3729 CoreScheduler::hle_bg_affine_set *)
Definition bg_affine (source dest index : Z) : SCH bool :=
  let src := u32 (source + u32 (index * 20)) in
  let dst := u32 (dest + u32 (index * 16)) in
  record ← gets (read_bg_source src);
  match record with
  | None => mret false
  | Some r =>
      matrix ← lift (hle_affine_matrix_wide (i16 (bg_scale_x r)) (i16 (bg_scale_y r))
                       (bg_rotation r));
      let x := i16 (center_x r) in
      let y := i16 (center_y r) in
      let reference_x := u32 (origin_x r - u32 (am_pa matrix * x + am_pb matrix * y)) in
      let reference_y := u32 (origin_y r - u32 (am_pc matrix * x + am_pd matrix * y)) in
      all_writes
        [write16 dst (u16 (am_pa matrix));
         write16 (u32 (dst + 2)) (u16 (am_pb matrix));
         write16 (u32 (dst + 4)) (u16 (am_pc matrix));
         write16 (u32 (dst + 6)) (u16 (am_pd matrix));
         write32 (u32 (dst + 8)) reference_x;
         write32 (u32 (dst + 12)) reference_y]
  end.

(* @ core_scheduler.cpp:3691-3731 CoreScheduler::hle_bg_affine_set *)
Definition hle_bg_affine_set : SCH bool :=
  source ← reg 0; dest ← reg 1; count ← reg 2;
  let count := i32 count in
  if count <=? 0 then mret false
  else all_from 0 (Z.to_nat count) (bg_affine source dest).

(** One sprite matrix; its entries are [offset] bytes apart. *)
(* @ core_scheduler.cpp:3743-3761 CoreScheduler::hle_obj_affine_set *)
Definition obj_affine (source dest offset index : Z) : SCH bool :=
  let src := u32 (source + u32 (index * 8)) in
  let stride := u32 offset in
  let dst := u32 (dest + u32 (u32 (index * stride) * 4)) in
  scale_x ← gets (read16 src);
  scale_y ← gets (read16 (u32 (src + 2)));
  rotation ← gets (read16 (u32 (src + 4)));
  match scale_x, scale_y, rotation with
  | Some scale_x, Some scale_y, Some rotation =>
      matrix ← lift (hle_affine_matrix (i16 scale_x) (i16 scale_y) rotation);
      all_writes
        [write16 dst (u16 (am_pa matrix));
         write16 (u32 (dst + stride)) (u16 (am_pb matrix));
         write16 (u32 (dst + u32 (stride * 2))) (u16 (am_pc matrix));
         write16 (u32 (dst + u32 (stride * 3))) (u16 (am_pd matrix))]
  | _, _, _ => mret false
  end.

(* @ core_scheduler.cpp:3733-3763 CoreScheduler::hle_obj_affine_set *)
Definition hle_obj_affine_set : SCH bool :=
  source ← reg 0; dest ← reg 1; count ← reg 2; offset ← reg 3;
  let count := i32 count in
  let offset := i32 offset in
  if (count <=? 0) || (offset <=? 0) then mret false
  else all_from 0 (Z.to_nat count) (obj_affine source dest offset).

(** ** Writing decompressed data *)

(** The loop from [offset]. *)
(* @ core_scheduler.cpp:4129-4133 CoreScheduler::hle_write_decompressed_wram *)
Fixpoint write_bytes (dest offset : Z) (output : list Z) : SCH bool :=
  match output with
  | [] => mret true
  | value :: output' =>
      ok ← write8 (u32 (dest + u32 offset)) value;
      if (ok : bool) then write_bytes dest (offset + 1) output' else mret false
  end.

(* @ core_scheduler.cpp:4127-4135 CoreScheduler::hle_write_decompressed_wram *)
Definition hle_write_decompressed_wram (output : list Z) : SCH bool :=
  dest ← reg 1; write_bytes dest 0 output.

(** Two bytes at a time; the last odd one is completed with zero. *)
(* @ core_scheduler.cpp:4139-4148 CoreScheduler::hle_write_decompressed_vram *)
Fixpoint write_halfwords (dest offset : Z) (output : list Z) : SCH bool :=
  let write low high :=
    write16 (u32 (dest + u32 offset)) (u16 (Z.lor low (Z.shiftl high 8))) in
  match output with
  | [] => mret true
  | [low] => write low 0
  | low :: high :: output' =>
      ok ← write low high;
      if (ok : bool) then write_halfwords dest (offset + 2) output' else mret false
  end.

(* @ core_scheduler.cpp:4137-4150 CoreScheduler::hle_write_decompressed_vram *)
Definition hle_write_decompressed_vram (output : list Z) : SCH bool :=
  dest ← reg 1; write_halfwords dest 0 output.

(** ** Decompression calls *)

(** The registers and the queued work after an LZ77 call. *)
(* @ core_scheduler.cpp:3864-3868 CoreScheduler::hle_lz77_uncomp_wram *)
Definition finish_lz77 (state : Lz77.State) (dest cycles : Z) : SCH bool :=
  set_reg 0 (Lz77.source state);;
  set_reg 1 (u32 (dest + u32 (size (Lz77.output state))));;
  set_reg 3 0;;
  set_sched (queue_hle_work (u64 (cycles + kHleLz77AdditionalCallCycles)));;
  mret true.

(** The stores, each with its cycles. *)
(* @ core_scheduler.cpp:3857-3863 CoreScheduler::hle_lz77_uncomp_wram *)
Fixpoint store_bytes (dest offset : Z) (output : list Z) (cycles : Z) : SCH (option Z) :=
  match output with
  | [] => mret (Some cycles)
  | value :: output' =>
      let address := u32 (dest + u32 offset) in
      ok ← write8 address value;
      if (ok : bool) then
        c ← gets (fun c => c);
        store_bytes dest (offset + 1) output'
          (u64 (cycles + hle_memory_cycles address AccessWidth.byte false c))
      else mret None
  end.

(* @ core_scheduler.cpp:3848-3869 CoreScheduler::hle_lz77_uncomp_wram *)
Definition hle_lz77_uncomp_wram : SCH bool :=
  dest ← reg 1; source ← reg 0;
  c ← gets (fun c => c);
  match Lz77.hle_lz77_decompress_from_source (fun a => read8 a c)
          (fun a w l => hle_memory_cycles a w l c) source dest false with
  | None => mret false
  | Some state =>
      cycles ← store_bytes dest 0 (Lz77.output state) (Lz77.cycles state);
      match cycles with
      | None => mret false
      | Some cycles => finish_lz77 state dest cycles
      end
  end.

(** The cycles of the halfword stores. *)
(* @ core_scheduler.cpp:3995-3998 CoreScheduler::hle_lz77_uncomp_vram *)
Definition vram_store_cycles (dest : Z) (output : list Z) (cycles : Z) (c : Core) : Z :=
  fold_left (fun cycles k =>
    u64 (cycles + hle_memory_cycles (u32 (dest + u32 (2 * Z.of_nat k))) AccessWidth.halfword
                    false c))
    (seq 0 ((length output + 1) / 2)) cycles.

(* @ core_scheduler.cpp:3985-4004 CoreScheduler::hle_lz77_uncomp_vram *)
Definition hle_lz77_uncomp_vram : SCH bool :=
  r1 ← reg 1;
  let dest := Z.land r1 (not32 1) in
  source ← reg 0;
  c ← gets (fun c => c);
  match Lz77.hle_lz77_decompress_from_source (fun a => read8 a c)
          (fun a w l => hle_memory_cycles a w l c) source dest true with
  | None => mret false
  | Some state =>
      ok ← hle_write_decompressed_vram (Lz77.output state);
      if negb ok then mret false
      else
        cycles ← gets (vram_store_cycles dest (Lz77.output state) (Lz77.cycles state));
        finish_lz77 state dest cycles
  end.

(** [if (!decompress(type, R0, output)) return false; return write(output);]. *)
Definition uncomp (decompress : (Z -> option Z) -> Z -> Z -> option (list Z)) (expected_type : Z)
    (write : list Z -> SCH bool) : SCH bool :=
  source ← reg 0;
  output ← gets (fun c => decompress (fun a => read8 a c) expected_type source);
  match output with None => mret false | Some output => write output end.

(* @ core_scheduler.cpp:4152-4158 CoreScheduler::hle_rl_uncomp_wram *)
Definition hle_rl_uncomp_wram : SCH bool :=
  uncomp Rle.hle_rle_decompress_from_source 0x30 hle_write_decompressed_wram.

(* @ core_scheduler.cpp:4160-4166 CoreScheduler::hle_rl_uncomp_vram *)
Definition hle_rl_uncomp_vram : SCH bool :=
  uncomp Rle.hle_rle_decompress_from_source 0x30 hle_write_decompressed_vram.

(* @ core_scheduler.cpp:4168-4174 CoreScheduler::hle_diff8_unfilter_wram *)
Definition hle_diff8_unfilter_wram : SCH bool :=
  uncomp Diff.hle_diff8_decompress_from_source 0x21 hle_write_decompressed_wram.

(* @ core_scheduler.cpp:4176-4182 CoreScheduler::hle_diff8_unfilter_vram *)
Definition hle_diff8_unfilter_vram : SCH bool :=
  uncomp Diff.hle_diff8_decompress_from_source 0x21 hle_write_decompressed_vram.

(* @ core_scheduler.cpp:4184-4190 CoreScheduler::hle_diff16_unfilter *)
Definition hle_diff16_unfilter : SCH bool :=
  uncomp Diff.hle_diff16_decompress_from_source 0x22 hle_write_decompressed_vram.

(** ** Bit unpacking *)

(** The source, the bit buffer and the number of bits in it. *)
Record BitReader : Type := mkBitReader { br_source : Z; bit_buffer : Z; bit_count : Z }.

(** [while (bit_count < count)]: a byte at a time, so [count] iterations at most. *)
(* @ core_scheduler.cpp:3899-3906 CoreScheduler::hle_bit_unpack *)
Fixpoint fill_bits (fuel : nat) (count : Z) (b : BitReader) (c : Core) : option BitReader :=
  if count <=? bit_count b then Some b
  else
    match fuel with
    | O => None
    | S fuel' =>
        byte ← read8 (br_source b) c;
        fill_bits fuel' count
          (mkBitReader (next (br_source b))
             (Z.lor (u32 (Z.shiftl (bit_buffer b) 8)) byte) (u32 (bit_count b + 8))) c
    end.

(** The lambda [read_bits]. *)
(* @ core_scheduler.cpp:3898-3911 CoreScheduler::hle_bit_unpack *)
Definition read_bits (count : Z) (b : BitReader) (c : Core) : option (Z * BitReader) :=
  b ← fill_bits (Z.to_nat count) count b c;
  let left := u32 (bit_count b - count) in
  let mask := if count =? 32 then 0xFFFFFFFF else u32 (u32 (Z.shiftl 1 count) - 1) in
  Some (Z.land (Z.shiftr (bit_buffer b) left) mask,
        mkBitReader (br_source b) (bit_buffer b) left).

(** The three loops whose units are bytes, halfwords or words: [n] units from
    [index], [width] bytes each. *)
(* @ core_scheduler.cpp:3913-3953 CoreScheduler::hle_bit_unpack *)
Fixpoint unpack_units (write : Z -> Z -> SCH bool) (dest width src_bits data_offset : Z)
    (n : nat) (index : Z) (b : BitReader) : SCH bool :=
  match n with
  | O => mret true
  | S n' =>
      value ← gets (read_bits src_bits b);
      match value with
      | None => mret false
      | Some (value, b) =>
          ok ← write (u32 (dest + u32 (index * width)))
                 (wrap (8 * width) (u32 (value + data_offset)));
          if (ok : bool)
          then unpack_units write dest width src_bits data_offset n' (index + 1) b
          else mret false
      end
  end.

(** The loop that packs units smaller than a byte; the last byte is padded. *)
(* @ core_scheduler.cpp:3955-3982 CoreScheduler::hle_bit_unpack *)
Fixpoint unpack_packed (dest dest_bits src_bits data_offset : Z) (n : nat)
    (out_byte out_bits out_index : Z) (b : BitReader) : SCH bool :=
  match n with
  | O =>
      if out_bits =? 0 then mret true
      else
        write8 (u32 (dest + out_index))
          (u8 (Z.land (u32 (Z.shiftl out_byte (8 - out_bits))) 0xFF))
  | S n' =>
      value ← gets (read_bits src_bits b);
      match value with
      | None => mret false
      | Some (value, b) =>
          let packed := u32 (value + data_offset) in
          let dest_mask := u32 (Z.shiftl 1 dest_bits) - 1 in
          let out_byte :=
            Z.lor (u32 (Z.shiftl out_byte dest_bits)) (Z.land packed dest_mask) in
          let out_bits := u8 (out_bits + dest_bits) in
          if out_bits =? 8 then
            ok ← write8 (u32 (dest + out_index)) (u8 (Z.land out_byte 0xFF));
            if (ok : bool)
            then unpack_packed dest dest_bits src_bits data_offset n' 0 0
                   (u32 (out_index + 1)) b
            else mret false
          else unpack_packed dest dest_bits src_bits data_offset n' out_byte out_bits out_index b
      end
  end.

(** The parameters at the address in R2. *)
(* @ core_scheduler.cpp:3876-3883 CoreScheduler::hle_bit_unpack *)
Definition read_unpack_info (info : Z) (c : Core) : option (Z * Z * Z * Z) :=
  length_word ← read16 info c;
  src_bits ← read8 (u32 (info + 2)) c;
  dest_bits ← read8 (u32 (info + 3)) c;
  data_offset ← read32 (u32 (info + 4)) c;
  Some (length_word, src_bits, dest_bits, data_offset).

(* @ core_scheduler.cpp:3871-3983 CoreScheduler::hle_bit_unpack *)
Definition hle_bit_unpack : SCH bool :=
  source ← reg 0; dest ← reg 1; info ← reg 2;
  parameters ← gets (read_unpack_info info);
  match parameters with
  | None => mret false
  | Some (length, src_bits, dest_bits, data_offset) =>
      if (src_bits =? 0) || (8 <? src_bits) then mret false
      else
        let b := mkBitReader source 0 0 in
        let n := Z.to_nat length in
        if dest_bits =? 8 then unpack_units write8 dest 1 src_bits data_offset n 0 b
        else if dest_bits =? 16 then unpack_units write16 dest 2 src_bits data_offset n 0 b
        else if dest_bits =? 32 then unpack_units write32 dest 4 src_bits data_offset n 0 b
        else if (dest_bits =? 1) || (dest_bits =? 2) || (dest_bits =? 4)
        then unpack_packed dest dest_bits src_bits data_offset n 0 0 0 b
        else mret false
  end.

(** ** CpuSet *)

(** The cycles consumed so far and the units not yet charged. *)
Record CpuSetChunk : Type := mkCpuSetChunk { consumed_cycles : Z; pending_units : Z }.

(* @ core_scheduler.cpp:3035-3035 kCpuSetChunkUnits *)
Definition kCpuSetChunkUnits : Z := 64.

(** The lambda [settle_chunk]. *)
(* @ core_scheduler.cpp:3040-3048 CoreScheduler::hle_cpu_set *)
Definition settle_chunk (per_unit_cycles : Z) (k : CpuSetChunk) : SCH CpuSetChunk :=
  if pending_units k =? 0 then mret k
  else
    let chunk_cycles := u32 (pending_units k * per_unit_cycles) in
    _ ← advance_devices chunk_cycles;
    mret (mkCpuSetChunk (u32 (consumed_cycles k + chunk_cycles)) 0).

(** The lambda [advance_unit]. *)
(* @ core_scheduler.cpp:3049-3053 CoreScheduler::hle_cpu_set *)
Definition advance_unit (per_unit_cycles : Z) (k : CpuSetChunk) : SCH CpuSetChunk :=
  let k := mkCpuSetChunk (consumed_cycles k) (u32 (pending_units k + 1)) in
  if pending_units k =? kCpuSetChunkUnits then settle_chunk per_unit_cycles k else mret k.

(** The lambda [read_word]. *)
(* @ core_scheduler.cpp:3057-3064 CoreScheduler::hle_cpu_set *)
Definition read_word (address : Z) (c : Core) : option Z :=
  if in_region Region.bios address then Some 0
  else
    read32 (if in_region Region.game_pak_save address then address
            else Z.land address (not32 0x3)) c.

(** The lambda [read_halfword]. *)
(* @ core_scheduler.cpp:3090-3102 CoreScheduler::hle_cpu_set *)
Definition read_halfword (address : Z) (c : Core) : option Z :=
  if in_region Region.bios address then Some 0
  else if Z.land address 0x1 =? 0 then read16 address c
  else read8 address c.

(** A store that fails ends the copy, except in the BIOS and the cartridge. *)
(* @ core_scheduler.cpp:3077-3082 CoreScheduler::hle_cpu_set *)
Definition store_unit (write : Z -> Z -> SCH bool) (address value : Z) : SCH bool :=
  ok ← write address value;
  mret (ok || in_region Region.bios address || in_region Region.game_pak_rom address).

(** The address a word is stored at. *)
(* @ core_scheduler.cpp:3070-3073 CoreScheduler::hle_cpu_set *)
Definition word_store_address (address : Z) : Z :=
  if in_region Region.game_pak_save address then address else Z.land address (not32 0x3).

(** The copy loop: [n] units of [width] bytes from [index]; [fill_value] is the
    value of a fill once it is read. *)
(* @ core_scheduler.cpp:3065-3084 CoreScheduler::hle_cpu_set *)
Fixpoint copy_units (read : Z -> Core -> option Z) (write : Z -> Z -> SCH bool)
    (store_address : Z -> Z) (source dest width per_unit_cycles : Z) (fill : bool) (n : nat)
    (index : Z) (fill_value : option Z) (k : CpuSetChunk) : SCH (option CpuSetChunk) :=
  match n with
  | O => mret (Some k)
  | S n' =>
      value ←
        (if fill then
           match fill_value with Some _ => mret fill_value | None => gets (read source) end
         else gets (read (u32 (source + u32 (index * width)))));
      match value with
      | None => mret None
      | Some v =>
          ok ← store_unit write (store_address (u32 (dest + u32 (index * width)))) v;
          if negb ok then mret None
          else
            k ← advance_unit per_unit_cycles k;
            copy_units read write store_address source dest width per_unit_cycles fill n'
              (index + 1) (if fill then value else None) k
      end
  end.

(* @ core_scheduler.cpp:3014-3121 CoreScheduler::hle_cpu_set *)
Definition hle_cpu_set (fast : bool) : SCH (option Z) :=
  source ← reg 0; dest ← reg 1; control ← reg 2;
  let fill := has control (Z.shiftl 1 24) in
  let word_bit := has control (Z.shiftl 1 26) in
  let word := fast || word_bit in
  let count := cpu_set_count control fast in
  let byte_length := u32 (count * (if word then 4 else 2)) in
  if negb (count =? 0) && negb (hle_cpu_set_source_allowed source byte_length)
  then mret (Some 0)
  else
    let per_unit_cycles := if fast then 12 else if word_bit then 8 else 4 in
    let k := mkCpuSetChunk 0 0 in
    let n := Z.to_nat count in
    copied ←
      (if word then
         copy_units read_word write32 word_store_address source dest 4 per_unit_cycles fill n 0
           None k
       else
         copy_units read_halfword write16 id source dest 2 per_unit_cycles fill n 0 None k);
    match copied with
    | None => mret None
    | Some k => k ← settle_chunk per_unit_cycles k; mret (Some (consumed_cycles k))
    end.

(** ** The dispatch *)

(* @ core_scheduler.cpp:2726-2728 CoreScheduler::execute_hle_swi *)
Definition swi_unsupported : SCH ArmStepResult := gets (hle_step ExecuteStatus.unsupported 1).

(** The lambda [executed]. *)
(* @ core_scheduler.cpp:2729-2736 CoreScheduler::execute_hle_swi *)
Definition swi_executed (call : BiosSwiCall) (fetch_address base_cycles : Z)
    (profile : HleSwiProfileKind.t) : SCH ArmStepResult :=
  c ← gets (fun c => c);
  adjustment ← lift (hle_swi_profile_adjustment call fetch_address (waitcnt_ptr c) profile);
  mret (hle_step ExecuteStatus.executed (add_hle_profile_adjustment base_cycles adjustment) c).

(** Halt: the wake of an HBlank has its own latency. *)
(* @ core_scheduler.cpp:2750-2774 CoreScheduler::execute_hle_swi *)
Definition swi_halt (executed : Z -> HleSwiProfileKind.t -> SCH ArmStepResult)
    : SCH ArmStepResult :=
  mask ← gets (fun c => interrupt_enable (interrupts (devices_of c)));
  woken ← wait_for_interrupt_mask mask false;
  if negb woken then swi_unsupported
  else
    pending ← gets (fun c => pending_mask (interrupts (devices_of c)));
    executed (if has pending (interrupt_bit InterruptSource.hblank)
              then kHblankHaltReturnCycles else 1) HleSwiProfileKind.simple.

(* @ core_scheduler.cpp:2786-2798 CoreScheduler::execute_hle_swi *)
Definition swi_div (executed : Z -> HleSwiProfileKind.t -> SCH ArmStepResult) (arm_order : bool)
    : SCH ArmStepResult :=
  r0 ← reg 0; r1 ← reg 1;
  let numerator := as_i32 (if arm_order then r1 else r0) in
  let denominator := as_i32 (if arm_order then r0 else r1) in
  set_reg 0 (SchedulerTiming.wrap_u32 (hle_div_quotient numerator denominator));;
  set_reg 1 (SchedulerTiming.wrap_u32 (hle_div_remainder numerator denominator));;
  set_reg 3 (hle_div_abs_scratch numerator denominator);;
  executed (hle_div_base_cycles numerator denominator) HleSwiProfileKind.literal.

(* @ core_scheduler.cpp:2799-2805 CoreScheduler::execute_hle_swi *)
Definition swi_sqrt (executed : Z -> HleSwiProfileKind.t -> SCH ArmStepResult)
    : SCH ArmStepResult :=
  input ← reg 0;
  set_reg 0 (hle_sqrt input);;
  executed (hle_sqrt_base_cycles input)
    (if 0xFF <? input then HleSwiProfileKind.literal else HleSwiProfileKind.simple).

(* @ core_scheduler.cpp:2806-2815 CoreScheduler::execute_hle_swi *)
Definition swi_arc_tan (executed : Z -> HleSwiProfileKind.t -> SCH ArmStepResult)
    : SCH ArmStepResult :=
  r0 ← reg 0;
  let '(result, scratch_r1, scratch_r3) := hle_arc_tan (as_i32 r0) in
  set_reg 0 (SchedulerTiming.wrap_u32 result);;
  set_reg 1 (SchedulerTiming.wrap_u32 scratch_r1);;
  set_reg 3 (SchedulerTiming.wrap_u32 scratch_r3);;
  executed 99 HleSwiProfileKind.simple.

(* @ core_scheduler.cpp:2816-2825 CoreScheduler::execute_hle_swi *)
Definition swi_arc_tan2 (executed : Z -> HleSwiProfileKind.t -> SCH ArmStepResult)
    : SCH ArmStepResult :=
  r0 ← reg 0; r1 ← reg 1;
  let '(result, scratch) := hle_arc_tan2 (as_i32 r0) (as_i32 r1) in
  set_reg 0 (u16 result);;
  set_reg 1 (SchedulerTiming.wrap_u32 (default (as_i32 r1) scratch));;
  set_reg 3 0x170;;
  executed 99 HleSwiProfileKind.simple.

(** The cycles the copy consumed are deducted. *)
(* @ core_scheduler.cpp:2826-2841 CoreScheduler::execute_hle_swi *)
Definition swi_cpu_set (executed : Z -> HleSwiProfileKind.t -> SCH ArmStepResult) (fast : bool)
    : SCH ArmStepResult :=
  consumed ← hle_cpu_set fast;
  match consumed with
  | None => swi_unsupported
  | Some consumed =>
      control ← reg 2; source ← reg 0;
      executed (u32 (hle_cpu_set_base_cycles control fast source - consumed))
        HleSwiProfileKind.cpu_set
  end.

(** [ok() ? executed(3, profile) : unsupported()]. *)
Definition swi_if (executed : Z -> HleSwiProfileKind.t -> SCH ArmStepResult) (ok : SCH bool)
    (profile : HleSwiProfileKind.t) : SCH ArmStepResult :=
  ok ← ok; if (ok : bool) then executed 3 profile else swi_unsupported.

(** The services. *)
(* @ core_scheduler.cpp:2743-2873 CoreScheduler::execute_hle_swi *)
Definition run_service (executed : Z -> HleSwiProfileKind.t -> SCH ArmStepResult)
    (service : Z) : SCH ArmStepResult :=
  match service with
  | 0x01 =>
      on_devices (fun d =>
        '(_, p) ← PpuTiming.write_lcd_control 0x04000000 0x0080 (ppu d);
        Ret (tt, d <| ppu := p |>));;
      flags ← reg 0;
      on_machine (fun m => Ret (tt, (MemoryBus.register_ram_reset flags m.1, m.2)));;
      executed 200 HleSwiProfileKind.simple
  | 0x02 => swi_halt executed
  | 0x04 =>
      r0 ← reg 0; r1 ← reg 1;
      woken ← wait_for_interrupt_mask (u16 r1) (negb (r0 =? 0));
      if (woken : bool) then executed kIntrWaitReturnCycles HleSwiProfileKind.simple
      else swi_unsupported
  | 0x05 =>
      woken ← wait_for_interrupt_mask 0x0001 true;
      if (woken : bool) then executed kVBlankIntrWaitReturnCycles HleSwiProfileKind.simple
      else swi_unsupported
  | 0x06 => swi_div executed false
  | 0x07 => swi_div executed true
  | 0x08 => swi_sqrt executed
  | 0x09 => swi_arc_tan executed
  | 0x0A => swi_arc_tan2 executed
  | 0x0B => swi_cpu_set executed false
  | 0x0C => swi_cpu_set executed true
  | 0x0E => swi_if executed hle_bg_affine_set HleSwiProfileKind.simple
  | 0x0F => swi_if executed hle_obj_affine_set HleSwiProfileKind.simple
  | 0x10 => swi_if executed hle_bit_unpack HleSwiProfileKind.cpu_set
  | 0x11 => swi_if executed hle_lz77_uncomp_wram HleSwiProfileKind.cpu_set
  | 0x12 => swi_if executed hle_lz77_uncomp_vram HleSwiProfileKind.cpu_set
  | 0x13 => swi_if executed hle_rl_uncomp_wram HleSwiProfileKind.cpu_set
  | 0x14 => swi_if executed hle_rl_uncomp_vram HleSwiProfileKind.cpu_set
  | 0x15 => swi_if executed hle_diff8_unfilter_wram HleSwiProfileKind.cpu_set
  | 0x16 => swi_if executed hle_diff8_unfilter_vram HleSwiProfileKind.cpu_set
  | 0x17 => swi_if executed hle_diff16_unfilter HleSwiProfileKind.cpu_set
  | _ => swi_unsupported
  end.

(** [bios_] is set: the callers check [bios_hle_enabled]. *)
(* @ core_scheduler.cpp:2724-2742 CoreScheduler::execute_hle_swi *)
Definition execute_hle_swi (call : BiosSwiCall) (fetch_address : Z) : SCH ArmStepResult :=
  s ← gets sched;
  match bios_ s with
  | None => throw
  | Some bios =>
      let policy := handle_swi call bios in
      if negb (bool_decide (result_status policy = BiosSwiStatus.handled)) then swi_unsupported
      else run_service (swi_executed call fetch_address) (service call)
  end.

(* @ core_scheduler.cpp:2703-2714 CoreScheduler::execute_hle_arm_swi *)
Definition execute_hle_arm_swi (instruction fetch_address : Z) : SCH (option ArmStepResult) :=
  s ← gets sched;
  if negb (bios_hle_enabled s) || negb (can_decode_software_interrupt instruction) then mret None
  else if negb (Z.land (Z.shiftr instruction 28) 0xF =? 14) then mret None
  else step ← execute_hle_swi (decode_arm_swi instruction) fetch_address; mret (Some step).

(* @ core_scheduler.cpp:2716-2722 CoreScheduler::execute_hle_thumb_swi *)
Definition execute_hle_thumb_swi (instruction fetch_address : Z) : SCH (option ArmStepResult) :=
  s ← gets sched;
  if negb (bios_hle_enabled s) || negb (can_decode_thumb_software_interrupt instruction)
  then mret None
  else step ← execute_hle_swi (decode_thumb_swi instruction) fetch_address; mret (Some step).
