(* ===== verification/HleSafety.v ===== *)
(** * The emulated BIOS: safety of the services

    Every service of [execute_hle_swi] returns and keeps the invariant of the
    core: the stores are of values of their width, the loops over memory are
    bounded by their counts, and the cycles charged are 32-bit. *)

From S2P Require Import Prelude StateMonad StateHash Interrupts BusTypes WaitState.
From S2P Require Timers PpuTiming MemoryBus TimersSpec BusSafety BiosSpec.
From S2P Require Import Apu Dma IoRegisters DmaTransfer Bios.
From S2P Require Import ArmTypes ArmState ArmExecute ArmMemory BusInterface.
From S2P Require Import ArmSafety ArmTotal ArmMemorySafety ArmStepSafety.
From S2P Require Import IoRegistersSpec DmaTransferSpec.
From S2P Require Import SchedulerTiming SchedulerProbe SchedulerState SchedulerDevices.
From S2P Require Import SchedulerDevicesSpec SchedulerSafety SchedulerProbeSafety SchedulerWait.
From S2P Require Import SchedulerWaitSafety SchedulerIrq SchedulerIrqSafety.
From S2P Require Import HleDecompress HleDecompressSpec HleServices.

(** ** Memory and registers *)

Lemma bios_read8_fits a c v : core_ok c -> read8 a c = Some v -> fits 8 v.
Proof. intros Hc. apply (mi_read8 a (machine_of c) v (inv_machine c Hc)). Qed.

Lemma bios_read16_fits a c v : core_ok c -> read16 a c = Some v -> fits 16 v.
Proof. intros Hc. apply (mi_read16 a (machine_of c) v (inv_machine c Hc)). Qed.

Lemma bios_read32_fits a c v : core_ok c -> read32 a c = Some v -> fits 32 v.
Proof. intros Hc. apply (mi_read32 a (machine_of c) v (inv_machine c Hc)). Qed.

Lemma safe_hle_write8 a v : fits 8 v -> safe core_ok (write8 a v).
Proof. intros Hv. apply safe_on_sys. exact (safe_write8 io_callbacks machine_ok a v Hv). Qed.

Lemma safe_hle_write16 a v : fits 16 v -> safe core_ok (write16 a v).
Proof. intros Hv. apply safe_on_sys. exact (safe_write16 io_callbacks machine_ok a v Hv). Qed.

Lemma safe_hle_reg i : reg_index i -> safe core_ok (reg i).
Proof. intros Hi. by apply safe_on_cpu, safe_register_value. Qed.

Lemma safe_hle_set_reg i v : reg_index i -> fits 32 v -> safe core_ok (set_reg i v).
Proof. apply safe_set_cpu_register. Qed.

Create HintDb hle discriminated.

Ltac small_index := unfold reg_index; lia.
Ltac wraps := apply wrap_fits; lia.

#[export] Hint Extern 1 (reg_index _) => small_index : hle.
#[export] Hint Extern 1 (fits _ (wrap _ _)) => (apply wrap_fits; lia) : hle.
#[export] Hint Extern 2 (fits _ 0) => (by vm_compute) : hle.
#[export] Hint Extern 1 (fits _ (SchedulerTiming.wrap_u32 _)) => (apply wrap_fits; lia) : hle.
#[export] Hint Resolve safe_hle_reg safe_hle_set_reg safe_hle_write8 safe_hle_write16
  safe_sched_write32 safe_ask_core safe_ask_bool safe_ask_sched safe_ask_devices : hle.

Lemma safe_all_from first n body :
  (forall i, safe core_ok (body i)) -> safe core_ok (all_from first n body).
Proof.
  intros Hb. revert first. induction n as [|n IH]; intros first; cbn [all_from]; [by apply safe_ret|].
  eapply safe_bind; [apply Hb|]. intros ok _. apply safe_if; intros _; [apply IH|by apply safe_ret].
Qed.

Lemma safe_all_writes l : Forall (fun m => safe core_ok m) l -> safe core_ok (all_writes l).
Proof.
  induction 1 as [|m l Hm _ IH]; cbn [all_writes]; [by apply safe_ret|].
  eapply safe_bind; [exact Hm|]. intros ok _. apply safe_if; intros _; [exact IH|by apply safe_ret].
Qed.

(** A question whose answer the invariant constrains. *)
Lemma total_ask {A B} {HB : Typed B} (X : A -> Prop) (f : Core -> A) (k : A -> SCH B) :
  (forall c, core_ok c -> X (f c)) -> (forall a, X a -> safe core_ok (k a)) ->
  safe core_ok (a ← gets f; k a).
Proof.
  intros Hf Hk. eapply (total_seq _ core_ok X); [|exact Hk].
  apply total_gets. intros c Hc. split; [by apply Hf|done].
Qed.

(** ** Affine sets *)

Lemma matrix_wide_returns x y r : ensures (fun _ => True) (hle_affine_matrix_wide x y r).
Proof.
  unfold hle_affine_matrix_wide. cbv zeta.
  rewrite (BiosSpec.affine_sine_returns (u8 (Z.shiftr r 8))), (BiosSpec.affine_sine_returns (u8 (u8 (Z.shiftr r 8) + 64)))
    by (apply wrap_fits; lia).
  by apply ensures_ret.
Qed.

Lemma matrix_returns x y r : ensures (fun _ => True) (hle_affine_matrix x y r).
Proof.
  unfold hle_affine_matrix. apply (ensures_bind _ _ _ _ (matrix_wide_returns x y r)).
  intros m _. by apply ensures_ret.
Qed.

Ltac writes := repeat (apply Forall_cons_2; [solve [auto with hle]|]); apply Forall_nil_2.

Lemma safe_bg_affine source dest i : safe core_ok (bg_affine source dest i).
Proof.
  unfold bg_affine. cbv zeta. apply (total_ask (fun _ => True)); [done|]. intros [r|] _; [|by apply safe_ret].
  eapply total_seq; [apply total_lift_ret, matrix_wide_returns|]. intros m _.
  apply safe_all_writes. writes.
Qed.

Lemma safe_obj_affine source dest offset i : safe core_ok (obj_affine source dest offset i).
Proof.
  unfold obj_affine. cbv zeta. do 3 (apply (total_ask (fun _ => True)); [done|]; intros ? _).
  repeat case_match; try (by apply safe_ret).
  eapply total_seq; [apply total_lift_ret, matrix_returns|]. intros m _.
  apply safe_all_writes. writes.
Qed.

Lemma safe_bg_affine_set : safe core_ok hle_bg_affine_set.
Proof.
  unfold hle_bg_affine_set. do 3 (eapply safe_bind; [solve [auto with hle]|]; intros ? _). cbv zeta.
  apply safe_if; intros _; [by apply safe_ret|]. apply safe_all_from. intros i. apply safe_bg_affine.
Qed.

Lemma safe_obj_affine_set : safe core_ok hle_obj_affine_set.
Proof.
  unfold hle_obj_affine_set. do 4 (eapply safe_bind; [solve [auto with hle]|]; intros ? _). cbv zeta.
  apply safe_if; intros _; [by apply safe_ret|]. apply safe_all_from. intros i. apply safe_obj_affine.
Qed.

(** ** Decompressed data *)

Lemma safe_write_bytes dest offset output : Forall (fits 8) output ->
  safe core_ok (write_bytes dest offset output).
Proof.
  intros H. revert offset. induction H as [|v l Hv _ IH]; intros offset; cbn [write_bytes];
    [by apply safe_ret|].
  eapply safe_bind; [by apply safe_hle_write8|]. intros ok _.
  apply safe_if; intros _; [apply IH|by apply safe_ret].
Qed.

Lemma safe_write_halfwords dest output : forall offset,
  safe core_ok (write_halfwords dest offset output).
Proof.
  (* two bytes at a time *)
  induction output as [output IH] using (well_founded_induction
    (Wf_nat.well_founded_ltof _ (@length Z))). unfold Wf_nat.ltof in IH. intros offset.
  destruct output as [|low [|high output]]; cbn [write_halfwords].
  - by apply safe_ret.
  - auto with hle.
  - eapply safe_bind; [auto with hle|]. intros ok _. apply safe_if; intros _; [|by apply safe_ret].
    apply IH. cbn. lia.
Qed.

Lemma safe_write_wram output : Forall (fits 8) output -> safe core_ok (hle_write_decompressed_wram output).
Proof.
  intros H. unfold hle_write_decompressed_wram. eapply safe_bind; [auto with hle|]. intros dest _.
  by apply safe_write_bytes.
Qed.

Lemma safe_write_vram output : safe core_ok (hle_write_decompressed_vram output).
Proof.
  unfold hle_write_decompressed_vram. eapply safe_bind; [auto with hle|]. intros dest _.
  apply safe_write_halfwords.
Qed.

Lemma safe_finish_lz77 st dest cycles : fits 32 (Lz77.source st) -> safe core_ok (finish_lz77 st dest cycles).
Proof.
  intros Hs. unfold finish_lz77. do 3 (eapply safe_bind; [solve [auto with hle]|]; intros _ _).
  eapply safe_bind; [|intros _ _; by apply safe_ret]. apply safe_set_sched. intros s.
  apply queue_work_wf. wraps.
Qed.

Lemma safe_store_bytes dest output : Forall (fits 8) output -> forall offset cycles,
  total core_ok (store_bytes dest offset output cycles) (fun _ c => True /\ core_ok c).
Proof.
  induction 1 as [|v l Hv _ IH]; intros offset cycles; cbn [store_bytes]; [by apply total_ret|].
  cbv zeta. eapply total_seq; [by apply safe_hle_write8|]. intros [|] _; [|by apply total_ret].
  eapply total_seq; [apply safe_ask_core|]. intros c _. apply IH.
Qed.

Lemma safe_lz77_wram : safe core_ok hle_lz77_uncomp_wram.
Proof.
  unfold hle_lz77_uncomp_wram. do 2 (eapply safe_bind; [solve [auto with hle]|]; intros ? _).
  eapply safe_bind; [apply safe_ask_core|]. intros c Hc.
  match goal with |- context [Lz77.hle_lz77_decompress_from_source ?r ?m ?s ?d ?v] =>
    destruct (Lz77.hle_lz77_decompress_from_source r m s d v) as [st|] eqn:E end; [|by apply safe_ret].
  destruct (lz77_exact _ (fun a v => bios_read8_fits a c v Hc) _ _ _ _ _ E) as (t & n & s0 & _ & [Ho _] & Hs).
  eapply total_seq; [by apply safe_store_bytes|]. intros [cycles|] _; [|by apply safe_ret].
  by apply safe_finish_lz77.
Qed.

Lemma safe_lz77_vram : safe core_ok hle_lz77_uncomp_vram.
Proof.
  unfold hle_lz77_uncomp_vram. do 2 (eapply safe_bind; [solve [auto with hle]|]; intros ? _). cbv zeta.
  eapply safe_bind; [apply safe_ask_core|]. intros c Hc.
  match goal with |- context [Lz77.hle_lz77_decompress_from_source ?r ?m ?s ?d ?v] =>
    destruct (Lz77.hle_lz77_decompress_from_source r m s d v) as [st|] eqn:E end; [|by apply safe_ret].
  destruct (lz77_exact _ (fun a v => bios_read8_fits a c v Hc) _ _ _ _ _ E) as (t & n & s0 & _ & [Ho _] & Hs).
  eapply safe_bind; [apply safe_write_vram|]. intros ok _. apply safe_if; intros _; [by apply safe_ret|].
  apply (total_ask (fun _ => True)); [done|]. intros cycles _. by apply safe_finish_lz77.
Qed.

(** A decoder of bytes with a store of its output. *)
Lemma safe_uncomp decompress t write :
  (forall read source o, (forall a v, read a = Some v -> fits 8 v) ->
     decompress read t source = Some o -> Forall (fits 8) o) ->
  (forall o, Forall (fits 8) o -> safe core_ok (write o)) -> safe core_ok (uncomp decompress t write).
Proof.
  intros Hd Hw. unfold uncomp. eapply safe_bind; [auto with hle|]. intros source _.
  apply (total_ask (fun o => forall l, o = Some l -> Forall (fits 8) l)).
  - intros c Hc l E. exact (Hd _ _ _ (fun a v => bios_read8_fits a c v Hc) E).
  - intros [o|] H; [|by apply safe_ret]. by apply Hw, H.
Qed.

Lemma rle_bytes t read source o : (forall a v, read a = Some v -> fits 8 v) ->
  Rle.hle_rle_decompress_from_source read t source = Some o -> Forall (fits 8) o.
Proof. intros Hr E. by destruct (rle_exact read Hr _ _ _ E) as (n & s0 & _ & H & _). Qed.

Lemma diff8_bytes t read source o : (forall a v, read a = Some v -> fits 8 v) ->
  Diff.hle_diff8_decompress_from_source read t source = Some o -> Forall (fits 8) o.
Proof. intros Hr E. by destruct (diff8_exact read Hr _ _ _ E) as (n & s0 & _ & H & _). Qed.

Lemma diff16_bytes t read source o : (forall a v, read a = Some v -> fits 8 v) ->
  Diff.hle_diff16_decompress_from_source read t source = Some o -> Forall (fits 8) o.
Proof. intros Hr E. by destruct (diff16_exact read Hr _ _ _ E) as (n & s0 & _ & H & _). Qed.

Lemma safe_rl_wram : safe core_ok hle_rl_uncomp_wram.
Proof. apply safe_uncomp; [apply rle_bytes|apply safe_write_wram]. Qed.

Lemma safe_rl_vram : safe core_ok hle_rl_uncomp_vram.
Proof. apply safe_uncomp; [apply rle_bytes|intros o _; apply safe_write_vram]. Qed.

Lemma safe_diff8_wram : safe core_ok hle_diff8_unfilter_wram.
Proof. apply safe_uncomp; [apply diff8_bytes|apply safe_write_wram]. Qed.

Lemma safe_diff8_vram : safe core_ok hle_diff8_unfilter_vram.
Proof. apply safe_uncomp; [apply diff8_bytes|intros o _; apply safe_write_vram]. Qed.

Lemma safe_diff16 : safe core_ok hle_diff16_unfilter.
Proof. apply safe_uncomp; [apply diff16_bytes|intros o _; apply safe_write_vram]. Qed.

(** ** Bit unpacking *)

Lemma safe_unpack_units write dest width src_bits data_offset n :
  0 <= width -> (forall a v, fits (8 * width) v -> safe core_ok (write a v)) ->
  forall index b, safe core_ok (unpack_units write dest width src_bits data_offset n index b).
Proof.
  intros H0 Hw. induction n as [|n IH]; intros index b; cbn [unpack_units]; [by apply safe_ret|].
  apply (total_ask (fun _ => True)); [done|]. intros [[v b']|] _; [|by apply safe_ret].
  eapply safe_bind; [apply Hw, wrap_fits; lia|]. intros ok _.
  apply safe_if; intros _; [apply IH|by apply safe_ret].
Qed.

Lemma safe_unpack_packed dest dest_bits src_bits data_offset n : forall out_byte out_bits out_index b,
  safe core_ok (unpack_packed dest dest_bits src_bits data_offset n out_byte out_bits out_index b).
Proof.
  induction n as [|n IH]; intros out_byte out_bits out_index b; cbn [unpack_packed].
  { apply safe_if; intros _; [by apply safe_ret|auto with hle]. }
  apply (total_ask (fun _ => True)); [done|]. intros [[v b']|] _; [|by apply safe_ret]. cbv zeta.
  apply safe_if; intros _; [|apply IH]. eapply safe_bind; [auto with hle|]. intros ok _.
  apply safe_if; intros _; [apply IH|by apply safe_ret].
Qed.

Lemma safe_bit_unpack : safe core_ok hle_bit_unpack.
Proof.
  unfold hle_bit_unpack. do 3 (eapply safe_bind; [solve [auto with hle]|]; intros ? _).
  apply (total_ask (fun _ => True)); [done|]. intros [[[[len sb] db] off]|] _; [|by apply safe_ret].
  apply safe_if; intros _; [by apply safe_ret|]. cbv zeta.
  do 3 (apply safe_if; intros _;
    [apply safe_unpack_units; [lia|]; intros ad vv Hvv; by auto with hle|]).
  apply safe_if; intros _; [apply safe_unpack_packed|by apply safe_ret].
Qed.

(** ** CpuSet *)

#[export] Instance typed_chunk : Typed CpuSetChunk := fun k => fits 32 (consumed_cycles k).

Lemma safe_settle_chunk n k : typed k -> safe core_ok (settle_chunk n k).
Proof.
  intros Hk. unfold settle_chunk. apply safe_if; intros _; [by apply safe_ret|]. cbv zeta.
  eapply safe_bind; [apply safe_advance; wraps|]. intros _ _. apply safe_ret. unfold typed, typed_chunk.
  cbn. wraps.
Qed.

Lemma safe_advance_unit n k : typed k -> safe core_ok (advance_unit n k).
Proof.
  intros Hk. unfold advance_unit. cbv zeta.
  apply safe_if; intros _; [by apply safe_settle_chunk|by apply safe_ret].
Qed.

Lemma safe_store_unit w write a v : (forall a v, fits w v -> safe core_ok (write a v)) -> fits w v ->
  safe core_ok (store_unit write a v).
Proof.
  intros Hw Hv. unfold store_unit. eapply safe_bind; [by apply Hw|]. intros ok _. by apply safe_ret.
Qed.

Lemma safe_copy_units w read write store_address source dest width cycles (fill : bool) n :
  (forall a c v, core_ok c -> read a c = Some v -> fits w v) ->
  (forall a v, fits w v -> safe core_ok (write a v)) ->
  forall index fill_value k, (forall v, fill_value = Some v -> fits w v) -> typed k ->
  safe core_ok (copy_units read write store_address source dest width cycles fill n index fill_value k).
Proof.
  intros Hr Hw. induction n as [|n IH]; intros index fill_value k Hf Hk; cbn [copy_units].
  { by apply safe_ret, typed_Some. }
  eapply (total_seq _ core_ok (fun o : option Z => forall v, o = Some v -> fits w v)).
  { assert (Hg : forall a, total core_ok (gets (read a))
      (fun o c => (forall v, o = Some v -> fits w v) /\ core_ok c)).
    { intros a. apply total_gets. intros c Hc. split; [|done]. intros v. by apply Hr. }
    destruct fill; [|apply Hg]. destruct fill_value; [|apply Hg]. by apply total_ret. }
  intros [v|] Hv; [|by apply safe_ret; intros ? ?].
  eapply safe_bind; [by apply (safe_store_unit w); [|apply Hv]|]. intros ok _.
  apply safe_if; intros _; [by apply safe_ret; intros ? ?|].
  eapply safe_bind; [by apply safe_advance_unit|]. intros k' Hk'. apply IH; [|done].
  destruct fill; [done|by intros ? ?].
Qed.

Lemma read_word_fits a c v : core_ok c -> read_word a c = Some v -> fits 32 v.
Proof.
  intros Hc. unfold read_word. case_match; [by intros [= <-]|]. by apply bios_read32_fits.
Qed.

Lemma read_halfword_fits a c v : core_ok c -> read_halfword a c = Some v -> fits 16 v.
Proof.
  intros Hc. unfold read_halfword. case_match; [by intros [= <-]|].
  case_match; [by apply bios_read16_fits|]. intros E. apply (fits_mono 8); [lia|]. by eapply bios_read8_fits.
Qed.

Lemma safe_cpu_set fast : safe core_ok (hle_cpu_set fast).
Proof.
  unfold hle_cpu_set. do 3 (eapply safe_bind; [solve [auto with hle]|]; intros ? _). cbv zeta.
  apply safe_if; intros _; [by apply safe_ret, typed_Some; vm_compute|].
  assert (H0 : typed (mkCpuSetChunk 0 0)) by (by vm_compute).
  eapply safe_bind.
  { apply safe_if; intros _.
    - apply (safe_copy_units 32); [apply read_word_fits|apply safe_sched_write32|done|done].
    - apply (safe_copy_units 16); [apply read_halfword_fits|apply safe_hle_write16|done|done]. }
  intros [k|] Hk; [|by apply safe_ret; intros ? ?].
  eapply safe_bind; [by apply safe_settle_chunk, Hk|]. intros k' Hk'. by apply safe_ret, typed_Some.
Qed.

(** ** The dispatch *)

Lemma safe_swi_unsupported : safe core_ok swi_unsupported.
Proof. by apply safe_hle_step. Qed.

(** The continuation of a service: it charges 32-bit cycles. *)
Definition charges (executed : Z -> HleSwiProfileKind.t -> SCH ArmStepResult) : Prop :=
  forall n p, fits 32 n -> safe core_ok (executed n p).

Lemma safe_swi_executed call fetch_address : charges (swi_executed call fetch_address).
Proof.
  intros n p Hn. unfold swi_executed. eapply safe_bind; [apply safe_ask_core|]. intros c Hc.
  destruct (profile_adjustment_ok call fetch_address (waitcnt_ptr c) p) as (a & -> & _).
  eapply (total_seq _ core_ok (eq a)); [apply total_lift; intros x Hx; by exists a|]. intros ? <-.
  apply safe_ret. apply hle_step_typed. by apply add_adjustment_fits.
Qed.

Lemma div_scratch_fits n d : fits 32 (hle_div_abs_scratch n d).
Proof.
  unfold hle_div_abs_scratch, Bios.wrap_u32. destruct (d =? 0); [by vm_compute|].
  destruct (div_overflows n d); wraps.
Qed.

Lemma div_cycles_fits n d : fits 32 (hle_div_base_cycles n d).
Proof. unfold hle_div_base_cycles. cbv zeta. case_match; [by vm_compute|]. by case_match; vm_compute. Qed.

Section Services.
Context (executed : Z -> HleSwiProfileKind.t -> SCH ArmStepResult) (He : charges executed).

Lemma safe_swi_if m p : safe core_ok m -> safe core_ok (swi_if executed m p).
Proof using He.
  intros Hm. unfold swi_if. eapply safe_bind; [exact Hm|]. intros ok _.
  apply safe_if; intros _; [by apply He|apply safe_swi_unsupported].
Qed.

Lemma safe_halt : safe core_ok (swi_halt executed).
Proof using He.
  unfold swi_halt. apply (total_ask (fun _ => True)); [done|]. intros mask _.
  eapply safe_bind; [apply safe_wait|]. intros woken _.
  apply safe_if; intros _; [apply safe_swi_unsupported|].
  apply (total_ask (fun _ => True)); [done|]. intros pending _. apply He. by case_match.
Qed.

Lemma safe_div b : safe core_ok (swi_div executed b).
Proof using He.
  unfold swi_div. do 2 (eapply safe_bind; [solve [auto with hle]|]; intros ? _). cbv zeta.
  do 2 (eapply safe_bind; [solve [auto with hle]|]; intros _ _).
  eapply safe_bind; [apply safe_hle_set_reg; [small_index|apply div_scratch_fits]|].
  intros _ _. apply He, div_cycles_fits.
Qed.

Lemma safe_sqrt : safe core_ok (swi_sqrt executed).
Proof using He.
  unfold swi_sqrt. eapply safe_bind; [auto with hle|]. intros input _.
  eapply safe_bind; [by apply safe_hle_set_reg; [small_index|apply wrap_fits; lia]|]. intros _ _.
  apply He. unfold hle_sqrt_base_cycles. repeat case_match; by vm_compute.
Qed.

Lemma safe_arc_tan : safe core_ok (swi_arc_tan executed).
Proof using He.
  unfold swi_arc_tan. eapply safe_bind; [auto with hle|]. intros r0 _.
  destruct (hle_arc_tan (as_i32 r0)) as [[r s1] s3].
  do 3 (eapply safe_bind; [solve [auto with hle]|]; intros _ _). by apply He.
Qed.

Lemma safe_arc_tan2 : safe core_ok (swi_arc_tan2 executed).
Proof using He.
  unfold swi_arc_tan2. do 2 (eapply safe_bind; [solve [auto with hle]|]; intros ? _).
  destruct (hle_arc_tan2 _ _) as [r s].
  eapply safe_bind.
  { apply safe_hle_set_reg; [small_index|]. apply (fits_mono 16); [lia|wraps]. }
  intros _ _. eapply safe_bind; [auto with hle|]. intros _ _.
  eapply safe_bind; [by apply safe_hle_set_reg; [small_index|vm_compute]|]. intros _ _. by apply He.
Qed.

Lemma safe_swi_cpu_set fast : safe core_ok (swi_cpu_set executed fast).
Proof using He.
  unfold swi_cpu_set. eapply safe_bind; [apply safe_cpu_set|]. intros [n|] _; [|apply safe_swi_unsupported].
  do 2 (eapply safe_bind; [solve [auto with hle]|]; intros ? _). apply He. wraps.
Qed.

Lemma safe_write_dispcnt :
  safe core_ok (on_devices (fun d =>
    '(_, p) ← PpuTiming.write_lcd_control 0x04000000 0x0080 (ppu d);
    Ret (tt, d <| ppu := p |>))).
Proof using Type.
  apply (safe_on_devices core_ok). intros d Hd.
  eapply ensures_bind; [apply (write_lcd_wf d Hd 0x04000000 0x0080)|]. intros [b p] Hp. cbn [snd] in Hp.
  by apply ensures_ret.
Qed.

Lemma safe_ram_reset flags :
  safe core_ok (on_machine (fun m => Ret (tt, (MemoryBus.register_ram_reset flags m.1, m.2)))).
Proof using Type.
  apply (safe_on_machine core_ok). intros [b d] [Hb Hd]. apply ensures_ret. split; [done|].
  split; [|done]. by apply BusSafety.wf_register_ram_reset.
Qed.

Lemma safe_run_service service : safe core_ok (run_service executed service).
Proof using He.
  pose proof safe_swi_unsupported as Hu.
  assert (Hw : forall mask old n p, fits 32 n ->
    safe core_ok (woken ← wait_for_interrupt_mask mask old;
                  if (woken : bool) then executed n p else swi_unsupported)).
  { intros mask old n p Hn. eapply safe_bind; [apply safe_wait|]. intros [|] _; [by apply He|exact Hu]. }
  unfold run_service. repeat (case_match; try exact Hu);
    try (apply safe_swi_if; first [apply safe_bg_affine_set|apply safe_obj_affine_set
      |apply safe_bit_unpack|apply safe_lz77_wram|apply safe_lz77_vram|apply safe_rl_wram|apply safe_rl_vram
      |apply safe_diff8_wram|apply safe_diff8_vram|apply safe_diff16]);
    try first [apply safe_halt|apply safe_div|apply safe_sqrt|apply safe_arc_tan|apply safe_arc_tan2
      |apply safe_swi_cpu_set].
  - by apply Hw.
  - do 2 (eapply safe_bind; [solve [auto with hle]|]; intros ? _). by apply Hw.
  - eapply safe_bind; [apply safe_write_dispcnt|]. intros _ _.
    eapply safe_bind; [auto with hle|]. intros flags _.
    eapply safe_bind; [apply safe_ram_reset|]. intros _ _. by apply He.
Qed.
End Services.

(** The emulated BIOS is only called when it is enabled. *)
Lemma safe_execute_swi call a c : core_ok c -> bios_hle_enabled (sched c) = true ->
  exists r c', execute_hle_swi call a c = Ret (r, c') /\ typed r /\ core_ok c'.
Proof.
  intros Hc Hb. unfold execute_hle_swi, SCH. rewrite bind_gets. unfold bios_hle_enabled in Hb.
  destruct (bios_ (sched c)) as [bios|]; [|done]. cbv zeta.
  destruct (negb _); [by apply safe_swi_unsupported|].
  by apply safe_run_service; [apply safe_swi_executed|].
Qed.

Lemma safe_arm_swi i a : safe core_ok (execute_hle_arm_swi i a).
Proof.
  intros c Hc. unfold execute_hle_arm_swi, SCH. rewrite bind_gets.
  destruct (bios_hle_enabled (sched c)) eqn:E; cbn [negb orb]; [|by exists None, c].
  destruct (negb _); [by exists None, c|]. destruct (negb _); [by exists None, c|].
  destruct (safe_execute_swi (decode_arm_swi i) a c Hc E) as (r & c' & Er & Hr & Hc').
  rewrite (bind_Ret _ _ _ _ _ Er). exists (Some r), c'. split; [done|]. split; [by apply typed_Some|done].
Qed.

Lemma safe_thumb_swi i a : safe core_ok (execute_hle_thumb_swi i a).
Proof.
  intros c Hc. unfold execute_hle_thumb_swi, SCH. rewrite bind_gets.
  destruct (bios_hle_enabled (sched c)) eqn:E; cbn [negb orb]; [|by exists None, c].
  destruct (negb _); [by exists None, c|].
  destruct (safe_execute_swi (decode_thumb_swi i) a c Hc E) as (r & c' & Er & Hr & Hc').
  rewrite (bind_Ret _ _ _ _ _ Er). exists (Some r), c'. split; [done|]. split; [by apply typed_Some|done].
Qed.
