(* ===== verification/SchedulerStep.v ===== *)
(** * The scheduler: one instruction

    [step_arm] and [step_thumb] of [src/core/core_scheduler.cpp]: the cycles
    before a data access, the instruction, the devices' time, the immediate
    DMA and the automatic interrupt.  The two functions differ in the
    instruction's width, its decoders and the processor's step; they are
    instances of [step_instruction]. *)

From S2P Require Import Prelude StateMonad Interrupts BusTypes WaitState.
From S2P Require Timers PpuTiming MemoryBus.
From S2P Require Import Apu Dma IoRegisters DmaTransfer Bios.
From S2P Require Import ArmTypes ArmDecode ThumbDecode ArmState ArmMemory ArmTiming.
From S2P Require Import SchedulerTiming SchedulerProbe SchedulerState SchedulerDevices.
From S2P Require Import SchedulerWait SchedulerIrq HleServices.

Abbreviation reg := HleServices.reg.
Abbreviation set_reg := HleServices.set_reg.

Definition executed_with_time (s : ArmStepResult) : bool :=
  bool_decide (sr_status s = ExecuteStatus.executed) && (0 <? sr_elapsed_cycles s).

Definition skipped_with_time (s : ArmStepResult) : bool :=
  bool_decide (sr_status s = ExecuteStatus.skipped_condition) && (0 <? sr_elapsed_cycles s).

(** The automatic interrupt after an instruction at [pc]: it is taken only when
    the instruction did not change the PC, which then points past it. *)
(* @ core_scheduler.cpp:1964-1985 CoreScheduler::step_arm *)
Definition take_auto_irq (pc width : Z) (defer from_data from_spaced : bool) : SCH bool :=
  r15 ← reg kPc;
  ready ← gets auto_irq_ready;
  let sequential_pc := r15 =? pc in
  let take := sequential_pc && ready && negb defer in
  when take (set_reg kPc (u32 (pc + width)));;
  irq_serviced ← (if take then service_pending_irq from_data from_spaced else mret false);
  when irq_serviced (set_sched reset_auto_irq_latency);;
  r15 ← reg kPc;
  when (negb irq_serviced && sequential_pc && (r15 =? u32 (pc + width))) (set_reg kPc pc);;
  mret irq_serviced.

(** An instruction without a data access. *)
(* @ core_scheduler.cpp:3127-3155 CoreScheduler::step_simple_arm_fast_path *)
Definition step_simple (step : CPU ArmStepResult) (pc width : Z) : SCH CoreSchedulerStepResult :=
  cpu_step ← on_cpu step;
  skipped ←
    (if skipped_with_time cpu_step then advance_devices (sr_elapsed_cycles cpu_step)
     else mret no_device_ticks);
  '(devices, irq_serviced) ←
    (if executed_with_time cpu_step then
       devices ← advance_devices (sr_elapsed_cycles cpu_step);
       irq_serviced ← take_auto_irq pc width false false false;
       mret (devices, irq_serviced)
     else mret (skipped, false));
  gets (step_of cpu_step devices irq_serviced).

(* @ core_scheduler.cpp:3127-3155 CoreScheduler::step_simple_arm_fast_path *)
Definition step_simple_arm_fast_path (instruction fetch_address : Z)
    : SCH CoreSchedulerStepResult :=
  step_simple (ArmTiming.step_arm instruction) fetch_address 4.

(** ** Before the data access *)

(** What the two functions compute about the access. *)
Record AccessPlan : Type := mkAccessPlan {
  ap_access : option DataAccessTimingProbe;
  ap_timer_io : bool;
  ap_gap_cycles : Z;
  ap_spaced : bool;
  ap_return_latency : bool;
  ap_pre_cycles : Z;
  ap_stall : Z
}.

(** The cycles before the access, without the slow timer's. *)
(* @ core_scheduler.cpp:1836-1856 CoreScheduler::step_arm *)
Definition io_pre_access_cycles (access : DataAccessTimingProbe) (gap : Z) (d : Devices)
    : Z * Z :=
  let probe := Some access in
  let cycles := io_store_pre_access_cycles access in
  let cycles :=
    if late_hblank_timer_load_samples_on_data_phase probe (ppu d) (interrupts d)
    then kTimerIoLoadDataPhaseCycles else cycles in
  let cycles :=
    default cycles
      (dispstat_hblank_clear_timer_load_pre_access_cycles probe (ppu d) (interrupts d)) in
  let cycles :=
    if long_hblank_poll_timer_load_samples_before_completion probe (ppu d) (interrupts d) gap
    then kDispstatIoLoadDataPhaseCycles else cycles in
  let cycles := adjust_dispstat_hblank_set_pre_access_cycles probe (ppu d) cycles in
  (cycles, dispstat_status_transition_stall_cycles probe (ppu d) (interrupts d) cycles).

(* @ core_scheduler.cpp:1824-1868 CoreScheduler::step_arm *)
Definition plan_access (access : option DataAccessTimingProbe) (c : Core) : exc AccessPlan :=
  let s := sched c in
  let d := devices_of c in
  let timer_io :=
    match access with Some p => timer_io_address (pr_address p) | None => false end in
  let gap := if timer_io then timer_io_access_gap_cycles_ s else 0 in
  let spaced := timer_io && (kSpacedTimerIoDispatchGapCycles <=? gap) in
  let return_latency := hle_irq_return_latency_pending_ s in
  let '(pre_cycles, stall) :=
    match access with Some p => io_pre_access_cycles p gap d | None => (0, 0) end in
  pre_cycles ←
    adjust_slow_timer_load_pre_access_cycles pre_cycles access timer_io spaced gap
      return_latency (hle_irq_post_return_chain_active_ s)
      (requested InterruptSource.timer0 (interrupts d)) (timers_ d);
  Ret (mkAccessPlan access timer_io gap spaced return_latency pre_cycles stall).

(* @ core_scheduler.cpp:1862-1868 CoreScheduler::step_arm *)
Definition trace_of (p : AccessPlan) : option CoreDataAccessTrace :=
  (fun a => mkCoreDataAccessTrace (pr_address a) (access_width_bytes (pr_width a)) (pr_load a)
              (ap_timer_io p) (ap_pre_cycles p) (ap_gap_cycles p)) <$> ap_access p.

(** An interrupt taken before a load of a timer register: the step ends. *)
(* @ core_scheduler.cpp:1896-1916 CoreScheduler::step_arm *)
Definition interrupt_load (plan : AccessPlan) (pre_step_pc : Z) (devices : CoreDeviceTickResult)
    (armed : bool) : SCH (option CoreSchedulerStepResult) :=
  d ← gets devices_of;
  replay ← lift (should_replay_slow_timer_load_after_irq (ap_access plan) (ap_timer_io plan)
                   (ap_spaced plan) armed (requested InterruptSource.timer0 (interrupts d))
                   (timers_ d));
  irq_pc_before ← reg kPc;
  when replay (set_reg kPc pre_step_pc);;
  serviced ← service_pending_irq true (ap_spaced plan);
  when (negb serviced && replay) (set_reg kPc irq_pc_before);;
  if negb serviced then mret None
  else
    set_sched (fun s =>
      reset_auto_irq_latency
        (s <| timer_io_access_gap_cycles_ := 0 |> <| hle_irq_return_latency_pending_ := false |>));;
    c ← gets (fun c => c);
    mret (Some ((step_of (hle_step ExecuteStatus.executed (ap_pre_cycles plan) c) devices true c)
                  <| data_access := trace_of plan |>)).

(** The cycles before the access: the devices' ticks, whether the interrupt of
    a slow timer waits for the access, and the step's early end. *)
(* @ core_scheduler.cpp:1871-1918 CoreScheduler::step_arm *)
Definition pre_access (plan : AccessPlan) (pre_step_pc : Z)
    : SCH (CoreDeviceTickResult * bool * option CoreSchedulerStepResult) :=
  if ap_pre_cycles plan =? 0 then mret (no_device_ticks, false, None)
  else
    devices ← advance_devices (ap_pre_cycles plan);
    c ← gets (fun c => c);
    let s := sched c in
    let d := devices_of c in
    divisor ← lift (Timers.prescaler_divisor 0 (timers_ d));
    let timer0_requested := requested InterruptSource.timer0 (interrupts d) in
    let slow_timer0 := timer0_requested && (1 <? divisor) in
    let armed := hle_irq_post_return_latency_armed_ s in
    let chained_post_return_timer_io_irq := armed && hle_irq_post_return_chain_active_ s in
    let armed_slow_timer0_post_return_timer_io_irq := armed && slow_timer0 in
    let slow_timer0_post_return_timer_io_irq := ap_return_latency plan && slow_timer0 in
    defer ← lift (should_defer_slow_timer_load_irq_until_after_access (ap_access plan)
                    (ap_timer_io plan) (ap_spaced plan) (ap_pre_cycles plan)
                    (ap_return_latency plan) (hle_irq_post_return_chain_active_ s)
                    timer0_requested (timers_ d));
    early ←
      (if is_load (ap_access plan) && ap_timer_io plan &&
          (chained_post_return_timer_io_irq || armed_slow_timer0_post_return_timer_io_irq ||
           slow_timer0_post_return_timer_io_irq) &&
          negb defer && auto_irq_ready c
       then interrupt_load plan pre_step_pc devices (armed || slow_timer0_post_return_timer_io_irq)
       else mret None);
    mret (devices, defer, early).

(** ** After the instruction *)

(** A store to a timer register ends the tracking of the previous return. *)
(* @ core_scheduler.cpp:1943-1949 CoreScheduler::step_arm *)
Definition timer_store (plan : AccessPlan) : SCH unit :=
  when (negb (ap_pre_cycles plan =? 0) && ap_timer_io plan && negb (is_load (ap_access plan)))
    (set_sched (fun s =>
       s <| hle_irq_return_latency_pending_ := false |>
         <| hle_irq_post_return_latency_armed_ := false |>
         <| hle_irq_post_return_chain_active_ := false |>);;
     on_devices (fun d => Ret (tt, d <| timers_ ::= Timers.defer_newly_enabled_ticks |>))).

(** A data access without prefetching restarts the fetch sequence. *)
(* @ core_scheduler.cpp:1986-1997 CoreScheduler::step_arm *)
Definition disturb_fetch (access : option DataAccessTimingProbe) (pre_step_pc : Z) : SCH unit :=
  waitcnt ← gets waitcnt_ptr;
  match access with
  | Some p =>
      when (negb (prefetching waitcnt))
        (let suppress := game_pak_data_access_disturbs_prefetch (pr_address p) pre_step_pc in
         let recover := non_word_game_pak_data_access (pr_address p) (pr_width p) && suppress in
         set_sched (fun s =>
           reset_fetch_timing_sequence s <| suppress_next_game_pak_prefetch_ := suppress |>
             <| recover_next_game_pak_data_fetch_ := recover |>))
  | None => mret tt
  end.

(** The time of an executed instruction; the result is the immediate DMA's and
    whether an interrupt was taken. *)
(* @ core_scheduler.cpp:1942-1998 CoreScheduler::step_arm *)
Definition spend_instruction (plan : AccessPlan) (pre_step_pc width : Z)
    (test_or_compare deferred : bool) (cpu_step : ArmStepResult)
    (devices : CoreDeviceTickResult) : SCH (CoreDeviceTickResult * DmaRunResult * bool) :=
  timer_store plan;;
  let remaining_cycles :=
    if ap_pre_cycles plan <? sr_elapsed_cycles cpu_step
    then sr_elapsed_cycles cpu_step - ap_pre_cycles plan else 0 in
  irq_ready_before_remaining_cycles ← gets auto_irq_ready;
  devices ←
    (if negb (remaining_cycles =? 0) then
       ticks ← advance_devices remaining_cycles; mret (merge_device_ticks devices ticks)
     else mret devices);
  dma_result ← run_immediate_dma;
  devices ←
    (if negb (bus_cycles dma_result =? 0) then
       ticks ← advance_devices (bus_cycles dma_result); mret (merge_device_ticks devices ticks)
     else mret devices);
  c ← gets (fun c => c);
  let s := sched c in
  let defer_chained_post_return_irq :=
    negb irq_ready_before_remaining_cycles && negb (bool_decide (is_Some (ap_access plan))) &&
    (sr_elapsed_cycles cpu_step =? 1) && negb test_or_compare &&
    hle_irq_post_return_latency_armed_ s && hle_irq_post_return_chain_active_ s &&
    auto_irq_ready c in
  irq_serviced ← take_auto_irq pre_step_pc width defer_chained_post_return_irq deferred
                   (deferred && ap_spaced plan);
  disturb_fetch (ap_access plan) pre_step_pc;;
  mret (devices, dma_result, irq_serviced).

(** The stall of a DISPSTAT load. *)
(* @ core_scheduler.cpp:1927-1931 CoreScheduler::step_arm *)
Definition stall_step (stall : Z) (cpu_step : ArmStepResult) : ArmStepResult :=
  if bool_decide (sr_status cpu_step = ExecuteStatus.executed) && negb (stall =? 0) then
    cpu_step <| sr_elapsed_cycles ::= fun e => u32 (e + stall) |>
             <| sr_total_elapsed_cycles ::= fun e => u64 (e + stall) |>
  else cpu_step.

(** The instruction and everything after it. *)
(* @ core_scheduler.cpp:1919-2007 CoreScheduler::step_arm *)
Definition run_instruction (plan : AccessPlan) (pre_step_pc width : Z)
    (test_or_compare deferred : bool) (devices : CoreDeviceTickResult)
    (execute : SCH ArmStepResult) : SCH CoreSchedulerStepResult :=
  cpu_step ← execute;
  let cpu_step := stall_step (ap_stall plan) cpu_step in
  devices ←
    (if skipped_with_time cpu_step then
       ticks ← advance_devices (sr_elapsed_cycles cpu_step); mret (merge_device_ticks devices ticks)
     else mret devices);
  '(devices, dma_result, irq_serviced) ←
    (if executed_with_time cpu_step
     then spend_instruction plan pre_step_pc width test_or_compare deferred cpu_step devices
     else mret (devices, no_dma, false));
  when (ap_timer_io plan) (set_sched (fun s => s <| timer_io_access_gap_cycles_ := 0 |>));;
  when (bool_decide (is_Some (ap_access plan)) &&
        (channels_executed (triggered_dma devices) =? 0))
    (on_machine (fun m => Ret (tt, (MemoryBus.clear_open_bus_latch m.1, m.2))));;
  c ← gets (fun c => c);
  mret ((step_of cpu_step devices irq_serviced c)
          <| immediate_dma := dma_result |> <| data_access := trace_of plan |>).

(** Queued work of the emulated BIOS goes first. *)
(* @ core_scheduler.cpp:1784-1786 CoreScheduler::step_arm *)
Definition or_hle_work (step : SCH CoreSchedulerStepResult) : SCH CoreSchedulerStepResult :=
  frames ← gets (fun c => hle_work_frames_ (sched c));
  work ← (if bool_decide (frames = []) then mret None else advance_hle_work);
  match work with Some work => mret work | None => step end.

(** Nothing depends on the exact cycle of the next instruction. *)
(* @ core_scheduler.cpp:1790-1793 CoreScheduler::step_arm *)
Definition quiet_state (c : Core) : bool :=
  let s := sched c in
  negb (immediate_pending (dma (devices_of c))) &&
  negb (hle_irq_timing_sensitive_state (hle_irq_return_latency_pending_ s)
          (hle_irq_post_return_latency_armed_ s) (hle_irq_post_return_chain_active_ s)).

(** The fast path is taken without wait states. *)
(* @ core_scheduler.cpp:1788-1793 CoreScheduler::step_arm *)
Definition simple_state (c : Core) : bool := negb (waitcnt_ (sched c)) && quiet_state c.

(** The body shared by the two functions. *)
(* @ core_scheduler.cpp:1824-2007 CoreScheduler::step_arm *)
Definition step_instruction (width : Z) (test_or_compare : bool)
    (probe : CPU (option DataAccessTimingProbe)) (hle_swi : Z -> SCH (option ArmStepResult))
    (execute : SCH ArmStepResult) (pre_step_pc : Z) : SCH CoreSchedulerStepResult :=
  access ← on_cpu probe;
  c ← gets (fun c => c);
  plan ← lift (plan_access access c);
  '(devices, deferred, early) ← pre_access plan pre_step_pc;
  match early with
  | Some step => mret step
  | None =>
      run_instruction plan pre_step_pc width test_or_compare deferred devices
        (hle_step ← hle_swi pre_step_pc;
         match hle_step with Some step => mret step | None => execute end)
  end.

(* @ core_scheduler.cpp:1781-2007 CoreScheduler::step_arm *)
Definition step_arm (instruction : Z) (elapsed_override : option ArmElapsedCycleEstimate)
    : SCH CoreSchedulerStepResult :=
  or_hle_work
    (pre_step_pc ← reg kPc;
     simple ← gets simple_state;
     if simple && negb (bool_decide (is_Some elapsed_override)) &&
        simple_arm_no_data_instruction instruction
     then step_simple (ArmTiming.step_arm instruction) pre_step_pc 4
     else
       waitcnt ← gets waitcnt_ptr;
       step_instruction 4 (arm_test_or_compare_instruction instruction)
         (first_arm_data_access_for_timing instruction) (execute_hle_arm_swi instruction)
         (on_sys (match waitcnt with
                  | Some waitcnt =>
                      step_arm_waitcnt io_callbacks instruction waitcnt elapsed_override
                  | None => step_arm_memory io_callbacks instruction
                  end))
         pre_step_pc).

(* @ core_scheduler.cpp:2009-2241 CoreScheduler::step_thumb *)
Definition step_thumb (instruction : Z) (prefetch_internal_load_overlap : bool)
    (elapsed_override : option ArmElapsedCycleEstimate) : SCH CoreSchedulerStepResult :=
  or_hle_work
    (pre_step_pc ← reg kPc;
     simple ← gets simple_state;
     if simple && negb prefetch_internal_load_overlap &&
        negb (bool_decide (is_Some elapsed_override)) &&
        simple_thumb_alu_without_pc_write instruction
     then step_simple (ArmTiming.step_thumb instruction) pre_step_pc 2
     else
       waitcnt ← gets waitcnt_ptr;
       step_instruction 2 (thumb_test_or_compare_instruction instruction)
         (first_thumb_data_access_for_timing instruction) (execute_hle_thumb_swi instruction)
         (on_sys (match waitcnt with
                  | Some waitcnt =>
                      step_thumb_waitcnt io_callbacks instruction waitcnt
                        prefetch_internal_load_overlap elapsed_override
                  | None => step_thumb_memory io_callbacks instruction
                  end))
         pre_step_pc).
