(* ===== verification/SchedulerStepSafety.v ===== *)
(** * The scheduler: safety of one instruction

    [step_arm] and [step_thumb] return on every instruction word and keep the
    invariant of the core, whatever the access, the wait states, the pending
    transfers and the interrupts. *)

From S2P Require Import Prelude StateMonad StateHash Interrupts BusTypes WaitState.
From S2P Require Timers PpuTiming MemoryBus TimersSpec PpuTimingSpec BusSafety.
From S2P Require Import Apu Dma IoRegisters DmaTransfer Bios.
From S2P Require Import ArmTypes ArmDecode ThumbDecode ArmState ArmExecute ArmMemory ArmTiming.
From S2P Require Import BusInterface ArmSafety ArmTotal ArmMemorySafety ArmStepSafety.
From S2P Require Import IoRegistersSpec DmaTransferSpec.
From S2P Require Import SchedulerTiming SchedulerProbe SchedulerState SchedulerDevices.
From S2P Require Import SchedulerDevicesSpec SchedulerSafety SchedulerProbeSafety SchedulerWait.
From S2P Require Import SchedulerWaitSafety SchedulerIrq SchedulerIrqSafety.
From S2P Require Import HleServices HleSafety SchedulerStep.

(** ** The processor's own steps *)

Lemma safe_cpu_step_arm i : safe wf (ArmTiming.step_arm i).
Proof.
  unfold ArmTiming.step_arm. eapply safe_bind; [apply safe_runtime_multiply|]. intros e He.
  eapply safe_bind; [apply safe_execute_arm|]. intros r _. by apply safe_finish_step.
Qed.

Lemma safe_cpu_step_thumb i : safe wf (ArmTiming.step_thumb i).
Proof.
  unfold ArmTiming.step_thumb. eapply safe_bind; [apply safe_runtime_thumb|]. intros e He.
  eapply safe_bind; [apply safe_execute_thumb|]. intros r _. by apply safe_finish_thumb.
Qed.

(** ** After an instruction *)

Lemma safe_set_pc v : fits 32 v -> safe core_ok (set_reg kPc v).
Proof. apply safe_hle_set_reg, pc_index. Qed.

Lemma safe_pc : safe core_ok (reg kPc).
Proof. apply safe_hle_reg, pc_index. Qed.

#[export] Hint Resolve safe_set_pc safe_pc safe_reset_latency safe_reset_fetch : hle.

Lemma safe_irq_if (b from_data from_spaced : bool) :
  safe core_ok (if b then SchedulerDevices.service_pending_irq from_data from_spaced else mret false).
Proof. apply safe_if; intros _; [apply safe_service|by apply safe_ret]. Qed.

Lemma safe_take_auto_irq pc width defer from_data from_spaced : fits 32 pc ->
  safe core_ok (take_auto_irq pc width defer from_data from_spaced).
Proof.
  intros Hpc. unfold take_auto_irq. eapply safe_bind; [apply safe_pc|]. intros r15 _.
  eapply safe_bind; [apply safe_ask_bool|]. intros ready _. cbv zeta.
  eapply safe_bind; [apply safe_when, safe_set_pc; wraps|]. intros _ _.
  eapply safe_bind; [apply safe_irq_if|]. intros irq _.
  eapply safe_bind; [apply safe_when, safe_reset_latency|]. intros _ _.
  eapply safe_bind; [apply safe_pc|]. intros r15' _.
  eapply safe_bind; [by apply safe_when, safe_set_pc|]. intros _ _. by apply safe_ret.
Qed.

Lemma safe_step_simple step pc width : safe wf step -> fits 32 pc ->
  safe core_ok (step_simple step pc width).
Proof.
  intros Hs Hpc. unfold step_simple. eapply safe_bind; [by apply safe_on_cpu|]. intros r Hr.
  eapply safe_bind; [by apply safe_advance_if|]. intros skipped Hk.
  eapply safe_bind.
  { apply safe_if; intros _; [|by apply safe_ret].
    eapply safe_bind; [by apply safe_advance|]. intros devices Hd.
    eapply safe_bind; [by apply safe_take_auto_irq|]. intros irq _. by apply safe_ret. }
  intros [devices irq] [Hd _]. by apply safe_step_of.
Qed.

(** ** Before the access *)

Definition plan_ok (p : AccessPlan) : Prop :=
  typed (ap_access p) /\ fits 32 (ap_pre_cycles p) /\ fits 32 (ap_stall p).

#[export] Instance typed_plan : Typed AccessPlan := plan_ok.

Lemma line_cycle_bound d : devices_wf d -> 0 <= PpuTiming.line_cycle (ppu d) < PpuTiming.kCyclesPerLine.
Proof. intros Hd. apply (dv_ppu _ Hd). Qed.

Lemma pre_access_fits p gap d : devices_wf d ->
  fits 32 (io_pre_access_cycles p gap d).1 /\ fits 32 (io_pre_access_cycles p gap d).2.
Proof.
  intros Hd. pose proof (line_cycle_bound d Hd) as Hl. unfold io_pre_access_cycles. cbv zeta. cbn [fst snd].
  assert (H1 : fits 32 (io_store_pre_access_cycles p)).
  { unfold io_store_pre_access_cycles. repeat case_match; by vm_compute. }
  set (n1 := if late_hblank_timer_load_samples_on_data_phase _ _ _ then _ else _).
  assert (H2 : fits 32 n1) by (subst n1; case_match; [by vm_compute|done]).
  set (n2 := default n1 _). assert (H3 : fits 32 n2).
  { subst n2. unfold dispstat_hblank_clear_timer_load_pre_access_cycles. case_match; [done|]. cbv zeta.
    unfold kDispstatHblankClearTimerSampleCycle. destruct (Z.leb_spec 14 (PpuTiming.line_cycle (ppu d))); [done|].
    change (fits 32 (14 - PpuTiming.line_cycle (ppu d))). unfold fits. lia. }
  set (n3 := if long_hblank_poll_timer_load_samples_before_completion _ _ _ _ then _ else _).
  assert (H4 : fits 32 n3) by (subst n3; case_match; [by vm_compute|done]).
  split.
  - unfold adjust_dispstat_hblank_set_pre_access_cycles. cbv zeta. repeat case_match; done.
  - unfold dispstat_status_transition_stall_cycles. cbv zeta. repeat case_match; by vm_compute.
Qed.

Lemma plan_typed access c : core_ok c -> typed access -> ensures typed (plan_access access c).
Proof.
  intros Hc Ha. unfold plan_access. cbv zeta.
  set (gap := if match access with Some p => timer_io_address (pr_address p) | None => false end
              then timer_io_access_gap_cycles_ (sched c) else 0).
  set (p := match access with Some p => io_pre_access_cycles p gap (devices_of c) | None => (0, 0) end).
  assert (Hp : fits 32 p.1 /\ fits 32 p.2).
  { subst p. destruct access; [apply pre_access_fits, (inv_devices core_ok), Hc|by vm_compute]. }
  destruct p as [pre stall]. destruct Hp as [H1 H2]. cbn [fst snd] in H1, H2.
  eapply ensures_bind; [by apply adjusted_fits; [apply (inv_devices core_ok)|]|].
  intros n Hn. apply ensures_ret. by split_and!.
Qed.

Lemma safe_interrupt_load plan pc devices armed : typed plan -> fits 32 pc -> typed devices ->
  safe core_ok (interrupt_load plan pc devices armed).
Proof.
  intros (Ha & Hp & Hs) Hpc Hd. unfold interrupt_load.
  eapply safe_bind; [apply safe_ask_devices|]. intros d Hdv.
  eapply total_seq; [by apply total_lift_ret, replay_ret|]. intros replay _.
  eapply safe_bind; [apply safe_pc|]. intros before Hb.
  eapply safe_bind; [by apply safe_when, safe_set_pc|]. intros _ _.
  eapply safe_bind; [apply safe_service|]. intros serviced _.
  eapply safe_bind; [by apply safe_when, safe_set_pc|]. intros _ _.
  apply safe_if; intros _; [by apply safe_ret; intros ? ?|].
  eapply safe_bind.
  { apply safe_set_sched. intros s Hw. apply reset_latency_wf. revert Hw. sched_fields. }
  intros _ _. eapply safe_bind; [apply safe_ask_core|]. intros c Hc. apply safe_ret, typed_Some.
  by apply (step_of_typed _ devices true c).
Qed.

Lemma safe_pre_access plan pc : typed plan -> fits 32 pc ->
  safe core_ok (pre_access plan pc).
Proof.
  intros Hp Hpc. unfold pre_access.
  apply safe_if; intros _; [by apply safe_ret; split; [split|intros ? ?]|].
  eapply safe_bind; [apply safe_advance, Hp|]. intros devices Hd.
  eapply safe_bind; [apply safe_ask_core|]. intros c Hc. cbv zeta.
  pose proof (inv_devices core_ok c Hc) as Hdv.
  eapply total_seq; [by apply total_lift_ret, divisor_ret|]. intros divisor _.
  eapply total_seq; [by apply total_lift_ret, defer_ret|]. intros defer _.
  eapply safe_bind.
  { apply safe_if; intros _; [by apply safe_interrupt_load|by apply safe_ret; intros ? ?]. }
  intros early He. by apply safe_ret.
Qed.

(** ** The instruction *)

Lemma defer_ticks_safe ts : timers_safe ts -> timers_safe (Timers.defer_newly_enabled_ticks ts).
Proof.
  intros [Hl H]. split; [unfold TimersSpec.has_four; cbn; by rewrite length_map|].
  intros i t. cbn. rewrite list_lookup_fmap. destruct (Timers.timers ts !! i) as [t0|] eqn:E; [|done].
  cbn. intros [= <-]. destruct (H i t0 E). by case_match.
Qed.

Lemma safe_timer_store plan : safe core_ok (timer_store plan).
Proof.
  unfold timer_store. apply safe_when. eapply safe_bind; [apply safe_set_sched; intros s; sched_fields|].
  intros _ _. apply (safe_on_devices core_ok). intros d Hd. apply ensures_ret. split; [done|].
  apply wf_timers; [done|]. apply defer_ticks_safe, Hd.
Qed.

Lemma disturb_wf a b s : scheduler_wf s ->
  scheduler_wf (reset_fetch_timing_sequence s <| suppress_next_game_pak_prefetch_ := a |>
                  <| recover_next_game_pak_data_fetch_ := b |>).
Proof. intros Hs%reset_fetch_wf. revert Hs. sched_fields. Qed.

Lemma safe_disturb access pc : safe core_ok (disturb_fetch access pc).
Proof.
  unfold disturb_fetch. apply (total_ask (fun _ => True)); [done|]. intros w _.
  destruct access as [p|]; [|by apply safe_ret]. apply safe_when. cbv zeta.
  apply safe_set_sched. intros s. apply disturb_wf.
Qed.

(** More device time, merged into what there is. *)
Lemma safe_more_time (b : bool) n devices : fits 32 n -> typed devices ->
  safe core_ok (if b then ticks ← advance_devices n; mret (merge_device_ticks devices ticks)
                else mret devices).
Proof.
  intros Hn Hd. apply safe_if; intros _; [|by apply safe_ret].
  eapply safe_bind; [by apply safe_advance|]. intros t _. apply safe_ret, merge_typed.
Qed.

Lemma remaining_fits a b : fits 32 a -> fits 32 b -> fits 32 (if a <? b then b - a else 0).
Proof. intros Ha Hb. destruct (Z.ltb_spec a b); unfold fits in *; lia. Qed.

Lemma safe_spend_instruction plan pc width test deferred r devices :
  typed plan -> fits 32 pc -> typed r -> typed devices ->
  safe core_ok (spend_instruction plan pc width test deferred r devices).
Proof.
  intros (Ha & Hp & Hs) Hpc Hr Hd. unfold spend_instruction.
  eapply safe_bind; [apply safe_timer_store|]. intros _ _. cbv zeta.
  eapply safe_bind; [apply safe_ask_bool|]. intros ready _.
  eapply safe_bind; [apply safe_more_time; [by apply remaining_fits|done]|]. intros d1 H1.
  eapply safe_bind; [apply (safe_run_immediate core_ok)|]. intros dma Hdma.
  eapply safe_bind; [by apply safe_more_time; [apply Hdma|]|]. intros d2 H2.
  eapply safe_bind; [apply safe_ask_core|]. intros c Hc.
  eapply safe_bind; [by apply safe_take_auto_irq|]. intros irq _.
  eapply safe_bind; [apply safe_disturb|]. intros _ _. by apply safe_ret.
Qed.

Lemma stall_typed n r : typed r -> typed (stall_step n r).
Proof.
  intros Hr. unfold stall_step. case_match; [|done]. unfold typed, typed_step_result. cbn. wraps.
Qed.

Lemma safe_clear_latch :
  safe core_ok (on_machine (fun m => Ret (tt, (MemoryBus.clear_open_bus_latch m.1, m.2)))).
Proof.
  apply (safe_on_machine core_ok). intros [b d] [Hb Hd]. apply ensures_ret. split; [done|].
  split; [by apply BusSafety.wf_clear_latch|done].
Qed.

Lemma safe_run_instruction plan pc width test deferred devices execute :
  typed plan -> fits 32 pc -> typed devices -> safe core_ok execute ->
  safe core_ok (run_instruction plan pc width test deferred devices execute).
Proof.
  intros Hp Hpc Hd He. unfold run_instruction. eapply safe_bind; [exact He|]. intros r0 Hr0. cbv zeta.
  pose proof (stall_typed (ap_stall plan) r0 Hr0) as Hr. set (r := stall_step _ _) in *. clearbody r.
  eapply safe_bind; [by apply safe_more_time|]. intros d1 H1.
  eapply safe_bind.
  { apply safe_if; intros _; [by apply safe_spend_instruction|].
    apply safe_ret. split; [split; [done|apply no_dma_typed]|done]. }
  intros [[d2 dma] irq] [[H2 Hdma] _]. cbn [fst snd] in *.
  eapply safe_bind; [apply safe_when, safe_set_sched; intros s; sched_fields|]. intros _ _.
  eapply safe_bind; [apply safe_when, safe_clear_latch|]. intros _ _.
  eapply safe_bind; [apply safe_ask_core|]. intros c [_ Hs]. apply safe_ret.
  split; [exact Hr|]. split; [exact H2|]. split; [exact Hdma|apply Hs].
Qed.

(** ** The two functions *)

Lemma safe_or_hle_work step : safe core_ok step -> safe core_ok (or_hle_work step).
Proof.
  intros Hs. unfold or_hle_work. apply (total_ask (fun _ => True)); [done|]. intros frames _.
  eapply safe_bind.
  { apply safe_if; intros _; [by apply safe_ret; intros ? ?|apply safe_advance_work]. }
  intros [w|] Hw; [by apply safe_ret, Hw|done].
Qed.

Lemma safe_step_instruction width test probe swi execute pc :
  safe wf probe -> (forall a, safe core_ok (swi a)) -> safe core_ok execute -> fits 32 pc ->
  safe core_ok (step_instruction width test probe swi execute pc).
Proof.
  intros Hp Hw He Hpc. unfold step_instruction. eapply safe_bind; [by apply safe_on_cpu|]. intros a Ha.
  eapply safe_bind; [apply safe_ask_core|]. intros c Hc.
  eapply safe_bind; [by apply safe_ensures, plan_typed|]. intros plan Hplan.
  eapply safe_bind; [by apply safe_pre_access|]. intros [[d deferred] early] [[Hd _] Hearly].
  cbn [fst snd] in *. destruct early as [s|]; [by apply safe_ret, Hearly|].
  apply safe_run_instruction; try done. eapply safe_bind; [apply Hw|].
  intros [r|] Hr; [by apply safe_ret, Hr|exact He].
Qed.

Lemma safe_step_arm i e : typed e -> safe core_ok (SchedulerStep.step_arm i e).
Proof.
  intros He. unfold SchedulerStep.step_arm. apply safe_or_hle_work.
  eapply safe_bind; [apply safe_pc|]. intros pc Hpc.
  eapply safe_bind; [apply safe_ask_bool|]. intros simple _.
  apply safe_if; intros _; [apply safe_step_simple; [apply safe_cpu_step_arm|done]|].
  apply (total_ask (fun _ => True)); [done|]. intros w _.
  apply safe_step_instruction; [apply safe_first_arm_access|intros a; apply safe_arm_swi| |done].
  apply safe_on_sys. destruct w.
  - exact (safe_step_arm_waitcnt io_callbacks machine_ok _ _ _ He).
  - exact (safe_step_arm_memory io_callbacks machine_ok _).
Qed.

Lemma safe_step_thumb i overlap e : typed e -> safe core_ok (SchedulerStep.step_thumb i overlap e).
Proof.
  intros He. unfold SchedulerStep.step_thumb. apply safe_or_hle_work.
  eapply safe_bind; [apply safe_pc|]. intros pc Hpc.
  eapply safe_bind; [apply safe_ask_bool|]. intros simple _.
  apply safe_if; intros _; [apply safe_step_simple; [apply safe_cpu_step_thumb|done]|].
  apply (total_ask (fun _ => True)); [done|]. intros w _.
  apply safe_step_instruction; [apply safe_first_thumb_access|intros a; apply safe_thumb_swi| |done].
  apply safe_on_sys. destruct w.
  - exact (safe_step_thumb_waitcnt io_callbacks machine_ok _ _ _ _ He).
  - exact (safe_step_thumb_memory io_callbacks machine_ok _).
Qed.
