(* ===== verification/SchedulerFetch.v ===== *)
(** * The scheduler: fetching and running

    [apply_fetch_timing], [refill_prefetch_after_step], the fetch-and-execute
    steps [step_arm_from_pc] and [step_from_pc] and the run loop of
    [src/core/core_scheduler.cpp]. *)

From S2P Require Import Prelude StateMonad Interrupts BusTypes WaitState.
From S2P Require Timers PpuTiming MemoryBus.
From S2P Require Import Apu Dma IoRegisters DmaTransfer Bios.
From S2P Require Import ArmTypes ArmDecode ThumbDecode ArmState ArmMemory ArmTiming.
From S2P Require Import SchedulerTiming SchedulerProbe SchedulerState SchedulerDevices.
From S2P Require Import SchedulerWait SchedulerIrq HleServices SchedulerStep.

(** ** The time of a fetch *)

(** The outputs of [apply_fetch_timing]. *)
Record FetchTiming : Type := mkFetchTiming {
  ft_cycles : Z;
  ft_applied : bool;
  ft_sequential : bool;
  ft_prefetch_enabled : bool;
  ft_prefetch_hit : bool;
  ft_boundary : bool
}.

Definition no_fetch_timing : FetchTiming := mkFetchTiming 0 false false false false false.

(** [static_cast<std::uint8_t>(cartridge.window)]. *)
(* @ memory_bus.hpp:34-40 CartridgeWindow *)
Definition window_index (w : CartridgeWindow.t) : Z :=
  match w with
  | CartridgeWindow.none => 0
  | CartridgeWindow.rom_wait0 => 1
  | CartridgeWindow.rom_wait1 => 2
  | CartridgeWindow.rom_wait2 => 3
  | CartridgeWindow.save => 4
  end.

Definition fetch_width (width_bytes : Z) : AccessWidth.t :=
  if width_bytes =? 4 then AccessWidth.word else AccessWidth.halfword.

(** The fetch follows the last one, in the same window. *)
(* @ core_scheduler.cpp:2291-2297 CoreScheduler::apply_fetch_timing *)
Definition follows_last_fetch (fetch_address window : Z) (s : CoreScheduler) : bool :=
  match last_fetch_address_ s, last_fetch_width_bytes_ s, last_fetch_window_ s with
  | Some address, Some width, Some last_window =>
      (fetch_address =? u32 (address + width)) && (window =? last_window)
  | _, _, _ => false
  end.

(** The cycles of a fetch that misses the prefetch buffer. *)
(* @ core_scheduler.cpp:2314-2323 CoreScheduler::apply_fetch_timing *)
Definition rom_miss_cycles (timing : MemoryAccessTiming) (width_bytes : Z)
    (is_sequential prefetch_enabled recover : bool) : Z :=
  let cycles := if is_sequential then sequential timing else nonsequential timing in
  let cycles := if width_bytes =? 4 then u32 (cycles + sequential timing) else cycles in
  let cycles :=
    if negb prefetch_enabled && (width_bytes =? 4) then u32 (cycles + 1) else cycles in
  if recover && (sequential timing =? 1) then u32 (cycles + 1) else cycles.

(** The cycles of a fetch the buffer holds. *)
(* @ core_scheduler.cpp:2327-2330 CoreScheduler::apply_fetch_timing *)
Definition rom_hit_cycles (timing : MemoryAccessTiming) (width_bytes required_halfwords : Z) : Z :=
  if width_bytes =? 4 then u32 (sequential timing * required_halfwords)
  else if 0 <? sequential timing then sequential timing - 1 else 0.

(** The buffer after a hit: a halfword fetch refills it during its cycles. *)
(* @ core_scheduler.cpp:2332-2339 CoreScheduler::apply_fetch_timing *)
Definition buffer_after_hit (buffered required_halfwords width_bytes cycles : Z) : Z :=
  let buffered := u8 (buffered - required_halfwords) in
  if (width_bytes =? 2) && negb (cycles =? 0)
  then u8 (Z.min kPrefetchBufferCapacityHalfwords (u32 (buffered + cycles)))
  else buffered.

(** A fetch from the cartridge: its timing, and the buffer after it. *)
(* @ core_scheduler.cpp:2291-2340 CoreScheduler::apply_fetch_timing *)
Definition rom_fetch (fetch_address width_bytes : Z) (waitcnt : WaitStateControl)
    (s : CoreScheduler) : FetchTiming * CoreScheduler :=
  let window := window_index (ca_window (describe_cartridge fetch_address)) in
  let follows := follows_last_fetch fetch_address window s in
  let boundary := follows && (fetch_address mod kGamePakSequentialBoundary =? 0) in
  let is_sequential := follows && negb boundary in
  let timing := timing_waitcnt fetch_address (fetch_width width_bytes) waitcnt in
  let suppressed := suppress_next_game_pak_prefetch_ s in
  let prefetch := prefetch_enabled waitcnt && negb suppressed in
  let s :=
    if suppressed
    then s <| prefetch_buffer_halfwords_ := 0 |> <| suppress_next_game_pak_prefetch_ := false |>
    else s in
  let required_halfwords := u8 (width_bytes / 2) in
  let miss :=
    rom_miss_cycles timing width_bytes is_sequential prefetch (recover_next_game_pak_data_fetch_ s) in
  let s := s <| recover_next_game_pak_data_fetch_ := false |> in
  if prefetch && is_sequential && (required_halfwords <=? prefetch_buffer_halfwords_ s) then
    let cycles := rom_hit_cycles timing width_bytes required_halfwords in
    (mkFetchTiming cycles (negb (cycles =? 0)) is_sequential prefetch true boundary,
     s <| prefetch_buffer_halfwords_ ::= fun b =>
            buffer_after_hit b required_halfwords width_bytes cycles |>)
  else (mkFetchTiming miss (negb (miss =? 0)) is_sequential prefetch false boundary, s).

(* @ core_scheduler.cpp:2346-2348 CoreScheduler::apply_fetch_timing *)
Definition record_fetch (fetch_address width_bytes : Z) (s : CoreScheduler) : CoreScheduler :=
  s <| last_fetch_address_ := Some fetch_address |>
    <| last_fetch_width_bytes_ := Some width_bytes |>
    <| last_fetch_window_ :=
         Some (window_index (ca_window (describe_cartridge fetch_address))) |>.

(** [!last_waitcnt_control_.has_value() || last_waitcnt_control_.value() != control]. *)
Definition waitcnt_changed (control : Z) (s : CoreScheduler) : bool :=
  match last_waitcnt_control_ s with Some last => negb (last =? control) | None => true end.

Definition spend_fetch (cycles : Z) : SCH unit :=
  when (negb (cycles =? 0)) (_ ← advance_devices cycles; mret tt).

(* @ core_scheduler.cpp:2243-2350 CoreScheduler::apply_fetch_timing *)
Definition apply_fetch_timing (fetch_address width_bytes : Z) : SCH FetchTiming :=
  waitcnt ← gets waitcnt_ptr;
  match waitcnt with
  | None =>
      set_sched (fun s => reset_fetch_timing_sequence s <| last_waitcnt_control_ := None |>);;
      mret no_fetch_timing
  | Some waitcnt =>
      let waitcnt_control := read_control waitcnt in
      set_sched (fun s =>
        if waitcnt_changed waitcnt_control s
        then reset_fetch_timing_sequence s <| last_waitcnt_control_ := Some waitcnt_control |>
        else s);;
      if in_region Region.ewram fetch_address then
        set_sched reset_fetch_timing_sequence;;
        let timing := timing_waitcnt fetch_address (fetch_width width_bytes) waitcnt in
        let cycles := if 0 <? nonsequential timing then nonsequential timing - 1 else 0 in
        spend_fetch cycles;;
        mret (mkFetchTiming cycles (negb (cycles =? 0)) false false false false)
      else if negb (in_region Region.game_pak_rom fetch_address) then
        set_sched reset_fetch_timing_sequence;;
        mret no_fetch_timing
      else
        s ← gets sched;
        let '(fetch, s) := rom_fetch fetch_address width_bytes waitcnt s in
        set_sched (fun _ => s);;
        spend_fetch (ft_cycles fetch);;
        set_sched (record_fetch fetch_address width_bytes);;
        mret fetch
  end.

(** ** Refilling the prefetch buffer *)

(** The access of the trace disturbs the prefetching. *)
(* @ core_scheduler.cpp:2378-2385 CoreScheduler::refill_prefetch_after_step *)
Definition disturbing_access (fetch_address : Z) (step : CoreSchedulerStepResult)
    : option CoreDataAccessTrace :=
  match data_access step with
  | Some a => if game_pak_data_access_disturbs_prefetch (tr_address a) fetch_address
              then Some a else None
  | None => None
  end.

(* @ core_scheduler.cpp:2379-2383 CoreScheduler::refill_prefetch_after_step *)
Definition trace_width (a : CoreDataAccessTrace) : AccessWidth.t :=
  if tr_width_bytes a =? 1 then AccessWidth.byte
  else if tr_width_bytes a =? 2 then AccessWidth.halfword else AccessWidth.word.

(* @ core_scheduler.cpp:2353-2414 CoreScheduler::refill_prefetch_after_step *)
Definition refill_prefetch (fetch_address width_bytes : Z) (step : CoreSchedulerStepResult)
    (extra_refill_cycles : Z) (waitcnt : WaitStateControl) (s : CoreScheduler) : CoreScheduler :=
  let waitcnt_control := read_control waitcnt in
  let s :=
    if waitcnt_changed waitcnt_control s
    then s <| prefetch_buffer_halfwords_ := 0 |> <| last_waitcnt_control_ := Some waitcnt_control |>
    else s in
  let elapsed := sr_elapsed_cycles (cpu_step step) in
  if negb (prefetch_enabled waitcnt) || negb (step_executed step) || (elapsed <=? 1) then s
  else if negb (in_region Region.game_pak_rom fetch_address)
  then s <| prefetch_buffer_halfwords_ := 0 |>
  else
    match disturbing_access fetch_address step with
    | Some a =>
        reset_fetch_timing_sequence s <| suppress_next_game_pak_prefetch_ := true |>
          <| recover_next_game_pak_data_fetch_ :=
               non_word_game_pak_data_access (tr_address a) (trace_width a) |>
    | None =>
        let next_fetch_address := u32 (fetch_address + width_bytes) in
        if next_fetch_address mod kGamePakSequentialBoundary =? 0
        then s <| prefetch_buffer_halfwords_ := 0 |>
        else
          let timing := timing_waitcnt next_fetch_address AccessWidth.halfword waitcnt in
          if sequential timing =? 0 then s
          else
            let spare_cycles := u32 (elapsed - 1 + extra_refill_cycles) in
            let refill_halfwords := spare_cycles / sequential timing in
            s <| prefetch_buffer_halfwords_ ::= fun b =>
                   u8 (Z.min kPrefetchBufferCapacityHalfwords (u32 (b + refill_halfwords))) |>
    end.

(* @ core_scheduler.cpp:2353-2414 CoreScheduler::refill_prefetch_after_step *)
Definition refill_prefetch_after_step (fetch_address width_bytes : Z)
    (step : CoreSchedulerStepResult) (extra_refill_cycles : Z) : SCH unit :=
  waitcnt ← gets waitcnt_ptr;
  match waitcnt with
  | None => mret tt
  | Some waitcnt =>
      set_sched (refill_prefetch fetch_address width_bytes step extra_refill_cycles waitcnt)
  end.

(** ** Charging extra cycles *)

(** [advance_devices(cycles)], merged into the step's result. *)
(* @ core_scheduler.cpp:3240-3244 CoreScheduler::step_arm_from_pc *)
Definition charge (cycles : Z) (step : CoreSchedulerStepResult) : SCH CoreSchedulerStepResult :=
  ticks ← advance_devices cycles;
  now ← gets (fun c => scheduler_cycles_ (sched c));
  mret (step <| step_devices ::= fun d => merge_device_ticks d ticks |>
             <| cpu_step ::= fun r =>
                  r <| sr_elapsed_cycles ::= fun e => u32 (e + cycles) |>
                    <| sr_total_elapsed_cycles ::= fun e => u64 (e + cycles) |> |>
             <| step_scheduler_cycles := now |>).

Definition charge_if (b : bool) (cycles : Z) (step : CoreSchedulerStepResult)
    : SCH CoreSchedulerStepResult :=
  if b then charge cycles step else mret step.

(** The pipeline's refill after a jump. *)
Definition charge_refill (refill_cycles : Z) (step : CoreSchedulerStepResult)
    : SCH CoreSchedulerStepResult :=
  refill_devices ← advance_devices refill_cycles;
  mret (charge_pipeline_refill step refill_devices refill_cycles).

(** ** The parts the two fetch steps share *)

(** A result without a timed fetch. *)
Definition untimed (set : CoreInstructionSet.t) (width fetch_address : Z) (instruction : option Z)
    (step : option CoreSchedulerStepResult) (failed advanced : bool)
    : CoreSchedulerFetchStepResult :=
  mkCoreSchedulerFetchStepResult set width fetch_address instruction step 0 failed advanced
    false false false false 0 false.

Definition timed (set : CoreInstructionSet.t) (width fetch_address instruction : Z)
    (step : CoreSchedulerStepResult) (advanced : bool) (fetch : FetchTiming)
    : SCH CoreSchedulerFetchStepResult :=
  buffered ← gets (fun c => prefetch_buffer_halfwords_ (sched c));
  mret (mkCoreSchedulerFetchStepResult set width fetch_address (Some instruction) (Some step)
          (ft_cycles fetch) false advanced (ft_applied fetch) (ft_sequential fetch)
          (ft_prefetch_enabled fetch) (ft_prefetch_hit fetch) buffered (ft_boundary fetch)).

(** [step.cpu_step.status != unsupported && pc == fetch_address]. *)
(* @ core_scheduler.cpp:3202-3204 CoreScheduler::step_arm_from_pc *)
Definition pc_unchanged (step : CoreSchedulerStepResult) (fetch_address : Z) : SCH bool :=
  pc ← reg kPc;
  mret (negb (bool_decide (sr_status (cpu_step step) = ExecuteStatus.unsupported)) &&
        (pc =? fetch_address)).

(** The exception return of the emulated BIOS and its unreachable sentinel. *)
(* @ core_scheduler.cpp:3161-3177 CoreScheduler::step_arm_from_pc *)
Definition irq_return_step (set : CoreInstructionSet.t) (width fetch_address : Z)
    : SCH (option CoreSchedulerFetchStepResult) :=
  hle_irq_return ← dispatch_hle_irq_return fetch_address;
  match hle_irq_return with
  | Some step =>
      set_sched reset_fetch_timing_sequence;;
      mret (Some (untimed set width fetch_address None (Some step) false false))
  | None =>
      if fetch_address =? kIrqReturnSentinelPc then
        set_sched reset_fetch_timing_sequence;;
        step ← gets (fun c =>
          step_of (hle_step ExecuteStatus.unsupported 1 c) no_device_ticks false c);
        mret (Some (untimed set width fetch_address (Some 0xFFFFFFFF) (Some step) false false))
      else mret None
  end.

(** The fast path: no timed fetch, no data access. *)
(* @ core_scheduler.cpp:3200-3210 CoreScheduler::step_arm_from_pc *)
Definition untimed_simple_step (set : CoreInstructionSet.t) (width : Z)
    (step : CPU ArmStepResult) (fetch_address instruction : Z)
    : SCH CoreSchedulerFetchStepResult :=
  step ← step_simple step fetch_address width;
  should_advance_pc ← pc_unchanged step fetch_address;
  when should_advance_pc (set_reg kPc (u32 (fetch_address + width)));;
  mret (untimed set width fetch_address (Some instruction) (Some step) false should_advance_pc).

(** An interrupt after a jump. *)
(* @ core_scheduler.cpp:3311-3316 CoreScheduler::step_arm_from_pc *)
Definition pc_change_irq (pc_changed : bool) (step : CoreSchedulerStepResult)
    : SCH (bool * CoreSchedulerStepResult) :=
  ready ← gets auto_irq_ready;
  serviced ← (if pc_changed && ready then service_pending_irq false false else mret false);
  when serviced (set_sched reset_auto_irq_latency);;
  mret (serviced, if (serviced : bool) then step <| irq_serviced := true |> else step).

(** The PC and the prefetch buffer after a step. *)
(* @ core_scheduler.cpp:3317-3325 CoreScheduler::step_arm_from_pc *)
Definition settle_fetch (should_advance_pc serviced seed : bool) (fetch_address width : Z)
    (step : CoreSchedulerStepResult) (extra_refill_cycles : Z) : SCH unit :=
  if should_advance_pc then
    set_reg kPc (u32 (fetch_address + width));;
    refill_prefetch_after_step fetch_address width step extra_refill_cycles
  else
    set_sched reset_fetch_timing_sequence;;
    when (negb serviced && seed) (set_sched (fun s => s <| prefetch_buffer_halfwords_ := 1 |>)).

(** ** ARM *)

Definition read32_at (address : Z) : SCH (option Z) := gets (SchedulerIrq.read32 address).
Definition read16_at (address : Z) : SCH (option Z) := gets (HleServices.read16 address).

(** What a jump adds to a step. *)
Record Refill : Type := mkRefill {
  rf_step : CoreSchedulerStepResult;
  rf_pc_changed : bool;
  rf_seed : bool
}.

(* @ core_scheduler.cpp:3272-3291 CoreScheduler::step_arm_from_pc *)
Definition arm_refill (instruction fetch_address : Z) (should_advance_pc : bool)
    (step : CoreSchedulerStepResult) : SCH Refill :=
  if negb should_advance_pc && step_executed step && arm_instruction_refills_pipeline instruction
  then
    branch_target ← reg kPc;
    waitcnt ← gets waitcnt_ptr;
    let branch_exchange := can_decode_branch_exchange instruction in
    let refill_cycles :=
      if branch_exchange then arm_branch_exchange_refill_cycles fetch_address branch_target waitcnt
      else arm_branch_refill_cycles branch_target waitcnt in
    step ← charge_refill refill_cycles step;
    mret (mkRefill step true
            (branch_exchange && branch_exchange_seeds_fast_prefetch fetch_address branch_target waitcnt))
  else mret (mkRefill step false false).

(** A jump not taken, prefetched from the cartridge. *)
(* @ core_scheduler.cpp:3292-3294 CoreScheduler::step_arm_from_pc *)
Definition skipped_branch_bubble (instruction fetch_address : Z) (fetch : FetchTiming)
    (step : CoreSchedulerStepResult) : bool :=
  bool_decide (sr_status (cpu_step step) = ExecuteStatus.skipped_condition) &&
  can_decode_branch instruction && ft_prefetch_enabled fetch &&
  in_region Region.game_pak_rom fetch_address.

(* @ core_scheduler.cpp:3301-3305 CoreScheduler::step_arm_from_pc *)
Definition execute_bubble (fetch_address width : Z) (should_advance_pc : bool)
    (fetch : FetchTiming) (step : CoreSchedulerStepResult) (c : Core) : bool :=
  should_charge_prefetch_execute_bubble fetch_address (waitcnt_ptr c) step should_advance_pc
    (ft_prefetch_hit fetch) width (prefetch_buffer_halfwords_ (sched c)).

(** A data-processing instruction with an immediate, after a timed fetch. *)
(* @ core_scheduler.cpp:3232-3257 CoreScheduler::step_arm_from_pc *)
Definition timed_simple_step (fetch_address instruction : Z) (fetch : FetchTiming)
    : SCH CoreSchedulerFetchStepResult :=
  step ← step_simple_arm_fast_path instruction fetch_address;
  should_advance_pc ← pc_unchanged step fetch_address;
  bubble ← gets (execute_bubble fetch_address 4 should_advance_pc fetch step);
  step ← charge_if bubble 1 step;
  settle_fetch should_advance_pc false false fetch_address 4 step 0;;
  timed CoreInstructionSet.arm 4 fetch_address instruction step should_advance_pc fetch.

(* @ core_scheduler.cpp:3259-3331 CoreScheduler::step_arm_from_pc *)
Definition timed_arm_step (fetch_address instruction : Z) (fetch : FetchTiming)
    (elapsed_override : option ArmElapsedCycleEstimate) : SCH CoreSchedulerFetchStepResult :=
  step ← step_arm instruction elapsed_override;
  unchanged ← pc_unchanged step fetch_address;
  let executed_branch_to_self := step_executed step && can_decode_branch instruction in
  let should_advance_pc := unchanged && negb executed_branch_to_self in
  refill ← arm_refill instruction fetch_address should_advance_pc step;
  let step := rf_step refill in
  step ← charge_if (skipped_branch_bubble instruction fetch_address fetch step) 1 step;
  bubble ← gets (execute_bubble fetch_address 4 should_advance_pc fetch step);
  step ← charge_if bubble 1 step;
  '(serviced, step) ← pc_change_irq (rf_pc_changed refill) step;
  settle_fetch should_advance_pc serviced (rf_seed refill) fetch_address 4 step 0;;
  timed CoreInstructionSet.arm 4 fetch_address instruction step should_advance_pc fetch.

(** [if (!hle_work_frames_.empty()) if (auto work = step_hle_work_from_pc()) return *work;]. *)
(* @ core_scheduler.cpp:3158-3160 CoreScheduler::step_arm_from_pc *)
Definition or_hle_work_from_pc (step : SCH CoreSchedulerFetchStepResult)
    : SCH CoreSchedulerFetchStepResult :=
  frames ← gets (fun c => hle_work_frames_ (sched c));
  work ← (if bool_decide (frames = []) then mret None else step_hle_work_from_pc);
  match work with Some work => mret work | None => step end.

(** The instruction at [fetch_address]. *)
(* @ core_scheduler.cpp:3194-3331 CoreScheduler::step_arm_from_pc *)
Definition execute_arm_at (fetch_address instruction : Z) : SCH CoreSchedulerFetchStepResult :=
  let simple_immediate := arm_immediate_data_processing_without_pc_write instruction in
  simple ← gets simple_state;
  if simple && simple_immediate then
    untimed_simple_step CoreInstructionSet.arm 4 (ArmTiming.step_arm instruction) fetch_address
      instruction
  else
    fetch ← apply_fetch_timing fetch_address 4;
    waitcnt ← gets waitcnt_ptr;
    elapsed_override ←
      (if simple_immediate then mret None
       else on_cpu (arm_rom_multiply_elapsed_override instruction fetch_address waitcnt));
    quiet ← gets quiet_state;
    if simple_immediate && quiet then timed_simple_step fetch_address instruction fetch
    else timed_arm_step fetch_address instruction fetch elapsed_override.

(* @ core_scheduler.cpp:3157-3331 CoreScheduler::step_arm_from_pc *)
Definition step_arm_from_pc : SCH CoreSchedulerFetchStepResult :=
  or_hle_work_from_pc
    (fetch_address ← reg kPc;
     returned ← irq_return_step CoreInstructionSet.arm 4 fetch_address;
     match returned with
     | Some result => mret result
     | None =>
         hle_irq ← dispatch_hle_irq_vector fetch_address;
         match hle_irq with
         | Some step =>
             set_sched reset_fetch_timing_sequence;;
             mret (untimed CoreInstructionSet.arm 4 fetch_address None (Some step) false false)
         | None =>
             instruction ← read32_at fetch_address;
             match instruction with
             | None =>
                 set_sched reset_fetch_timing_sequence;;
                 mret (untimed CoreInstructionSet.arm 4 fetch_address None None true false)
             | Some instruction => execute_arm_at fetch_address instruction
             end
         end
     end).

(** ** Thumb *)

(* @ core_scheduler.cpp:3452-3479 CoreScheduler::step_from_pc *)
Definition internal_store_override (instruction fetch_address : Z)
    : SCH (option ArmElapsedCycleEstimate) :=
  c ← gets (fun c => c);
  let d := devices_of c in
  match waitcnt_ptr c with
  | None => mret None
  | Some waitcnt =>
      if (PpuTiming.kVisibleCycles <=? PpuTiming.line_cycle (ppu d)) &&
         requested InterruptSource.hblank (interrupts d) &&
         can_decode_thumb_memory_transfer instruction
      then
        decoded ← lift (decode_thumb_memory_transfer instruction);
        if tm_load decoded then mret None
        else
          raw_base ← reg (tm_rb decoded);
          let base :=
            if tm_rb decoded =? kPc then Z.land (u32 (raw_base + 4)) (not32 0x3) else raw_base in
          offset ← (if offset_is_register decoded then reg (tm_offset decoded)
                    else mret (tm_offset decoded));
          let address := u32 (base + offset) in
          if in_work_ram fetch_address && in_work_ram address then
            let timing :=
              timing_waitcnt address (thumb_probe_access_width (tm_kind decoded)) waitcnt in
            let cycles := u32 (sequential timing * 2) in
            mret (if 0 <? cycles then Some (mkArmElapsedCycleEstimate (cycles - 1) false true)
                  else None)
          else mret None
      else mret None
  end.

(** The fetch of a Thumb instruction: its timing, and whether a load from the
    work RAM overlaps it. *)
(* @ core_scheduler.cpp:3428-3443 CoreScheduler::step_from_pc *)
Definition thumb_fetch (instruction fetch_address : Z) : SCH (FetchTiming * bool) :=
  waitcnt ← gets waitcnt_ptr;
  match waitcnt with
  | None => mret (no_fetch_timing, false)
  | Some _ =>
      fetch ← apply_fetch_timing fetch_address 2;
      waitcnt ← gets waitcnt_ptr;
      overlap ← on_cpu (should_overlap_thumb_internal_data_load fetch_address waitcnt instruction
                          (ft_cycles fetch));
      let slow :=
        match waitcnt with
        | Some w => 1 <? sequential (timing_waitcnt fetch_address AccessWidth.halfword w)
        | None => true
        end in
      mret (fetch,
            if overlap && negb (ft_prefetch_enabled fetch) && prefetching waitcnt
            then slow else overlap)
  end.

(** [has_waitcnt ? thumb_rom_multiply_elapsed_override(...) : nullopt], or the
    estimate of a store to the work RAM during HBlank. *)
(* @ core_scheduler.cpp:3448-3479 CoreScheduler::step_from_pc *)
Definition thumb_elapsed_override (instruction fetch_address : Z)
    : SCH (option ArmElapsedCycleEstimate) :=
  waitcnt ← gets waitcnt_ptr;
  multiply ←
    (match waitcnt with
     | Some _ => on_cpu (thumb_rom_multiply_elapsed_override instruction fetch_address waitcnt)
     | None => mret None
     end);
  match multiply with
  | Some estimate => mret (Some estimate)
  | None => internal_store_override instruction fetch_address
  end.

(** What the stalls of a jump inside the work RAM depend on, before the refill. *)
Record BranchStalls : Type := mkBranchStalls {
  bs_line_cycle : Z;
  bs_transition : bool;
  bs_hblank_conditional : bool;
  bs_rollover : bool
}.

(* @ core_scheduler.cpp:3510-3528 CoreScheduler::step_from_pc *)
Definition branch_stalls (instruction fetch_address : Z) (step : CoreSchedulerStepResult)
    (d : Devices) : BranchStalls :=
  let internal_code_branch := in_work_ram fetch_address in
  let hblank_status_sensitive :=
    PpuTiming.hblank_irq_enabled (ppu d) || enabled InterruptSource.hblank (interrupts d) ||
    requested InterruptSource.hblank (interrupts d) in
  let conditional_branch :=
    (Z.land instruction 0xF000 =? 0xD000) && negb (Z.land instruction 0x0F00 =? 0x0F00) in
  let hblank_sensitive_conditional_branch := hblank_status_sensitive && conditional_branch in
  let line_cycle := PpuTiming.line_cycle (ppu d) in
  let elapsed := sr_elapsed_cycles (cpu_step step) in
  mkBranchStalls line_cycle
    (internal_code_branch && hblank_status_sensitive &&
     (negb conditional_branch || hblank_sensitive_conditional_branch))
    hblank_sensitive_conditional_branch
    (internal_code_branch && hblank_status_sensitive && negb conditional_branch &&
     (0 <? elapsed) && (elapsed <=? PpuTiming.kCyclesPerLine) && (line_cycle <? elapsed)).

(* @ core_scheduler.cpp:3548-3548 kInternalThumbBranchRolloverStallCycles *)
Definition kInternalThumbBranchRolloverStallCycles : Z := 2.

(* @ core_scheduler.cpp:3495-3556 CoreScheduler::step_from_pc *)
Definition thumb_refill (instruction fetch_address : Z) (should_advance_pc : bool)
    (step : CoreSchedulerStepResult) : SCH Refill :=
  refills ←
    (if negb should_advance_pc && step_executed step
     then lift (thumb_instruction_refills_pipeline instruction) else mret false);
  if (refills : bool) then
    branch_exchange ←
      (if can_decode_thumb_high_register instruction then
         decoded ← lift (decode_thumb_high_register instruction);
         mret (match hr_opcode decoded with ThumbHighRegisterOpcode.bx => true | _ => false end)
       else mret false);
    branch_target ← reg kPc;
    c ← gets (fun c => c);
    let waitcnt := waitcnt_ptr c in
    let refill_cycles :=
      if (branch_exchange : bool)
      then thumb_branch_exchange_refill_cycles fetch_address branch_target waitcnt
      else thumb_branch_refill_cycles branch_target waitcnt in
    let stalls := branch_stalls instruction fetch_address step (devices_of c) in
    step ← charge_refill refill_cycles step;
    step ← charge_if (bs_transition stalls && negb (bs_hblank_conditional stalls) &&
                      crosses_ppu_status_transition (bs_line_cycle stalls) refill_cycles) 1 step;
    step ← charge_if (bs_rollover stalls) kInternalThumbBranchRolloverStallCycles step;
    mret (mkRefill step true
            (branch_exchange && branch_exchange_seeds_fast_prefetch fetch_address branch_target waitcnt))
  else mret (mkRefill step false false).

(** The access is a load of a word from the cartridge. *)
(* @ core_scheduler.cpp:3559-3562 CoreScheduler::step_from_pc *)
Definition rom_word_load (step : CoreSchedulerStepResult) : bool :=
  match data_access step with
  | Some a => tr_load a && (tr_width_bytes a =? 4) && in_region Region.game_pak_rom (tr_address a)
  | None => false
  end.

(** [timing.sequential <= 1] of the fetch. *)
Definition fast_halfword_fetch (fetch_address : Z) (waitcnt : option WaitStateControl) : bool :=
  match waitcnt with
  | Some w => sequential (timing_waitcnt fetch_address AccessWidth.halfword w) <=? 1
  | None => false
  end.

(* @ core_scheduler.cpp:3557-3565 CoreScheduler::step_from_pc *)
Definition literal_load_penalty (previous_internal_load should_advance_pc : bool)
    (fetch_address : Z) (fetch : FetchTiming) (step : CoreSchedulerStepResult) (c : Core) : bool :=
  previous_internal_load && should_advance_pc && ft_prefetch_hit fetch && (ft_cycles fetch =? 0) &&
  prefetching (waitcnt_ptr c) && rom_word_load step &&
  fast_halfword_fetch fetch_address (waitcnt_ptr c).

(** The access is in the work RAM. *)
Definition work_ram_access (step : CoreSchedulerStepResult) : bool :=
  match data_access step with Some a => in_work_ram (tr_address a) | None => false end.

Definition work_ram_load (step : CoreSchedulerStepResult) : bool :=
  match data_access step with
  | Some a => tr_load a && in_work_ram (tr_address a)
  | None => false
  end.

(* @ core_scheduler.cpp:3595-3615 CoreScheduler::step_from_pc *)
Definition thumb_extra_refill_cycles (overlap : bool) (fetch_address : Z) (fetch : FetchTiming)
    (step : CoreSchedulerStepResult) (waitcnt : option WaitStateControl) : Z :=
  let prefetch := ft_prefetch_enabled fetch in
  let overlapped := overlap && negb prefetch && prefetching waitcnt && work_ram_load step in
  let slow := prefetch && prefetching waitcnt && work_ram_access step &&
              negb (fast_halfword_fetch fetch_address waitcnt) in
  if overlapped || slow then 1 else 0.

(** [suppress_next_thumb_prefetch_execute_bubble_] and
    [previous_thumb_internal_load_]. *)
Definition set_thumb_flags (suppress previous : bool) : SCH unit :=
  set_sched (fun s =>
    s <| suppress_next_thumb_prefetch_execute_bubble_ := suppress |>
      <| previous_thumb_internal_load_ := previous |>).

(* @ core_scheduler.cpp:3420-3635 CoreScheduler::step_from_pc *)
Definition timed_thumb_step (fetch_address instruction : Z) : SCH CoreSchedulerFetchStepResult :=
  '(fetch, overlap) ← thumb_fetch instruction fetch_address;
  s ← gets sched;
  let suppress_current := suppress_next_thumb_prefetch_execute_bubble_ s in
  let previous_internal_load := previous_thumb_internal_load_ s in
  set_thumb_flags false previous_internal_load;;
  elapsed_override ← thumb_elapsed_override instruction fetch_address;
  step ← step_thumb instruction overlap elapsed_override;
  unchanged ← pc_unchanged step fetch_address;
  let executed_branch_to_self :=
    step_executed step && (can_decode_thumb_unconditional_branch instruction ||
                           can_decode_thumb_conditional_branch instruction) in
  let should_advance_pc := unchanged && negb executed_branch_to_self in
  refill ← thumb_refill instruction fetch_address should_advance_pc step;
  let step := rf_step refill in
  penalty ← gets (literal_load_penalty previous_internal_load should_advance_pc fetch_address fetch
                    step);
  step ← charge_if penalty 1 step;
  bubble ← gets (execute_bubble fetch_address 2 should_advance_pc fetch step);
  step ← charge_if (negb suppress_current && bubble) 1 step;
  waitcnt ← gets waitcnt_ptr;
  set_thumb_flags
    (should_suppress_next_thumb_prefetch_execute_bubble fetch_address waitcnt step
       should_advance_pc (ft_prefetch_enabled fetch) (ft_cycles fetch)) previous_internal_load;;
  '(serviced, step) ← pc_change_irq (rf_pc_changed refill) step;
  waitcnt ← gets waitcnt_ptr;
  settle_fetch should_advance_pc serviced (rf_seed refill) fetch_address 2 step
    (thumb_extra_refill_cycles overlap fetch_address fetch step waitcnt);;
  set_sched (fun s =>
    s <| previous_thumb_internal_load_ :=
           should_advance_pc && step_executed step && work_ram_load step |>);;
  timed CoreInstructionSet.thumb 2 fetch_address instruction step should_advance_pc fetch.

(* @ core_scheduler.cpp:3374-3418 CoreScheduler::step_from_pc *)
Definition execute_thumb_at (fetch_address instruction : Z) : SCH CoreSchedulerFetchStepResult :=
  simple ← gets simple_state;
  s ← gets sched;
  if simple && negb (suppress_next_thumb_prefetch_execute_bubble_ s) &&
     negb (previous_thumb_internal_load_ s) && simple_thumb_alu_without_pc_write instruction
  then
    result ← untimed_simple_step CoreInstructionSet.thumb 2 (ArmTiming.step_thumb instruction)
               fetch_address instruction;
    set_sched (fun s => s <| previous_thumb_internal_load_ := false |>);;
    mret result
  else timed_thumb_step fetch_address instruction.

(* @ core_scheduler.cpp:3343-3372 CoreScheduler::step_from_pc *)
Definition step_thumb_from_pc : SCH CoreSchedulerFetchStepResult :=
  fetch_address ← reg kPc;
  returned ← irq_return_step CoreInstructionSet.thumb 2 fetch_address;
  match returned with
  | Some result => set_thumb_flags false false;; mret result
  | None =>
      instruction ← read16_at fetch_address;
      match instruction with
      | None =>
          set_sched reset_fetch_timing_sequence;;
          set_thumb_flags false false;;
          mret (untimed CoreInstructionSet.thumb 2 fetch_address None None true false)
      | Some instruction => execute_thumb_at fetch_address instruction
      end
  end.

(* @ core_scheduler.cpp:3333-3635 CoreScheduler::step_from_pc *)
Definition step_from_pc : SCH CoreSchedulerFetchStepResult :=
  or_hle_work_from_pc
    (c ← gets (fun c => c);
     count ← on_cpu (recover_thumb_state_from_rom_misfetch io_callbacks (machine_of c)
                       (thumb_misfetch_recovery_count_ (sched c)));
     set_sched (fun s => s <| thumb_misfetch_recovery_count_ := count |>);;
     thumb ← gets (fun c => thumb_state_ (cpu_of c));
     if negb thumb then
       set_sched (fun s => s <| suppress_next_thumb_prefetch_execute_bubble_ := false |>);;
       step_arm_from_pc
     else step_thumb_from_pc).

(** ** Running *)

(** [fetched.step->cpu_step.status]; a step without a fetch failure has a step. *)
Definition fetched_status (fetched : CoreSchedulerFetchStepResult) : exc ExecuteStatus.t :=
  match fetch_step fetched with
  | Some step => Ret (sr_status (cpu_step step))
  | None => Throw
  end.

(* @ core_scheduler.cpp:3642-3652 CoreScheduler::run_steps_from_pc *)
Definition initial_run (max_steps : Z) (c : Core) (pc : Z) : CoreSchedulerRunResult :=
  mkCoreSchedulerRunResult max_steps 0 0 0 0 0 CoreRunStopReason.max_steps pc
    (scheduler_cycles_ (sched c)).

(** The counters after a step, and whether the run goes on. *)
(* @ core_scheduler.cpp:3656-3675 CoreScheduler::run_steps_from_pc *)
Definition count_step (fetched : CoreSchedulerFetchStepResult) (r : CoreSchedulerRunResult)
    : exc (CoreSchedulerRunResult * bool) :=
  if fetch_failed fetched then
    Ret (r <| fetch_failures ::= fun n => u32 (n + 1) |>
           <| stop_reason := CoreRunStopReason.fetch_failed |>, false)
  else
    let r := r <| attempted_steps ::= fun n => u32 (n + 1) |> in
    status ← fetched_status fetched;
    Ret match status with
        | ExecuteStatus.executed => (r <| executed_steps ::= fun n => u32 (n + 1) |>, true)
        | ExecuteStatus.skipped_condition => (r <| skipped_steps ::= fun n => u32 (n + 1) |>, true)
        | _ => (r <| unsupported_steps ::= fun n => u32 (n + 1) |>
                  <| stop_reason := CoreRunStopReason.unsupported_instruction |>, false)
        end.

(* @ core_scheduler.cpp:3654-3676 CoreScheduler::run_steps_from_pc *)
Fixpoint run_loop (step_fn : SCH CoreSchedulerFetchStepResult) (steps : nat)
    (r : CoreSchedulerRunResult) : SCH CoreSchedulerRunResult :=
  match steps with
  | O => mret r
  | S steps' =>
      fetched ← step_fn;
      '(r, go_on) ← lift (count_step fetched r);
      if (go_on : bool) then run_loop step_fn steps' r else mret r
  end.

(* @ core_scheduler.cpp:3639-3681 CoreScheduler::run_steps_from_pc *)
Definition run_steps_from_pc (max_steps : Z) (step_fn : SCH CoreSchedulerFetchStepResult)
    : SCH CoreSchedulerRunResult :=
  pc ← reg kPc;
  result ← gets (fun c => initial_run max_steps c pc);
  result ← run_loop step_fn (Z.to_nat max_steps) result;
  pc ← reg kPc;
  c ← gets (fun c => c);
  mret (result <| final_pc := pc |> <| run_scheduler_cycles := scheduler_cycles_ (sched c) |>).

(* @ core_scheduler.cpp:3683-3685 CoreScheduler::run_arm_from_pc *)
Definition run_arm_from_pc (max_steps : Z) : SCH CoreSchedulerRunResult :=
  run_steps_from_pc max_steps step_arm_from_pc.

(* @ core_scheduler.cpp:3687-3689 CoreScheduler::run_from_pc *)
Definition run_from_pc (max_steps : Z) : SCH CoreSchedulerRunResult :=
  run_steps_from_pc max_steps step_from_pc.
