(* ===== verification/SchedulerFetchSafety.v ===== *)
(** * The scheduler: safety of fetching and running

    The prefetch buffer stays within its capacity, every step of [step_from_pc]
    returns from a well-formed core and leaves one, and so does the run loop,
    which attempts no more instructions than it was asked for. *)

From S2P Require Import Prelude StateMonad StateHash Interrupts BusTypes WaitState.
From S2P Require Timers PpuTiming MemoryBus TimersSpec PpuTimingSpec BusSafety.
From S2P Require Import Apu Dma IoRegisters DmaTransfer Bios.
From S2P Require Import ArmTypes ArmDecode ThumbDecode ArmState ArmExecute ArmMemory ArmTiming.
From S2P Require Import BusInterface ArmSafety ArmTotal ArmMemorySafety ArmStepSafety.
From S2P Require Import IoRegistersSpec DmaTransferSpec.
From S2P Require Import SchedulerTiming SchedulerProbe SchedulerState SchedulerDevices.
From S2P Require Import SchedulerDevicesSpec SchedulerSafety SchedulerProbeSafety SchedulerWait.
From S2P Require Import SchedulerWaitSafety SchedulerIrq SchedulerIrqSafety.
From S2P Require Import HleServices HleSafety SchedulerStep SchedulerStepSafety SchedulerFetch.

(** ** The time of a fetch *)

#[export] Instance typed_fetch : Typed FetchTiming := fun f => fits 32 (ft_cycles f).

(** The wait-state register of a scheduler that has one. *)
Definition waitcnt_typed (o : option WaitStateControl) : Prop :=
  forall w, o = Some w -> fits 16 (read_control w).

#[export] Instance typed_waitcnt : Typed (option WaitStateControl) := waitcnt_typed.

Lemma safe_waitcnt : safe core_ok (gets waitcnt_ptr).
Proof.
  apply safe_gets. intros c Hc w. unfold waitcnt_ptr. case_match; [|done]. intros [= <-].
  pose proof (dv_waitcnt _ (inv_devices core_ok c Hc)) as E. unfold read_control. rewrite <- E.
  apply fits_land_r; [lia|]. by vm_compute.
Qed.

Lemma rom_miss_fits t n a b r : timing_ok t -> fits 32 (rom_miss_cycles t n a b r).
Proof.
  intros [H1 H2]. unfold rom_miss_cycles. cbv zeta.
  repeat (case_match; try (apply wrap_fits; lia)); unfold fits; lia.
Qed.

Lemma rom_hit_fits t n k : timing_ok t -> fits 32 (rom_hit_cycles t n k).
Proof.
  intros [H1 H2]. unfold rom_hit_cycles. case_match; [wraps|].
  destruct (Z.ltb_spec 0 (sequential t)); unfold fits; lia.
Qed.

Definition buffer_ok (n : Z) : Prop := 0 <= n <= kPrefetchBufferCapacityHalfwords.

Lemma capped_buffer n : buffer_ok (u8 (Z.min kPrefetchBufferCapacityHalfwords (u32 n))).
Proof.
  unfold buffer_ok, kPrefetchBufferCapacityHalfwords.
  pose proof (wrap_fits 32 ltac:(lia) n) as H. unfold fits in H.
  rewrite wrap_id; unfold fits; lia.
Qed.

Lemma buffer_after_hit_ok b k n c : buffer_ok b -> 0 <= k <= b -> buffer_ok (buffer_after_hit b k n c).
Proof.
  intros Hb Hk. unfold buffer_after_hit. cbv zeta. case_match; [apply capped_buffer|].
  unfold buffer_ok, kPrefetchBufferCapacityHalfwords in *. rewrite wrap_id; unfold fits; lia.
Qed.

Lemma rom_fetch_typed a n w s : scheduler_wf s ->
  typed (rom_fetch a n w s).1 /\ scheduler_wf (rom_fetch a n w s).2.
Proof.
  intros Hs. unfold rom_fetch. cbv zeta.
  pose proof (timing_waitcnt_bounds a (fetch_width n) w) as Ht.
  set (t := timing_waitcnt a (fetch_width n) w) in *.
  set (s1 := if suppress_next_game_pak_prefetch_ s then _ else s).
  assert (H1 : scheduler_wf s1).
  { subst s1. case_match; [|done]. revert Hs. sched_fields. }
  clearbody s1. set (s2 := s1 <| recover_next_game_pak_data_fetch_ := false |>).
  assert (H2 : scheduler_wf s2) by (subst s2; revert H1; sched_fields). clearbody s2.
  destruct (_ && _ && _) eqn:E; cbn [fst snd].
  - apply andb_true_iff in E as [_ E%Z.leb_le].
    split; [by apply rom_hit_fits|]. pose proof (sw_buffer _ H2) as Hb. revert H2. sched_fields.
    apply buffer_after_hit_ok; [done|]. split; [|done]. apply wrap_fits. lia.
  - split; [by apply rom_miss_fits|done].
Qed.

Lemma record_fetch_wf a n s : fits 32 a -> scheduler_wf s -> scheduler_wf (record_fetch a n s).
Proof. intros Ha. unfold record_fetch. sched_fields. Qed.

Lemma safe_spend_fetch n : fits 32 n -> safe core_ok (spend_fetch n).
Proof.
  intros Hn. unfold spend_fetch. apply safe_when. eapply safe_bind; [by apply safe_advance|].
  intros _ _. by apply safe_ret.
Qed.

Lemma waitcnt_seen_wf w s : fits 16 w -> scheduler_wf s ->
  scheduler_wf (reset_fetch_timing_sequence s <| last_waitcnt_control_ := Some w |>).
Proof. intros Hw Hs%reset_fetch_wf. revert Hs. sched_fields. Qed.

Lemma waitcnt_lost_wf s : scheduler_wf s ->
  scheduler_wf (reset_fetch_timing_sequence s <| last_waitcnt_control_ := None |>).
Proof. intros Hs%reset_fetch_wf. revert Hs. sched_fields. Qed.

Lemma ewram_fetch_fits t : timing_ok t ->
  fits 32 (if 0 <? nonsequential t then nonsequential t - 1 else 0).
Proof. intros [H _]. destruct (Z.ltb_spec 0 (nonsequential t)); unfold fits; lia. Qed.

Lemma safe_apply_fetch a n : fits 32 a -> safe core_ok (apply_fetch_timing a n).
Proof.
  intros Ha. unfold apply_fetch_timing. eapply safe_bind; [apply safe_waitcnt|]. intros [w|] Hw.
  - cbv zeta. eapply safe_bind.
    { apply safe_set_sched. intros s Hs. case_match; [|done]. by apply waitcnt_seen_wf; [apply Hw|]. }
    intros _ _. apply safe_if; intros _.
    { eapply safe_bind; [apply safe_reset_fetch|]. intros _ _.
      pose proof (ewram_fetch_fits _ (timing_waitcnt_bounds a (fetch_width n) w)) as Hf.
      eapply safe_bind; [by apply safe_spend_fetch|]. intros _ _. by apply safe_ret. }
    apply safe_if; intros _.
    { eapply safe_bind; [apply safe_reset_fetch|]. intros _ _. by apply safe_ret. }
    eapply safe_bind; [apply safe_ask_sched|]. intros s Hs.
    destruct (rom_fetch_typed a n w s Hs) as [Hf Hs']. destruct (rom_fetch a n w s) as [fetch s'].
    cbn [fst snd] in *.
    eapply safe_bind; [by apply safe_set_sched|]. intros _ _.
    eapply safe_bind; [by apply safe_spend_fetch|]. intros _ _.
    eapply safe_bind; [apply safe_set_sched; intros s1; by apply record_fetch_wf|]. intros _ _.
    by apply safe_ret.
  - eapply safe_bind; [apply safe_set_sched, waitcnt_lost_wf|]. intros _ _. by apply safe_ret.
Qed.

(** ** The prefetch buffer *)

Lemma refill_wf a n step extra w s : fits 16 (read_control w) -> scheduler_wf s ->
  scheduler_wf (refill_prefetch a n step extra w s).
Proof.
  intros Hw Hs. unfold refill_prefetch. cbv zeta.
  set (s1 := if waitcnt_changed (read_control w) s then _ else s).
  assert (H1 : scheduler_wf s1) by (subst s1; case_match; [revert Hs; sched_fields|done]).
  clearbody s1. case_match; [done|]. case_match; [revert H1; sched_fields|].
  destruct (disturbing_access a step); [by apply disturb_wf|].
  case_match; [revert H1; sched_fields|]. case_match; [done|].
  revert H1. sched_fields. apply capped_buffer.
Qed.

Lemma safe_refill_prefetch a n step extra : safe core_ok (refill_prefetch_after_step a n step extra).
Proof.
  unfold refill_prefetch_after_step. eapply safe_bind; [apply safe_waitcnt|].
  intros [w|] Hw; [|by apply safe_ret]. apply safe_set_sched. intros s. by apply refill_wf, Hw.
Qed.

(** ** Charging extra cycles *)

Lemma safe_charge n step : fits 32 n -> typed step -> safe core_ok (charge n step).
Proof.
  intros Hn (Hr & Hd & Hi & Hc). unfold charge. eapply safe_bind; [by apply safe_advance|]. intros t _.
  eapply (total_seq _ core_ok (fits 64)); [apply total_gets; intros c [? []]; by split|]. intros now Hnow.
  apply safe_ret. split; [unfold typed, typed_step_result; cbn; wraps|].
  split; [apply merge_typed|]. by split.
Qed.

Lemma safe_charge_if (b : bool) n step : fits 32 n -> typed step -> safe core_ok (charge_if b n step).
Proof. intros Hn Hs. unfold charge_if. apply safe_if; intros _; [by apply safe_charge|by apply safe_ret]. Qed.

Lemma charge_refill_typed step t n : typed step -> typed (charge_pipeline_refill step t n).
Proof.
  intros (Hr & Hd & Hi & Hc). unfold charge_pipeline_refill. case_match; [done|].
  split; [unfold typed, typed_step_result; cbn; wraps|]. split; [apply merge_typed|].
  split; [exact Hi|cbn; wraps].
Qed.

Lemma safe_charge_refill n step : fits 32 n -> typed step -> safe core_ok (charge_refill n step).
Proof.
  intros Hn Hs. unfold charge_refill. eapply safe_bind; [by apply safe_advance|]. intros t _.
  by apply safe_ret, charge_refill_typed.
Qed.

(** ** The parts the two fetch steps share *)

Lemma untimed_typed set n a i step failed advanced : typed step -> (failed = false -> is_Some step) ->
  typed (untimed set n a i step failed advanced).
Proof. by split. Qed.

Lemma safe_untimed set n a i step advanced : typed step ->
  safe core_ok (mret (untimed set n a i (Some step) false advanced)).
Proof. intros Hs. apply safe_ret, untimed_typed; [by apply typed_Some|by eexists]. Qed.

Lemma safe_timed set n a i step advanced fetch : typed step ->
  safe core_ok (timed set n a i step advanced fetch).
Proof.
  intros Hs. unfold timed. apply (total_ask (fun _ => True)); [done|]. intros b _.
  apply safe_ret. split; [by apply typed_Some|by eexists].
Qed.

Lemma safe_pc_unchanged step a : safe core_ok (pc_unchanged step a).
Proof. unfold pc_unchanged. eapply safe_bind; [apply safe_pc|]. intros pc _. by apply safe_ret. Qed.

Lemma safe_irq_return_step set n a : safe core_ok (irq_return_step set n a).
Proof.
  unfold irq_return_step. eapply safe_bind; [apply safe_dispatch_return|]. intros [step|] Hs.
  - eapply safe_bind; [apply safe_reset_fetch|]. intros _ _.
    apply safe_ret, typed_Some, untimed_typed; [exact Hs|by eexists].
  - apply safe_if; intros _; [|by apply safe_ret; intros ? ?].
    eapply safe_bind; [apply safe_reset_fetch|]. intros _ _.
    eapply safe_bind.
    { apply safe_gets. intros c Hc. apply step_of_typed; [by vm_compute|apply no_ticks_typed|done]. }
    intros step Hs'. apply safe_ret, typed_Some, untimed_typed; [by apply typed_Some|by eexists].
Qed.

Lemma safe_untimed_simple set n step a i : safe wf step -> fits 32 a ->
  safe core_ok (untimed_simple_step set n step a i).
Proof.
  intros Hs Ha. unfold untimed_simple_step. eapply safe_bind; [by apply safe_step_simple|]. intros r Hr.
  eapply safe_bind; [apply safe_pc_unchanged|]. intros advance _.
  eapply safe_bind; [apply safe_when, safe_set_pc; wraps|]. intros _ _. by apply safe_untimed.
Qed.

Lemma safe_pc_change_irq b step : typed step -> safe core_ok (pc_change_irq b step).
Proof.
  intros Hs. unfold pc_change_irq. eapply safe_bind; [apply safe_ask_bool|]. intros ready _.
  eapply safe_bind; [apply safe_irq_if|]. intros serviced _.
  eapply safe_bind; [apply safe_when, safe_reset_latency|]. intros _ _.
  apply safe_ret. split; [done|]. cbn [snd]. by case_match.
Qed.

Lemma seed_wf s : scheduler_wf s -> scheduler_wf (s <| prefetch_buffer_halfwords_ := 1 |>).
Proof. sched_fields. Qed.

Lemma safe_settle_fetch advance serviced seed a n step extra :
  safe core_ok (settle_fetch advance serviced seed a n step extra).
Proof.
  unfold settle_fetch. apply safe_if; intros _.
  - eapply safe_bind; [apply safe_set_pc; wraps|]. intros _ _. apply safe_refill_prefetch.
  - eapply safe_bind; [apply safe_reset_fetch|]. intros _ _. apply safe_when, safe_set_sched, seed_wf.
Qed.

(** ** ARM *)

#[export] Instance typed_refill : Typed Refill := fun r => typed (rf_step r).

Lemma safe_arm_refill i a advance step : typed step -> safe core_ok (arm_refill i a advance step).
Proof.
  intros Hs. unfold arm_refill. apply safe_if; intros _; [|by apply safe_ret].
  eapply safe_bind; [apply safe_pc|]. intros target _.
  eapply safe_bind; [apply safe_waitcnt|]. intros w _. cbv zeta.
  eapply safe_bind.
  { apply safe_charge_refill; [|done]. case_match; [apply arm_exchange_refill_fits|apply arm_refill_fits]. }
  intros r Hr. by apply safe_ret.
Qed.

Lemma safe_bubble_step (f : Core -> bool) (g : bool -> bool) step :
  typed step -> safe core_ok (b ← gets f; charge_if (g b) 1 step).
Proof.
  intros Hs. eapply safe_bind; [apply safe_ask_bool|]. intros b _. by apply safe_charge_if.
Qed.

Lemma safe_timed_simple a i fetch : fits 32 a -> safe core_ok (timed_simple_step a i fetch).
Proof.
  intros Ha. unfold timed_simple_step.
  eapply safe_bind; [by apply safe_step_simple; [apply safe_cpu_step_arm|]|]. intros step Hs.
  eapply safe_bind; [apply safe_pc_unchanged|]. intros advance _.
  eapply safe_bind; [apply safe_ask_bool|]. intros bubble _.
  eapply safe_bind; [by apply safe_charge_if|]. intros step' Hs'.
  eapply safe_bind; [apply safe_settle_fetch|]. intros _ _. by apply safe_timed.
Qed.

Lemma safe_timed_arm a i fetch e : typed e -> safe core_ok (timed_arm_step a i fetch e).
Proof.
  intros He. unfold timed_arm_step. eapply safe_bind; [by apply safe_step_arm|]. intros step Hs.
  eapply safe_bind; [apply safe_pc_unchanged|]. intros unchanged _. cbv zeta.
  eapply safe_bind; [by apply safe_arm_refill|]. intros refill Hr.
  eapply safe_bind; [by apply safe_charge_if|]. intros s1 H1.
  eapply safe_bind; [apply safe_ask_bool|]. intros bubble _.
  eapply safe_bind; [by apply safe_charge_if|]. intros s2 H2.
  eapply safe_bind; [by apply safe_pc_change_irq|]. intros [serviced s3] [_ H3]. cbn [snd] in H3.
  eapply safe_bind; [apply safe_settle_fetch|]. intros _ _. by apply safe_timed.
Qed.

Lemma safe_execute_arm_at a i : fits 32 a -> safe core_ok (execute_arm_at a i).
Proof.
  intros Ha. unfold execute_arm_at. cbv zeta. eapply safe_bind; [apply safe_ask_bool|]. intros simple _.
  apply safe_if; intros _; [by apply safe_untimed_simple; [apply safe_cpu_step_arm|]|].
  eapply safe_bind; [by apply safe_apply_fetch|]. intros fetch Hf.
  eapply safe_bind; [apply safe_waitcnt|]. intros w _.
  eapply safe_bind.
  { apply safe_if; intros _; [by apply safe_ret; intros ? ?|]. apply safe_on_cpu, safe_arm_override. }
  intros e He. eapply safe_bind; [apply safe_ask_bool|]. intros quiet _.
  apply safe_if; intros _; [by apply safe_timed_simple|by apply safe_timed_arm].
Qed.

Lemma safe_or_work step : safe core_ok step -> safe core_ok (or_hle_work_from_pc step).
Proof.
  intros Hs. unfold or_hle_work_from_pc. apply (total_ask (fun _ => True)); [done|]. intros frames _.
  eapply safe_bind.
  { apply safe_if; intros _; [by apply safe_ret; intros ? ?|apply safe_step_work]. }
  intros [w|] Hw; [by apply safe_ret, Hw|done].
Qed.

Lemma unreadable_typed set n a : typed (untimed set n a None None true false).
Proof. by apply untimed_typed. Qed.

Lemma safe_step_arm_from_pc : safe core_ok step_arm_from_pc.
Proof.
  unfold step_arm_from_pc. apply safe_or_work. eapply safe_bind; [apply safe_pc|]. intros a Ha.
  eapply safe_bind; [apply safe_irq_return_step|]. intros [r|] Hr; [by apply safe_ret, Hr|].
  eapply safe_bind; [apply safe_dispatch_vector|]. intros [step|] Hs.
  - eapply safe_bind; [apply safe_reset_fetch|]. intros _ _. by apply safe_untimed, Hs.
  - apply (total_ask (fun _ => True)); [done|]. intros [i|] _; [by apply safe_execute_arm_at|].
    eapply safe_bind; [apply safe_reset_fetch|]. intros _ _. apply safe_ret, unreadable_typed.
Qed.

(** ** Thumb *)

Lemma safe_internal_override i a : safe core_ok (internal_store_override i a).
Proof.
  unfold internal_store_override. eapply safe_bind; [apply safe_ask_core|]. intros c Hc. cbv zeta.
  destruct (waitcnt_ptr c) as [w|]; [|by apply safe_ret].
  apply safe_if; intros E; [|by apply safe_ret; intros ? ?].
  apply andb_true_iff in E as [_ E].
  eapply safe_bind; [by apply safe_decode_thumb_memory|]. intros d (_ & Hb & Ho & Hr).
  apply safe_if; intros _; [by apply safe_ret; intros ? ?|].
  eapply safe_bind; [by apply safe_hle_reg|]. intros base _.
  eapply safe_bind.
  { apply safe_if; intros E'; [by apply safe_hle_reg, Hr|by apply safe_ret]. }
  intros offset _. apply safe_if; intros _; [|by apply safe_ret; intros ? ?]. apply safe_ret.
  set (n := u32 _). assert (Hn : fits 32 n) by wraps.
  destruct (Z.ltb_spec 0 n); [|by intros ? ?]. apply some_estimate. unfold fits in *. lia.
Qed.

Lemma safe_thumb_fetch i a : fits 32 a -> safe core_ok (thumb_fetch i a).
Proof.
  intros Ha. unfold thumb_fetch. eapply safe_bind; [apply safe_waitcnt|]. intros [w|] _; [|by apply safe_ret].
  eapply safe_bind; [by apply safe_apply_fetch|]. intros fetch Hf.
  eapply safe_bind; [apply safe_waitcnt|]. intros w' _.
  eapply safe_bind; [apply safe_on_cpu, safe_overlap|]. intros overlap _. by apply safe_ret.
Qed.

Lemma safe_thumb_elapsed_override i a : safe core_ok (thumb_elapsed_override i a).
Proof.
  unfold thumb_elapsed_override. eapply safe_bind; [apply safe_waitcnt|]. intros w _.
  eapply safe_bind.
  { destruct w as [w|]; [apply safe_on_cpu, safe_thumb_override|by apply safe_ret; intros ? ?]. }
  intros [e|] He; [by apply safe_ret|apply safe_internal_override].
Qed.

Lemma safe_exchange_test i : safe core_ok
  (if can_decode_thumb_high_register i then
     decoded ← lift (decode_thumb_high_register i);
     mret (match hr_opcode decoded with ThumbHighRegisterOpcode.bx => true | _ => false end)
   else mret false).
Proof.
  apply safe_if; intros E; [|by apply safe_ret].
  eapply safe_bind; [by apply safe_decode_thumb_high|]. intros d _. by apply safe_ret.
Qed.

Lemma safe_thumb_refill i a advance step : typed step -> safe core_ok (thumb_refill i a advance step).
Proof.
  intros Hs. unfold thumb_refill.
  eapply safe_bind; [apply safe_if; intros _; [apply safe_refills|by apply safe_ret]|]. intros refills _.
  apply safe_if; intros _; [|by apply safe_ret].
  eapply safe_bind; [apply safe_exchange_test|]. intros exchange _.
  eapply safe_bind; [apply safe_pc|]. intros target _.
  eapply safe_bind; [apply safe_ask_core|]. intros c Hc. cbv zeta.
  eapply safe_bind.
  { apply safe_charge_refill; [|done]. case_match; [apply thumb_exchange_refill_fits|apply thumb_refill_fits]. }
  intros s1 H1. eapply safe_bind; [by apply safe_charge_if|]. intros s2 H2.
  eapply safe_bind; [by apply safe_charge_if|]. intros s3 H3. by apply safe_ret.
Qed.

Lemma safe_set_thumb_flags a b : safe core_ok (set_thumb_flags a b).
Proof. apply safe_set_sched. intros s. sched_fields. Qed.

Lemma safe_timed_thumb a i : fits 32 a -> safe core_ok (timed_thumb_step a i).
Proof.
  intros Ha. unfold timed_thumb_step.
  eapply safe_bind; [by apply safe_thumb_fetch|]. intros [fetch overlap] [Hf _].
  eapply safe_bind; [apply safe_ask_sched|]. intros s Hsc. cbv zeta.
  eapply safe_bind; [apply safe_set_thumb_flags|]. intros _ _.
  eapply safe_bind; [apply safe_thumb_elapsed_override|]. intros e He.
  eapply safe_bind; [by apply safe_step_thumb|]. intros step Hs.
  eapply safe_bind; [apply safe_pc_unchanged|]. intros unchanged _.
  eapply safe_bind; [by apply safe_thumb_refill|]. intros refill Hr.
  eapply safe_bind; [apply safe_ask_bool|]. intros penalty _.
  eapply safe_bind; [by apply safe_charge_if|]. intros s1 H1.
  eapply safe_bind; [apply safe_ask_bool|]. intros bubble _.
  eapply safe_bind; [by apply safe_charge_if|]. intros s2 H2.
  eapply safe_bind; [apply safe_waitcnt|]. intros w _.
  eapply safe_bind; [apply safe_set_thumb_flags|]. intros _ _.
  eapply safe_bind; [by apply safe_pc_change_irq|]. intros [serviced s3] [_ H3]. cbn [snd] in H3.
  eapply safe_bind; [apply safe_waitcnt|]. intros w' _.
  eapply safe_bind; [apply safe_settle_fetch|]. intros _ _.
  eapply safe_bind; [apply safe_set_sched; intros s'; sched_fields|]. intros _ _. by apply safe_timed.
Qed.

Lemma safe_execute_thumb_at a i : fits 32 a -> safe core_ok (execute_thumb_at a i).
Proof.
  intros Ha. unfold execute_thumb_at. eapply safe_bind; [apply safe_ask_bool|]. intros simple _.
  eapply safe_bind; [apply safe_ask_sched|]. intros s _.
  apply safe_if; intros _; [|by apply safe_timed_thumb].
  eapply safe_bind; [by apply safe_untimed_simple; [apply safe_cpu_step_thumb|]|]. intros r Hr.
  eapply safe_bind; [apply safe_set_sched; intros s'; sched_fields|]. intros _ _. by apply safe_ret.
Qed.

Lemma safe_step_thumb_from_pc : safe core_ok step_thumb_from_pc.
Proof.
  unfold step_thumb_from_pc. eapply safe_bind; [apply safe_pc|]. intros a Ha.
  eapply safe_bind; [apply safe_irq_return_step|]. intros [r|] Hr.
  { eapply safe_bind; [apply safe_set_thumb_flags|]. intros _ _. by apply safe_ret, Hr. }
  apply (total_ask (fun _ => True)); [done|]. intros [i|] _; [by apply safe_execute_thumb_at|].
  eapply safe_bind; [apply safe_reset_fetch|]. intros _ _.
  eapply safe_bind; [apply safe_set_thumb_flags|]. intros _ _. apply safe_ret, unreadable_typed.
Qed.

Lemma safe_step_from_pc : safe core_ok step_from_pc.
Proof.
  unfold step_from_pc. apply safe_or_work. eapply safe_bind; [apply safe_ask_core|]. intros c Hc.
  eapply safe_bind; [apply safe_on_cpu, safe_recover, (sw_misfetch _ (proj2 Hc))|]. intros count Hn.
  eapply safe_bind; [apply safe_set_sched; intros s; sched_fields|]. intros _ _.
  eapply safe_bind; [apply safe_ask_bool|]. intros thumb _.
  apply safe_if; intros _; [|apply safe_step_thumb_from_pc].
  eapply safe_bind; [apply safe_set_sched; intros s; sched_fields|]. intros _ _.
  apply safe_step_arm_from_pc.
Qed.

(** ** Running *)

(** The counters of a run that has taken [n] steps that were no failures. *)
Definition counted (n : Z) (r : CoreSchedulerRunResult) : Prop :=
  attempted_steps r = n /\ fits 32 n /\
  0 <= executed_steps r /\ 0 <= skipped_steps r /\
  executed_steps r + skipped_steps r + unsupported_steps r = n.

(** How a run ends: with all its steps taken, or at the step that stopped it. *)
Definition run_ended (max_steps : Z) (r : CoreSchedulerRunResult) : Prop :=
  requested_steps r = max_steps /\
  match stop_reason r with
  | CoreRunStopReason.max_steps =>
      counted max_steps r /\ unsupported_steps r = 0 /\ fetch_failures r = 0
  | CoreRunStopReason.unsupported_instruction =>
      exists n, counted n r /\ n <= max_steps /\ unsupported_steps r = 1 /\ fetch_failures r = 0
  | CoreRunStopReason.fetch_failed =>
      exists n, counted n r /\ n < max_steps /\ unsupported_steps r = 0 /\ fetch_failures r = 1
  end.

(** A run that goes on. *)
Definition running (max_steps n : Z) (r : CoreSchedulerRunResult) : Prop :=
  requested_steps r = max_steps /\ counted n r /\ unsupported_steps r = 0 /\
  fetch_failures r = 0 /\ stop_reason r = CoreRunStopReason.max_steps.

Lemma count_step_ok max_steps n f r : typed f -> fits 32 max_steps -> running max_steps n r ->
  n < max_steps ->
  ensures (fun p : CoreSchedulerRunResult * bool =>
             if p.2 then running max_steps (n + 1) p.1 else run_ended max_steps p.1) (count_step f r).
Proof.
  intros [Hf Hs] Hm (Hq & (Ha & Hn & He & Hk & Hsum) & Hu & Hff & Hr) Hlt. unfold fits in Hm, Hn.
  assert (Hi : forall x, 0 <= x <= n -> u32 (x + 1) = x + 1) by (intros x Hx; apply wrap_id; unfold fits; lia).
  unfold count_step. destruct (fetch_failed f).
  { apply ensures_ret. unfold run_ended. cbn. rewrite Hff. split; [done|].
    exists n. split_and!; try done; lia. }
  destruct (Hs eq_refl) as [step E]. unfold fetched_status. rewrite E. cbn [mbind exc_bind].
  apply ensures_ret. unfold running, run_ended, counted.
  destruct (sr_status (cpu_step step)); cbn; rewrite !Hi by lia; unfold fits; (split; [done|]).
  - split_and!; try done; lia.
  - split_and!; try done; lia.
  - exists (n + 1). split_and!; try done; lia.
Qed.

Lemma run_loop_ok step_fn max_steps n k r : safe core_ok step_fn -> fits 32 max_steps ->
  running max_steps n r -> n + Z.of_nat k = max_steps ->
  total core_ok (run_loop step_fn k r) (fun r' c => run_ended max_steps r' /\ core_ok c).
Proof.
  intros Hs Hm. revert n r. induction k as [|k IH]; intros n r Hr Hk; cbn [run_loop].
  { apply total_ret. intros c Hc. split; [|done]. destruct Hr as (Hq & Hc' & Hu & Hf & E).
    split; [done|]. rewrite E. replace max_steps with n by lia. done. }
  eapply total_seq; [exact Hs|]. intros f Hf.
  destruct (count_step_ok max_steps n f r Hf Hm Hr ltac:(lia)) as ([r' go] & E & H).
  eapply (total_seq _ core_ok (eq (r', go))).
  { apply total_lift. intros c Hc. by exists (r', go). }
  intros p <-. cbn [fst snd] in H. destruct go; [by apply (IH (n + 1)); [|lia]|].
  apply total_ret. by split.
Qed.

(** Reading a register does not change the machine. *)
Lemma reg_run i c : core_ok c -> reg_index i ->
  exists v, reg i c = Ret (v, c) /\ fits 32 v.
Proof.
  intros Hc Hi. destruct (safe_hle_reg i Hi c Hc) as (v & c' & E & Hv & _). exists v. split; [|done].
  rewrite E. destruct c as [s [cpu m]]. revert E. unfold reg, on_cpu, register_value, ArmState.reg, throw.
  cbn [fst snd]. destruct (Z.of_nat kRegisterCount <=? i); [done|].
  unfold mbind, exc_bind. destruct (array_at _ _); [|done]. by intros [= -> <-].
Qed.

(** What a run reports of the machine it leaves. *)
Definition run_report (max_steps : Z) (r : CoreSchedulerRunResult) (c : Core) : Prop :=
  run_ended max_steps r /\ reg kPc c = Ret (final_pc r, c) /\
  run_scheduler_cycles r = scheduler_cycles_ (sched c).

Lemma run_steps_ok step_fn max_steps : safe core_ok step_fn -> fits 32 max_steps ->
  total core_ok (run_steps_from_pc max_steps step_fn)
    (fun r c => run_report max_steps r c /\ core_ok c).
Proof.
  intros Hs Hm. unfold run_steps_from_pc. eapply total_seq; [apply safe_pc|]. intros pc _.
  eapply (total_seq _ core_ok (running max_steps 0)).
  { apply total_gets. intros c Hc. split; [|done]. by split_and!. }
  intros r Hr. eapply total_seq.
  { apply (run_loop_ok step_fn max_steps 0); try done. unfold fits in Hm. lia. }
  intros r' Hr' c Hc. destruct (reg_run kPc c Hc pc_index) as (v & E & _).
  eexists _, c. split; [unfold SCH; by rewrite (bind_Ret _ _ _ _ _ E)|]. split; [|done].
  by split_and!.
Qed.
