(* ===== verification/CoreSession.v ===== *)
(** * The core session

    [CoreSession] of [src/core/core_session.cpp]: the machine with its parts
    connected.  The components are those of the [Core] the scheduler runs on;
    the BIOS controller is the one the scheduler points to.  The IO callbacks
    the session installs on the bus are the constant [io_callbacks]. *)

From S2P Require Import Prelude StateHash StateMonad Interrupts Keypad BusTypes WaitState.
From S2P Require Timers PpuTiming MemoryBus.
From S2P Require Import Apu Dma IoRegisters DmaTransfer Bios.
From S2P Require Import ArmTypes ArmState ArmMemory.
From S2P Require Import SchedulerProbe SchedulerState SchedulerDevices HleServices SchedulerFetch.

(* @ core_session.hpp:83-96 CoreSession *)
Record CoreSession : Type := mkCoreSession {
  core_ : Core;
  state_generation_ : Z
}.
#[export] Instance eta_CoreSession : Eta CoreSession := fun s =>
  mkCoreSession (core_ s) (state_generation_ s).

(* @ core_session.hpp:20-33 CoreSessionState *)
Record CoreSessionState : Type := mkCoreSessionState {
  ss_cpu : Arm7tdmi;
  ss_memory : MemoryBus.MemoryBus;
  ss_interrupts : InterruptController;
  ss_timers : Timers.Timers;
  ss_dma : DmaController;
  ss_ppu : PpuTiming.PpuTiming;
  ss_apu : Apu;
  ss_bios : BiosController;
  ss_keypad : Keypad;
  ss_waitcnt : WaitStateControl;
  ss_io : IoRegistersState;
  ss_scheduler : CoreSchedulerState
}.

(** [bios_]: the scheduler of a session always points to one. *)
Definition bios_of (c : Core) : BiosController := default Bios.reset (bios_ (sched c)).

(** [serial_] of a constructed [IoRegisters]. *)
(* @ io_registers.hpp:75-75 IoRegisters::serial_ *)
Definition kSerialRegisters : nat := 7.

(** The devices as their constructors leave them. *)
(* @ core_session.cpp:30-45 CoreSession::CoreSession *)
Definition initial_devices : Devices :=
  mkDevices Interrupts.reset Timers.reset Dma.reset PpuTiming.reset Apu.reset WaitState.reset
    Keypad.reset (replicate kSerialRegisters 0) false 0.

(* @ core_session.cpp:30-45 CoreSession::CoreSession *)
Definition construct : CoreSession :=
  mkCoreSession
    (set_io_registers (construct_bios Bios.reset),
     (ArmState.reset, (MemoryBus.initial, initial_devices)))
    0.

(* @ core_session.cpp:86-88 CoreSession::memory *)
Definition memory_of (s : CoreSession) : MemoryBus.MemoryBus := bus_of (core_ s).

(** A change through the reference [memory()] returns. *)
(* @ core_session.cpp:82-84 CoreSession::memory *)
Definition set_memory (b : MemoryBus.MemoryBus) (s : CoreSession) : CoreSession :=
  s <| core_ ::= fun c => (c.1, (c.2.1, (b, c.2.2.2))) |>.

(** A change of one component. *)
Definition set_bios (mode : BiosExecutionMode.t) (c : Core) : Core :=
  (c.1 <| bios_ ::= fmap (Bios.set_mode mode) |>, c.2).
Definition set_cpu (cpu : Arm7tdmi) (c : Core) : Core := (c.1, (cpu, c.2.2)).

(* @ core_session.cpp:47-52 CoreSession::configure_for_game_boot *)
Definition configure_for_game_boot (s : CoreSession) : exc CoreSession :=
  let c := set_bios BiosExecutionMode.hle (core_ s) in
  let c := set_cpu (ArmState.set_cpsr 0x0000001F (cpu_of c)).2 c in
  '(_, c) ← (set_reg kPc 0x08000000;; set_reg 13 0x03007F00) c;
  Ret (s <| core_ := c |>).

(* @ core_session.cpp:54-72 CoreSession::reset *)
Definition reset (s : CoreSession) : CoreSession :=
  let '(sc, (_, (bus, d))) := core_ s in
  let bus :=
    MemoryBus.clear_game_pak_save (MemoryBus.clear_game_pak_rom (MemoryBus.reset bus)) in
  let d := mkDevices Interrupts.reset Timers.reset Dma.reset PpuTiming.reset Apu.reset
             WaitState.reset Keypad.reset (serial d) (sio_transfer_active d)
             (sio_transfer_cycles_remaining d) in
  let sc := sc <| bios_ ::= fmap (fun _ => Bios.reset) |> in
  mkCoreSession
    (set_io_registers (reset_scheduler_cycles sc),
     (ArmState.reset, (bus, IoRegisters.reset d)))
    (u64 (state_generation_ s + 1)).

(* @ core_session.cpp:158-160 CoreSession::step *)
Definition step (s : CoreSession) : exc (CoreSchedulerFetchStepResult * CoreSession) :=
  '(r, c) ← step_from_pc (core_ s); Ret (r, s <| core_ := c |>).

(* @ core_session.cpp:162-164 CoreSession::run *)
Definition run (max_steps : Z) (s : CoreSession) : exc (CoreSchedulerRunResult * CoreSession) :=
  '(r, c) ← run_from_pc max_steps (core_ s); Ret (r, s <| core_ := c |>).

(** [keypad_.poll_interrupt(interrupts_)] after a change of the keypad. *)
Definition set_keypad (k : Keypad) (s : CoreSession) : CoreSession :=
  s <| core_ ::= fun c =>
    (c.1, (c.2.1, (c.2.2.1,
       c.2.2.2 <| keypad := k |> <| interrupts ::= poll_interrupt k |>))) |>.

Definition keypad_of (s : CoreSession) : Keypad := keypad (devices_of (core_ s)).

(* @ core_session.cpp:166-169 CoreSession::press_button *)
Definition press_button (button : KeypadButton.t) (s : CoreSession) : CoreSession :=
  set_keypad (press button (keypad_of s)) s.

(* @ core_session.cpp:171-174 CoreSession::release_button *)
Definition release_button (button : KeypadButton.t) (s : CoreSession) : CoreSession :=
  set_keypad (release button (keypad_of s)) s.

(* @ core_session.cpp:176-182 CoreSession::set_input_mask *)
Definition set_input_mask (pressed_mask : Z) (s : CoreSession) : bool * CoreSession :=
  match set_pressed_mask pressed_mask (keypad_of s) with
  | (true, k) => (true, set_keypad k s)
  | (false, _) => (false, s)
  end.

(* @ core_session.cpp:184-189 CoreSession::save_state *)
Definition save_state (s : CoreSession) : CoreSessionState :=
  let c := core_ s in
  let d := devices_of c in
  mkCoreSessionState (cpu_of c) (bus_of c) (interrupts d) (timers_ d) (dma d) (ppu d) (apu d)
    (bios_of c) (keypad d) (waitcnt d) (IoRegisters.save_state d)
    (SchedulerState.save_state (sched c)).

(** The machine of a snapshot, with the rest of the scheduler [sc]. *)
(* @ core_session.cpp:191-207 CoreSession::load_state *)
Definition core_of_state (state : CoreSessionState) (sc : CoreScheduler) : Core :=
  let d := mkDevices (ss_interrupts state) (ss_timers state) (ss_dma state) (ss_ppu state)
             (ss_apu state) (ss_waitcnt state) (ss_keypad state) [] false 0 in
  (set_io_registers
     (SchedulerState.load_state (ss_scheduler state)
        (sc <| bios_ ::= fmap (fun _ => ss_bios state) |>)),
   (ss_cpu state, (ss_memory state, IoRegisters.load_state (ss_io state) d))).

(* @ core_session.cpp:191-207 CoreSession::load_state *)
Definition load_state (state : CoreSessionState) (s : CoreSession) : CoreSession :=
  mkCoreSession (core_of_state state (sched (core_ s))) (u64 (state_generation_ s + 1)).

(** ** Hashing *)

(** The hash of a machine; the flag selects the historical calculation of
    [snapshot_state_hash]. *)
(* @ core_session.cpp:213-228 CoreSession::state_hash *)
Definition machine_hash (legacy_word_hashes : bool) (bios : BiosController) (c : Core) : Z :=
  let d := devices_of c in
  let h := add_u64 (ArmState.state_hash (cpu_of c)) kOffsetBasis in
  let h := add_u64 (MemoryBus.state_hash (bus_of c)) h in
  let h := add_u64 (Interrupts.state_hash (interrupts d)) h in
  let h := add_u64 (Timers.state_hash (timers_ d)) h in
  let h := add_u64 (Dma.state_hash (dma d)) h in
  let h := add_u64 (PpuTiming.state_hash (ppu d)) h in
  let h := add_u64 (if legacy_word_hashes then legacy_wave_state_hash (apu d)
                    else Apu.state_hash (apu d)) h in
  let h := add_u8 (BiosExecutionMode.index (Bios.mode_ bios)) h in
  let h := add_u64 (Keypad.state_hash (keypad d)) h in
  let h := add_u64 (WaitState.state_hash (waitcnt d)) h in
  let h := add_u64 (IoRegisters.state_hash d) h in
  add_u64 (if legacy_word_hashes then legacy_irq_state_hash (sched c)
           else SchedulerState.state_hash (sched c)) h.

(* @ core_session.cpp:213-228 CoreSession::state_hash *)
Definition state_hash (s : CoreSession) : Z := machine_hash false (bios_of (core_ s)) (core_ s).

(* @ core_session.cpp:209-211 CoreSession::state_generation *)
Definition state_generation (s : CoreSession) : Z := state_generation_ s.
