(* ===== verification/CoreSessionSpec.v ===== *)
(** * The core session: its invariant

    [session_wf]: the machine of a session satisfies the invariant of the core.
    Construction, reset, boot and input establish or keep it, whatever was done
    before; the theorems about device time and waiting are stated for machines
    that satisfy it. *)

From S2P Require Import Prelude StateMonad StateHash Interrupts Keypad BusTypes WaitState.
From S2P Require Timers PpuTiming MemoryBus MemoryBusSpec TimersSpec PpuTimingSpec BusSafety.
From S2P Require Import Apu Dma IoRegisters DmaTransfer Bios.
From S2P Require Import ArmTypes ArmState ArmMemory BusInterface.
From S2P Require Import ArmSafety ArmTotal ArmMemorySafety ArmStepSafety.
From S2P Require Import ApuTyped IoRegistersSpec DmaTransferSpec.
From S2P Require Import SchedulerTiming SchedulerProbe SchedulerState SchedulerDevices.
From S2P Require Import SchedulerDevicesSpec SchedulerSafety SchedulerProbeSafety SchedulerWait.
From S2P Require Import SchedulerWaitSafety SchedulerIrqSafety.
From S2P Require Import HleServices HleSafety SchedulerFetch SchedulerFetchSafety CoreSession.

Definition session_wf (s : CoreSession) : Prop := core_ok (core_ s) /\ fits 64 (state_generation_ s).

(** ** The constructed machine *)

Lemma construct_scheduler_wf : scheduler_wf (set_io_registers (construct_bios Bios.reset)).
Proof. constructor; auto with sched; try done; constructor. Qed.

Lemma construct_wf : session_wf construct.
Proof.
  split; [|done]. split; [|exact construct_scheduler_wf].
  split; [exact wf_reset|]. split; [exact BusSafety.initial_wf|exact reset_devices_wf].
Qed.

(** ** Booting, resetting, input *)

Lemma set_bios_ok mode c : core_ok c -> core_ok (set_bios mode c).
Proof. intros [Hm Hs]. split; [done|]. revert Hs. sched_fields. Qed.

Lemma set_cpu_ok cpu c : core_ok c -> wf cpu -> core_ok (set_cpu cpu c).
Proof. intros [[_ Hm] Hs] Hc. by split. Qed.

Lemma boot_wf s : session_wf s -> ensures session_wf (configure_for_game_boot s).
Proof.
  intros [Hc Hg]. unfold configure_for_game_boot. cbv zeta.
  apply (set_bios_ok BiosExecutionMode.hle) in Hc. set (c0 := set_bios _ _) in *.
  assert (H : core_ok (set_cpu (ArmState.set_cpsr 0x0000001F (cpu_of c0)).2 c0)).
  { apply set_cpu_ok; [done|]. apply wf_set_cpsr, Hc. }
  eapply ensures_bind with (P := fun r : unit * Core => core_ok r.2).
  { match goal with |- ensures _ (?m _) => assert (Hm : safe core_ok m) end.
    { eapply safe_bind; [by apply safe_set_cpu_register; vm_compute|]. intros _ _.
      by apply safe_set_cpu_register; vm_compute. }
    destruct (Hm _ H) as (r & c' & E & _ & Hc'). exists (r, c'). by split. }
  intros [r c'] Hc'. by apply ensures_ret.
Qed.

Lemma session_reset_wf s : session_wf s -> session_wf (CoreSession.reset s).
Proof.
  destruct s as [[sc [cpu [b d]]] g]. intros [[[Hc [Hb Hd]] Hs] Hg].
  split; [|apply wrap_fits; lia]. split; [split; [exact wf_reset|split]|].
  - apply BusSafety.wf_clear_save, BusSafety.wf_clear_rom, BusSafety.wf_soft_reset, Hb.
  - destruct (dv_serial d Hd) as [Hn _]. pose proof reset_devices_wf as H.
    change (devices_wf (mkDevices Interrupts.reset Timers.reset Dma.reset PpuTiming.reset Apu.reset
      WaitState.reset Keypad.reset (replicate (length (serial d)) 0) false 0)).
    by rewrite Hn.
  - revert Hs. cbn. sched_fields.
Qed.

Lemma set_keypad_wf k s : session_wf s -> Keypad.wf k -> keycnt k = keycnt (keypad_of s) ->
  session_wf (set_keypad k s).
Proof.
  destruct s as [[sc [cpu [b d]]] g]. intros [[[Hc [Hb Hd]] Hs] Hg] Hk E.
  split; [|done]. split; [|done]. split; [done|]. split; [done|].
  assert (Hd' : devices_wf (d <| keypad := k |>)).
  { destruct Hd. constructor; try done. cbn. cbn in E. by rewrite E. }
  apply (wf_interrupts (poll_interrupt k (interrupts d)) _) in Hd'; [exact Hd'|].
  unfold poll_interrupt. case_match; [apply request_wf|]; apply Hd.
Qed.

Lemma session_keypad s : session_wf s -> Keypad.wf (keypad_of s).
Proof. intros [[[_ [_ Hd]] _] _]. apply Hd. Qed.

Lemma press_button_wf b s : session_wf s -> session_wf (press_button b s).
Proof. intros Hs. apply set_keypad_wf; [done|by apply press_wf, session_keypad|done]. Qed.

Lemma release_button_wf b s : session_wf s -> session_wf (release_button b s).
Proof. intros Hs. apply set_keypad_wf; [done|by apply release_wf, session_keypad|done]. Qed.

Lemma set_input_mask_wf m s : fits 16 m -> session_wf s -> session_wf (set_input_mask m s).2.
Proof.
  intros Hm Hs. unfold set_input_mask. destruct (set_pressed_mask m (keypad_of s)) as [[|] k] eqn:E; [|done].
  cbn [snd]. pose proof (session_keypad s Hs) as [_ Hk].
  rewrite set_pressed_mask_spec in E by apply Hm. case_decide as Hf; [|done]. injection E as <-.
  apply set_keypad_wf; [done|by split|done].
Qed.

(** ** Stepping and running *)

Lemma with_core_wf s c : session_wf s -> core_ok c -> session_wf (s <| core_ := c |>).
Proof. by intros [_ Hg]. Qed.

Lemma session_step_wf s : session_wf s ->
  exists r s', CoreSession.step s = Ret (r, s') /\ typed r /\ session_wf s'.
Proof.
  intros Hs. destruct (safe_step_from_pc (core_ s) (proj1 Hs)) as (r & c & E & Hr & Hc).
  exists r, (s <| core_ := c |>). unfold CoreSession.step. rewrite E. split; [done|].
  split; [done|by apply with_core_wf].
Qed.

Lemma run_wf n s : session_wf s -> fits 32 n ->
  exists r s', CoreSession.run n s = Ret (r, s') /\ session_wf s' /\ run_report n r (core_ s').
Proof.
  intros Hs Hn. destruct (run_steps_ok _ n safe_step_from_pc Hn (core_ s) (proj1 Hs)) as (r & c & E & Hr & Hc).
  exists r, (s <| core_ := c |>). unfold CoreSession.run, run_from_pc. rewrite E. split; [done|].
  split; [by apply with_core_wf|done].
Qed.

(** ** Memory and snapshots *)

Lemma set_memory_wf b s : session_wf s -> BusSafety.wf b -> session_wf (set_memory b s).
Proof. intros [[[Hc [_ Hd]] Hs] Hg] Hb. by split. Qed.

Lemma session_bus s : session_wf s -> BusSafety.wf (memory_of s).
Proof. by intros [[[_ [Hb _]] _] _]. Qed.

Lemma load_snapshot_wf s0 s : session_wf s0 -> session_wf s ->
  session_wf (load_state (save_state s0) s).
Proof.
  destruct s0 as [[sc [cpu [b d]]] g]. intros [[[Hc [Hb Hd]] Hs] _] [[_ Ht] _].
  split; [|apply wrap_fits; lia]. split; [split; [done|split]|].
  - exact Hb.
  - destruct Hd. by constructor.
  - apply SchedulerSafety.sw_observed in Ht. destruct Hs. by constructor.
Qed.

(** ** Every use of a session *)

(** The calls of a host: the session's own, the cartridge's and a restored
    snapshot of a session. *)
Inductive SessionCall : Type :=
  | call_reset | call_boot | call_step
  | call_run (max_steps : Z)
  | call_press (button : KeypadButton.t)
  | call_release (button : KeypadButton.t)
  | call_input (mask : Z)
  | call_load_rom (rom : list Z)
  | call_configure_save (type : MemoryBus.GamePakSaveType.t)
  | call_import_save (type : MemoryBus.GamePakSaveType.t) (data : list Z)
  | call_restore (source : CoreSession).

(** Arguments of their C++ types; a snapshot is that of a well-formed session. *)
Definition call_ok (c : SessionCall) : Prop :=
  match c with
  | call_run n => fits 32 n
  | call_input m => fits 16 m
  | call_load_rom l | call_import_save _ l => MemoryBusSpec.bytes_ok l
  | call_restore s => session_wf s
  | _ => True
  end.

Definition session_call (c : SessionCall) (s : CoreSession) : exc CoreSession :=
  match c with
  | call_reset => Ret (CoreSession.reset s)
  | call_boot => configure_for_game_boot s
  | call_step => snd <$> CoreSession.step s
  | call_run n => snd <$> CoreSession.run n s
  | call_press b => Ret (press_button b s)
  | call_release b => Ret (release_button b s)
  | call_input m => Ret (set_input_mask m s).2
  | call_load_rom l => Ret (set_memory (MemoryBus.load_game_pak_rom l (memory_of s)).2 s)
  | call_configure_save t =>
      Ret (set_memory (MemoryBus.configure_game_pak_save t (memory_of s)).2 s)
  | call_import_save t l =>
      Ret (set_memory (MemoryBus.import_game_pak_save t l (memory_of s)).2 s)
  | call_restore source => Ret (load_state (save_state source) s)
  end.

Fixpoint session_calls (l : list SessionCall) (s : CoreSession) : exc CoreSession :=
  match l with
  | [] => Ret s
  | c :: l => s ← session_call c s; session_calls l s
  end.

Lemma session_call_wf c s : call_ok c -> session_wf s -> ensures session_wf (session_call c s).
Proof.
  intros Hc Hs. pose proof (session_bus s Hs) as Hb. destruct c; cbn [session_call]; cbn in Hc.
  - by apply ensures_ret, session_reset_wf.
  - by apply boot_wf.
  - destruct (session_step_wf s Hs) as (r & s' & -> & _ & H). by apply ensures_ret.
  - destruct (run_wf max_steps s Hs Hc) as (r & s' & -> & H & _). by apply ensures_ret.
  - by apply ensures_ret, press_button_wf.
  - by apply ensures_ret, release_button_wf.
  - by apply ensures_ret, set_input_mask_wf.
  - by apply ensures_ret, set_memory_wf; [|apply BusSafety.wf_load_rom].
  - by apply ensures_ret, set_memory_wf; [|apply BusSafety.wf_configure].
  - by apply ensures_ret, set_memory_wf; [|apply BusSafety.wf_import].
  - by apply ensures_ret, load_snapshot_wf.
Qed.

Lemma session_calls_wf l s : Forall call_ok l -> session_wf s ->
  ensures session_wf (session_calls l s).
Proof.
  intros Hl. revert s. induction Hl as [|c l Hc _ IH]; intros s Hs; cbn [session_calls].
  { by apply ensures_ret. }
  apply (ensures_bind _ _ _ _ (session_call_wf c s Hc Hs)). exact IH.
Qed.


(** Little-endian words. *)
Definition words_le (l : list Z) : list Z :=
  concat (map (fun w => map (fun k => u8 (Z.shiftr w (8 * k))) [0; 1; 2; 3]) l).

(** [add r0, r0, #1] and a branch back to it, in a cartridge of 256 bytes. *)
Definition tiny_loop : list Z :=
  words_le [0xE2800001; 0xEAFFFFFD] ++ replicate 248 0.


(** ** Device time *)

(** C3: Advancing the devices always ends, whatever transfers the display, the
    audio FIFOs and those transfers themselves trigger on the way: the cycles
    still to run, the budget of chained transfers and the bus time form a
    measure that every interval decreases.  The processor is left alone, the
    machine stays well formed, the result reports the cycles asked for, and
    the clock moves on by exactly those and the bus cycles of the transfers
    it reports. *)
Theorem advance_devices_total n c : core_ok c -> fits 32 n ->
  exists r c', advance_devices n c = Ret (r, c') /\ core_ok c' /\ cpu_of c' = cpu_of c /\
    dt_cycles r = n /\
    scheduler_cycles_ (sched c') =
      u64 (scheduler_cycles_ (sched c) + u32 (n + bus_cycles (triggered_dma r))).
Proof.
  intros Hc Hn. destruct (advance_devices_run n c Hc Hn) as (r & c' & E & _ & Hc' & Hcpu & Hd & Hk).
  exists r, c'. by split_and!.
Qed.

(** Two frames on the constructed machine. *)
Lemma advance_devices_total_witness :
  exists r c', advance_devices 561792 (core_ construct) = Ret (r, c') /\ core_ok c' /\
    dt_cycles r = 561792.
Proof.
  destruct (advance_devices_total 561792 (core_ construct) (proj1 construct_wf) ltac:(done))
    as (r & c' & E & Hc' & _ & Hd & _).
  exists r, c'. split; [exact E|]. split; [exact Hc'|exact Hd].
Defined.

(** C4: Waiting for an interrupt ends.  The wait runs batches of at least one
    cycle while the flag is clear, and stops at the first batch boundary where
    a watched flag is up, showing the line to the processor, or after exactly
    two frames of cycles if none comes; its result tells which.  With the mask
    empty it returns at once. *)
Theorem wait_for_interrupt_ends mask discard c : core_ok c ->
  exists b c', wait_for_interrupt_mask mask discard c = Ret (b, c') /\ core_ok c' /\
    if mask =? 0 then b = false /\ c' = c
    else b = flags_match mask c' /\ waited mask (wait_start mask discard c) b c'.
Proof.
  intros Hc. destruct (Z.eqb_spec mask 0) as [->|Hm].
  - exists false, c. split; [reflexivity|]. split; [exact Hc|]. by split.
  - exact (wait_run mask discard c Hc Hm).
Qed.

(** Waiting for the vertical blank on the constructed machine. *)
Lemma wait_for_interrupt_ends_witness :
  exists b c', wait_for_interrupt_mask 1 true (core_ construct) = Ret (b, c') /\ core_ok c' /\
    b = flags_match 1 c'.
Proof.
  destruct (wait_for_interrupt_ends 1 true (core_ construct) (proj1 construct_wf))
    as (b & c' & E & Hc' & Hb & _).
  exists b, c'. split; [exact E|]. split; [exact Hc'|exact Hb].
Defined.
