(* ===== verification/ProgramHarness.v ===== *)
(** * The program harness and the compatibility corpus

    [src/core/program_harness.cpp] runs a program on a session and compares
    what it left with what was expected; [src/core/compatibility_corpus.cpp]
    runs a list of fixtures, each on a session of its own, and combines their
    results into one hash.  A throw of the session leaves both functions. *)

From Stdlib Require Import String.
From S2P Require Import Prelude StateHash StateMonad Interrupts Keypad BusTypes WaitState.
From S2P Require Timers PpuTiming MemoryBus.
From S2P Require Import Apu Dma IoRegisters DmaTransfer Bios.
From S2P Require Import ArmTypes ArmState ArmMemory.
From S2P Require Import SchedulerProbe SchedulerState SchedulerDevices HleServices SchedulerFetch.
From S2P Require Import CoreSession.

(** ** Data *)

Module ProgramHarnessStatus.
(* @ program_harness.hpp:14-24 ProgramHarnessStatus *)
Inductive t : Type :=
  | passed | empty_rom | rom_load_rejected | unloaded_rom | invalid_header
  | stop_reason_mismatch | final_pc_mismatch | register_mismatch | state_hash_mismatch.

#[export] Instance eq_dec : EqDecision t.
Proof. solve_decision. Defined.

(** [static_cast<std::uint8_t>(status)]. *)
(* @ program_harness.hpp:14-24 ProgramHarnessStatus *)
Definition index (s : t) : Z :=
  match s with
  | passed => 0 | empty_rom => 1 | rom_load_rejected => 2 | unloaded_rom => 3
  | invalid_header => 4 | stop_reason_mismatch => 5 | final_pc_mismatch => 6
  | register_mismatch => 7 | state_hash_mismatch => 8
  end.
End ProgramHarnessStatus.
Export (hints) ProgramHarnessStatus.

#[export] Instance stop_reason_eq_dec : EqDecision CoreRunStopReason.t.
Proof. solve_decision. Defined.

(* @ program_harness.hpp:26-29 RegisterExpectation *)
Record RegisterExpectation : Type := mkRegisterExpectation {
  re_index : Z;
  re_value : Z
}.

(* @ program_harness.hpp:31-36 ProgramExpectedState *)
Record ProgramExpectedState : Type := mkProgramExpectedState {
  ex_stop_reason : CoreRunStopReason.t;
  ex_final_pc : option Z;
  ex_registers : list RegisterExpectation;
  ex_state_hash : option Z
}.

(* @ program_harness.hpp:38-44 LoadedProgramRunSpec *)
Record LoadedProgramRunSpec : Type := mkLoadedProgramRunSpec {
  entry_pc : Z;
  spec_max_steps : Z;
  require_valid_header : bool;
  waitcnt_control : Z;
  expected : ProgramExpectedState
}.

(* @ program_harness.hpp:46-49 ProgramRunSpec *)
Record ProgramRunSpec : Type := mkProgramRunSpec {
  spec_rom : list Z;
  spec_loaded : LoadedProgramRunSpec
}.

(* @ program_harness.hpp:51-64 ProgramHarnessResult *)
Record ProgramHarnessResult : Type := mkProgramHarnessResult {
  hr_status : ProgramHarnessStatus.t;
  hr_stop_reason : CoreRunStopReason.t;
  hr_attempted_steps : Z;
  hr_executed_steps : Z;
  hr_unsupported_steps : Z;
  hr_fetch_failures : Z;
  hr_final_pc : Z;
  hr_scheduler_cycles : Z;
  hr_state_hash : Z;
  hr_failed_register : option Z;
  hr_expected_value : option Z;
  hr_actual_value : option Z
}.

#[export] Instance eta_ProgramHarnessResult : Eta ProgramHarnessResult := fun r =>
  mkProgramHarnessResult (hr_status r) (hr_stop_reason r) (hr_attempted_steps r)
    (hr_executed_steps r) (hr_unsupported_steps r) (hr_fetch_failures r) (hr_final_pc r)
    (hr_scheduler_cycles r) (hr_state_hash r) (hr_failed_register r) (hr_expected_value r)
    (hr_actual_value r).

(** ** The harness *)

(** [ProgramHarnessResult{}]: the initializers of the members. *)
(* @ program_harness.hpp:51-64 ProgramHarnessResult *)
Definition blank_result : ProgramHarnessResult :=
  mkProgramHarnessResult ProgramHarnessStatus.passed CoreRunStopReason.max_steps
    0 0 0 0 0 0 0 None None None.

(* @ program_harness.cpp:10-14 make_status *)
Definition make_status (status : ProgramHarnessStatus.t) : ProgramHarnessResult :=
  blank_result <| hr_status := status |>.

(* @ program_harness.cpp:16-19 header_is_valid *)
Definition header_is_valid (s : CoreSession) : bool :=
  match MemoryBus.game_pak_header (memory_of s) with
  | Some header => MemoryBus.fixed_value_valid header
  | None => false
  end.

(** [session.cpu().register_value(index)]. *)
Definition cpu_register (index : Z) (s : CoreSession) : exc Z :=
  '(v, _) ← ArmState.register_value index (cpu_of (core_ s)); Ret v.

(** The loop over the expected registers: the first that differs. *)
(* @ program_harness.cpp:47-57 evaluate_expected *)
Fixpoint first_mismatch (l : list RegisterExpectation) (s : CoreSession)
    : exc (option (RegisterExpectation * Z)) :=
  match l with
  | [] => Ret None
  | expected :: l =>
      actual ← cpu_register (re_index expected) s;
      if negb (actual =? re_value expected) then Ret (Some (expected, actual))
      else first_mismatch l s
  end.

(** What the run left, before it is judged. *)
(* @ program_harness.cpp:24-32 evaluate_expected *)
Definition report (s : CoreSession) (run_result : CoreSchedulerRunResult) : ProgramHarnessResult :=
  mkProgramHarnessResult ProgramHarnessStatus.passed (stop_reason run_result)
    (attempted_steps run_result) (executed_steps run_result) (unsupported_steps run_result)
    (fetch_failures run_result) (final_pc run_result) (run_scheduler_cycles run_result)
    (state_hash s) None None None.

(** [expected.has_value() && actual != expected.value()]. *)
Definition differs (expected : option Z) (actual : Z) : option Z :=
  match expected with
  | Some e => if actual =? e then None else Some e
  | None => None
  end.

(* @ program_harness.cpp:21-66 evaluate_expected *)
Definition evaluate_expected (s : CoreSession) (spec : LoadedProgramRunSpec)
    (run_result : CoreSchedulerRunResult) : exc ProgramHarnessResult :=
  let result := report s run_result in
  let ex := expected spec in
  if negb (bool_decide (stop_reason run_result = ex_stop_reason ex)) then
    Ret (result <| hr_status := ProgramHarnessStatus.stop_reason_mismatch |>)
  else
    match differs (ex_final_pc ex) (final_pc run_result) with
    | Some pc =>
        Ret (result <| hr_status := ProgramHarnessStatus.final_pc_mismatch |>
                    <| hr_expected_value := Some pc |>
                    <| hr_actual_value := Some (final_pc run_result) |>)
    | None =>
        mismatch ← first_mismatch (ex_registers ex) s;
        match mismatch with
        | Some (e, actual) =>
            Ret (result <| hr_status := ProgramHarnessStatus.register_mismatch |>
                        <| hr_failed_register := Some (re_index e) |>
                        <| hr_expected_value := Some (re_value e) |>
                        <| hr_actual_value := Some actual |>)
        | None =>
            Ret (result <| hr_status :=
                   if bool_decide (is_Some (differs (ex_state_hash ex) (hr_state_hash result)))
                   then ProgramHarnessStatus.state_hash_mismatch
                   else ProgramHarnessStatus.passed |>)
        end
    end.

(** [session.waitcnt().write_control(...)] and [session.cpu().set_register(...)]. *)
(* @ program_harness.cpp:84-85 run_loaded_legal_program *)
Definition prepare (spec : LoadedProgramRunSpec) (s : CoreSession) : exc CoreSession :=
  let c := core_ s in
  let c := (c.1, (c.2.1, (c.2.2.1,
              c.2.2.2 <| waitcnt ::= WaitState.write_control (waitcnt_control spec) |>))) in
  '(_, cpu) ← ArmState.set_register kPc (entry_pc spec) (cpu_of c);
  Ret (s <| core_ := set_cpu cpu c |>).

(* @ program_harness.cpp:70-88 run_loaded_legal_program *)
Definition run_loaded_legal_program (spec : LoadedProgramRunSpec) (s : CoreSession)
    : exc (ProgramHarnessResult * CoreSession) :=
  if negb (MemoryBus.has_game_pak_rom (memory_of s)) then
    Ret (make_status ProgramHarnessStatus.unloaded_rom, s)
  else if negb (bool_decide (is_Some (read16 (entry_pc spec) (core_ s)))) then
    Ret (make_status ProgramHarnessStatus.unloaded_rom, s)
  else if require_valid_header spec && negb (header_is_valid s) then
    Ret (make_status ProgramHarnessStatus.invalid_header, s)
  else
    s ← prepare spec s;
    '(run_result, s) ← run (spec_max_steps spec) s;
    result ← evaluate_expected s spec run_result;
    Ret (result, s).

(* @ program_harness.cpp:90-102 run_legal_program *)
Definition run_legal_program (spec : ProgramRunSpec) (s : CoreSession)
    : exc (ProgramHarnessResult * CoreSession) :=
  if bool_decide (spec_rom spec = []) then Ret (make_status ProgramHarnessStatus.empty_rom, s)
  else
    let s := CoreSession.reset s in
    match MemoryBus.load_game_pak_rom (spec_rom spec) (memory_of s) with
    | (false, _) => Ret (make_status ProgramHarnessStatus.rom_load_rejected, s)
    | (true, b) => run_loaded_legal_program (spec_loaded spec) (set_memory b s)
    end.

(** ** The corpus *)

Module FixtureLicenseStatus.
(* @ compatibility_corpus.hpp:11-16 FixtureLicenseStatus *)
Inductive t : Type := accepted | missing_license | nonredistributable | empty_rom.
#[export] Instance eq_dec : EqDecision t.
Proof. solve_decision. Defined.
End FixtureLicenseStatus.
Export (hints) FixtureLicenseStatus.

(* @ compatibility_corpus.hpp:18-24 CompatibilityFixture *)
Record CompatibilityFixture : Type := mkCompatibilityFixture {
  fx_name : string;
  fx_license : string;
  fx_redistributable : bool;
  fx_rom : list Z;
  fx_run_spec : LoadedProgramRunSpec
}.

(* @ compatibility_corpus.hpp:32-36 CompatibilityFixtureResult *)
Record CompatibilityFixtureResult : Type := mkCompatibilityFixtureResult {
  fr_name : string;
  fr_license_status : FixtureLicenseStatus.t;
  fr_harness : ProgramHarnessResult
}.

(* @ compatibility_corpus.hpp:38-45 CompatibilityCorpusResult *)
Record CompatibilityCorpusResult : Type := mkCompatibilityCorpusResult {
  fixtures_seen : Z;
  fixtures_run : Z;
  fixtures_passed : Z;
  fixtures_rejected : Z;
  combined_state_hash : Z;
  corpus_results : list CompatibilityFixtureResult
}.

#[export] Instance eta_CompatibilityCorpusResult : Eta CompatibilityCorpusResult := fun r =>
  mkCompatibilityCorpusResult (fixtures_seen r) (fixtures_run r) (fixtures_passed r)
    (fixtures_rejected r) (combined_state_hash r) (corpus_results r).

(* @ compatibility_corpus.cpp:8-19 validate_fixture_license *)
Definition validate_fixture_license (fixture : CompatibilityFixture) : FixtureLicenseStatus.t :=
  if bool_decide (fx_rom fixture = []) then FixtureLicenseStatus.empty_rom
  else if (fx_license fixture =? EmptyString)%string then FixtureLicenseStatus.missing_license
  else if negb (fx_redistributable fixture) then FixtureLicenseStatus.nonredistributable
  else FixtureLicenseStatus.accepted.

(** The three values of a run that enter the combined hash. *)
(* @ compatibility_corpus.cpp:46-48 run_compatibility_corpus *)
Definition combine_run (h : ProgramHarnessResult) (hash : Z) : Z :=
  add_u8 (ProgramHarnessStatus.index (hr_status h))
    (add_u32 (hr_final_pc h) (add_u64 (hr_state_hash h) hash)).

(** One fixture, with the hasher [combined]. *)
(* @ compatibility_corpus.cpp:26-50 run_compatibility_corpus *)
Definition corpus_step (fixture : CompatibilityFixture)
    (st : CompatibilityCorpusResult * Z) : exc (CompatibilityCorpusResult * Z) :=
  let '(corpus, combined) := st in
  let corpus := corpus <| fixtures_seen ::= fun n => u32 (n + 1) |> in
  let status := validate_fixture_license fixture in
  if negb (bool_decide (status = FixtureLicenseStatus.accepted)) then
    Ret (corpus <| fixtures_rejected ::= fun n => u32 (n + 1) |>
                <| corpus_results ::= fun l =>
                     l ++ [mkCompatibilityFixtureResult (fx_name fixture) status blank_result] |>,
         combined)
  else
    '(harness, _) ←
      run_legal_program (mkProgramRunSpec (fx_rom fixture) (fx_run_spec fixture)) construct;
    let corpus := corpus <| fixtures_run ::= fun n => u32 (n + 1) |> in
    let corpus :=
      if bool_decide (hr_status harness = ProgramHarnessStatus.passed)
      then corpus <| fixtures_passed ::= fun n => u32 (n + 1) |> else corpus in
    Ret (corpus <| corpus_results ::= fun l =>
           l ++ [mkCompatibilityFixtureResult (fx_name fixture) status harness] |>,
         combine_run harness combined).

(* @ compatibility_corpus.cpp:26-50 run_compatibility_corpus *)
Fixpoint corpus_loop (fixtures : list CompatibilityFixture) (st : CompatibilityCorpusResult * Z)
    : exc (CompatibilityCorpusResult * Z) :=
  match fixtures with
  | [] => Ret st
  | fixture :: fixtures => st ← corpus_step fixture st; corpus_loop fixtures st
  end.

(* @ compatibility_corpus.cpp:21-54 run_compatibility_corpus *)
Definition run_compatibility_corpus (fixtures : list CompatibilityFixture)
    : exc CompatibilityCorpusResult :=
  '(corpus, combined) ←
    corpus_loop fixtures (mkCompatibilityCorpusResult 0 0 0 0 0 [], kOffsetBasis);
  Ret (corpus <| combined_state_hash := combined |>).
