(* ===== verification/AndroidRuntime.v ===== *)
(** * The frame runtime

    [AndroidRuntime] of [src/core/android_runtime.cpp] (the [EmulatorRuntime] of
    the hosts): a session with a picture and a batch of sound, driven one frame
    at a time.  The scanline observer of the scheduler renders each visible
    line when the display passes it; a frame is published when all its lines
    were seen in order.

    The observer runs inside the scheduler and changes only the runtime; the
    scheduler's trace of its calls, with the machine each call saw, is handed
    to [capture_scanline] after the step.  The loop of [step_frame] runs until
    the clock reaches the end of the frame: [frame_loop] takes fuel and says
    whether it ended. *)

From Stdlib Require Import SpecFloat.
From S2P Require Import Prelude StateHash StateMonad Interrupts Keypad BusTypes WaitState.
From S2P Require Timers PpuTiming MemoryBus PpuRenderer ArmState.
From S2P Require Import Apu Dma IoRegisters DmaTransfer Bios ArmTypes.
From S2P Require Import SchedulerProbe SchedulerState SchedulerDevices HleServices SchedulerFetch.
From S2P Require Import CoreSession.
Import PpuTiming (PpuRenderControl, mkPpuRenderControl, dispcnt).

(** ** Data *)

Module AndroidRuntimeStatus.
(* @ android_runtime.hpp:13-18 AndroidRuntimeStatus *)
Inductive t : Type := ok | invalid_argument | rom_rejected | input_rejected.
#[export] Instance eq_dec : EqDecision t.
Proof. solve_decision. Defined.
End AndroidRuntimeStatus.
Export (hints) AndroidRuntimeStatus.

(* @ android_runtime.hpp:20-36 AndroidRuntimeFrameResult *)
Record AndroidRuntimeFrameResult : Type := mkAndroidRuntimeFrameResult {
  fr_status : AndroidRuntimeStatus.t;
  fr_run : CoreSchedulerRunResult;
  rendered_scanlines : Z;
  fr_audio_samples : Z;
  audio_underruns : Z;
  frame_complete : bool;
  fr_state_hash : Z;
  scheduler_cycles_delta : Z
}.

(* @ core_scheduler.hpp:85-95 CoreSchedulerRunResult *)
Definition no_run : CoreSchedulerRunResult :=
  mkCoreSchedulerRunResult 0 0 0 0 0 0 CoreRunStopReason.max_steps 0 0.

(* @ android_runtime.cpp:228-230 AndroidRuntime::step_frame_with_fetch_trace *)
Definition rejected_frame : AndroidRuntimeFrameResult :=
  mkAndroidRuntimeFrameResult AndroidRuntimeStatus.invalid_argument no_run 0 0 0 false 0 0.

(* @ android_runtime.hpp:38-42 AndroidRuntimeFetchTraceEntry *)
Record AndroidRuntimeFetchTraceEntry : Type := mkAndroidRuntimeFetchTraceEntry {
  te_pc : Z;
  te_insn : Z;
  te_thumb : bool
}.

(* @ android_runtime.hpp:44-60 AndroidRuntimeUnsupportedDump *)
Record AndroidRuntimeUnsupportedDump : Type := mkAndroidRuntimeUnsupportedDump {
  dp_final_pc : Z;
  dp_raw_insn : Z;
  dp_thumb : bool;
  dp_cpu_mode : Z;
  dp_cpsr : Z;
  dp_irq_spsr : option Z;
  dp_hle_irq_return_lr_set : bool;
  dp_hle_irq_return_lr : Z;
  dp_user_irq_handler : option Z;
  dp_ime : Z;
  dp_ie : Z;
  dp_interrupt_flags : Z;
  dp_dispcnt : Z;
  recent_fetches : list AndroidRuntimeFetchTraceEntry;
  fetch_trace_count : Z
}.
#[export] Instance eta_UnsupportedDump : Eta AndroidRuntimeUnsupportedDump := fun d =>
  mkAndroidRuntimeUnsupportedDump (dp_final_pc d) (dp_raw_insn d) (dp_thumb d) (dp_cpu_mode d)
    (dp_cpsr d) (dp_irq_spsr d) (dp_hle_irq_return_lr_set d) (dp_hle_irq_return_lr d)
    (dp_user_irq_handler d) (dp_ime d) (dp_ie d) (dp_interrupt_flags d) (dp_dispcnt d)
    (recent_fetches d) (fetch_trace_count d).

(** [dump->recent_fetches.size()]. *)
(* @ android_runtime.hpp:58-58 AndroidRuntimeUnsupportedDump::recent_fetches *)
Definition kRecentFetches : Z := 8.

(* @ android_runtime.hpp:62-73 AndroidRuntimeVideoDiagnostics *)
Record AndroidRuntimeVideoDiagnostics : Type := mkAndroidRuntimeVideoDiagnostics {
  vd_dispcnt : Z;
  vd_forced_blank : bool;
  bg_enabled_mask : Z;
  non_zero_pixel_count : Z;
  sample_rgb565 : Z;
  unique_color_count : Z;
  dominant_color_rgb565 : Z;
  dominant_color_ratio : spec_float;
  framebuffer_crc32 : Z;
  uniform_backdrop : bool
}.

(* @ android_runtime.hpp:75-112 AndroidRuntime *)
Record AndroidRuntime : Type := mkAndroidRuntime {
  session_ : CoreSession;
  renderer_ : list Z;
  accumulating_renderer_ : list Z;
  presentation_generation_ : Z;
  presentation_cycles_ : Z;
  next_scanline_ : Z;
  supported_scanlines_ : Z;
  raster_ready_ : bool;
  render_control_ : PpuRenderControl;
  last_audio_batch_ : list ApuMixedSample;
  color_histogram_scratch_ : list Z;
  state_hash_enabled_ : bool
}.
#[export] Instance eta_AndroidRuntime : Eta AndroidRuntime := fun r =>
  mkAndroidRuntime (session_ r) (renderer_ r) (accumulating_renderer_ r)
    (presentation_generation_ r) (presentation_cycles_ r) (next_scanline_ r)
    (supported_scanlines_ r) (raster_ready_ r) (render_control_ r) (last_audio_batch_ r)
    (color_histogram_scratch_ r) (state_hash_enabled_ r).

(** [render_control_{0, {0, 0, 0, 0}, ...}]: the members not listed have their
    default. *)
(* @ android_runtime.cpp:91-92 AndroidRuntime::AndroidRuntime *)
Definition initial_render_control : PpuRenderControl :=
  let zeros := [0; 0; 0; 0] in
  mkPpuRenderControl 0 zeros zeros zeros 0 0 0 0 0x003F 0x003F 0 0 0 zeros zeros zeros zeros
    zeros zeros 0.

(* @ android_runtime.cpp:91-92 AndroidRuntime::AndroidRuntime *)
Definition construct : AndroidRuntime :=
  mkAndroidRuntime CoreSession.construct (PpuRenderer.clear 0) (PpuRenderer.clear 0) 0 0 0 0 false
    initial_render_control [] [] false.

(** ** Diagnostics of a picture *)

(** One bit of the CRC. *)
(* @ android_runtime.cpp:23-24 crc32_rgb565_framebuffer *)
Definition crc_bit (crc : Z) : Z :=
  let mask := u32 (- Z.land crc 1) in
  Z.lxor (Z.shiftr crc 1) (Z.land 0xEDB88320 mask).

(* @ android_runtime.cpp:16-28 crc32_rgb565_framebuffer *)
Definition crc32_rgb565_framebuffer (framebuffer : list Z) : Z :=
  let crc := fold_left (fun crc pixel => Nat.iter 16 crc_bit (Z.lxor crc pixel)) framebuffer
               0xFFFFFFFF in
  Z.lxor crc 0xFFFFFFFF.

(** [1U << 16]: the histogram has an entry per colour. *)
(* @ android_runtime.cpp:41-45 analyze_framebuffer *)
Definition kHistogramSize : nat := Z.to_nat 0x10000.

(** The histogram and what the pass over the pixels finds. *)
(* @ android_runtime.cpp:46-61 analyze_framebuffer *)
Record Histogram : Type := mkHistogram {
  color_counts : list Z;
  hg_non_zero : Z;
  max_count : Z;
  dominant_color : Z
}.

(* @ android_runtime.cpp:49-60 analyze_framebuffer *)
Definition count_pixel (h : Histogram) (pixel : Z) : exc Histogram :=
  count ← array_at (color_counts h) (Z.to_nat pixel);
  let next := u32 (count + 1) in
  counts ← array_put (color_counts h) (Z.to_nat pixel) next;
  let non_zero := if negb (pixel =? 0) then u32 (hg_non_zero h + 1) else hg_non_zero h in
  Ret (if max_count h <? next then mkHistogram counts non_zero next pixel
       else mkHistogram counts non_zero (max_count h) (dominant_color h)).

(* @ android_runtime.cpp:49-60 analyze_framebuffer *)
Fixpoint count_pixels (framebuffer : list Z) (h : Histogram) : exc Histogram :=
  match framebuffer with
  | [] => Ret h
  | pixel :: framebuffer' => h ← count_pixel h pixel; count_pixels framebuffer' h
  end.

(** [static_cast<float>(n)], and [0.99F]. *)
Definition float_of (n : Z) : spec_float := binary_normalize 24 128 n 0 false.
(* @ android_runtime.cpp:84-84 analyze_framebuffer *)
Definition kUniformRatio : spec_float := binary_normalize 24 128 16609444 (-24) false.

(** The pixel in the middle of the screen. *)
(* @ android_runtime.cpp:76-79 analyze_framebuffer *)
Definition center_index : nat :=
  Z.to_nat ((PpuRenderer.kScreenHeight / 2) * PpuRenderer.kScreenWidth +
            PpuRenderer.kScreenWidth / 2).

(** The diagnostics and the scratch histogram, zeroed and counted anew. *)
(* @ android_runtime.cpp:30-87 analyze_framebuffer *)
Definition analyze_framebuffer (framebuffer : list Z) (control : PpuRenderControl)
    : exc (AndroidRuntimeVideoDiagnostics * list Z) :=
  h ← count_pixels framebuffer (mkHistogram (replicate kHistogramSize 0) 0 0 0);
  let unique :=
    fold_left (fun unique count => if 0 <? count then u32 (unique + 1) else unique)
      (color_counts h) 0 in
  let ratio := SFdiv 24 128 (float_of (max_count h)) (float_of PpuRenderer.kFramebufferPixels) in
  sample ← array_at framebuffer center_index;
  Ret (mkAndroidRuntimeVideoDiagnostics (dispcnt control) (has (dispcnt control) 0x0080)
         (u8 (Z.land (Z.shiftr (dispcnt control) 8) 0x1F)) (hg_non_zero h) sample unique
         (dominant_color h) ratio (crc32_rgb565_framebuffer framebuffer)
         ((unique <=? 1) || (SFleb kUniformRatio ratio && (dominant_color h =? sample))),
       color_counts h).

(** ** Loading and input *)

(* @ android_runtime.cpp:94-99 AndroidRuntime::reset *)
Definition reset (r : AndroidRuntime) : AndroidRuntimeStatus.t * AndroidRuntime :=
  (AndroidRuntimeStatus.ok,
   r <| session_ ::= CoreSession.reset |> <| renderer_ := PpuRenderer.clear 0 |>
     <| last_audio_batch_ := [] |>).

(** Loading a cartridge into a session, with the backup it is detected to
    have; the statement is shared by the runtime and the bridge. *)
(* @ android_runtime.cpp:105-117 AndroidRuntime::load_rom *)
Definition load_cartridge (rom : list Z) (s : CoreSession) : exc (bool * CoreSession) :=
  let s := CoreSession.reset s in
  match MemoryBus.load_game_pak_rom rom (memory_of s) with
  | (false, b) => Ret (false, set_memory b s)
  | (true, b) =>
      let configured_save := default MemoryBus.GamePakSaveType.none (MemoryBus.detect_game_pak_save_type b) in
      match MemoryBus.configure_game_pak_save configured_save b with
      | (false, b) => Ret (false, CoreSession.reset (set_memory b s))
      | (true, b) => s ← configure_for_game_boot (set_memory b s); Ret (true, s)
      end
  end.

(* @ android_runtime.cpp:101-122 AndroidRuntime::load_rom *)
Definition load_rom (rom : list Z) (r : AndroidRuntime)
    : exc (AndroidRuntimeStatus.t * AndroidRuntime) :=
  if bool_decide (rom = []) then Ret (AndroidRuntimeStatus.invalid_argument, r)
  else
    '(loaded, s) ← load_cartridge rom (session_ r);
    let r := r <| session_ := s |> in
    if negb (loaded : bool) then Ret (AndroidRuntimeStatus.rom_rejected, r)
    else
      control ← PpuTiming.render_control (ppu (devices_of (core_ s)));
      Ret (AndroidRuntimeStatus.ok,
           r <| renderer_ := PpuRenderer.clear 0 |> <| last_audio_batch_ := [] |>
             <| render_control_ := control |>).

(* @ android_runtime.cpp:124-131 AndroidRuntime::set_button_mask *)
Definition set_button_mask (pressed_mask : Z) (r : AndroidRuntime)
    : AndroidRuntimeStatus.t * AndroidRuntime :=
  match set_input_mask pressed_mask (session_ r) with
  | (true, s) => (AndroidRuntimeStatus.ok, r <| session_ := s |>)
  | (false, s) => (AndroidRuntimeStatus.input_rejected, r <| session_ := s |>)
  end.

(* @ android_runtime.cpp:133-135 AndroidRuntime::set_render_control *)
Definition set_render_control (control : PpuRenderControl) (r : AndroidRuntime) : AndroidRuntime :=
  r <| render_control_ := control |>.

(* @ android_runtime.cpp:137-139 AndroidRuntime::set_state_hash_enabled *)
Definition set_state_hash_enabled (enabled : bool) (r : AndroidRuntime) : AndroidRuntime :=
  r <| state_hash_enabled_ := enabled |>.

(* @ android_runtime.cpp:141-143 AndroidRuntime::state_hash_enabled *)
Definition state_hash_enabled (r : AndroidRuntime) : bool := state_hash_enabled_ r.

(** ** The trace of a failure *)

(* @ android_runtime.cpp:147-158 record_fetch_trace *)
Definition record_fetch_trace (fetch : CoreSchedulerFetchStepResult)
    (dump : option AndroidRuntimeUnsupportedDump) : exc (option AndroidRuntimeUnsupportedDump) :=
  match dump, fetched_instruction fetch with
  | Some dump, Some insn =>
      let thumb :=
        match instruction_set fetch with CoreInstructionSet.thumb => true | _ => false end in
      let entry := mkAndroidRuntimeFetchTraceEntry (fetch_address fetch) insn thumb in
      fetches ← array_put (recent_fetches dump)
                  (Z.to_nat (fetch_trace_count dump mod kRecentFetches)) entry;
      Ret (Some (dump <| recent_fetches := fetches |>
                      <| fetch_trace_count ::= fun n => u64 (n + 1) |>))
  | _, _ => Ret dump
  end.

(** The instruction at the program counter, all ones where none is readable. *)
(* @ android_runtime.cpp:178-184 fill_unsupported_dump *)
Definition raw_instruction (thumb : bool) (pc : Z) (c : Core) : Z :=
  default 0xFFFFFFFF (if thumb then HleServices.read16 pc c else SchedulerIrq.read32 pc c).

(* @ android_runtime.cpp:160-185 fill_unsupported_dump *)
Definition fill_unsupported_dump (dump : AndroidRuntimeUnsupportedDump) (s : CoreSession)
    : exc AndroidRuntimeUnsupportedDump :=
  let c := core_ s in
  let cpu := cpu_of c in
  let ic := interrupts (devices_of c) in
  let return_lr := st_hle_irq_return_lr (SchedulerState.save_state (sched c)) in
  '(final_pc, _) ← ArmState.register_value kPc cpu;
  let thumb := ArmState.thumb_state_ cpu in
  Ret (mkAndroidRuntimeUnsupportedDump final_pc (raw_instruction thumb final_pc c) thumb
         (CpuMode.index (ArmState.mode_ cpu)) (ArmState.cpsr cpu) (ArmState.spsr cpu)
         (bool_decide (is_Some return_lr)) (default 0 return_lr)
         (SchedulerIrq.read32 kUserIrqHandlerPointer c)
         (ime ic) (interrupt_enable ic) (interrupt_flags ic)
         (default 0 (HleServices.read16 0x04000000 c)) (recent_fetches dump)
         (fetch_trace_count dump)).

(** ** The picture *)

(** [accumulating_renderer_.render_scanline(session_.memory(),
    session_.ppu().render_control(), scanline)] in the machine of a call. *)
(* @ android_runtime.cpp:216-217 AndroidRuntime::capture_scanline *)
Definition render_call (k : ScanlineCall) (framebuffer : list Z)
    : exc (PpuRenderer.PpuRenderStats * list Z) :=
  control ← PpuTiming.render_control (ppu (call_machine k).2);
  Ret (PpuRenderer.render_scanline io_callbacks (call_machine k) control (call_scanline k)
         framebuffer).

(* @ android_runtime.cpp:201-221 AndroidRuntime::capture_scanline *)
Definition capture_scanline (k : ScanlineCall) (r : AndroidRuntime) : exc AndroidRuntime :=
  let scanline := call_scanline k in
  if raster_ready_ r then Ret r
  else
    let r := if negb (scanline =? next_scanline_ r)
             then r <| next_scanline_ := 0 |> <| supported_scanlines_ := 0 |> else r in
    if negb (scanline =? next_scanline_ r) then Ret r
    else
      '(stats, framebuffer) ← render_call k (accumulating_renderer_ r);
      let next := u16 (next_scanline_ r + 1) in
      Ret (r <| accumulating_renderer_ := framebuffer |>
             <| supported_scanlines_ ::= fun n =>
                  u16 (n + z_of_bool (PpuRenderer.st_supported_mode stats)) |>
             <| next_scanline_ := next |>
             <| raster_ready_ := next =? PpuRenderer.kScreenHeight |>).

(** The calls of a step, in order. *)
(* @ android_runtime.cpp:241-244 AndroidRuntime::step_frame_with_fetch_trace *)
Fixpoint capture_all (calls : list ScanlineCall) (r : AndroidRuntime) : exc AndroidRuntime :=
  match calls with
  | [] => Ret r
  | k :: calls' => r ← capture_scanline k r; capture_all calls' r
  end.

(** ** A frame *)

(** A change of the scheduler of the session. *)
Definition set_scheduler (f : CoreScheduler -> CoreScheduler) (s : CoreSession) : CoreSession :=
  s <| core_ ::= fun c => (f c.1, c.2) |>.

(** [ScopedScanlineObserver]: the observer is attached, with an empty trace,
    and the previous one put back. *)
(* @ android_runtime.cpp:187-197 ScopedScanlineObserver *)
Definition attach_observer (s : CoreSession) : bool * CoreSession :=
  (scanline_observer_ (sched (core_ s)),
   set_scheduler (fun sc =>
     (SchedulerState.set_scanline_observer true sc).2 <| observed_scanlines_ := [] |>) s).

(* @ android_runtime.cpp:187-197 ScopedScanlineObserver *)
Definition detach_observer (previous : bool) (s : CoreSession) : CoreSession :=
  set_scheduler (fun sc => (SchedulerState.set_scanline_observer previous sc).2) s.

(** [session_.step()] with the observer's calls. *)
(* @ android_runtime.cpp:257-257 AndroidRuntime::step_frame_with_fetch_trace *)
Definition observed_step (r : AndroidRuntime)
    : exc (CoreSchedulerFetchStepResult * AndroidRuntime) :=
  '(fetch, s) ← CoreSession.step (session_ r);
  let calls := observed_scanlines_ (sched (core_ s)) in
  let s := set_scheduler (fun sc => sc <| observed_scanlines_ := [] |>) s in
  r ← capture_all calls (r <| session_ := s |>);
  Ret (fetch, r).

Definition cycles_of (r : AndroidRuntime) : Z := scheduler_cycles_ (sched (core_ (session_ r))).

(** What the loop carries: the counters, the dump and the runtime. *)
Definition FrameState : Type :=
  CoreSchedulerRunResult * option AndroidRuntimeUnsupportedDump * AndroidRuntime.

(** [fetch.step.has_value() && fetch.step->cpu_step.status ==
    ExecuteStatus::unsupported]. *)
(* @ android_runtime.cpp:269-270 AndroidRuntime::step_frame_with_fetch_trace *)
Definition step_unsupported (fetch : CoreSchedulerFetchStepResult) : bool :=
  match fetch_step fetch with
  | Some step => bool_decide (sr_status (cpu_step step) = ExecuteStatus.unsupported)
  | None => false
  end.

(** The body of the loop: the new state, and whether the loop goes on. *)
(* @ android_runtime.cpp:255-279 AndroidRuntime::step_frame_with_fetch_trace *)
Definition frame_step (st : FrameState) : exc (bool * FrameState) :=
  let '(run, dump, r) := st in
  '(fetch, r) ← observed_step r;
  dump ← record_fetch_trace fetch dump;
  if fetch_failed fetch then
    Ret (false, (run <| fetch_failures ::= fun n => u32 (n + 1) |>
                     <| stop_reason := CoreRunStopReason.fetch_failed |>, dump, r))
  else
    let run := run <| attempted_steps ::= fun n => u32 (n + 1) |> in
    match fetched_instruction fetch with
    | None => Ret (true, (run <| skipped_steps ::= fun n => u32 (n + 1) |>, dump, r))
    | Some _ =>
        if step_unsupported fetch then
          dump ← match dump with
                 | Some d => d ← fill_unsupported_dump d (session_ r); Ret (Some d)
                 | None => Ret None
                 end;
          Ret (false, (run <| unsupported_steps ::= fun n => u32 (n + 1) |>
                           <| stop_reason := CoreRunStopReason.unsupported_instruction |>, dump, r))
        else Ret (true, (run <| executed_steps ::= fun n => u32 (n + 1) |>, dump, r))
    end.

(** [true]: the loop has ended; [false]: it is still running. *)
(* @ android_runtime.cpp:255-279 AndroidRuntime::step_frame_with_fetch_trace *)
Fixpoint frame_loop (fuel : nat) (cycle_target max_steps : Z) (st : FrameState)
    : exc (bool * FrameState) :=
  let '(run, _, r) := st in
  if (cycles_of r <? cycle_target) && (executed_steps run <? max_steps) then
    match fuel with
    | O => Ret (false, st)
    | S fuel' =>
        '(go_on, st) ← frame_step st;
        if (go_on : bool) then frame_loop fuel' cycle_target max_steps st else Ret (true, st)
    end
  else Ret (true, st).

(** The presentation starts over after a restored snapshot or a session that
    ran elsewhere. *)
(* @ android_runtime.cpp:234-240 AndroidRuntime::step_frame_with_fetch_trace *)
Definition resume_presentation (r : AndroidRuntime) : AndroidRuntime :=
  let generation := state_generation (session_ r) in
  let r :=
    if negb (presentation_generation_ r =? generation) ||
       negb (presentation_cycles_ r =? cycles_of r)
    then r <| next_scanline_ := 0 |> <| supported_scanlines_ := 0 |> <| raster_ready_ := false |>
    else r in
  r <| presentation_generation_ := generation |>.

(** [while (true) { pop_audio_sample ... }]. *)
(* @ android_runtime.cpp:303-309 AndroidRuntime::step_frame_with_fetch_trace *)
Fixpoint drain_audio (fuel : nat) (batch : list ApuMixedSample) (p : Apu)
    : exc (list ApuMixedSample * Apu) :=
  '(sample, p) ← pop_audio_sample p;
  match sample, fuel with
  | None, _ => Ret (batch, p)
  | Some _, O => Throw
  | Some sample, S fuel' => drain_audio fuel' (batch ++ [sample]) p
  end.

(* @ android_runtime.cpp:302-309 AndroidRuntime::step_frame_with_fetch_trace *)
Definition collect_audio (r : AndroidRuntime) : exc AndroidRuntime :=
  let p := apu (devices_of (core_ (session_ r))) in
  '(batch, p) ← drain_audio (ring_size (audio_buffer_ p)) [] p;
  let s := (session_ r) <| core_ ::= fun c =>
             (c.1, (c.2.1, (c.2.2.1, c.2.2.2 <| apu := p |>))) |> in
  Ret (r <| session_ := s |> <| last_audio_batch_ := batch |>).

(** Publishing a picture whose lines were all seen, at the end of a frame. *)
(* @ android_runtime.cpp:293-299 AndroidRuntime::step_frame_with_fetch_trace *)
Definition publish (complete : bool) (r : AndroidRuntime) : Z * AndroidRuntime :=
  if complete && raster_ready_ r then
    (supported_scanlines_ r,
     r <| renderer_ := accumulating_renderer_ r |> <| raster_ready_ := false |>
       <| next_scanline_ := 0 |> <| supported_scanlines_ := 0 |>)
  else (0, r).

(** [fetch_failed] or [unsupported_instruction]. *)
(* @ android_runtime.cpp:286-288 AndroidRuntime::step_frame_with_fetch_trace *)
Definition abnormal_stop (run : CoreSchedulerRunResult) : bool :=
  match stop_reason run with CoreRunStopReason.max_steps => false | _ => true end.

(** After the loop. *)
(* @ android_runtime.cpp:281-324 AndroidRuntime::step_frame_with_fetch_trace *)
Definition finish_frame (cycle_start cycle_target : Z) (run : CoreSchedulerRunResult)
    (r : AndroidRuntime) : exc (AndroidRuntimeFrameResult * AndroidRuntime) :=
  let cycles := cycles_of r in
  '(final_pc, _) ← ArmState.register_value kPc (cpu_of (core_ (session_ r)));
  let run := run <| run_scheduler_cycles := cycles |> <| SchedulerProbe.final_pc := final_pc |> in
  let complete := (cycle_target <=? cycles) && negb (abnormal_stop run) in
  let '(lines, r) := publish complete r in
  r ← collect_audio (r <| presentation_cycles_ := cycles |>);
  let d := devices_of (core_ (session_ r)) in
  control ← PpuTiming.render_control (ppu d);
  let samples := u32 (Z.of_nat (length (last_audio_batch_ r))) in
  let designed_silent := has (dispcnt control) 0x0080 || negb (Apu.master_enabled (apu d)) in
  Ret (mkAndroidRuntimeFrameResult AndroidRuntimeStatus.ok run lines samples
         (z_of_bool ((samples =? 0) && negb designed_silent)) complete
         (if state_hash_enabled r then CoreSession.state_hash (session_ r) else 0)
         (u64 (cycles - cycle_start)),
       r <| render_control_ := control |>).

(** [inl]: the loop has not ended with this fuel; the state it has reached. *)
(* @ android_runtime.cpp:223-325 AndroidRuntime::step_frame_with_fetch_trace *)
Definition step_frame_with_fetch_trace (fuel : nat) (max_steps : Z)
    (dump : option AndroidRuntimeUnsupportedDump) (r : AndroidRuntime)
    : exc (FrameState + AndroidRuntimeFrameResult * option AndroidRuntimeUnsupportedDump *
                        AndroidRuntime) :=
  let dump := (fun d => d <| fetch_trace_count := 0 |>) <$> dump in
  if max_steps =? 0 then Ret (inr (rejected_frame, dump, r))
  else
    let scheduler_cycles := cycles_of r in
    let r := resume_presentation r in
    let '(previous, s) := attach_observer (session_ r) in
    let cycle_start := u64 (scheduler_cycles / PpuTiming.kCyclesPerFrame * PpuTiming.kCyclesPerFrame) in
    let cycle_target := u64 (cycle_start + PpuTiming.kCyclesPerFrame) in
    let run := no_run <| requested_steps := max_steps |> in
    '(ended, (run, dump, r)) ← frame_loop fuel cycle_target max_steps (run, dump, r <| session_ := s |>);
    if negb (ended : bool) then Ret (inl (run, dump, r))
    else
      '(result, r) ← finish_frame cycle_start cycle_target run r;
      Ret (inr (result, dump, r <| session_ ::= detach_observer previous |>)).

(* @ android_runtime.cpp:327-329 AndroidRuntime::step_frame *)
Definition step_frame (fuel : nat) (max_steps : Z) (r : AndroidRuntime)
    : exc (FrameState + AndroidRuntimeFrameResult * AndroidRuntime) :=
  match step_frame_with_fetch_trace fuel max_steps None r with
  | Ret (inr (result, _, r)) => Ret (inr (result, r))
  | Ret (inl st) => Ret (inl st)
  | Throw => Throw
  end.

(** ** Accessors *)

(* @ android_runtime.cpp:331-337 AndroidRuntime::session *)
Definition session (r : AndroidRuntime) : CoreSession := session_ r.

(** A change through the reference [session()] returns. *)
(* @ android_runtime.cpp:331-333 AndroidRuntime::session *)
Definition with_session (s : CoreSession) (r : AndroidRuntime) : AndroidRuntime :=
  r <| session_ := s |>.

(* @ android_runtime.cpp:339-341 AndroidRuntime::framebuffer *)
Definition framebuffer (r : AndroidRuntime) : list Z := renderer_ r.

(* @ android_runtime.cpp:343-345 AndroidRuntime::pixel *)
Definition pixel (x y : Z) (r : AndroidRuntime) : Z := PpuRenderer.pixel x y (renderer_ r).

(** The histogram is a mutable scratch member. *)
(* @ android_runtime.cpp:347-350 AndroidRuntime::video_diagnostics *)
Definition video_diagnostics (r : AndroidRuntime)
    : exc (AndroidRuntimeVideoDiagnostics * AndroidRuntime) :=
  '(diagnostics, scratch) ← analyze_framebuffer (renderer_ r) (render_control_ r);
  Ret (diagnostics, r <| color_histogram_scratch_ := scratch |>).

(* @ android_runtime.cpp:352-354 AndroidRuntime::last_audio_batch *)
Definition last_audio_batch (r : AndroidRuntime) : list ApuMixedSample := last_audio_batch_ r.
