(* ===== verification/AndroidRuntimeSpec.v ===== *)
(** * The frame runtime: whole frames only

    The invariant of the runtime: its session is well formed, and the scratch
    picture holds the lines of the current frame seen so far, in order from
    line zero.  A step of a frame returns; what it publishes is a complete
    frame. *)

From S2P Require Import Prelude StateMonad StateHash Interrupts Keypad BusTypes WaitState.
From S2P Require Timers PpuTiming MemoryBus MemoryBusSpec PpuTimingSpec BusSafety.
From S2P Require Import PpuRendererSpec.
From S2P Require PpuRenderer.
From S2P Require Import Apu ApuSpec ApuTyped Dma IoRegisters DmaTransfer Bios.
From S2P Require Import ArmTypes ArmMemory BusInterface.
From S2P Require Import ArmSafety IoRegistersSpec DmaTransferSpec.
From S2P Require Import SchedulerProbe SchedulerState SchedulerDevices.
From S2P Require Import SchedulerDevicesSpec SchedulerSafety.
From S2P Require Import HleServices HleSafety SchedulerFetch SchedulerFetchSafety.
From S2P Require Import CoreSession CoreSessionSpec AndroidRuntime.
From S2P Require ArmState.

Notation kPixels := PpuRenderer.kFramebufferPixels (only parsing).

(** ** The picture of a list of observed lines *)

(** Rendering the lines one after the other, counting those of a supported
    mode. *)
Fixpoint render_calls (calls : list ScanlineCall) (n : Z) (fb : list Z) : exc (Z * list Z) :=
  match calls with
  | [] => Ret (n, fb)
  | k :: calls' =>
      '(stats, fb) ← render_call k fb;
      render_calls calls' (u16 (n + z_of_bool (PpuRenderer.st_supported_mode stats))) fb
  end.

Lemma render_calls_snoc calls k n fb :
  render_calls (calls ++ [k]) n fb =
  ('(m, fb) ← render_calls calls n fb;
   '(stats, fb) ← render_call k fb;
   Ret (u16 (m + z_of_bool (PpuRenderer.st_supported_mode stats)), fb)).
Proof.
  revert n fb. induction calls as [|k' calls IH]; intros n fb; cbn [render_calls app].
  - cbn [mbind exc_bind]. by destruct (render_call k fb) as [[]|].
  - destruct (render_call k' fb) as [[st fb']|]; [|done]. cbn [mbind exc_bind]. apply IH.
Qed.

(** The pixels of the first [n] lines. *)
Definition in_lines (n : Z) (i : nat) : Prop :=
  exists x y, In x PpuRenderer.columns /\ 0 <= y < n /\ i = PpuRenderer.pixel_index x y.

Lemma render_call_control k : scanline_call_ok k ->
  exists control, forall fb, render_call k fb =
    Ret (PpuRenderer.render_scanline io_callbacks (call_machine k) control (call_scanline k) fb).
Proof.
  intros [[_ Hd] _].
  destruct (PpuTimingSpec.render_control_returns _ (dv_lcd _ Hd)) as [control E].
  exists control. intros fb. unfold render_call. by rewrite E.
Qed.

(** Colours are 15-bit words. *)
Definition picture (fb : list Z) : Prop := Z.of_nat (length fb) = kPixels /\ Forall (fits 15) fb.

Lemma row_written_picture y row fb fb' :
  (forall x, 0 <= x < PpuRenderer.kScreenWidth -> exists v, row x = Some v /\ fits 15 v) ->
  row_written y row fb fb' -> picture fb -> picture fb'.
Proof.
  intros Hrow [Hl Hi] [Hn Hf]. split; [by rewrite Hl|]. apply Forall_lookup. intros i v E.
  assert (Hb : (i < length fb')%nat) by (apply lookup_lt_is_Some; eauto).
  specialize (Hi (Z.of_nat i) ltac:(lia)). rewrite Nat2Z.id, E in Hi. case_decide.
  - destruct (Hrow (Z.of_nat i mod PpuRenderer.kScreenWidth)) as (w & Ew & Hw).
    { apply Z.mod_pos_bound. by vm_compute. }
    rewrite Ew in Hi. by injection Hi as ->.
  - symmetry in Hi. by eapply Forall_lookup_1.
Qed.

Lemma render_call_agree k fb fb' n : scanline_call_ok k -> call_scanline k = n ->
  picture fb' -> agree (in_lines n) fb fb' ->
  exists stats r r', render_call k fb = Ret (stats, r) /\ render_call k fb' = Ret (stats, r') /\
    picture r' /\ agree (in_lines (n + 1)) r r'.
Proof.
  intros Hk En Hp Ha. destruct (render_call_control k Hk) as [control E].
  destruct Hk as [_ Hn]. rewrite En in Hn. change PpuTiming.kVisibleLines with PpuRenderer.kScreenHeight in Hn.
  rewrite !E, En.
  destruct (render_scanline_agree io_callbacks (call_machine k) control n fb fb' _ ltac:(lia) Ha)
    as [Es Hr].
  destruct (render_scanline_frame io_callbacks (call_machine k) control n fb' Hn (proj1 Hp))
    as (row & Hrow & Hw).
  destruct (PpuRenderer.render_scanline _ _ _ _ fb) as [stats r].
  destruct (PpuRenderer.render_scanline _ _ _ _ fb') as [stats' r']. cbn [fst snd] in *. subst stats'.
  exists stats, r, r'. split; [done|]. split; [done|]. split; [by eapply row_written_picture|].
  revert Hr. apply agree_mono. intros i (x & y & Hx & Hy & Ei).
  destruct (decide (y = n)) as [-> |]; [right; eauto|]. left. exists x, y. split_and!; done || lia.
Qed.

(** Framebuffers that agree on every line are equal. *)
Lemma agree_screen fb fb' : picture fb' -> agree (in_lines PpuRenderer.kScreenHeight) fb fb' -> fb = fb'.
Proof.
  intros [Hl _] [Hn Hi]. apply list_eq. intros i.
  destruct (decide (i < length fb')%nat) as [Hb|Hb]; [|by rewrite !lookup_ge_None_2 by lia].
  apply Hi. unfold PpuRenderer.kFramebufferPixels, PpuRenderer.kScreenHeight, PpuRenderer.kScreenWidth in *.
  exists (Z.of_nat i mod 240), (Z.of_nat i / 240). unfold PpuRenderer.pixel_index, PpuRenderer.kScreenWidth.
  split; [|split; Z.to_euclidean_division_equations; lia].
  apply in_map_iff. exists (i mod 240)%nat. split.
  - rewrite Nat2Z.inj_mod. done.
  - apply in_seq. pose proof (Nat.mod_upper_bound i 240). unfold PpuRenderer.kScreenWidth. lia.
Qed.

(** The lines seen so far: the first ones of a frame, in order; rendering them
    on any picture gives the scratch picture as far as they go. *)
Record raster (r : AndroidRuntime) (calls : list ScanlineCall) : Prop := mk_raster {
  rs_lines : map call_scanline calls = seqZ 0 (next_scanline_ r);
  rs_calls : Forall scanline_call_ok calls;
  rs_next : 0 <= next_scanline_ r <= PpuRenderer.kScreenHeight;
  rs_picture : picture (accumulating_renderer_ r);
  rs_ready : raster_ready_ r = (next_scanline_ r =? PpuRenderer.kScreenHeight);
  rs_frame fb : Z.of_nat (length fb) = kPixels -> exists fb',
    render_calls calls 0 fb = Ret (supported_scanlines_ r, fb') /\
    agree (in_lines (next_scanline_ r)) fb' (accumulating_renderer_ r)
}.

(** A published frame: all the lines of the screen in order, rendered on
    whatever picture was there. *)
Definition whole_frame (calls : list ScanlineCall) (supported : Z) (fb : list Z) : Prop :=
  map call_scanline calls = seqZ 0 PpuRenderer.kScreenHeight /\
  Forall scanline_call_ok calls /\
  forall fb0, Z.of_nat (length fb0) = kPixels -> render_calls calls 0 fb0 = Ret (supported, fb).

Lemma raster_whole r calls : raster r calls -> raster_ready_ r = true ->
  whole_frame calls (supported_scanlines_ r) (accumulating_renderer_ r).
Proof.
  intros [Hm Hc Hn Hp Hr Hf] Er. rewrite Hr in Er. apply Z.eqb_eq in Er. rewrite Er in *.
  split; [done|]. split; [done|]. intros fb0 Hl. destruct (Hf fb0 Hl) as (fb' & -> & Ha).
  by rewrite (agree_screen fb' _ Hp Ha).
Qed.

(** Nothing seen yet. *)
Lemma raster_empty r : next_scanline_ r = 0 -> supported_scanlines_ r = 0 -> raster_ready_ r = false ->
  picture (accumulating_renderer_ r) -> raster r [].
Proof.
  intros En Es Er Hp. constructor; rewrite ?En, ?Es; try done.
  intros fb Hl. exists fb. split; [done|]. split; [rewrite <- (Nat2Z.id (length fb)), Hl, <- (proj1 Hp); lia|].
  intros i (x & y & _ & Hy & _). lia.
Qed.

Lemma picture_clear : picture (PpuRenderer.clear 0).
Proof. split; [by vm_compute|]. by apply Forall_replicate. Qed.

(** *** Capturing *)

(** What capturing leaves alone. *)
Definition same_but_scratch (r r' : AndroidRuntime) : Prop :=
  session_ r' = session_ r /\ renderer_ r' = renderer_ r /\
  presentation_generation_ r' = presentation_generation_ r /\
  presentation_cycles_ r' = presentation_cycles_ r.

Lemma capture_next r calls k : raster r calls -> scanline_call_ok k ->
  raster_ready_ r = false -> call_scanline k = next_scanline_ r ->
  exists stats fb, render_call k (accumulating_renderer_ r) = Ret (stats, fb) /\
    raster (r <| accumulating_renderer_ := fb |>
              <| supported_scanlines_ ::= fun n =>
                   u16 (n + z_of_bool (PpuRenderer.st_supported_mode stats)) |>
              <| next_scanline_ := u16 (next_scanline_ r + 1) |>
              <| raster_ready_ := u16 (next_scanline_ r + 1) =? PpuRenderer.kScreenHeight |>)
      (calls ++ [k]).
Proof.
  intros [Hm Hc Hn Hp Hr Hf] Hk Er Ek. rewrite Hr in Er. apply Z.eqb_neq in Er.
  assert (Eu : u16 (next_scanline_ r + 1) = next_scanline_ r + 1).
  { apply wrap_id. unfold fits. unfold PpuRenderer.kScreenHeight in *. lia. }
  rewrite Eu.
  destruct (Hf (accumulating_renderer_ r) (proj1 Hp)) as (fb1 & E1 & A1).
  destruct (render_call_agree k fb1 _ _ Hk Ek Hp A1) as (stats & q & q' & Eq & Eq' & Hq & Aq).
  exists stats, q'. split; [done|]. constructor; cbn; try done.
  - rewrite map_app, Hm. cbn. rewrite Ek, seqZ_app by lia. done.
  - by apply Forall_app_2; [|constructor].
  - unfold PpuRenderer.kScreenHeight in *. lia.
  - intros fb Hl. destruct (Hf fb Hl) as (fb2 & E2 & A2).
    destruct (render_call_agree k fb2 _ _ Hk Ek Hp A2) as (stats2 & p & p' & Ep & Ep' & _ & Ap).
    rewrite Eq' in Ep'. injection Ep' as <- <-. exists p. split; [|done].
    rewrite render_calls_snoc, E2. cbn [mbind exc_bind]. by rewrite Ep.
Qed.

Lemma capture_ok k r calls : scanline_call_ok k -> raster r calls ->
  ensures (fun r' => same_but_scratch r r' /\ exists calls', raster r' calls') (capture_scanline k r).
Proof.
  intros Hk Hr. unfold capture_scanline. destruct (raster_ready_ r) eqn:Er.
  { apply ensures_ret. split; [done|]. by exists calls. }
  set (r1 := if negb _ then _ else r).
  assert (G : same_but_scratch r r1 /\ raster_ready_ r1 = false /\ exists calls1, raster r1 calls1).
  { subst r1. case_match; [|by split_and!; eauto]. split; [done|]. split; [done|]. exists [].
    apply raster_empty; [done..|]. exact (rs_picture _ _ Hr). }
  clearbody r1. destruct G as (Hs & Er1 & calls1 & Hr1).
  destruct (Z.eqb_spec (call_scanline k) (next_scanline_ r1)) as [E|E]; cbn [negb]; cycle 1.
  { apply ensures_ret. eauto. }
  destruct (capture_next r1 calls1 k Hr1 Hk Er1 E) as (stats & fb & -> & Hn). cbn [mbind exc_bind].
  apply ensures_ret. split; [done|]. eauto.
Qed.

Lemma capture_all_ok ks r calls : Forall scanline_call_ok ks -> raster r calls ->
  ensures (fun r' => same_but_scratch r r' /\ exists calls', raster r' calls') (capture_all ks r).
Proof.
  intros Hks. revert r calls. induction Hks as [|k ks Hk _ IH]; intros r calls Hr; cbn [capture_all].
  { apply ensures_ret. split; [done|]. eauto. }
  apply (ensures_bind _ _ _ _ (capture_ok k r calls Hk Hr)). intros r1 [Hs [calls1 Hr1]].
  eapply ensures_weaken; [exact (IH r1 calls1 Hr1)|]. intros r2 [Hs2 Hr2]. split; [|done].
  unfold same_but_scratch in *. intuition congruence.
Qed.

(** ** The invariant *)

Definition runtime_wf (r : AndroidRuntime) : Prop :=
  session_wf (session_ r) /\ picture (renderer_ r) /\ exists calls, raster r calls.

Lemma construct_runtime_wf : runtime_wf construct.
Proof.
  split; [exact construct_wf|]. split; [exact picture_clear|].
  exists []. by apply raster_empty; [..|exact picture_clear].
Qed.

(** The picture and the scratch picture do not depend on the other fields. *)
Lemma raster_with r r' calls : raster r calls ->
  accumulating_renderer_ r' = accumulating_renderer_ r -> next_scanline_ r' = next_scanline_ r ->
  supported_scanlines_ r' = supported_scanlines_ r -> raster_ready_ r' = raster_ready_ r ->
  raster r' calls.
Proof. intros [] E1 E2 E3 E4. constructor; rewrite ?E1, ?E2, ?E3, ?E4; done. Qed.

Lemma set_scheduler_wf f s : (forall sc, scheduler_wf sc -> scheduler_wf (f sc)) ->
  session_wf s -> session_wf (set_scheduler f s).
Proof. intros Hf [[Hc Hs] Hg]. split; [|done]. split; [done|]. by apply Hf. Qed.

(** The dump has its eight slots. *)
Definition dump_ok (dump : option AndroidRuntimeUnsupportedDump) : Prop :=
  forall d, dump = Some d -> length (recent_fetches d) = Z.to_nat kRecentFetches.

Lemma record_fetch_trace_ok fetch dump : dump_ok dump -> ensures dump_ok (record_fetch_trace fetch dump).
Proof.
  intros Hd. unfold record_fetch_trace. destruct dump as [d|]; [|by apply ensures_ret].
  destruct (fetched_instruction fetch); [|by apply ensures_ret].
  pose proof (Hd d eq_refl) as Hl. pose proof (Z.mod_pos_bound (fetch_trace_count d) 8 ltac:(lia)) as Hm.
  rewrite array_put_lt by (rewrite Hl; unfold kRecentFetches; lia). cbn [mbind exc_bind].
  apply ensures_ret. intros d' [= <-]. cbn. by rewrite length_insert.
Qed.

Lemma fill_dump_ok d s : session_wf s -> length (recent_fetches d) = Z.to_nat kRecentFetches ->
  ensures (fun d' => length (recent_fetches d') = Z.to_nat kRecentFetches) (fill_unsupported_dump d s).
Proof.
  intros [Hc _] Hl. unfold fill_unsupported_dump.
  destruct (reg_run kPc (core_ s) Hc pc_index) as (v & E & _). unfold reg, on_cpu in E.
  fold (cpu_of (core_ s)) in E. destruct (ArmState.register_value kPc _) as [[pc c']|]; [|done].
  by apply ensures_ret.
Qed.

(** ** Frames *)

(** The state of the loop; [fb] is the picture shown meanwhile. *)
Definition frame_state_ok (fb : list Z) (st : FrameState) : Prop :=
  dump_ok st.1.2 /\ runtime_wf st.2 /\ renderer_ st.2 = fb.

Lemma observed_step_ok r : runtime_wf r ->
  ensures (fun p => runtime_wf p.2 /\ renderer_ p.2 = renderer_ r) (observed_step r).
Proof.
  intros (Hs & Hp & calls & Hr). unfold observed_step.
  destruct (session_step_wf (session_ r) Hs) as (fetch & s & -> & _ & Hs'). cbn [mbind exc_bind].
  set (s0 := set_scheduler _ s).
  assert (Hs0 : session_wf s0).
  { apply set_scheduler_wf; [|done]. intros sc. sched_fields. }
  assert (Ho : Forall scanline_call_ok (observed_scanlines_ (sched (core_ s)))).
  { destruct Hs' as [[_ Hw] _]. by destruct Hw. }
  destruct (capture_all_ok _ (r <| session_ := s0 |>) calls Ho) as (r' & -> & (E1 & E2 & _) & Hr').
  { by eapply raster_with. }
  cbn [mbind exc_bind]. apply ensures_ret. cbn [fst snd]. split; [|done].
  split; [by rewrite E1|]. by rewrite E2.
Qed.

(** Counters of a loop that goes on after [n] iterations. *)
Definition counting (max_steps n : Z) (run : CoreSchedulerRunResult) : Prop :=
  requested_steps run = max_steps /\ attempted_steps run = n /\
  0 <= executed_steps run /\ 0 <= skipped_steps run /\
  executed_steps run + skipped_steps run = n /\
  unsupported_steps run = 0 /\ fetch_failures run = 0 /\
  stop_reason run = CoreRunStopReason.max_steps.

Lemma frame_step_ok fb max_steps n st : frame_state_ok fb st -> fits 32 (n + 1) ->
  counting max_steps n st.1.1 ->
  ensures (fun p => frame_state_ok fb p.2 /\
             if (p.1 : bool) then counting max_steps (n + 1) p.2.1.1
             else abnormal_stop p.2.1.1 = true)
    (frame_step st).
Proof.
  destruct st as [[run dump] r]. intros (Hd & Hr & Hfb) Hn Hc. cbn [fst snd] in *.
  unfold frame_step. apply (ensures_bind _ _ _ _ (observed_step_ok r Hr)).
  intros [fetch r'] (Hr' & Hfb'). cbn [fst snd] in *.
  apply (ensures_bind _ _ _ _ (record_fetch_trace_ok fetch dump Hd)). intros dump' Hd'.
  assert (Hst : forall run', frame_state_ok fb (run', dump', r')).
  { intros run'. split; [done|]. split; [done|]. by rewrite <- Hfb. }
  destruct (fetch_failed fetch).
  { apply ensures_ret. split; [apply Hst|done]. }
  destruct Hc as (H1 & H2 & H3 & H4 & H5 & H6 & H7 & H8). unfold fits in Hn.
  assert (Hu : forall x, 0 <= x <= n -> u32 (x + 1) = x + 1) by (intros x Hx; apply wrap_id; unfold fits; lia).
  destruct (fetched_instruction fetch); cycle 1.
  { apply ensures_ret. split; [apply Hst|]. unfold counting. cbn. rewrite H2, !Hu by lia. split_and!; done || lia. }
  destruct (step_unsupported fetch); cycle 1.
  { apply ensures_ret. split; [apply Hst|]. unfold counting. cbn. rewrite H2, !Hu by lia. split_and!; done || lia. }
  assert (Hfill : ensures dump_ok (match dump' with
                   | Some d => d ← fill_unsupported_dump d (session_ r'); Ret (Some d)
                   | None => Ret None end)).
  { destruct dump' as [d|]; [|by apply ensures_ret].
    apply (ensures_bind _ _ _ _ (fill_dump_ok d _ (proj1 Hr') (Hd' d eq_refl))).
    intros d' Hl. apply ensures_ret. by intros ? [= <-]. }
  apply (ensures_bind _ _ _ _ Hfill). intros dump2 Hd2. apply ensures_ret. split; [|done].
  split; [done|]. split; [done|]. by rewrite <- Hfb.
Qed.

(** A loop that has ended, and one that has not. *)
Definition clean_run (run : CoreSchedulerRunResult) : Prop :=
  unsupported_steps run = 0 /\ fetch_failures run = 0.

Definition loop_ended (cycle_target max_steps : Z) (st : FrameState) : Prop :=
  abnormal_stop st.1.1 = true \/
  clean_run st.1.1 /\ (cycle_target <= cycles_of st.2 \/ max_steps <= executed_steps st.1.1).

Definition still_running (fuel max_steps : Z) (st : FrameState) : Prop :=
  attempted_steps st.1.1 = fuel /\ executed_steps st.1.1 < max_steps /\
  skipped_steps st.1.1 = fuel - executed_steps st.1.1.

Lemma frame_loop_ok fuel fb target max_steps n st : frame_state_ok fb st ->
  0 <= n -> fits 32 (n + Z.of_nat fuel) -> counting max_steps n st.1.1 ->
  ensures (fun p => frame_state_ok fb p.2 /\
             if (p.1 : bool) then loop_ended target max_steps p.2
             else still_running (n + Z.of_nat fuel) max_steps p.2)
    (frame_loop fuel target max_steps st).
Proof.
  intros Hst Hn0 Hn. revert n st Hst Hn0 Hn. induction fuel as [|fuel IH]; intros n st Hst Hn0 Hn Hc.
  all: cbn [frame_loop]; destruct st as [[run dump] r] eqn:Est; rewrite <- Est in *.
  all: destruct (_ && _) eqn:Eb.
  2, 4: apply ensures_ret; split; [done|]; right; subst st; cbn;
    split; [by unfold clean_run; destruct Hc as (_ & _ & _ & _ & _ & ? & ? & _)|];
    apply andb_false_iff in Eb as [Eb|Eb]; apply Z.ltb_ge in Eb; auto.
  all: apply andb_true_iff in Eb as [_ Eb]; apply Z.ltb_lt in Eb.
  - apply ensures_ret. split; [done|]. subst st. destruct Hc as (_ & H2 & _ & _ & H5 & _). cbn in *.
    unfold still_running. cbn. lia.
  - unfold fits in Hn. apply (ensures_bind _ _ _ _ (frame_step_ok fb max_steps n st Hst ltac:(unfold fits; lia) Hc)).
    intros [[] st'] [Hst' Hgo]; cbn [fst snd] in *.
    + replace (n + Z.of_nat (S fuel)) with (n + 1 + Z.of_nat fuel) in * by lia. apply IH; done || lia.
    + apply ensures_ret. split; [done|]. by left.
Qed.

(** *** Sound *)

Lemma drain_audio_ok fuel batch (p : Apu) : ApuSpec.wf p -> apu_typed p -> ring_size (audio_buffer_ p) = fuel ->
  exists p', drain_audio fuel batch p =
      Ret (batch ++ contents kAudioBufferCapacity (audio_buffer_ p), p') /\
    ApuSpec.wf p' /\ apu_typed p' /\ ring_size (audio_buffer_ p') = 0%nat.
Proof.
  revert batch p. induction fuel as [|fuel IH]; intros batch p Hw Ht Hf.
  - exists p. cbn [drain_audio]. unfold pop_audio_sample, contents. rewrite Hf, app_nil_r. by split_and!.
  - destruct (pop_drop kAudioBufferCapacity (audio_buffer_ p) (wf_audio _ Hw)) as (b & E & Ec); [lia|].
    set (q := p <| audio_buffer_ := drop_oldest kAudioBufferCapacity (audio_buffer_ p) |>).
    assert (Eq : pop_audio_sample p = Ret (Some b, q)).
    { unfold pop_audio_sample. rewrite Hf. cbn [Nat.eqb]. by rewrite E. }
    destruct (IH (batch ++ [b]) q) as (p' & Ed & H).
    + pose proof (drop_oldest_ok _ _ (wf_audio _ Hw)). destruct Hw. by constructor.
    + destruct Ht. by constructor.
    + cbn. lia.
    + exists p'. split; [|done]. cbn [drain_audio]. rewrite Eq. cbn [mbind exc_bind].
      rewrite Ed, Ec, <- app_assoc. done.
Qed.

Lemma collect_audio_ok r : runtime_wf r ->
  ensures (fun r' => runtime_wf r' /\ renderer_ r' = renderer_ r /\ cycles_of r' = cycles_of r /\
             last_audio_batch_ r' =
               contents kAudioBufferCapacity (audio_buffer_ (apu (devices_of (core_ (session_ r))))))
    (collect_audio r).
Proof.
  intros (Hs & Hp & calls & Hr). unfold collect_audio.
  set (p := apu (devices_of (core_ (session_ r)))).
  assert (Hd : devices_wf (devices_of (core_ (session_ r)))) by apply Hs.
  destruct (drain_audio_ok (ring_size (audio_buffer_ p)) [] p (dv_apu _ Hd) (dv_apu_typed _ Hd) eq_refl)
    as (p' & -> & Hw & Ht & _).
  cbn [mbind exc_bind]. apply ensures_ret. split; [|done]. split; [|split; [done|]].
  - cbn [session_ set_field]. destruct Hs as [[[Hc [Hb _]] Hsc] Hg]. split; [|done].
    split; [split; [done|split; [done|]]|done]. destruct Hd. by constructor.
  - exists calls. by eapply raster_with.
Qed.

(** *** Publishing *)

Definition published (fb : list Z) (result : AndroidRuntimeFrameResult) (r : AndroidRuntime) : Prop :=
  (rendered_scanlines result = 0 /\ framebuffer r = fb) \/
  (frame_complete result = true /\
   exists calls, whole_frame calls (rendered_scanlines result) (framebuffer r)).

Lemma publish_ok complete r : runtime_wf r ->
  let '(lines, r') := publish complete r in
  runtime_wf r' /\ session_ r' = session_ r /\
  ((lines = 0 /\ renderer_ r' = renderer_ r) \/
   (complete = true /\ exists calls, whole_frame calls lines (renderer_ r'))).
Proof.
  intros (Hs & Hp & calls & Hr). unfold publish. destruct (complete && raster_ready_ r) eqn:E; cycle 1.
  { split; [by split_and!; eauto|]. split; [done|]. by left. }
  apply andb_true_iff in E as [-> E]. pose proof (raster_whole r calls Hr E) as Hw.
  pose proof (rs_picture _ _ Hr). split; [|split; [done|right; eauto]].
  split; [done|]. split; [done|]. exists []. by apply raster_empty.
Qed.

(** What a finished frame reports. *)
Definition frame_report (max_steps : Z) (result : AndroidRuntimeFrameResult) (r : AndroidRuntime) : Prop :=
  fr_status result = AndroidRuntimeStatus.ok /\
  run_scheduler_cycles (fr_run result) = cycles_of r /\
  (frame_complete result = true \/ abnormal_stop (fr_run result) = true \/
   max_steps <= executed_steps (fr_run result)) /\
  (frame_complete result = true -> clean_run (fr_run result) /\ abnormal_stop (fr_run result) = false).

Lemma finish_frame_ok start target max_steps run r : runtime_wf r ->
  loop_ended target max_steps (run, None, r) ->
  ensures (fun p => runtime_wf p.2 /\ published (renderer_ r) p.1 p.2 /\
             frame_report max_steps p.1 p.2)
    (finish_frame start target run r).
Proof.
  intros Hr Hend. unfold finish_frame. pose proof (proj1 Hr) as [Hc _].
  destruct (reg_run kPc (core_ (session_ r)) Hc pc_index) as (v & E & _). unfold reg, on_cpu in E.
  fold (cpu_of (core_ (session_ r))) in E. destruct (ArmState.register_value kPc _) as [[pc c']|]; [|done].
  cbn [mbind exc_bind]. clear E. set (run' := run <| _ := _ |> <| _ := _ |>).
  set (complete := _ && _). pose proof (publish_ok complete r Hr) as Hp.
  destruct (publish complete r) as [lines r1]. destruct Hp as (Hr1 & Es & Hp).
  set (r2 := r1 <| presentation_cycles_ := cycles_of r |>).
  assert (Hr2 : runtime_wf r2).
  { destruct Hr1 as (H1 & H2 & calls & H3). split; [done|]. split; [done|]. exists calls. by eapply raster_with. }
  destruct (collect_audio_ok r2 Hr2) as (r3 & -> & Hr3 & Ef & Ec & _). cbn [mbind exc_bind].
  assert (Hd : devices_wf (devices_of (core_ (session_ r3)))) by apply Hr3.
  destruct (PpuTimingSpec.render_control_returns _ (dv_lcd _ Hd)) as [control ->]. cbn [mbind exc_bind].
  apply ensures_ret. cbn [fst snd]. split; [|split].
  - destruct Hr3 as (H1 & H2 & calls & H3). split; [done|]. split; [done|]. exists calls. by eapply raster_with.
  - unfold published, framebuffer. cbn. rewrite Ef. exact Hp.
  - split; [done|]. cbn [fr_run]. split.
    { change (cycles_of r = cycles_of r3). rewrite Ec. unfold r2, cycles_of. cbn. by rewrite Es. }
    cbn [frame_complete]. subst complete. destruct (abnormal_stop run') eqn:Ea.
    { split; [by right; left|]. by rewrite andb_false_r. }
    destruct Hend as [H|[Hclean H]]; cbn [fst snd] in H.
    { exfalso. revert Ea. unfold abnormal_stop in *. subst run'. cbn. by rewrite H. }
    split; [|by intros _; split]. destruct H as [H|H]; [left|by right; right].
    by rewrite (proj2 (Z.leb_le _ _) H).
Qed.

Lemma resume_presentation_ok r : runtime_wf r ->
  runtime_wf (resume_presentation r) /\ session_ (resume_presentation r) = session_ r /\
  renderer_ (resume_presentation r) = renderer_ r.
Proof.
  intros (Hs & Hp & calls & Hr). unfold resume_presentation. case_match.
  - split; [|done]. split; [done|]. split; [done|]. exists [].
    by apply raster_empty; [..|exact (rs_picture _ _ Hr)].
  - split; [|done]. split; [done|]. split; [done|]. exists calls. by eapply raster_with.
Qed.

Lemma observer_wf b sc : scheduler_wf sc ->
  scheduler_wf (SchedulerState.set_scanline_observer b sc).2.
Proof. sched_fields. Qed.

Lemma set_session_wf s r : runtime_wf r -> session_wf s -> runtime_wf (r <| session_ := s |>).
Proof.
  intros (_ & Hp & calls & Hr) Hs. split; [done|]. split; [done|]. exists calls. by eapply raster_with.
Qed.

(** The lines of a frame, seen in order from the top, complete it. *)
Lemma capture_frame ks r calls : raster r calls -> raster_ready_ r = false ->
  Forall scanline_call_ok ks ->
  map call_scanline ks =
    seqZ (next_scanline_ r) (PpuRenderer.kScreenHeight - next_scanline_ r) ->
  exists r', capture_all ks r = Ret r' /\ raster r' (calls ++ ks) /\ raster_ready_ r' = true.
Proof.
  intros Hr Er Hks. revert r calls Hr Er. induction Hks as [|k ks Hk _ IH]; intros r calls Hr Er Hm.
  - exfalso. pose proof (rs_next _ _ Hr). rewrite (rs_ready _ _ Hr) in Er. apply Z.eqb_neq in Er.
    apply (f_equal length) in Hm. cbn in Hm. rewrite length_seqZ in Hm. lia.
  - assert (Hn : next_scanline_ r < PpuRenderer.kScreenHeight).
    { pose proof (rs_next _ _ Hr). rewrite (rs_ready _ _ Hr) in Er. apply Z.eqb_neq in Er. lia. }
    rewrite seqZ_cons in Hm by lia. injection Hm as Ek Hm.
    destruct (capture_next r calls k Hr Hk Er Ek) as (stats & fb & E & Hr1).
    assert (Eu : u16 (next_scanline_ r + 1) = next_scanline_ r + 1).
    { apply wrap_id. pose proof (rs_next _ _ Hr). unfold fits, PpuRenderer.kScreenHeight in *. lia. }
    cbn [capture_all]. unfold capture_scanline. rewrite Er, Ek, Z.eqb_refl. cbn [negb].
    rewrite Z.eqb_refl, E. cbn [negb mbind exc_bind]. set (r1 := r <| _ := fb |> <| _ ::= _ |> <| _ := _ |> <| _ := _ |>) in *.
    destruct (raster_ready_ r1) eqn:E1.
    + assert (ks = []) as ->.
      { apply Z.eqb_eq in E1. rewrite Eu in E1. apply (f_equal length) in Hm.
        rewrite length_seqZ, length_map in Hm. destruct ks; [done|cbn in Hm; lia]. }
      exists r1. by split_and!.
    + destruct (IH r1 (calls ++ [k]) Hr1 E1) as (r' & E' & Hr' & Hready).
      { rewrite Hm. unfold r1. cbn. rewrite Eu. f_equal; lia. }
      exists r'. split; [exact E'|]. by rewrite <- app_assoc in Hr'.
Qed.

(** ** Loading, input and diagnostics *)

Lemma load_cartridge_wf rom s : MemoryBusSpec.bytes_ok rom -> session_wf s ->
  ensures (fun p => session_wf p.2) (load_cartridge rom s).
Proof.
  intros Hrom Hs. unfold load_cartridge. pose proof (session_reset_wf s Hs) as H0.
  set (s0 := CoreSession.reset s) in *.
  pose proof (BusSafety.wf_load_rom rom (memory_of s0) Hrom (session_bus _ H0)) as Hb.
  destruct (MemoryBus.load_game_pak_rom rom (memory_of s0)) as [[] b]; cycle 1.
  { apply ensures_ret. by apply set_memory_wf. }
  set (type := default _ _). pose proof (BusSafety.wf_configure type b Hb) as Hb'.
  destruct (MemoryBus.configure_game_pak_save type b) as [[] b']; cycle 1.
  { apply ensures_ret. by apply session_reset_wf, set_memory_wf. }
  destruct (boot_wf (set_memory b' s0)) as (s1 & -> & H1); [by apply set_memory_wf|].
  by apply ensures_ret.
Qed.

(** The runtime with another session, picture, control and batch. *)
Lemma runtime_with r s fb control batch : runtime_wf r -> session_wf s -> picture fb ->
  runtime_wf (r <| session_ := s |> <| renderer_ := fb |> <| last_audio_batch_ := batch |>
                <| render_control_ := control |>).
Proof. intros (_ & _ & calls & Hr) Hs Hp. split; [done|]. split; [done|]. exists calls. by eapply raster_with. Qed.

Lemma load_rom_wf rom r : MemoryBusSpec.bytes_ok rom -> runtime_wf r ->
  ensures (fun p => runtime_wf p.2) (load_rom rom r).
Proof.
  intros Hrom Hr. unfold load_rom. case_bool_decide; [by apply ensures_ret|].
  destruct (load_cartridge_wf rom _ Hrom (proj1 Hr)) as ([loaded s] & -> & Hs).
  cbn [mbind exc_bind]. destruct loaded; cbn [negb]; cycle 1.
  { apply ensures_ret. by apply set_session_wf. }
  assert (Hd : devices_wf (devices_of (core_ s))) by apply Hs.
  destruct (PpuTimingSpec.render_control_returns _ (dv_lcd _ Hd)) as [control E].
  cbn [session_ set_field]. rewrite E. cbn [mbind exc_bind]. apply ensures_ret.
  apply (runtime_with r s); [done|done|exact picture_clear].
Qed.

Lemma set_button_mask_wf m r : fits 16 m -> runtime_wf r -> runtime_wf (set_button_mask m r).2.
Proof.
  intros Hm Hr. unfold set_button_mask. pose proof (set_input_mask_wf m _ Hm (proj1 Hr)) as Hs.
  destruct (set_input_mask m (session_ r)) as [[] s]; by apply set_session_wf.
Qed.

Lemma reset_runtime_wf r : runtime_wf r -> runtime_wf (AndroidRuntime.reset r).2.
Proof.
  intros Hr. apply (runtime_with r _ _ (render_control_ r) []); [done| |exact picture_clear].
  apply session_reset_wf, Hr.
Qed.

(** The histogram has an entry for every colour. *)
Lemma count_pixels_ok fb h : Forall (fits 15) fb -> length (color_counts h) = kHistogramSize ->
  ensures (fun h' => length (color_counts h') = kHistogramSize) (count_pixels fb h).
Proof.
  intros Hf. revert h. induction Hf as [|c fb Hc _ IH]; intros h Hl; cbn [count_pixels].
  { by apply ensures_ret. }
  assert (Hi : (Z.to_nat c < length (color_counts h))%nat).
  { rewrite Hl. unfold kHistogramSize. unfold fits in Hc. lia. }
  unfold count_pixel. destruct (array_at_lt _ _ Hi) as (n & _ & ->). cbn [mbind exc_bind].
  rewrite array_put_lt by done. cbn [mbind exc_bind]. apply IH.
  case_match; cbn; by rewrite length_insert.
Qed.

Lemma video_diagnostics_total r : runtime_wf r ->
  ensures (fun p => runtime_wf p.2) (video_diagnostics r).
Proof.
  intros Hr. unfold video_diagnostics, analyze_framebuffer. destruct Hr as (Hs & [Hl Hf] & calls & Hr).
  destruct (count_pixels_ok (renderer_ r) (mkHistogram (replicate kHistogramSize 0) 0 0 0) Hf)
    as (h & -> & _); [exact (length_replicate kHistogramSize 0)|].
  cbn [mbind exc_bind]. destruct (array_at_lt (renderer_ r) center_index) as (v & _ & ->).
  { unfold center_index, PpuRenderer.kFramebufferPixels, PpuRenderer.kScreenHeight, PpuRenderer.kScreenWidth in *.
    change (160 / 2 * 240 + 240 / 2) with 19320. lia. }
  cbn [mbind exc_bind]. apply ensures_ret. split; [done|]. split; [by split|].
  exists calls. by eapply raster_with.
Qed.

(** ** Whole pictures *)

(** A step of a frame, whatever its end. *)
Lemma step_frame_report (fuel : nat) (max_steps : Z) dump (r : AndroidRuntime) :
  runtime_wf r -> dump_ok dump -> fits 32 max_steps -> fits 32 (Z.of_nat fuel) ->
  match step_frame_with_fetch_trace fuel max_steps dump r with
  | Throw => False
  | Ret (inl st) => frame_state_ok (framebuffer r) st /\ still_running (Z.of_nat fuel) max_steps st
  | Ret (inr (result, dump', r')) =>
      runtime_wf r' /\ dump_ok dump' /\ published (framebuffer r) result r' /\
      (fr_status result = AndroidRuntimeStatus.invalid_argument /\ max_steps = 0 /\ r' = r \/
       frame_report max_steps result r')
  end.
Proof.
  intros Hr Hd Hm Hf. unfold step_frame_with_fetch_trace.
  set (dump0 := fmap _ dump).
  assert (Hd0 : dump_ok dump0).
  { intros d. subst dump0. destruct dump as [d'|]; [|done]. intros [= <-]. exact (Hd d' eq_refl). }
  destruct (Z.eqb_spec max_steps 0) as [->|Hne].
  { split; [done|]. split; [done|]. split; [by left|]. by left. }
  destruct (resume_presentation_ok r Hr) as (Hr1 & Es & Ef). set (r1 := resume_presentation r) in *.
  unfold attach_observer. set (s := set_scheduler _ _).
  assert (Hs : session_wf s).
  { apply set_scheduler_wf; [|apply Hr1]. intros sc Hsc. apply (observer_wf true) in Hsc.
    revert Hsc. sched_fields. }
  set (start := u64 (_ * _)). set (target := u64 (start + _)).
  set (run := no_run <| requested_steps := max_steps |>).
  destruct (frame_loop_ok fuel (renderer_ r) target max_steps 0 (run, dump0, r1 <| session_ := s |>))
    as ([ended [[run' dump'] r2]] & -> & (Hd' & Hr2 & Ef2) & Hend); [|lia|done|done|].
  { split; [done|]. split; [by apply set_session_wf|done]. }
  cbn [fst snd mbind exc_bind] in *. destruct ended; cbn [negb]; [|by split].
  assert (Hend' : loop_ended target max_steps (run', None, r2)) by exact Hend.
  destruct (finish_frame_ok start target max_steps run' r2 Hr2 Hend')
    as ([result r3] & -> & Hr3 & Hp & Hrep). cbn [fst snd mbind exc_bind] in *.
  split; [|split; [done|split]].
  - apply set_session_wf; [done|]. apply set_scheduler_wf; [|apply Hr3]. apply observer_wf.
  - unfold framebuffer in *. rewrite <- Ef2. exact Hp.
  - right. exact Hrep.
Qed.


