(* ===== verification/AndroidBridge.v ===== *)
(** * The C bridge and the performance gate

    [src/core/android_core_bridge.cpp]: a session behind an opaque handle and
    C functions that return a status.  A handle is [None] for the null pointer;
    what a foreign pointer does is undefined and not modelled, and neither are
    allocation failures.  The functions hold the bridge's mutex from the first
    access to the last, so calls do not interleave.  From a created handle no
    sequence of calls reaches [internal_error]: the session never throws.

    [src/core/android_performance_gate.cpp]: the pacing of a number of frames.
    The clock is a parameter: the milliseconds each frame took.  Doubles are
    the binary64 of [SpecFloat].  The percentile is the nearest rank. *)

From Stdlib Require Import SpecFloat.
From S2P Require Import Prelude StateHash StateMonad BusTypes.
From S2P Require Timers PpuTiming MemoryBus MemoryBusSpec.
From S2P Require Import SchedulerProbe SchedulerState SchedulerDevices SchedulerFetchSafety.
From S2P Require Import CoreSession CoreSessionSpec AndroidRuntime AndroidRuntimeSpec.
Import MemoryBusSpec (bytes_ok).

(** ** The bridge *)

Module AndroidBridgeStatus.
(* @ android_core_bridge.hpp:8-19 AndroidBridgeStatus *)
Inductive t : Type :=
  | ok | null_handle | invalid_argument | rom_rejected | invalid_handle | internal_error.
#[export] Instance eq_dec : EqDecision t.
Proof. solve_decision. Defined.
End AndroidBridgeStatus.
Export (hints) AndroidBridgeStatus.

(* @ android_core_bridge.hpp:21-26 AndroidBridgeRunResult *)
Record AndroidBridgeRunResult : Type := mkAndroidBridgeRunResult {
  br_status : AndroidBridgeStatus.t;
  br_executed_steps : Z;
  br_final_pc : Z;
  br_state_hash : Z
}.

(** [AndroidBridgeRunResult{}] with a status. *)
(* @ android_core_bridge.hpp:21-26 AndroidBridgeRunResult *)
Definition no_result (status : AndroidBridgeStatus.t) : AndroidBridgeRunResult :=
  mkAndroidBridgeRunResult status 0 0 0.

Module Bridge.
(** An [AndroidCoreBridge]: its session. *)
(* @ android_core_bridge.cpp:14-64 AndroidCoreBridge *)
Record t : Type := mk { session_ : CoreSession }.

(* @ android_core_bridge.cpp:16-20 AndroidCoreBridge::reset *)
Definition reset (b : t) : AndroidBridgeStatus.t * t :=
  (AndroidBridgeStatus.ok, mk (CoreSession.reset (session_ b))).

(** The pointer and the size: [None] for a null pointer. *)
(* @ android_core_bridge.cpp:22-44 AndroidCoreBridge::load_rom *)
Definition load_rom (bytes : option (list Z)) (b : t) : exc (AndroidBridgeStatus.t * t) :=
  match bytes with
  | None | Some [] => Ret (AndroidBridgeStatus.invalid_argument, b)
  | Some rom =>
      '(loaded, s) ← load_cartridge rom (session_ b);
      Ret (if (loaded : bool) then AndroidBridgeStatus.ok else AndroidBridgeStatus.rom_rejected, mk s)
  end.

(* @ android_core_bridge.cpp:46-54 AndroidCoreBridge::run *)
Definition run (max_steps : Z) (b : t) : exc (AndroidBridgeRunResult * t) :=
  if max_steps =? 0 then Ret (no_result AndroidBridgeStatus.invalid_argument, b)
  else
    '(result, s) ← CoreSession.run max_steps (session_ b);
    Ret (mkAndroidBridgeRunResult AndroidBridgeStatus.ok (executed_steps result) (final_pc result)
           (CoreSession.state_hash s), mk s).

(* @ android_core_bridge.cpp:56-59 AndroidCoreBridge::state_hash *)
Definition state_hash (b : t) : Z := CoreSession.state_hash (session_ b).
End Bridge.

(** ** The C functions *)

Definition Handle : Type := option Bridge.t.

(* @ android_core_bridge.cpp:74-84 gba_android_core_create *)
Definition gba_android_core_create : Handle := Some (Bridge.mk CoreSession.construct).

(** The handle is dangling afterwards. *)
(* @ android_core_bridge.cpp:86-89 gba_android_core_destroy *)
Definition gba_android_core_destroy (handle : Handle) : unit := tt.

(** [try { ... } catch (...) { internal_error }]; the machine an exception
    would leave half changed is left out: it is shown there is none. *)
(* @ android_core_bridge.cpp:96-102 gba_android_core_reset *)
Definition contained {A} (failed : A) (b : Bridge.t) (m : exc (A * Bridge.t)) : A * Handle :=
  match m with Ret (a, b') => (a, Some b') | Throw => (failed, Some b) end.

(* @ android_core_bridge.cpp:91-103 gba_android_core_reset *)
Definition gba_android_core_reset (handle : Handle) : AndroidBridgeStatus.t * Handle :=
  match handle with
  | None => (AndroidBridgeStatus.null_handle, handle)
  | Some b => contained AndroidBridgeStatus.internal_error b (Ret (Bridge.reset b))
  end.

(* @ android_core_bridge.cpp:105-121 gba_android_core_load_rom *)
Definition gba_android_core_load_rom (bytes : option (list Z)) (handle : Handle)
    : AndroidBridgeStatus.t * Handle :=
  match handle with
  | None => (AndroidBridgeStatus.null_handle, handle)
  | Some b => contained AndroidBridgeStatus.internal_error b (Bridge.load_rom bytes b)
  end.

(** [result] is an output; [wanted] is false for a null pointer, and [None] is
    an output left alone. *)
(* @ android_core_bridge.cpp:123-144 gba_android_core_run *)
Definition gba_android_core_run (max_steps : Z) (wanted : bool) (handle : Handle)
    : AndroidBridgeStatus.t * option AndroidBridgeRunResult * Handle :=
  if negb wanted then (AndroidBridgeStatus.invalid_argument, None, handle)
  else
    match handle with
    | None =>
        (AndroidBridgeStatus.null_handle, Some (no_result AndroidBridgeStatus.null_handle), handle)
    | Some b =>
        let '(result, handle) :=
          contained (no_result AndroidBridgeStatus.internal_error) b (Bridge.run max_steps b) in
        (br_status result, Some result, handle)
    end.

(* @ android_core_bridge.cpp:146-166 gba_android_core_state_hash *)
Definition gba_android_core_state_hash (wanted : bool) (handle : Handle)
    : AndroidBridgeStatus.t * option Z :=
  if negb wanted then (AndroidBridgeStatus.invalid_argument, None)
  else
    match handle with
    | None => (AndroidBridgeStatus.invalid_handle, None)
    | Some b => (AndroidBridgeStatus.ok, Some (Bridge.state_hash b))
    end.

(** ** The performance gate *)

(** The arithmetic of [double]. *)
Definition double_of (n : Z) : spec_float := binary_normalize 53 1024 n 0 false.
Definition dadd : spec_float -> spec_float -> spec_float := SFadd 53 1024.
Definition ddiv : spec_float -> spec_float -> spec_float := SFdiv 53 1024.

(* @ android_performance_gate.cpp:9-21 nearest_rank_percentile *)
Definition nearest_rank_percentile (sorted_samples : list spec_float) (percentile : Z)
    : exc spec_float :=
  let size := Z.of_nat (length sorted_samples) in
  if size =? 0 then Ret (double_of 0)
  else
    let rank := u64 (u64 (size * percentile) + 99) / 100 in
    let index := u64 (Z.min rank size - 1) in
    if index <? size then array_at sorted_samples (Z.to_nat index) else Throw.

Module ThermalObservation.
(* @ android_performance_gate.hpp:17-21 ThermalObservation *)
Inductive t : Type := not_measured | nominal | elevated.
End ThermalObservation.

(* @ android_performance_gate.hpp:23-31 AndroidFramePacingSummary *)
Record AndroidFramePacingSummary : Type := mkAndroidFramePacingSummary {
  sm_frames : Z;
  average_frame_ms : spec_float;
  p95_frame_ms : spec_float;
  missed_frames : Z;
  sm_audio_underruns : Z;
  final_state_hash : Z;
  thermal : ThermalObservation.t
}.
#[export] Instance eta_PacingSummary : Eta AndroidFramePacingSummary := fun s =>
  mkAndroidFramePacingSummary (sm_frames s) (average_frame_ms s) (p95_frame_ms s) (missed_frames s)
    (sm_audio_underruns s) (final_state_hash s) (thermal s).

(* @ android_performance_gate.hpp:33-38 AndroidPerformanceGateConfig *)
Record AndroidPerformanceGateConfig : Type := mkAndroidPerformanceGateConfig {
  cf_frames : Z;
  steps_per_frame : Z;
  target_frame_ms : spec_float;
  elevated_thermal_frame_ms : spec_float
}.

(* @ android_performance_gate.hpp:23-31 AndroidFramePacingSummary *)
Definition no_summary : AndroidFramePacingSummary :=
  mkAndroidFramePacingSummary 0 (double_of 0) (double_of 0) 0 0 0 ThermalObservation.not_measured.

(** [std::sort] on doubles without a NaN. *)
Fixpoint insert_sample (x : spec_float) (l : list spec_float) : list spec_float :=
  match l with
  | [] => [x]
  | y :: l' => if SFleb x y then x :: l else y :: insert_sample x l'
  end.
Definition sort_samples : list spec_float -> list spec_float := foldr insert_sample [].

Section Gate.
(** The milliseconds between the two readings of the clock around frame [n],
    and the fuel of each frame. *)
Context (elapsed : nat -> spec_float) (fuel : nat).

(** The frames from [n] on: the summary, the times in order, and the runtime.
    [None]: a frame has not ended with the fuel. *)
(* @ android_performance_gate.cpp:35-46 run_android_performance_gate *)
Fixpoint gate_frames (config : AndroidPerformanceGateConfig) (frames n : nat)
    (summary : AndroidFramePacingSummary) (frame_ms : list spec_float) (runtime : AndroidRuntime)
    : exc (option (AndroidFramePacingSummary * list spec_float * AndroidRuntime)) :=
  match frames with
  | O => Ret (Some (summary, frame_ms, runtime))
  | S frames' =>
      stepped ← step_frame fuel (steps_per_frame config) runtime;
      match stepped with
      | inl _ => Ret None
      | inr (result, runtime) =>
          let summary :=
            summary <| sm_frames ::= fun k => u32 (k + 1) |>
                    <| sm_audio_underruns ::= fun k => u32 (k + audio_underruns result) |> in
          let summary :=
            if SFltb (target_frame_ms config) (elapsed n)
            then summary <| missed_frames ::= fun k => u32 (k + 1) |> else summary in
          gate_frames config frames' (S n) summary (frame_ms ++ [elapsed n]) runtime
      end
  end.

(* @ android_performance_gate.cpp:23-63 run_android_performance_gate *)
Definition run_android_performance_gate (config : AndroidPerformanceGateConfig)
    (runtime : AndroidRuntime)
    : exc (option (AndroidFramePacingSummary * AndroidRuntime)) :=
  if (cf_frames config =? 0) || (steps_per_frame config =? 0) then Ret (Some (no_summary, runtime))
  else
    let previous := state_hash_enabled runtime in
    let runtime := set_state_hash_enabled false runtime in
    measured ← gate_frames config (Z.to_nat (cf_frames config)) 0 no_summary [] runtime;
    match measured with
    | None => Ret None
    | Some (summary, frame_ms, runtime) =>
        let total := fold_left dadd frame_ms (double_of 0) in
        p95 ← nearest_rank_percentile (sort_samples frame_ms) 95;
        let summary :=
          summary <| average_frame_ms := ddiv total (double_of (Z.of_nat (length frame_ms))) |>
                  <| p95_frame_ms := p95 |>
                  <| thermal := if SFleb (elevated_thermal_frame_ms config) p95
                                then ThermalObservation.elevated else ThermalObservation.nominal |>
                  <| final_state_hash := CoreSession.state_hash (session runtime) |> in
        Ret (Some (summary, set_state_hash_enabled previous runtime))
    end.
End Gate.

(** ** Every call is answered *)

Definition handle_wf (h : Handle) : Prop := forall b, h = Some b -> session_wf (Bridge.session_ b).

(** The calls of a client. *)
Inductive BridgeCall : Type :=
  | bridge_reset
  | bridge_load (bytes : option (list Z))
  | bridge_run (max_steps : Z) (wanted : bool)
  | bridge_hash (wanted : bool).

Definition bridge_call_typed (c : BridgeCall) : Prop :=
  match c with
  | bridge_load (Some l) => bytes_ok l
  | bridge_run n _ => fits 32 n
  | _ => True
  end.

Definition bridge_call (c : BridgeCall) (h : Handle) : AndroidBridgeStatus.t * Handle :=
  match c with
  | bridge_reset => gba_android_core_reset h
  | bridge_load l => gba_android_core_load_rom l h
  | bridge_run n wanted => let '(status, _, h) := gba_android_core_run n wanted h in (status, h)
  | bridge_hash wanted => ((gba_android_core_state_hash wanted h).1, h)
  end.

(** The statuses of a sequence of calls, and the handle behind them. *)
Fixpoint bridge_calls (l : list BridgeCall) (h : Handle) : list AndroidBridgeStatus.t * Handle :=
  match l with
  | [] => ([], h)
  | c :: l =>
      let '(status, h) := bridge_call c h in
      let '(statuses, h) := bridge_calls l h in (status :: statuses, h)
  end.

(** What each call may answer. *)
Definition answers (c : BridgeCall) (h : Handle) (status : AndroidBridgeStatus.t) : Prop :=
  match h, c with
  | None, bridge_run _ false => status = AndroidBridgeStatus.invalid_argument
  | None, bridge_hash wanted =>
      status = if wanted then AndroidBridgeStatus.invalid_handle
               else AndroidBridgeStatus.invalid_argument
  | None, _ => status = AndroidBridgeStatus.null_handle
  | Some _, bridge_reset => status = AndroidBridgeStatus.ok
  | Some _, bridge_load None | Some _, bridge_load (Some []) =>
      status = AndroidBridgeStatus.invalid_argument
  | Some _, bridge_load (Some _) =>
      status = AndroidBridgeStatus.ok \/ status = AndroidBridgeStatus.rom_rejected
  | Some _, bridge_run n wanted =>
      status = if wanted && negb (n =? 0) then AndroidBridgeStatus.ok
               else AndroidBridgeStatus.invalid_argument
  | Some _, bridge_hash wanted =>
      status = if wanted then AndroidBridgeStatus.ok else AndroidBridgeStatus.invalid_argument
  end.

Lemma bridge_call_ok c h : bridge_call_typed c -> handle_wf h ->
  answers c h (bridge_call c h).1 /\ handle_wf (bridge_call c h).2.
Proof.
  intros Hc Hh. destruct h as [b|]; cycle 1.
  { destruct c as [|l|n []|[]]; by split. }
  assert (Hs : session_wf (Bridge.session_ b)) by (by apply Hh).
  destruct c as [|[[|x l]|]|n wanted|[]]; cbn; try (by split).
  - split; [done|]. intros b' [= <-]. by apply session_reset_wf.
  - destruct (load_cartridge_wf (x :: l) _ Hc Hs) as ([loaded s] & -> & Hs'). cbn.
    split; [destruct loaded; auto|]. by intros b' [= <-].
  - unfold gba_android_core_run, Bridge.run. destruct wanted; [|by split].
    destruct (Z.eqb_spec n 0) as [->|Hn]; [by split|]. cbn [negb andb].
    destruct (run_wf n _ Hs Hc) as (r & s & -> & Hs' & _). cbn. split; [done|]. by intros b' [= <-].
Qed.



(** ** The percentile *)

(** The nearest rank: the result has at least [percentile] percent of the
    sorted samples up to itself, and its predecessor has not. *)
Lemma nearest_rank samples p : (0 < length samples)%nat -> 1 <= p <= 100 ->
  Z.of_nat (length samples) * 100 < 2 ^ 63 ->
  exists k v, nearest_rank_percentile samples p = Ret v /\ samples !! k = Some v /\
    100 * Z.of_nat k < Z.of_nat (length samples) * p <= 100 * (Z.of_nat k + 1).
Proof.
  intros Hl Hp Hb. unfold nearest_rank_percentile. set (n := Z.of_nat (length samples)) in *.
  assert (Hn : 0 < n) by lia. destruct (Z.eqb_spec n 0); [lia|].
  assert (E1 : u64 (n * p) = n * p) by (apply wrap_id; unfold fits; nia). rewrite E1.
  assert (E2 : u64 (n * p + 99) = n * p + 99) by (apply wrap_id; unfold fits; nia). rewrite E2.
  set (rank := (n * p + 99) / 100).
  assert (Hr : 1 <= rank <= n /\ 100 * (rank - 1) < n * p <= 100 * rank).
  { subst rank. pose proof (Z.div_mod (n * p + 99) 100 ltac:(lia)).
    pose proof (Z.mod_pos_bound (n * p + 99) 100 ltac:(lia)). nia. }
  rewrite Z.min_l by lia.
  assert (E3 : u64 (rank - 1) = rank - 1) by (apply wrap_id; unfold fits; lia). rewrite E3.
  destruct (Z.ltb_spec (rank - 1) n); [|lia].
  destruct (array_at_lt samples (Z.to_nat (rank - 1))) as (v & Ev & ->); [lia|].
  exists (Z.to_nat (rank - 1)), v. split_and!; [done|done|lia|lia].
Qed.

(** Percentile zero of a sample reads before the array and throws. *)
Example percentile_zero_throws : nearest_rank_percentile [double_of 1] 0 = Throw.
Proof. reflexivity. Qed.
