(* ===== verification/Persistence.v ===== *)
(** * Files of the desktop host

    [apps/desktop/desktop_persistence.hpp] over a file system whose operations
    may fail.  A [World] is the file system, the outcomes the environment will
    give the next operations and the next queries, and the states the file system went through: what
    a process killed at that point leaves behind.  An operation of
    [std::filesystem] that reports an error has no effect; [exists] and
    [is_regular_file] answer false when they fail; a write that fails leaves a
    part of the bytes.  Paths are UTF-8 strings, split at their last slash;
    repeated slashes, links and drive letters are not modelled. *)

From Stdlib Require Import Ascii.
From stdpp Require Import strings gmap pretty.
From S2P Require Import Prelude.
Local Open Scope string_scope.
Local Open Scope list_scope.

(** ** Paths *)

(** [std::filesystem::path]: the directory before the last slash, if any, and
    the file name. *)
Record Path : Type := mkPath {
  parent : option string;
  filename : string
}.

(** The path up to its last slash, and the rest. *)
Fixpoint split_path (s : string) : option string * string :=
  match s with
  | EmptyString => (None, EmptyString)
  | String c s' =>
      match split_path s' with
      | (Some d, n) => (Some (String c d), n)
      | (None, n) => if Ascii.eqb c "/"%char then (Some EmptyString, n) else (None, String c n)
      end
  end.

(* @ apps/desktop/desktop_persistence.hpp:26-28 native_path *)
Definition native_path (utf8_path : string) : Path :=
  let '(d, n) := split_path utf8_path in mkPath d n.

(** [u8string()]. *)
Definition u8string (p : Path) : string :=
  match parent p with
  | Some d => d +:+ "/" +:+ filename p
  | None => filename p
  end.

(** The file a path names: a path without a directory is in [.]. *)
Definition key (p : Path) : string * string := (default "." (parent p), filename p).

(** [dir / (filename + suffix)]. *)
(* @ apps/desktop/desktop_persistence.hpp:81-86 write_file_atomic *)
Definition sibling (p : Path) (suffix : string) : Path :=
  mkPath (Some (default "." (parent p))) (filename p +:+ suffix).

(** ** The file system *)

Inductive Node : Type :=
  | regular (bytes : list Z)
  | directory.
#[export] Instance node_eq_dec : EqDecision Node.
Proof. solve_decision. Defined.

Notation Files := (gmap (string * string) Node).

(** What the environment does to an operation: nothing, an error, or an error
    after [n] bytes of a write. *)
Inductive Outcome : Type :=
  | succeeds
  | fails (n : nat).

Record World : Type := mkWorld {
  files : Files;
  outcomes : list Outcome;
  probe_outcomes : list Outcome;
  history : list Files
}.
#[export] Instance eta_World : Eta World := fun w =>
  mkWorld (files w) (outcomes w) (probe_outcomes w) (history w).

Definition FS (A : Type) : Type := World -> A * World.
#[export] Instance fs_ret : MRet FS := fun A a w => (a, w).
#[export] Instance fs_bind : MBind FS := fun A B f m w => let '(a, w) := m w in f a w.

(** The outcome of the next operation; the environment is kind at the end. *)
Definition next_outcome : FS Outcome := fun w =>
  match outcomes w with
  | [] => (succeeds, w)
  | o :: l => (o, w <| outcomes := l |>)
  end.

Definition get_files : FS Files := fun w => (files w, w).

(** The outcome of the next query of a file's status. *)
Definition next_probe : FS Outcome := fun w =>
  match probe_outcomes w with
  | [] => (succeeds, w)
  | o :: l => (o, w <| probe_outcomes := l |>)
  end.

(** A state the file system passes through. *)
Definition put_files (f : Files) : FS unit := fun w =>
  (tt, w <| files := f |> <| history ::= fun h => h ++ [f] |>).

(** [true]: no error. *)
Definition attempt (change : Files -> option Files) : FS bool :=
  o ← next_outcome;
  f ← get_files;
  match o, change f with
  | succeeds, Some f' => put_files f';; mret true
  | _, _ => mret false
  end.

(** [std::filesystem::exists(p, ec)]: false on an error. *)
Definition exists_ (p : Path) : FS bool :=
  o ← next_probe;
  f ← get_files;
  mret match o with succeeds => bool_decide (is_Some (f !! key p)) | fails _ => false end.

(** [std::filesystem::is_regular_file(p, ec)]. *)
Definition is_regular_file (p : Path) : FS bool :=
  o ← next_probe;
  f ← get_files;
  mret match o, f !! key p with succeeds, Some (regular _) => true | _, _ => false end.

(** [std::filesystem::remove(p, ec)]; a directory is taken not to be empty. *)
Definition remove (p : Path) : FS bool :=
  attempt (fun f => match f !! key p with
                    | Some directory => None
                    | _ => Some (delete (key p) f)
                    end).

(** [std::filesystem::rename(from, to, ec)]: replaces a file. *)
Definition rename_files (from to : Path) (f : Files) : option Files :=
  match f !! key from with
  | None => None
  | Some n =>
      match n, f !! key to with
      | _, Some directory | directory, Some (regular _) => None
      | _, _ => Some (<[key to := n]> (delete (key from) f))
      end
  end.
Definition rename (from to : Path) : FS bool := attempt (rename_files from to).

(** [std::filesystem::copy_file(from, to, overwrite_existing, ec)]. *)
Definition copy_file (from to : Path) : FS bool :=
  attempt (fun f =>
    match f !! key from, f !! key to with
    | Some (regular b), Some directory => None
    | Some (regular b), _ => Some (<[key to := regular b]> f)
    | _, _ => None
    end).

(** [std::ofstream out(p, binary | trunc)]. *)
Definition open_truncated (p : Path) : FS bool :=
  attempt (fun f => match f !! key p with
                    | Some directory => None
                    | _ => Some (<[key p := regular []]> f)
                    end).

(** [out.write(bytes)] to a file just truncated: the bytes reach the file one
    after the other, and an error stops them. *)
Fixpoint put_prefixes (p : Path) (done todo : list Z) (limit : nat) : FS unit :=
  match limit, todo with
  | S limit', b :: todo' =>
      f ← get_files;
      put_files (<[key p := regular (done ++ [b])]> f);;
      put_prefixes p (done ++ [b]) todo' limit'
  | _, _ => mret tt
  end.

Definition write_bytes (p : Path) (bytes : list Z) : FS bool :=
  o ← next_outcome;
  match o with
  | succeeds => put_prefixes p [] bytes (length bytes);; mret true
  | fails n => put_prefixes p [] bytes (n `min` pred (length bytes));; mret false
  end.

(** An operation on a stream that changes no file: opening to read, reading,
    [flush] after the bytes are out. *)
Definition stream_good : FS bool :=
  o ← next_outcome; mret match o with succeeds => true | fails _ => false end.

(** ** Reading *)

(** [std::ifstream] and [read]: one outcome for each. *)
(* @ apps/desktop/desktop_persistence.hpp:32-57 read_binary_file *)
Definition read_binary_file (path : string) : FS (list Z) :=
  let native := native_path path in
  is_file ← is_regular_file native;
  if negb is_file then mret []
  else
    opened ← stream_good;
    f ← get_files;
    match f !! key native with
    | Some (regular bytes) =>
        if negb opened then mret []
        else if bool_decide (bytes = []) then mret []
        else
          complete ← stream_good;
          mret (if (complete : bool) then bytes else [])
    | _ => mret []
    end.

(** ** Writing *)

(** The temporary file: [true] when it holds all the bytes. *)
(* @ apps/desktop/desktop_persistence.hpp:88-103 write_file_atomic *)
Definition write_temporary (temp : Path) (bytes : list Z) : FS bool :=
  opened ← open_truncated temp;
  if negb opened then mret false
  else
    written ← (if bool_decide (bytes = []) then mret true else write_bytes temp bytes);
    flushed ← (if (written : bool) then stream_good else mret false);
    if negb flushed then remove temp;; mret false else mret true.

(** A file left over at the move-aside name by an interrupted fallback is put
    back: [false] when that fails. *)
(* @ apps/desktop/desktop_persistence.hpp:109-126 write_file_atomic *)
Definition restore_orphan (target backup temp : Path) : FS bool :=
  target_exists ← exists_ target;
  backup_exists ← exists_ backup;
  if negb target_exists && (backup_exists : bool) then
    recovered ← rename backup target;
    if negb recovered then remove temp;; mret false else mret true
  else mret true.

(** The replacement where the platform does not replace in place: the old file
    is moved aside and put back if the new one cannot take its place. *)
(* @ apps/desktop/desktop_persistence.hpp:136-159 write_file_atomic *)
Definition replace_aside (target backup temp : Path) : FS bool :=
  remove backup;;
  moved ← rename target backup;
  if negb moved then remove temp;; mret false
  else
    replaced ← rename temp target;
    if negb replaced then rename backup target;; remove temp;; mret false
    else remove backup;; mret true.

(* @ apps/desktop/desktop_persistence.hpp:78-160 write_file_atomic *)
Definition write_file_atomic (path : string) (bytes : list Z) : FS bool :=
  let target := native_path path in
  let temp := sibling target ".tmp" in
  let backup := sibling target ".old" in
  written ← write_temporary temp bytes;
  if negb written then mret false
  else
    ready ← restore_orphan target backup temp;
    if negb ready then mret false
    else
      renamed ← rename temp target;
      if (renamed : bool) then remove backup;; mret true
      else replace_aside target backup temp.

(** ** Backups *)

(** The first free name of [base], [base.1], ... at most [tries] further ones. *)
(* @ apps/desktop/desktop_persistence.hpp:174-178 backup_file *)
Fixpoint backup_candidate (base : Path) (candidate : Path) (attempt : Z) (tries : nat) : FS Path :=
  taken ← exists_ candidate;
  if (taken : bool) && (attempt <? 1000)%Z then
    match tries with
    | O => mret candidate
    | S tries' =>
        backup_candidate base (native_path (u8string base +:+ "." +:+ pretty attempt))
          (attempt + 1)%Z tries'
    end
  else mret candidate.

(* @ apps/desktop/desktop_persistence.hpp:166-185 backup_file *)
Definition backup_file (path suffix : string) : FS (option string) :=
  let native := native_path path in
  there ← exists_ native;
  if negb there then mret None
  else
    let base := native_path (path +:+ suffix) in
    candidate ← backup_candidate base base 1 1000;
    copied ← copy_file native candidate;
    mret (if (copied : bool) then Some (u8string candidate) else None).

(** ** Names *)

(* @ apps/desktop/desktop_persistence.hpp:189-196 save_data_prefix *)
Definition save_data_prefix (rom_path save_directory : string) : string :=
  if (save_directory =? EmptyString)%string then rom_path
  else u8string (mkPath (Some save_directory) (filename (native_path rom_path))).

(* @ apps/desktop/desktop_persistence.hpp:198-200 cartridge_save_path *)
Definition cartridge_save_path (prefix : string) : string := prefix +:+ ".sav".

(* @ apps/desktop/desktop_persistence.hpp:204-206 save_state_path *)
Definition save_state_path (prefix : string) (slot : Z) : string :=
  prefix +:+ ".state" +:+ pretty slot.
