(* ===== verification/PersistenceSpec.v ===== *)
(** * Files of the desktop host: saves survive

    [write_file_atomic] never loses a save: whatever operations fail, and at
    whatever point the process is killed, the file system holds the old or the
    new content where the next run looks for it. *)

From stdpp Require Import strings gmap.
From S2P Require Import Prelude Persistence.
Local Open Scope string_scope.
Local Open Scope list_scope.

(** ** Names *)

Lemma append_longer (s t : string) : t <> EmptyString -> s <> s +:+ t.
Proof.
  intros Ht E. apply Ht. induction s as [|c s IH]; [by rewrite E|].
  change (String c s = String c (s +:+ t)) in E. injection E as E. by apply IH.
Qed.

(** ** A logic of the file system

    [tri P Inv m Q]: from files in [P], with truthful queries, [m] ends in [Q],
    and the file system passes only through states of [Inv]. *)

Definition tri {A : Type} (P Inv : Files -> Prop) (m : FS A) (Q : A -> Files -> Prop) : Prop :=
  forall w, probe_outcomes w = [] -> P (files w) ->
  exists steps, history (m w).2 = history w ++ steps /\ Forall Inv steps /\
    probe_outcomes (m w).2 = [] /\ Q (m w).1 (files (m w).2).

Section Logic.
Context (Inv : Files -> Prop).

Lemma tri_ret {A : Type} (a : A) (P : Files -> Prop) (Q : A -> Files -> Prop) :
  (forall f, P f -> Q a f) -> tri P Inv (mret a) Q.
Proof using. intros H w Hp HP. exists []. rewrite app_nil_r. split_and!; auto. Qed.

Lemma tri_bind {A B : Type} (P : Files -> Prop) (R : A -> Files -> Prop) (Q : B -> Files -> Prop)
    (m : FS A) (k : A -> FS B) :
  tri P Inv m R -> (forall a, tri (R a) Inv (k a) Q) -> tri P Inv (m ≫= k) Q.
Proof using.
  intros Hm Hk w Hp HP. destruct (Hm w Hp HP) as (s1 & E1 & I1 & P1 & R1).
  unfold mbind, fs_bind. destruct (m w) as [a w1]. cbn [fst snd] in *.
  destruct (Hk a w1 P1 R1) as (s2 & E2 & I2 & P2 & Q2).
  exists (s1 ++ s2). split; [by rewrite E2, E1, app_assoc|]. split; [by apply Forall_app_2|done].
Qed.

Lemma tri_pre {A : Type} (P P' : Files -> Prop) (m : FS A) Q :
  (forall f, P f -> P' f) -> tri P' Inv m Q -> tri P Inv m Q.
Proof using. intros H Hm w Hp HP. apply Hm; auto. Qed.

Lemma tri_post {A : Type} (P : Files -> Prop) (m : FS A) (Q Q' : A -> Files -> Prop) :
  (forall a f, Q a f -> Q' a f) -> tri P Inv m Q -> tri P Inv m Q'.
Proof using.
  intros H Hm w Hp HP. destruct (Hm w Hp HP) as (s & E & I & P' & HQ). exists s. auto.
Qed.

Lemma tri_or {A : Type} (P P' : Files -> Prop) (m : FS A) Q :
  tri P Inv m Q -> tri P' Inv m Q -> tri (fun f => P f \/ P' f) Inv m Q.
Proof using. intros H H' w Hp [HP|HP]; auto. Qed.

Lemma tri_pure {A : Type} (phi : Prop) (P : Files -> Prop) (m : FS A) Q :
  (phi -> tri P Inv m Q) -> tri (fun f => phi /\ P f) Inv m Q.
Proof using. intros H w Hp [Hphi HP]. by apply H. Qed.

Lemma tri_ex {A X : Type} (P : X -> Files -> Prop) (m : FS A) Q :
  (forall x, tri (P x) Inv m Q) -> tri (fun f => exists x, P x f) Inv m Q.
Proof using. intros H w Hp [x HP]. by apply (H x). Qed.

Lemma tri_outcome P : tri P Inv next_outcome (fun _ => P).
Proof using.
  intros w Hp HP. exists []. unfold next_outcome. rewrite app_nil_r. by destruct (outcomes w).
Qed.

Lemma tri_get P : tri P Inv get_files (fun a f => a = f /\ P f).
Proof using. intros w Hp HP. exists []. by rewrite app_nil_r. Qed.

Lemma tri_put (f : Files) (P Q : Files -> Prop) : Q f -> Inv f -> tri P Inv (put_files f) (fun _ => Q).
Proof using.
  intros Hq Hi w Hp _. exists [f]. cbn. split_and!; try done. by constructor.
Qed.

(** A change that depends on the files. *)
Lemma tri_update {A : Type} (g : Files -> Files) (P Q : Files -> Prop) (k : FS A) R :
  (forall f, P f -> Q (g f) /\ Inv (g f)) -> tri Q Inv k R ->
  tri P Inv (f ← get_files; put_files (g f);; k) R.
Proof using.
  intros Hg Hk w Hp HP. destruct (Hg _ HP) as [Hq Hi].
  destruct (Hk (mkWorld (g (files w)) (outcomes w) (probe_outcomes w) (history w ++ [g (files w)])) Hp Hq)
    as (s & E & HI & P' & HR).
  exists (g (files w) :: s). split; [|split; [by constructor|by split]].
  etransitivity; [exact E|]. cbn. by rewrite <- app_assoc.
Qed.

Lemma tri_stream_good P : tri P Inv stream_good (fun _ => P).
Proof using. eapply tri_bind; [apply tri_outcome|]. intros o. by apply tri_ret. Qed.

(** An operation that may fail. *)
Lemma tri_attempt (change : Files -> option Files) (P : Files -> Prop) (Q : bool -> Files -> Prop) :
  (forall f f', P f -> change f = Some f' -> Q true f' /\ Inv f') ->
  (forall f, P f -> Q false f) ->
  tri P Inv (attempt change) Q.
Proof using.
  intros Ht Hf w Hp HP. unfold attempt, mbind, fs_bind. unfold next_outcome.
  destruct (outcomes w) as [|o l]; cbn.
  2: destruct o; [|exists []; rewrite app_nil_r; split_and!; auto].
  all: destruct (change (files w)) as [f'|] eqn:E; cbn; cycle 1;
    [exists []; rewrite app_nil_r; split_and!; auto|].
  all: destruct (Ht _ _ HP E) as [Hq Hi]; exists [f']; split_and!; auto; by constructor.
Qed.

(** A truthful query. *)
Lemma tri_exists (p : Path) (P : Files -> Prop) :
  tri P Inv (exists_ p) (fun b f => b = bool_decide (is_Some (f !! key p)) /\ P f).
Proof using.
  intros w Hp HP. exists []. unfold exists_, mbind, fs_bind, next_probe. rewrite Hp. cbn.
  rewrite app_nil_r. by split_and!.
Qed.
End Logic.

(** ** The content of a save *)

(** What the next run finds: the file, or the one moved aside by an interrupted
    replacement ([restore_orphan], and the loading of a cartridge). *)
Definition recovered (target : Path) (f : Files) : option Node :=
  match f !! key target with
  | Some n => Some n
  | None => f !! key (sibling target ".old")
  end.

Section Atomic.
Context (target : Path) (bytes : list Z) (f0 : Files).

Let temp := sibling target ".tmp".
Let backup := sibling target ".old".

Lemma temp_target : key temp <> key target.
Proof using. intros [= E]. by apply (append_longer (filename target) ".tmp"). Qed.

Lemma backup_target : key backup <> key target.
Proof using. intros [= E]. by apply (append_longer (filename target) ".old"). Qed.

Lemma temp_backup : key temp <> key backup.
Proof using. intros [= E]. by apply (inj (String.append _)) in E. Qed.

(** The three files, and the others as they were. *)
Definition three (a b t : option Node) (f : Files) : Prop :=
  f !! key target = a /\ f !! key backup = b /\ f !! key temp = t /\
  forall k, k <> key target -> k <> key backup -> k <> key temp -> f !! k = f0 !! k.

(** The save of a file and its move-aside copy. *)
Definition save_of (a b : option Node) : option Node :=
  match a with Some n => Some n | None => b end.

Definition old_save : option Node := recovered target f0.

(** The save is the old or the new one, and no other file has changed. *)
Definition safe_files (f : Files) : Prop :=
  (recovered target f = old_save \/ recovered target f = Some (regular bytes)) /\
  forall k, k <> key target -> k <> key backup -> k <> key temp -> f !! k = f0 !! k.

Definition good (a b : option Node) : Prop := save_of a b = old_save \/ save_of a b = Some (regular bytes).

Lemma three_safe a b t f : three a b t f -> good a b -> safe_files f.
Proof using.
  intros (Ha & Hb & _ & Hf) Hg. split; [|done]. unfold recovered. fold backup. by rewrite Ha, Hb.
Qed.

Ltac lookups :=
  pose proof temp_target as D1; pose proof backup_target as D2; pose proof temp_backup as D3;
  intros (Ha & Hb & Ht & Hf); unfold three;
  split; [|split; [|split; [|intros k H1 H2 H3]]];
  repeat first [rewrite lookup_insert_eq | rewrite lookup_delete_eq
    | rewrite lookup_insert_ne by congruence | rewrite lookup_delete_ne by congruence];
  auto.

Lemma put_temp a b t x f : three a b t f -> three a b (Some x) (<[key temp := x]> f).
Proof using. lookups. Qed.
Lemma drop_temp a b t f : three a b t f -> three a b None (delete (key temp) f).
Proof using. lookups. Qed.
Lemma drop_backup a b t f : three a b t f -> three a None t (delete (key backup) f).
Proof using. lookups. Qed.
Lemma temp_to_target a b t x f : three a b t f ->
  three (Some x) b None (<[key target := x]> (delete (key temp) f)).
Proof using. lookups. Qed.
Lemma backup_to_target a b t x f : three a b t f ->
  three (Some x) None t (<[key target := x]> (delete (key backup) f)).
Proof using. lookups. Qed.
Lemma target_to_backup a b t x f : three a b t f ->
  three None (Some x) t (<[key backup := x]> (delete (key target) f)).
Proof using. lookups. Qed.

(** *** The operations on the three files *)

Lemma remove_temp a b t : good a b ->
  tri (three a b t) safe_files (remove temp) (fun _ f => exists t', three a b t' f).
Proof using.
  intros Hg. apply tri_attempt; [|by eauto]. intros f f' Hf E.
  assert (f' = delete (key temp) f) as -> by (by repeat case_match; simplify_eq).
  apply drop_temp in Hf. split; [by eauto|by eapply three_safe].
Qed.

Lemma remove_backup a b t : good a None ->
  tri (three a b t) safe_files (remove backup) (fun _ f => exists b', (b' = b \/ b' = None) /\ three a b' t f).
Proof using.
  intros Hg. apply tri_attempt; [|by eauto]. intros f f' Hf E.
  assert (f' = delete (key backup) f) as -> by (by repeat case_match; simplify_eq).
  apply drop_backup in Hf. split; [by eauto|by eapply three_safe].
Qed.

Lemma rename_files_inv from to f f' : rename_files from to f = Some f' ->
  exists n, f !! key from = Some n /\ f' = <[key to := n]> (delete (key from) f).
Proof using.
  unfold rename_files. destruct (f !! key from) as [n|]; [|done]. intros E. exists n.
  split; [done|]. by repeat case_match; simplify_eq.
Qed.

Lemma rename_temp a b x : good (Some x) b ->
  tri (three a b (Some x)) safe_files (rename temp target)
    (fun ok f => if (ok : bool) then three (Some x) b None f else three a b (Some x) f).
Proof using.
  intros Hg. apply tri_attempt; [|done]. intros f f' Hf E.
  apply rename_files_inv in E as (n & En & ->). rewrite (proj1 (proj2 (proj2 Hf))) in En.
  injection En as <-. apply (temp_to_target _ _ _ x) in Hf. split; [done|by eapply three_safe].
Qed.

Lemma rename_backup a b t : good b None ->
  tri (three a b t) safe_files (rename backup target)
    (fun ok f => if (ok : bool) then three b None t f else three a b t f).
Proof using.
  intros Hg. apply tri_attempt; [|done]. intros f f' Hf E.
  apply rename_files_inv in E as (n & En & ->). rewrite (proj1 (proj2 Hf)) in En.
  apply (backup_to_target _ _ _ n) in Hf. rewrite <- En in Hf. split; [done|by eapply three_safe].
Qed.

Lemma rename_target a b t : good None a ->
  tri (three a b t) safe_files (rename target backup)
    (fun ok f => if (ok : bool) then three None a t f /\ is_Some a else three a b t f).
Proof using.
  intros Hg. apply tri_attempt; [|done]. intros f f' Hf E.
  apply rename_files_inv in E as (n & En & ->). rewrite (proj1 Hf) in En.
  apply (target_to_backup _ _ _ n) in Hf. rewrite <- En in Hf. split; [|by eapply three_safe].
  split; [done|]. by rewrite En.
Qed.

(** *** The steps of the write *)

(** The temporary file after a failure: anything. *)
Definition aborted (a b : option Node) (f : Files) : Prop := exists t, three a b t f.

Lemma abort_temp a b t : good a b ->
  tri (three a b t) safe_files (remove temp;; mret false)
    (fun ok f => ok = false /\ aborted a b f).
Proof using.
  intros Hg. eapply tri_bind; [by apply remove_temp|]. intros ?. by apply tri_ret.
Qed.

Lemma put_prefixes_three a b acc todo limit : good a b ->
  tri (three a b (Some (regular acc))) safe_files (put_prefixes temp acc todo limit)
    (fun _ => three a b (Some (regular (acc ++ take limit todo)))).
Proof using.
  intros Hg. revert acc limit. induction todo as [|x todo IH]; intros acc limit; destruct limit as [|limit].
  1-3: apply tri_ret; intros f; cbn [take firstn]; by rewrite app_nil_r.
  cbn [put_prefixes take]. eapply tri_post; [|eapply (tri_update _ _ _ (three a b (Some (regular (acc ++ [x])))));
    [|exact (IH (acc ++ [x]) limit)]].
  - intros ? f. by rewrite <- app_assoc.
  - intros f Hf. apply (put_temp _ _ _ (regular (acc ++ [x]))) in Hf. split; [done|by eapply three_safe].
Qed.

Lemma write_bytes_three a b : good a b ->
  tri (three a b (Some (regular []))) safe_files (write_bytes temp bytes)
    (fun ok f => if (ok : bool) then three a b (Some (regular bytes)) f else aborted a b f).
Proof using.
  intros Hg. eapply tri_bind; [apply tri_outcome|]. intros [|n].
  - eapply tri_bind; [by apply put_prefixes_three|]. intros ?. apply tri_ret. intros f.
    by rewrite firstn_all.
  - eapply tri_bind; [by apply put_prefixes_three|]. intros ?. apply tri_ret. intros f Hf. by eexists.
Qed.

Lemma write_temporary_three a b t : good a b ->
  tri (three a b t) safe_files (write_temporary temp bytes)
    (fun ok f => if (ok : bool) then three a b (Some (regular bytes)) f else aborted a b f).
Proof using.
  intros Hg. unfold write_temporary.
  eapply (tri_bind _ _ (fun ok f => if (ok : bool) then three a b (Some (regular [])) f else three a b t f)).
  { apply tri_attempt; [|done]. intros f f' Hf E.
    assert (f' = <[key temp := regular []]> f) as -> by (by repeat case_match; simplify_eq).
    apply (put_temp _ _ _ (regular [])) in Hf. split; [done|by eapply three_safe]. }
  intros [|]; cbn [negb]; [|apply tri_ret; by eexists].
  eapply (tri_bind _ _ (fun ok f => if (ok : bool) then three a b (Some (regular bytes)) f else aborted a b f)).
  { case_bool_decide as Eb; [|by apply write_bytes_three]. apply tri_ret. intros f. by rewrite Eb. }
  intros written.
  eapply (tri_bind _ _ (fun ok f => if (ok : bool) then three a b (Some (regular bytes)) f else aborted a b f)).
  { destruct written; [|by apply tri_ret]. eapply tri_post; [|apply tri_stream_good].
    intros [] f Hf; [done|by eexists]. }
  intros [|]; cbn [negb]; [by apply tri_ret|].
  apply tri_ex. intros t'. eapply tri_post; [|by apply abort_temp]. by intros ok f [-> H].
Qed.

(** Behind the orphan's recovery: if there is no file, none is set aside. *)
Lemma restore_orphan_three a b t : good a b ->
  tri (three a b t) safe_files (restore_orphan target backup temp)
    (fun ok f => exists a' b', save_of a' b' = save_of a b /\
       if (ok : bool) then (a' = None -> b' = None) /\ three a' b' t f else aborted a' b' f).
Proof using.
  intros Hg. unfold restore_orphan.
  eapply tri_bind; [apply tri_exists|]. intros te.
  eapply tri_bind; [apply tri_exists|]. intros be. fold backup.
  intros w Hp (Ebe & Ete & Hw). revert w Hp Hw Ebe Ete.
  enough (G : te = bool_decide (is_Some a) -> be = bool_decide (is_Some b) ->
    tri (three a b t) safe_files
      (if negb te && (be : bool) then
         recovered ← rename backup target;
         if negb recovered then remove temp;; mret false else mret true
       else mret true)
      (fun ok f => exists a' b', save_of a' b' = save_of a b /\
         if (ok : bool) then (a' = None -> b' = None) /\ three a' b' t f else aborted a' b' f)).
  { intros w Hp Hw Ebe Ete. destruct Hw as (Ha & Hb & Hw). apply G; [by rewrite Ete, Ha|by rewrite Ebe, Hb|done|].
    exact (conj Ha (conj Hb Hw)). }
  intros -> ->. destruct a as [na|]; cbn [negb andb].
  { rewrite bool_decide_true by eauto. cbn [negb andb]. apply tri_ret. intros f Hf. exists (Some na), b. by split_and!. }
  rewrite bool_decide_false by (by intros []). cbn [negb andb]. destruct b as [nb|]; cycle 1.
  { rewrite bool_decide_false by (by intros []). apply tri_ret. intros f Hf. by exists None, None. }
  rewrite bool_decide_true by eauto.
  eapply tri_bind; [by apply rename_backup|]. intros [|]; cbn [negb].
  - apply tri_ret. intros f Hf. exists (Some nb), None. by split_and!.
  - eapply tri_post; [|by apply abort_temp]. intros ok f [-> H]. by exists None, (Some nb).
Qed.

Lemma replace_aside_three a b : good a b -> (a = None -> b = None) -> save_of a b = old_save ->
  tri (three a b (Some (regular bytes))) safe_files (replace_aside target backup temp)
    (fun ok f => if (ok : bool) then f !! key target = Some (regular bytes)
                 else recovered target f = old_save).
Proof using.
  intros Hg Hn Ho.
  assert (Hrec : forall a' b' f, save_of a' b' = old_save -> aborted a' b' f -> recovered target f = old_save).
  { intros a' b' f E (t & Ha & Hb & _). unfold recovered. fold backup. by rewrite Ha, Hb. }
  assert (Hga : save_of a None = old_save).
  { rewrite <- Ho. destruct a; [done|]. by rewrite Hn. }
  unfold replace_aside. eapply tri_bind; [apply remove_backup; by left|]. intros ?.
  apply tri_ex. intros b'. apply tri_pure. intros Hb'.
  assert (Hs : save_of a b' = old_save) by (destruct Hb' as [->| ->]; done).
  eapply tri_bind.
  { apply rename_target. left. destruct a; [done|]. by rewrite <- Hga. }
  intros [|]; cbn [negb]; cycle 1.
  { eapply tri_post; [|apply abort_temp; by left]. intros ok f [-> H]. by apply (Hrec a b'). }
  intros w Hp [Hw [na Ea]]. revert w Hp Hw. change (tri (three None a (Some (regular bytes))) safe_files
    (replaced ← rename temp target;
     if negb replaced then rename backup target;; remove temp;; mret false
     else remove backup;; mret true)
    (fun ok f => if (ok : bool) then f !! key target = Some (regular bytes)
                 else recovered target f = old_save)).
  assert (Hna : save_of None a = old_save) by (subst a; done).
  eapply tri_bind; [apply rename_temp; by right|]. intros [|]; cbn [negb].
  - eapply tri_bind; [apply remove_backup; by right|]. intros ?. apply tri_ret.
    by intros f (b2 & _ & Ht & _).
  - eapply tri_bind; [apply rename_backup; left; by destruct a|]. intros restored.
    eapply (tri_bind _ _ (fun _ f => recovered target f = old_save)); [|intros _; by apply tri_ret].
    destruct restored.
    + eapply tri_post; [|apply remove_temp; left; by destruct a]. intros ? f H.
      apply (Hrec a None); [by destruct a|exact H].
    + eapply tri_post; [|apply remove_temp; by left]. intros ? f H. by apply (Hrec None a).
Qed.
End Atomic.

(** ** A kind environment

    [kind P m Q]: from files in [P], when nothing fails, [m] ends in [Q]. *)

Definition kind {A : Type} (P : Files -> Prop) (m : FS A) (Q : A -> Files -> Prop) : Prop :=
  forall w, outcomes w = [] -> probe_outcomes w = [] -> P (files w) ->
  outcomes (m w).2 = [] /\ probe_outcomes (m w).2 = [] /\ Q (m w).1 (files (m w).2).

Lemma kind_ret {A : Type} (a : A) (P : Files -> Prop) (Q : A -> Files -> Prop) :
  (forall f, P f -> Q a f) -> kind P (mret a) Q.
Proof. intros H w Ho Hp HP. split_and!; auto. Qed.

Lemma kind_bind {A B : Type} (P : Files -> Prop) (a : A) (R : Files -> Prop)
    (Q : B -> Files -> Prop) (m : FS A) (k : A -> FS B) :
  kind P m (fun x f => x = a /\ R f) -> kind R (k a) Q -> kind P (m ≫= k) Q.
Proof.
  intros Hm Hk w Ho Hp HP. destruct (Hm w Ho Hp HP) as (Ho1 & Hp1 & E & HR).
  unfold mbind, fs_bind. destruct (m w) as [x w1]. cbn [fst snd] in *. subst x. by apply Hk.
Qed.

Lemma kind_attempt (change : Files -> option Files) (P R : Files -> Prop) :
  (forall f, P f -> exists f', change f = Some f' /\ R f') ->
  kind P (attempt change) (fun ok f => ok = true /\ R f).
Proof.
  intros H w Ho Hp HP. destruct (H _ HP) as (f' & E & HR).
  unfold attempt, mbind, fs_bind, next_outcome. rewrite Ho. cbn. rewrite E. by split_and!.
Qed.

Lemma kind_outcome (P : Files -> Prop) : kind P next_outcome (fun o f => o = succeeds /\ P f).
Proof. intros w Ho Hp HP. unfold next_outcome. rewrite Ho. by split_and!. Qed.

Lemma kind_stream_good (P : Files -> Prop) : kind P stream_good (fun ok f => ok = true /\ P f).
Proof.
  intros w Ho Hp HP. unfold stream_good, mbind, fs_bind, next_outcome. rewrite Ho. by split_and!.
Qed.

Lemma kind_exists (p : Path) (b : bool) (P : Files -> Prop) :
  (forall f, P f -> bool_decide (is_Some (f !! key p)) = b) ->
  kind P (exists_ p) (fun x f => x = b /\ P f).
Proof.
  intros H w Ho Hp HP. unfold exists_, mbind, fs_bind, next_probe. rewrite Hp. cbn. by split_and!; auto.
Qed.

Section Kind.
Context (target : Path) (bytes : list Z) (f0 : Files).
Let temp := sibling target ".tmp".
Let backup := sibling target ".old".
Notation three := (three target f0).

Definition no_directory (o : option Node) : Prop := o <> Some directory.

Lemma kind_remove_backup a b t : no_directory b ->
  kind (three a b t) (remove backup) (fun ok f => ok = true /\ three a None t f).
Proof using.
  intros Hb. apply kind_attempt. intros f Hf. pose proof Hf as (_ & E & _). fold backup in E.
  exists (delete (key backup) f). rewrite E. split; [by destruct b as [[]|]|by apply (drop_backup _ _ _ b)].
Qed.

Lemma kind_put_prefixes a b acc todo :
  kind (three a b (Some (regular acc))) (put_prefixes temp acc todo (length todo))
    (fun x f => x = tt /\ three a b (Some (regular (acc ++ todo))) f).
Proof using.
  revert acc. induction todo as [|x todo IH]; intros acc.
  { apply kind_ret. intros f. by rewrite app_nil_r. }
  intros w Ho Hp HP. cbn [length put_prefixes]. unfold mbind at 1, fs_bind at 1. unfold mbind, fs_bind, get_files.
  replace (acc ++ x :: todo) with ((acc ++ [x]) ++ todo) by (by rewrite <- app_assoc).
  apply (IH (acc ++ [x]) (mkWorld (<[key temp := regular (acc ++ [x])]> (files w)) (outcomes w)
    (probe_outcomes w) (history w ++ [<[key temp := regular (acc ++ [x])]> (files w)]))); [done|done|].
  by apply (put_temp _ _ _ _ (Some (regular acc))).
Qed.

Lemma kind_write_temporary a b t : no_directory t ->
  kind (three a b t) (write_temporary temp bytes)
    (fun ok f => ok = true /\ three a b (Some (regular bytes)) f).
Proof using.
  intros Ht. unfold write_temporary.
  apply (kind_bind _ true (three a b (Some (regular [])))).
  { apply kind_attempt. intros f Hf. pose proof Hf as (_ & _ & E & _). fold temp in E.
    exists (<[key temp := regular []]> f). rewrite E.
    split; [by destruct t as [[]|]|by apply (put_temp _ _ _ _ t)]. }
  cbn [negb]. apply (kind_bind _ true (three a b (Some (regular bytes)))).
  { case_bool_decide as Eb; [apply kind_ret; by rewrite Eb|].
    apply (kind_bind _ succeeds (three a b (Some (regular [])))); [apply kind_outcome|].
    apply (kind_bind _ tt (three a b (Some (regular bytes)))); [exact (kind_put_prefixes a b [] bytes)|].
    by apply kind_ret. }
  apply (kind_bind _ true (three a b (Some (regular bytes)))); [apply kind_stream_good|].
  by apply kind_ret.
Qed.

Lemma kind_restore_orphan a b t : no_directory b ->
  kind (three a b t) (restore_orphan target backup temp) (fun ok f => ok = true /\ 
    three (save_of a b) (if a then b else None) t f).
Proof using.
  intros Hb. unfold restore_orphan.
  eapply (kind_bind _ (bool_decide (is_Some a))); [apply kind_exists; by intros f (-> & _)|].
  eapply (kind_bind _ (bool_decide (is_Some b))); [apply kind_exists; intros f (_ & E & _); fold backup in E; by rewrite E|].
  destruct a as [na|].
  { rewrite bool_decide_true by eauto. cbn [negb andb]. by apply kind_ret. }
  rewrite (bool_decide_false (is_Some None)) by (by intros []). cbn [negb andb].
  destruct b as [nb|]; cycle 1.
  { rewrite bool_decide_false by (by intros []). by apply kind_ret. }
  rewrite bool_decide_true by eauto.
  apply (kind_bind _ true (three (Some nb) None t)); [|by apply kind_ret].
  apply kind_attempt. intros f Hf. pose proof Hf as (E1 & E2 & _). fold backup in E2.
  eexists. unfold rename_files. rewrite E1, E2. split; [by destruct nb|].
  by apply (backup_to_target _ _ None (Some nb)).
Qed.

Lemma kind_write a b t : no_directory a -> no_directory b -> no_directory t ->
  kind (three a b t)
    (written ← write_temporary temp bytes;
     if negb written then mret false
     else
       ready ← restore_orphan target backup temp;
       if negb ready then mret false
       else
         renamed ← rename temp target;
         if (renamed : bool) then remove backup;; mret true
         else replace_aside target backup temp)
    (fun ok f => ok = true /\ three (Some (regular bytes)) None None f).
Proof using.
  intros Ha Hb Ht.
  apply (kind_bind _ true (three a b (Some (regular bytes)))); [by apply kind_write_temporary|].
  cbn [negb]. eapply (kind_bind _ true); [by apply kind_restore_orphan|]. cbn [negb].
  set (b' := match a with Some _ => b | None => None end).
  assert (Hb' : no_directory b') by (subst b'; by destruct a).
  assert (Hs : no_directory (save_of a b)) by (by destruct a).
  apply (kind_bind _ true (three (Some (regular bytes)) b' None)).
  { apply kind_attempt. intros f Hf. pose proof Hf as (E1 & _ & E2 & _). fold temp in E2.
    eexists. unfold rename_files. rewrite E1, E2.
    split; [by destruct (save_of a b) as [[]|]|by apply (temp_to_target _ _ (save_of a b) b' (Some (regular bytes)))]. }
  apply (kind_bind _ true (three (Some (regular bytes)) None None)); [by apply kind_remove_backup|].
  by apply kind_ret.
Qed.
End Kind.

(** The keys of the file, its temporary and its move-aside copy. *)
Definition temp_of (target : Path) : Path := sibling target ".tmp".
Definition aside_of (target : Path) : Path := sibling target ".old".

(** C10: Saves survive.  Whatever operations of the file system fail while
    [write_file_atomic] runs, and at whatever point the process is killed (a
    state of the history), the next run finds the old save or the complete new
    one, in the file or moved aside, and no other file is touched.  If the
    write reports success the file holds the new bytes; if it reports failure
    the old save is still what is found.  When nothing fails it succeeds and
    leaves neither temporary nor copy.  The queries of a file's status are
    taken to be truthful. *)
Theorem write_file_atomic_crash_safe (path : string) (bytes : list Z) (w : World) :
  probe_outcomes w = [] ->
  let target := native_path path in
  let '(written, w') := write_file_atomic path bytes w in
  (exists steps, history w' = history w ++ steps /\
     Forall (safe_files target bytes (files w)) steps) /\
  (if written then files w' !! key target = Some (regular bytes)
   else recovered target (files w') = recovered target (files w)) /\
  (outcomes w = [] -> no_directory (files w !! key target) ->
   no_directory (files w !! key (temp_of target)) ->
   no_directory (files w !! key (aside_of target)) ->
   written = true /\ files w' !! key target = Some (regular bytes) /\
   files w' !! key (temp_of target) = None /\ files w' !! key (aside_of target) = None).
Proof.
  intros Hp target. destruct (write_file_atomic path bytes w) as [written w'] eqn:Ew.
  set (a := files w !! key target). set (b := files w !! key (aside_of target)).
  set (t := files w !! key (temp_of target)).
  assert (Hw : three target (files w) a b t (files w)) by done.
  assert (Hg : good target bytes (files w) a b) by (by left).
  assert (G : tri (three target (files w) a b t) (safe_files target bytes (files w))
    (write_file_atomic path bytes)
    (fun ok f => if (ok : bool) then f !! key target = Some (regular bytes)
                 else recovered target f = recovered target (files w))).
  { assert (Hrec : forall a' b' f, save_of a' b' = save_of a b -> aborted target (files w) a' b' f ->
      recovered target f = recovered target (files w)).
    { intros a' b' f E (t' & Ha & Hb & _). unfold recovered. rewrite Ha, Hb. exact E. }
    unfold write_file_atomic. eapply tri_bind; [by apply write_temporary_three|].
    intros [|]; cbn [negb]; [|apply tri_ret; intros f; by apply Hrec].
    eapply tri_bind; [by apply restore_orphan_three|]. intros ready.
    apply tri_ex. intros a'. apply tri_ex. intros b'. apply tri_pure. intros Es.
    assert (Hg' : good target bytes (files w) a' b') by (left; rewrite Es; done).
    destruct ready; cbn [negb]; [|apply tri_ret; intros f; by apply Hrec].
    apply tri_pure. intros Hn. eapply tri_bind; [apply rename_temp; by right|].
    intros [|]; cbn [negb]; [|by apply replace_aside_three].
    eapply tri_bind; [apply remove_backup; by right|]. intros ?. apply tri_ret. by intros f (b2 & _ & Ht & _). }
  destruct (G w Hp Hw) as (steps & E & HI & _ & HQ). rewrite Ew in E, HQ. cbn [fst snd] in *.
  split; [by exists steps|]. split; [done|]. intros Ho Ha Ht Hb.
  destruct (kind_write target bytes (files w) a b t Ha Hb Ht w Ho Hp Hw) as (_ & _ & H).
  change (fun w => _) with (write_file_atomic path bytes) in H || fold (write_file_atomic path bytes) in H.
  unfold write_file_atomic in Ew. fold target in Ew. cbv zeta in Ew. rewrite Ew in H. cbn [fst snd] in H.
  destruct H as (-> & H1 & H2 & H3 & _). by split_and!.
Qed.

(** A save in [saves] is replaced by the fallback: the first rename is refused,
    and the process may be killed after the old file was moved aside. *)
Definition save_dir : Files :=
  <[("saves", "a.sav") := regular [1; 2]]> (<[("saves", "b.sav") := regular [9]]> ∅).

Definition refused_once : World :=
  mkWorld save_dir [succeeds; succeeds; succeeds; fails 0] [] [].

Lemma write_file_atomic_crash_safe_witness :
  let target := native_path "saves/a.sav" in
  let '(written, w') := write_file_atomic "saves/a.sav" [3; 4; 5] refused_once in
  written = true /\ files w' !! ("saves", "a.sav") = Some (regular [3; 4; 5]) /\
  length (history w') = 8%nat /\
  Forall (safe_files target [3; 4; 5] save_dir) (history w').
Proof.
  pose proof (write_file_atomic_crash_safe "saves/a.sav" [3; 4; 5] refused_once eq_refl) as H.
  cbv zeta in *.
  assert (E : (fun r => (r.1, length (history r.2))) (write_file_atomic "saves/a.sav" [3; 4; 5] refused_once)
    = (true, 8%nat)) by (by vm_compute).
  destruct (write_file_atomic "saves/a.sav" [3; 4; 5] refused_once) as [written w'].
  injection E as -> El. destruct H as ((steps & Eh & Hs) & Hf & _).
  split; [done|]. split; [exact Hf|]. split; [exact El|]. by rewrite Eh.
Defined.

(** [exists] answers false when it fails, and nobody asks why: with a copy
    moved aside by an earlier write, an error on the query of the file lets
    the old copy overwrite it, and an error of the rename that follows then
    leaves the old content. *)
Example probe_error_loses_save :
  let f : Files := <[(".", "a.sav.old") := regular [1]]> (<[(".", "a.sav") := regular [2]]> ∅) in
  let w := mkWorld f [succeeds; succeeds; succeeds; succeeds; fails 0; succeeds; fails 0] [fails 0] [] in
  let '(written, w') := write_file_atomic "a.sav" [3] w in
  written = false /\ recovered (native_path "a.sav") f = Some (regular [2]) /\
  recovered (native_path "a.sav") (files w') = Some (regular [1]).
Proof. vm_compute. split_and!; reflexivity. Qed.

(** The name of the backup of a rejected save is not always a new one: when
    a thousand are taken, the last one tried is overwritten.  Shown on the
    search with one try left. *)
Example backup_overwrites :
  let f : Files := <[(".", "a.sav.rejected.999") := regular [1]]> ∅ in
  (backup_candidate (native_path "a.sav.rejected") (native_path "a.sav.rejected.999") 1000 1
     (mkWorld f [] [] [])).1 = native_path "a.sav.rejected.999".
Proof. vm_compute. reflexivity. Qed.
