(* ===== verification/SaveStateCodec.v ===== *)
(** * The save-state codec

    [src/core/save_state_codec.cpp]: the wire format of a whole machine.  A
    [write_*] function is the bytes it appends to the output; a [Reader] is a
    computation on the bytes from the reader's offset, and throws where the
    code returns [false].  The locals a failed parse has filled are dead in the
    code, so they are not kept. *)

From S2P Require Import Prelude StateHash StateMonad Interrupts Keypad BusTypes WaitState.
From S2P Require Timers PpuTiming MemoryBus Dma Apu ArmState.
From S2P Require Import ArmTypes IoRegisters Bios SchedulerState SchedulerDevices CoreSession.

Module SaveStateDecodeStatus.
(* @ save_state_codec.hpp:12-23 SaveStateDecodeStatus *)
Inductive t : Type :=
  | ok | too_small | bad_magic | unsupported_version | corrupt_payload | restore_rejected
  | state_hash_mismatch.
#[export] Instance eq_dec : EqDecision t.
Proof. solve_decision. Defined.
End SaveStateDecodeStatus.
Export (hints) SaveStateDecodeStatus.

(* @ save_state_codec.hpp:25-29 SaveStateDecodeResult *)
Record SaveStateDecodeResult : Type := mkSaveStateDecodeResult {
  decode_status : SaveStateDecodeStatus.t;
  decode_version : Z;
  encoded_state_hash : Z
}.

(* @ save_state_codec.hpp:50-50 SaveStateCodec::kMagic *)
Definition kMagic : Z := 0x53534247.
(* @ save_state_codec.hpp:51-51 SaveStateCodec::kVersion *)
Definition kVersion : Z := 6.

(** ** Writing values *)

(* @ save_state_codec.cpp:50-52 write_u8 *)
Definition write_u8 (value : Z) : list Z := [u8 value].

(* @ save_state_codec.cpp:54-56 write_bool *)
Definition write_bool (value : bool) : list Z := write_u8 (if value then 1 else 0).

(* @ save_state_codec.cpp:58-61 write_u16 *)
Definition write_u16 (value : Z) : list Z :=
  write_u8 (Z.land value 0xFF) ++ write_u8 (Z.land (Z.shiftr value 8) 0xFF).

(* @ save_state_codec.cpp:63-65 write_i16 *)
Definition write_i16 (value : Z) : list Z := write_u16 (u16 value).

(* @ save_state_codec.cpp:67-69 write_i8 *)
Definition write_i8 (value : Z) : list Z := write_u8 (u8 value).

(** The loops over the bytes are [le_bytes]. *)
(* @ save_state_codec.cpp:71-75 write_u32 *)
Definition write_u32 (value : Z) : list Z := le_bytes 4 0 value.

(* @ save_state_codec.cpp:77-81 write_u64 *)
Definition write_u64 (value : Z) : list Z := le_bytes 8 0 value.

(* @ save_state_codec.cpp:83-88 write_fixed *)
Definition write_fixed (data : list Z) : list Z := data.

(* @ save_state_codec.cpp:90-94 write_blob *)
Definition write_blob (bytes : list Z) : list Z :=
  write_u32 (u32 (Z.of_nat (length bytes))) ++ write_fixed bytes.

(** [write_optional_u8], [write_optional_u16] and [write_optional_u32] differ in
    the payload's writer. *)
(* @ save_state_codec.cpp:96-102 write_optional_u8 *)
Definition write_optional (write : Z -> list Z) (value : option Z) : list Z :=
  write_bool (bool_decide (is_Some value)) ++
  match value with Some v => write v | None => [] end.

(** [for (const auto& v : array) write(out, v);]. *)
Definition write_all {A} (write : A -> list Z) (values : list A) : list Z :=
  concat (map write values).

(* @ save_state_codec.cpp:120-156 write_cpu_state *)
Definition write_cpu_state (cpu : ArmState.State) : list Z :=
  write_u64 (ArmState.st_elapsed_cycles cpu) ++
  write_all write_u32 (ArmState.st_registers cpu) ++
  write_bool (ArmState.st_negative cpu) ++
  write_bool (ArmState.st_zero cpu) ++
  write_bool (ArmState.st_carry cpu) ++
  write_bool (ArmState.st_overflow cpu) ++
  write_bool (ArmState.st_irq_disabled cpu) ++
  write_bool (ArmState.st_fiq_disabled cpu) ++
  write_bool (ArmState.st_thumb_state cpu) ++
  write_u8 (u8 (CpuMode.index (ArmState.st_mode cpu))) ++
  write_all write_u32 (ArmState.st_shared_r8_r12 cpu) ++
  write_all write_u32 (ArmState.st_fiq_r8_r12 cpu) ++
  write_u32 (ArmState.st_user_sp cpu) ++
  write_u32 (ArmState.st_user_lr cpu) ++
  write_u32 (ArmState.st_fiq_sp cpu) ++
  write_u32 (ArmState.st_fiq_lr cpu) ++
  write_u32 (ArmState.st_irq_sp cpu) ++
  write_u32 (ArmState.st_irq_lr cpu) ++
  write_u32 (ArmState.st_supervisor_sp cpu) ++
  write_u32 (ArmState.st_supervisor_lr cpu) ++
  write_u32 (ArmState.st_abort_sp cpu) ++
  write_u32 (ArmState.st_abort_lr cpu) ++
  write_u32 (ArmState.st_undefined_sp cpu) ++
  write_u32 (ArmState.st_undefined_lr cpu) ++
  write_u32 (ArmState.st_fiq_spsr cpu) ++
  write_u32 (ArmState.st_supervisor_spsr cpu) ++
  write_u32 (ArmState.st_abort_spsr cpu) ++
  write_u32 (ArmState.st_irq_spsr cpu) ++
  write_u32 (ArmState.st_undefined_spsr cpu).

(* @ save_state_codec.cpp:158-178 write_memory_state *)
Definition write_memory_state (memory : MemoryBus.State) : list Z :=
  write_fixed (MemoryBus.s_ewram memory) ++
  write_fixed (MemoryBus.s_iwram memory) ++
  write_fixed (MemoryBus.s_palette memory) ++
  write_fixed (MemoryBus.s_vram memory) ++
  write_fixed (MemoryBus.s_oam memory) ++
  write_blob (MemoryBus.s_game_pak_rom memory) ++
  write_blob (MemoryBus.s_game_pak_save memory) ++
  write_u8 (MemoryBus.GamePakSaveType.index (MemoryBus.s_game_pak_save_type memory)) ++
  write_u8 (MemoryBus.FlashCommandState.index (MemoryBus.s_flash_command_state memory)) ++
  write_bool (MemoryBus.s_flash_id_mode memory) ++
  write_u8 (MemoryBus.s_flash_bank memory) ++
  write_u32 (MemoryBus.s_open_bus_latch memory) ++
  write_bool (MemoryBus.s_open_bus_latch_valid memory) ++
  write_fixed (MemoryBus.s_mgba_debug_string memory) ++
  write_blob (MemoryBus.s_debug_output memory).

(* @ save_state_codec.cpp:180-185 write_interrupt_state *)
Definition write_interrupt_state (interrupts : InterruptController) : list Z :=
  write_u16 (interrupt_enable interrupts) ++
  write_u16 (interrupt_flags interrupts) ++
  write_bool (master_enabled interrupts).

(* @ save_state_codec.cpp:189-198 write_timers_state *)
Definition write_timer (timer : Timers.TimerState) : list Z :=
  write_u16 (Timers.s_counter timer) ++
  write_u16 (Timers.s_reload timer) ++
  write_u16 (Timers.s_control timer) ++
  write_u64 (Timers.s_overflow_count timer) ++
  write_u32 (Timers.s_enable_delay_cycles timer) ++
  write_u16 (Timers.s_last_enable_phase timer) ++
  write_bool (Timers.s_just_enabled timer).

(* @ save_state_codec.cpp:187-199 write_timers_state *)
Definition write_timers_state (timers : Timers.State) : list Z :=
  write_u64 (Timers.s_cycle_counter timers) ++ write_all write_timer (Timers.s_timers timers).

(* @ save_state_codec.cpp:202-212 write_dma_state *)
Definition write_channel (channel : Dma.Channel) : list Z :=
  write_u32 (Dma.source_ channel) ++
  write_u32 (Dma.destination_ channel) ++
  write_u16 (Dma.word_count_ channel) ++
  write_u16 (Dma.control_ channel) ++
  write_u32 (Dma.current_source channel) ++
  write_u32 (Dma.current_destination channel) ++
  write_u32 (Dma.current_count channel) ++
  write_u32 (Dma.data_latch channel).

(* @ save_state_codec.cpp:201-214 write_dma_state *)
Definition write_dma_state (dma : Dma.State) : list Z :=
  write_all write_channel (Dma.channels dma) ++ write_bool (Dma.immediate_pending dma).

(* @ save_state_codec.cpp:216-223 write_ppu_state *)
Definition write_ppu_state (ppu : PpuTiming.State) : list Z :=
  write_u16 (PpuTiming.s_line ppu) ++
  write_u16 (PpuTiming.s_line_cycle ppu) ++
  write_u16 (PpuTiming.s_dispstat_control ppu) ++
  write_all write_u16 (PpuTiming.s_lcd_control ppu).

(** [static_cast<std::uint32_t>] of a size. *)
Definition write_size (n : nat) : list Z := write_u32 (u32 (Z.of_nat n)).

(* @ save_state_codec.cpp:237-241 write_apu_state *)
Definition write_fifo (fifo : Apu.Ring Z) : list Z :=
  write_all write_i8 (Apu.samples fifo) ++
  write_size (Apu.head fifo) ++
  write_size (Apu.ring_size fifo).

(* @ save_state_codec.cpp:247-251 write_apu_state *)
Definition write_square (square : Apu.SquareChannel) : list Z :=
  write_bool (Apu.sq_enabled square) ++
  write_u8 (Apu.sq_duty square) ++
  write_u8 (Apu.sq_volume square) ++
  write_u16 (Apu.sq_period_samples square) ++
  write_u16 (Apu.sq_phase square).

(* @ save_state_codec.cpp:253-256 write_apu_state *)
Definition write_wave (wave : Apu.WaveChannel) : list Z :=
  write_bool (Apu.wv_enabled wave) ++
  write_u8 (Apu.wv_volume_shift wave) ++
  write_u16 (Apu.wv_period_samples wave) ++
  write_u16 (Apu.wv_phase wave).

(* @ save_state_codec.cpp:257-262 write_apu_state *)
Definition write_noise (noise : Apu.NoiseChannel) : list Z :=
  write_bool (Apu.ns_enabled noise) ++
  write_u8 (Apu.ns_volume noise) ++
  write_u16 (Apu.ns_period_samples noise) ++
  write_u16 (Apu.ns_phase noise) ++
  write_u16 (Apu.ns_lfsr noise) ++
  write_bool (Apu.ns_narrow_lfsr noise).

(* @ save_state_codec.cpp:264-265 write_apu_state *)
Definition write_mixed (sample : Apu.ApuMixedSample) : list Z :=
  write_i16 (Apu.left sample) ++ write_i16 (Apu.right sample).

(* @ save_state_codec.cpp:225-276 write_apu_state *)
Definition write_apu_state (apu : Apu.State) : list Z :=
  write_u16 (Apu.soundcnt_l_ apu) ++
  write_u16 (Apu.soundcnt_h_ apu) ++
  write_u16 (Apu.soundcnt_x_status_ apu) ++
  write_u16 (Apu.soundbias_ apu) ++
  write_all write_u16 (Apu.wave_ram_bank0 apu) ++
  write_all write_u16 (Apu.wave_ram_bank1 apu) ++
  write_bool (Apu.wave_bank_select_ apu) ++
  write_fifo (Apu.fifo0 apu) ++
  write_fifo (Apu.fifo1 apu) ++
  write_i8 (Apu.latched0 apu) ++
  write_i8 (Apu.latched1 apu) ++
  write_square (Apu.square0 apu) ++
  write_square (Apu.square1 apu) ++
  write_wave (Apu.wave_channel_ apu) ++
  write_noise (Apu.noise_channel_ apu) ++
  write_all write_mixed (Apu.samples (Apu.audio_buffer_ apu)) ++
  write_size (Apu.head (Apu.audio_buffer_ apu)) ++
  write_size (Apu.ring_size (Apu.audio_buffer_ apu)) ++
  write_u64 (Apu.frame_step_count_ apu) ++
  write_u64 (Apu.audio_sample_count_ apu) ++
  write_u32 (Apu.frame_cycle_remainder_ apu) ++
  write_u32 (Apu.audio_cycle_remainder_ apu) ++
  write_u8 (Apu.frame_step_ apu) ++
  write_mixed (Apu.last_mixed_sample_ apu).

(** A presence byte and the registers. *)
(* @ save_state_codec.cpp:292-297 write_scheduler_state *)
Definition write_saved (saved : option (list Z)) : list Z :=
  write_bool (bool_decide (is_Some saved)) ++
  match saved with Some values => write_all write_u32 values | None => [] end.

(* @ save_state_codec.cpp:316-322 write_scheduler_state *)
Definition write_irq_frame (frame : HleIrqFrame) : list Z :=
  write_u32 (return_lr frame) ++
  write_saved (saved_registers frame) ++
  write_bool (long_timer_return_pending frame) ++
  write_bool (slow_timer0_return_pending frame).

(* @ save_state_codec.cpp:326-327 write_scheduler_state *)
Definition write_work_frame (frame : HleWorkFrame) : list Z :=
  write_u64 (remaining_cycles frame) ++ write_u32 (owner_irq_depth frame).

(* @ save_state_codec.cpp:278-329 write_scheduler_state *)
Definition write_scheduler_state (s : CoreSchedulerState) : list Z :=
  write_u64 (st_scheduler_cycles s) ++
  write_bool (st_halted s) ++
  write_optional write_u32 (st_last_fetch_address s) ++
  write_optional write_u8 (st_last_fetch_width_bytes s) ++
  write_optional write_u8 (st_last_fetch_window s) ++
  write_u8 (st_prefetch_buffer_halfwords s) ++
  write_bool (st_suppress_next_game_pak_prefetch s) ++
  write_bool (st_recover_next_game_pak_data_fetch s) ++
  write_bool (st_suppress_next_thumb_prefetch_execute_bubble s) ++
  write_bool (st_previous_thumb_internal_load s) ++
  write_optional write_u16 (st_last_waitcnt_control s) ++
  write_optional write_u32 (st_hle_irq_return_lr s) ++
  write_saved (st_hle_irq_saved_registers s) ++
  write_bool (st_hle_irq_reentry_dispatch_pending s) ++
  write_bool (st_hle_irq_return_latency_pending s) ++
  write_bool (st_hle_irq_post_return_latency_armed s) ++
  write_bool (st_hle_irq_post_return_dispatch_pending s) ++
  write_bool (st_hle_irq_chained_post_return_dispatch_pending s) ++
  write_bool (st_hle_irq_chained_post_return_data_dispatch_pending s) ++
  write_bool (st_hle_irq_chained_post_return_spaced_data_dispatch_pending s) ++
  write_bool (st_hle_irq_long_timer_chained_return_pending s) ++
  write_bool (st_hle_irq_slow_timer0_return_pending s) ++
  write_bool (st_hle_irq_post_return_chain_active s) ++
  write_u8 (st_hle_irq_chained_spaced_data_service_count s) ++
  write_bool (st_auto_irq_line_high s) ++
  write_u8 (st_auto_irq_latency_cycles s) ++
  write_u32 (st_timer_io_access_gap_cycles s) ++
  write_u32 (st_thumb_misfetch_recovery_count s) ++
  write_size (length (st_hle_irq_outer_frames s)) ++
  write_all write_irq_frame (st_hle_irq_outer_frames s) ++
  write_size (length (st_hle_work_frames s)) ++
  write_all write_work_frame (st_hle_work_frames s).

(* @ save_state_codec.cpp:331-337 write_io_state *)
Definition write_io_state (io : IoRegistersState) : list Z :=
  write_all write_u16 (s_serial io) ++
  write_bool (s_sio_transfer_active io) ++
  write_u32 (s_sio_transfer_cycles_remaining io).

(** ** Reading values *)

(** The bytes from [offset_] on. *)
(* @ save_state_codec.cpp:481-483 Reader *)
Definition Reader (A : Type) : Type := ST (list Z) A.

(* @ save_state_codec.cpp:343-343 Reader::remaining *)
Definition remaining : Reader Z := gets (fun bytes => Z.of_nat (length bytes)).

(** [if (!condition) return false;]. *)
Definition require (condition : bool) : Reader unit :=
  if condition then mret tt else throw.

(* @ save_state_codec.cpp:345-351 Reader::read_u8 *)
Definition read_u8 : Reader Z := fun bytes =>
  match bytes with [] => Throw | b :: bytes => Ret (b, bytes) end.

(* @ save_state_codec.cpp:353-360 Reader::read_bool *)
Definition read_bool : Reader bool :=
  raw ← read_u8; require (negb (1 <? raw));; mret (negb (raw =? 0)).

(* @ save_state_codec.cpp:362-370 Reader::read_u16 *)
Definition read_u16 : Reader Z :=
  low ← read_u8; high ← read_u8; mret (u16 (Z.lor low (Z.shiftl high 8))).

(* @ save_state_codec.cpp:372-379 Reader::read_i16 *)
Definition read_i16 : Reader Z := raw ← read_u16; mret (i16 raw).

(* @ save_state_codec.cpp:381-388 Reader::read_i8 *)
Definition read_i8 : Reader Z := raw ← read_u8; mret (i8 raw).

(** [for (; byte < end; ++byte) value |= next << (byte * 8U);] with [n] bytes
    left, at the width [w]. *)
(* @ save_state_codec.cpp:391-399 Reader::read_u32 *)
Fixpoint read_le (w : Z) (n : nat) (byte value : Z) : Reader Z :=
  match n with
  | O => mret value
  | S n' =>
      next ← read_u8;
      read_le w n' (byte + 1) (Z.lor value (wrap w (Z.shiftl next (byte * 8))))
  end.

(* @ save_state_codec.cpp:390-400 Reader::read_u32 *)
Definition read_u32 : Reader Z := read_le 32 4 0 0.

(* @ save_state_codec.cpp:402-412 Reader::read_u64 *)
Definition read_u64 : Reader Z := read_le 64 8 0 0.

(* @ save_state_codec.cpp:414-422 Reader::read_fixed *)
Definition read_fixed (size : Z) : Reader (list Z) := fun bytes =>
  if Z.of_nat (length bytes) <? size then Throw
  else Ret (take (Z.to_nat size) bytes, drop (Z.to_nat size) bytes).

(* @ save_state_codec.cpp:425-436 Reader::read_blob *)
Definition read_blob (max_size : Z) : Reader (list Z) :=
  size ← read_u32; require (negb (max_size <? size));; read_fixed size.

(** [read_optional_u8], [read_optional_u16] and [read_optional_u32] differ in
    the payload's reader. *)
(* @ save_state_codec.cpp:438-449 Reader::read_optional_u8 *)
Definition read_optional (read : Reader Z) : Reader (option Z) :=
  present ← read_bool;
  if (present : bool) then payload ← read; mret (Some payload) else mret None.

(** [for (auto& v : array) if (!read(v)) return false;]. *)
Fixpoint read_all {A} (n : nat) (read : Reader A) : Reader (list A) :=
  match n with
  | O => mret []
  | S n' => a ← read; l ← read_all n' read; mret (a :: l)
  end.

(* @ save_state_codec.cpp:477-479 Reader::at_end *)
Definition at_end : Reader bool := gets (fun bytes => bool_decide (bytes = [])).

(* @ save_state_codec.cpp:486-531 parse_cpu_state *)
Definition parse_cpu_state : Reader ArmState.State :=
  elapsed_cycles ← read_u64;
  registers ← read_all kRegisterCount read_u32;
  negative ← read_bool;
  zero ← read_bool;
  carry ← read_bool;
  overflow ← read_bool;
  irq_disabled ← read_bool;
  fiq_disabled ← read_bool;
  thumb_state ← read_bool;
  mode ← read_u8;
  shared_r8_r12 ← read_all 5 read_u32;
  fiq_r8_r12 ← read_all 5 read_u32;
  user_sp ← read_u32;
  user_lr ← read_u32;
  fiq_sp ← read_u32;
  fiq_lr ← read_u32;
  irq_sp ← read_u32;
  irq_lr ← read_u32;
  supervisor_sp ← read_u32;
  supervisor_lr ← read_u32;
  abort_sp ← read_u32;
  abort_lr ← read_u32;
  undefined_sp ← read_u32;
  undefined_lr ← read_u32;
  fiq_spsr ← read_u32;
  supervisor_spsr ← read_u32;
  abort_spsr ← read_u32;
  irq_spsr ← read_u32;
  undefined_spsr ← read_u32;
  mret (ArmState.mkState registers elapsed_cycles negative zero carry overflow irq_disabled
          fiq_disabled thumb_state (CpuMode.of_byte mode) shared_r8_r12 fiq_r8_r12 user_sp user_lr
          fiq_sp fiq_lr irq_sp irq_lr supervisor_sp supervisor_lr abort_sp abort_lr undefined_sp
          undefined_lr fiq_spsr supervisor_spsr abort_spsr irq_spsr undefined_spsr).

(** [static_cast<GamePakSaveType>(v)] of a checked byte. *)
(* @ memory_bus.hpp:48-55 GamePakSaveType *)
Definition save_type_of_byte (v : Z) : MemoryBus.GamePakSaveType.t :=
  match v with
  | 0 => MemoryBus.GamePakSaveType.none | 1 => MemoryBus.GamePakSaveType.sram32k
  | 2 => MemoryBus.GamePakSaveType.flash64k | 3 => MemoryBus.GamePakSaveType.flash128k
  | 4 => MemoryBus.GamePakSaveType.eeprom512 | _ => MemoryBus.GamePakSaveType.eeprom8k
  end.

(** [static_cast<FlashCommandState>(v)] of a checked byte. *)
(* @ memory_bus.hpp:57-66 FlashCommandState *)
Definition flash_state_of_byte (v : Z) : MemoryBus.FlashCommandState.t :=
  match v with
  | 0 => MemoryBus.FlashCommandState.idle | 1 => MemoryBus.FlashCommandState.unlock1
  | 2 => MemoryBus.FlashCommandState.unlock2 | 3 => MemoryBus.FlashCommandState.program_data
  | 4 => MemoryBus.FlashCommandState.erase_unlock1
  | 5 => MemoryBus.FlashCommandState.erase_unlock2
  | 6 => MemoryBus.FlashCommandState.erase_command
  | _ => MemoryBus.FlashCommandState.bank_select
  end.

(** [mgba_debug_string_.size()]. *)
(* @ memory_bus.hpp:179-179 MemoryBus::State *)
Definition kDebugStringSize : Z := 256.

(* @ save_state_codec.cpp:533-574 parse_memory_state *)
Definition parse_memory_state : Reader MemoryBus.State :=
  ewram ← read_fixed kEwramSize;
  iwram ← read_fixed kIwramSize;
  palette ← read_fixed kPaletteSize;
  vram ← read_fixed kVramSize;
  oam ← read_fixed kOamSize;
  game_pak_rom ← read_blob kGamePakRomWindowSize;
  game_pak_save ← read_blob MemoryBus.kFlash128kSize;
  save_type ← read_u8;
  flash_command_state ← read_u8;
  flash_id_mode ← read_bool;
  flash_bank ← read_u8;
  open_bus_latch ← read_u32;
  open_bus_latch_valid ← read_bool;
  mgba_debug_string ← read_fixed kDebugStringSize;
  require (negb ((MemoryBus.GamePakSaveType.index MemoryBus.GamePakSaveType.eeprom8k <? save_type) ||
                 (MemoryBus.FlashCommandState.index MemoryBus.FlashCommandState.bank_select
                    <? flash_command_state) ||
                 (1 <? flash_bank)));;
  debug_output ← read_blob 0xFFFFFFFF;
  mret (MemoryBus.mkState ewram iwram palette vram oam game_pak_rom game_pak_save
          (save_type_of_byte save_type) (flash_state_of_byte flash_command_state) flash_id_mode
          flash_bank open_bus_latch open_bus_latch_valid mgba_debug_string debug_output).

(* @ save_state_codec.cpp:576-584 parse_interrupt_state *)
Definition parse_interrupt_state : Reader (Z * Z * bool) :=
  interrupt_enable ← read_u16;
  interrupt_flags ← read_u16;
  master_enabled ← read_bool;
  require ((Z.land interrupt_enable (Z.lnot kSupportedMask) =? 0) &&
           (Z.land interrupt_flags (Z.lnot kSupportedMask) =? 0));;
  mret (interrupt_enable, interrupt_flags, master_enabled).

(** [prescaler_remainder] keeps its initial value. *)
(* @ save_state_codec.cpp:591-599 parse_timers_state *)
Definition parse_timer : Reader Timers.TimerState :=
  counter ← read_u16;
  reload ← read_u16;
  control ← read_u16;
  overflow_count ← read_u64;
  enable_delay_cycles ← read_u32;
  last_enable_phase ← read_u16;
  just_enabled ← read_bool;
  mret (Timers.mkTimerState counter reload control 0 overflow_count enable_delay_cycles
          last_enable_phase just_enabled).

(* @ save_state_codec.cpp:586-601 parse_timers_state *)
Definition parse_timers_state : Reader Timers.State :=
  cycle_counter ← read_u64;
  timers ← read_all Timers.kTimerCount parse_timer;
  mret (Timers.mkState timers cycle_counter).

(* @ save_state_codec.cpp:605-612 parse_dma_state *)
Definition parse_channel : Reader Dma.Channel :=
  source ← read_u32;
  destination ← read_u32;
  word_count ← read_u16;
  control ← read_u16;
  current_source ← read_u32;
  current_destination ← read_u32;
  current_count ← read_u32;
  data_latch ← read_u32;
  mret (Dma.mkChannel source destination word_count control current_source current_destination
          current_count data_latch).

(* @ save_state_codec.cpp:603-617 parse_dma_state *)
Definition parse_dma_state : Reader Dma.State :=
  channels ← read_all Dma.kChannelCount parse_channel;
  immediate_pending ← read_bool;
  mret (Dma.mkDmaController channels immediate_pending).

(** [lcd_control.size()]. *)
(* @ ppu_timing.hpp:44-44 PpuTiming::State *)
Definition kLcdRegisters : nat := 0x2B.

(* @ save_state_codec.cpp:619-633 parse_ppu_state *)
Definition parse_ppu_state : Reader PpuTiming.State :=
  line ← read_u16;
  line_cycle ← read_u16;
  dispstat_control ← read_u16;
  lcd_control ← read_all kLcdRegisters read_u16;
  require ((line <? PpuTiming.kTotalLines) && (line_cycle <? PpuTiming.kCyclesPerLine));;
  mret (PpuTiming.mkState line line_cycle dispstat_control lcd_control).

(** [std::size_t size = value;]. *)
Definition read_size : Reader nat := n ← read_u32; mret (Z.to_nat n).

(* @ save_state_codec.cpp:652-663 parse_apu_state *)
Definition parse_fifo : Reader (Apu.Ring Z) :=
  samples ← read_all Apu.kFifoCapacity read_i8;
  head ← read_size;
  size ← read_size;
  mret (Apu.mkRing samples head size).

(* @ save_state_codec.cpp:671-680 parse_apu_state *)
Definition parse_square : Reader Apu.SquareChannel :=
  enabled ← read_bool;
  duty ← read_u8;
  volume ← read_u8;
  period_samples ← read_u16;
  phase ← read_u16;
  require (negb (3 <? duty));;
  mret (Apu.mkSquareChannel enabled duty volume period_samples phase).

(* @ save_state_codec.cpp:682-691 parse_apu_state *)
Definition parse_wave : Reader Apu.WaveChannel :=
  enabled ← read_bool;
  volume_shift ← read_u8;
  period_samples ← read_u16;
  phase ← read_u16;
  require (negb (4 <? volume_shift));;
  mret (Apu.mkWaveChannel enabled volume_shift period_samples phase).

(* @ save_state_codec.cpp:692-699 parse_apu_state *)
Definition parse_noise : Reader Apu.NoiseChannel :=
  enabled ← read_bool;
  volume ← read_u8;
  period_samples ← read_u16;
  phase ← read_u16;
  lfsr ← read_u16;
  narrow_lfsr ← read_bool;
  mret (Apu.mkNoiseChannel enabled volume period_samples phase lfsr narrow_lfsr).

(* @ save_state_codec.cpp:701-702 parse_apu_state *)
Definition read_mixed : Reader Apu.ApuMixedSample :=
  left ← read_i16; right ← read_i16; mret (Apu.mkApuMixedSample left right).

(* @ save_state_codec.cpp:635-720 parse_apu_state *)
Definition parse_apu_state : Reader Apu.State :=
  soundcnt_l ← read_u16;
  soundcnt_h ← read_u16;
  soundcnt_x_status ← read_u16;
  soundbias ← read_u16;
  bank0 ← read_all Apu.kWaveRamHalfwords read_u16;
  bank1 ← read_all Apu.kWaveRamHalfwords read_u16;
  wave_bank_select ← read_bool;
  fifo0 ← parse_fifo;
  fifo1 ← parse_fifo;
  latched0 ← read_i8;
  latched1 ← read_i8;
  square0 ← parse_square;
  square1 ← parse_square;
  wave_channel ← parse_wave;
  noise_channel ← parse_noise;
  audio_buffer_samples ← read_all Apu.kAudioBufferCapacity read_mixed;
  buffer_head ← read_size;
  buffer_size ← read_size;
  frame_step_count ← read_u64;
  audio_sample_count ← read_u64;
  frame_cycle_remainder ← read_u32;
  audio_cycle_remainder ← read_u32;
  frame_step ← read_u8;
  last_mixed_sample ← read_mixed;
  require (frame_step <? Apu.kFrameSequencerSteps);;
  mret (Apu.mkApu soundcnt_l soundcnt_h soundcnt_x_status soundbias bank0 bank1 wave_bank_select
          fifo0 fifo1 latched0 latched1 square0 square1 wave_channel noise_channel
          (Apu.mkRing audio_buffer_samples buffer_head buffer_size) frame_step_count
          audio_sample_count frame_cycle_remainder audio_cycle_remainder frame_step
          last_mixed_sample).

(** [std::array<std::uint32_t, 13>] behind a presence byte. *)
(* @ save_state_codec.cpp:738-752 parse_scheduler_state *)
Definition read_saved : Reader (option (list Z)) :=
  present ← read_bool;
  if (present : bool) then saved ← read_all 13 read_u32; mret (Some saved) else mret None.

(* @ save_state_codec.cpp:778-788 parse_scheduler_state *)
Definition parse_irq_frame : Reader HleIrqFrame :=
  return_lr ← read_u32;
  saved ← read_saved;
  long_timer ← read_bool;
  slow_timer0 ← read_bool;
  mret (mkHleIrqFrame return_lr saved long_timer slow_timer0).

(* @ save_state_codec.cpp:772-791 parse_scheduler_state *)
Definition parse_irq_frames (version : Z) (return_lr : option Z) : Reader (list HleIrqFrame) :=
  if 4 <=? version then
    count ← read_u32;
    left ← remaining;
    require (negb (left / 7 <? count));;
    frames ← read_all (Z.to_nat count) parse_irq_frame;
    require (negb (negb (count =? 0) && negb (bool_decide (is_Some return_lr))));;
    mret frames
  else mret [].

(** The rest of the work frames: [last] is the owner of the previous one. *)
(* @ save_state_codec.cpp:798-807 parse_scheduler_state *)
Fixpoint parse_work_frames_loop (n : nat) (irq_depth : Z) (last : option Z)
    : Reader (list HleWorkFrame) :=
  match n with
  | O => mret []
  | S n' =>
      cycles ← read_u64;
      require (negb (cycles =? 0));;
      owner ← read_u32;
      require (negb (irq_depth <? owner));;
      require (match last with Some previous => negb (owner <=? previous) | None => true end);;
      frames ← parse_work_frames_loop n' irq_depth (Some owner);
      mret (mkHleWorkFrame cycles owner :: frames)
  end.

(* @ save_state_codec.cpp:792-808 parse_scheduler_state *)
Definition parse_work_frames (version : Z) (outer : list HleIrqFrame)
    (saved : option (list Z)) : Reader (list HleWorkFrame) :=
  if 6 <=? version then
    count ← read_u32;
    left ← remaining;
    require (negb (left / 12 <? count));;
    let irq_depth :=
      Z.of_nat (length outer) + (if bool_decide (is_Some saved) then 1 else 0) in
    parse_work_frames_loop (Z.to_nat count) irq_depth None
  else mret [].

(* @ save_state_codec.cpp:722-810 parse_scheduler_state *)
Definition parse_scheduler_state (version : Z) : Reader CoreSchedulerState :=
  scheduler_cycles ← read_u64;
  halted ← read_bool;
  last_fetch_address ← read_optional read_u32;
  last_fetch_width_bytes ← read_optional read_u8;
  last_fetch_window ← read_optional read_u8;
  prefetch_buffer_halfwords ← read_u8;
  suppress_next_game_pak_prefetch ← read_bool;
  recover_next_game_pak_data_fetch ← read_bool;
  suppress_next_thumb_prefetch_execute_bubble ← read_bool;
  previous_thumb_internal_load ← read_bool;
  last_waitcnt_control ← read_optional read_u16;
  hle_irq_return_lr ← read_optional read_u32;
  hle_irq_saved_registers ← read_saved;
  hle_irq_reentry_dispatch_pending ← read_bool;
  hle_irq_return_latency_pending ← read_bool;
  hle_irq_post_return_latency_armed ← read_bool;
  hle_irq_post_return_dispatch_pending ← read_bool;
  hle_irq_chained_post_return_dispatch_pending ← read_bool;
  hle_irq_chained_post_return_data_dispatch_pending ← read_bool;
  hle_irq_chained_post_return_spaced_data_dispatch_pending ← read_bool;
  hle_irq_long_timer_chained_return_pending ← read_bool;
  hle_irq_slow_timer0_return_pending ← read_bool;
  hle_irq_post_return_chain_active ← read_bool;
  hle_irq_chained_spaced_data_service_count ← read_u8;
  auto_irq_line_high ← read_bool;
  auto_irq_latency_cycles ← read_u8;
  timer_io_access_gap_cycles ← read_u32;
  thumb_misfetch_recovery_count ← read_u32;
  outer_frames ← parse_irq_frames version hle_irq_return_lr;
  work_frames ← parse_work_frames version outer_frames hle_irq_saved_registers;
  mret (mkCoreSchedulerState scheduler_cycles halted last_fetch_address last_fetch_width_bytes
          last_fetch_window prefetch_buffer_halfwords suppress_next_game_pak_prefetch
          recover_next_game_pak_data_fetch suppress_next_thumb_prefetch_execute_bubble
          previous_thumb_internal_load last_waitcnt_control hle_irq_return_lr
          hle_irq_saved_registers hle_irq_reentry_dispatch_pending
          hle_irq_return_latency_pending hle_irq_post_return_latency_armed
          hle_irq_post_return_dispatch_pending hle_irq_chained_post_return_dispatch_pending
          hle_irq_chained_post_return_data_dispatch_pending
          hle_irq_chained_post_return_spaced_data_dispatch_pending
          hle_irq_long_timer_chained_return_pending hle_irq_slow_timer0_return_pending
          hle_irq_post_return_chain_active hle_irq_chained_spaced_data_service_count
          auto_irq_line_high auto_irq_latency_cycles timer_io_access_gap_cycles
          thumb_misfetch_recovery_count outer_frames work_frames).

(* @ save_state_codec.cpp:812-820 parse_io_state *)
Definition parse_io_state : Reader IoRegistersState :=
  serial ← read_all kSerialRegisters read_u16;
  sio_transfer_active ← read_bool;
  sio_transfer_cycles_remaining ← read_u32;
  mret (mkIoRegistersState serial sio_transfer_active sio_transfer_cycles_remaining).

(** ** The whole machine *)

(** The locals of [decode_into]. *)
(* @ save_state_codec.cpp:926-940 SaveStateCodec::decode_into *)
Record Payload : Type := mkPayload {
  p_cpu : ArmState.State;
  p_memory : MemoryBus.State;
  p_interrupts : Z * Z * bool;
  p_timers : Timers.State;
  p_dma : Dma.State;
  p_ppu : PpuTiming.State;
  p_apu : Apu.State;
  p_pressed_mask : Z;
  p_keycnt : Z;
  p_waitcnt : Z;
  p_bios_mode : Z;
  p_io : IoRegistersState;
  p_scheduler : CoreSchedulerState
}.

(** Phase 1. *)
(* @ save_state_codec.cpp:941-952 SaveStateCodec::decode_into *)
Definition parse_payload (version : Z) : Reader Payload :=
  cpu ← parse_cpu_state;
  memory ← parse_memory_state;
  interrupts ← parse_interrupt_state;
  timers ← parse_timers_state;
  dma ← parse_dma_state;
  ppu ← parse_ppu_state;
  apu ← parse_apu_state;
  pressed_mask ← read_u16;
  keycnt ← read_u16;
  waitcnt ← read_u16;
  bios_mode ← read_u8;
  require (negb (BiosExecutionMode.index BiosExecutionMode.hle <? bios_mode));;
  io ← parse_io_state;
  scheduler ← parse_scheduler_state version;
  done ← at_end;
  require done;;
  mret (mkPayload cpu memory interrupts timers dma ppu apu pressed_mask keycnt waitcnt bios_mode io
          scheduler).

(** The interrupt controller built from the three fields. *)
(* @ save_state_codec.cpp:963-970 SaveStateCodec::decode_into *)
Definition restore_interrupts (fields : Z * Z * bool) : InterruptController :=
  let '(enable, flags, master) := fields in
  let ic := write_interrupt_enable enable Interrupts.reset in
  let ic :=
    fold_left (fun ic bit =>
      if has flags (u16 (Z.shiftl 1 bit)) then
        match InterruptSource.of_index bit with Some source => request source ic | None => ic end
      else ic) (seqZ 0 14) ic in
  set_master_enabled master ic.

(** A loader: the component, or a rejection. *)
Definition accepted {A} (r : bool * A) : option A := if r.1 then Some r.2 else None.

(** Phase 2: each component's own validation. *)
(* @ save_state_codec.cpp:956-976 SaveStateCodec::decode_into *)
Definition restore_machine (p : Payload) : option CoreSessionState :=
  cpu ← accepted (ArmState.load_state (p_cpu p) ArmState.reset);
  memory ← accepted (MemoryBus.load_state (p_memory p) MemoryBus.initial);
  timers ← accepted (Timers.load_state (p_timers p) Timers.reset);
  dma ← accepted (Dma.load_state (p_dma p) Dma.reset);
  ppu ← accepted (PpuTiming.load_state (p_ppu p) PpuTiming.reset);
  apu ← accepted (Apu.load_state (p_apu p) Apu.reset);
  pad ← accepted (Keypad.set_pressed_mask (p_pressed_mask p) Keypad.reset);
  Some (mkCoreSessionState cpu memory (restore_interrupts (p_interrupts p)) timers dma ppu apu
          (Bios.set_mode (BiosExecutionMode.of_byte (p_bios_mode p)) Bios.reset)
          (Keypad.write_keycnt (p_keycnt p) pad)
          (WaitState.write_control (p_waitcnt p) WaitState.reset) (p_io p) (p_scheduler p)).

(** The hash of a snapshot, on scratch IO registers and a scratch scheduler. *)
(* @ save_state_codec.cpp:824-852 snapshot_state_hash *)
Definition snapshot_state_hash (snapshot : CoreSessionState) (legacy_word_hashes : bool) : Z :=
  machine_hash legacy_word_hashes (ss_bios snapshot)
    (core_of_state snapshot SchedulerState.construct).

(* @ save_state_codec.cpp:856-895 SaveStateCodec::encode *)
Definition encode (session : CoreSession) : list Z :=
  let machine := CoreSession.save_state session in
  write_u32 kMagic ++
  write_u32 kVersion ++
  write_u64 (CoreSession.state_hash session) ++
  write_cpu_state (ArmState.save_state (ss_cpu machine)) ++
  write_memory_state (MemoryBus.save_state (ss_memory machine)) ++
  write_interrupt_state (ss_interrupts machine) ++
  write_timers_state (Timers.save_state (ss_timers machine)) ++
  write_dma_state (Dma.save_state (ss_dma machine)) ++
  write_ppu_state (PpuTiming.save_state (ss_ppu machine)) ++
  write_apu_state (Apu.save_state (ss_apu machine)) ++
  write_u16 (pressed_mask (ss_keypad machine)) ++
  write_u16 (keycnt (ss_keypad machine)) ++
  write_u16 (WaitState.read_control (ss_waitcnt machine)) ++
  write_u8 (BiosExecutionMode.index (Bios.mode_ (ss_bios machine))) ++
  write_io_state (ss_io machine) ++
  write_scheduler_state (ss_scheduler machine).

(* @ save_state_codec.cpp:899-899 kHeaderSize *)
Definition kHeaderSize : Z := 16.

(* @ save_state_codec.cpp:914-914 SaveStateCodec::decode_into *)
Definition known_version (version : Z) : bool :=
  (version =? 3) || (version =? 4) || (version =? 5) || (version =? kVersion).

(** The header: the version, the hash and the payload's bytes, or a
    rejection. *)
(* @ save_state_codec.cpp:899-920 SaveStateCodec::decode_into *)
Definition read_header (bytes : list Z) : SaveStateDecodeResult + (Z * Z * list Z) :=
  if Z.of_nat (length bytes) <? kHeaderSize
  then inl (mkSaveStateDecodeResult SaveStateDecodeStatus.too_small 0 0)
  else
    match read_u32 bytes with
    | Ret (magic, bytes) =>
        if negb (magic =? kMagic)
        then inl (mkSaveStateDecodeResult SaveStateDecodeStatus.bad_magic 0 0)
        else
          match read_u32 bytes with
          | Ret (version, bytes) =>
              if negb (known_version version)
              then inl (mkSaveStateDecodeResult SaveStateDecodeStatus.unsupported_version version 0)
              else
                match read_u64 bytes with
                | Ret (encoded_hash, bytes) => inr (version, encoded_hash, bytes)
                | Throw =>
                    inl (mkSaveStateDecodeResult SaveStateDecodeStatus.corrupt_payload version 0)
                end
          | Throw => inl (mkSaveStateDecodeResult SaveStateDecodeStatus.corrupt_payload 0 0)
          end
    | Throw => inl (mkSaveStateDecodeResult SaveStateDecodeStatus.bad_magic 0 0)
    end.

(* @ save_state_codec.cpp:897-986 SaveStateCodec::decode_into *)
Definition decode_into (session : CoreSession) (bytes : list Z)
    : SaveStateDecodeResult * CoreSession :=
  match read_header bytes with
  | inl result => (result, session)
  | inr (version, encoded_hash, payload) =>
      let result status := mkSaveStateDecodeResult status version encoded_hash in
      match parse_payload version payload with
      | Throw => (result SaveStateDecodeStatus.corrupt_payload, session)
      | Ret (p, _) =>
          match restore_machine p with
          | None => (result SaveStateDecodeStatus.restore_rejected, session)
          | Some next =>
              if negb (snapshot_state_hash next (version <? 5) =? encoded_hash)
              then (result SaveStateDecodeStatus.state_hash_mismatch, session)
              else (result SaveStateDecodeStatus.ok, CoreSession.load_state next session)
          end
      end
  end.
