(* ===== verification/SaveStateSpec.v ===== *)
(** * The save-state codec: round trips

    The wire laws of the components' snapshots, from the components'
    invariants, and their composition: a saved session decodes to itself, and
    what is not a saved session is rejected without touching the target. *)

From S2P Require Import Prelude StateHash StateMonad Interrupts Keypad BusTypes WaitState.
From S2P Require Timers PpuTiming MemoryBus Dma Apu ArmState.
From S2P Require DmaSpec MemoryBusSpec TimersSpec PpuTimingSpec BusSafety ApuSpec ArmSafety.
From S2P Require Import ApuTyped IoRegistersSpec.
From S2P Require Import ArmTypes IoRegisters Bios SchedulerState SchedulerDevices CoreSession.
From S2P Require Import SaveStateCodec.

(** ** Laws of the wire format

    [Wire write read ok]: reading what [write] wrote of an [ok] value gives the
    value back and leaves the bytes behind it.  [Local read]: a successful read
    does not look at the bytes behind what it consumes.  Both have instances
    for the values and combinators of [SaveStateCodec.v], so that the proof for
    a record runs through its fields. *)

Class Wire {A} (write : A -> list Z) (read : Reader A) (ok : A -> Prop) : Prop :=
  wire a rest : ok a -> read (write a ++ rest) = Ret (a, rest).

Class Local {A} (read : Reader A) : Prop :=
  local l a rest more : read l = Ret (a, rest) -> read (l ++ more) = Ret (a, rest ++ more).

(** [Exact read]: a successful read has consumed everything, and fails when
    there are more bytes. *)
Class Exact {A} (read : Reader A) : Prop :=
  exact l a rest : read l = Ret (a, rest) ->
    rest = [] /\ forall more, more <> [] -> read (l ++ more) = Throw.

Lemma wire_bind {A B} {write : A -> list Z} {read ok} {W : Wire write read ok}
    (f : A -> Reader B) a rest :
  ok a -> mbind f read (write a ++ rest) = f a rest.
Proof. intros H. apply bind_Ret. by apply wire. Qed.

Lemma require_bind {B} (b : bool) (f : unit -> Reader B) l :
  b = true -> mbind f (require b) l = f tt l.
Proof. by intros ->. Qed.

Lemma remaining_bind {B} (f : Z -> Reader B) l :
  mbind f remaining l = f (Z.of_nat (length l)) l.
Proof. done. Qed.

Lemma read_bind {A B} (read : Reader A) (f : A -> Reader B) l a rest :
  read l = Ret (a, rest) -> mbind f read l = f a rest.
Proof. apply bind_Ret. Qed.

(** ** Locality *)

#[export] Instance local_ret {A} (a : A) : Local (mret a).
Proof. by intros l a' rest more [= <- <-]. Qed.

#[export] Instance local_throw {A} : Local (@throw (list Z) A).
Proof. done. Qed.

#[export] Instance local_require b : Local (require b).
Proof. destruct b; apply _. Qed.

#[export] Instance local_bind {A B} (f : A -> Reader B) (m : Reader A) :
  Local m -> (forall a, Local (f a)) -> Local (mbind f m).
Proof.
  intros Hm Hf l b rest more. unfold mbind, st_bind.
  destruct (m l) as [[a l']|] eqn:E; [|done]. intros Hb.
  rewrite (Hm _ _ _ more E). by apply Hf.
Qed.

#[export] Instance local_if {A} (b : bool) (m n : Reader A) :
  Local m -> Local n -> Local (if b then m else n).
Proof. by destruct b. Qed.

#[export] Instance local_u8 : Local read_u8.
Proof. intros [|b l] a rest more; [done|]. by intros [= <- <-]. Qed.

#[export] Instance local_le w n : forall byte value, Local (read_le w n byte value).
Proof. induction n; intros; simpl; apply _. Qed.

#[export] Instance local_u32 : Local read_u32 := local_le _ _ _ _.
#[export] Instance local_u64 : Local read_u64 := local_le _ _ _ _.

#[export] Instance local_fixed n : Local (read_fixed n).
Proof.
  intros l a rest more. unfold read_fixed. case_match eqn:E; [done|].
  apply Z.ltb_ge in E. intros [= <- <-]. rewrite length_app.
  rewrite (proj2 (Z.ltb_ge _ _)) by lia.
  by rewrite take_app_le, drop_app_le by lia.
Qed.

#[export] Instance local_blob n : Local (read_blob n).
Proof. unfold read_blob. apply _. Qed.

#[export] Instance local_all {A} n (read : Reader A) : Local read -> Local (read_all n read).
Proof. intros H. induction n; simpl; apply _. Qed.

#[export] Instance local_bool : Local read_bool := ltac:(unfold read_bool; apply _).
#[export] Instance local_u16 : Local read_u16 := ltac:(unfold read_u16; apply _).
#[export] Instance local_i16 : Local read_i16 := ltac:(unfold read_i16; apply _).
#[export] Instance local_i8 : Local read_i8 := ltac:(unfold read_i8; apply _).
#[export] Instance local_size : Local read_size := ltac:(unfold read_size; apply _).
#[export] Instance local_optional read : Local read -> Local (read_optional read).
Proof. intros H. unfold read_optional. apply _. Qed.
#[export] Instance local_saved : Local read_saved := ltac:(unfold read_saved; apply _).

(** The frame counts are checked against the bytes that are left: more bytes
    only weaken the check. *)
Lemma local_count {A} (per : Z) (count : Z) (f : Reader A) :
  0 < per -> Local f ->
  Local (left ← remaining; require (negb (left / per <? count));; f).
Proof.
  intros Hper Hf l a rest more. unfold mbind at 1 3, st_bind at 1 3, remaining, gets.
  intros H. destruct (Z.of_nat (length l) / per <? count) eqn:E; [done|].
  apply Z.ltb_ge in E. rewrite length_app, Nat2Z.inj_add.
  rewrite (proj2 (Z.ltb_ge _ _)).
  - by apply Hf.
  - etransitivity; [exact E|]. apply Z.div_le_mono; lia.
Qed.

Lemma exact_end {A} (f : Reader A) :
  (forall l a rest, f l = Ret (a, rest) -> rest = l) -> Exact (done ← at_end; require done;; f).
Proof.
  intros Hf l a rest. unfold mbind, st_bind, at_end, gets. destruct l as [|b l]; cbn; [|done].
  intros H. split; [by apply (Hf _ _ _ H)|]. by intros [|c more].
Qed.

#[export] Instance exact_bind {A B} (f : A -> Reader B) (m : Reader A) :
  Local m -> (forall a, Exact (f a)) -> Exact (mbind f m).
Proof.
  intros Hm Hf l b rest. unfold mbind, st_bind.
  destruct (m l) as [[a l']|] eqn:E; [|done]. intros Hb.
  destruct (Hf _ _ _ _ Hb) as [-> H]. split; [done|]. intros more Hmore.
  rewrite (Hm _ _ _ more E). by apply H.
Qed.

(** ** Values *)

#[export] Instance wire_u8 : Wire write_u8 read_u8 (fits 8).
Proof. intros a rest H. unfold write_u8. cbn. by rewrite wrap_id. Qed.

#[export] Instance wire_bool : Wire write_bool read_bool (fun _ => True).
Proof. by intros [] rest _. Qed.

(** The bytes of a value, accumulated from the least significant one. *)
Lemma read_le_bytes w (n : nat) byte v rest :
  0 <= byte -> 8 * (byte + Z.of_nat n) <= w -> 0 <= v ->
  read_le w n byte (wrap (8 * byte) v) (le_bytes n byte v ++ rest) =
  Ret (wrap (8 * (byte + Z.of_nat n)) v, rest).
Proof.
  revert byte. induction n as [|n IH]; intros byte Hb Hw Hv.
  - cbn. by rewrite Z.add_0_r.
  - cbn [read_le le_bytes app]. unfold mbind, st_bind. cbn [read_u8].
    replace (Z.lor _ _) with (wrap (8 * (byte + 1)) v).
    + rewrite IH by lia. do 3 f_equal. lia.
    + apply Z.bits_inj'. intros i Hi. rewrite Z.lor_spec, !testbit_wrap by lia.
      destruct (decide (i < 8 * byte)).
      * rewrite Z.shiftl_spec_low by lia. zcmp; bits; done.
      * rewrite Z.shiftl_spec, testbit_wrap, Z.land_spec, Z.shiftr_spec by lia.
        change 0xFF with (Z.ones 8). rewrite Z.testbit_ones_nonneg by lia.
        replace (i - byte * 8 + byte * 8) with i by lia. zcmp; bits; done.
Qed.

#[export] Instance wire_u32 : Wire write_u32 read_u32 (fits 32).
Proof.
  intros a rest H. unfold write_u32, read_u32. rewrite <- (wrap_id 32 a) at 2 by done.
  replace 0 with (wrap (8 * 0) a) at 2 by (unfold wrap; cbn; apply Z.mod_1_r).
  apply read_le_bytes; unfold fits in H; lia.
Qed.

#[export] Instance wire_u64 : Wire write_u64 read_u64 (fits 64).
Proof.
  intros a rest H. unfold write_u64, read_u64. rewrite <- (wrap_id 64 a) at 2 by done.
  replace 0 with (wrap (8 * 0) a) at 2 by (unfold wrap; cbn; apply Z.mod_1_r).
  apply read_le_bytes; unfold fits in H; lia.
Qed.

#[export] Instance wire_u16 : Wire write_u16 read_u16 (fits 16).
Proof.
  intros a rest H.
  change (Ret (u16 (Z.lor (u8 (Z.land a 0xFF)) (Z.shiftl (u8 (Z.land (Z.shiftr a 8) 0xFF)) 8)), rest)
          = Ret (a, rest)). do 2 f_equal.
  change 0xFF with (Z.ones 8). rewrite !Z.land_ones, !(wrap_id 8) by (try apply Z.mod_pos_bound; lia).
  apply (bits_ext 16); [lia|apply wrap_fits; lia|done|]. intros i Hi.
  rewrite testbit_wrap, Z.lor_spec by lia. destruct (decide (i < 8)).
  - rewrite Z.shiftl_spec_low, Z.mod_pow2_bits_low by lia. zcmp. by bits.
  - rewrite Z.shiftl_spec, Z.mod_pow2_bits_high, Z.mod_pow2_bits_low, Z.shiftr_spec by lia.
    replace (i - 8 + 8) with i by lia. zcmp. by bits.
Qed.

Lemma swrap_wrap_id w x : 0 < w -> sfits w x -> swrap w (wrap w x) = x.
Proof.
  intros Hw [Hlo Hhi]. unfold swrap. rewrite wrap_wrap by lia. unfold wrap.
  assert (E : 2 ^ w = 2 * 2 ^ (w - 1)) by (rewrite <- Z.pow_succ_r by lia; f_equal; lia).
  destruct (Z.ltb_spec x 0).
  - replace (x mod 2 ^ w) with (x + 2 ^ w).
    + zcmp; lia.
    + symmetry. rewrite <- (Z_mod_plus_full x 1), Z.mul_1_l. apply Z.mod_small. lia.
  - rewrite Z.mod_small by lia. zcmp; lia.
Qed.

#[export] Instance wire_i16 : Wire write_i16 read_i16 (sfits 16).
Proof.
  intros a rest H. unfold write_i16, read_i16. rewrite wire_bind by (apply wrap_fits; lia).
  by rewrite swrap_wrap_id.
Qed.

#[export] Instance wire_i8 : Wire write_i8 read_i8 (sfits 8).
Proof.
  intros a rest H. unfold write_i8, read_i8. rewrite wire_bind by (apply wrap_fits; lia).
  by rewrite swrap_wrap_id.
Qed.

#[export] Instance wire_size : Wire write_size read_size (fun n => fits 32 (Z.of_nat n)).
Proof.
  intros n rest H. unfold write_size, read_size. rewrite wire_bind by (apply wrap_fits; lia).
  by rewrite wrap_id, Nat2Z.id.
Qed.

#[export] Instance wire_fixed n :
  Wire write_fixed (read_fixed n) (fun l => Z.of_nat (length l) = n).
Proof.
  intros l rest <-. unfold write_fixed, read_fixed. rewrite length_app.
  rewrite (proj2 (Z.ltb_ge _ _)) by lia. rewrite Nat2Z.id.
  by rewrite take_app_length, drop_app_length.
Qed.

#[export] Instance wire_blob n :
  Wire write_blob (read_blob n) (fun l => Z.of_nat (length l) <= n /\ fits 32 (Z.of_nat (length l))).
Proof.
  intros l rest [Hn Hl]. unfold write_blob, read_blob. rewrite <- app_assoc.
  rewrite wire_bind by (apply wrap_fits; lia). rewrite wrap_id by done.
  rewrite (proj2 (Z.ltb_ge _ _)) by lia. by apply wire_fixed.
Qed.

(** ** Combinators *)

#[export] Instance wire_all {A} (write : A -> list Z) (read : Reader A) ok n :
  Wire write read ok ->
  Wire (write_all write) (read_all n read) (fun l => length l = n /\ Forall ok l).
Proof.
  intros W l rest [<- H]. induction H as [|a l Ha _ IH]; [done|].
  unfold write_all. cbn [map concat length read_all]. rewrite <- app_assoc.
  rewrite wire_bind by done. by rewrite (bind_Ret _ _ _ _ _ IH).
Qed.

#[export] Instance wire_optional write read ok :
  Wire write read ok ->
  Wire (write_optional write) (read_optional read) (fun o => forall v, o = Some v -> ok v).
Proof.
  intros W [v|] rest H; unfold write_optional, read_optional.
  - rewrite <- app_assoc, wire_bind by done.
    change (bool_decide (is_Some (Some _))) with true. cbv beta iota.
    by rewrite wire_bind by by apply H.
  - by rewrite <- app_assoc, wire_bind by done.
Qed.

#[export] Instance wire_saved :
  Wire write_saved read_saved
    (fun o => forall l, o = Some l -> length l = 13%nat /\ Forall (fits 32) l).
Proof.
  intros [l|] rest H; unfold write_saved, read_saved.
  - rewrite <- app_assoc, wire_bind by done.
    change (bool_decide (is_Some (Some _))) with true. cbv beta iota.
    by rewrite wire_bind by by apply H.
  - by rewrite <- app_assoc, wire_bind by done.
Qed.

(** ** Sizes *)

Lemma length_write_u32 v : length (write_u32 v) = 4%nat.
Proof. done. Qed.
Lemma length_write_u64 v : length (write_u64 v) = 8%nat.
Proof. done. Qed.
Lemma length_write_bool b : length (write_bool b) = 1%nat.
Proof. done. Qed.

Lemma length_write_all {A} (write : A -> list Z) (n : nat) (l : list A) :
  (forall a, (n <= length (write a))%nat) -> (n * length l <= length (write_all write l))%nat.
Proof.
  intros H. unfold write_all. induction l as [|a l IH]; cbn; [lia|].
  rewrite length_app. specialize (H a). lia.
Qed.

(** ** Automation for records *)

#[local] Opaque write_u8 write_bool write_u16 write_i16 write_i8 write_u32 write_u64 write_size
  write_fixed write_blob write_optional write_saved write_all
  read_u8 read_bool read_u16 read_i16 read_i8 read_u32 read_u64 read_size read_fixed read_blob
  read_optional read_saved read_all.

Create HintDb wire.
#[export] Hint Extern 1 True => exact I : wire.
#[export] Hint Extern 1 (fits _ _) => assumption : wire.
#[export] Hint Extern 5 (fits _ _) => (unfold fits in *; lia) : wire.
#[export] Hint Extern 1 (_ /\ _) => split : wire.
#[export] Hint Extern 2 (_ <= _) => (assumption || (unfold fits in *; lia)) : wire.

(** One field of a record. *)
Ltac wire_field := rewrite wire_bind by eauto with wire; cbv beta.
Ltac wire_fields := rewrite <- ?app_assoc; repeat wire_field.

(** ** The processor *)

Definition cpu_image (st : ArmState.State) : Prop :=
  exists s, ArmSafety.wf s /\ st = ArmState.save_state s.

Lemma mode_byte m : ArmSafety.named m ->
  fits 8 (CpuMode.index m) /\ CpuMode.of_byte (CpuMode.index m) = m.
Proof.
  intros H. destruct m as [| | | | | | |v]; [..|by destruct (ArmSafety.unnamed_not_named v)];
    split; done || by vm_compute.
Qed.

(** Opening a snapshot: its fields are those of the saved component. *)
Ltac open_image :=
  cbn [ArmState.save_state ArmState.st_registers ArmState.st_elapsed_cycles ArmState.st_negative
    ArmState.st_zero ArmState.st_carry ArmState.st_overflow ArmState.st_irq_disabled
    ArmState.st_fiq_disabled ArmState.st_thumb_state ArmState.st_mode ArmState.st_shared_r8_r12
    ArmState.st_fiq_r8_r12 ArmState.st_user_sp ArmState.st_user_lr ArmState.st_fiq_sp
    ArmState.st_fiq_lr ArmState.st_irq_sp ArmState.st_irq_lr ArmState.st_supervisor_sp
    ArmState.st_supervisor_lr ArmState.st_abort_sp ArmState.st_abort_lr ArmState.st_undefined_sp
    ArmState.st_undefined_lr ArmState.st_fiq_spsr ArmState.st_supervisor_spsr
    ArmState.st_abort_spsr ArmState.st_irq_spsr ArmState.st_undefined_spsr
    MemoryBus.save_state MemoryBus.s_ewram MemoryBus.s_iwram MemoryBus.s_palette MemoryBus.s_vram
    MemoryBus.s_oam MemoryBus.s_game_pak_rom MemoryBus.s_game_pak_save
    MemoryBus.s_game_pak_save_type MemoryBus.s_flash_command_state MemoryBus.s_flash_id_mode
    MemoryBus.s_flash_bank MemoryBus.s_open_bus_latch MemoryBus.s_open_bus_latch_valid
    MemoryBus.s_mgba_debug_string MemoryBus.s_debug_output
    Timers.save_timer Timers.s_counter Timers.s_reload Timers.s_control Timers.s_overflow_count
    Timers.s_enable_delay_cycles Timers.s_last_enable_phase Timers.s_just_enabled
    PpuTiming.save_state PpuTiming.s_line PpuTiming.s_line_cycle PpuTiming.s_dispstat_control
    PpuTiming.s_lcd_control].

#[export] Instance wire_cpu : Wire write_cpu_state parse_cpu_state cpu_image.
Proof.
  intros st rest (s & H & ->). destruct H as [Hr Hs Hf Hb Hm He].
  destruct (mode_byte _ Hm) as [Hm8 Em]. unfold ArmSafety.words, ArmSafety.banked in *.
  decompose_Forall_hyps. unfold write_cpu_state, parse_cpu_state. open_image.
  rewrite (wrap_id 8 (CpuMode.index _)) by done. wire_fields. by rewrite Em.
Qed.

(** ** The memory *)

(** The debug output has a 32-bit length on the wire. *)
Definition memory_image (st : MemoryBus.State) : Prop :=
  exists b, BusSafety.wf b /\ fits 32 (Z.of_nat (length (MemoryBus.debug_output_ b))) /\
    st = MemoryBus.save_state b.

Lemma save_type_byte t :
  fits 8 (MemoryBus.GamePakSaveType.index t) /\
  MemoryBus.GamePakSaveType.index t <= 5 /\
  save_type_of_byte (MemoryBus.GamePakSaveType.index t) = t.
Proof. by destruct t; vm_compute. Qed.

Lemma flash_state_byte t :
  fits 8 (MemoryBus.FlashCommandState.index t) /\
  MemoryBus.FlashCommandState.index t <= 7 /\
  flash_state_of_byte (MemoryBus.FlashCommandState.index t) = t.
Proof. by destruct t; vm_compute. Qed.

Lemma save_size_le t : 0 <= MemoryBus.save_size_for_type t <= MemoryBus.kFlash128kSize.
Proof. by destruct t; vm_compute. Qed.

#[export] Instance wire_memory : Wire write_memory_state parse_memory_state memory_image.
Proof.
  intros st rest (b & H & Hd & ->). destruct H as [Hs Hr Hg Hz Hv Hb Hrom (Hrt & Hgt & Hl)].
  destruct (save_type_byte (MemoryBus.game_pak_save_type_ b)) as (T8 & T5 & ET).
  destruct (flash_state_byte (MemoryBus.flash_command_state_ b)) as (F8 & F7 & EF).
  pose proof (save_size_le (MemoryBus.game_pak_save_type_ b)) as Hm. rewrite <- Hz in Hm.
  assert (Hsave : fits 32 (Z.of_nat (length (MemoryBus.game_pak_save_ b)))).
  { unfold MemoryBus.kFlash128kSize in Hm. unfold fits. lia. }
  assert (Hrom32 : fits 32 (Z.of_nat (length (MemoryBus.game_pak_rom_ b)))).
  { unfold kGamePakRomWindowSize in Hrom. unfold fits. lia. }
  pose proof (Hs Region.ewram eq_refl : _ = kEwramSize).
  pose proof (Hs Region.iwram eq_refl : _ = kIwramSize).
  pose proof (Hs Region.palette eq_refl : _ = kPaletteSize).
  pose proof (Hs Region.vram eq_refl : _ = kVramSize).
  pose proof (Hs Region.oam eq_refl : _ = kOamSize).
  assert (Hstring : Z.of_nat (length (MemoryBus.mgba_debug_string_ b)) = kDebugStringSize)
    by by rewrite Hg.
  assert (Hbank : fits 8 (MemoryBus.flash_bank_ b) /\ MemoryBus.flash_bank_ b <= 1).
  { unfold fits. destruct Hb as [-> |[-> _]]; lia. }
  destruct Hbank as [B8 B1]. cbn [MemoryBusSpec.ram] in *.
  unfold write_memory_state, parse_memory_state. open_image. wire_fields.
  rewrite require_bind; cycle 1.
  { rewrite negb_true_iff, !orb_false_iff, !Z.ltb_ge. split_and!; try done. }
  cbv beta. wire_fields. by rewrite ET, EF.
Qed.

(** ** The devices *)

#[local] Opaque Z.lnot.

Lemma parse_interrupts_write ic rest : Interrupts.wf ic ->
  parse_interrupt_state (write_interrupt_state ic ++ rest) =
  Ret ((interrupt_enable ic, interrupt_flags ic, master_enabled ic), rest).
Proof.
  intros [He Hf]. unfold write_interrupt_state, parse_interrupt_state.
  assert (E : forall x, fits 14 x -> fits 16 x /\ Z.land x (Z.lnot kSupportedMask) = 0).
  { intros x Hx. split; [by apply (fits_mono 14); [lia|]|].
    apply Z.bits_inj'. intros i Hi. rewrite Z.land_spec, Z.lnot_spec, Z.bits_0 by done.
    change kSupportedMask with (Z.ones 14). rewrite Z.testbit_ones_nonneg by lia.
    destruct (Z.ltb_spec i 14); [apply andb_false_r|].
    by rewrite (fits_testbit_high 14) by (done || lia). }
  destruct (E _ He) as [He16 Ee], (E _ Hf) as [Hf16 Ef].
  wire_fields. by rewrite require_bind by by rewrite Ee, Ef.
Qed.

Definition timer_image (st : Timers.TimerState) : Prop :=
  exists i now t, TimersSpec.timer_wf i now t /\ st = Timers.save_timer t.

#[export] Instance wire_timer : Wire write_timer parse_timer timer_image.
Proof.
  intros st rest (i & now & t & H & ->).
  destruct H as ((Hc & Hr & Ho) & (Hm & _) & Hd & Hp & _).
  assert (fits 16 (Timers.control t)).
  { rewrite <- Hm. apply fits_land_r; [lia|by vm_compute]. }
  assert (fits 32 (Timers.enable_delay_cycles t)) by (unfold fits; lia).
  unfold write_timer, parse_timer. open_image. by wire_fields.
Qed.

Definition timers_image (st : Timers.State) : Prop :=
  exists ts, TimersSpec.wf ts /\ st = Timers.save_state ts.

#[export] Instance wire_timers : Wire write_timers_state parse_timers_state timers_image.
Proof.
  intros st rest (ts & (Hl & Hn & H) & ->).
  assert (Hall : length (map Timers.save_timer (Timers.timers ts)) = Timers.kTimerCount /\
                 Forall timer_image (map Timers.save_timer (Timers.timers ts))).
  { split; [by rewrite length_map|]. apply Forall_fmap, Forall_lookup. intros i t Ht.
    by exists i, (Timers.cycle_counter ts), t; split; [apply H|]. }
  unfold write_timers_state, parse_timers_state, Timers.save_state.
  cbn [Timers.s_cycle_counter Timers.s_timers]. by wire_fields.
Qed.

Definition channel_typed (c : Dma.Channel) : Prop := exists i, DmaSpec.channel_wf i c.

#[export] Instance wire_channel : Wire write_channel parse_channel channel_typed.
Proof.
  intros c rest [i H]. pose proof (DmaSpec.count_mask_bound i). destruct H.
  assert (fits 32 (Dma.current_count c)) by (unfold fits; lia).
  unfold write_channel, parse_channel. wire_fields. by destruct c.
Qed.

#[export] Instance wire_dma : Wire write_dma_state parse_dma_state DmaSpec.wf.
Proof.
  intros d rest [Hl H].
  assert (Hall : length (Dma.channels d) = Dma.kChannelCount /\
                 Forall channel_typed (Dma.channels d)).
  { split; [done|]. apply Forall_lookup. intros i c Hc. exists i. by apply H. }
  unfold write_dma_state, parse_dma_state. wire_fields. by destruct d.
Qed.

Definition ppu_image (st : PpuTiming.State) : Prop :=
  exists p, PpuTimingSpec.wf p /\ PpuTimingSpec.lcd_ok p /\
    fits 16 (PpuTiming.dispstat_control_ p) /\ st = PpuTiming.save_state p.

#[export] Instance wire_ppu : Wire write_ppu_state parse_ppu_state ppu_image.
Proof.
  intros st rest (p & [Hl Hc] & Hlcd & Hd & ->).
  unfold PpuTimingSpec.lcd_ok in Hlcd.
  assert (fits 16 (PpuTiming.line_ p)) by (unfold PpuTiming.kTotalLines in Hl; unfold fits;
    unfold PpuTiming.kVisibleLines, PpuTiming.kVblankLines in Hl; lia).
  assert (fits 16 (PpuTiming.line_cycle_ p)) by (unfold PpuTiming.kCyclesPerLine,
    PpuTiming.kVisibleCycles, PpuTiming.kHblankCycles in Hc; unfold fits; lia).
  unfold write_ppu_state, parse_ppu_state. open_image. wire_fields.
  rewrite require_bind; [done|].
  rewrite andb_true_iff, !Z.ltb_lt. split; [apply Hl|apply Hc].
Qed.

#[export] Instance wire_io :
  Wire write_io_state parse_io_state (fun io =>
    length (s_serial io) = kSerialRegisters /\ Forall (fits 16) (s_serial io) /\
    fits 32 (s_sio_transfer_cycles_remaining io)).
Proof.
  intros io rest (Hl & Hs & Hc). unfold write_io_state, parse_io_state. wire_fields.
  by destruct io.
Qed.

Definition fifo_image (r : Apu.Ring Z) : Prop :=
  ApuSpec.ring_ok Apu.kFifoCapacity r /\ Forall (sfits 8) (Apu.samples r).

Lemma ring_sizes {A} (n : nat) (r : Apu.Ring A) :
  ApuSpec.ring_ok n r -> fits 32 (Z.of_nat n) ->
  fits 32 (Z.of_nat (Apu.head r)) /\ fits 32 (Z.of_nat (Apu.ring_size r)).
Proof. intros (_ & H1 & H2). unfold fits. lia. Qed.

#[export] Instance wire_fifo : Wire write_fifo parse_fifo fifo_image.
Proof.
  intros r rest [H Hs]. destruct (ring_sizes _ r H ltac:(by vm_compute)).
  assert (Hl := proj1 H). unfold write_fifo, parse_fifo. wire_fields. by destruct r.
Qed.

#[export] Instance wire_square : Wire write_square parse_square ApuSpec.square_ok.
Proof.
  intros c rest (Hd & Hv & Hp & Hph).
  assert (fits 8 (Apu.sq_duty c) /\ fits 8 (Apu.sq_volume c) /\ fits 16 (Apu.sq_period_samples c) /\
          fits 16 (Apu.sq_phase c)) as (? & ? & ? & ?) by (unfold fits; lia).
  unfold write_square, parse_square. wire_fields.
  rewrite require_bind by (rewrite negb_true_iff, Z.ltb_ge; lia). by destruct c.
Qed.

#[export] Instance wire_wave : Wire write_wave parse_wave ApuSpec.wave_ok.
Proof.
  intros c rest (Hv & Hp & Hph).
  assert (fits 8 (Apu.wv_volume_shift c) /\ fits 16 (Apu.wv_period_samples c) /\
          fits 16 (Apu.wv_phase c)) as (? & ? & ?) by (unfold fits; lia).
  unfold write_wave, parse_wave. wire_fields.
  rewrite require_bind by (rewrite negb_true_iff, Z.ltb_ge; lia). by destruct c.
Qed.

#[export] Instance wire_noise : Wire write_noise parse_noise ApuSpec.noise_ok.
Proof.
  intros c rest (Hv & Hl & Hp & Hph).
  assert (fits 8 (Apu.ns_volume c) /\ fits 16 (Apu.ns_period_samples c) /\
          fits 16 (Apu.ns_phase c)) as (? & ? & ?) by (unfold fits; lia).
  unfold write_noise, parse_noise. wire_fields. by destruct c.
Qed.

#[export] Instance wire_mixed :
  Wire write_mixed read_mixed (fun s => sfits 16 (Apu.left s) /\ sfits 16 (Apu.right s)).
Proof.
  intros s rest [Hl Hr]. unfold write_mixed, read_mixed. wire_fields. by destruct s.
Qed.

Definition apu_image (p : Apu.Apu) : Prop := ApuSpec.wf p /\ apu_typed p.

#[export] Instance wire_apu : Wire write_apu_state parse_apu_state apu_image.
Proof.
  intros p rest [[] []].
  destruct (ring_sizes _ _ wf_audio ltac:(by vm_compute)).
  assert (Hl := proj1 wf_audio).
  assert (fifo_image (Apu.fifo0 p)) by done. assert (fifo_image (Apu.fifo1 p)) by done.
  assert (fits 32 (Apu.frame_cycle_remainder_ p)).
  { unfold Apu.kCpuCyclesPerFrameSequencerStep in wf_frame. unfold fits. lia. }
  assert (fits 32 (Apu.audio_cycle_remainder_ p)).
  { unfold Apu.kCpuCyclesPerAudioSample in wf_audio_rem. unfold fits. lia. }
  assert (fits 8 (Apu.frame_step_ p)).
  { unfold Apu.kFrameSequencerSteps in wf_step. unfold fits. lia. }
  unfold ApuSpec.bank_ok in *.
  unfold write_apu_state, parse_apu_state. wire_fields.
  rewrite require_bind by (apply Z.ltb_lt, wf_step).
  destruct p as [????????????????????]; cbn in *. by destruct audio_buffer_.
Qed.

(** ** The scheduler *)

Definition optional_fits (w : Z) (o : option Z) : Prop := forall v, o = Some v -> fits w v.

Definition saved_ok (o : option (list Z)) : Prop :=
  forall l, o = Some l -> length l = 13%nat /\ Forall (fits 32) l.

Definition irq_frame_ok (f : HleIrqFrame) : Prop :=
  fits 32 (return_lr f) /\ saved_ok (saved_registers f).

(** Queued work: some cycles each, owned by strictly deeper interrupts. *)
Fixpoint work_frames_ok (depth : Z) (last : option Z) (l : list HleWorkFrame) : Prop :=
  match l with
  | [] => True
  | f :: l =>
      0 < remaining_cycles f < 2 ^ 64 /\ fits 32 (owner_irq_depth f) /\
      owner_irq_depth f <= depth /\
      (forall previous, last = Some previous -> previous < owner_irq_depth f) /\
      work_frames_ok depth (Some (owner_irq_depth f)) l
  end.

(** The depth of the nested interrupts. *)
Definition frame_depth (outer : list HleIrqFrame) (saved : option (list Z)) : Z :=
  Z.of_nat (length outer) + (if bool_decide (is_Some saved) then 1 else 0).

(** The stacks of interrupt and work frames agree. *)
Record frames_ok (s : CoreSchedulerState) : Prop := mk_frames_ok {
  fo_outer : Forall irq_frame_ok (st_hle_irq_outer_frames s);
  fo_outer_count : fits 32 (Z.of_nat (length (st_hle_irq_outer_frames s)));
  fo_return : st_hle_irq_outer_frames s <> [] -> is_Some (st_hle_irq_return_lr s);
  fo_work : work_frames_ok
              (frame_depth (st_hle_irq_outer_frames s) (st_hle_irq_saved_registers s)) None
              (st_hle_work_frames s);
  fo_work_count : fits 32 (Z.of_nat (length (st_hle_work_frames s)))
}.

Record scheduler_typed (s : CoreSchedulerState) : Prop := mk_scheduler_typed {
  sy_cycles : fits 64 (st_scheduler_cycles s);
  sy_address : optional_fits 32 (st_last_fetch_address s);
  sy_width : optional_fits 8 (st_last_fetch_width_bytes s);
  sy_window : optional_fits 8 (st_last_fetch_window s);
  sy_prefetch : fits 8 (st_prefetch_buffer_halfwords s);
  sy_waitcnt : optional_fits 16 (st_last_waitcnt_control s);
  sy_lr : optional_fits 32 (st_hle_irq_return_lr s);
  sy_saved : saved_ok (st_hle_irq_saved_registers s);
  sy_service : fits 8 (st_hle_irq_chained_spaced_data_service_count s);
  sy_latency : fits 8 (st_auto_irq_latency_cycles s);
  sy_gap : fits 32 (st_timer_io_access_gap_cycles s);
  sy_misfetch : fits 32 (st_thumb_misfetch_recovery_count s);
  sy_frames : frames_ok s
}.

#[export] Instance wire_irq_frame : Wire write_irq_frame parse_irq_frame irq_frame_ok.
Proof.
  intros f rest [Hr Hs]. unfold saved_ok in Hs. unfold write_irq_frame, parse_irq_frame.
  wire_fields. by destruct f.
Qed.

(** A counted list passes the check against the bytes that are left. *)
Lemma count_check {A} (write : A -> list Z) (n : nat) (l : list A) rest :
  (0 < n)%nat -> (forall a, (n <= length (write a))%nat) ->
  (Z.of_nat (length (write_all write l ++ rest)) / Z.of_nat n <? Z.of_nat (length l)) = false.
Proof.
  intros Hn H. apply Z.ltb_ge, Z.div_le_lower_bound; [lia|].
  pose proof (length_write_all write n l H). rewrite length_app. lia.
Qed.

Lemma length_irq_frame f : (7 <= length (write_irq_frame f))%nat.
Proof.
  unfold write_irq_frame. rewrite !length_app, length_write_u32, !length_write_bool.
  enough (1 <= length (write_saved (saved_registers f)))%nat by lia.
  #[local] Transparent write_saved. unfold write_saved.
  rewrite length_app, length_write_bool. lia.
Qed.
#[local] Opaque write_saved.

Lemma length_work_frame f : (12 <= length (write_work_frame f))%nat.
Proof. unfold write_work_frame. by rewrite length_app, length_write_u64, length_write_u32. Qed.

Lemma parse_irq_frames_write l lr rest :
  Forall irq_frame_ok l -> fits 32 (Z.of_nat (length l)) -> (l <> [] -> is_Some lr) ->
  parse_irq_frames kVersion lr
    (write_size (length l) ++ write_all write_irq_frame l ++ rest) = Ret (l, rest).
Proof.
  intros Hl Hn Hlr. unfold parse_irq_frames. change (4 <=? kVersion) with true. cbv iota.
  change (write_size (length l)) with (write_u32 (u32 (Z.of_nat (length l)))).
  rewrite wrap_id by done. wire_field. rewrite remaining_bind.
  change 7 with (Z.of_nat 7) at 1.
  rewrite (count_check write_irq_frame 7 l) by (lia || apply length_irq_frame).
  rewrite require_bind by done. rewrite Nat2Z.id.
  rewrite (wire_bind (W := wire_all _ _ _ (length l) wire_irq_frame)) by done.
  rewrite require_bind; [done|]. destruct l as [|f l]; [done|].
  rewrite bool_decide_true by by apply Hlr. by rewrite andb_false_r.
Qed.

Lemma parse_work_frames_write depth last l rest :
  work_frames_ok depth last l ->
  parse_work_frames_loop (length l) depth last (write_all write_work_frame l ++ rest) =
  Ret (l, rest).
Proof.
  revert last. induction l as [|f l IH]; intros last; [done|].
  cbn [work_frames_ok length parse_work_frames_loop].
  intros (Hr & Ho & Hd & Hlast & Hl).
  change (write_all write_work_frame (f :: l))
    with (write_work_frame f ++ write_all write_work_frame l).
  unfold write_work_frame at 1. wire_fields.
  rewrite require_bind by (apply negb_true_iff, Z.eqb_neq; lia). wire_field.
  rewrite require_bind by (apply negb_true_iff, Z.ltb_ge; lia).
  rewrite require_bind; cycle 1.
  { destruct last as [previous|]; [|done]. specialize (Hlast _ eq_refl).
    apply negb_true_iff, Z.leb_gt. lia. }
  rewrite (read_bind _ _ _ _ _ (IH _ Hl)). by destruct f.
Qed.

#[export] Instance wire_scheduler :
  Wire write_scheduler_state (parse_scheduler_state kVersion) scheduler_typed.
Proof.
  intros s rest [? Ha Hw Hwin ? Hc Hlr Hsv ? ? ? ? [Ho Hon Hor Hwk Hwn]].
  unfold optional_fits, saved_ok in *.
  unfold write_scheduler_state, parse_scheduler_state. wire_fields.
  rewrite (read_bind _ _ _ _ _ (parse_irq_frames_write _ _ _ Ho Hon Hor)).
  rewrite (read_bind _ _ _ (st_hle_work_frames s) rest); [by destruct s|].
  unfold parse_work_frames. change (6 <=? kVersion) with true. cbv iota.
  change (write_size ?n) with (write_u32 (u32 (Z.of_nat n))).
  rewrite wrap_id by done. wire_field. rewrite remaining_bind.
  change 12 with (Z.of_nat 12) at 1.
  rewrite (count_check write_work_frame 12) by (lia || apply length_work_frame).
  rewrite require_bind by done. rewrite Nat2Z.id. by apply parse_work_frames_write.
Qed.

(** ** The payload *)

(** A session whose snapshot is on the wire's terms. *)
Record session_ok (s : CoreSession) : Prop := mk_session_ok {
  so_cpu : ArmSafety.wf (cpu_of (core_ s));
  so_bus : BusSafety.wf (bus_of (core_ s));
  so_debug : fits 32 (Z.of_nat (length (MemoryBus.debug_output_ (bus_of (core_ s)))));
  so_devices : devices_wf (devices_of (core_ s));
  so_timers : TimersSpec.wf (timers_ (devices_of (core_ s)));
  so_scheduler : scheduler_typed (SchedulerState.save_state (sched (core_ s)))
}.

(** The payload of a saved session. *)
Definition payload_of (s : CoreSession) : Payload :=
  let m := CoreSession.save_state s in
  mkPayload (ArmState.save_state (ss_cpu m)) (MemoryBus.save_state (ss_memory m))
    (interrupt_enable (ss_interrupts m), interrupt_flags (ss_interrupts m),
     master_enabled (ss_interrupts m))
    (Timers.save_state (ss_timers m)) (Dma.save_state (ss_dma m)) (PpuTiming.save_state (ss_ppu m))
    (Apu.save_state (ss_apu m)) (pressed_mask (ss_keypad m)) (keycnt (ss_keypad m))
    (WaitState.read_control (ss_waitcnt m)) (BiosExecutionMode.index (Bios.mode_ (ss_bios m)))
    (ss_io m) (ss_scheduler m).

(** The bytes behind the header. *)
Definition write_payload (s : CoreSession) : list Z :=
  let machine := CoreSession.save_state s in
  write_cpu_state (ArmState.save_state (ss_cpu machine)) ++
  write_memory_state (MemoryBus.save_state (ss_memory machine)) ++
  write_interrupt_state (ss_interrupts machine) ++
  write_timers_state (Timers.save_state (ss_timers machine)) ++
  write_dma_state (Dma.save_state (ss_dma machine)) ++
  write_ppu_state (PpuTiming.save_state (ss_ppu machine)) ++
  write_apu_state (Apu.save_state (ss_apu machine)) ++
  write_u16 (pressed_mask (ss_keypad machine)) ++
  write_u16 (keycnt (ss_keypad machine)) ++
  write_u16 (WaitState.read_control (ss_waitcnt machine)) ++
  write_u8 (BiosExecutionMode.index (Bios.mode_ (ss_bios machine))) ++
  write_io_state (ss_io machine) ++
  write_scheduler_state (ss_scheduler machine).

Lemma encode_parts s :
  encode s = write_u32 kMagic ++ write_u32 kVersion ++ write_u64 (CoreSession.state_hash s) ++
             write_payload s.
Proof. done. Qed.

Lemma bios_byte m : fits 8 (BiosExecutionMode.index m) /\
  (BiosExecutionMode.index BiosExecutionMode.hle <? BiosExecutionMode.index m) = false /\
  BiosExecutionMode.of_byte (BiosExecutionMode.index m) = m.
Proof. by destruct m; vm_compute. Qed.

(** What the payload parses to, with [more] bytes behind it. *)
Lemma parse_payload_write s more : session_ok s ->
  parse_payload kVersion (write_payload s ++ more) =
  if bool_decide (more = []) then Ret (payload_of s, more) else Throw.
Proof.
  intros [Hcpu Hbus Hdebug Hd Htimers Hsched]. pose proof (waitcnt_fits _ Hd) as Hwait.
  destruct Hd as [Hirq _ Hdma Hppu Hlcd Hdisp Hapu Htyped [Hpm Hkc] _ _ Hserial Hsio].
  destruct (bios_byte (Bios.mode_ (bios_of (core_ s)))) as (Hb8 & Hb & _).
  assert (cpu_image (ArmState.save_state (cpu_of (core_ s)))) by by eexists.
  assert (memory_image (MemoryBus.save_state (bus_of (core_ s)))) by by eexists.
  assert (timers_image (Timers.save_state (timers_ (devices_of (core_ s))))) by by eexists.
  assert (ppu_image (PpuTiming.save_state (ppu (devices_of (core_ s))))) by by eexists.
  assert (DmaSpec.wf (Dma.save_state (dma (devices_of (core_ s))))) by done.
  assert (apu_image (Apu.save_state (apu (devices_of (core_ s))))).
  { replace (Apu.save_state _) with (apu (devices_of (core_ s))); [done|].
    by destruct (apu (devices_of (core_ s))). }
  assert (fits 16 (pressed_mask (keypad (devices_of (core_ s))))).
  { by apply (fits_mono 10); [lia|]. }
  unfold write_payload, parse_payload, CoreSession.save_state, payload_of.
  cbn [ss_cpu ss_memory ss_interrupts ss_timers ss_dma ss_ppu ss_apu ss_bios ss_keypad ss_waitcnt
    ss_io ss_scheduler]. rewrite <- !app_assoc.
  wire_field. wire_field. rewrite (read_bind _ _ _ _ _ (parse_interrupts_write _ _ Hirq)).
  cbv beta. wire_fields. rewrite require_bind by by rewrite Hb.
  assert (Hio : length (s_serial (IoRegisters.save_state (devices_of (core_ s)))) =
            kSerialRegisters /\
          Forall (fits 16) (s_serial (IoRegisters.save_state (devices_of (core_ s)))) /\
          fits 32 (s_sio_transfer_cycles_remaining
                     (IoRegisters.save_state (devices_of (core_ s)))))
    by (split_and!; [apply Hserial..|done]).
  wire_fields. rewrite (read_bind at_end _ _ (bool_decide (more = [])) more) by by destruct more.
  by destruct more.
Qed.

(** ** The header *)

Definition write_header (hash : Z) : list Z :=
  write_u32 kMagic ++ write_u32 kVersion ++ write_u64 hash.

Lemma encode_header s : encode s = write_header (CoreSession.state_hash s) ++ write_payload s.
Proof. unfold write_header. by rewrite <- !app_assoc. Qed.

Lemma length_write_header hash : length (write_header hash) = 16%nat.
Proof. unfold write_header. by rewrite !length_app, !length_write_u32, length_write_u64. Qed.

Lemma read_header_write hash rest : fits 64 hash ->
  read_header (write_header hash ++ rest) = inr (kVersion, hash, rest).
Proof.
  intros Hh. unfold read_header. rewrite length_app, length_write_header.
  rewrite (proj2 (Z.ltb_ge _ _)) by (unfold kHeaderSize; lia). unfold write_header.
  rewrite <- !app_assoc. rewrite (wire kMagic) by by vm_compute. cbv beta iota.
  rewrite Z.eqb_refl. cbn [negb]. rewrite (wire kVersion) by by vm_compute. cbv beta iota.
  change (known_version kVersion) with true. cbn [negb]. by rewrite wire.
Qed.
