(* ===== verification/SaveStateRestore.v ===== *)
(** * The save-state codec: restoring a session

    The loaders behind the parser, and what [decode_into] promises: a saved
    session comes back, a damaged one is rejected and changes nothing. *)

From S2P Require Import Prelude StateHash StateMonad Interrupts Keypad BusTypes WaitState.
From S2P Require Timers PpuTiming MemoryBus Dma Apu ArmState.
From S2P Require DmaSpec MemoryBusSpec TimersSpec PpuTimingSpec BusSafety ApuSpec ArmSafety.
From S2P Require Import ApuTyped IoRegistersSpec.
From S2P Require Import ArmTypes IoRegisters Bios SchedulerState SchedulerDevices CoreSession.
From S2P Require Import SaveStateCodec SaveStateSpec.

(** ** Restoring *)

Lemma land_supported x : fits 14 x -> Z.land x kSupportedMask = x.
Proof. intros H. change kSupportedMask with (Z.ones 14). by rewrite Z.land_ones, Z.mod_small. Qed.

(** The loop of [restore_interrupts] raises the flags that are set. *)
Definition raise (flags : Z) (ic : InterruptController) (bit : Z) : InterruptController :=
  if has flags (u16 (Z.shiftl 1 bit)) then
    match InterruptSource.of_index bit with Some source => request source ic | None => ic end
  else ic.

Lemma source_of_index bit : 0 <= bit < 14 ->
  exists source, InterruptSource.of_index bit = Some source /\ InterruptSource.index source = bit.
Proof.
  intros H.
  assert (HF : Forall (fun bit => exists source, InterruptSource.of_index bit = Some source /\
                         InterruptSource.index source = bit) (seqZ 0 14)).
  { vm_compute. repeat constructor; by eexists. }
  rewrite Forall_forall in HF. apply HF, list_elem_of_In, elem_of_seqZ. lia.
Qed.

Lemma raise_spec flags ic bit i : 0 <= bit < 14 -> Interrupts.wf ic -> 0 <= i ->
  Interrupts.wf (raise flags ic bit) /\
  interrupt_enable (raise flags ic bit) = interrupt_enable ic /\
  Z.testbit (interrupt_flags (raise flags ic bit)) i =
    Z.testbit (interrupt_flags ic) i || (Z.testbit flags i && (i =? bit)).
Proof.
  intros Hb Hwf Hi. destruct (source_of_index bit Hb) as (source & E & Es).
  unfold raise. rewrite E. change (u16 (Z.shiftl 1 bit)) with (u16 (Z.shiftl 1 bit)).
  assert (Ebit : u16 (Z.shiftl 1 bit) = 2 ^ bit) by (rewrite <- Es; apply interrupt_bit_pow).
  rewrite Ebit, has_bit by lia. destruct (Z.testbit flags bit) eqn:Et.
  - split_and!; [by apply request_wf|done|].
    cbn. rewrite interrupt_bit_supported, testbit_wrap, Z.lor_spec, testbit_interrupt_bit, Es by lia.
    destruct Hwf as [_ Hf]. destruct (Z.eqb_spec i bit) as [->|].
    + rewrite Et, orb_true_r. zcmp.
    + rewrite andb_false_r, !orb_false_r. destruct (Z.ltb_spec i 16); [done|].
      by rewrite (fits_testbit_high 14) by (done || lia).
  - split_and!; [done..|]. destruct (Z.eqb_spec i bit) as [->|]; [by rewrite Et, orb_false_r|].
    by rewrite andb_false_r, orb_false_r.
Qed.

Lemma raise_loop flags l ic i : Forall (fun bit => 0 <= bit < 14) l -> Interrupts.wf ic -> 0 <= i ->
  Interrupts.wf (fold_left (raise flags) l ic) /\
  interrupt_enable (fold_left (raise flags) l ic) = interrupt_enable ic /\
  Z.testbit (interrupt_flags (fold_left (raise flags) l ic)) i =
    Z.testbit (interrupt_flags ic) i || (Z.testbit flags i && existsb (Z.eqb i) l).
Proof.
  intros Hl Hwf Hi. revert ic Hwf. induction Hl as [|bit l Hb _ IH]; intros ic Hwf.
  { cbn. by rewrite andb_false_r, orb_false_r. }
  destruct (raise_spec flags ic bit i Hb Hwf Hi) as (W & E & T). cbn [fold_left existsb].
  destruct (IH _ W) as (W' & E' & T'). split_and!; [done|by rewrite E'|].
  rewrite T', T. rewrite <- orb_assoc. f_equal. by destruct (Z.testbit flags i).
Qed.

Lemma restore_interrupts_id ic : Interrupts.wf ic ->
  restore_interrupts (interrupt_enable ic, interrupt_flags ic, master_enabled ic) = ic.
Proof.
  intros [He Hf].
  change (restore_interrupts (interrupt_enable ic, interrupt_flags ic, master_enabled ic))
    with (set_master_enabled (master_enabled ic) (fold_left (raise (interrupt_flags ic)) (seqZ 0 14)
            (write_interrupt_enable (interrupt_enable ic) Interrupts.reset))).
  pose proof (fun i => raise_loop (interrupt_flags ic) (seqZ 0 14)
    (write_interrupt_enable (interrupt_enable ic) Interrupts.reset) i
    ltac:(vm_compute; repeat constructor; done) (write_interrupt_enable_wf _ _ reset_wf)) as H.
  destruct (fold_left _ _ _) as [e f m] eqn:E. destruct ic as [e0 f0 m0].
  cbn [interrupt_enable interrupt_flags master_enabled] in *.
  change (mkInterruptController e f m0 = mkInterruptController e0 f0 m0).
  destruct (H 0 ltac:(lia)) as ([_ Hf'] & -> & _). f_equal.
  - cbn. rewrite land_supported, wrap_id; [done|apply (fits_mono 14); [lia|]|]; done.
  - apply (bits_ext 14); [lia|done|done|]. intros i Hi.
    destruct (H i ltac:(lia)) as (_ & _ & ->). cbn [Interrupts.reset write_interrupt_enable].
    assert (Hin : existsb (Z.eqb i) (seqZ 0 14) = true).
    { apply existsb_exists. exists i. rewrite <- list_elem_of_In, elem_of_seqZ, Z.eqb_refl. lia. }
    rewrite Hin, andb_true_r. change (Z.testbit 0 i || Z.testbit f0 i = Z.testbit f0 i).
    by rewrite Z.bits_0.
Qed.

(** What a restored session shares with the saved one: everything but the
    timers' private anchors, which the snapshot does not hold. *)
Definition restored_from (m m' : CoreSessionState) : Prop :=
  exists ts, TimersSpec.equiv (ss_timers m) ts /\
    m' = mkCoreSessionState (ss_cpu m) (ss_memory m) (ss_interrupts m) ts (ss_dma m) (ss_ppu m)
           (ss_apu m) (ss_bios m) (ss_keypad m) (ss_waitcnt m) (ss_io m) (ss_scheduler m).

Lemma load_cpu s other : ArmSafety.wf s ->
  ArmState.load_state (ArmState.save_state s) other = (true, s).
Proof.
  intros []. unfold ArmState.load_state. open_image.
  replace (decode_cpu_mode (CpuMode.index (ArmState.mode_ s))) with (Some (ArmState.mode_ s)).
  by destruct s.
Qed.

Lemma fifo_accepted r : ApuSpec.ring_ok Apu.kFifoCapacity r -> Apu.fifo_state_ok r = true.
Proof.
  intros (Hl & Hh & Hs). unfold Apu.fifo_state_ok. apply negb_true_iff, orb_false_iff.
  split; [apply orb_false_iff; split|].
  - by apply Nat.leb_gt.
  - by apply Nat.ltb_ge.
  - apply Nat.ltb_ge. by rewrite Hl.
Qed.

Lemma load_apu p other : ApuSpec.wf p -> Apu.load_state (Apu.save_state p) other = (true, p).
Proof.
  intros []. unfold Apu.load_state. cbn [Apu.save_state Apu.fifo0 Apu.fifo1 Apu.audio_buffer_].
  rewrite !fifo_accepted by done. destruct wf_audio as (_ & H1 & H2).
  rewrite (proj2 (Nat.leb_gt _ _)), (proj2 (Nat.ltb_ge _ _)) by done. by destruct p.
Qed.

Lemma load_pad k other : fits 10 (pressed_mask k) ->
  Z.land (keycnt k) (Z.lor (Z.lor kButtonMask kIrqEnable) kIrqConditionAnd) = keycnt k ->
  exists pad, Keypad.set_pressed_mask (pressed_mask k) other = (true, pad) /\
    Keypad.write_keycnt (keycnt k) pad = k.
Proof.
  intros Hp Hk. unfold set_pressed_mask.
  replace (has (pressed_mask k) (Z.lnot kButtonMask)) with false; cycle 1.
  { symmetry. unfold has. apply negb_false_iff, Z.eqb_eq.
    change kButtonMask with (Z.ones 10). rewrite <- Z.ldiff_land.
    apply Z.ldiff_ones_r_low; [apply Hp|]. destruct (decide (pressed_mask k = 0)) as [->|]; [done|].
    apply Z.log2_lt_pow2; unfold fits in Hp; lia. }
  eexists. split; [done|]. unfold Keypad.write_keycnt. rewrite Hk.
  change (mkKeypad (pressed_mask k) (u16 (keycnt k)) = k). destruct k as [p c].
  cbn [keycnt pressed_mask] in *. f_equal. apply wrap_id. rewrite <- Hk.
  apply fits_land_r; [lia|by vm_compute].
Qed.

Lemma restore_machine_payload s : session_ok s -> DmaSpec.saveable (dma (devices_of (core_ s))) ->
  exists m, restore_machine (payload_of s) = Some m /\ restored_from (CoreSession.save_state s) m.
Proof.
  intros [Hcpu Hbus _ [Hirq _ Hdma _ _ _ Hapu _ Hpad Hk Hwait _ _] Htimers _] Hpending. unfold payload_of, restore_machine.
  cbn [p_cpu p_memory p_interrupts p_timers p_dma p_ppu p_apu p_pressed_mask p_keycnt p_waitcnt
    p_bios_mode p_io p_scheduler CoreSession.save_state ss_cpu ss_memory ss_interrupts ss_timers
    ss_dma ss_ppu ss_apu ss_bios ss_keypad ss_waitcnt ss_io ss_scheduler].
  rewrite load_cpu by done. rewrite BusSafety.load_save by done.
  destruct (TimersSpec.load_save_equiv _ Timers.reset Htimers) as (ts & -> & Hts).
  destruct (DmaSpec.dma_snapshot _ Dma.reset Hdma (proj1 Hpending)) as (d' & -> & _ & _ & Hd).
  rewrite (proj2 Hd (proj2 Hpending)). rewrite load_apu by done.
  destruct (load_pad _ Keypad.reset (proj1 Hpad) Hk) as (pad & -> & Epad).
  cbn [accepted fst snd mbind option_bind PpuTiming.load_state]. rewrite Epad. rewrite restore_interrupts_id by done.
  eexists. split; [done|]. exists ts. split; [done|].
  f_equal.
  - change (PpuTiming.mkPpuTiming (PpuTiming.line_ (ppu (devices_of (core_ s))))
      (PpuTiming.line_cycle_ (ppu (devices_of (core_ s))))
      (PpuTiming.dispstat_control_ (ppu (devices_of (core_ s))))
      (PpuTiming.lcd_control_ (ppu (devices_of (core_ s)))) = ppu (devices_of (core_ s))).
    by destruct (ppu (devices_of (core_ s))).
  - rewrite (proj2 (proj2 (bios_byte _))).
    change (Bios.mkBiosController (Bios.mode_ (bios_of (core_ s))) = bios_of (core_ s)).
    by destruct (bios_of (core_ s)).
  - change (WaitState.mkWaitStateControl (Z.land (WaitState.control (waitcnt (devices_of (core_ s))))
      WaitState.kWritableMask) = waitcnt (devices_of (core_ s))).
    rewrite Hwait. by destruct (waitcnt (devices_of (core_ s))).
Qed.

(** ** Hashes *)

Lemma add_u64_fits v h : fits 64 (add_u64 v h).
Proof. apply add_u8_fits. Qed.

#[local] Opaque add_u64 ArmState.state_hash MemoryBus.state_hash Interrupts.state_hash
  Timers.state_hash Dma.state_hash PpuTiming.state_hash Apu.state_hash Keypad.state_hash
  WaitState.state_hash.

Lemma state_hash_fits s : fits 64 (CoreSession.state_hash s).
Proof. unfold CoreSession.state_hash, machine_hash. apply add_u64_fits. Qed.

Lemma scheduler_hash_restored sc other :
  SchedulerState.state_hash
    (set_io_registers (SchedulerState.load_state (SchedulerState.save_state sc) other)) =
  SchedulerState.state_hash sc.
Proof. reflexivity. Qed.

(** The hash of a machine sees its components through their snapshots. *)
Lemma machine_hash_restored s m sc : restored_from (CoreSession.save_state s) m ->
  machine_hash false (ss_bios m) (core_of_state m sc) = CoreSession.state_hash s.
Proof.
  intros (ts & Hts & ->). unfold CoreSession.state_hash, machine_hash, core_of_state, sched.
  cbn [ss_bios CoreSession.save_state ss_cpu ss_memory ss_interrupts ss_timers ss_dma ss_ppu
    ss_apu ss_keypad ss_waitcnt ss_io ss_scheduler fst snd].
  rewrite scheduler_hash_restored. unfold cpu_of, bus_of, devices_of. cbn [fst snd].
  change (Timers.state_hash (timers_ (IoRegisters.load_state _ _))) with (Timers.state_hash ts).
  rewrite (TimersSpec.saves_hash _ _ (TimersSpec.equiv_saves _ _ Hts)). reflexivity.
Qed.

(** A restored session saves what was saved. *)
Lemma save_restored m t : is_Some (bios_ (sched (core_ t))) ->
  CoreSession.save_state (CoreSession.load_state m t) = m.
Proof.
  destruct t as [[sc rest] g]. cbn [core_ sched fst]. intros [bios E].
  transitivity (mkCoreSessionState (ss_cpu m) (ss_memory m) (ss_interrupts m) (ss_timers m)
    (ss_dma m) (ss_ppu m) (ss_apu m) (default Bios.reset ((fun _ => ss_bios m) <$> bios_ sc))
    (ss_keypad m) (ss_waitcnt m) (ss_io m) (ss_scheduler m)).
  - destruct m as [??????????[] []]. reflexivity.
  - rewrite E. by destruct m.
Qed.

#[local] Opaque write_cpu_state write_memory_state write_interrupt_state write_timers_state
  write_dma_state write_ppu_state write_apu_state write_io_state write_scheduler_state
  write_u8 write_u16 write_u32 write_u64.

Lemma encode_restored s m t :
  is_Some (bios_ (sched (core_ t))) -> restored_from (CoreSession.save_state s) m ->
  CoreSession.state_hash (CoreSession.load_state m t) = CoreSession.state_hash s ->
  encode (CoreSession.load_state m t) = encode s.
Proof.
  intros Ht (ts & Hts & E) Hh. unfold encode. rewrite Hh, save_restored by done. subst m.
  cbn [ss_cpu ss_memory ss_interrupts ss_timers ss_dma ss_ppu ss_apu ss_bios ss_keypad ss_waitcnt
    ss_io ss_scheduler]. by rewrite (TimersSpec.equiv_saves _ _ Hts).
Qed.

(** ** The promises of [decode_into] *)

(** Reading what [encode] wrote loads a snapshot that stands for the saved one. *)
Lemma decode_encode (s t : CoreSession) :
  session_ok s -> DmaSpec.saveable (dma (devices_of (core_ s))) ->
  exists m, restored_from (CoreSession.save_state s) m /\
    decode_into t (encode s) =
      (mkSaveStateDecodeResult SaveStateDecodeStatus.ok kVersion (CoreSession.state_hash s),
       CoreSession.load_state m t).
Proof.
  intros Hs Hp. destruct (restore_machine_payload s Hs Hp) as (m & Em & Hm).
  exists m. split; [done|]. unfold decode_into. rewrite <- (app_nil_r (encode s)).
  rewrite encode_header, <- app_assoc, read_header_write by apply state_hash_fits. cbv beta iota.
  rewrite parse_payload_write by done. cbv beta iota. change (bool_decide ([] = [])) with true.
  cbv iota. rewrite Em. unfold snapshot_state_hash. change (kVersion <? 5) with false.
  rewrite (machine_hash_restored s) by done. by rewrite Z.eqb_refl.
Qed.

Lemma hash_restored s m t : is_Some (bios_ (sched (core_ t))) ->
  restored_from (CoreSession.save_state s) m ->
  CoreSession.state_hash (CoreSession.load_state m t) = CoreSession.state_hash s.
Proof.
  intros Ht Hm. rewrite <- (machine_hash_restored s m (sched (core_ t)) Hm).
  rewrite <- (save_restored m t Ht) at 2. reflexivity.
Qed.

(** C8: a save state comes back.  What [encode] writes of a well-formed session
    whose DMA channels are as [load_state] expects them ([saveable])
    is accepted by [decode_into] on any session with a BIOS controller: the
    status is [ok], the new session holds every component of the saved one
    (the timers up to their private anchors, which no operation can tell
    apart), hashes and encodes to the same values, and has the next
    generation. *)
Theorem save_state_roundtrip (s t : CoreSession) :
  session_ok s -> DmaSpec.saveable (dma (devices_of (core_ s))) ->
  is_Some (bios_ (sched (core_ t))) ->
  exists t', decode_into t (encode s) =
      (mkSaveStateDecodeResult SaveStateDecodeStatus.ok kVersion (CoreSession.state_hash s), t') /\
    restored_from (CoreSession.save_state s) (CoreSession.save_state t') /\
    CoreSession.state_hash t' = CoreSession.state_hash s /\ encode t' = encode s /\
    state_generation_ t' = u64 (state_generation_ t + 1).
Proof.
  intros Hs Hp Ht. destruct (decode_encode s t Hs Hp) as (m & Hm & E).
  exists (CoreSession.load_state m t). pose proof (hash_restored s m t Ht Hm) as Hh.
  split_and!; [done|by rewrite save_restored|done|by apply encode_restored|done].
Qed.

(** ** Damaged files *)

#[export] Instance local_cpu : Local parse_cpu_state := ltac:(unfold parse_cpu_state; apply _).
#[export] Instance local_memory : Local parse_memory_state :=
  ltac:(unfold parse_memory_state; apply _).
#[export] Instance local_interrupts : Local parse_interrupt_state :=
  ltac:(unfold parse_interrupt_state; apply _).
#[export] Instance local_timer : Local parse_timer := ltac:(unfold parse_timer; apply _).
#[export] Instance local_timers : Local parse_timers_state :=
  ltac:(unfold parse_timers_state; apply _).
#[export] Instance local_channel : Local parse_channel := ltac:(unfold parse_channel; apply _).
#[export] Instance local_dma : Local parse_dma_state := ltac:(unfold parse_dma_state; apply _).
#[export] Instance local_ppu : Local parse_ppu_state := ltac:(unfold parse_ppu_state; apply _).
#[export] Instance local_fifo : Local parse_fifo := ltac:(unfold parse_fifo; apply _).
#[export] Instance local_square : Local parse_square := ltac:(unfold parse_square; apply _).
#[export] Instance local_wave : Local parse_wave := ltac:(unfold parse_wave; apply _).
#[export] Instance local_noise : Local parse_noise := ltac:(unfold parse_noise; apply _).
#[export] Instance local_mixed : Local read_mixed := ltac:(unfold read_mixed; apply _).
#[export] Instance local_apu : Local parse_apu_state := ltac:(unfold parse_apu_state; apply _).
#[export] Instance local_io : Local parse_io_state := ltac:(unfold parse_io_state; apply _).
#[export] Instance local_irq_frame : Local parse_irq_frame :=
  ltac:(unfold parse_irq_frame; apply _).

#[export] Instance local_irq_frames version lr : Local (parse_irq_frames version lr).
Proof.
  unfold parse_irq_frames. apply local_if; [|apply _]. apply local_bind; [apply _|]. intros count.
  apply local_count; [lia|apply _].
Qed.

#[export] Instance local_work_loop n depth last : Local (parse_work_frames_loop n depth last).
Proof. revert last. induction n; intros last; simpl; apply _. Qed.

#[export] Instance local_work_frames version outer saved :
  Local (parse_work_frames version outer saved).
Proof.
  unfold parse_work_frames. apply local_if; [|apply _]. apply local_bind; [apply _|]. intros count.
  apply local_count; [lia|apply _].
Qed.

#[export] Instance local_scheduler version : Local (parse_scheduler_state version) :=
  ltac:(unfold parse_scheduler_state; apply _).

#[export] Instance exact_payload version : Exact (parse_payload version).
Proof.
  unfold parse_payload. repeat (apply exact_bind; [apply _|intros ?]). apply exact_end.
  by intros l x rest [= <- <-].
Qed.

Lemma decode_header hash payload t : fits 64 hash ->
  parse_payload kVersion payload = Throw ->
  decode_into t (write_header hash ++ payload) =
  (mkSaveStateDecodeResult SaveStateDecodeStatus.corrupt_payload kVersion hash, t).
Proof. intros Hh Hp. unfold decode_into. rewrite read_header_write by done. by rewrite Hp. Qed.

(** C19: the length of a save state is checked to the byte: of the bytes
    [encode] writes, every strict prefix is rejected, as [too_small] below the
    header's size and as [corrupt_payload] from there on; so are the complete
    bytes with anything behind them.  The session stays as it was. *)
Theorem truncated_rejected (s t : CoreSession) (n : nat) (more : list Z) :
  session_ok s -> (n < length (encode s))%nat -> more <> [] ->
  decode_into t (take n (encode s)) =
    (if decide (n < 16)%nat
     then mkSaveStateDecodeResult SaveStateDecodeStatus.too_small 0 0
     else mkSaveStateDecodeResult SaveStateDecodeStatus.corrupt_payload kVersion
            (CoreSession.state_hash s), t) /\
  decode_into t (encode s ++ more) =
    (mkSaveStateDecodeResult SaveStateDecodeStatus.corrupt_payload kVersion
       (CoreSession.state_hash s), t).
Proof.
  intros Hs Hn Hmore. rewrite encode_header in *.
  pose proof (state_hash_fits s) as Hh. pose proof (length_write_header (CoreSession.state_hash s)) as Hl.
  rewrite length_app in Hn. split.
  - destruct (decide _) as [H16|H16].
    + unfold decode_into, read_header. rewrite (proj2 (Z.ltb_lt _ _)); [done|].
      rewrite length_take. unfold kHeaderSize. lia.
    + rewrite take_app, Hl, take_ge by lia. apply decode_header; [done|].
      destruct (parse_payload _ _) as [[p rest]|] eqn:E; [|done].
      destruct (exact _ _ _ E) as [_ Hx].
      specialize (Hx (drop (n - 16) (write_payload s))).
      rewrite take_drop in Hx. pose proof (parse_payload_write s [] Hs) as Hw.
      rewrite app_nil_r in Hw. rewrite Hx in Hw; [done|].
      intros H0. apply (f_equal length) in H0. rewrite length_drop in H0. cbn in H0. lia.
  - rewrite <- app_assoc. apply decode_header; [done|]. rewrite parse_payload_write by done.
    by rewrite bool_decide_false.
Qed.

(** ** What an accepted file is *)

Lemma le_bytes_shift n byte v : 0 <= byte ->
  le_bytes n byte v = le_bytes n 0 (Z.shiftr v (byte * 8)).
Proof.
  intros Hb. assert (G : forall k, 0 <= k ->
    le_bytes n (byte + k) v = le_bytes n k (Z.shiftr v (byte * 8))).
  { induction n as [|n IH]; intros k Hk; [done|]. cbn [le_bytes].
    rewrite Z.shiftr_shiftr by lia. replace (byte * 8 + k * 8) with ((byte + k) * 8) by lia.
    by rewrite <- IH, Z.add_assoc by lia. }
  rewrite <- G by lia. by rewrite Z.add_0_r.
Qed.

Lemma bytes_value l : Forall (fits 8) l ->
  exists v, fits (8 * Z.of_nat (length l)) v /\ le_bytes (length l) 0 v = l.
Proof.
  induction 1 as [|b l Hb _ (v & Hv & E)]; [by exists 0|].
  exists (b + 2 ^ 8 * v). cbn [length]. unfold fits in *.
  replace (8 * Z.of_nat (S (length l))) with (8 * Z.of_nat (length l) + 8) by lia.
  rewrite Z.pow_add_r by lia. split; [lia|].
  assert (Hd : Z.shiftr (b + 2 ^ 8 * v) ((0 + 1) * 8) = v).
  { rewrite Z.shiftr_div_pow2 by lia. change (2 ^ ((0 + 1) * 8)) with (2 ^ 8).
    rewrite Z.mul_comm, Z.div_add by lia. rewrite Z.div_small by lia. lia. }
  cbn [le_bytes]. rewrite le_bytes_shift by lia. rewrite Hd, E. f_equal.
  rewrite Z.shiftr_0_r. change 0xFF with (Z.ones 8). rewrite Z.land_ones by lia.
  rewrite Z.mul_comm, Z_mod_plus_full, Z.mod_small by lia. apply wrap_id. done.
Qed.

(** What [read_le] reads are the bytes of its result. *)
Lemma read_le_length w n byte value l r : read_le w n byte value l = Ret r -> (n <= length l)%nat.
Proof.
  revert byte value l. induction n as [|n IH]; intros byte value l; [lia|].
  destruct l as [|b l]; [done|]. intros H. apply (IH (byte + 1)) in H. cbn. lia.
Qed.

Lemma read_le_exact n l v rest : Forall (fits 8) l ->
  read_le (8 * Z.of_nat n) n 0 0 l = Ret (v, rest) ->
  l = le_bytes n 0 v ++ rest /\ fits (8 * Z.of_nat n) v.
Proof.
  intros Hl H. pose proof (read_le_length _ _ _ _ _ _ H) as Hn.
  destruct (bytes_value (take n l) (Forall_take _ _ _ Hl)) as (v' & Hv & E).
  rewrite length_take_le in Hv, E by done.
  pose proof (read_le_bytes (8 * Z.of_nat n) n 0 v' (drop n l) ltac:(lia) ltac:(lia) (proj1 Hv)) as R.
  rewrite E, take_drop in R.
  replace (wrap (8 * 0) v') with 0 in R by (unfold wrap; cbn; by rewrite Z.mod_1_r).
  rewrite H in R. injection R as -> ->. rewrite Z.add_0_l, wrap_id by done.
  by rewrite E, take_drop.
Qed.

Lemma read_header_bytes bytes version hash payload : Forall (fits 8) bytes ->
  read_header bytes = inr (version, hash, payload) ->
  bytes = write_u32 kMagic ++ write_u32 version ++ write_u64 hash ++ payload /\
  In version [3; 4; 5; 6] /\ fits 64 hash.
Proof.
  intros Hb. unfold read_header. case_match; [done|].
  destruct (read_u32 bytes) as [[magic l1]|] eqn:E1; [|done].
  apply (read_le_exact 4) in E1 as [-> _]; [|done]. apply Forall_app in Hb as [_ Hb].
  destruct (negb (magic =? kMagic)) eqn:Em; [done|]. apply negb_false_iff, Z.eqb_eq in Em as ->.
  destruct (read_u32 l1) as [[version' l2]|] eqn:E2; [|done].
  apply (read_le_exact 4) in E2 as [-> _]; [|done]. apply Forall_app in Hb as [_ Hb].
  destruct (negb (known_version version')) eqn:Ev; [done|]. apply negb_false_iff in Ev.
  destruct (read_u64 l2) as [[hash' l3]|] eqn:E3; [|done].
  apply (read_le_exact 8) in E3 as [-> Hh]; [|done]. intros [= -> -> ->].
  split_and!; [done| |done]. unfold known_version in Ev.
  rewrite !orb_true_iff, !Z.eqb_eq in Ev. cbn. change kVersion with 6 in Ev. lia.
Qed.

(** C9: [decode_into] is all or nothing.  Whatever the bytes are, either it
    reports a failure and the session is exactly the old one, or it reports
    [ok] and the file starts with the magic number, a supported version and a
    hash, and the session holds the machine the rest of the file parses to,
    every component accepted by its own loader, with the next generation; from
    version 5 on the hash in the file is the hash of the new session. *)
Theorem decode_all_or_nothing (t t' : CoreSession) (bytes : list Z) (r : SaveStateDecodeResult) :
  Forall (fits 8) bytes -> is_Some (bios_ (sched (core_ t))) ->
  decode_into t bytes = (r, t') ->
  (decode_status r <> SaveStateDecodeStatus.ok /\ t' = t) \/
  (decode_status r = SaveStateDecodeStatus.ok /\ In (decode_version r) [3; 4; 5; 6] /\
   exists payload p,
     bytes = write_u32 kMagic ++ write_u32 (decode_version r) ++
             write_u64 (encoded_state_hash r) ++ payload /\
     parse_payload (decode_version r) payload = Ret (p, []) /\
     restore_machine p = Some (CoreSession.save_state t') /\
     (5 <= decode_version r -> CoreSession.state_hash t' = encoded_state_hash r) /\
     state_generation_ t' = u64 (state_generation_ t + 1)).
Proof.
  intros Hb Ht. unfold decode_into.
  destruct (read_header bytes) as [r'|[[version hash] payload]] eqn:Eh.
  { intros [= <- <-]. left. split; [|done]. revert Eh. unfold read_header.
    repeat case_match; try done; by intros [= <-]. }
  destruct (read_header_bytes _ _ _ _ Hb Eh) as (-> & Hv & Hh).
  destruct (parse_payload version payload) as [[p rest]|] eqn:Ep; [|intros [= <- <-]; by left].
  destruct (exact _ _ _ Ep) as [-> _].
  destruct (restore_machine p) as [m|] eqn:Em; [|intros [= <- <-]; by left].
  destruct (negb _) eqn:Eq; [intros [= <- <-]; by left|]. intros [= <- <-]. right.
  apply negb_false_iff, Z.eqb_eq in Eq.
  split_and!; [done..|]. exists payload, p.
  split_and!; [done|done|by rewrite save_restored|cbn [decode_version]|done].
  intros H5. rewrite <- Eq. unfold snapshot_state_hash. rewrite (proj2 (Z.ltb_ge _ _) H5).
  rewrite <- (save_restored m t Ht) at 2. reflexivity.
Qed.

(** ** The constructed session is one of those *)

Lemma construct_cpu_wf : ArmSafety.wf ArmState.reset.
Proof. constructor; repeat constructor; try done; by vm_compute. Qed.

Lemma construct_scheduler :
  scheduler_typed (SchedulerState.save_state (set_io_registers (construct_bios Bios.reset))).
Proof.
  constructor; first [by intros ? [=]|by vm_compute].
Qed.

Lemma construct_ok : session_ok CoreSession.construct.
Proof.
  constructor; change (core_ construct) with
    (set_io_registers (construct_bios Bios.reset),
     (ArmState.reset, (MemoryBus.initial, initial_devices)));
    unfold cpu_of, bus_of, devices_of, sched; cbn [fst snd].
  - exact construct_cpu_wf.
  - exact BusSafety.initial_wf.
  - by vm_compute.
  - exact reset_devices_wf.
  - exact TimersSpec.timers_reset_wf.
  - exact construct_scheduler.
Qed.

Lemma construct_saveable : DmaSpec.saveable (dma (devices_of (core_ CoreSession.construct))).
Proof. split; [by apply (bool_decide_unpack _); vm_compute|reflexivity]. Qed.

Lemma save_state_roundtrip_witness :
  exists t', decode_into CoreSession.construct (encode CoreSession.construct) =
      (mkSaveStateDecodeResult SaveStateDecodeStatus.ok kVersion
         (CoreSession.state_hash CoreSession.construct), t') /\
    restored_from (CoreSession.save_state CoreSession.construct) (CoreSession.save_state t') /\
    CoreSession.state_hash t' = CoreSession.state_hash CoreSession.construct /\
    encode t' = encode CoreSession.construct /\
    state_generation_ t' = u64 (state_generation_ CoreSession.construct + 1).
Proof.
  apply (save_state_roundtrip construct construct construct_ok construct_saveable). by eexists.
Defined.

Lemma truncated_rejected_witness :
  decode_into CoreSession.construct (take 15 (encode CoreSession.construct)) =
    (mkSaveStateDecodeResult SaveStateDecodeStatus.too_small 0 0, CoreSession.construct).
Proof.
  assert (H : (15 < length (encode CoreSession.construct))%nat).
  { rewrite encode_header, length_app, length_write_header. lia. }
  exact (proj1 (truncated_rejected construct construct 15 [0] construct_ok H ltac:(done))).
Defined.

(** A file of version 7. *)
Lemma decode_all_or_nothing_witness :
  let file := write_u32 kMagic ++ write_u32 7 ++ write_u64 0 in
  (decode_into CoreSession.construct file).2 = CoreSession.construct /\
  decode_status (decode_into CoreSession.construct file).1 =
    SaveStateDecodeStatus.unsupported_version.
Proof.
  intros file. split; [|vm_compute; reflexivity].
  destruct (decode_all_or_nothing construct (decode_into construct file).2 file
              (decode_into construct file).1) as [[_ E]|[H _]].
  - unfold file. vm_compute. repeat constructor; discriminate.
  - by eexists.
  - apply surjective_pairing.
  - exact E.
  - by vm_compute in H.
Defined.
