(* ===== verification/HostPolicy.v ===== *)
(** * Policies of the desktop host

    The parts of [apps/desktop] that decide without a window: which save states
    a running game accepts ([save_state_guard.hpp]), which backup memory a
    cartridge gets ([save_type_selection.hpp]), the writer of save states
    ([async_save_writer.hpp]) and the statistics of frame intervals
    ([frame_interval_stats.hpp]). *)

From Stdlib Require Import String SpecFloat.
From stdpp Require Import strings.
From S2P Require Import Prelude BusTypes.
From S2P Require MemoryBus.
From S2P Require Import Persistence SchedulerState SchedulerDevices CoreSession SaveStateCodec.
Import (hints) MemoryBus.GamePakSaveType.
Local Open Scope string_scope.
Local Open Scope Z_scope.
Local Open Scope list_scope.

(** ** Save states *)

Module SaveStateLoadStatus.
(* @ apps/desktop/save_state_guard.hpp:22-27 SaveStateLoadStatus *)
Inductive t : Type := ok | decode_failed | wrong_rom | wrong_save_type.
#[export] Instance eq_dec : EqDecision t.
Proof. solve_decision. Defined.
End SaveStateLoadStatus.
Export (hints) SaveStateLoadStatus.

(** The status, the live session and the scratch session. *)
(* @ apps/desktop/save_state_guard.hpp:34-51 load_save_state_for_session *)
Definition load_save_state_for_session (live : CoreSession) (blob : list Z) (scratch : CoreSession)
    : SaveStateLoadStatus.t * CoreSession * CoreSession :=
  let '(decoded, scratch) := decode_into scratch blob in
  if negb (bool_decide (decode_status decoded = SaveStateDecodeStatus.ok))
  then (SaveStateLoadStatus.decode_failed, live, scratch)
  else if negb (bool_decide (MemoryBus.export_game_pak_rom (memory_of scratch) =
                             MemoryBus.export_game_pak_rom (memory_of live)))
  then (SaveStateLoadStatus.wrong_rom, live, scratch)
  else if negb (bool_decide (MemoryBus.game_pak_save_type_ (memory_of scratch) =
                             MemoryBus.game_pak_save_type_ (memory_of live)))
  then (SaveStateLoadStatus.wrong_save_type, live, scratch)
  else (SaveStateLoadStatus.ok, CoreSession.load_state (CoreSession.save_state scratch) live, scratch).

(** ** The backup memory *)

(* @ apps/desktop/save_type_selection.hpp:14-25 save_kind_name *)
Definition save_kind_name (type : MemoryBus.GamePakSaveType.t) : string :=
  match type with
  | MemoryBus.GamePakSaveType.none => "none"
  | MemoryBus.GamePakSaveType.sram32k => "sram32k"
  | MemoryBus.GamePakSaveType.flash64k => "flash64k"
  | MemoryBus.GamePakSaveType.flash128k => "flash128k"
  | MemoryBus.GamePakSaveType.eeprom512 => "eeprom512"
  | MemoryBus.GamePakSaveType.eeprom8k => "eeprom8k"
  end.

(* @ apps/desktop/save_type_selection.hpp:33-38 parse_save_type *)
Definition save_types : list MemoryBus.GamePakSaveType.t :=
  [MemoryBus.GamePakSaveType.none; MemoryBus.GamePakSaveType.sram32k;
   MemoryBus.GamePakSaveType.flash64k; MemoryBus.GamePakSaveType.flash128k;
   MemoryBus.GamePakSaveType.eeprom512; MemoryBus.GamePakSaveType.eeprom8k].

(** The result, and the selection it leaves. *)
(* @ apps/desktop/save_type_selection.hpp:27-45 parse_save_type *)
Definition parse_save_type (text : string) (selection : option MemoryBus.GamePakSaveType.t)
    : bool * option MemoryBus.GamePakSaveType.t :=
  if (text =? "auto")%string then (true, None)
  else
    match List.find (fun type => (text =? save_kind_name type)%string) save_types with
    | Some type => (true, Some type)
    | None => (false, selection)
    end.

(** [std::filesystem::equivalent(p, q, ec)]: an error when a file is missing. *)
Definition equivalent (p q : Path) : FS bool :=
  o ← next_probe;
  f ← get_files;
  mret match o with
       | succeeds => bool_decide (key p = key q) && bool_decide (is_Some (f !! key p))
       | fails _ => false
       end.

(* @ apps/desktop/save_type_selection.hpp:49-64 save_type_for_rom *)
Definition save_type_for_rom (original_path incoming_path : string)
    (selection : option MemoryBus.GamePakSaveType.t) : FS (option MemoryBus.GamePakSaveType.t) :=
  match selection with
  | None => mret None
  | Some _ =>
      if (original_path =? EmptyString)%string then mret None
      else if (original_path =? incoming_path)%string then mret selection
      else
        same_file ← equivalent (native_path original_path) (native_path incoming_path);
        mret (if (same_file : bool) then selection else None)
  end.

(* @ apps/desktop/save_type_selection.hpp:66-69 apply_save_type *)
Definition apply_save_type (b : MemoryBus.MemoryBus) (selection : option MemoryBus.GamePakSaveType.t)
    : bool * MemoryBus.MemoryBus :=
  match selection with
  | None => (true, b)
  | Some type => MemoryBus.configure_game_pak_save type b
  end.

(** ** The writer of save states

    A job is encoded and written by a thread of its own, at some moment
    between its start and its collection: [run_worker]. *)

Module AsyncSaveWriter.
(* @ apps/desktop/async_save_writer.hpp:19-23 AsyncSaveWriter::Result *)
Record Result : Type := mkResult {
  path : string;
  written : bool;
  error : string
}.

(** The state of the future: no job, one that runs (its path and what its
    encoder returns), one that is ready. *)
(* @ apps/desktop/async_save_writer.hpp:59-59 AsyncSaveWriter::pending_ *)
Inductive t : Type :=
  | idle
  | running (path : string) (encoder : exc (list Z))
  | ready (result : Result).

(* @ apps/desktop/async_save_writer.hpp:25-25 AsyncSaveWriter::busy *)
Definition busy (w : t) : bool := match w with idle => false | _ => true end.

(* @ apps/desktop/async_save_writer.hpp:28-43 AsyncSaveWriter::start *)
Definition start (path : string) (encoder : exc (list Z)) (w : t) : bool * t :=
  if busy w then (false, w) else (true, running path encoder).

(** The body of the thread. *)
(* @ apps/desktop/async_save_writer.hpp:31-41 AsyncSaveWriter::start *)
Definition work (path : string) (encoder : exc (list Z)) : FS Result :=
  match encoder with
  | Ret blob =>
      written ← write_file_atomic path blob;
      mret (mkResult path written (if (written : bool) then EmptyString else "atomic write failed"))
  | Throw => mret (mkResult path false "unknown save worker error")
  end.

(** The thread runs, if there is one. *)
(* @ apps/desktop/async_save_writer.hpp:30-41 AsyncSaveWriter::start *)
Definition run_worker (w : t) : FS t :=
  match w with
  | running path encoder => result ← work path encoder; mret (ready result)
  | _ => mret w
  end.

(* @ apps/desktop/async_save_writer.hpp:45-49 AsyncSaveWriter::poll *)
Definition poll (w : t) : option Result * t :=
  match w with ready result => (Some result, idle) | _ => (None, w) end.

(** The wait lets the thread finish. *)
(* @ apps/desktop/async_save_writer.hpp:53-56 AsyncSaveWriter::finish *)
Definition finish (w : t) : FS (option Result * t) :=
  w ← run_worker w; mret (poll w).
End AsyncSaveWriter.

(** ** Frame intervals *)

(** [static_cast<double>(n)], and [std::ceil] of a positive double. *)
Definition double (n : Z) : spec_float := binary_normalize 53 1024 n 0 false.
Definition ceiling (x : spec_float) : Z :=
  match x with
  | S754_finite false m e =>
      if 0 <=? e then Z.pos m * 2 ^ e else (Z.pos m + 2 ^ (- e) - 1) / 2 ^ (- e)
  | _ => 0
  end.

Definition is_finite (x : spec_float) : bool :=
  match x with S754_zero _ | S754_finite _ _ _ => true | _ => false end.

(* @ apps/desktop/frame_interval_stats.hpp:42-42 FrameIntervalStats::kOverflowMs *)
Definition kOverflowMs : Z := 1000.

(* @ apps/desktop/frame_interval_stats.hpp:13-47 FrameIntervalStats *)
Record FrameIntervalStats : Type := mkFrameIntervalStats {
  buckets_ : list Z;
  count_ : Z;
  over_25ms_ : Z;
  maximum_ms_ : spec_float
}.

(* @ apps/desktop/frame_interval_stats.hpp:43-46 FrameIntervalStats *)
Definition no_intervals : FrameIntervalStats :=
  mkFrameIntervalStats (replicate (Z.to_nat (kOverflowMs + 1)) 0) 0 0 (double 0).

(** The bucket of an interval. *)
(* @ apps/desktop/frame_interval_stats.hpp:20-22 FrameIntervalStats::add *)
Definition bucket_of (milliseconds : spec_float) : Z :=
  if SFleb (double kOverflowMs) milliseconds then kOverflowMs else ceiling milliseconds.

(* @ apps/desktop/frame_interval_stats.hpp:15-24 FrameIntervalStats::add *)
Definition add (milliseconds : spec_float) (s : FrameIntervalStats) : FrameIntervalStats :=
  if negb (is_finite milliseconds) || SFltb milliseconds (double 0) then s
  else
    let i := Z.to_nat (bucket_of milliseconds) in
    mkFrameIntervalStats (alter (fun n => u64 (n + 1)) i (buckets_ s)) (u64 (count_ s + 1))
      (if SFltb (double 25) milliseconds then u64 (over_25ms_ s + 1) else over_25ms_ s)
      (if SFltb (maximum_ms_ s) milliseconds then milliseconds else maximum_ms_ s).

(** The first bucket from [i] on whose cumulative count reaches the rank. *)
(* @ apps/desktop/frame_interval_stats.hpp:33-37 FrameIntervalStats::percentile_upper_ms *)
Fixpoint find_rank (rank cumulative i : Z) (buckets : list Z) : option Z :=
  match buckets with
  | [] => None
  | n :: buckets' =>
      let cumulative := u64 (cumulative + n) in
      if rank <=? cumulative then Some i else find_rank rank cumulative (i + 1) buckets'
  end.

(* @ apps/desktop/frame_interval_stats.hpp:31-32 FrameIntervalStats::percentile_upper_ms *)
Definition interval_rank (percentile : Z) (s : FrameIntervalStats) : Z :=
  u64 (count_ s / 100 * percentile + (count_ s mod 100 * percentile + 99) / 100).

(* @ apps/desktop/frame_interval_stats.hpp:29-39 FrameIntervalStats::percentile_upper_ms *)
Definition percentile_upper_ms (percentile : Z) (s : FrameIntervalStats) : spec_float :=
  if (count_ s =? 0) || (percentile =? 0) || (100 <? percentile) then double 0
  else
    match find_rank (interval_rank percentile s) 0 0 (buckets_ s) with
    | Some i => if i =? kOverflowMs then maximum_ms_ s else double i
    | None => maximum_ms_ s
    end.
