(* ===== verification/DesktopHost.v ===== *)
(** * The desktop host

    [DesktopApp] of [apps/desktop/desktop_app.cpp] without its window: loading
    and switching games, the cartridge save and its flushes, save states,
    input, and the loop that runs them.  The host's state is the object, with
    the frame runtime, and the world of [Persistence.v].  SDL (windows, audio
    devices, clocks, dialogs) and the messages are outside: what SDL reports is
    an argument, what is shown or played is not modelled, and neither are the
    directories the host creates for its saves. *)

From Stdlib Require Import String.
From stdpp Require Import strings.
From S2P Require Import Prelude StateMonad Keypad BusTypes.
From S2P Require MemoryBus.
From S2P Require Import SchedulerProbe SchedulerState SchedulerDevices CoreSession.
From S2P Require Import SaveStateCodec Persistence HostPolicy.
From S2P Require AndroidRuntime.
Import (hints) MemoryBus.GamePakSaveType AndroidRuntime.AndroidRuntimeStatus.
Local Open Scope string_scope.
Local Open Scope Z_scope.
Local Open Scope list_scope.

(** ** Data *)

(** The options the modelled part reads. *)
(* @ apps/desktop/desktop_app.hpp:28-50 HostOptions *)
Record HostOptions : Type := mkHostOptions {
  rom_path : string;
  initial_state_path : string;
  save_directory : string;
  save_type_override : option MemoryBus.GamePakSaveType.t;
  quit_after_frames : Z;
  reset_after_frames : Z;
  switch_after_frames : Z;
  switch_to_path : string
}.
#[export] Instance eta_HostOptions : Eta HostOptions := fun o =>
  mkHostOptions (rom_path o) (initial_state_path o) (save_directory o) (save_type_override o)
    (quit_after_frames o) (reset_after_frames o) (switch_after_frames o) (switch_to_path o).

(* @ apps/desktop/desktop_app.hpp:122-151 DesktopApp *)
Record DesktopApp : Type := mkDesktopApp {
  options_ : HostOptions;
  override_rom_path_ : string;
  runtime_ : AndroidRuntime.AndroidRuntime;
  frames_presented : Z;
  cartridge_save_loaded : bool;
  cartridge_save_kind : string;
  save_state_writer_ : AsyncSaveWriter.t;
  keyboard_mask_ : Z;
  pad_mask_ : Z;
  input_mask_ : Z;
  gamepads_ : list Z;
  paused_ : bool;
  mute_ : bool;
  running_ : bool;
  session_loaded_ : bool;
  save_prefix_ : string;
  cartridge_save_path_ : string;
  cartridge_save_enabled_ : bool;
  cartridge_save_snapshot_ : list Z;
  frames_since_save_flush_ : Z
}.
#[export] Instance eta_DesktopApp : Eta DesktopApp := fun a =>
  mkDesktopApp (options_ a) (override_rom_path_ a) (runtime_ a) (frames_presented a)
    (cartridge_save_loaded a) (cartridge_save_kind a) (save_state_writer_ a) (keyboard_mask_ a)
    (pad_mask_ a) (input_mask_ a) (gamepads_ a) (paused_ a) (mute_ a) (running_ a)
    (session_loaded_ a) (save_prefix_ a) (cartridge_save_path_ a) (cartridge_save_enabled_ a)
    (cartridge_save_snapshot_ a) (frames_since_save_flush_ a).

(* @ apps/desktop/desktop_app.cpp:69-70 DesktopApp::DesktopApp *)
Definition construct (options : HostOptions) : DesktopApp :=
  mkDesktopApp options (rom_path options) AndroidRuntime.construct 0 false EmptyString
    AsyncSaveWriter.idle 0 0 0 [] false false true false EmptyString EmptyString false [] 0.

(* @ apps/desktop/desktop_app.cpp:31-31 kMaxStepsPerFrame *)
Definition kMaxStepsPerFrame : Z := 500000.
(* @ apps/desktop/desktop_app.cpp:39-39 kSnapshotFlushFrames *)
Definition kSnapshotFlushFrames : Z := 300.

(** The keys the host knows. *)
Inductive Scancode : Type :=
  | key_z | key_x | key_backspace | key_return | key_right | key_left | key_up | key_down
  | key_s | key_a | key_escape | key_p | key_space | key_f5 | key_f8 | key_f9 | key_f11
  | key_m | key_o | key_other.

(* @ apps/desktop/desktop_app.cpp:41-52 kKeyBindings *)
Definition kKeyBindings (scancode : Scancode) : option KeypadButton.t :=
  match scancode with
  | key_z => Some KeypadButton.a
  | key_x => Some KeypadButton.b
  | key_backspace => Some KeypadButton.select
  | key_return => Some KeypadButton.start
  | key_right => Some KeypadButton.right
  | key_left => Some KeypadButton.left
  | key_up => Some KeypadButton.up
  | key_down => Some KeypadButton.down
  | key_s => Some KeypadButton.l
  | key_a => Some KeypadButton.r
  | _ => None
  end.

Inductive GamepadButton : Type :=
  | pad_east | pad_south | pad_back | pad_start | pad_right | pad_left | pad_up | pad_down
  | pad_left_shoulder | pad_right_shoulder.

(* @ apps/desktop/desktop_app.cpp:54-65 kPadBindings *)
Definition kPadBindings : list (GamepadButton * KeypadButton.t) :=
  [(pad_east, KeypadButton.a); (pad_south, KeypadButton.b); (pad_back, KeypadButton.select);
   (pad_start, KeypadButton.start); (pad_right, KeypadButton.right); (pad_left, KeypadButton.left);
   (pad_up, KeypadButton.up); (pad_down, KeypadButton.down);
   (pad_left_shoulder, KeypadButton.l); (pad_right_shoulder, KeypadButton.r)].

(** ** The host monad *)

Definition Host : Type := DesktopApp * World.
Definition HOST (A : Type) : Type := ST Host A.

Definition app : HOST DesktopApp := gets fst.
Definition set_app (f : DesktopApp -> DesktopApp) : HOST unit := modify (fun h => (f h.1, h.2)).
Definition on_files {A} (m : FS A) : HOST A := fun h => let '(a, w) := m h.2 in Ret (a, (h.1, w)).

(** [runtime_.session()], and a change through the reference. *)
Definition the_session (a : DesktopApp) : CoreSession := AndroidRuntime.session (runtime_ a).
Definition set_session (s : CoreSession) : HOST unit :=
  set_app (fun a => a <| runtime_ ::= AndroidRuntime.with_session s |>).
Definition set_memory (b : MemoryBus.MemoryBus) : HOST unit :=
  a ← app; set_session (CoreSession.set_memory b (the_session a)).
Definition memory (a : DesktopApp) : MemoryBus.MemoryBus := memory_of (the_session a).

(** ** Input *)

(* @ apps/desktop/desktop_app.cpp:315-320 DesktopApp::sync_input_mask *)
Definition sync_input_mask : HOST unit :=
  set_app (fun a =>
    let a := a <| input_mask_ := Z.lor (keyboard_mask_ a) (pad_mask_ a) |> in
    if session_loaded_ a
    then a <| runtime_ := (AndroidRuntime.set_button_mask (input_mask_ a) (runtime_ a)).2 |>
    else a).

(* @ apps/desktop/desktop_app.cpp:304-313 DesktopApp::apply_key *)
Definition apply_key (scancode : Scancode) (down : bool) : HOST unit :=
  match kKeyBindings scancode with
  | None => mret tt
  | Some button =>
      let bit := KeypadButton.bit button in
      set_app (fun a => a <| keyboard_mask_ ::= fun m =>
        if down then u16 (Z.lor m bit) else u16 (Z.land m (Z.lnot bit)) |>);;
      sync_input_mask
  end.

(** [opened]: whether SDL opens the device. *)
(* @ apps/desktop/desktop_app.cpp:322-339 DesktopApp::open_gamepad *)
Definition open_gamepad (id : Z) (opened : bool) : HOST unit :=
  set_app (fun a =>
    if existsb (Z.eqb id) (gamepads_ a) || negb opened then a
    else a <| gamepads_ ::= fun l => l ++ [id] |>).

(** [it] is the first gamepad with this identifier. *)
(* @ apps/desktop/desktop_app.cpp:343-349 DesktopApp::close_gamepad *)
Fixpoint erase_first (id : Z) (l : list Z) : list Z :=
  match l with
  | [] => []
  | x :: l' => if x =? id then l' else x :: erase_first id l'
  end.

(* @ apps/desktop/desktop_app.cpp:341-354 DesktopApp::close_gamepad *)
Definition close_gamepad (id : Z) : HOST unit :=
  set_app (fun a => a <| gamepads_ ::= erase_first id |> <| pad_mask_ := 0 |>);;
  sync_input_mask.

(* @ apps/desktop/desktop_app.cpp:365-372 DesktopApp::clear_input *)
Definition clear_input : HOST unit :=
  set_app (fun a =>
    let a := a <| keyboard_mask_ := 0 |> <| pad_mask_ := 0 |> <| input_mask_ := 0 |> in
    if session_loaded_ a then a <| runtime_ := (AndroidRuntime.set_button_mask 0 (runtime_ a)).2 |>
    else a).

(** The buttons held on the gamepads: [held id button] is SDL's answer. *)
(* @ apps/desktop/desktop_app.cpp:381-392 DesktopApp::pump_input *)
Definition pads_mask (held : Z -> GamepadButton -> bool) (pads : list Z) : Z :=
  fold_left (fun mask pad =>
    fold_left (fun mask '(button, gba_button) =>
      if held pad button then u16 (Z.lor mask (KeypadButton.bit gba_button)) else mask)
      kPadBindings mask) pads 0.

(* @ apps/desktop/desktop_app.cpp:374-395 DesktopApp::pump_input *)
Definition pump_input (held : Z -> GamepadButton -> bool) : HOST unit :=
  a ← app;
  if negb (session_loaded_ a) then mret tt
  else
    set_app (fun a => a <| pad_mask_ := pads_mask held (gamepads_ a) |>);;
    sync_input_mask.

(** ** The cartridge save *)

(* @ apps/desktop/desktop_app.cpp:453-485 DesktopApp::flush_cartridge_save *)
Definition flush_cartridge_save (force : bool) : HOST bool :=
  a ← app;
  if negb (cartridge_save_enabled_ a) || (cartridge_save_path_ a =? EmptyString)%string then mret true
  else
    let current := MemoryBus.export_game_pak_save (memory a) in
    set_app (fun a => a <| frames_since_save_flush_ ::= fun n => u32 (n + 1) |>);;
    frames ← gets (fun h => frames_since_save_flush_ h.1);
    if negb force && bool_decide (current = cartridge_save_snapshot_ a) then mret true
    else if negb force && (frames <? kSnapshotFlushFrames) then mret true
    else if bool_decide (current = []) then
      set_app (fun a => a <| frames_since_save_flush_ := 0 |>);; mret false
    else
      written ← on_files (write_file_atomic (cartridge_save_path_ a) current);
      if (written : bool) then
        set_app (fun a => a <| cartridge_save_snapshot_ := current |>
                            <| frames_since_save_flush_ := 0 |>);;
        mret true
      else set_app (fun a => a <| frames_since_save_flush_ := 0 |>);; mret false.

(** A save left at the move-aside name by an interrupted write. *)
(* @ apps/desktop/desktop_app.cpp:228-243 DesktopApp::load_rom_from_path *)
Definition recover_orphan (save_path : string) : FS unit :=
  there ← exists_ (native_path save_path);
  if (there : bool) then mret tt
  else
    orphan ← exists_ (native_path (save_path +:+ ".old"));
    if (orphan : bool) then
      rename (native_path (save_path +:+ ".old")) (native_path save_path);; mret tt
    else mret tt.

(** The persisted save of the loaded cartridge, if it has one; a save that does
    not fit is copied, or writing is disabled. *)
(* @ apps/desktop/desktop_app.cpp:214-271 DesktopApp::load_rom_from_path *)
Definition load_cartridge_save (configured : MemoryBus.GamePakSaveType.t) : HOST unit :=
  a ← app;
  let path := cartridge_save_path_ a in
  on_files (recover_orphan path);;
  existing ← on_files (read_binary_file path);
  (if bool_decide (existing = []) then mret tt
   else
     match MemoryBus.import_game_pak_save configured existing (memory a) with
     | (true, b) => set_memory b;; set_app (fun a => a <| cartridge_save_loaded := true |>)
     | (false, b) =>
         set_memory b;;
         backup ← on_files (backup_file path ".rejected");
         match backup with
         | Some _ => mret tt
         | None => set_app (fun a => a <| cartridge_save_enabled_ := false |>)
         end
     end);;
  set_app (fun a => a <| cartridge_save_snapshot_ := MemoryBus.export_game_pak_save (memory a) |>).

(** ** Loading a game *)

(** [runtime_.load_rom(rom) == ok && apply_save_type(...)]. *)
(* @ apps/desktop/desktop_app.cpp:170-173 DesktopApp::load_rom_from_path *)
Definition load_rom_with_type (rom : list Z) (path : string) : HOST bool :=
  a ← app;
  selection ← on_files (save_type_for_rom (override_rom_path_ a) path (save_type_override (options_ a)));
  '(status, runtime) ← lift (AndroidRuntime.load_rom rom (runtime_ a));
  set_app (fun a => a <| runtime_ := runtime |>);;
  if negb (bool_decide (status = AndroidRuntime.AndroidRuntimeStatus.ok)) then mret false
  else
    a ← app;
    let '(applied, b) := apply_save_type (memory a) selection in
    set_memory b;; mret applied.

(** After a rejected game: the previous session is put back, or nothing is
    written any more. *)
(* @ apps/desktop/desktop_app.cpp:174-195 DesktopApp::load_rom_from_path *)
Definition roll_back (rollback : option (list Z)) : HOST bool :=
  match rollback with
  | None => mret false
  | Some blob =>
      a ← app;
      let '(restored, s) := decode_into (the_session a) blob in
      set_session s;;
      (if bool_decide (decode_status restored = SaveStateDecodeStatus.ok) then mret tt
       else set_app (fun a =>
              a <| cartridge_save_enabled_ := false |> <| cartridge_save_path_ := EmptyString |>
                <| session_loaded_ := false |> <| running_ := false |>));;
      mret false
  end.

(* @ apps/desktop/desktop_app.cpp:156-284 DesktopApp::load_rom_from_path *)
Definition load_rom_from_path (path : string) (allow_rollback : bool) : HOST bool :=
  rom ← on_files (read_binary_file path);
  if bool_decide (rom = []) then mret false
  else
    rollback ← gets (fun h =>
      if allow_rollback && session_loaded_ h.1 then Some (encode (the_session h.1)) else None);
    loaded ← load_rom_with_type rom path;
    if negb loaded then roll_back rollback
    else
      set_app (fun a => a <| options_ ::= fun o => o <| rom_path := path |> |>);;
      configured ← gets (fun h => MemoryBus.game_pak_save_type_ (memory h.1));
      set_app (fun a =>
        let prefix := save_data_prefix path (save_directory (options_ a)) in
        a <| cartridge_save_kind := save_kind_name configured |>
          <| cartridge_save_loaded := false |>
          <| save_prefix_ := prefix |>
          <| cartridge_save_path_ := cartridge_save_path prefix |>
          <| cartridge_save_enabled_ :=
               negb (bool_decide (configured = MemoryBus.GamePakSaveType.none)) &&
               MemoryBus.has_game_pak_save (memory a) |>
          <| cartridge_save_snapshot_ := [] |> <| frames_since_save_flush_ := 0 |>);;
      enabled ← gets (fun h => cartridge_save_enabled_ h.1);
      (if (enabled : bool) then load_cartridge_save configured
       else set_app (fun a => a <| cartridge_save_path_ := EmptyString |>));;
      set_app (fun a => a <| session_loaded_ := true |> <| paused_ := false |>);;
      clear_input;;
      mret true.

(* @ apps/desktop/desktop_app.cpp:286-288 DesktopApp::load_rom_and_saves *)
Definition load_rom_and_saves : HOST bool :=
  a ← app; load_rom_from_path (rom_path (options_ a)) false.

(* @ apps/desktop/desktop_app.cpp:290-302 DesktopApp::switch_rom *)
Definition switch_rom (path : string) : HOST bool :=
  flushed ← flush_cartridge_save true;
  if negb flushed then mret false else load_rom_from_path path true.

(* @ apps/desktop/desktop_app.cpp:403-451 DesktopApp::reset_runtime *)
Definition reset_runtime : HOST unit :=
  a ← app;
  let path := rom_path (options_ a) in
  rom ← on_files (read_binary_file path);
  if bool_decide (rom = []) then mret tt
  else
    let save_type := MemoryBus.game_pak_save_type_ (memory a) in
    let cartridge_save := MemoryBus.export_game_pak_save (memory a) in
    let rollback := encode (the_session a) in
    loaded ← load_rom_with_type rom path;
    if negb loaded then
      a ← app; set_session (decode_into (the_session a) rollback).2
    else
      (if negb (bool_decide (save_type = MemoryBus.GamePakSaveType.none)) &&
          negb (bool_decide (cartridge_save = [])) then
         a ← app;
         let '(imported, b) := MemoryBus.import_game_pak_save save_type cartridge_save (memory a) in
         set_memory b;;
         when (negb imported) (set_app (fun a => a <| cartridge_save_enabled_ := false |>))
       else mret tt);;
      set_app (fun a => a <| cartridge_save_snapshot_ := cartridge_save |>
                          <| frames_since_save_flush_ := 0 |>);;
      sync_input_mask.

(** ** Save states *)

(** [save_state_writer_.poll()] or [finish()]; the result is a message. *)
(* @ apps/desktop/desktop_app.cpp:520-533 DesktopApp::collect_save_state *)
Definition collect_save_state (wait : bool) : HOST unit :=
  a ← app;
  '(_, writer) ← (if wait then on_files (AsyncSaveWriter.finish (save_state_writer_ a))
                  else mret (AsyncSaveWriter.poll (save_state_writer_ a)));
  set_app (fun a => a <| save_state_writer_ := writer |>).

(** The thread of the writer runs. *)
Definition worker : HOST unit :=
  a ← app;
  writer ← on_files (AsyncSaveWriter.run_worker (save_state_writer_ a));
  set_app (fun a => a <| save_state_writer_ := writer |>).

(** What the thread encodes: the snapshot, in a machine of its own. *)
(* @ apps/desktop/desktop_app.cpp:501-509 DesktopApp::write_save_state *)
Definition encode_snapshot (snapshot : CoreSessionState) : list Z :=
  encode (CoreSession.load_state snapshot CoreSession.construct).

(* @ apps/desktop/desktop_app.cpp:487-518 DesktopApp::write_save_state *)
Definition write_save_state (slot : Z) : HOST bool :=
  a ← app;
  if (save_prefix_ a =? EmptyString)%string then mret false
  else
    let path := save_state_path (save_prefix_ a) slot in
    collect_save_state false;;
    a ← app;
    if AsyncSaveWriter.busy (save_state_writer_ a) then mret false
    else
      let snapshot := CoreSession.save_state (the_session a) in
      let '(started, writer) :=
        AsyncSaveWriter.start path (Ret (encode_snapshot snapshot)) (save_state_writer_ a) in
      set_app (fun a => a <| save_state_writer_ := writer |>);;
      mret started.

(* @ apps/desktop/desktop_app.cpp:545-584 DesktopApp::read_save_state_path *)
Definition read_save_state_path (path : string) : HOST bool :=
  blob ← on_files (read_binary_file path);
  if bool_decide (blob = []) then mret false
  else
    a ← app;
    let '(status, live, _) :=
      load_save_state_for_session (the_session a) blob CoreSession.construct in
    set_session live;;
    if negb (bool_decide (status = SaveStateLoadStatus.ok)) then mret false
    else
      set_app (fun a => a <| cartridge_save_snapshot_ := MemoryBus.export_game_pak_save (memory a) |>
                          <| frames_since_save_flush_ := 0 |>);;
      sync_input_mask;;
      mret true.

(* @ apps/desktop/desktop_app.cpp:535-543 DesktopApp::read_save_state *)
Definition read_save_state (slot : Z) : HOST bool :=
  collect_save_state true;;
  a ← app;
  if (save_prefix_ a =? EmptyString)%string then mret false
  else read_save_state_path (save_state_path (save_prefix_ a) slot).

(** ** Events *)

(** What SDL reports: its events, and the answer of the file dialog ([None]:
    cancelled or failed; [Some None]: nothing chosen). *)
Inductive Event : Type :=
  | event_quit
  | event_key_down (scancode : Scancode) (repeat : bool)
  | event_key_up (scancode : Scancode)
  | event_focus_lost
  | event_close_requested
  | event_gamepad_added (id : Z) (opened : bool)
  | event_gamepad_removed (id : Z)
  | event_drop_file (data : option string)
  | event_dialog (files : option (option string)).

(* @ apps/desktop/desktop_app.cpp:613-637 DesktopApp::handle_event *)
Definition handle_key_down (scancode : Scancode) : HOST unit :=
  match scancode with
  | key_escape => set_app (fun a => a <| running_ := false |>)
  | key_p | key_space => set_app (fun a => a <| paused_ ::= negb |>)
  | key_f5 => write_save_state 1;; mret tt
  | key_f8 => read_save_state 1;; mret tt
  | key_f9 => reset_runtime
  | key_f11 => mret tt
  | key_m => set_app (fun a => a <| mute_ ::= negb |>)
  | key_o => mret tt
  | _ => apply_key scancode true
  end.

(** The callback of the dialog. *)
(* @ apps/desktop/desktop_app.cpp:590-603 DesktopApp::open_rom_dialog *)
Definition dialog_answer (files : option (option string)) : HOST unit :=
  match files with
  | None => set_app (fun a => if session_loaded_ a then a else a <| running_ := false |>)
  | Some None => mret tt
  | Some (Some path) => switch_rom path;; mret tt
  end.

(* @ apps/desktop/desktop_app.cpp:607-665 DesktopApp::handle_event *)
Definition handle_event (event : Event) : HOST unit :=
  match event with
  | event_quit | event_close_requested => set_app (fun a => a <| running_ := false |>)
  | event_key_down scancode repeat => when (negb repeat) (handle_key_down scancode)
  | event_key_up scancode => apply_key scancode false
  | event_focus_lost => set_app (fun a => a <| keyboard_mask_ := 0 |>);; sync_input_mask
  | event_gamepad_added id opened => open_gamepad id opened
  | event_gamepad_removed id => close_gamepad id
  | event_drop_file (Some path) => switch_rom path;; mret tt
  | event_drop_file None => mret tt
  | event_dialog files => dialog_answer files
  end.

(* @ apps/desktop/desktop_app.cpp:806-808 DesktopApp::run *)
Fixpoint handle_events (events : list Event) : HOST unit :=
  match events with
  | [] => mret tt
  | event :: events' => handle_event event;; handle_events events'
  end.

(** ** The loop *)

(** The work after a frame: presentation and the automation hooks. *)
(* @ apps/desktop/desktop_app.cpp:847-869 DesktopApp::run *)
Definition after_frame : HOST unit :=
  set_app (fun a => a <| frames_presented ::= fun n => u64 (n + 1) |>);;
  flush_cartridge_save false;;
  a ← app;
  let o := options_ a in
  when (negb (reset_after_frames o =? 0) && (frames_presented a =? reset_after_frames o))
    reset_runtime;;
  when (negb (switch_after_frames o =? 0) && negb (switch_to_path o =? EmptyString)%string &&
        (frames_presented a =? switch_after_frames o))
    (switch_rom (switch_to_path o);; mret tt);;
  set_app (fun a => if negb (quit_after_frames o =? 0) && (quit_after_frames o <=? frames_presented a)
                    then a <| running_ := false |> else a).

(** One iteration: [Some code] leaves the program.  A frame that has not ended
    with the fuel ([AndroidRuntime.frame_loop]) throws. *)
(* @ apps/desktop/desktop_app.cpp:803-869 DesktopApp::run *)
Definition iteration (fuel : nat) (events : list Event) (held : Z -> GamepadButton -> bool)
    : HOST (option Z) :=
  collect_save_state false;;
  handle_events events;;
  a ← app;
  if negb (session_loaded_ a) then mret None
  else
    pump_input held;;
    a ← app;
    if paused_ a then mret None
    else
      stepped ← lift (AndroidRuntime.step_frame fuel kMaxStepsPerFrame (runtime_ a));
      match stepped with
      | inl _ => throw
      | inr (result, runtime) =>
          set_app (fun a => a <| runtime_ := runtime |>);;
          if negb (bool_decide (AndroidRuntime.fr_status result =
                                AndroidRuntime.AndroidRuntimeStatus.ok)) ||
             negb (AndroidRuntime.frame_complete result)
          then flush_cartridge_save true;; mret (Some 3)
          else after_frame;; mret None
      end.

(** The loop over what the environment does before and in each iteration:
    whether the writer's thread gets to run, the events and the gamepads.
    [None]: the program still runs when the list is used up. *)
(* @ apps/desktop/desktop_app.cpp:803-884 DesktopApp::run *)
Fixpoint run_loop (fuel : nat) (inputs : list (bool * list Event * (Z -> GamepadButton -> bool)))
    : HOST (option Z) :=
  a ← app;
  if negb (running_ a) then
    when (session_loaded_ a) (flush_cartridge_save true;; mret tt);; mret (Some 0)
  else
    match inputs with
    | [] => mret None
    | (progress, events, held) :: inputs' =>
        when progress worker;;
        code ← iteration fuel events held;
        match code with
        | Some code => mret (Some code)
        | None => run_loop fuel inputs'
        end
    end.

(* @ apps/desktop/desktop_app.cpp:777-904 DesktopApp::run *)
Definition run (fuel : nat) (inputs : list (bool * list Event * (Z -> GamepadButton -> bool)))
    : HOST (option Z) :=
  a ← app;
  loaded ← (if (rom_path (options_ a) =? EmptyString)%string then mret true else load_rom_and_saves);
  if negb loaded then mret (Some 3)
  else
    a ← app;
    ready ← (if (initial_state_path (options_ a) =? EmptyString)%string then mret true
             else read_save_state_path (initial_state_path (options_ a)));
    if negb ready then mret (Some 3) else run_loop fuel inputs.

(** The destructor waits for the writer. *)
(* @ apps/desktop/desktop_app.cpp:72-74 DesktopApp::~DesktopApp *)
Definition destroy : HOST unit :=
  collect_save_state true;; set_app (fun a => a <| gamepads_ := [] |>).
