(* ===== verification/HostSpec.v ===== *)
(** * The desktop host: games and their states

    A save state is loaded only into the game it was made from, and a game that
    cannot be loaded leaves the running one untouched. *)

From Stdlib Require Import String.
From stdpp Require Import strings gmap.
From S2P Require Import Prelude StateMonad BusTypes.
From S2P Require MemoryBus MemoryBusSpec BusSafety DmaSpec.
From S2P Require Import IoRegisters Bios ArmTypes SchedulerState SchedulerDevices.
From S2P Require Import CoreSession CoreSessionSpec.
From S2P Require ArmState HleServices.
From S2P Require Import Persistence SaveStateCodec SaveStateSpec SaveStateRestore.
From S2P Require Import HostPolicy DesktopHost.
From S2P Require AndroidRuntime AndroidRuntimeSpec.
Import (hints) MemoryBus.GamePakSaveType AndroidRuntime.AndroidRuntimeStatus.
Local Open Scope string_scope.
Local Open Scope Z_scope.
Local Open Scope list_scope.

(** ** Names of the backup memories *)

Lemma parse_save_kind type selection : parse_save_type (save_kind_name type) selection = (true, Some type).
Proof. by destruct type. Qed.

(** ** The game of a session *)

Definition rom_of (s : CoreSession) : list Z := MemoryBus.export_game_pak_rom (memory_of s).
Definition type_of (s : CoreSession) : MemoryBus.GamePakSaveType.t :=
  MemoryBus.game_pak_save_type_ (memory_of s).

(** The session has a BIOS controller, as every constructed one. *)
Definition has_bios (s : CoreSession) : Prop := is_Some (bios_ (sched (core_ s))).

Lemma memory_restored m s t : restored_from (CoreSession.save_state s) m ->
  memory_of (CoreSession.load_state m t) = memory_of s.
Proof. by intros (ts & _ & ->). Qed.

Lemma memory_copied s t :
  memory_of (CoreSession.load_state (CoreSession.save_state s) t) = memory_of s.
Proof. done. Qed.

(** ** The guard of save states *)



(** ** The BIOS controller stays *)

Lemma on_cpu_sched {A} (m : ArmState.CPU A) (c : Core) r c' : on_cpu m c = Ret (r, c') -> c'.1 = c.1.
Proof. unfold on_cpu. repeat case_match; intros [=]; by subst. Qed.

Lemma on_cpu_seq {A B} (m : ArmState.CPU A) (m' : ArmState.CPU B) (c : Core) r c' :
  (on_cpu m;; on_cpu m') c = Ret (r, c') -> c'.1 = c.1.
Proof.
  intros E. unfold mbind, st_bind in E. destruct (on_cpu m c) as [[a c1]|] eqn:E1; [|done].
  apply on_cpu_sched in E, E1. by rewrite E, E1.
Qed.

Lemma set_bios_some mode c : is_Some (bios_ c.1) -> is_Some (bios_ (set_bios mode c).1).
Proof. intros [b E]. unfold set_bios. cbn. by rewrite E. Qed.

Lemma boot_bios s s' : configure_for_game_boot s = Ret s' -> has_bios s -> has_bios s'.
Proof.
  unfold configure_for_game_boot, has_bios, sched. intros E H.
  apply (set_bios_some BiosExecutionMode.hle) in H. revert E H.
  generalize (set_bios BiosExecutionMode.hle (core_ s)). intros c. cbv zeta.
  generalize (ArmState.set_cpsr 0x0000001F (cpu_of c)).2. intros cpu.
  match goal with |- context [@mbind _ _ _ _ _ (?m ?x)] => destruct (m x) as [[[] c']|] eqn:E' end;
    [|done].
  apply on_cpu_seq in E'. cbn [mbind exc_bind]. intros [= <-] H. cbn. by rewrite E'.
Qed.

Lemma load_cartridge_bios rom s loaded s' :
  AndroidRuntime.load_cartridge rom s = Ret (loaded, s') -> has_bios s -> has_bios s'.
Proof.
  intros E Hs. assert (H0 : has_bios (CoreSession.reset s)).
  { destruct s as [[sc [cpu [b d]]] g], Hs as [x Hx]. cbn in Hx. unfold has_bios. cbn. by rewrite Hx. }
  revert E. unfold AndroidRuntime.load_cartridge. set (s0 := CoreSession.reset s) in *. clearbody s0.
  destruct (MemoryBus.load_game_pak_rom rom _) as [[] b]; [|by intros [= <- <-]].
  destruct (MemoryBus.configure_game_pak_save _ b) as [[] b'].
  - destruct (configure_for_game_boot _) as [s1|] eqn:E1; [|done]. intros [= <- <-].
    by apply boot_bios in E1.
  - intros [= <- <-]. destruct s0 as [[sc [cpu [b0 d]]] g], H0 as [x Hx]. cbn in Hx.
    unfold has_bios. cbn. by rewrite Hx.
Qed.

(** What the runtime is after a game was rejected: only its session changed. *)
Lemma load_rom_rejected rom r status r' : AndroidRuntime.load_rom rom r = Ret (status, r') ->
  has_bios (AndroidRuntime.session_ r) ->
  has_bios (AndroidRuntime.session_ r') /\
  (status <> AndroidRuntime.AndroidRuntimeStatus.ok ->
   exists s, r' = AndroidRuntime.with_session s r).
Proof.
  unfold AndroidRuntime.load_rom. intros E Hr. case_bool_decide.
  { injection E as <- <-. split; [done|]. intros _. exists (AndroidRuntime.session_ r). by destruct r. }
  destruct (AndroidRuntime.load_cartridge rom _) as [[[] s]|] eqn:El; [| |done];
    cbn [mbind exc_bind negb] in E; apply load_cartridge_bios in El; try done.
  - destruct (PpuTiming.render_control _); [|done]. by injection E as <- <-.
  - injection E as <- <-. split; [done|]. intros _. by exists s.
Qed.

(** ** Reading files *)

(** The bytes of the files are bytes. *)
Definition files_typed (f : Files) : Prop :=
  forall k bytes, f !! k = Some (regular bytes) -> MemoryBusSpec.bytes_ok bytes.

Lemma probe_files w : files (next_probe w).2 = files w.
Proof. unfold next_probe. by case_match. Qed.

Lemma good_files w : files (stream_good w).2 = files w.
Proof. unfold stream_good, next_outcome, mbind, fs_bind. by destruct (outcomes w). Qed.

Lemma exists_files p w : files (exists_ p w).2 = files w.
Proof. unfold exists_, mbind, fs_bind. pose proof (probe_files w). by destruct (next_probe w). Qed.

Lemma read_binary_ok path w :
  files (read_binary_file path w).2 = files w /\
  (files_typed (files w) -> MemoryBusSpec.bytes_ok (read_binary_file path w).1).
Proof.
  unfold read_binary_file, is_regular_file, mbind, fs_bind. pose proof (probe_files w) as E1.
  destruct (next_probe w) as [o w1]. cbn in *. rewrite <- E1.
  set (is_file := match o with succeeds => _ | _ => _ end). clearbody is_file.
  destruct is_file; cbn [negb]; [|by split; [|constructor]].
  pose proof (good_files w1) as E2. destruct (stream_good w1) as [opened w2]. cbn in *. rewrite <- E2.
  destruct (files w2 !! _) as [[bytes|]|] eqn:Ef; [|by split; [|constructor]..].
  destruct opened; cbn [negb]; [|by split; [|constructor]].
  case_bool_decide; [by split; [|constructor]|].
  pose proof (good_files w2) as E3. destruct (stream_good w2) as [complete w3]. cbn in *.
  split; [done|]. intros Ht. destruct complete; [by eapply Ht|constructor].
Qed.

Lemma save_type_files original path selection w :
  files (save_type_for_rom original path selection w).2 = files w.
Proof.
  unfold save_type_for_rom. repeat case_match; try done. subst.
  unfold equivalent, mbind, fs_bind. pose proof (probe_files w). by destruct (next_probe w).
Qed.

(** ** Loading a game *)

Lemma host_bind {A B} (m : HOST A) (f : A -> HOST B) h a h' :
  m h = Ret (a, h') -> (m ≫= f) h = f a h'.
Proof. apply bind_Ret. Qed.

Lemma apply_save_type_ok b selection : BusSafety.wf b ->
  (apply_save_type b selection).1 = true /\ BusSafety.wf (apply_save_type b selection).2.
Proof.
  intros Hb. destruct selection as [type|]; [|done].
  split; [by destruct type|by apply BusSafety.wf_configure].
Qed.

(** The runtime of a host that can run: it never throws. *)
Definition host_ok (a : DesktopApp) : Prop :=
  AndroidRuntimeSpec.runtime_wf (runtime_ a) /\ has_bios (the_session a).

Lemma set_memory_ok b a : host_ok a -> BusSafety.wf b ->
  host_ok (a <| runtime_ ::= AndroidRuntime.with_session (CoreSession.set_memory b (the_session a)) |>).
Proof.
  intros [Hr Hb] Hm. split; [|exact Hb]. apply AndroidRuntimeSpec.set_session_wf; [done|].
  apply set_memory_wf; [apply Hr|done].
Qed.

Lemma host_memory a : host_ok a -> BusSafety.wf (memory a).
Proof. intros [Hr _]. apply session_bus, Hr. Qed.

Lemma load_rom_with_type_ok rom path a w : host_ok a -> MemoryBusSpec.bytes_ok rom ->
  exists loaded r' w', load_rom_with_type rom path (a, w) = Ret (loaded, (a <| runtime_ := r' |>, w')) /\
    files w' = files w /\ host_ok (a <| runtime_ := r' |>) /\
    (loaded = false -> exists s, r' = AndroidRuntime.with_session s (runtime_ a)).
Proof.
  intros [Hr Hb] Hrom. unfold load_rom_with_type.
  rewrite (host_bind app _ _ a (a, w)) by done.
  set (m := save_type_for_rom _ _ _). assert (Ef : files (m w).2 = files w) by apply save_type_files.
  clearbody m. destruct (m w) as [selection w1] eqn:Em.
  erewrite host_bind by (unfold on_files; cbn [snd]; rewrite Em; reflexivity).
  destruct (AndroidRuntimeSpec.load_rom_wf rom _ Hrom Hr) as ([status r1] & E & Hr1).
  destruct (load_rom_rejected _ _ _ _ E Hb) as [Hb1 Hs1].
  erewrite host_bind by (unfold lift; cbn [snd fst]; rewrite E; reflexivity).
  cbv beta iota. erewrite host_bind by reflexivity. cbn [fst snd].
  case_bool_decide as Hst; cbn [negb].
  - set (a1 := a <| runtime_ := r1 |>). assert (Ha1 : host_ok a1) by done.
    erewrite host_bind by reflexivity. cbn [fst].
    destruct (apply_save_type_ok (memory a1) selection (host_memory _ Ha1)) as [Eb Hwf].
    destruct (apply_save_type (memory a1) selection) as [applied b]. cbn [fst snd] in Eb, Hwf.
    subst applied. pose proof (set_memory_ok b a1 Ha1 Hwf) as Ha2.
    exists true, (AndroidRuntime.with_session (CoreSession.set_memory b (the_session a1)) r1), w1.
    split; [reflexivity|]. split; [exact Ef|]. split; [exact Ha2|done].
  - exists false, r1, w1. split; [reflexivity|]. split; [exact Ef|]. split; [done|]. by intros _; apply Hs1.
Qed.

Lemma host_seq {A B} (P : Host -> Prop) (R : A -> Host -> Prop) (Q : B -> Host -> Prop)
    (m : HOST A) (f : A -> HOST B) :
  total P m R -> (forall a, total (R a) (f a) Q) -> total P (m ≫= f) Q.
Proof. apply total_bind. Qed.

Lemma total_app {A} (P : Host -> Prop) (f : DesktopApp -> HOST A) Q :
  (forall a, total (fun h => h.1 = a /\ P h) (f a) Q) -> total P (app ≫= f) Q.
Proof. intros H [a w] Hp. apply (H a). by split. Qed.

Lemma total_set (P : Host -> Prop) f (Q : unit -> Host -> Prop) :
  (forall a w, P (a, w) -> Q tt (f a, w)) -> total P (set_app f) Q.
Proof. intros H. apply total_modify. intros [a w]. apply H. Qed.

Lemma total_files {A} (P : Host -> Prop) (m : FS A) (Q : A -> Host -> Prop) :
  (forall a w, P (a, w) -> Q (m w).1 (a, (m w).2)) -> total P (on_files m) Q.
Proof. intros H [a w] Hp. specialize (H a w Hp). unfold on_files. cbn. destruct (m w). eauto. Qed.

(** The host can run, with these options. *)
Definition ready (o : HostOptions) (h : Host) : Prop := host_ok h.1 /\ options_ h.1 = o.

(** A change that leaves the runtime and the options. *)
Lemma ready_set o f : (forall a, runtime_ (f a) = runtime_ a /\ options_ (f a) = options_ a) ->
  total (ready o) (set_app f) (fun _ => ready o).
Proof.
  intros H. apply total_set. intros a w [Ha Ho]. destruct (H a) as [Er Eo].
  unfold ready, host_ok, the_session in *. cbn [fst] in *. by rewrite Er, Eo.
Qed.

Lemma ready_memory o b : BusSafety.wf b -> total (ready o) (set_memory b) (fun _ => ready o).
Proof.
  intros Hb. apply total_app. intros a. apply total_set. intros a' w [[= ->] [Ha Ho]].
  split; [by apply set_memory_ok|exact Ho].
Qed.

Lemma ready_files {A} o (m : FS A) : total (ready o) (on_files m) (fun _ => ready o).
Proof. by apply total_files. Qed.

Lemma rename_typed from to f f' : rename_files from to f = Some f' -> files_typed f -> files_typed f'.
Proof.
  unfold rename_files. intros E Hf. destruct (f !! key from) as [n|] eqn:En; [|done].
  assert (f' = <[key to := n]> (delete (key from) f)) as ->.
  { destruct n, (f !! key to) as [[]|]; by simplify_eq. }
  intros k bytes Hk. apply lookup_insert_Some in Hk as [[_ ->]|[_ Hk]]; [by eapply Hf|].
  apply lookup_delete_Some in Hk as [_ Hk]. by eapply Hf.
Qed.

Lemma rename_keeps_typed from to w : files_typed (files w) -> files_typed (files (rename from to w).2).
Proof.
  intros Hf. unfold rename, attempt, mbind, fs_bind, get_files.
  assert (E : files (next_outcome w).2 = files w) by (unfold next_outcome; by case_match).
  destruct (next_outcome w) as [o w1]. cbn in *. rewrite E.
  destruct o, (rename_files from to (files w)) as [f'|] eqn:Er; cbn; rewrite ?E; try done.
  by eapply rename_typed.
Qed.

Lemma recover_orphan_typed path w :
  files_typed (files w) -> files_typed (files (recover_orphan path w).2).
Proof.
  intros Hf. unfold recover_orphan, mbind, fs_bind. pose proof (exists_files (native_path path) w) as E.
  destruct (exists_ _ w) as [there w1]. cbn in *. destruct there; [cbn; by rewrite E|].
  pose proof (exists_files (native_path (path +:+ ".old")) w1) as E1.
  destruct (exists_ _ w1) as [orphan w2]. cbn in *. destruct orphan; [|cbn; by rewrite E1, E].
  assert (H : files_typed (files w2)) by (by rewrite E1, E).
  apply (rename_keeps_typed (native_path (path +:+ ".old")) (native_path path)) in H.
  by destruct (rename _ _ w2).
Qed.

Lemma load_cartridge_save_ok o configured :
  total (fun h => ready o h /\ files_typed (files h.2)) (load_cartridge_save configured)
    (fun _ => ready o).
Proof.
  apply total_app. intros a.
  apply (host_seq _ (fun _ h => h.1 = a /\ ready o h /\ files_typed (files h.2))).
  { apply total_files. intros a' w (Ea & Hr & Hf). cbn in Ea; subst a'. split_and!; try done. by apply recover_orphan_typed. }
  intros _. apply (host_seq _ (fun existing h =>
    (MemoryBusSpec.bytes_ok existing /\ host_ok a) /\ ready o h)).
  { apply total_files. intros a' w (Ea & Hr & Hf). cbn in Ea; subst a'. split; [|exact Hr]. split; [by apply read_binary_ok|apply Hr]. }
  intros existing. apply (total_assume _ _ _ (MemoryBusSpec.bytes_ok existing /\ host_ok a)); [tauto|].
  intros [He Ha]. apply (total_weaken _ (ready o) _ _ (fun _ => ready o)); [|tauto|done].
  apply (host_seq _ (fun _ => ready o)); [|by intros _; apply ready_set].
  case_bool_decide; [by apply total_ret|].
  pose proof (BusSafety.wf_import configured existing (memory a) He (host_memory a Ha)) as Hb.
  destruct (MemoryBus.import_game_pak_save configured existing (memory a)) as [[] b];
    (apply (host_seq _ (fun _ => ready o)); [by apply ready_memory|intros _]); [by apply ready_set|].
  apply (host_seq _ (fun _ => ready o)); [by apply ready_files|]. intros [backup|]; [by apply total_ret|].
  by apply ready_set.
Qed.

Lemma clear_input_ok o : total (ready o) clear_input (fun _ => ready o).
Proof.
  apply total_set. intros a w [[Hr Hb] Ho]. cbv zeta. case_match; [|by split].
  split; [|done]. split; [by apply AndroidRuntimeSpec.set_button_mask_wf|].
  unfold the_session, AndroidRuntime.session, AndroidRuntime.set_button_mask in *. cbn.
  unfold set_input_mask. by destruct (Keypad.set_pressed_mask _ _) as [[] ?].
Qed.

(** What is left of [load_rom_from_path] once the game is in the session. *)
Definition game_started (path : string) (loaded : bool) (h : Host) : Prop :=
  loaded = true /\ host_ok h.1 /\ rom_path (options_ h.1) = path /\
  session_loaded_ h.1 = true /\ paused_ h.1 = false /\ input_mask_ h.1 = 0.

Lemma start_game_ok o path : rom_path o = path ->
  total (ready o)
    (set_app (fun a => a <| session_loaded_ := true |> <| paused_ := false |>);; clear_input;; mret true)
    (game_started path).
Proof.
  intros Ho. apply (host_seq _ (fun _ h => ready o h /\ session_loaded_ h.1 = true /\ paused_ h.1 = false)).
  { apply total_set. intros a w H. by split. }
  intros _. apply (host_seq _ (fun _ h => game_started path true h)); [|by intros _; apply total_ret].
  intros h (Hr & Hl & Hp). destruct (clear_input_ok o h Hr) as ([] & h' & E & [Ha Ho']).
  exists tt, h'. split; [done|]. split; [done|]. split; [done|]. split; [by rewrite Ho'|].
  revert E. unfold clear_input, set_app, modify. cbv zeta. destruct h as [a w]. cbn in *.
  rewrite Hl. by intros [= <-].
Qed.

(** The state a failed load leaves. *)
Definition same_game (a a' : DesktopApp) : Prop :=
  exists s, a' = a <| runtime_ ::= AndroidRuntime.with_session s |> /\
    CoreSession.state_hash s = CoreSession.state_hash (the_session a) /\
    encode s = encode (the_session a) /\ memory_of s = memory a.

Lemma roll_back_ok a r' w :
  session_ok (the_session a) -> DmaSpec.saveable (dma (devices_of (core_ (the_session a)))) ->
  has_bios (AndroidRuntime.session_ r') -> (exists s, r' = AndroidRuntime.with_session s (runtime_ a)) ->
  exists a', roll_back (Some (encode (the_session a))) (a <| runtime_ := r' |>, w) = Ret (false, (a', w)) /\
    same_game a a'.
Proof.
  intros Hs Hp Hb [s ->].
  destruct (decode_encode (the_session a) s Hs Hp) as (m & Hm & E).
  exists (a <| runtime_ ::= AndroidRuntime.with_session (CoreSession.load_state m s) |>). split.
  - revert E. generalize (encode (the_session a)). intros blob E.
    unfold roll_back. erewrite host_bind by reflexivity. cbv beta iota. cbn [fst].
    change (the_session _) with s. rewrite E. cbv beta iota.
    erewrite host_bind by reflexivity. erewrite host_bind by reflexivity. reflexivity.
  - eexists. split; [done|]. pose proof (hash_restored _ _ s Hb Hm) as Hh. split; [done|].
    split; [by apply encode_restored|by apply memory_restored].
Qed.


(** A host that runs a game, and a file system with another one. *)
Definition running_host : DesktopApp :=
  (DesktopHost.construct (mkHostOptions "a.gba" EmptyString EmptyString None 0 0 0 EmptyString))
    <| session_loaded_ := true |>.
Definition other_game : World := mkWorld {[ (".", "b.gba") := regular [1; 2; 3] ]} [fails 0] [] [].

