(* ===== verification/HeadlessLab.v ===== *)
(** * The headless lab

    [apps/desktop/main.cpp]: the command line, the input script with its JSON
    subset, the hashes of a run's evidence (SHA-256 of the ROM, CRC-32 of the
    pictures, FNV-1a of the sound), and the deterministic run of a number of
    frames with its verdict.

    [std::exit] is a result of its own.  The order [std::sort] leaves among the
    events of one frame is not specified; the model keeps theirs.  Clocks, the
    PNG encoder and the messages are outside. *)

From Stdlib Require Import Ascii String.
From stdpp Require Import strings gmap sorting pretty.
From S2P Require Import Prelude StateHash StateMonad Keypad BusTypes.
From S2P Require Timers PpuTiming MemoryBus MemoryBusSpec PpuRenderer Apu.
From S2P Require Import IoRegisters Bios ArmTypes SchedulerProbe SchedulerState SchedulerDevices.
From S2P Require Import SchedulerFetch CoreSession CoreSessionSpec SaveStateCodec Persistence HostPolicy.
From S2P Require DesktopHost.
From S2P Require Import AndroidRuntime AndroidRuntimeSpec.
Import (hints) MemoryBus.GamePakSaveType AndroidRuntime.AndroidRuntimeStatus.
Local Open Scope string_scope.
Local Open Scope Z_scope.
Local Open Scope list_scope.

(** ** SHA-256 *)

(* @ apps/desktop/main.cpp:265-267 rotr32 *)
Definition rotr32 (v s : Z) : Z := Z.lor (Z.shiftr v s) (u32 (Z.shiftl v (32 - s))).

Module Sha256.
(* @ apps/desktop/main.cpp:314-325 Sha256::process_block *)
Definition kRoundConstants : list Z := Eval vm_compute in
  flat_map (fun '(w1, w2, w3, w4) => [w1; w2; w3; w4])
  [ (0x428A2F98, 0x71374491, 0xB5C0FBCF, 0xE9B5DBA5);
    (0x3956C25B, 0x59F111F1, 0x923F82A4, 0xAB1C5ED5);
    (0xD807AA98, 0x12835B01, 0x243185BE, 0x550C7DC3);
    (0x72BE5D74, 0x80DEB1FE, 0x9BDC06A7, 0xC19BF174);
    (0xE49B69C1, 0xEFBE4786, 0x0FC19DC6, 0x240CA1CC);
    (0x2DE92C6F, 0x4A7484AA, 0x5CB0A9DC, 0x76F988DA);
    (0x983E5152, 0xA831C66D, 0xB00327C8, 0xBF597FC7);
    (0xC6E00BF3, 0xD5A79147, 0x06CA6351, 0x14292967);
    (0x27B70A85, 0x2E1B2138, 0x4D2C6DFC, 0x53380D13);
    (0x650A7354, 0x766A0ABB, 0x81C2C92E, 0x92722C85);
    (0xA2BFE8A1, 0xA81A664B, 0xC24B8B70, 0xC76C51A3);
    (0xD192E819, 0xD6990624, 0xF40E3585, 0x106AA070);
    (0x19A4C116, 0x1E376C08, 0x2748774C, 0x34B0BCB5);
    (0x391C0CB3, 0x4ED8AA4A, 0x5B9CCA4F, 0x682E6FF3);
    (0x748F82EE, 0x78A5636F, 0x84C87814, 0x8CC70208);
    (0x90BEFFFA, 0xA4506CEB, 0xBEF9A3F7, 0xC67178F2) ].

(** The words of a block, high byte first. *)
(* @ apps/desktop/main.cpp:327-332 Sha256::process_block *)
Definition block_word (block : list Z) (i : nat) : Z :=
  let byte k := nth (4 * i + k) block 0 in
  Z.lor (Z.lor (Z.lor (Z.shiftl (byte 0%nat) 24) (Z.shiftl (byte 1%nat) 16))
    (Z.shiftl (byte 2%nat) 8)) (byte 3%nat).

(** The word [w[i]] of the schedule, appended. *)
(* @ apps/desktop/main.cpp:333-339 Sha256::process_block *)
Definition extend (w : list Z) (i : nat) : list Z :=
  let word k := nth (i - k) w 0 in
  let s0 := Z.lxor (Z.lxor (rotr32 (word 15%nat) 7) (rotr32 (word 15%nat) 18))
              (Z.shiftr (word 15%nat) 3) in
  let s1 := Z.lxor (Z.lxor (rotr32 (word 2%nat) 17) (rotr32 (word 2%nat) 19))
              (Z.shiftr (word 2%nat) 10) in
  w ++ [u32 (word 16%nat + s0 + word 7%nat + s1)].

(* @ apps/desktop/main.cpp:326-339 Sha256::process_block *)
Definition schedule (block : list Z) : list Z :=
  fold_left extend (seq 16 48) (map (block_word block) (seq 0 16)).

(** The eight words [a] to [h]. *)
(* @ apps/desktop/main.cpp:342-351 Sha256::process_block *)
Definition round (v : list Z) (kw : Z * Z) : list Z :=
  match v with
  | [a; b; c; d; e; f; g; h] =>
      let s1 := Z.lxor (Z.lxor (rotr32 e 6) (rotr32 e 11)) (rotr32 e 25) in
      let ch := Z.lxor (Z.land e f) (Z.land (u32 (Z.lnot e)) g) in
      let t1 := u32 (h + s1 + ch + kw.1 + kw.2) in
      let s0 := Z.lxor (Z.lxor (rotr32 a 2) (rotr32 a 13)) (rotr32 a 22) in
      let maj := Z.lxor (Z.lxor (Z.land a b) (Z.land a c)) (Z.land b c) in
      let t2 := u32 (s0 + maj) in
      [u32 (t1 + t2); a; b; c; u32 (d + t1); e; f; g]
  | _ => v
  end.

(** [state_] after a block. *)
(* @ apps/desktop/main.cpp:313-354 Sha256::process_block *)
Definition process_block (block state : list Z) : list Z :=
  let v := fold_left round (zip kRoundConstants (schedule block)) state in
  zip_with (fun s x => u32 (s + x)) state v.

(* @ apps/desktop/main.cpp:356-360 Sha256 *)
Record t : Type := mk {
  state_ : list Z;
  buffer_ : list Z;
  buffer_length_ : nat;
  total_length_ : Z
}.

(* @ apps/desktop/main.cpp:356-357 Sha256 *)
Definition initial_state : list Z :=
  [0x6A09E667; 0xBB67AE85; 0x3C6EF372; 0xA54FF53A;
   0x510E527F; 0x9B05688C; 0x1F83D9AB; 0x5BE0CD19].

(* @ apps/desktop/main.cpp:356-360 Sha256 *)
Definition construct : t := mk initial_state (replicate 64 0) 0 0.

(** [memcpy(buffer + at, data, n)]. *)
Definition copy_into (at_ : nat) (data buffer : list Z) : list Z :=
  take at_ buffer ++ data ++ drop (at_ + length data) buffer.

(** [while (length > 0)]; an iteration takes at least a byte. *)
(* @ apps/desktop/main.cpp:273-283 Sha256::update *)
Fixpoint update_loop (fuel : nat) (data : list Z) (s : t) : exc t :=
  match data, fuel with
  | [], _ => Ret s
  | _, O => Throw
  | _, S fuel' =>
      let n := Nat.min (length data) (64 - buffer_length_ s) in
      let buffer := copy_into (buffer_length_ s) (take n data) (buffer_ s) in
      let filled := (buffer_length_ s + n)%nat in
      update_loop fuel' (drop n data)
        (if (filled =? 64)%nat
         then mk (process_block buffer (state_ s)) buffer 0 (total_length_ s)
         else mk (state_ s) buffer filled (total_length_ s))
  end.

(* @ apps/desktop/main.cpp:271-284 Sha256::update *)
Definition update (data : list Z) (s : t) : exc t :=
  update_loop (length data) data
    (mk (state_ s) (buffer_ s) (buffer_length_ s) (u64 (total_length_ s + Z.of_nat (length data)))).

(** [while (buffer_length_ != 56)]: at most 63 bytes of padding. *)
(* @ apps/desktop/main.cpp:291-293 Sha256::digest *)
Fixpoint pad_loop (fuel : nat) (s : t) : exc t :=
  if (buffer_length_ s =? 56)%nat then Ret s
  else match fuel with
       | O => Throw
       | S fuel' => s ← update [0] s; pad_loop fuel' s
       end.

(** The [n] bytes of a word, high byte first. *)
(* @ apps/desktop/main.cpp:294-297 Sha256::digest *)
Definition big_endian (n : nat) (v : Z) : list Z :=
  map (fun i => u8 (Z.shiftr v (8 * Z.of_nat (n - 1 - i)))) (seq 0 n).

(* @ apps/desktop/main.cpp:286-310 Sha256::digest *)
Definition digest (s : t) : exc (list Z) :=
  let bit_length := u64 (total_length_ s * 8) in
  s ← update [0x80] s;
  s ← pad_loop 64 s;
  let buffer := copy_into 56 (big_endian 8 bit_length) (buffer_ s) in
  Ret (flat_map (big_endian 4) (process_block buffer (state_ s))).
End Sha256.

(** ** The other hashes *)

(** The bytes of the pixels, low byte first. *)
(* @ apps/desktop/main.cpp:375-377 framebuffer_crc32 *)
Definition pixel_bytes (pixels : list Z) : list Z :=
  flat_map (fun p => [u8 p; u8 (Z.shiftr p 8)]) pixels.

(* @ apps/desktop/main.cpp:374-384 framebuffer_crc32 *)
Definition framebuffer_crc32 (pixels : list Z) : Z :=
  u32 (Z.lnot (fold_left (fun crc byte => Nat.iter 8 crc_bit (Z.lxor crc byte))
    (pixel_bytes pixels) 0xFFFFFFFF)).

(* @ apps/desktop/main.cpp:386-393 fnv1a64 *)
Definition fnv1a64 (data : list Z) : Z :=
  fold_left (fun hash byte => u64 (Z.lxor hash byte * 0x100000001B3)) data 0xCBF29CE484222325.

(* @ apps/desktop/main.cpp:363-372 hex_fixed *)
Definition hex_fixed (data : list Z) : string :=
  let digit n := nth (Z.to_nat n) (list_ascii_of_string "0123456789abcdef") "0"%char in
  string_of_list_ascii (flat_map (fun b => [digit (Z.shiftr b 4); digit (Z.land b 0x0F)]) data).

(* @ apps/desktop/main.cpp:395-401 hex32 *)
Definition hex32 (value : Z) : string := hex_fixed (Sha256.big_endian 4 value).
(* @ apps/desktop/main.cpp:403-409 hex64 *)
Definition hex64 (value : Z) : string := hex_fixed (Sha256.big_endian 8 value).

(** The hash of a batch of sound, after [hash]. *)
(* @ apps/desktop/main.cpp:741-749 run_headless *)
Definition hash_audio (batch : list Apu.ApuMixedSample) (hash : Z) : Z :=
  fold_left (fun hash sample =>
    let bytes := [u8 (Z.land (Apu.left sample) 0xFF); u8 (Z.shiftr (Apu.left sample) 8);
                  u8 (Z.land (Apu.right sample) 0xFF); u8 (Z.shiftr (Apu.right sample) 8)] in
    u64 (Z.lxor hash (fnv1a64 bytes) * 0x100000001B3)) batch hash.

(** ** The input script *)

(* @ apps/desktop/main.cpp:78-82 InputEvent *)
Record InputEvent : Type := mkInputEvent {
  ev_frame : Z;
  ev_button : KeypadButton.t;
  ev_down : bool
}.

(** Text to be read: the characters from [pos] on.  A reader returns and moves
    on, or leaves the program; [unfinished]: the fuel of a loop is used up. *)
(* @ apps/desktop/main.cpp:433-435 JsonCursor *)
Definition Text : Type := list ascii.

Inductive Parsed (A : Type) : Type :=
  | parsed (a : A) (rest : Text)
  | exits (code : Z)
  | unfinished.
Arguments parsed {A} a rest.
Arguments exits {A} code.
Arguments unfinished {A}.

Definition Parser (A : Type) : Type := Text -> Parsed A.
#[export] Instance parser_ret : MRet Parser := fun A a text => parsed a text.
#[export] Instance parser_bind : MBind Parser := fun A B f m text =>
  match m text with
  | parsed a rest => f a rest
  | exits code => exits code
  | unfinished => unfinished
  end.
Definition exit_with {A} (code : Z) : Parser A := fun _ => exits code.

(** [std::isspace], [std::isdigit] and [std::tolower] of the C locale. *)
Definition is_space (c : ascii) : bool :=
  let n := N_of_ascii c in (n =? 32)%N || ((9 <=? n)%N && (n <=? 13)%N).
Definition is_digit (c : ascii) : bool := let n := N_of_ascii c in (48 <=? n)%N && (n <=? 57)%N.
Definition to_lower (c : ascii) : ascii :=
  let n := N_of_ascii c in if (65 <=? n)%N && (n <=? 90)%N then ascii_of_N (n + 32) else c.

(* @ apps/desktop/main.cpp:437-441 JsonCursor::skip_ws *)
Fixpoint skip_ws (text : Text) : Text :=
  match text with
  | c :: text' => if is_space c then skip_ws text' else text
  | [] => []
  end.

(* @ apps/desktop/main.cpp:442-449 JsonCursor::consume *)
Definition consume (c : ascii) : Parser bool := fun text =>
  match skip_ws text with
  | d :: rest => if Ascii.eqb d c then parsed true rest else parsed false (d :: rest)
  | [] => parsed false []
  end.

Definition quote : ascii := "034"%char.
Definition backslash : ascii := "092"%char.

(** The characters up to the closing quote; a backslash protects the next. *)
(* @ apps/desktop/main.cpp:456-467 JsonCursor::parse_string *)
Fixpoint string_body (text : Text) : option (Text * Text) :=
  match text with
  | [] => None
  | c :: text' =>
      if Ascii.eqb c quote then Some ([], text')
      else if Ascii.eqb c backslash then
        match text' with
        | d :: text'' => '(out, rest) ← string_body text''; Some (d :: out, rest)
        | [] => None
        end
      else '(out, rest) ← string_body text'; Some (c :: out, rest)
  end.

(** Every caller leaves the program on [None], so the rest does not matter. *)
(* @ apps/desktop/main.cpp:450-468 JsonCursor::parse_string *)
Definition parse_string : Parser (option string) := fun text =>
  match skip_ws text with
  | c :: text' =>
      if Ascii.eqb c quote then
        match string_body text' with
        | Some (out, rest) => parsed (Some (string_of_list_ascii out)) rest
        | None => parsed None []
        end
      else parsed None (c :: text')
  | [] => parsed None []
  end.

(* @ apps/desktop/main.cpp:474-480 JsonCursor::parse_u32 *)
Fixpoint digits (value : Z) (text : Text) : option Z * Text :=
  match text with
  | c :: text' =>
      if is_digit c then
        let value := value * 10 + (Z.of_N (N_of_ascii c) - 48) in
        if 0xFFFFFFFF <? value then (None, text') else digits value text'
      else (Some value, text)
  | [] => (Some value, [])
  end.

(* @ apps/desktop/main.cpp:469-482 JsonCursor::parse_u32 *)
Definition parse_u32 : Parser (option Z) := fun text =>
  match skip_ws text with
  | c :: rest =>
      if is_digit c then let '(value, rest) := digits 0 (c :: rest) in parsed value rest
      else parsed None (c :: rest)
  | [] => parsed None []
  end.

(* @ apps/desktop/main.cpp:416-431 parse_button *)
Definition parse_button (name : string) : option KeypadButton.t :=
  let name := string_of_list_ascii (map to_lower (list_ascii_of_string name)) in
  if (name =? "a")%string then Some KeypadButton.a
  else if (name =? "b")%string then Some KeypadButton.b
  else if (name =? "select")%string then Some KeypadButton.select
  else if (name =? "start")%string then Some KeypadButton.start
  else if (name =? "right")%string then Some KeypadButton.right
  else if (name =? "left")%string then Some KeypadButton.left
  else if (name =? "up")%string then Some KeypadButton.up
  else if (name =? "down")%string then Some KeypadButton.down
  else if (name =? "r")%string then Some KeypadButton.r
  else if (name =? "l")%string then Some KeypadButton.l
  else None.

(** [do body while (cur.consume(','))], over a local state. *)
Fixpoint do_while {S} (fuel : nat) (body : S -> Parser S) (s : S) : Parser S :=
  match fuel with
  | O => fun _ => unfinished
  | Datatypes.S fuel' =>
      s ← body s;
      more ← consume ","%char;
      if (more : bool) then do_while fuel' body s else mret s
  end.

(** Each iteration reads at least its comma. *)
Definition repeat_commas {S} (body : S -> Parser S) (s : S) : Parser S :=
  fun text => do_while (Datatypes.S (length text)) body s text.

(** The event so far, and which of its fields were seen. *)
(* @ apps/desktop/main.cpp:521-522 parse_input_script *)
Record EventState : Type := mkEventState {
  es_event : InputEvent;
  have_frame : bool;
  have_button : bool;
  have_state : bool
}.

(* @ apps/desktop/main.cpp:521-522 parse_input_script *)
Definition no_fields : EventState := mkEventState (mkInputEvent 0 KeypadButton.a true) false false false.

(* @ apps/desktop/main.cpp:524-558 parse_input_script *)
Definition parse_field (e : EventState) : Parser EventState :=
  let '(mkEventState (mkInputEvent f b d) hf hb hs) := e in
  field ← parse_string;
  match field with
  | None => exit_with 2
  | Some field =>
      colon ← consume ":"%char;
      if negb colon then exit_with 2
      else if (field =? "frame")%string then
        frame ← parse_u32;
        match frame with
        | Some frame => mret (mkEventState (mkInputEvent frame b d) true hb hs)
        | None => exit_with 2
        end
      else if (field =? "button")%string then
        button ← parse_string;
        match button ≫= parse_button with
        | Some button => mret (mkEventState (mkInputEvent f button d) hf true hs)
        | None => exit_with 2
        end
      else if (field =? "state")%string then
        state ← parse_string;
        match state with
        | Some state =>
            if negb (state =? "down")%string && negb (state =? "up")%string then exit_with 2
            else mret (mkEventState (mkInputEvent f b (state =? "down")%string) hf hb true)
        | None => exit_with 2
        end
      else exit_with 2
  end.

(* @ apps/desktop/main.cpp:517-564 parse_input_script *)
Definition parse_event (events : list InputEvent) : Parser (list InputEvent) :=
  opened ← consume "{"%char;
  if negb opened then exit_with 2
  else
    e ← repeat_commas parse_field no_fields;
    closed ← consume "}"%char;
    if negb closed || negb (have_frame e) || negb (have_button e) || negb (have_state e)
    then exit_with 2
    else mret (events ++ [es_event e]).

(* @ apps/desktop/main.cpp:498-569 parse_input_script *)
Definition parse_key (events : list InputEvent) : Parser (list InputEvent) :=
  key ← parse_string;
  match key with
  | None => exit_with 2
  | Some key =>
      colon ← consume ":"%char;
      if negb colon || negb (key =? "events")%string then exit_with 2
      else
        opened ← consume "["%char;
        if negb opened then exit_with 2
        else
          closed ← consume "]"%char;
          if (closed : bool) then mret events
          else
            events ← repeat_commas parse_event events;
            closed ← consume "]"%char;
            if negb closed then exit_with 2 else mret events
  end.

(** [std::sort] by frame. *)
(* @ apps/desktop/main.cpp:575-576 parse_input_script *)
Definition earlier (x y : InputEvent) : Prop := ev_frame x <= ev_frame y.
#[export] Instance earlier_dec : RelDecision earlier.
Proof. intros x y. unfold earlier. apply _. Defined.

(* @ apps/desktop/main.cpp:575-576 parse_input_script *)
Fixpoint insert_event (e : InputEvent) (l : list InputEvent) : list InputEvent :=
  match l with
  | [] => [e]
  | x :: l' => if decide (earlier e x) then e :: x :: l' else x :: insert_event e l'
  end.
(* @ apps/desktop/main.cpp:575-576 parse_input_script *)
Definition sort_events : list InputEvent -> list InputEvent := foldr insert_event [].

(** Text behind the object is not looked at. *)
(* @ apps/desktop/main.cpp:485-578 parse_input_script *)
Definition parse_input_script : Parser (list InputEvent) :=
  opened ← consume "{"%char;
  if negb opened then exit_with 2
  else
    closed ← consume "}"%char;
    if (closed : bool) then mret []
    else
      events ← repeat_commas parse_key [];
      closed ← consume "}"%char;
      if negb closed then exit_with 2 else mret (sort_events events).

(** ** The command line *)

(* @ apps/desktop/main.cpp:54-76 CliOptions *)
Record CliOptions : Type := mkCliOptions {
  rom_path : string;
  headless : bool;
  frames : Z;
  max_steps_per_frame : Z;
  input_script_path : string;
  artifact_path : string;
  screenshot_dir : string;
  screenshot_frames : list Z;
  frame_hash : bool;
  audio_hash : bool;
  opt_state_hash : bool;
  save_state_output : string;
  load_state_input : string;
  quit_after_frames : Z;
  frame_timing : bool;
  reset_after_frames : Z;
  switch_after_frames : Z;
  switch_to_path : string;
  window_screenshot_path : string;
  save_directory : string;
  save_type_override : option MemoryBus.GamePakSaveType.t
}.
#[export] Instance eta_CliOptions : Eta CliOptions := fun o =>
  mkCliOptions (rom_path o) (headless o) (frames o) (max_steps_per_frame o) (input_script_path o)
    (artifact_path o) (screenshot_dir o) (screenshot_frames o) (frame_hash o) (audio_hash o)
    (opt_state_hash o) (save_state_output o) (load_state_input o) (quit_after_frames o)
    (frame_timing o) (reset_after_frames o) (switch_after_frames o) (switch_to_path o)
    (window_screenshot_path o) (save_directory o) (save_type_override o).

(* @ apps/desktop/main.cpp:51-51 kDefaultFrames *)
Definition kDefaultFrames : Z := 600.
(* @ apps/desktop/main.cpp:52-52 kDefaultMaxStepsPerFrame *)
Definition kDefaultMaxStepsPerFrame : Z := 500000.

(* @ apps/desktop/main.cpp:54-76 CliOptions *)
Definition default_options : CliOptions :=
  mkCliOptions EmptyString false kDefaultFrames kDefaultMaxStepsPerFrame EmptyString EmptyString
    EmptyString [] false false false EmptyString EmptyString 0 false 0 0 EmptyString EmptyString
    EmptyString None.

(** The digits in front of a text, as a number; [None]: there are none. *)
Fixpoint leading_digits (value : option Z) (text : Text) : option Z :=
  match text with
  | c :: text' =>
      if is_digit c
      then leading_digits (Some (default 0 value * 10 + (Z.of_N (N_of_ascii c) - 48))) text'
      else value
  | [] => value
  end.

(** [std::stoul] with a 64-bit [unsigned long]: white space, a sign, digits;
    what follows is ignored and a minus negates modulo 2^64.  [None]: it
    throws. *)
Definition stoul (value : string) : option Z :=
  let text := skip_ws (list_ascii_of_string value) in
  let '(negative, text) :=
    match text with
    | c :: text' =>
        if Ascii.eqb c "-"%char then (true, text')
        else if Ascii.eqb c "+"%char then (false, text') else (false, text)
    | [] => (false, [])
    end in
  n ← leading_digits None text;
  if 2 ^ 64 <=? n then None else Some (if (negative : bool) then u64 (- n) else n).

(** An option without a value. *)
(* @ apps/desktop/main.cpp:151-195 parse_cli *)
Definition flag_option (arg : string) : option (CliOptions -> CliOptions) :=
  if (arg =? "--headless")%string then Some (fun o => o <| headless := true |>)
  else if (arg =? "--frame-timing")%string then Some (fun o => o <| frame_timing := true |>)
  else if (arg =? "--frame-hash")%string then Some (fun o => o <| frame_hash := true |>)
  else if (arg =? "--audio-hash")%string then Some (fun o => o <| audio_hash := true |>)
  else if (arg =? "--state-hash")%string then Some (fun o => o <| opt_state_hash := true |>)
  else None.

(** [next_u32()]: [None] leaves the program. *)
(* @ apps/desktop/main.cpp:139-147 parse_cli *)
Definition with_u32 (set : Z -> CliOptions -> CliOptions) (value : string) (o : CliOptions)
    : option CliOptions :=
  n ← stoul value; Some (set (u32 n) o).

(** [next_path()]: the conversion to UTF-8 is the identity here. *)
(* @ apps/desktop/main.cpp:136-138 parse_cli *)
Definition with_path (set : string -> CliOptions -> CliOptions) (value : string) (o : CliOptions)
    : option CliOptions := Some (set value o).

(* @ apps/desktop/main.cpp:153-158 parse_cli *)
Definition with_save_type (value : string) (o : CliOptions) : option CliOptions :=
  match parse_save_type value (save_type_override o) with
  | (true, selection) => Some (o <| save_type_override := selection |>)
  | (false, _) => None
  end.

(* @ apps/desktop/main.cpp:181-185 parse_cli *)
Definition add_screenshot (n : Z) (o : CliOptions) : CliOptions :=
  let o := o <| screenshot_frames ::= fun l => l ++ [n] |> in
  if (screenshot_dir o =? EmptyString)%string then o <| screenshot_dir := "." |> else o.

(** An option with a value. *)
(* @ apps/desktop/main.cpp:148-197 parse_cli *)
Definition value_option (arg : string) : option (string -> CliOptions -> option CliOptions) :=
  if (arg =? "--rom")%string then Some (with_path (fun v o => o <| rom_path := v |>))
  else if (arg =? "--save-type")%string then Some with_save_type
  else if (arg =? "--quit-after")%string
  then Some (with_u32 (fun v o => o <| quit_after_frames := v |>))
  else if (arg =? "--reset-after")%string
  then Some (with_u32 (fun v o => o <| reset_after_frames := v |>))
  else if (arg =? "--switch-after")%string
  then Some (with_u32 (fun v o => o <| switch_after_frames := v |>))
  else if (arg =? "--switch-to")%string
  then Some (with_path (fun v o => o <| switch_to_path := v |>))
  else if (arg =? "--window-screenshot")%string
  then Some (with_path (fun v o => o <| window_screenshot_path := v |>))
  else if (arg =? "--save-directory")%string
  then Some (with_path (fun v o => o <| save_directory := v |>))
  else if (arg =? "--frames")%string then Some (with_u32 (fun v o => o <| frames := v |>))
  else if (arg =? "--max-steps-per-frame")%string
  then Some (with_u32 (fun v o => o <| max_steps_per_frame := v |>))
  else if (arg =? "--input-script")%string
  then Some (with_path (fun v o => o <| input_script_path := v |>))
  else if (arg =? "--artifact")%string then Some (with_path (fun v o => o <| artifact_path := v |>))
  else if (arg =? "--screenshot-frame")%string then Some (with_u32 add_screenshot)
  else if (arg =? "--screenshot-output")%string
  then Some (with_path (fun v o => o <| screenshot_dir := v |>))
  else if (arg =? "--save-state")%string
  then Some (with_path (fun v o => o <| save_state_output := v |>))
  else if (arg =? "--load-state")%string
  then Some (with_path (fun v o => o <| load_state_input := v |>))
  else None.

(** [arg.rfind("-", 0) == 0]. *)
Definition starts_with_dash (arg : string) : bool :=
  match arg with String c _ => Ascii.eqb c "-"%char | EmptyString => false end.

(** The arguments one after the other: [inl code] leaves the program. *)
(* @ apps/desktop/main.cpp:124-208 parse_cli *)
Fixpoint parse_args (args : list string) (rom_seen : bool) (o : CliOptions)
    : Z + bool * CliOptions :=
  match args with
  | [] => inr (rom_seen, o)
  | arg :: args' =>
      match flag_option arg, value_option arg with
      | Some set, _ => parse_args args' rom_seen (set o)
      | None, Some set =>
          match args' with
          | [] => inl 2
          | value :: args'' =>
              match set value o with
              | Some o => parse_args args'' (rom_seen || (arg =? "--rom")%string) o
              | None => inl 2
              end
          end
      | None, None =>
          if (arg =? "--help")%string || (arg =? "-h")%string then inl 0
          else if negb rom_seen && negb (starts_with_dash arg)
          then parse_args args' true (o <| rom_path := arg |>)
          else inl 2
      end
  end.

(* @ apps/desktop/main.cpp:225-225 parse_cli *)
Definition sort_frames : list Z -> list Z := merge_sort Z.le.

(* @ apps/desktop/main.cpp:121-227 parse_cli *)
Definition parse_cli (args : list string) : Z + CliOptions :=
  match parse_args args false default_options with
  | inl code => inl code
  | inr (rom_seen, o) =>
      if negb rom_seen && headless o then inl 2
      else if headless o && frame_timing o then inl 2
      else if negb rom_seen && negb (load_state_input o =? EmptyString)%string then inl 2
      else if negb rom_seen && bool_decide (is_Some (save_type_override o)) then inl 2
      else inr (o <| screenshot_frames ::= sort_frames |>)
  end.

(** The options of play mode. *)
(* @ apps/desktop/main.cpp:893-906 main *)
Definition host_options (o : CliOptions) : DesktopHost.HostOptions :=
  DesktopHost.mkHostOptions (rom_path o) (load_state_input o) (save_directory o)
    (save_type_override o) (quit_after_frames o) (reset_after_frames o) (switch_after_frames o)
    (switch_to_path o).

(** ** The run *)

(** [std::ifstream file(path, binary | ate)]: a directory is not opened. *)
(* @ apps/desktop/main.cpp:229-246 read_file *)
Definition read_file (path : string) : FS (list Z) :=
  opened ← stream_good;
  f ← get_files;
  match f !! key (native_path path) with
  | Some (regular bytes) =>
      if negb opened then mret []
      else if bool_decide (bytes = []) then mret []
      else
        complete ← stream_good;
        mret (if (complete : bool) then bytes else [])
  | _ => mret []
  end.

(* @ apps/desktop/main.cpp:248-258 write_file *)
Definition write_file (path : string) (bytes : list Z) : FS bool :=
  let native := native_path path in
  opened ← open_truncated native;
  if negb opened then mret false
  else if bool_decide (bytes = []) then mret true
  else write_bytes native bytes.

(** The picture for the PNG encoder, three bytes a pixel. *)
(* @ apps/desktop/main.cpp:589-595 write_screenshot *)
Definition screenshot_rgb (framebuffer : list Z) : list Z :=
  flat_map (fun px => [u8 (Z.land px 0x1F * 255 / 31); u8 (Z.land (Z.shiftr px 5) 0x1F * 255 / 31);
                       u8 (Z.land (Z.shiftr px 10) 0x1F * 255 / 31)]) framebuffer.

(* @ apps/desktop/main.cpp:607-614 stop_reason_name *)
Definition stop_reason_name (reason : CoreRunStopReason.t) : string :=
  match reason with
  | CoreRunStopReason.max_steps => "max_steps"
  | CoreRunStopReason.fetch_failed => "fetch_failure"
  | CoreRunStopReason.unsupported_instruction => "unsupported_instruction"
  end.

(** The variables of the run. *)
(* @ apps/desktop/main.cpp:694-710 run_headless *)
Record LabRun : Type := mkLabRun {
  lr_runtime : AndroidRuntime;
  remaining_events : list InputEvent;
  audio_samples_total : Z;
  lr_audio_hash : Z;
  completed_frames : Z;
  underruns_total : Z;
  unsupported_instructions : Z;
  lr_fetch_failures : Z;
  abnormal_reason : CoreRunStopReason.t;
  abnormal_seen : bool;
  abnormal_frame : Z;
  lr_dump : AndroidRuntimeUnsupportedDump;
  frame_hashes : list Z;
  frame_budget_exhausted : bool;
  input_mask : Z
}.
#[export] Instance eta_LabRun : Eta LabRun := fun l =>
  mkLabRun (lr_runtime l) (remaining_events l) (audio_samples_total l) (lr_audio_hash l)
    (completed_frames l) (underruns_total l) (unsupported_instructions l) (lr_fetch_failures l)
    (abnormal_reason l) (abnormal_seen l) (abnormal_frame l) (lr_dump l) (frame_hashes l)
    (frame_budget_exhausted l) (input_mask l).

(* @ android_runtime.hpp:44-60 AndroidRuntimeUnsupportedDump *)
Definition empty_dump : AndroidRuntimeUnsupportedDump :=
  mkAndroidRuntimeUnsupportedDump 0 0 false 0 0 None false 0 None 0 0 0 0
    (replicate (Z.to_nat kRecentFetches) (mkAndroidRuntimeFetchTraceEntry 0 0 false)) 0.

(* @ apps/desktop/main.cpp:694-710 run_headless *)
Definition start_run (r : AndroidRuntime) (events : list InputEvent) : LabRun :=
  mkLabRun r events 0 0xCBF29CE484222325 0 0 0 0 CoreRunStopReason.max_steps false 0 empty_dump []
    false (pressed_mask (keypad_of (session_ r))).

(** The events of a frame, from the front of what remains. *)
(* @ apps/desktop/main.cpp:712-718 run_headless *)
Fixpoint apply_events (frame : Z) (events : list InputEvent) (mask : Z) (r : AndroidRuntime)
    : list InputEvent * Z * AndroidRuntime :=
  match events with
  | [] => ([], mask, r)
  | e :: events' =>
      if ev_frame e =? frame then
        let bit := KeypadButton.bit (ev_button e) in
        let mask := if ev_down e then u16 (Z.lor mask bit) else u16 (Z.land mask (Z.lnot bit)) in
        apply_events frame events' mask
          (with_session (set_input_mask mask (session_ r)).2 r)
      else (events, mask, r)
  end.

(** What a frame adds to the evidence. *)
(* @ apps/desktop/main.cpp:728-750 run_headless *)
Definition record_frame (o : CliOptions) (frame : Z) (result : AndroidRuntimeFrameResult)
    (l : LabRun) : LabRun :=
  let run := fr_run result in
  let l := if frame_complete result then l <| completed_frames ::= fun n => u32 (n + 1) |> else l in
  let l := if abnormal_stop run && negb (abnormal_seen l)
           then l <| abnormal_seen := true |> <| abnormal_reason := stop_reason run |>
                  <| abnormal_frame := frame |>
           else l in
  l <| unsupported_instructions ::= fun n => u32 (n + unsupported_steps run) |>
    <| lr_fetch_failures ::= fun n => u32 (n + fetch_failures run) |>
    <| audio_samples_total ::= fun n => u64 (n + fr_audio_samples result) |>
    <| underruns_total ::= fun n => u32 (n + audio_underruns result) |>
    <| lr_audio_hash ::= fun h =>
         if audio_hash o then hash_audio (last_audio_batch (lr_runtime l)) h else h |>.

(* @ apps/desktop/main.cpp:751-754 run_headless *)
Definition sample_picture (o : CliOptions) (frame : Z) (l : LabRun) : LabRun :=
  if frame_hash o && ((frame mod 30 =? 0) || (u32 (frame + 1) =? frames o))
  then l <| frame_hashes ::= fun hs => hs ++ [framebuffer_crc32 (framebuffer (lr_runtime l))] |>
  else l.

(** How a frame of the loop ends: the next frame, [break], [return code], or
    the frame has not ended with the fuel. *)
Inductive FrameEnd : Type :=
  | next_frame (l : LabRun)
  | breaks (l : LabRun)
  | returns_code (code : Z)
  | still_runs.

(** [png frame rgb]: whether the encoder writes the picture. *)
(* @ apps/desktop/main.cpp:712-767 run_headless *)
Definition lab_frame (fuel : nat) (png : Z -> list Z -> bool) (o : CliOptions) (frame : Z)
    (l : LabRun) : exc FrameEnd :=
  let '(events, mask, r) :=
    apply_events frame (remaining_events l) (input_mask l) (lr_runtime l) in
  let l := l <| remaining_events := events |> <| input_mask := mask |> in
  stepped ← step_frame_with_fetch_trace fuel (max_steps_per_frame o) (Some (lr_dump l)) r;
  match stepped with
  | inl _ => Ret still_runs
  | inr (result, dump, r) =>
      let l := l <| lr_runtime := r |> <| lr_dump ::= fun d => default d dump |> in
      if negb (bool_decide (fr_status result = AndroidRuntimeStatus.ok)) then Ret (returns_code 3)
      else
        let l := sample_picture o frame (record_frame o frame result l) in
        if negb (frame_complete result)
        then Ret (breaks (l <| frame_budget_exhausted := negb (abnormal_seen l) |>
                            <| abnormal_frame := frame |>))
        else if bool_decide (frame ∈ screenshot_frames o) &&
                negb (screenshot_dir o =? EmptyString)%string &&
                negb (png frame (screenshot_rgb (framebuffer (lr_runtime l))))
        then Ret (returns_code 3)
        else Ret (next_frame l)
  end.

(** [n] frames from [frame] on. *)
(* @ apps/desktop/main.cpp:711-768 run_headless *)
Fixpoint lab_frames (fuel : nat) (png : Z -> list Z -> bool) (o : CliOptions) (n : nat) (frame : Z)
    (l : LabRun) : exc FrameEnd :=
  match n with
  | O => Ret (breaks l)
  | S n' =>
      e ← lab_frame fuel png o frame l;
      match e with
      | next_frame l => lab_frames fuel png o n' (frame + 1) l
      | _ => Ret e
      end
  end.

(* @ apps/desktop/main.cpp:881-886 run_headless *)
Definition verdict (l : LabRun) : Z :=
  if negb (unsupported_instructions l =? 0) || negb (lr_fetch_failures l =? 0) ||
     abnormal_seen l || frame_budget_exhausted l then 1 else 0.

(* @ apps/desktop/main.cpp:824-825 run_headless *)
Definition stop_text (l : LabRun) : string :=
  if abnormal_seen l then stop_reason_name (abnormal_reason l)
  else if frame_budget_exhausted l then "frame_budget_exhausted" else "completed".

(** The session of the run: a checkpoint of this game, or the game started. *)
(* @ apps/desktop/main.cpp:662-692 run_headless *)
Definition prepare (o : CliOptions) (rom blob : list Z) : exc (Z + AndroidRuntime) :=
  let r := construct in
  if negb (load_state_input o =? EmptyString)%string then
    if bool_decide (blob = []) then Ret (inl 2)
    else
      let '(decoded, s) := decode_into (session_ r) blob in
      let b := memory_of s in
      if negb (bool_decide (decode_status decoded = SaveStateDecodeStatus.ok)) then Ret (inl 3)
      else if negb (bool_decide (MemoryBus.export_game_pak_rom b = rom)) then Ret (inl 3)
      else if match save_type_override o with
              | Some type => negb (bool_decide (MemoryBus.game_pak_save_type_ b = type))
              | None => false
              end
      then Ret (inl 3)
      else Ret (inr (with_session s r))
  else
    '(status, r) ← load_rom rom r;
    if negb (bool_decide (status = AndroidRuntimeStatus.ok)) then Ret (inl 3)
    else
      let '(applied, b) := apply_save_type (memory_of (session_ r)) (save_type_override o) in
      let r := with_session (CoreSession.set_memory b (session_ r)) r in
      Ret (if (applied : bool) then inr r else inl 3).

(** ** The artifact *)

(** Text with the characters that need it escaped. *)
(* @ apps/desktop/main.cpp:616-627 json_escape *)
Definition json_escape (text : string) : string :=
  string_of_list_ascii (flat_map (fun c =>
    if Ascii.eqb c backslash || Ascii.eqb c quote then [backslash; c] else [c])
    (list_ascii_of_string text)).

Definition quoted (text : string) : string := String quote (text +:+ String quote EmptyString).
Definition newline : string := String "010"%char EmptyString.

(** A group of members, one a line. *)
Fixpoint members (l : list (string * string)) : string :=
  match l with
  | [] => EmptyString
  | (name, value) :: l' =>
      "    " +:+ quoted name +:+ ": " +:+ value +:+
      (match l' with [] => EmptyString | _ => "," end) +:+ newline +:+ members l'
  end.
Fixpoint groups (l : list (string * list (string * string))) : string :=
  match l with
  | [] => EmptyString
  | (name, ms) :: l' =>
      "  " +:+ quoted name +:+ ": {" +:+ newline +:+ members ms +:+ "  }" +:+
      (match l' with [] => EmptyString | _ => "," end) +:+ newline +:+ groups l'
  end.

Fixpoint join (l : list Z) : string :=
  match l with
  | [] => EmptyString
  | [n] => pretty n
  | n :: l' => pretty n +:+ "," +:+ join l'
  end.

(** The members with values of the run; [pc] is the final PC.  [commit] and
    [build] come from the build, [performance] is the group of the clock's
    numbers. *)
(* @ apps/desktop/main.cpp:801-862 run_headless *)
Definition artifact_text (commit build : string) (performance : list (string * string))
    (o : CliOptions) (rom : list Z) (rom_sha256 : string) (l : LabRun) (pc : Z) : string :=
  let s := session_ (lr_runtime l) in
  "{" +:+ newline +:+ "  " +:+ quoted "schema_version" +:+ ": 1," +:+ newline +:+
  groups
    [("engine", [("commit", quoted commit); ("build_type", quoted build);
                 ("host", quoted "gba-desktop")]);
     ("rom", [("path", quoted (json_escape (rom_path o)));
              ("save_type", quoted (save_kind_name (MemoryBus.game_pak_save_type_ (memory_of s))));
              ("sha256", quoted rom_sha256); ("size", pretty (Z.of_nat (length rom)))]);
     ("run", [("requested_frames", pretty (frames o));
              ("completed_frames", pretty (completed_frames l));
              ("max_steps_per_frame", pretty (max_steps_per_frame o));
              ("scheduler_cycles", pretty (scheduler_cycles_ (sched (core_ s))));
              ("stop_reason", quoted (stop_text l)); ("stop_frame", pretty (abnormal_frame l));
              ("final_pc", pretty pc);
              ("unsupported_instructions", pretty (unsupported_instructions l));
              ("fetch_failures", pretty (lr_fetch_failures l))]);
     ("video", [("framebuffer_crc32",
                 quoted ("0x" +:+ hex32 (framebuffer_crc32 (framebuffer (lr_runtime l)))));
                ("frame_hashes", "[" +:+ join (frame_hashes l) +:+ "]")]);
     ("audio", [("sample_count", pretty (audio_samples_total l));
                ("underruns", pretty (underruns_total l));
                ("hash", quoted ("0x" +:+ hex64 (lr_audio_hash l)))]);
     ("state", [("final_hash", quoted (hex64 (CoreSession.state_hash s)))]);
     ("performance", performance)] +:+ "}" +:+ newline.

(** The lab as a whole: [None] when a frame has not ended with its fuel. *)
Definition LAB (A : Type) : Type := ST World A.
Definition files_op {A} (m : FS A) : LAB A := fun w => Ret (m w).
Definition bytes_of (text : string) : list Z :=
  map (fun c => Z.of_N (N_of_ascii c)) (list_ascii_of_string text).
Definition text_of (bytes : list Z) : Text := map (fun b => ascii_of_N (Z.to_N b)) bytes.

(** The events of the script, or the exit code. *)
(* @ apps/desktop/main.cpp:640-648 run_headless *)
Definition load_events (o : CliOptions) : LAB (Z + list InputEvent) :=
  if (input_script_path o =? EmptyString)%string then mret (inr [])
  else
    script ← files_op (read_file (input_script_path o));
    if bool_decide (script = []) then mret (inl 2)
    else match parse_input_script (text_of script) with
         | parsed events _ => mret (inr events)
         | exits code => mret (inl code)
         | unfinished => throw
         end.

(** Writing the checkpoint and the artifact, and the verdict. *)
(* @ apps/desktop/main.cpp:787-887 run_headless *)
Definition finish_run (commit build : string) (performance : list (string * string))
    (o : CliOptions) (rom : list Z) (rom_sha256 : string) (l : LabRun) : LAB Z :=
  saved ← (if (save_state_output o =? EmptyString)%string then mret true
           else files_op (write_file (save_state_output o) (encode (session_ (lr_runtime l)))));
  if negb saved then mret 3
  else
    pc ← lift (fst <$> ArmState.register_value kPc (cpu_of (core_ (session_ (lr_runtime l)))));
    if (artifact_path o =? EmptyString)%string then mret (verdict l)
    else
      let native := native_path (artifact_path o) in
      opened ← files_op (open_truncated native);
      if negb opened then mret 3
      else
        files_op (write_bytes native
          (bytes_of (artifact_text commit build performance o rom rom_sha256 l pc)));;
        mret (verdict l).

(* @ apps/desktop/main.cpp:633-887 run_headless *)
Definition run_headless (fuel : nat) (png : Z -> list Z -> bool) (commit build : string)
    (performance : list (string * string)) (o : CliOptions) : LAB (option Z) :=
  rom ← files_op (read_file (rom_path o));
  if bool_decide (rom = []) then mret (Some 2)
  else
    events ← load_events o;
    match events with
    | inl code => mret (Some code)
    | inr events =>
        sha ← lift (s ← Sha256.update rom Sha256.construct; Sha256.digest s);
        blob ← (if (load_state_input o =? EmptyString)%string then mret []
                else files_op (read_file (load_state_input o)));
        prepared ← lift (prepare o rom blob);
        match prepared with
        | inl code => mret (Some code)
        | inr r =>
            e ← lift (lab_frames fuel png o (Z.to_nat (frames o)) 0 (start_run r events));
            match e with
            | next_frame l | breaks l =>
                code ← finish_run commit build performance o rom (hex_fixed sha) l;
                mret (Some code)
            | returns_code code => mret (Some code)
            | still_runs => mret None
            end
        end
    end.

(** ** SHA-256 of chunks is SHA-256 of the message *)

(** The standard's definition over the padded message, block after block. *)
Fixpoint hash_blocks (n : nat) (message state : list Z) : list Z :=
  match n with
  | O => state
  | S n' => hash_blocks n' (drop 64 message) (Sha256.process_block (take 64 message) state)
  end.

Definition padding (n : nat) : list Z :=
  0x80 :: replicate ((119 - n mod 64) mod 64) 0 ++ Sha256.big_endian 8 (8 * Z.of_nat n).

Definition sha256 (message : list Z) : list Z :=
  let padded := message ++ padding (length message) in
  flat_map (Sha256.big_endian 4) (hash_blocks (length padded / 64) padded Sha256.initial_state).

(** What the object knows of the bytes so far. *)
Record absorbed (message : list Z) (s : Sha256.t) : Prop := mk_absorbed {
  ab_buffer : length (Sha256.buffer_ s) = 64%nat;
  ab_length : Sha256.buffer_length_ s = (length message mod 64)%nat;
  ab_rest : take (Sha256.buffer_length_ s) (Sha256.buffer_ s) =
            drop (64 * (length message / 64)) message;
  ab_state : Sha256.state_ s = hash_blocks (length message / 64) message Sha256.initial_state
}.

Lemma hash_blocks_app n message more state : (64 * n <= length message)%nat ->
  hash_blocks n (message ++ more) state = hash_blocks n message state.
Proof.
  revert message state. induction n as [|n IH]; intros message state H; [done|]. cbn [hash_blocks].
  rewrite take_app_le, drop_app_le by lia. apply IH. rewrite length_drop. lia.
Qed.

Lemma hash_blocks_last n message block state :
  length message = (64 * n)%nat -> length block = 64%nat ->
  hash_blocks (S n) (message ++ block) state =
  Sha256.process_block block (hash_blocks n message state).
Proof.
  revert message state. induction n as [|n IH]; intros message state Hm Hb.
  - destruct message; [|cbn in Hm; lia]. cbn [app hash_blocks]. by rewrite take_ge by lia.
  - change (hash_blocks (S (S n)) ?m ?st) with
      (hash_blocks (S n) (drop 64 m) (Sha256.process_block (take 64 m) st)).
    rewrite take_app_le, drop_app_le by lia. rewrite IH by (rewrite ?length_drop; lia). done.
Qed.

Lemma copy_into_spec at_ data buffer : length buffer = 64%nat -> (at_ + length data <= 64)%nat ->
  length (Sha256.copy_into at_ data buffer) = 64%nat /\
  take (at_ + length data) (Sha256.copy_into at_ data buffer) = take at_ buffer ++ data.
Proof.
  intros Hb Hd. unfold Sha256.copy_into.
  assert (Hl : length (take at_ buffer ++ data) = (at_ + length data)%nat).
  { rewrite length_app, length_take. lia. }
  rewrite app_assoc. split; [rewrite length_app, Hl, length_drop; lia|].
  rewrite <- Hl. apply take_app_length.
Qed.

(** The full blocks of a message, and the rest. *)
Lemma message_parts (message : list Z) :
  let n := (length message / 64)%nat in
  length (take (64 * n) message) = (64 * n)%nat /\
  length (drop (64 * n) message) = (length message mod 64)%nat.
Proof.
  cbv zeta. pose proof (Nat.div_mod_eq (length message) 64). rewrite length_take, length_drop. lia.
Qed.

(** The bytes of one iteration, and the two ways it goes on. *)
Lemma absorb_partial message data s total : absorbed message s ->
  (length message mod 64 + length data < 64)%nat ->
  absorbed (message ++ data)
    (Sha256.mk (Sha256.state_ s)
       (Sha256.copy_into (Sha256.buffer_length_ s) data (Sha256.buffer_ s))
       (Sha256.buffer_length_ s + length data) total).
Proof.
  intros [H1 H2 H3 H4] Hd. rewrite H2 in *. set (n := (length message / 64)%nat) in *.
  pose proof (Nat.div_mod_eq (length message) 64) as Hdm. fold n in Hdm.
  assert (En : (length (message ++ data) / 64)%nat = n).
  { symmetry. apply (Nat.div_unique _ 64 _ (length message mod 64 + length data)); [lia|].
    rewrite length_app. lia. }
  destruct (copy_into_spec (length message mod 64) data (Sha256.buffer_ s)) as [Hl Ht]; [done|lia|].
  constructor; cbn [Sha256.buffer_ Sha256.buffer_length_ Sha256.state_].
  - exact Hl.
  - rewrite length_app. apply (Nat.mod_unique _ 64 n); lia.
  - rewrite Ht, En, H3, drop_app_le by lia. done.
  - rewrite En, H4, hash_blocks_app by lia. done.
Qed.

Lemma absorb_full message data s total : absorbed message s ->
  (length message mod 64 + length data = 64)%nat ->
  let buffer := Sha256.copy_into (Sha256.buffer_length_ s) data (Sha256.buffer_ s) in
  absorbed (message ++ data)
    (Sha256.mk (Sha256.process_block buffer (Sha256.state_ s)) buffer 0 total).
Proof.
  intros [H1 H2 H3 H4] Hd. cbv zeta. rewrite H2 in *.
  set (buffer := Sha256.copy_into _ _ _). set (n := (length message / 64)%nat) in *.
  pose proof (Nat.div_mod_eq (length message) 64) as Hdm. fold n in Hdm.
  assert (El : length (message ++ data) = (64 * S n)%nat) by (rewrite length_app; lia).
  assert (En : (length (message ++ data) / 64)%nat = S n).
  { rewrite El, Nat.mul_comm. by apply Nat.div_mul. }
  destruct (copy_into_spec (length message mod 64) data (Sha256.buffer_ s)) as [Hl Ht]; [done|lia|].
  fold buffer in Hl, Ht. rewrite Hd, take_ge, H3 in Ht by lia.
  constructor; cbn [Sha256.buffer_ Sha256.buffer_length_ Sha256.state_].
  - exact Hl.
  - rewrite El, Nat.mul_comm. symmetry. by apply Nat.Div0.mod_mul.
  - rewrite En, drop_ge by lia. done.
  - rewrite En, H4, Ht. rewrite <- (take_drop (64 * n) message) at 3. rewrite <- app_assoc.
    destruct (message_parts message) as [Ha Hb]. fold n in Ha, Hb.
    rewrite hash_blocks_last by (rewrite ?length_app, ?Hb; lia). f_equal.
    rewrite <- (take_drop (64 * n) message) at 1. apply hash_blocks_app. lia.
Qed.

Lemma update_loop_ok fuel data message s : absorbed message s -> (length data <= fuel)%nat ->
  exists s', Sha256.update_loop fuel data s = Ret s' /\ absorbed (message ++ data) s' /\
    Sha256.total_length_ s' = Sha256.total_length_ s.
Proof.
  revert data message s. induction fuel as [|fuel IH]; intros data message s Hs Hf.
  { destruct data; [|cbn in Hf; lia]. exists s. by rewrite app_nil_r. }
  destruct data as [|b data]; [exists s; by rewrite app_nil_r|].
  set (all := b :: data) in *. cbn [Sha256.update_loop]. cbv zeta.
  pose proof (ab_length _ _ Hs) as Hlen. pose proof (Nat.mod_upper_bound (length message) 64 ltac:(lia)).
  assert (Hpos : (0 < length all)%nat) by (cbn; lia).
  change (match all with [] => Ret s | _ => ?x end) with x.
  set (n := Nat.min (length all) (64 - Sha256.buffer_length_ s)).
  assert (Ht : length (take n all) = n) by (rewrite length_take; lia).
  assert (Hd : (length (drop n all) <= fuel)%nat) by (rewrite length_drop; lia).
  assert (Em : message ++ all = (message ++ take n all) ++ drop n all).
  { by rewrite <- app_assoc, take_drop. }
  rewrite Em. destruct (Nat.eqb_spec (Sha256.buffer_length_ s + n) 64) as [E|E].
  - destruct (IH (drop n all) _ _ (absorb_full message (take n all) s (Sha256.total_length_ s) Hs
      ltac:(lia)) Hd) as (s' & E' & H'). by exists s'.
  - destruct (IH (drop n all) _ _ (absorb_partial message (take n all) s (Sha256.total_length_ s) Hs
      ltac:(lia)) Hd) as (s' & E' & H'). rewrite Ht in E'. by exists s'.
Qed.

Lemma update_ok data message s : absorbed message s ->
  exists s', Sha256.update data s = Ret s' /\ absorbed (message ++ data) s' /\
    Sha256.total_length_ s' = u64 (Sha256.total_length_ s + Z.of_nat (length data)).
Proof.
  intros [H1 H2 H3 H4]. unfold Sha256.update.
  destruct (update_loop_ok (length data) data message
    (Sha256.mk (Sha256.state_ s) (Sha256.buffer_ s) (Sha256.buffer_length_ s)
       (u64 (Sha256.total_length_ s + Z.of_nat (length data))))) as (s' & E & H); [done|lia|].
  exists s'. by rewrite E.
Qed.

Lemma pad_loop_ok fuel j message s : absorbed message s -> (j <= fuel)%nat ->
  j = ((120 - length message mod 64) mod 64)%nat ->
  exists s', Sha256.pad_loop fuel s = Ret s' /\ absorbed (message ++ replicate j 0) s' /\
    Sha256.buffer_length_ s' = 56%nat.
Proof.
  revert j message s. induction fuel as [|fuel IH]; intros j message s Hs Hj Ej;
    pose proof (ab_length _ _ Hs) as Hlen;
    pose proof (Nat.mod_upper_bound (length message) 64 ltac:(lia)) as Hb; cbn [Sha256.pad_loop];
    destruct (Nat.eqb_spec (Sha256.buffer_length_ s) 56) as [E|E].
  1, 3: exists s; rewrite <- Hlen, E in Ej; change ((120 - 56) mod 64)%nat with 0%nat in Ej;
    subst j; by rewrite app_nil_r.
  - exfalso. assert (E0 : ((120 - length message mod 64) mod 64)%nat = 0%nat) by lia.
    apply Nat.Div0.mod_divides in E0 as [c Hc]. lia.
  - destruct (update_ok [0] message s Hs) as (s1 & -> & Hs1 & _). cbn [mbind exc_bind].
    assert (Hne : (length message mod 64)%nat <> 56%nat) by lia.
    assert (Ej' : j = S ((120 - length (message ++ [0]%Z) mod 64) mod 64)).
    { rewrite length_app. cbn [length]. rewrite Ej. clear -Hb Hne.
      rewrite (Nat.Div0.add_mod (length message) 1 64).
      set (r := (length message mod 64)%nat) in *. clearbody r.
      do 64 (destruct r as [|r]; [first [lia|reflexivity]|]). lia. }
    destruct j as [|j]; [lia|]. injection Ej' as Ej'.
    destruct (IH j (message ++ [0]) s1 Hs1) as (s' & -> & Hs' & E'); [lia|done|].
    exists s'. split; [done|]. split; [|done]. by rewrite <- app_assoc in Hs'.
Qed.

Lemma construct_absorbed : absorbed [] Sha256.construct.
Proof. by constructor. Qed.

(** Feeding the chunks one after the other. *)
Definition feed (chunks : list (list Z)) : exc Sha256.t :=
  fold_left (fun m chunk => s ← m; Sha256.update chunk s) chunks (Ret Sha256.construct).

Lemma feed_ok chunks message s : absorbed message s ->
  Sha256.total_length_ s = u64 (Z.of_nat (length message)) ->
  exists s', fold_left (fun m chunk => s ← m; Sha256.update chunk s) chunks (Ret s) = Ret s' /\
    absorbed (message ++ concat chunks) s' /\
    Sha256.total_length_ s' = u64 (Z.of_nat (length (message ++ concat chunks))).
Proof.
  revert message s. induction chunks as [|chunk chunks IH]; intros message s Hs Ht.
  { exists s. by rewrite app_nil_r. }
  cbn [fold_left concat mbind exc_bind].
  destruct (update_ok chunk message s Hs) as (s1 & -> & Hs1 & Ht1).
  rewrite app_assoc. apply IH; [done|]. rewrite Ht1, Ht, length_app, Nat2Z.inj_add.
  unfold wrap. by rewrite Z.add_mod_idemp_l.
Qed.

(** C15: the SHA-256 that identifies the ROM of a run.  Fed any number of chunks
    of a message shorter than 2^61 bytes, the object returns the standard's
    hash of the whole message: its blocks with the padding appended, whatever
    the boundaries of the chunks.  Neither the copying loop nor the padding
    loop runs out. *)
Theorem sha256_of_chunks (chunks : list (list Z)) :
  Z.of_nat (length (concat chunks)) < 2 ^ 61 ->
  (s ← feed chunks; Sha256.digest s) = Ret (sha256 (concat chunks)).
Proof.
  intros Hlen. destruct (feed_ok chunks [] _ construct_absorbed eq_refl) as (s & E & Hs & Ht).
  unfold feed. rewrite E. cbn [mbind exc_bind app] in *. set (message := concat chunks) in *.
  unfold Sha256.digest.
  assert (El : u64 (Sha256.total_length_ s * 8) = 8 * Z.of_nat (length message)).
  { rewrite Ht, (wrap_id 64 (Z.of_nat _)) by (unfold fits; lia).
    rewrite Z.mul_comm. apply wrap_id. unfold fits. lia. }
  rewrite El. destruct (update_ok [0x80] message s Hs) as (s1 & -> & Hs1 & _). cbn [mbind exc_bind].
  set (j := ((119 - length message mod 64) mod 64)%nat).
  assert (Hmod : (length message mod 64 < 64)%nat) by (by apply Nat.mod_upper_bound).
  assert (Hj : j = ((120 - length (message ++ [0x80]%Z) mod 64) mod 64)%nat).
  { subst j. rewrite length_app. cbn [length]. rewrite (Nat.Div0.add_mod (length message) 1 64).
    set (r := (length message mod 64)%nat) in *. clearbody r. clear -Hmod.
    do 64 (destruct r as [|r]; [reflexivity|]). lia. }
  assert (Hj64 : (j < 64)%nat) by (by apply Nat.mod_upper_bound).
  destruct (pad_loop_ok 64 j _ s1 Hs1) as (s2 & -> & Hs2 & E2); [lia|done|]. cbn [mbind exc_bind].
  set (last := Sha256.big_endian 8 _). f_equal. unfold sha256, padding. fold j last.
  pose proof (ab_length _ _ Hs2) as Hl2. rewrite E2 in Hl2.
  assert (Hfull : absorbed (((message ++ [0x80]) ++ replicate j 0) ++ last)
    (Sha256.mk (Sha256.process_block (Sha256.copy_into 56 last (Sha256.buffer_ s2)) (Sha256.state_ s2))
       (Sha256.copy_into 56 last (Sha256.buffer_ s2)) 0 0)).
  { rewrite <- E2. apply absorb_full; [done|]. by rewrite <- Hl2. }
  apply ab_state in Hfull. cbn [Sha256.state_] in Hfull. rewrite Hfull.
  by rewrite <- !app_assoc.
Qed.

(** The test vector of the standard, in two chunks. *)
Lemma sha256_of_chunks_witness :
  (s ← feed [[97]; [98; 99]]; Sha256.digest s) = Ret (sha256 [97; 98; 99]) /\
  hex_fixed (sha256 [97; 98; 99]) =
    "ba7816bf8f01cfea414140de5dae2223b00361a396177a9cb410ff61f20015ad".
Proof.
  split; [apply (sha256_of_chunks [[97]; [98; 99]]); by vm_compute|by vm_compute].
Defined.

(** ** Reading an input script ends *)

(** A reader moves on, or leaves the program. *)
Definition reads {A} (m : Parser A) : Prop := forall text,
  match m text with
  | parsed _ rest => (length rest <= length text)%nat
  | exits _ => True
  | unfinished => False
  end.

Lemma reads_ret {A} (a : A) : reads (mret a).
Proof. intros text. cbn. lia. Qed.

Lemma reads_exit {A} code : reads (@exit_with A code).
Proof. by intros text. Qed.

Lemma reads_bind {A B} (m : Parser A) (f : A -> Parser B) :
  reads m -> (forall a, reads (f a)) -> reads (m ≫= f).
Proof.
  intros Hm Hf text. specialize (Hm text). unfold mbind, parser_bind.
  destruct (m text) as [a rest| |]; [|done..]. specialize (Hf a rest).
  destruct (f a rest); [lia|done..].
Qed.

Lemma skip_ws_length text : (length (skip_ws text) <= length text)%nat.
Proof. induction text as [|c text IH]; [done|]. cbn. destruct (is_space c); cbn; lia. Qed.

Lemma consume_reads c text :
  match consume c text with
  | parsed true rest => (length rest < length text)%nat
  | parsed false rest => (length rest <= length text)%nat
  | _ => False
  end.
Proof.
  unfold consume. pose proof (skip_ws_length text) as H.
  destruct (skip_ws text) as [|d rest]; [done|]. cbn in H. destruct (Ascii.eqb d c); cbn; lia.
Qed.

Lemma reads_consume c : reads (consume c).
Proof.
  intros text. pose proof (consume_reads c text) as H. destruct (consume c text) as [[] rest| |]; try done. lia.
Qed.

Lemma string_body_length n text out rest : (length text <= n)%nat ->
  string_body text = Some (out, rest) -> (length rest < length text)%nat.
Proof.
  revert text out. induction n as [|n IH]; intros text out Hn E; destruct text as [|c text]; try done.
  - cbn in Hn. lia.
  - cbn in Hn, E. destruct (Ascii.eqb c quote); [injection E as _ <-; cbn; lia|].
    destruct (Ascii.eqb c backslash); [destruct text as [|d text]; [done|]|];
      (destruct (string_body text) as [[out' rest']|] eqn:E'; [|done]); injection E as _ <-;
      apply IH in E'; cbn in *; lia.
Qed.

Lemma reads_string : reads parse_string.
Proof.
  intros text. unfold parse_string. pose proof (skip_ws_length text) as H.
  destruct (skip_ws text) as [|c rest]; [done|]. cbn in H.
  destruct (Ascii.eqb c quote); [|cbn; lia].
  destruct (string_body rest) as [[out rest']|] eqn:E; [|cbn; lia].
  apply (string_body_length _ _ _ _ (le_n _)) in E. lia.
Qed.

Lemma digits_length v text : (length (digits v text).2 <= length text)%nat.
Proof.
  revert v. induction text as [|c text IH]; intros v; [done|]. cbn.
  destruct (is_digit c); [|done]. destruct (_ <? _); cbn; [lia|]. specialize (IH (v * 10 + (Z.of_N (N_of_ascii c) - 48))). lia.
Qed.

Lemma reads_u32 : reads parse_u32.
Proof.
  intros text. unfold parse_u32. pose proof (skip_ws_length text) as H.
  destruct (skip_ws text) as [|c rest]; [done|]. destruct (is_digit c); [|done].
  pose proof (digits_length 0 (c :: rest)). destruct (digits 0 (c :: rest)). cbn in *. lia.
Qed.

Lemma do_while_reads {S} fuel (body : S -> Parser S) s text :
  (forall s, reads (body s)) -> (length text < fuel)%nat ->
  match do_while fuel body s text with
  | parsed _ rest => (length rest <= length text)%nat
  | exits _ => True
  | unfinished => False
  end.
Proof.
  intros Hb. revert s text. induction fuel as [|fuel IH]; intros s text Hf; [lia|].
  cbn [do_while]. unfold mbind, parser_bind. pose proof (Hb s text) as H.
  destruct (body s text) as [s1 rest| |]; [|done..].
  pose proof (consume_reads ","%char rest) as Hc.
  destruct (consume "," rest) as [[] rest'| |]; [|cbn; lia|done..].
  specialize (IH s1 rest' ltac:(lia)). destruct (do_while fuel body s1 rest'); [lia|done..].
Qed.

Lemma reads_repeat {S} (body : S -> Parser S) s : (forall s, reads (body s)) -> reads (repeat_commas body s).
Proof. intros Hb text. by apply do_while_reads; [|lia]. Qed.

(** More fuel than the text is long makes no difference. *)
Lemma do_while_fuel {S} f f' (body : S -> Parser S) s text :
  do_while f body s text <> unfinished -> (f <= f')%nat ->
  do_while f' body s text = do_while f body s text.
Proof.
  revert f' s text. induction f as [|f IH]; intros f' s text H Hf; [done|].
  destruct f' as [|f']; [lia|]. cbn [do_while] in *. unfold mbind, parser_bind in *.
  destruct (body s text) as [s1 rest| |]; [|done..].
  destruct (consume "," rest) as [[] rest'| |]; [|done..]. apply IH; [done|lia].
Qed.

Lemma repeat_enough {S} f (body : S -> Parser S) s text :
  (forall s, reads (body s)) -> (length text < f)%nat ->
  repeat_commas body s text = do_while f body s text.
Proof.
  intros Hb Hf. unfold repeat_commas. symmetry. apply do_while_fuel; [|lia].
  pose proof (do_while_reads (Datatypes.S (length text)) body s text Hb ltac:(lia)) as H.
  by destruct (do_while _ body s text).
Qed.

Ltac reader part := repeat first
  [ part | apply reads_ret | apply reads_exit | apply reads_consume | apply reads_string | apply reads_u32
  | apply reads_repeat; intros ? | apply reads_bind; [|intros ?] | case_match ].

Lemma reads_field e : reads (parse_field e).
Proof. unfold parse_field. reader fail. Qed.

Lemma reads_event events : reads (parse_event events).
Proof. unfold parse_event. reader ltac:(apply reads_field). Qed.

Lemma reads_key events : reads (parse_key events).
Proof. unfold parse_key. reader ltac:(apply reads_event). Qed.

Lemma reads_script : reads parse_input_script.
Proof. unfold parse_input_script. reader ltac:(apply reads_key). Qed.

(** ** What is printed is read *)

(** Decimal digits, without leading zeros. *)
Definition digit_char (d : Z) : ascii := ascii_of_N (Z.to_N (48 + d)).
Fixpoint number (fuel : nat) (n : Z) : Text :=
  match fuel with
  | O => [digit_char n]
  | S fuel' => if n <? 10 then [digit_char n] else number fuel' (n / 10) ++ [digit_char (n mod 10)]
  end.

Definition literal (text : string) : Text := quote :: list_ascii_of_string text ++ [quote].

Definition button_name (b : KeypadButton.t) : string :=
  match b with
  | KeypadButton.a => "A" | KeypadButton.b => "B" | KeypadButton.select => "SELECT"
  | KeypadButton.start => "START" | KeypadButton.right => "RIGHT" | KeypadButton.left => "LEFT"
  | KeypadButton.up => "UP" | KeypadButton.down => "DOWN" | KeypadButton.r => "R"
  | KeypadButton.l => "L"
  end.

Lemma digit_not_space c : is_digit c = true -> is_space c = false.
Proof.
  unfold is_digit, is_space. rewrite andb_true_iff, !N.leb_le. intros H.
  rewrite orb_false_iff, N.eqb_neq, andb_false_iff, !N.leb_gt. lia.
Qed.

Lemma skip_spaces l c text : Forall (fun d => is_space d = true) l -> is_space c = false ->
  skip_ws (l ++ c :: text) = c :: text.
Proof.
  intros Hl Hc. induction Hl as [|d l Hd _ IH]; cbn; [by rewrite Hc|]. by rewrite Hd.
Qed.

(** The text of a script as a user writes it, with white space [ws] before
    every token. *)
Section Print.
Context (ws : Text).

Definition tokens (l : list Text) : Text := concat (map (app ws) l).

Definition print_field (name : string) (value : Text) : Text :=
  tokens [literal name; [":"%char]; value].

Definition print_event (e : InputEvent) : Text :=
  tokens [["{"%char]] ++ print_field "frame" (number 10 (ev_frame e)) ++
  tokens [[","%char]] ++ print_field "button" (literal (button_name (ev_button e))) ++
  tokens [[","%char]] ++ print_field "state" (literal (if ev_down e then "down" else "up")) ++
  tokens [["}"%char]].

Fixpoint print_events (events : list InputEvent) : Text :=
  match events with
  | [] => []
  | [e] => print_event e
  | e :: events' => print_event e ++ tokens [[","%char]] ++ print_events events'
  end.

Definition print_script (events : list InputEvent) : Text :=
  tokens [["{"%char]; literal "events"; [":"%char]; ["["%char]] ++ print_events events ++
  tokens [["]"%char]; ["}"%char]].

Hypothesis ws_space : Forall (fun c => is_space c = true) ws.

Lemma skip_ws_app c text : is_space c = false -> skip_ws (ws ++ c :: text) = c :: text.
Proof using ws_space. by apply skip_spaces. Qed.

Lemma tokens_cons t l : tokens (t :: l) = ws ++ t ++ tokens l.
Proof using Type. unfold tokens. cbn. by rewrite <- app_assoc. Qed.

Lemma consume_token c text : is_space c = false -> consume c (ws ++ c :: text) = parsed true text.
Proof using ws_space. intros Hc. unfold consume. by rewrite skip_ws_app, Ascii.eqb_refl. Qed.

Lemma consume_other c d text : is_space d = false -> Ascii.eqb d c = false ->
  consume c (ws ++ d :: text) = parsed false (d :: text).
Proof using ws_space. intros Hd Hc. unfold consume. by rewrite skip_ws_app, Hc. Qed.

Lemma consume_here c text : is_space c = false -> consume c (c :: text) = parsed true text.
Proof using Type. intros Hc. unfold consume. cbn. by rewrite Hc, Ascii.eqb_refl. Qed.

Lemma string_token name text :
  Forall (fun c => c <> quote /\ c <> backslash) (list_ascii_of_string name) ->
  parse_string (ws ++ literal name ++ text) = parsed (Some name) text.
Proof using ws_space.
  intros Hn. unfold parse_string, literal. cbn [app]. rewrite skip_ws_app by done.
  rewrite Ascii.eqb_refl. rewrite <- app_assoc. cbn [app].
  assert (E : forall l, Forall (fun c => c <> quote /\ c <> backslash) l ->
    string_body (l ++ quote :: text) = Some (l, text)).
  { induction 1 as [|c l [H1 H2] _ IH]; cbn [app string_body]; [done|].
    apply Ascii.eqb_neq in H1, H2. rewrite H1, H2, IH. done. }
  rewrite E by done. by rewrite string_of_list_ascii_of_string.
Qed.

Lemma digit_char_spec d : 0 <= d < 10 ->
  is_digit (digit_char d) = true /\ Z.of_N (N_of_ascii (digit_char d)) - 48 = d.
Proof using Type.
  intros Hd. assert (HF : Forall (fun d => is_digit (digit_char d) = true /\
    Z.of_N (N_of_ascii (digit_char d)) - 48 = d) (seqZ 0 10)).
  { apply (bool_decide_unpack _). by vm_compute. }
  rewrite Forall_forall in HF. apply HF, list_elem_of_In, elem_of_seqZ. lia.
Qed.

Lemma digits_number fuel n text : 0 <= n < 10 ^ Z.of_nat (S fuel) -> n <= 0xFFFFFFFF ->
  digits 0 (number fuel n ++ text) = digits n text.
Proof using Type.
  revert n text. induction fuel as [|fuel IH]; intros n text Hn Hm; cbn [number].
  - destruct (digit_char_spec n) as [H1 H2]; [done|]. cbn [app digits]. rewrite H1, H2.
    change (0 * 10) with 0. by rewrite Z.add_0_l, (proj2 (Z.ltb_ge _ _) Hm).
  - destruct (Z.ltb_spec n 10).
    + destruct (digit_char_spec n) as [H1 H2]; [lia|]. cbn [app digits]. rewrite H1, H2.
      change (0 * 10) with 0. by rewrite Z.add_0_l, (proj2 (Z.ltb_ge _ _) Hm).
    + rewrite <- app_assoc, IH.
      * destruct (digit_char_spec (n mod 10)) as [H1 H2]; [by apply Z.mod_pos_bound|].
        cbn [app digits]. rewrite H1, H2.
        assert (n / 10 * 10 + n mod 10 = n) as -> by (pose proof (Z.div_mod n 10); lia).
        by rewrite (proj2 (Z.ltb_ge _ _) Hm).
      * rewrite (Nat2Z.inj_succ (S fuel)), Z.pow_succ_r in Hn by lia.
        split; [apply Z.div_pos; lia|]. apply Z.div_lt_upper_bound; lia.
      * assert (n / 10 <= n) by (apply Z.div_le_upper_bound; lia). lia.
Qed.

Lemma number_head fuel n : 0 <= n -> (n < 10 ^ Z.of_nat (S fuel)) ->
  exists d l, number fuel n = digit_char d :: l /\ 0 <= d < 10.
Proof using Type.
  revert n. induction fuel as [|fuel IH]; intros n Hn Hm; cbn [number].
  - by exists n, [].
  - destruct (Z.ltb_spec n 10); [by exists n, []|].
    destruct (IH (n / 10)) as (d & l & -> & Hd).
    + apply Z.div_pos; lia.
    + rewrite (Nat2Z.inj_succ (S fuel)), Z.pow_succ_r in Hm by lia. apply Z.div_lt_upper_bound; lia.
    + exists d, (l ++ [digit_char (n mod 10)]). done.
Qed.

(** A number is followed by something else. *)
Lemma number_token n c text : fits 32 n -> is_space c = false -> is_digit c = false ->
  parse_u32 (ws ++ number 10 n ++ ws ++ c :: text) = parsed (Some n) (ws ++ c :: text).
Proof using ws_space.
  intros Hn Hs Hc. unfold parse_u32. unfold fits in Hn.
  assert (Hb : 10 ^ Z.of_nat 11 = 100000000000) by reflexivity.
  destruct (number_head 10 n ltac:(lia) ltac:(lia)) as (d & l & E & Hd).
  destruct (digit_char_spec d Hd) as [Hdig _].
  pose proof (digit_not_space _ Hdig) as Hsp.
  rewrite E. cbn [app]. rewrite skip_ws_app by done. rewrite Hdig.
  change (digit_char d :: l ++ ws ++ c :: text) with ((digit_char d :: l) ++ ws ++ c :: text).
  rewrite <- E, digits_number by lia.
  assert (Hend : digits n (ws ++ c :: text) = (Some n, ws ++ c :: text)).
  { destruct ws_space as [|d' ws' Hd' _]; cbn; [by rewrite Hc|].
    assert (is_digit d' = false) as ->; [|done].
    destruct (is_digit d') eqn:E'; [|done]. apply digit_not_space in E'. congruence. }
  by rewrite Hend.
Qed.

Lemma parser_run {A B} (m : Parser A) (f : A -> Parser B) text a rest :
  m text = parsed a rest -> (m ≫= f) text = f a rest.
Proof using Type. intros E. unfold mbind, parser_bind. by rewrite E. Qed.

Lemma field_app name value text :
  print_field name value ++ text = ws ++ literal name ++ ws ++ ":"%char :: ws ++ value ++ text.
Proof using Type.
  unfold print_field. rewrite !tokens_cons. unfold tokens. cbn [map concat]. rewrite app_nil_r.
  by rewrite <- !app_assoc.
Qed.

Lemma one_token t text : tokens [t] ++ text = ws ++ t ++ text.
Proof using Type. rewrite tokens_cons. unfold tokens. cbn. by rewrite app_nil_r, app_assoc. Qed.

Ltac run_token :=
  (erewrite parser_run by
    first [apply string_token; by repeat constructor|by apply consume_token|by apply number_token]);
  lazy beta iota delta [negb orb andb String.eqb Ascii.eqb Bool.eqb].

Lemma frame_field f b d hf hb hs n c text : fits 32 n -> is_space c = false -> is_digit c = false ->
  parse_field (mkEventState (mkInputEvent f b d) hf hb hs)
    (print_field "frame" (number 10 n) ++ ws ++ c :: text) =
  parsed (mkEventState (mkInputEvent n b d) true hb hs) (ws ++ c :: text).
Proof using ws_space.
  intros Hn Hs Hd. rewrite field_app. unfold parse_field. run_token. run_token. by run_token.
Qed.

Lemma button_field f b d hf hb hs b' text :
  parse_field (mkEventState (mkInputEvent f b d) hf hb hs)
    (print_field "button" (literal (button_name b')) ++ text) =
  parsed (mkEventState (mkInputEvent f b' d) hf true hs) text.
Proof using ws_space.
  rewrite field_app. unfold parse_field. run_token. run_token. destruct b'; by run_token.
Qed.

Lemma state_field f b d hf hb hs (d' : bool) text :
  parse_field (mkEventState (mkInputEvent f b d) hf hb hs)
    (print_field "state" (literal (if d' then "down" else "up")) ++ text) =
  parsed (mkEventState (mkInputEvent f b d') hf hb true) text.
Proof using ws_space.
  rewrite field_app. unfold parse_field. run_token. run_token. destruct d'; by run_token.
Qed.

(** The iterations of a loop over commas. *)
Lemma do_while_more {S} fuel (body : S -> Parser S) s s1 text rest rest' :
  body s text = parsed s1 rest -> consume "," rest = parsed true rest' ->
  do_while (Datatypes.S fuel) body s text = do_while fuel body s1 rest'.
Proof using Type. intros E1 E2. cbn [do_while]. by rewrite (parser_run _ _ _ _ _ E1), (parser_run _ _ _ _ _ E2). Qed.

Lemma do_while_last {S} fuel (body : S -> Parser S) s s1 text rest rest' :
  body s text = parsed s1 rest -> consume "," rest = parsed false rest' ->
  do_while (Datatypes.S fuel) body s text = parsed s1 rest'.
Proof using Type. intros E1 E2. cbn [do_while]. by rewrite (parser_run _ _ _ _ _ E1), (parser_run _ _ _ _ _ E2). Qed.

Lemma event_read acc e text : fits 32 (ev_frame e) ->
  parse_event acc (print_event e ++ text) = parsed (acc ++ [e]) text.
Proof using ws_space.
  intros Hf. unfold parse_event, print_event. rewrite <- !app_assoc, !one_token. cbn [app].
  run_token. cbn [negb]. destruct e as [n b d]. cbn [ev_frame ev_button ev_down] in *.
  erewrite parser_run; cycle 1.
  { rewrite (repeat_enough (S (S (S (length (print_field "frame" (number 10 n) ++ ws ++ ","%char ::
      print_field "button" (literal (button_name b)) ++ ws ++ ","%char ::
      print_field "state" (literal (if d then "down" else "up")) ++ ws ++ "}"%char :: text))))))
      by (first [apply reads_field|lia]).
    erewrite do_while_more by (first [by apply frame_field|by apply consume_token]).
    erewrite do_while_more by (first [by apply button_field|by apply consume_token]).
    erewrite do_while_last by (first [by apply state_field|by apply consume_other]). reflexivity. }
  erewrite parser_run by (by apply consume_here). done.
Qed.

Lemma events_read fuel acc events c text : events <> [] -> (length events <= fuel)%nat ->
  Forall (fun e => fits 32 (ev_frame e)) events -> is_space c = false -> Ascii.eqb c "," = false ->
  do_while fuel parse_event acc (print_events events ++ ws ++ c :: text) =
    parsed (acc ++ events) (c :: text).
Proof using ws_space.
  intros Hne Hf He Hs Hc. revert fuel acc Hne Hf.
  induction He as [|e events He _ IH]; intros fuel acc Hne Hf; [done|].
  destruct fuel as [|fuel]; [cbn in Hf; lia|]. destruct events as [|e' events].
  - cbn [print_events]. eapply do_while_last; [by apply event_read|by apply consume_other].
  - change (print_events (e :: e' :: events))
      with (print_event e ++ tokens [[","%char]] ++ print_events (e' :: events)).
    rewrite <- !app_assoc, one_token. erewrite do_while_more; [|by apply event_read|by apply consume_token].
    rewrite IH; [by rewrite <- app_assoc|done|cbn in Hf |- *; lia].
Qed.

Lemma key_read events text : Forall (fun e => fits 32 (ev_frame e)) events ->
  parse_key [] (tokens [literal "events"; [":"%char]; ["["%char]] ++ print_events events ++
    tokens [["]"%char]] ++ text) = parsed events text.
Proof using ws_space.
  intros He. unfold parse_key. rewrite !tokens_cons. unfold tokens. cbn [map concat].
  rewrite !app_nil_r, <- !app_assoc. cbn [app]. run_token. run_token. run_token.
  destruct events as [|e events].
  { cbn [app print_events]. by run_token. }
  cbn [negb orb]. set (all := e :: events) in *.
  assert (Hhead : exists t, print_events all = ws ++ "{"%char :: t).
  { subst all. destruct events; cbn [print_events]; unfold print_event;
      rewrite <- ?app_assoc, one_token; cbn [app]; by eexists. }
  destruct Hhead as [t Et]. rewrite Et, <- app_assoc. cbn [app].
  erewrite parser_run by (by apply consume_other). cbv iota beta.
  erewrite parser_run; cycle 1.
  { set (rest := "{"%char :: t ++ ws ++ "]"%char :: text).
    rewrite (repeat_enough (S (length rest + length all))) by (first [apply reads_event|lia]).
    transitivity (do_while (S (length rest + length all)) parse_event [] (ws ++ rest)).
    - cbn [do_while]. unfold mbind at 1 3, parser_bind.
      assert (E : parse_event [] rest = parse_event [] (ws ++ rest)) by
        (unfold parse_event; subst rest; by erewrite !parser_run
           by first [by apply consume_here|by apply consume_token]).
      by rewrite E.
    - replace (ws ++ rest) with (print_events all ++ ws ++ "]"%char :: text)
        by (subst rest; by rewrite Et, <- app_assoc).
      apply events_read; try done. lia. }
  by erewrite parser_run by (by apply consume_here).
Qed.
End Print.

Lemma insert_event_perm e l : insert_event e l ≡ₚ e :: l.
Proof.
  induction l as [|x l IH]; cbn; [done|]. case_decide; [done|]. rewrite IH. apply Permutation_swap.
Qed.

Lemma insert_event_sorted e l : StronglySorted earlier l -> StronglySorted earlier (insert_event e l).
Proof.
  induction 1 as [|x l Hl IH Hx]; cbn; [by repeat constructor|]. case_decide as Hd.
  - constructor; [by constructor|]. constructor; [done|]. eapply List.Forall_impl; [|exact Hx].
    intros y Hy. unfold earlier in *. lia.
  - constructor; [done|]. rewrite insert_event_perm. constructor; [unfold earlier in *; lia|done].
Qed.

Lemma sort_events_ok events :
  sort_events events ≡ₚ events /\ StronglySorted earlier (sort_events events).
Proof.
  induction events as [|e events [IHp IHs]]; cbn; [by repeat constructor|].
  split; [by rewrite insert_event_perm, IHp|by apply insert_event_sorted].
Qed.

(** C14: an input script is read as it was written.  The text of a list of
    events, with any white space before its tokens, is read back as those
    events in the order of their frames, and the reader stops behind the
    object.  On any text whatever the reader ends: it returns or leaves the
    program, and none of its three nested loops runs on. *)
Theorem input_script_roundtrip (ws text : Text) (events : list InputEvent) :
  Forall (fun c => is_space c = true) ws ->
  Forall (fun e => fits 32 (ev_frame e)) events ->
  parse_input_script (print_script ws events ++ text) = parsed (sort_events events) text /\
  sort_events events ≡ₚ events /\ StronglySorted earlier (sort_events events) /\
  forall text', parse_input_script text' <> unfinished.
Proof.
  intros Hws He. destruct (sort_events_ok events) as [Hp Hs].
  split; [|split; [done|split; [done|]]]; cycle 1.
  { intros text' E. pose proof (reads_script text') as H. by rewrite E in H. }
  unfold parse_input_script, print_script.
  set (rest := literal "events" ++ tokens ws [[":"%char]; ["["%char]] ++ print_events ws events ++
    tokens ws [["]"%char]] ++ tokens ws [["}"%char]] ++ text).
  assert (Et : (tokens ws [["{"%char]; literal "events"; [":"%char]; ["["%char]] ++
    print_events ws events ++ tokens ws [["]"%char]; ["}"%char]]) ++ text = ws ++ "{"%char :: ws ++ rest).
  { subst rest. rewrite !tokens_cons. unfold tokens. cbn [map concat].
    rewrite !app_nil_r, <- !app_assoc. cbn [app]. by rewrite <- ?app_assoc. }
  rewrite Et. erewrite parser_run by (by apply consume_token). cbn [negb].
  erewrite parser_run by (by apply consume_other). cbv iota beta.
  assert (Ek : parse_key [] rest = parsed events (tokens ws [["}"%char]] ++ text)).
  { rewrite <- (key_read ws Hws events _ He). unfold parse_key.
    rewrite (tokens_cons ws (literal "events")), <- !app_assoc.
    by erewrite !parser_run by first [apply (string_token ws Hws); by repeat constructor
      |apply (string_token [] (List.Forall_nil _)); by repeat constructor]. }
  erewrite parser_run; cycle 1.
  { unfold repeat_commas. eapply do_while_last; [exact Ek|].
    rewrite one_token. by apply consume_other. }
  by erewrite parser_run by (by apply consume_here).
Qed.

(** The example of the documentation, its events the other way round. *)
Lemma input_script_roundtrip_witness :
  let down := mkInputEvent 60 KeypadButton.start true in
  let up := mkInputEvent 62 KeypadButton.start false in
  parse_input_script (print_script [" "%char; "010"%char] [up; down]) = parsed [down; up] [].
Proof.
  cbv zeta. rewrite <- (app_nil_r (print_script _ _)).
  apply (input_script_roundtrip [" "%char; "010"%char] []
    [mkInputEvent 62 KeypadButton.start false; mkInputEvent 60 KeypadButton.start true]);
    by repeat constructor.
Defined.

(** ** The verdict *)

Lemma apply_events_ok frame events mask r : runtime_wf r ->
  runtime_wf (apply_events frame events mask r).2.
Proof.
  revert mask r. induction events as [|e events IH]; intros mask r Hr; [done|]. cbn [apply_events].
  destruct (ev_frame e =? frame); [|done]. apply IH, set_session_wf; [done|].
  apply CoreSessionSpec.set_input_mask_wf; [|apply Hr]. destruct (ev_down e); by apply wrap_fits.
Qed.

(** A run of which every frame so far is complete. *)
Record clean_lab (frame : Z) (l : LabRun) : Prop := mk_clean_lab {
  cl_runtime : runtime_wf (lr_runtime l);
  cl_dump : dump_ok (Some (lr_dump l));
  cl_completed : completed_frames l = frame;
  cl_unsupported : unsupported_instructions l = 0;
  cl_failures : lr_fetch_failures l = 0;
  cl_seen : abnormal_seen l = false;
  cl_exhausted : frame_budget_exhausted l = false
}.

(** What the loop promises of a run that ended. *)
Definition judged (o : CliOptions) (l : LabRun) : Prop :=
  runtime_wf (lr_runtime l) /\ 0 <= completed_frames l <= frames o /\
  (verdict l = 0 <-> completed_frames l = frames o) /\
  (stop_text l = "completed" <-> completed_frames l = frames o).

Lemma clean_judged o l : clean_lab (frames o) l -> fits 32 (frames o) -> judged o l.
Proof.
  intros [Hr _ Hc Hu Hf Hs He] [Ho _]. split; [done|]. split; [lia|].
  unfold verdict, stop_text. rewrite Hu, Hf, Hs, He, Hc. done.
Qed.

Lemma stop_reason_text reason : stop_reason_name reason <> "completed"%string.
Proof. by destruct reason. Qed.

(** The evidence changes neither the runtime nor the dump. *)
Lemma record_frame_fields o frame result l :
  let l' := sample_picture o frame (record_frame o frame result l) in
  lr_runtime l' = lr_runtime l /\ lr_dump l' = lr_dump l /\
  completed_frames l' =
    (if frame_complete result then u32 (completed_frames l + 1) else completed_frames l) /\
  unsupported_instructions l' = u32 (unsupported_instructions l + unsupported_steps (fr_run result)) /\
  lr_fetch_failures l' = u32 (lr_fetch_failures l + fetch_failures (fr_run result)) /\
  abnormal_seen l' = abnormal_stop (fr_run result) || abnormal_seen l /\
  frame_budget_exhausted l' = frame_budget_exhausted l.
Proof.
  cbv zeta. unfold sample_picture, record_frame. destruct l, (frame_complete result); cbn;
    destruct (abnormal_stop (fr_run result)), abnormal_seen0; cbn;
    destruct (frame_hash o && _); by split_and!.
Qed.

Lemma lab_frame_ok fuel png o frame l : clean_lab frame l -> fits 32 (max_steps_per_frame o) ->
  fits 32 (Z.of_nat fuel) -> fits 32 (frames o) -> 0 <= frame < frames o ->
  ensures (fun e => match e with
    | next_frame l' => clean_lab (frame + 1) l'
    | breaks l' => judged o l'
    | returns_code code => code = 3
    | still_runs => True
    end) (lab_frame fuel png o frame l).
Proof.
  intros [Hr Hd Hc Hu Hf Hs He] Hm Hfuel Ho Hframe. unfold lab_frame.
  pose proof (apply_events_ok frame (remaining_events l) (input_mask l) _ Hr) as Hr1.
  destruct (apply_events _ _ _ _) as [[events mask] r]. cbn [snd] in Hr1.
  pose proof (step_frame_report fuel (max_steps_per_frame o) (Some (lr_dump l)) r Hr1 Hd Hm Hfuel) as H.
  change (lr_dump (l <| remaining_events := events |> <| input_mask := mask |>)) with (lr_dump l).
  destruct (step_frame_with_fetch_trace _ _ _ r) as [[st|[[result dump] r']]|]; [| |done];
    cbn [mbind exc_bind]; [by apply ensures_ret|].
  destruct H as (Hr' & Hd' & _ & Hrep).
  set (l1 := set_field lr_dump _ _). case_bool_decide as Hst; cbn [negb]; [|by apply ensures_ret].
  assert (Hd1 : dump_ok (Some (lr_dump l1))).
  { intros d [= <-]. cbn. destruct dump as [d|]; cbn; [by apply Hd'|by apply (Hd _ eq_refl)]. }
  destruct (record_frame_fields o frame result l1) as (E1 & E2 & E3 & E4 & E5 & E6 & E7).
  set (l2 := sample_picture _ _ _) in *.
  change (completed_frames l1) with (completed_frames l) in E3. rewrite Hc in E3.
  change (abnormal_seen l1) with (abnormal_seen l) in E6. rewrite Hs, orb_false_r in E6.
  assert (Hrt : runtime_wf (lr_runtime l2)) by (rewrite E1; exact Hr').
  destruct (frame_complete result) eqn:Ec; cbn [negb].
  - assert (Hclean : clean_run (fr_run result) /\ abnormal_stop (fr_run result) = false).
    { destruct Hrep as [(Hbad & _ & _)|(_ & _ & _ & H)]; [by rewrite Hst in Hbad|by apply H]. }
    destruct Hclean as [[Hu0 Hf0] Ha].
    change (unsupported_instructions l1) with (unsupported_instructions l) in E4.
    change (lr_fetch_failures l1) with (lr_fetch_failures l) in E5.
    rewrite Hu, Hu0 in E4. rewrite Hf, Hf0 in E5. rewrite Ha in E6.
    assert (clean_lab (frame + 1) l2).
    { constructor; try done; [by rewrite E2| |by rewrite E7].
      rewrite E3. apply wrap_id. unfold fits in *. lia. }
    case_match; by apply ensures_ret.
  - apply ensures_ret. split; [exact Hrt|]. cbn [completed_frames set_field]. cbn.
    rewrite E3. split; [lia|]. unfold verdict, stop_text. cbn.
    assert (Hne : frame <> frames o) by lia. destruct (abnormal_seen l2); cbn.
    + rewrite !orb_true_r, orb_true_l || rewrite !orb_true_r. split; split; try done.
      intros E. by apply stop_reason_text in E.
    + rewrite !orb_true_r. split; split; try done.
Qed.

Lemma lab_frames_ok fuel png o n frame l : clean_lab frame l -> fits 32 (max_steps_per_frame o) ->
  fits 32 (Z.of_nat fuel) -> fits 32 (frames o) -> 0 <= frame -> frame + Z.of_nat n = frames o ->
  ensures (fun e => match e with
    | next_frame _ => False
    | breaks l' => judged o l'
    | returns_code code => code = 3
    | still_runs => True
    end) (lab_frames fuel png o n frame l).
Proof.
  intros Hl Hm Hfuel Ho. revert frame l Hl. induction n as [|n IH]; intros frame l Hl H0 Hn; cbn [lab_frames].
  { apply ensures_ret. apply clean_judged; [|done]. by replace (frames o) with frame by lia. }
  apply (ensures_bind _ _ _ _ (lab_frame_ok fuel png o frame l Hl Hm Hfuel Ho ltac:(lia))).
  intros [l'|l'|code|] H; try by apply ensures_ret. apply IH; [done|lia..].
Qed.


(** One frame with five steps: the budget is used up and the code is 1. *)
Definition short_run : CliOptions := default_options <| frames := 1 |> <| max_steps_per_frame := 5 |>.


(** A number too large for 32 bits, or followed by something else, is taken. *)
Example frames_truncated :
  frames <$> (match parse_cli ["game.gba"; "--frames"; "4294967296"] with
              | inr o => Some o | inl _ => None end) = Some 0 /\
  frames <$> (match parse_cli ["game.gba"; "--frames"; "12abc"] with
              | inr o => Some o | inl _ => None end) = Some 12 /\
  frames <$> (match parse_cli ["game.gba"; "--frames"; "-1"] with
              | inr o => Some o | inl _ => None end) = Some 0xFFFFFFFF.
Proof. vm_compute. split_and!; reflexivity. Qed.

(** Only quotes and backslashes are escaped. *)
Example escape_keeps_newlines : json_escape newline = newline.
Proof. reflexivity. Qed.
